(* ===== verification/_CoqProject ===== *)
-Q . S2P
Prelude.v
PyDecimal.v
PyText.v
Digest.v
JsonText.v
Market.v
BacktestConfig.v
MarketView.v
Fills.v
Costs.v
Ledger.v
Metrics.v
DataQuality.v
CandleStore.v
Ingest.v
StrategyContracts.v
Features.v
Regime.v
Trend.v
Breakout.v
Registry.v
SignalAdapter.v
ExactDec.v
Evaluate.v
Artifacts.v
Runs.v
Reports.v
RiskContracts.v
HashChain.v
RiskState.v
Sizing.v
Limits.v
Protective.v
Circuit.v
KillSwitch.v
RiskAdapter.v
Execution.v
Journal.v
OrderState.v
LocalFills.v
Portfolio.v
Reconcile.v
Snapshot.v
Recovery.v
Recovered.v
Operator.v
