(* ===== verification/Prelude.v ===== *)
(** * Verification of the trading lab

    A shallow embedding of the paper-trading core of the repository (Python,
    under src/yatl/) with the theorems that make it correct.  The program is a
    pipeline of packages; each takes the immutable records of the one before it:

    - [yatl/data]: candles from the exchange are normalized, checked, stored;
    - [yatl/backtest]: accepted datasets are shown bar by bar, paper intents are
      filled at the next open, costed, and booked in a ledger;
    - [yatl/strategy]: features, a regime and two registered candidates turn a
      point-in-time view into a decision; a candidate is run offline over sealed
      data, and its evidence is held to a frozen protocol;
    - [yatl/risk]: the decision is sized, limited, gated, and authorized under
      circuit breakers and a latched kill switch, then driven through the fill
      engine by an adapter;
    - [yatl/execution]: authorizations are routed, journalled once, and given a
      durable local order whose events are replayed on every read, and filled;
      the fills are booked in a durable portfolio, and a read-only reconciliation
      of all stores decides at startup whether the system is ready; snapshots
      accelerate nothing but bind that decision to what was stored before, and the
      operator's commands report it with an exit code.

    ** Files

    Every file opens with the module it models; definitions keep the source's
    names (a Python class [X] with [__post_init__] is a Record with a function
    [x_post_init], a constructor call is [new_x], a raised exception is an [Err]
    with the module's class and message, a mutating method is a state-passing
    [stm]).

    - Prelude: exceptions, [result] and [stm] with their notations and tactics,
      powers of ten, lists, sorting.
    - PyDecimal, PyText: Python's [decimal] (construction, rounding half even at
      a context precision, exact operations, text) and the decimal patterns;
      ExactDec: lemmas on operations that do not round.
    - Digest: [json.dumps] with sorted keys and SHA-256, executable, with the
      injectivity of the encoder; JsonText: [json.loads] on such texts, with the
      round trip; HashChain: the interface (a typeclass) that the
      hash-chained state machines implement (RiskState, KillSwitch, OrderState).
    - Market (data/config, data/models), DataQuality (data/quality, data/health),
      CandleStore (data/storage), Ingest (data/normalize, data/history,
      data/rebuild).
    - BacktestConfig (backtest/config), MarketView (backtest/models, loader,
      clock), Fills (backtest/fills), Costs (backtest/costs), Ledger
      (backtest/portfolio), Metrics (backtest/metrics), Artifacts
      (backtest/artifacts).
    - StrategyContracts, Features, Regime, Trend, Breakout, Registry, Evaluate, Runs
      (the strategy modules of these names), SignalAdapter (strategy/adapter),
      Reports (theorems on Runs, Metrics and Artifacts together).
    - RiskContracts, RiskState, Sizing, Limits, Protective, Circuit, KillSwitch,
      RiskAdapter (the risk modules of these names).
    - Execution (execution/contracts), Journal (execution/journal), OrderState
      (execution/state), LocalFills (execution/fills), Portfolio
      (execution/portfolio), Reconcile (execution/reconcile), Snapshot and Recovery
      (the two parts of execution/recovery), Recovered (its theorems over the
      stores), Operator (execution/runner).

    ** What the theorems show

    - Data: what is normalized satisfies the canonical contract; quality analysis
      misses no gap; the store never changes a closed candle; a download
      terminates and a rebuild is faithful.
    - Backtest: no view looks ahead; every processed bar is one legal lifecycle
      step or an exception that changes nothing; protective exits are
      conservative; costs are adverse and exact; the ledger conserves money;
      metrics are total on legal curves, and bounded.
    - Strategy: features, regimes and candidates depend only on closed candles,
      and decide as their rules over exact rationals say, despite rounding;
      configurations and evaluation inputs are identified by their digests; the
      evidence gates are exactly their inequalities; a run cannot see the future,
      costs change its result by exactly their sum and nothing else, and a run
      that ends flat always reports, one case of the sampling apart.
    - Risk: sizing is the exact maximum, limits, gate and breakers are exact, the
      state folds its history, the kill switch latches, and the adapter never
      trades what was not approved.
    - Execution: routing is total and fails closed, the journal keeps the first
      accepted decision, orders live CREATE, ACTIVATE, CANCEL, the store returns
      exactly the accepted history, fills keep to the accepted decision, the
      durable portfolio is the replay of its fills, and startup is READY exactly
      for a consistent state.
    - Recovery: a snapshot file is read back as what was written and only so; it
      stays valid while the stores are used; recovery is READY over a sound state
      that extends the snapshot only, and an interrupted commit fails closed until
      its exact evidence is confirmed; the program exits with 0 over a sound
      database only, and always prints a bounded report, unless a command raises
      an exception of its own (one such case is proved).

    No property of the hash function is assumed.  A theorem that says what a digest
    identifies names the finite list of texts the calls in question have hashed
    (the texts of the stored rows and of the values the calls write), and holds
    unless two different texts of that very list have one SHA-256 digest
    ([Digest.collision], which is decidable).

    ** Bounds and fuel

    - [Ingest.download_loop] takes fuel [MAX_RANGE_CANDLES + 1], more than the
      pages a guarded range can need; termination is a theorem for every client.
    - [Ledger.FILL_BOUND] (500,000 fills) bounds the digits of the running sums,
      so that the 256-digit context never rounds them; a year of hourly bars with
      two fills each is far below it.
    - [JsonText.read_json] reads with the length of the text plus one as fuel:
      every nested call consumes a character.
    - All other recursion is structural.
    - Integers are unbounded in Python and here; sequence numbers and times carry
      the source's own bounds.

    ** Not modelled, and why

    - Type checks ([isinstance], [type(x) is int]) hold by typing; a value of the
      wrong type is not an input of the model.
    - Opening, migrating and closing databases, [sqlite3.Error] other than a
      violated constraint or a missing table, files, HTTP and WebSocket transports, clocks, argument
      parsing: input and output.
    - strategy/runs loads its datasets from files, and writes the index of all
      runs and their texts: only the runs themselves are modelled.
    - execution/recovery and runner: argparse's result (a refusal, the help, or a
      command) and the operating system's answers (a file's content, whether a
      write, a rename or an unlink succeeds) are arguments; JSON floats and text
      beyond ASCII are refused by the reader (the writers produce neither), and
      connecting to a missing database is not shown to leave an empty file.
      Python's limits on nesting and on the digits of an integer in JSON text are
      not modelled: beyond them json.loads raises RecursionError or ValueError,
      which the operator's specification loader does not catch.
    - The audits, scenarios and [*_runtime] modules run the modelled code on
      fixed data and print evidence.
    - The analyst, analytics, dashboard, notifications and validation packages and
      src/research consume the records of the core (reports, views, messages,
      offline studies); they decide no paper trade of the modelled pipeline.

    [decimal]'s square root and power are modelled as the C implementation computes
    them; the statistics that use them are shown total and non-negative, not
    correctly rounded. *)
From Stdlib Require Export Sorted.
From Stdlib Require Export ZArith NArith QArith Qpower Qabs Lia Lqa Bool String Ascii.
From stdpp Require Export base decidable list strings.
From stdpp Require Import sorting.

#[global] Open Scope Z_scope.
#[global] Set Default Goal Selector "!".

(** * Exceptions

    Python raises; the model returns.  [exn_class] lists the exception
    classes of the modelled modules, and the classes of the standard library
    that the modules let escape; a message is kept as the code writes it. *)
Inductive exn_class : Type :=
| ArithmeticTrap            (* decimal.InvalidOperation / DivisionByZero *)
| KeyError
| IndexError
| TypeError
| AttributeError
| ValueError
| CandleValidationError
| QualityError
| HealthError
| NormalizationError
| HistoricalDownloadError
| PublicRestError
| StorageError
| ClosedCandleConflict      (* a StorageError *)
| CheckpointRebuildError
| BacktestConfigError
| BacktestContractError
| BacktestLoadError
| BacktestClockError
| FillModelError
| CostModelError
| PortfolioError
| MetricsError
| StrategyContractError
| FeatureError
| RegimeError
| TrendStrategyError
| BreakoutStrategyError
| RegistryError
| SignalAdapterError
| CandidateRunError
| ArtifactError
| ForwardPaperRunnerError
| ForwardEconomicsError
| ForwardGateError
| WindowSealError           (* a ValueError *)
| ForwardStoreError
| EvaluationError
| StreamError
| RiskContractError
| RiskStateError
| RiskSizingError
| RiskLimitError
| ProtectiveGateError
| CircuitBreakerError
| KillSwitchError
| RiskAdapterError
| ExecutionContractError
| ExecutionJournalError
| IntentConflict          (* an ExecutionJournalError *)
| StartupReconciliationError
| RecoverySnapshotError
| OperatorError
| SystemExit              (* not an Exception *)
| LocalOrderError
| LocalOrderTransitionError (* a LocalOrderError *)
| LocalPaperFillError
| LocalPaperPortfolioError
| DuplicateLocalPaperFill (* a LocalPaperPortfolioError *)
| IntegrityError          (* a sqlite3.Error *)
| OperationalError.       (* a sqlite3.Error *)

#[global] Instance exn_class_eq_dec : EqDecision exn_class.
Proof. solve_decision. Defined.

Record exn : Type := Raise { exn_cls : exn_class; exn_msg : string }.

#[global] Instance exn_eq_dec : EqDecision exn.
Proof. solve_decision. Defined.

(** The outcome of a call: a value, or the exception that escaped. *)
Inductive result (A : Type) : Type :=
| Ok (a : A)
| Err (e : exn).
Arguments Ok {A} a.
Arguments Err {A} e.

Definition rbind {A B} (m : result A) (k : A -> result B) : result B :=
  match m with
  | Ok a => k a
  | Err e => Err e
  end.

(** [try m except cls: raise e]: an exception of one of the listed classes
    is replaced, any other one propagates. *)
Definition rcatch {A} (m : result A) (cls : list exn_class) (e : exn) : result A :=
  match m with
  | Ok a => Ok a
  | Err e0 => if bool_decide (exn_cls e0 ∈ cls) then Err e else Err e0
  end.

Declare Scope py_scope.
Delimit Scope py_scope with py.

Notation "'let*' x := m 'in' k" := (rbind m (fun x => k))
  (at level 10, x name, m at level 99, k at level 200) : py_scope.
Notation "'let*' ' p := m 'in' k" := (rbind m (fun x => match x with p => k end))
  (at level 10, p pattern, m at level 99, k at level 200) : py_scope.
Notation "'do*' m ;; k" := (rbind m (fun _ => k))
  (at level 10, m at level 99, k at level 200) : py_scope.
(** [if b: raise cls(msg)] followed by the rest of the body. *)
Notation "'raise_if' b 'with' cls msg ;; k" := (if b then Err (Raise cls msg) else k)
  (at level 10, b at level 99, cls at level 0, msg at level 0, k at level 200) : py_scope.

#[global] Open Scope py_scope.

Definition is_ok {A} (m : result A) : bool :=
  match m with Ok _ => true | Err _ => false end.

(** Python's [x in (..)] for strings. *)
Definition str_in (s : string) (l : list string) : bool := existsb (String.eqb s) l.

Definition opt_is_none {A} (o : option A) : bool :=
  match o with None => true | Some _ => false end.

(** Python's [all] over a fallible loop body: the body runs on each element in
    order and the first exception escapes. *)
Fixpoint rmap {A B} (f : A -> result B) (l : list A) : result (list B) :=
  match l with
  | [] => Ok []
  | x :: l' => let* y := f x in let* ys := rmap f l' in Ok (y :: ys)
  end.

(** ** Tactics and lemmas on results *)

Lemma rbind_ok {A B} (m : result A) (k : A -> result B) b :
  rbind m k = Ok b <-> exists a, m = Ok a /\ k a = Ok b.
Proof.
  destruct m as [a|e]; simpl; split; [eauto|..]; try naive_solver.
Qed.

Lemma is_ok_inv {A} (m : result A) : is_ok m = true -> exists a, m = Ok a.
Proof. destruct m as [a|e]; [by exists a|done]. Qed.

Lemma Ok_inj {A} (a b : A) : Ok a = Ok b -> a = b.
Proof. congruence. Qed.

Lemma raise_if_ok {A} (b : bool) (e : exn) (m : result A) a :
  (if b then Err e else m) = Ok a <-> b = false /\ m = Ok a.
Proof. destruct b; naive_solver. Qed.

Lemma rcatch_ok {A} (m : result A) cls e a : rcatch m cls e = Ok a <-> m = Ok a.
Proof. destruct m; simpl; [done|]. destruct (bool_decide _); naive_solver. Qed.

Lemma rmap_ok {A B} (f : A -> result B) l ys :
  rmap f l = Ok ys <-> Forall2 (fun x y => f x = Ok y) l ys.
Proof.
  revert ys. induction l as [|x l IH]; intros ys; simpl.
  - split; [intros [= <-]; constructor|intros H; inversion H; done].
  - rewrite rbind_ok. split.
    + intros (y & Hy & Hr). apply rbind_ok in Hr as (ys' & Hys & [= <-]).
      constructor; [done|]. by apply IH.
    + intros H; inversion H as [|? y ? ys' Hy Hys]; subst.
      exists y. split; [done|]. apply IH in Hys. by rewrite Hys.
Qed.

(** *** The exceptions a call can raise

    [errs P m]: whatever exception [m] raises satisfies [P]. *)
Definition errs {A} (P : exn -> Prop) (m : result A) : Prop := forall e, m = Err e -> P e.
(** Of one of the listed classes. *)
Definition of_class (cls : list exn_class) (e : exn) : Prop := exn_cls e ∈ cls.

Section Errs.
Context (P : exn -> Prop).

Lemma errs_ok {A} (a : A) : errs P (Ok a).
Proof using. by intros e. Qed.
Lemma errs_err {A} e : P e -> errs P (@Err A e).
Proof using. by intros H x [= <-]. Qed.
Lemma errs_weaken {A} (Q : exn -> Prop) (m : result A) : (forall e, Q e -> P e) -> errs Q m -> errs P m.
Proof using. intros H Hm e E. by apply H, Hm. Qed.
Lemma errs_bind {A B} (m : result A) (k : A -> result B) : errs P m -> (forall a, m = Ok a -> errs P (k a)) -> errs P (rbind m k).
Proof using. intros Hm Hk. destruct m as [a|x]; [by apply Hk|]. intros e [= <-]. by apply Hm. Qed.
Lemma errs_raise_if {A} (b : bool) e (m : result A) : P e -> (b = false -> errs P m) -> errs P (if b then Err e else m).
Proof using. intros He Hm. destruct b; [by apply errs_err|by apply Hm]. Qed.
Lemma errs_catch {A} cls e (m : result A) : errs (fun x => of_class cls x \/ P x) m -> P e -> errs P (rcatch m cls e).
Proof using.
  intros Hm He. destruct m as [a|x]; [apply errs_ok|]. cbn [rcatch]. destruct (Hm x eq_refl) as [Hx|Hx].
  - rewrite bool_decide_true by done. by apply errs_err.
  - destruct (bool_decide _); by apply errs_err.
Qed.
Lemma errs_rmap {A B} (f : A -> result B) l : (forall x, x ∈ l -> errs P (f x)) -> errs P (rmap f l).
Proof using.
  induction l as [|x l IH]; intros H; [apply errs_ok|]. cbn [rmap]. apply errs_bind; [apply H, list_elem_of_here|]. intros y _.
  apply errs_bind; [|intros ys _; apply errs_ok]. apply IH. intros z Hz. by apply H, list_elem_of_further.
Qed.
End Errs.

Lemma rmap_fixed {A} (f : A -> result A) l : Forall (fun e => f e = Ok e) l -> rmap f l = Ok l.
Proof. intros H. apply rmap_ok. by induction H; constructor. Qed.

(** Elements of a list without repeated keys are told apart by them. *)
Lemma key_unique {A K} (key : A -> K) (l : list A) x y : NoDup (map key l) -> x ∈ l -> y ∈ l -> key x = key y -> x = y.
Proof.
  intros Hn Hx Hy E. apply list_elem_of_lookup in Hx as (i & Hi), Hy as (j & Hj).
  assert (i = j) as ->; [|congruence]. apply (proj1 (NoDup_alt _) Hn i j (key x)).
  - setoid_rewrite list_lookup_fmap. by rewrite Hi.
  - setoid_rewrite list_lookup_fmap. by rewrite Hj, E.
Qed.

Lemma str_in_spec s l : str_in s l = true <-> s ∈ l.
Proof.
  unfold str_in. rewrite existsb_exists. setoid_rewrite String.eqb_eq.
  split.
  - intros (x & Hin & ->). by apply list_elem_of_In.
  - intros H. exists s. split; [by apply list_elem_of_In|done].
Qed.

(** [res_inv] opens a hypothesis that says a modelled call returned. *)
Ltac res_inv1 :=
  match goal with
  | H : Ok _ = Ok _ |- _ => injection H; clear H; intros
  | H : Err _ = Ok _ |- _ => discriminate H
  | H : Ok _ = Err _ |- _ => discriminate H
  | H : (if ?b then Err _ else _) = Ok _ |- _ =>
      let E := fresh "Hc" in destruct b eqn:E; [discriminate H|]
  | H : rbind _ _ = Ok _ |- _ =>
      let a := fresh "a" in let E := fresh "Hr" in
      apply rbind_ok in H; destruct H as (a & E & H)
  | H : rcatch _ _ _ = Ok _ |- _ => apply rcatch_ok in H
  end.
Ltac res_inv := repeat (res_inv1; cbn beta iota in *).

(** Membership in an explicit list. *)
Ltac in_list :=
  first [ solve [repeat first [apply list_elem_of_here | apply list_elem_of_further]]
        | simpl; rewrite ?elem_of_cons; naive_solver ].

(** [errs_run] follows a call statement by statement; what is left are the calls
    it makes. *)
Ltac errs_step :=
  lazymatch goal with
  | |- errs _ (Ok _) => apply errs_ok
  | |- errs _ (Err _) => apply errs_err; try (unfold of_class; cbn [exn_cls]; in_list)
  | |- errs _ (rbind _ _) => apply errs_bind; [|intros ? ?]
  | |- errs _ (if _ then Err _ else _) => apply errs_raise_if; [try (unfold of_class; cbn [exn_cls]; in_list)|intros _]
  | |- errs _ (match ?x with _ => _ end) => destruct x
  | |- errs _ (let _ := _ in _) => cbv zeta
  end.
Ltac errs_run := repeat errs_step.

(** [bool_prop] turns the code's boolean tests into propositions. *)
Create Rewrite HintDb boolprop.
#[export] Hint Rewrite Bool.negb_true_iff Bool.negb_false_iff Bool.andb_true_iff
  Bool.orb_false_iff Z.ltb_lt Z.ltb_ge Z.leb_le Z.leb_gt Z.eqb_eq Z.eqb_neq
  N.ltb_lt N.ltb_ge N.leb_le N.leb_gt N.eqb_eq N.eqb_neq
  String.eqb_eq String.eqb_neq : boolprop.
Ltac bool_prop := autorewrite with boolprop in *.

(** ** Powers of ten over the integers *)

Lemma pow10_pos k : 0 <= k -> 0 < 10 ^ k.
Proof. intros. by apply Z.pow_pos_nonneg. Qed.

Lemma pow10_add a b : 0 <= a -> 0 <= b -> 10 ^ (a + b) = 10 ^ a * 10 ^ b.
Proof. intros. by apply Z.pow_add_r. Qed.

Lemma pow10_le a b : a <= b -> 10 ^ a <= 10 ^ b.
Proof. intros. apply Z.pow_le_mono_r; lia. Qed.

Lemma pow10_lt a b : 0 <= b -> a < b -> 10 ^ a < 10 ^ b.
Proof. intros. apply Z.pow_lt_mono_r; lia. Qed.

Lemma pow10_sub_split a m n : m <= n -> n <= a -> 10 ^ (a - m) = 10 ^ (a - n) * 10 ^ (n - m).
Proof. intros. rewrite <- pow10_add by lia. f_equal; lia. Qed.

(** ** Powers of ten over the rationals *)

Definition q10 (e : Z) : Q := Qpower 10 e.

Lemma q10_nonzero e : ~ (q10 e == 0)%Q.
Proof. apply Qpower_not_0. discriminate. Qed.

Lemma q10_pos e : (0 < q10 e)%Q.
Proof. apply Qpower_0_lt. reflexivity. Qed.

Lemma q10_plus a b : (q10 (a + b) == q10 a * q10 b)%Q.
Proof. apply Qpower_plus. discriminate. Qed.

Lemma q10_Z k : 0 <= k -> (q10 k == inject_Z (10 ^ k))%Q.
Proof. intros. unfold q10. rewrite Zpower_Qpower by lia. reflexivity. Qed.

Lemma q10_le a b : a <= b -> (q10 a <= q10 b)%Q.
Proof.
  intros. replace b with ((b - a) + a) by lia. rewrite q10_plus.
  rewrite <- (Qmult_1_l (q10 a)) at 1.
  apply Qmult_le_compat_r; [|apply Qlt_le_weak, q10_pos].
  rewrite q10_Z by lia. change 1%Q with (inject_Z 1). rewrite <- Zle_Qle.
  pose proof (pow10_pos (b - a)); lia.
Qed.

#[export] Hint Resolve q10_pos q10_nonzero : core.

(** ** Lists *)

Lemma forallb_Forall {A} (f : A -> bool) l : forallb f l = true <-> Forall (fun x => f x = true) l.
Proof. rewrite forallb_forall, Forall_forall. by setoid_rewrite list_elem_of_In. Qed.

#[export] Instance Qle_preorder : PreOrder Qle.
Proof. split; [exact Qle_refl|exact Qle_trans]. Qed.

Lemma inject_Z_eq0 z : (inject_Z z == 0)%Q <-> z = 0.
Proof. unfold Qeq; simpl. lia. Qed.

Lemma inject_N_neq0 n : (n <> 0)%N -> ~ (inject_Z (Z.of_N n) == 0)%Q.
Proof. rewrite inject_Z_eq0. lia. Qed.

(** ** Python's [range(start, stop, step)], for a positive step *)

Definition py_range (start stop step : Z) : list Z :=
  map (fun i => start + Z.of_nat i * step) (seq 0 (Z.to_nat ((stop - start + step - 1) / step))).

Lemma py_range_elem start stop step x : 0 < step ->
  x ∈ py_range start stop step <-> start <= x < stop /\ (x - start) mod step = 0.
Proof.
  intros Hs. unfold py_range. rewrite list_elem_of_In, in_map_iff. setoid_rewrite in_seq.
  split.
  - intros (i & <- & Hi). split; [|by replace (start + Z.of_nat i * step - start) with (Z.of_nat i * step) by lia; apply Z_mod_mult].
    split; [nia|].
    assert (Z.of_nat i + 1 <= (stop - start + step - 1) / step) as H by lia.
    pose proof (Z.mul_div_le (stop - start + step - 1) step Hs). nia.
  - intros [Hx Hm]. exists (Z.to_nat ((x - start) / step)).
    pose proof (Z.div_pos (x - start) step ltac:(lia) Hs) as Hq.
    pose proof (Z_div_exact_full_2 (x - start) step ltac:(lia) Hm) as E.
    rewrite Z2Nat.id by done. split; [lia|]. split; [lia|].
    apply Nat2Z.inj_lt. rewrite Nat.add_0_l, !Z2Nat.id; [|apply Z.div_pos; lia|done].
    apply Z.lt_le_trans with ((x - start) / step + 1); [lia|].
    apply Z.div_le_lower_bound; [done|]. lia.
Qed.

Lemma py_range_lookup start stop step i : (i < length (py_range start stop step))%nat ->
  py_range start stop step !! i = Some (start + Z.of_nat i * step).
Proof.
  unfold py_range. rewrite length_map, length_seq. intros Hi.
  change (@map nat Z) with (@fmap list _ nat Z). rewrite list_lookup_fmap, lookup_seq_lt by done. done.
Qed.

(** ** Stable sorting (SQL [ORDER BY], Python [sorted]) *)

Section Sort.
Context {A : Type} (leb : A -> A -> bool).

Fixpoint insert_sorted (x : A) (l : list A) : list A :=
  match l with
  | [] => [x]
  | y :: l' => if leb x y then x :: l else y :: insert_sorted x l'
  end.
(** Python's stable [sorted]. *)
Definition isort (l : list A) : list A := fold_right insert_sorted [] l.

Lemma insert_sorted_perm x l : insert_sorted x l ≡ₚ x :: l.
Proof. induction l as [|y l IH]; simpl; [done|]. destruct (leb x y); [done|]. rewrite IH. apply Permutation_swap. Qed.

Lemma isort_perm l : isort l ≡ₚ l.
Proof. induction l as [|x l IH]; simpl; [done|]. by rewrite insert_sorted_perm, IH. Qed.

Lemma isort_Forall (P : A -> Prop) l : Forall P l -> Forall P (isort l).
Proof. by rewrite isort_perm. Qed.

Hypothesis leb_total : forall x y, leb x y = true \/ leb y x = true.
Hypothesis leb_trans : forall x y z, leb x y = true -> leb y z = true -> leb x z = true.

Lemma isort_sorted l : StronglySorted (fun a b => leb a b = true) (isort l).
Proof using All.
  induction l as [|x l IH]; [constructor|]. simpl. induction IH as [|y m Hm IH Hy]; simpl; [repeat constructor|]. destruct (leb x y) eqn:E.
  - constructor; [by constructor|]. constructor; [done|]. eapply Forall_impl; [exact Hy|]. intros z Hz. by eapply leb_trans.
  - constructor; [done|]. rewrite insert_sorted_perm. constructor; [|done]. destruct (leb_total x y); [congruence|done].
Qed.

(** The sorted list depends on the elements only, when no two of them tie. *)
Lemma isort_canonical l l' : (forall x y, x ∈ l -> y ∈ l -> leb x y = true -> leb y x = true -> x = y) -> l ≡ₚ l' -> isort l = isort l'.
Proof using All.
  intros Hanti Hp. apply (StronglySorted_unique_strong (fun a b => leb a b = true)); [|apply isort_sorted..|by rewrite !isort_perm].
  intros x y Hx Hy. rewrite isort_perm in Hx. rewrite isort_perm, <- Hp in Hy. by apply Hanti.
Qed.
End Sort.

Lemma isort_map {A B} (f : A -> B) (leb : A -> A -> bool) (leb' : B -> B -> bool) l : (forall x y, leb' (f x) (f y) = leb x y) ->
  isort leb' (map f l) = map f (isort leb l).
Proof.
  intros H. induction l as [|x l IH]; [done|]. simpl. rewrite IH. generalize (isort leb l). clear - H. intros l.
  induction l as [|y l IH]; [done|]. simpl. rewrite H. destruct (leb x y); [done|]. simpl. by rewrite IH.
Qed.

Definition sort_by {A} (key : A -> Z) (l : list A) : list A := isort (fun a b => key a <=? key b) l.

Lemma sort_by_perm {A} (key : A -> Z) l : sort_by key l ≡ₚ l.
Proof. apply isort_perm. Qed.

Lemma sort_by_sorted {A} (key : A -> Z) l : StronglySorted (fun a b => key a <= key b) (sort_by key l).
Proof.
  pose proof (isort_sorted (fun a b => key a <=? key b) ltac:(intros; cbv beta; lia) ltac:(intros; cbv beta in *; lia) l) as H. fold (sort_by key l) in H.
  induction H as [|x m _ IH Hx]; constructor; [done|]. eapply Forall_impl; [exact Hx|]. simpl. lia.
Qed.

Lemma seqZ_sorted {A} (key : A -> Z) l z : map key l = seqZ z (Z.of_nat (length l)) -> StronglySorted (fun a b => key a <= key b) l.
Proof.
  revert z. induction l as [|r l IH]; intros z Hs; [constructor|]. cbn [map length] in Hs. rewrite seqZ_cons in Hs by lia. injection Hs as Hr Hs.
  replace (Z.pred (Z.of_nat (S (length l)))) with (Z.of_nat (length l)) in Hs by lia. constructor; [by eapply IH|].
  apply Forall_forall. intros x Hx. assert (key x ∈ map key l) as Hin by (apply list_elem_of_In, in_map, list_elem_of_In, Hx).
  rewrite Hs in Hin. apply elem_of_seqZ in Hin. lia.
Qed.

(** Sorting the elements of a list numbered in its order gives that list. *)
Lemma sort_by_numbered {A} (key : A -> Z) l l' : NoDup l -> (forall r, r ∈ l <-> r ∈ l') -> map key l' = seqZ 0 (Z.of_nat (length l')) ->
  sort_by key l = l'.
Proof.
  intros Hl Hmem Hs. assert (NoDup (map key l')) as Hnd by (rewrite Hs; apply NoDup_seqZ).
  assert (forall r, r ∈ sort_by key l <-> r ∈ l') as Hm by (intros r; by rewrite sort_by_perm).
  apply (StronglySorted_unique_strong (fun a b => key a <= key b)); [|apply sort_by_sorted|by eapply seqZ_sorted|].
  - intros x y Hx Hy H1 H2. apply Hm in Hx. apply list_elem_of_lookup in Hx as (j & Ex), Hy as (k & Ey).
    assert (forall i z, l' !! i = Some z -> map key l' !! i = Some (key z)) as Hf.
    { intros i z E. change (@map A Z) with (@fmap list _ A Z). by rewrite list_lookup_fmap, E. }
    rewrite NoDup_alt in Hnd. assert (key x = key y) as Exy by lia. pose proof (Hf _ _ Ex) as Fx. rewrite Exy in Fx.
    pose proof (Hnd _ _ _ Fx (Hf _ _ Ey)) as ->. congruence.
  - apply NoDup_Permutation; [by rewrite sort_by_perm|by apply (NoDup_fmap_1 key)|done].
Qed.

(** ** Sorted lists grown at the end *)

Lemma strongly_sorted_snoc {A} (R : A -> A -> Prop) l x : StronglySorted R l -> Forall (fun y => R y x) l -> StronglySorted R (l ++ [x]).
Proof.
  induction 1 as [|y l Hl IH Hy]; intros Hx; simpl; [repeat constructor|]. inversion Hx; subst.
  constructor; [by apply IH|]. apply Forall_app. split; [done|]. by constructor.
Qed.

Lemma strongly_sorted_last {A} (R : A -> A -> Prop) l x y : Transitive R -> StronglySorted R l -> last l = Some x -> R x y -> Forall (fun z => R z y) l.
Proof.
  intros Ht Hs. induction Hs as [|z l Hl IH Hz]; [done|]. intros Hlast Hxy. destruct l as [|z' l].
  - injection Hlast as ->. by constructor.
  - assert (last (z' :: l) = Some x) as Hl' by exact Hlast. constructor; [|by apply IH].
    assert (x ∈ z' :: l) as Hin by by apply last_Some_elem_of.
    rewrite Forall_forall in Hz. exact (Ht _ _ _ (Hz _ Hin) Hxy).
Qed.

Lemma sorted_next l x y : StronglySorted Z.lt l -> last l = Some x -> x < y -> StronglySorted Z.lt (l ++ [y]).
Proof. intros Hs Hl Hxy. apply strongly_sorted_snoc; [done|]. by apply (strongly_sorted_last Z.lt l x y _). Qed.

(** ** Methods that mutate an object

    A method runs on the fields of [self] and returns the new fields with a
    value or an exception; assignments before a [raise] stay. *)
Definition stm (S A : Type) : Type := S -> S * result A.

Definition sret {S A} (a : A) : stm S A := fun s => (s, Ok a).
Definition sraise {S A} (e : exn) : stm S A := fun s => (s, Err e).
Definition slift {S A} (m : result A) : stm S A := fun s => (s, m).
Definition sget {S} : stm S S := fun s => (s, Ok s).
Definition sput {S} (s' : S) : stm S unit := fun _ => (s', Ok tt).
Definition sbind {S A B} (m : stm S A) (k : A -> stm S B) : stm S B :=
  fun s => match m s with
           | (s', Ok a) => k a s'
           | (s', Err e) => (s', Err e)
           end.

(** [try: m except cls: restore the saved fields; raise] *)
Definition srollback {S A} (cls : list exn_class) (m : stm S A) : stm S A :=
  fun s => match m s with
           | (s', Ok a) => (s', Ok a)
           | (s', Err e) => if bool_decide (exn_cls e ∈ cls) then (s, Err e) else (s', Err e)
           end.

Notation "'let!' x := m 'in' k" := (sbind m (fun x => k))
  (at level 10, x name, m at level 99, k at level 200) : py_scope.
Notation "'do!' m ;; k" := (sbind m (fun _ => k))
  (at level 10, m at level 99, k at level 200) : py_scope.
Notation "'sraise_if' b 'with' cls msg ;; k" := (if b then sraise (Raise cls msg) else k)
  (at level 10, b at level 99, cls at level 0, msg at level 0, k at level 200) : py_scope.

Lemma sbind_ok {S A B} (m : stm S A) (k : A -> stm S B) s s' b :
  sbind m k s = (s', Ok b) <-> exists s1 a, m s = (s1, Ok a) /\ k a s1 = (s', Ok b).
Proof. unfold sbind. destruct (m s) as [s1 [a|e]]; naive_solver. Qed.

Lemma srollback_ok {S A} cls (m : stm S A) s s' a :
  srollback cls m s = (s', Ok a) <-> m s = (s', Ok a).
Proof. unfold srollback. destruct (m s) as [s1 [b|e]]; [done|]. case_bool_decide; naive_solver. Qed.

(** A rolled back method that raises a listed exception changes nothing. *)
Lemma srollback_atomic {S A} cls (m : stm S A) s s' e :
  srollback cls m s = (s', Err e) -> exn_cls e ∈ cls -> s' = s.
Proof.
  unfold srollback. destruct (m s) as [s1 [b|e']]; [done|].
  case_bool_decide; intros [= <- <-]; [done|]. intros. done.
Qed.

Ltac stm_inv1 :=
  match goal with
  | H : sbind _ _ _ = (_, Ok _) |- _ =>
      let s := fresh "st" in let a := fresh "v" in let E := fresh "Hm" in
      apply sbind_ok in H; destruct H as (s & a & E & H)
  | H : sret _ _ = (_, Ok _) |- _ => unfold sret in H; injection H; clear H; intros
  | H : sput _ _ = (_, Ok _) |- _ => unfold sput in H; injection H; clear H; intros
  | H : sget _ = (_, Ok _) |- _ => unfold sget in H; injection H; clear H; intros
  | H : slift _ _ = (_, Ok _) |- _ => unfold slift in H; injection H; clear H; intros
  | H : sraise _ _ = (_, Ok _) |- _ => discriminate H
  | H : (if ?b then sraise _ else _) _ = (_, Ok _) |- _ =>
      let E := fresh "Hc" in destruct b eqn:E; [discriminate H|]
  end.
Ltac stm_inv := repeat (stm_inv1; cbn beta iota in *).
