(* ===== verification/PyDecimal.v ===== *)
(** * Python's decimal arithmetic

    The part of the standard library's [decimal] module the trading code
    uses: finite numbers as a sign, a coefficient and an exponent (the triple
    of [Decimal.as_tuple]), the context operations that round half-even to a
    precision, the exact comparisons, [to_integral_value], [quantize] and
    [abs].  The exponent range is unbounded, because the exponents the code
    can reach (a few hundred) are far inside the default context's 999999.
    NaN and infinities are not values of [dec]: the operations that would
    trap return [Err].  The second half gives each number its value in Q and
    shows when a rounded operation is exact. *)
From S2P Require Import Prelude.

Record dec : Type := Dec { dneg : bool; dcoef : N; dexp : Z }.

#[global] Instance dec_eq_dec : EqDecision dec.
Proof. solve_decision. Defined.

(** The two precisions the code computes with: the default context, and
    [localcontext(prec=256)]. *)
Definition default_prec : N := 28.
Definition prec256 : N := 256.

(** ** Digits *)

Fixpoint ndigits_up (fuel : nat) (k : N) (n : N) : N :=
  match fuel with
  | O => k
  | S fuel => if (n <? 10 ^ k)%N then k else ndigits_up fuel (k + 1) n
  end.

(** The number of decimal digits of [n], as in [len(str(n))]. *)
Definition ndigits (n : N) : N :=
  if (n =? 0)%N then 1%N
  else ndigits_up (S (N.to_nat (N.size n))) (3 * (N.log2 n / 10)) n.

(** ** Integers behind a decimal *)

Definition sval (d : dec) : Z := if dneg d then - Z.of_N (dcoef d) else Z.of_N (dcoef d).

(** A signed integer at exponent [e]; [z] is the sign of a zero. *)
Definition of_sval (z : bool) (s e : Z) : dec :=
  Dec (if s =? 0 then z else s <? 0) (Z.abs_N s) e.

(** [Decimal(n)] for an integer [n]. *)
Definition dec_of_Z (n : Z) : dec := of_sval false n 0.
Definition dec0 : dec := dec_of_Z 0.
Definition dec1 : dec := dec_of_Z 1.

(** ** Rounding to a context *)

Definition half_even (coef k : N) : N :=
  let q := (coef / 10 ^ k)%N in
  let r := (coef mod 10 ^ k)%N in
  let half := (5 * 10 ^ (k - 1))%N in
  if ((half <? r) || ((r =? half) && N.odd q))%N then (q + 1)%N else q.

(** [_fix]: round to [p] significant digits, half to even. *)
Definition dfix (p : N) (d : dec) : dec :=
  let n := ndigits (dcoef d) in
  if (n <=? p)%N then d
  else
    let k := (n - p)%N in
    let q := half_even (dcoef d) k in
    let e := dexp d + Z.of_N k in
    if (p <? ndigits q)%N then Dec (dneg d) (q / 10)%N (e + 1)
    else Dec (dneg d) q e.

(** ** Arithmetic *)

Definition dcopy_negate (d : dec) : dec := Dec (negb (dneg d)) (dcoef d) (dexp d).
Definition dcopy_abs (d : dec) : dec := Dec false (dcoef d) (dexp d).

Definition dadd_exact (a b : dec) : dec :=
  let e := Z.min (dexp a) (dexp b) in
  of_sval (dneg a && dneg b)
    (sval a * 10 ^ (dexp a - e) + sval b * 10 ^ (dexp b - e)) e.
Definition dmul_exact (a b : dec) : dec :=
  Dec (xorb (dneg a) (dneg b)) (dcoef a * dcoef b)%N (dexp a + dexp b).

Definition dadd (p : N) (a b : dec) : dec := dfix p (dadd_exact a b).
Definition dsub (p : N) (a b : dec) : dec := dadd p a (dcopy_negate b).
Definition dmul (p : N) (a b : dec) : dec := dfix p (dmul_exact a b).

(** Unary minus and [abs] apply the context; minus zero is plus zero. *)
Definition dminus (p : N) (d : dec) : dec :=
  dfix p (if (dcoef d =? 0)%N then dcopy_abs d else dcopy_negate d).
Definition dabs (p : N) (d : dec) : dec := dfix p (dcopy_abs d).

(** Drop trailing zeros of the coefficient while the exponent is below the
    ideal one; [fuel] is the distance to it. *)
Fixpoint strip_to (fuel : nat) (coef : N) (e : Z) : N * Z :=
  match fuel with
  | O => (coef, e)
  | S fuel =>
      let (q, r) := N.div_eucl coef 10 in
      if (r =? 0)%N then strip_to fuel q (e + 1) else (coef, e)
  end.

Definition ArithError : exn := Raise ArithmeticTrap "decimal".

Definition ddiv (p : N) (a b : dec) : result dec :=
  if (dcoef b =? 0)%N then Err ArithError
  else
    let sign := xorb (dneg a) (dneg b) in
    let ideal := dexp a - dexp b in
    if (dcoef a =? 0)%N then Ok (dfix p (Dec sign 0 ideal))
    else
      let shift := Z.of_N (ndigits (dcoef b)) - Z.of_N (ndigits (dcoef a)) + Z.of_N p + 1 in
      let e := ideal - shift in
      let num := if 0 <=? shift then (dcoef a * 10 ^ Z.to_N shift)%N else dcoef a in
      let den := if 0 <=? shift then dcoef b else (dcoef b * 10 ^ Z.to_N (- shift))%N in
      let (q, r) := N.div_eucl num den in
      if (r =? 0)%N then
        let '(q', e') := strip_to (Z.to_nat (ideal - e)) q e in
        Ok (dfix p (Dec sign q' e'))
      else Ok (dfix p (Dec sign (if (q mod 5 =? 0)%N then q + 1 else q)%N e)).

(** ** Comparison (exact, whatever the context) *)

Definition dcompare (a b : dec) : comparison :=
  let e := Z.min (dexp a) (dexp b) in
  (sval a * 10 ^ (dexp a - e) ?= sval b * 10 ^ (dexp b - e)).
Definition dltb (a b : dec) : bool := match dcompare a b with Lt => true | _ => false end.
Definition dleb (a b : dec) : bool := match dcompare a b with Gt => false | _ => true end.
Definition deqb (a b : dec) : bool := match dcompare a b with Eq => true | _ => false end.

(** Python's [max(a, b)] and [min(a, b)] keep the first of equal arguments. *)
Definition dmax (a b : dec) : dec := if dltb a b then b else a.
Definition dmin (a b : dec) : dec := if dltb b a then b else a.

Definition dis_zero (d : dec) : bool := (dcoef d =? 0)%N.

(** [sum(items, start)] in a context. *)
Definition dsum (p : N) (start : dec) (l : list dec) : dec := fold_left (dadd p) l start.

(** ** Rounding to an exponent *)

(** [to_integral_value(rounding=ROUND_FLOOR)]: no context precision. *)
Definition dfloor (d : dec) : dec :=
  if 0 <=? dexp d then d
  else
    let k := (10 ^ Z.to_N (- dexp d))%N in
    let q := (dcoef d / k)%N in
    let r := (dcoef d mod k)%N in
    if dneg d && negb (r =? 0)%N then Dec true (q + 1)%N 0 else Dec (dneg d) q 0.

(** [quantize(Decimal("1e-n"), rounding=ROUND_HALF_EVEN)] in a context: traps
    when the result has more digits than the precision. *)
Definition dquantize (p : N) (e : Z) (d : dec) : result dec :=
  let coef :=
    if e <=? dexp d then (dcoef d * 10 ^ Z.to_N (dexp d - e))%N
    else half_even (dcoef d) (Z.to_N (e - dexp d)) in
  if (p <? ndigits coef)%N then Err ArithError
  else Ok (Dec (dneg d) coef e).

(** * Properties *)

(** ** [ndigits] is the number of decimal digits *)

Lemma ndigits_up_spec fuel k n :
  (n < 10 ^ (k + N.of_nat fuel))%N ->
  (k <= ndigits_up fuel k n)%N /\ (n < 10 ^ ndigits_up fuel k n)%N
  /\ ((k < ndigits_up fuel k n)%N -> (10 ^ (ndigits_up fuel k n - 1) <= n)%N).
Proof.
  revert k. induction fuel as [|fuel IH]; intros k H; simpl.
  - rewrite N.add_0_r in H. repeat split; [lia|done|lia].
  - destruct (N.ltb_spec n (10 ^ k)) as [Hlt|Hge]; [repeat split; [lia|done|lia]|].
    destruct (IH (k + 1)%N) as (H1 & H2 & H3).
    { replace (k + 1 + N.of_nat fuel)%N with (k + N.of_nat (S fuel))%N by lia. done. }
    repeat split; [lia|done|]. intros _.
    destruct (N.eq_dec (ndigits_up fuel (k + 1) n) (k + 1)%N) as [->|Hne].
    + by replace (k + 1 - 1)%N with k by lia.
    + apply H3. lia.
Qed.

Lemma pow10_log2 n : (n <> 0)%N -> (10 ^ (3 * (N.log2 n / 10)) <= n)%N.
Proof.
  intros Hn. set (j := (N.log2 n / 10)%N).
  transitivity (2 ^ (10 * j))%N.
  - rewrite !N.pow_mul_r. apply N.pow_le_mono_l. vm_compute. discriminate.
  - transitivity (2 ^ N.log2 n)%N.
    + apply N.pow_le_mono_r; [lia|]. subst j. apply N.Div0.mul_div_le.
    + apply N.log2_spec. lia.
Qed.

Lemma ndigits_spec n :
  (n <> 0)%N -> (10 ^ (ndigits n - 1) <= n < 10 ^ ndigits n)%N.
Proof.
  intros Hn. unfold ndigits. rewrite (proj2 (N.eqb_neq n 0)) by done.
  set (k := (3 * (N.log2 n / 10))%N). pose proof (pow10_log2 n Hn) as Hk. fold k in Hk.
  set (fuel := S (N.to_nat (N.size n))).
  destruct (ndigits_up_spec fuel k n) as (H1 & H2 & H3).
  - eapply N.lt_le_trans; [apply N.size_gt|].
    transitivity (10 ^ N.size n)%N; [apply N.pow_le_mono_l; lia|].
    apply N.pow_le_mono_r; [lia|]. subst fuel. lia.
  - split; [apply H3|exact H2].
    destruct (N.eq_dec (ndigits_up fuel k n) k) as [E|]; [|lia].
    rewrite E in H2. lia.
Qed.

Lemma ndigits_pos n : (1 <= ndigits n)%N.
Proof.
  destruct (N.eq_dec n 0%N) as [->|Hn]; [done|].
  pose proof (ndigits_spec n Hn) as [_ H].
  destruct (N.eq_dec (ndigits n) 0%N) as [E|]; [|lia]. rewrite E in H. simpl in H. lia.
Qed.

Lemma ndigits_le n p : (1 <= p)%N -> (ndigits n <= p)%N <-> (n < 10 ^ p)%N.
Proof.
  intros Hp. destruct (N.eq_dec n 0%N) as [->|Hn].
  - split; intros _; [|exact Hp]. pose proof (N.pow_nonzero 10 p). lia.
  - pose proof (ndigits_spec n Hn) as [H1 H2]. split; intros H.
    + eapply N.lt_le_trans; [exact H2|]. by apply N.pow_le_mono_r.
    + destruct (N.le_gt_cases (ndigits n) p) as [|Hgt]; [done|].
      exfalso. assert (10 ^ p <= 10 ^ (ndigits n - 1))%N by (apply N.pow_le_mono_r; lia).
      lia.
Qed.

Lemma dfix_id p d : (dcoef d < 10 ^ p)%N -> (1 <= p)%N -> dfix p d = d.
Proof.
  intros H Hp. unfold dfix. apply ndigits_le in H; [|done].
  by rewrite (proj2 (N.leb_le _ _) H).
Qed.

(** ** The value of a decimal *)

Definition dval (d : dec) : Q := (inject_Z (sval d) * q10 (dexp d))%Q.

Lemma sval_of_sval z s e : sval (of_sval z s e) = s.
Proof.
  unfold sval, of_sval; simpl. destruct (Z.eqb_spec s 0) as [->|].
  - by destruct z.
  - destruct (Z.ltb_spec s 0); lia.
Qed.

(** The same value counted in units of [10 ^ m]. *)
Lemma dval_scale d m :
  m <= dexp d -> (dval d == inject_Z (sval d * 10 ^ (dexp d - m)) * q10 m)%Q.
Proof.
  intros H. unfold dval. rewrite inject_Z_mult, <- q10_Z by lia.
  rewrite <- Qmult_assoc, <- q10_plus. by replace (dexp d - m + m) with (dexp d) by lia.
Qed.

Lemma dval_of_sval z s e : (dval (of_sval z s e) = inject_Z s * q10 e)%Q.
Proof. unfold dval. by rewrite sval_of_sval. Qed.

Lemma dval_dec_of_Z n : (dval (dec_of_Z n) == inject_Z n)%Q.
Proof. unfold dec_of_Z. rewrite dval_of_sval. unfold q10. simpl. ring. Qed.

Lemma dval_0 : (dval dec0 == 0)%Q.
Proof. reflexivity. Qed.
Lemma dval_1 : (dval dec1 == 1)%Q.
Proof. reflexivity. Qed.

Lemma dval_add_exact a b : (dval (dadd_exact a b) == dval a + dval b)%Q.
Proof.
  unfold dadd_exact. rewrite dval_of_sval.
  set (e := Z.min (dexp a) (dexp b)).
  rewrite (dval_scale a e), (dval_scale b e) by lia.
  rewrite inject_Z_plus. ring.
Qed.

Lemma sval_mul_exact a b : sval (dmul_exact a b) = sval a * sval b.
Proof. unfold sval, dmul_exact; simpl. destruct (dneg a), (dneg b); simpl; lia. Qed.

Lemma dval_mul_exact a b : (dval (dmul_exact a b) == dval a * dval b)%Q.
Proof.
  unfold dval at 1. rewrite sval_mul_exact. simpl.
  rewrite inject_Z_mult, q10_plus. unfold dval. ring.
Qed.

Lemma sval_copy_negate d : sval (dcopy_negate d) = - sval d.
Proof. unfold sval, dcopy_negate; simpl. destruct (dneg d); simpl; lia. Qed.

Lemma dval_copy_negate d : (dval (dcopy_negate d) == - dval d)%Q.
Proof. unfold dval. rewrite sval_copy_negate, inject_Z_opp. simpl. ring. Qed.

(** ** Comparisons decide the order of the values *)

Lemma dcompare_spec a b : dcompare a b = (dval a ?= dval b)%Q.
Proof.
  unfold dcompare. set (e := Z.min (dexp a) (dexp b)).
  rewrite (dval_scale a e), (dval_scale b e) by lia.
  generalize (sval a * 10 ^ (dexp a - e)), (sval b * 10 ^ (dexp b - e)). intros x y.
  symmetry. destruct (Z.compare_spec x y) as [->|H|H].
  - apply Qeq_alt. reflexivity.
  - apply Qlt_alt. apply Qmult_lt_r; [done|]. by rewrite <- Zlt_Qlt.
  - apply Qgt_alt. apply Qmult_lt_r; [done|]. by rewrite <- Zlt_Qlt.
Qed.

Lemma dltb_spec a b : dltb a b = true <-> (dval a < dval b)%Q.
Proof. unfold dltb. rewrite dcompare_spec, Qlt_alt. by destruct (_ ?= _)%Q. Qed.

Lemma dltb_false a b : dltb a b = false <-> (dval b <= dval a)%Q.
Proof.
  split; intros H.
  - apply Qnot_lt_le. intros Hlt. apply dltb_spec in Hlt. congruence.
  - destruct (dltb a b) eqn:E; [|done]. apply dltb_spec in E. lra.
Qed.

Lemma dleb_spec a b : dleb a b = true <-> (dval a <= dval b)%Q.
Proof. unfold dleb. rewrite dcompare_spec, Qle_alt. by destruct (_ ?= _)%Q. Qed.

Lemma dleb_false a b : dleb a b = false <-> (dval b < dval a)%Q.
Proof.
  split; intros H.
  - apply Qnot_le_lt. intros Hle. apply dleb_spec in Hle. congruence.
  - destruct (dleb a b) eqn:E; [|done]. apply dleb_spec in E. lra.
Qed.

Lemma deqb_spec a b : deqb a b = true <-> (dval a == dval b)%Q.
Proof. unfold deqb. rewrite dcompare_spec, Qeq_alt. by destruct (_ ?= _)%Q. Qed.

Lemma deqb_false a b : deqb a b = false <-> ~ (dval a == dval b)%Q.
Proof. rewrite <- deqb_spec. destruct (deqb a b); naive_solver. Qed.

(** Comparisons see values only. *)
Lemma dltb_value a a' b b' : (dval a == dval a')%Q -> (dval b == dval b')%Q -> dltb a b = dltb a' b'.
Proof. intros Ha Hb. apply eq_true_iff_eq. by rewrite !dltb_spec, Ha, Hb. Qed.

Lemma deqb_value a a' b b' : (dval a == dval a')%Q -> (dval b == dval b')%Q -> deqb a b = deqb a' b'.
Proof. intros Ha Hb. apply eq_true_iff_eq. by rewrite !deqb_spec, Ha, Hb. Qed.

#[export] Hint Rewrite dltb_spec dltb_false dleb_spec dleb_false deqb_spec deqb_false : boolprop.

(** ** Numeric equality

    Two decimals may be equal and print differently ([1.0] and [1.00]);
    Python's [==] is this relation, and every modelled operation on values
    respects it. *)
Definition dec_eqv (a b : dec) : Prop := (dval a == dval b)%Q.
Infix "=d=" := dec_eqv (at level 70, no associativity) : py_scope.

#[export] Instance dec_eqv_equiv : Equivalence dec_eqv.
Proof. unfold dec_eqv. split; repeat intro; [reflexivity|by symmetry|etransitivity; eauto]. Qed.
#[export] Instance dval_proper : Proper (dec_eqv ==> Qeq) dval.
Proof. intros a b H. exact H. Qed.
#[export] Instance dcompare_proper : Proper (dec_eqv ==> dec_eqv ==> eq) dcompare.
Proof. intros a b H c d H'. rewrite !dcompare_spec. by rewrite H, H'. Qed.
#[export] Instance dltb_proper : Proper (dec_eqv ==> dec_eqv ==> eq) dltb.
Proof. intros a b H c d H'. unfold dltb. by rewrite H, H'. Qed.
#[export] Instance dleb_proper : Proper (dec_eqv ==> dec_eqv ==> eq) dleb.
Proof. intros a b H c d H'. unfold dleb. by rewrite H, H'. Qed.
#[export] Instance deqb_proper : Proper (dec_eqv ==> dec_eqv ==> eq) deqb.
Proof. intros a b H c d H'. unfold deqb. by rewrite H, H'. Qed.

(** ** Sizes and exactness

    [fits i f d]: at most [i] digits before the point and [f] after it.  When
    [i + f] is within the precision the context operation is exact. *)
Definition fits (i f : Z) (d : dec) : Prop :=
  - f <= dexp d /\ Z.of_N (dcoef d) * 10 ^ (dexp d + f) < 10 ^ (i + f).

Lemma sval_abs d : Z.abs (sval d) = Z.of_N (dcoef d).
Proof. unfold sval. destruct (dneg d); lia. Qed.

Lemma fits_coef i f d : fits i f d -> Z.of_N (dcoef d) < 10 ^ (i + f).
Proof.
  intros [He H]. eapply Z.le_lt_trans; [|exact H].
  pose proof (pow10_pos (dexp d + f)). nia.
Qed.

Lemma fits_fix i f p d :
  fits i f d -> 1 <= Z.of_N p -> i + f <= Z.of_N p -> dfix p d = d.
Proof.
  intros H Hp Hle. apply dfix_id; [|lia].
  apply fits_coef in H. apply N2Z.inj_lt. rewrite N2Z.inj_pow.
  eapply Z.lt_le_trans; [exact H|]. by apply pow10_le.
Qed.

Lemma fits_weaken i f i' f' d : fits i f d -> i <= i' -> f <= f' -> 0 <= i + f -> fits i' f' d.
Proof.
  intros [He H] Hi Hf H0. split; [lia|].
  replace (dexp d + f') with ((dexp d + f) + (f' - f)) by lia.
  rewrite pow10_add, Z.mul_assoc by lia.
  eapply Z.lt_le_trans; [apply Z.mul_lt_mono_pos_r; [apply pow10_pos; lia|exact H]|].
  rewrite <- pow10_add by lia. apply pow10_le. lia.
Qed.

Lemma fits_nonneg i f d : fits i f d -> 0 <= i + f.
Proof.
  intros [_ H]. destruct (Z.le_gt_cases 0 (i + f)) as [|Hlt]; [done|].
  rewrite (Z.pow_neg_r 10 (i + f)) in H by lia.
  pose proof (Z.pow_nonneg 10 (dexp d + f)). nia.
Qed.

Lemma fits_add i1 f1 i2 f2 a b :
  fits i1 f1 a -> fits i2 f2 b -> fits (Z.max i1 i2 + 1) (Z.max f1 f2) (dadd_exact a b).
Proof.
  intros Ha Hb. pose proof (fits_nonneg _ _ _ Ha). pose proof (fits_nonneg _ _ _ Hb).
  set (F := Z.max f1 f2). set (I := Z.max i1 i2).
  apply (fits_weaken _ _ I F) in Ha as [Ea Ha]; [|lia..].
  apply (fits_weaken _ _ I F) in Hb as [Eb Hb]; [|lia..].
  unfold dadd_exact. set (e := Z.min (dexp a) (dexp b)).
  set (s := sval a * 10 ^ (dexp a - e) + sval b * 10 ^ (dexp b - e)).
  split; simpl; [lia|]. rewrite N2Z.inj_abs_N.
  pose proof (pow10_pos (e + F)) as HP.
  assert (Z.abs s * 10 ^ (e + F)
          <= Z.of_N (dcoef a) * 10 ^ (dexp a + F) + Z.of_N (dcoef b) * 10 ^ (dexp b + F)).
  { replace (dexp a + F) with ((dexp a - e) + (e + F)) by lia.
    replace (dexp b + F) with ((dexp b - e) + (e + F)) by lia.
    rewrite (pow10_add (dexp a - e)), (pow10_add (dexp b - e)) by lia.
    rewrite !Z.mul_assoc, <- !sval_abs, <- Z.mul_add_distr_r.
    apply Z.mul_le_mono_nonneg_r; [lia|]. subst s.
    etransitivity; [apply Z.abs_triangle|]. rewrite !Z.abs_mul.
    rewrite !(Z.abs_eq (10 ^ _)) by (apply Z.pow_nonneg; lia). lia. }
  replace (I + 1 + F) with (1 + (I + F)) by lia.
  rewrite (pow10_add 1 (I + F)) by lia. change (10 ^ 1) with 10. lia.
Qed.

Lemma fits_mul i1 f1 i2 f2 a b :
  fits i1 f1 a -> fits i2 f2 b -> fits (i1 + i2) (f1 + f2) (dmul_exact a b).
Proof.
  intros Ha Hb. pose proof (fits_nonneg _ _ _ Ha). pose proof (fits_nonneg _ _ _ Hb).
  destruct Ha as [Ea Ha], Hb as [Eb Hb].
  split; simpl; [lia|]. rewrite N2Z.inj_mul.
  replace (dexp a + dexp b + (f1 + f2)) with ((dexp a + f1) + (dexp b + f2)) by lia.
  replace (i1 + i2 + (f1 + f2)) with ((i1 + f1) + (i2 + f2)) by lia.
  rewrite (pow10_add (dexp a + f1)), (pow10_add (i1 + f1)) by lia.
  pose proof (pow10_pos (dexp a + f1)). pose proof (pow10_pos (dexp b + f2)).
  replace (Z.of_N (dcoef a) * Z.of_N (dcoef b) * (10 ^ (dexp a + f1) * 10 ^ (dexp b + f2)))
    with ((Z.of_N (dcoef a) * 10 ^ (dexp a + f1)) * (Z.of_N (dcoef b) * 10 ^ (dexp b + f2)))
    by ring.
  apply Z.mul_lt_mono_nonneg; [nia|done|nia|done].
Qed.

Lemma fits_abs_val i f d : fits i f d -> (Qabs (dval d) < q10 i)%Q.
Proof.
  intros Hf. pose proof (fits_nonneg _ _ _ Hf) as Hif. destruct Hf as [He H].
  rewrite (dval_scale d (- f)) by lia. rewrite Qabs_Qmult, (Qabs_pos (q10 _)) by auto using Qlt_le_weak.
  replace i with ((i + f) + - f) by lia. rewrite (q10_plus (i + f)).
  apply Qmult_lt_r; [done|]. rewrite q10_Z by lia.
  change (Qabs (inject_Z ?x)) with (inject_Z (Z.abs x)). rewrite <- Zlt_Qlt, Z.abs_mul, sval_abs.
  rewrite (Z.abs_eq (10 ^ _)) by (apply Z.pow_nonneg; lia).
  by replace (dexp d - - f) with (dexp d + f) by lia.
Qed.

(** A bound on the value and on the exponent is enough. *)
Lemma fits_of_val i f d :
  - f <= dexp d -> 0 <= i + f -> (Qabs (dval d) < q10 i)%Q -> fits i f d.
Proof.
  intros He H0 H. split; [done|].
  rewrite (dval_scale d (- f)) in H by lia.
  rewrite Qabs_Qmult, (Qabs_pos (q10 _)) in H by auto using Qlt_le_weak.
  replace i with ((i + f) + - f) in H by lia. rewrite (q10_plus (i + f)) in H.
  apply Qmult_lt_r in H; [|done]. rewrite q10_Z in H by lia.
  change (Qabs (inject_Z ?x)) with (inject_Z (Z.abs x)) in H.
  rewrite <- Zlt_Qlt, Z.abs_mul, sval_abs in H.
  rewrite (Z.abs_eq (10 ^ _)) in H by (apply Z.pow_nonneg; lia).
  by replace (dexp d + f) with (dexp d - - f) by lia.
Qed.

Lemma fits_copy_negate i f d : fits i f (dcopy_negate d) <-> fits i f d.
Proof. done. Qed.
Lemma fits_copy_abs i f d : fits i f (dcopy_abs d) <-> fits i f d.
Proof. done. Qed.

(** *** The context operations on numbers that fit *)
Section Exact.
Variables (p : N) (i1 f1 i2 f2 : Z) (a b : dec).
Hypothesis Hp : 1 <= Z.of_N p.
Hypothesis Ha : fits i1 f1 a.
Hypothesis Hb : fits i2 f2 b.

Lemma dadd_eq : Z.max i1 i2 + 1 + Z.max f1 f2 <= Z.of_N p -> dadd p a b = dadd_exact a b.
Proof using All. intros H. eapply fits_fix; [by apply fits_add|done|lia]. Qed.
Lemma dmul_eq : (i1 + i2) + (f1 + f2) <= Z.of_N p -> dmul p a b = dmul_exact a b.
Proof using All. intros H. eapply fits_fix; [by apply fits_mul|done|lia]. Qed.
End Exact.

Lemma dminus_eq p i f d : 1 <= Z.of_N p -> fits i f d -> i + f <= Z.of_N p ->
  dminus p d = if (dcoef d =? 0)%N then dcopy_abs d else dcopy_negate d.
Proof.
  intros Hp H Hle. unfold dminus. destruct (dcoef d =? 0)%N; by eapply fits_fix.
Qed.

Lemma dabs_eq p i f d : 1 <= Z.of_N p -> fits i f d -> i + f <= Z.of_N p ->
  dabs p d = dcopy_abs d.
Proof. intros Hp H Hle. by eapply fits_fix. Qed.

Lemma dval_copy_abs d : (dval (dcopy_abs d) == Qabs (dval d))%Q.
Proof.
  unfold dval. rewrite Qabs_Qmult, (Qabs_pos (q10 _)) by auto using Qlt_le_weak.
  change (Qabs (inject_Z ?x)) with (inject_Z (Z.abs x)). by rewrite sval_abs.
Qed.

Lemma dval_minus p i f d : 1 <= Z.of_N p -> fits i f d -> i + f <= Z.of_N p ->
  (dval (dminus p d) == - dval d)%Q.
Proof.
  intros. rewrite (dminus_eq p i f) by done. destruct (N.eqb_spec (dcoef d) 0) as [E|].
  - assert (sval d = 0) as Hs by (unfold sval; rewrite E; by destruct (dneg d)).
    assert (sval (dcopy_abs d) = 0) as Hs' by (unfold sval; simpl; by rewrite E).
    unfold dval. rewrite Hs, Hs'. change (inject_Z 0) with 0%Q. ring.
  - apply dval_copy_negate.
Qed.

(** ** Rounding never crosses a representable number

    [faithful p v d]: [d] is a rounding of [v] to [p] digits, in the sense
    that no number of at most [p] digits lies strictly between them. *)
Definition faithful (p : N) (v : Q) (d : dec) : Prop :=
  forall x, (dcoef x < 10 ^ p)%N ->
    ((dval x <= v)%Q -> (dval x <= dval d)%Q) /\ ((v <= dval x)%Q -> (dval d <= dval x)%Q).

#[export] Instance faithful_proper p : Proper (Qeq ==> eq ==> iff) (faithful p).
Proof.
  intros v v' Hv d d' <-. unfold faithful. split; intros H x Hx; destruct (H x Hx) as [H1 H2].
  - split; intros Hle; [apply H1|apply H2]; by rewrite Hv.
  - split; intros Hle; [apply H1|apply H2]; by rewrite <- Hv.
Qed.

Lemma inject_Z_le_scale x y e : x <= y <-> (inject_Z x * q10 e <= inject_Z y * q10 e)%Q.
Proof. rewrite Zle_Qle. symmetry. by apply Qmult_le_r. Qed.

(** Two numbers compared in units of [10 ^ m], [m] below both exponents. *)
Lemma dval_le_scale a b m : m <= dexp a -> m <= dexp b ->
  (dval a <= dval b)%Q <-> sval a * 10 ^ (dexp a - m) <= sval b * 10 ^ (dexp b - m).
Proof. intros. rewrite (dval_scale a m), (dval_scale b m) by done. symmetry. apply inject_Z_le_scale. Qed.

(** A value [s * 10 ^ e], with [10 ^ P <= |s|], as the code rounds it away
    from and towards zero in units of [10 ^ (e + k)]. *)
Lemma coarse_lower (P k x ex s e : Z) :
  0 <= P -> 0 <= k -> Z.abs x < 10 ^ (P + 1) -> 10 ^ P * 10 ^ k <= s ->
  (inject_Z x * q10 ex <= inject_Z s * q10 e)%Q ->
  (inject_Z x * q10 ex <= inject_Z (s / 10 ^ k) * q10 (e + k))%Q.
Proof.
  intros HP Hk Hx Hs H. pose proof (pow10_pos k Hk) as Hk0.
  assert (10 ^ P <= s / 10 ^ k) as Hq by (apply Z.div_le_lower_bound; lia).
  destruct (Z.le_gt_cases (e + k) ex) as [Hge|Hlt].
  - assert (inject_Z x * q10 ex == inject_Z (x * 10 ^ (ex - (e + k))) * q10 (e + k))%Q as Ex.
    { rewrite inject_Z_mult, <- q10_Z, <- Qmult_assoc, <- q10_plus by lia.
      by replace (ex - (e + k) + (e + k)) with ex by lia. }
    rewrite Ex in *. apply inject_Z_le_scale. apply Z.div_le_lower_bound; [lia|].
    apply (inject_Z_le_scale _ _ e). etransitivity; [|exact H].
    rewrite (inject_Z_mult (10 ^ k)), <- (q10_Z k Hk), q10_plus.
    apply Qle_lteq; right. ring.
  - assert (inject_Z s * q10 e == inject_Z s * q10 e)%Q by reflexivity.
    assert (inject_Z x * q10 ex <= inject_Z (10 ^ P) * q10 (e + k))%Q as Hsmall.
    { transitivity (inject_Z (10 ^ (P + 1)) * q10 ex)%Q.
      - apply inject_Z_le_scale. lia.
      - rewrite <- !q10_Z, <- !q10_plus by lia. apply q10_le. lia. }
    etransitivity; [exact Hsmall|]. by apply inject_Z_le_scale.
Qed.

Lemma coarse_upper (P k x ex s e : Z) :
  0 <= P -> 0 <= k -> Z.abs x < 10 ^ (P + 1) -> 10 ^ P * 10 ^ k <= s ->
  (inject_Z s * q10 e <= inject_Z x * q10 ex)%Q ->
  (inject_Z (- (- s / 10 ^ k)) * q10 (e + k) <= inject_Z x * q10 ex)%Q.
Proof.
  intros HP Hk Hx Hs H. pose proof (pow10_pos k Hk) as Hk0.
  destruct (Z.le_gt_cases (e + k) ex) as [Hge|Hlt].
  - assert (inject_Z x * q10 ex == inject_Z (x * 10 ^ (ex - (e + k))) * q10 (e + k))%Q as Ex.
    { rewrite inject_Z_mult, <- q10_Z, <- Qmult_assoc, <- q10_plus by lia.
      by replace (ex - (e + k) + (e + k)) with ex by lia. }
    rewrite Ex in *. apply inject_Z_le_scale.
    enough (- (x * 10 ^ (ex - (e + k))) <= - s / 10 ^ k) by lia.
    apply Z.div_le_lower_bound; [lia|].
    enough (s <= 10 ^ k * (x * 10 ^ (ex - (e + k)))) by lia.
    apply (inject_Z_le_scale _ _ e). etransitivity; [exact H|].
    rewrite (inject_Z_mult (10 ^ k)), <- (q10_Z k Hk), q10_plus.
    apply Qle_lteq; right. ring.
  - exfalso.
    assert (inject_Z x * q10 ex < inject_Z (10 ^ (P + 1)) * q10 ex)%Q as Hsmall.
    { apply Qmult_lt_r; [done|]. rewrite <- Zlt_Qlt. lia. }
    assert (inject_Z (10 ^ (P + 1)) * q10 ex <= inject_Z s * q10 e)%Q as Hbig; [|lra].
    transitivity (inject_Z (10 ^ P * 10 ^ k) * q10 e)%Q.
    + rewrite inject_Z_mult, <- !q10_Z, <- !q10_plus by lia. apply q10_le. lia.
    + by apply inject_Z_le_scale.
Qed.

Lemma faithful_refl p d : faithful p (dval d) d.
Proof. intros x _. done. Qed.

Lemma faithful_trans p v w d : faithful p v w -> faithful p (dval w) d -> faithful p v d.
Proof. intros H1 H2 x Hx. destruct (H1 x Hx), (H2 x Hx). split; auto. Qed.

Lemma faithful_neg p v d : faithful p v d -> faithful p (- v) (dcopy_negate d).
Proof.
  intros H x Hx. destruct (H (dcopy_negate x) Hx) as [H1 H2].
  rewrite dval_copy_negate in *. split; intros; [assert (dval d <= - dval x)%Q|assert (- dval x <= dval d)%Q];
    (apply H1 || apply H2 || idtac); lra.
Qed.

(** A representable value is rounded to itself. *)
Lemma faithful_exact p v d x :
  faithful p v d -> (dcoef x < 10 ^ p)%N -> (dval x == v)%Q -> (dval d == v)%Q.
Proof. intros H Hx E. destruct (H x Hx) as [H1 H2]. rewrite E in *. apply Qle_antisym; [apply H2|apply H1]; lra. Qed.

Lemma half_even_bounds c k : (1 <= k)%N ->
  Z.of_N c / 10 ^ Z.of_N k <= Z.of_N (half_even c k) <= - (- Z.of_N c / 10 ^ Z.of_N k).
Proof.
  intros Hk. unfold half_even.
  assert (10 ^ k <> 0)%N as Hnz by (apply N.pow_nonzero; lia).
  pose proof (N.div_mod c (10 ^ k) Hnz) as Hdm. pose proof (N.mod_lt c (10 ^ k) Hnz) as Hmod.
  set (q := (c / 10 ^ k)%N) in *. set (r := (c mod 10 ^ k)%N) in *.
  assert (0 < 5 * 10 ^ (k - 1))%N as Hhalf.
  { pose proof (N.pow_nonzero 10 (k - 1)). lia. }
  assert (Z.of_N c / 10 ^ Z.of_N k = Z.of_N q) as Eq1.
  { change 10 with (Z.of_N 10). by rewrite <- N2Z.inj_pow, <- N2Z.inj_div. }
  assert (Z.of_N q + (if (r =? 0)%N then 0 else 1) <= - (- Z.of_N c / 10 ^ Z.of_N k)) as Hup.
  { assert (- Z.of_N c / 10 ^ Z.of_N k <= - (Z.of_N q + (if (r =? 0)%N then 0 else 1))); [|lia].
    apply Z.lt_succ_r, Z.div_lt_upper_bound; [apply pow10_pos; lia|].
    change 10 with (Z.of_N 10) at 1. rewrite <- N2Z.inj_pow.
    destruct (N.eqb_spec r 0); nia. }
  rewrite Eq1.
  destruct (((5 * 10 ^ (k - 1) <? r) || ((r =? 5 * 10 ^ (k - 1)) && N.odd q))%N) eqn:E.
  - assert (r <> 0)%N as Hr.
    { intros ->. apply orb_true_iff in E as [E|E]; [apply N.ltb_lt in E; lia|].
      apply andb_true_iff in E as [E _]. apply N.eqb_eq in E. lia. }
    rewrite (proj2 (N.eqb_neq _ _) Hr) in Hup. lia.
  - destruct (r =? 0)%N; lia.
Qed.

Lemma dfix_round p d : (1 <= p)%N -> dneg d = false -> (p < ndigits (dcoef d))%N ->
  (dval (dfix p d) == inject_Z (Z.of_N (half_even (dcoef d) (ndigits (dcoef d) - p)))
                      * q10 (dexp d + Z.of_N (ndigits (dcoef d) - p)))%Q.
Proof.
  intros Hp Hn Hlt. unfold dfix. rewrite (proj2 (N.leb_gt _ _) Hlt).
  set (k := (ndigits (dcoef d) - p)%N). set (q := half_even (dcoef d) k).
  destruct (N.ltb_spec p (ndigits q)) as [Hq|Hq]; [|unfold dval, sval; simpl; by rewrite Hn].
  assert (q = 10 ^ p)%N as Eq.
  { apply N.le_antisymm; [|apply N.nlt_ge; rewrite <- (ndigits_le q p) by done; lia].
    apply N2Z.inj_le. etransitivity; [apply half_even_bounds; lia|].
    enough (- Z.of_N (10 ^ p) <= - Z.of_N (dcoef d) / 10 ^ Z.of_N k) by lia.
    apply Z.div_le_lower_bound; [apply pow10_pos; lia|].
    assert (dcoef d < 10 ^ p * 10 ^ k)%N as Hc.
    { rewrite <- N.pow_add_r. replace (p + k)%N with (ndigits (dcoef d)) by lia.
      apply ndigits_spec. intros E0. rewrite E0 in Hlt. change (ndigits 0) with 1%N in Hlt. lia. }
    change 10 with (Z.of_N 10) at 1. rewrite <- N2Z.inj_pow. nia. }
  unfold dval, sval; simpl. rewrite Hn, Eq.
  replace (10 ^ p / 10)%N with (10 ^ (p - 1))%N.
  - rewrite !N2Z.inj_pow, <- !(q10_Z (Z.of_N _)), <- !q10_plus by lia.
    replace (Z.of_N (p - 1) + (dexp d + Z.of_N k + 1)) with (Z.of_N p + (dexp d + Z.of_N k)) by lia.
    reflexivity.
  - replace p with (p - 1 + 1)%N at 2 by lia. rewrite N.pow_add_r. symmetry. by apply N.div_mul.
Qed.

Lemma dfix_negate p d : dfix p (dcopy_negate d) = dcopy_negate (dfix p d).
Proof. unfold dfix; simpl. by repeat case_match. Qed.

Lemma dfix_faithful p d : (1 <= p)%N -> faithful p (dval d) (dfix p d).
Proof.
  intros Hp.
  assert (forall d, dneg d = false -> faithful p (dval d) (dfix p d)) as Hpos.
  { clear d. intros d Hn. destruct (N.le_gt_cases (ndigits (dcoef d)) p) as [Hle|Hlt].
    - unfold dfix. rewrite (proj2 (N.leb_le _ _) Hle). apply faithful_refl.
    - intros x Hx. rewrite dfix_round by done.
      assert (dcoef d <> 0)%N as Hnz.
      { intros E0. rewrite E0 in Hlt. change (ndigits 0) with 1%N in Hlt. lia. }
      pose proof (ndigits_spec (dcoef d) Hnz) as [Hd _].
      set (k := (ndigits (dcoef d) - p)%N) in *.
      assert (Z.abs (sval x) < 10 ^ (Z.of_N (p - 1) + 1)) as Hxz.
      { rewrite sval_abs. replace (Z.of_N (p - 1) + 1) with (Z.of_N p) by lia.
        change 10 with (Z.of_N 10). rewrite <- N2Z.inj_pow. lia. }
      assert (10 ^ Z.of_N (p - 1) * 10 ^ Z.of_N k <= sval d) as Hs.
      { unfold sval. rewrite Hn, <- pow10_add by lia. change 10 with (Z.of_N 10).
        replace (Z.of_N (p - 1) + Z.of_N k) with (Z.of_N (ndigits (dcoef d) - 1)) by lia.
        rewrite <- N2Z.inj_pow. lia. }
      pose proof (half_even_bounds (dcoef d) k ltac:(lia)) as [Hb1 Hb2].
      assert (sval d = Z.of_N (dcoef d)) as Es by (unfold sval; by rewrite Hn).
      rewrite <- Es in *.
      split; intros H.
      + etransitivity; [apply (coarse_lower (Z.of_N (p - 1)) (Z.of_N k) _ _ _ _ ltac:(lia) ltac:(lia) Hxz Hs H)|].
        by apply inject_Z_le_scale.
      + etransitivity; [|apply (coarse_upper (Z.of_N (p - 1)) (Z.of_N k) _ _ _ _ ltac:(lia) ltac:(lia) Hxz Hs H)].
        by apply inject_Z_le_scale. }
  destruct (dneg d) eqn:Hn; [|auto].
  specialize (Hpos (dcopy_negate d)). rewrite dfix_negate in Hpos. simpl in Hpos.
  rewrite Hn in Hpos. specialize (Hpos eq_refl). apply faithful_neg in Hpos.
  rewrite dval_copy_negate, Qopp_involutive in Hpos.
  destruct (dfix p d) as [s c e]. unfold dcopy_negate in Hpos; simpl in Hpos. by rewrite negb_involutive in Hpos.
Qed.

Lemma dadd_faithful p a b : (1 <= p)%N -> faithful p (dval a + dval b) (dadd p a b).
Proof. intros. rewrite <- dval_add_exact. by apply dfix_faithful. Qed.

Lemma dsub_faithful p a b : (1 <= p)%N -> faithful p (dval a - dval b) (dsub p a b).
Proof. intros. unfold Qminus. rewrite <- dval_copy_negate. by apply dadd_faithful. Qed.

Lemma dmul_faithful p a b : (1 <= p)%N -> faithful p (dval a * dval b) (dmul p a b).
Proof. intros. rewrite <- dval_mul_exact. by apply dfix_faithful. Qed.

(** ** Division *)

Lemma strip_to_spec fuel c e c' e' :
  strip_to fuel c e = (c', e') ->
  e <= e' <= e + Z.of_nat fuel /\ (c = c' * 10 ^ Z.to_N (e' - e))%N
  /\ (e' = e + Z.of_nat fuel \/ (c' mod 10 <> 0)%N).
Proof.
  revert c e. induction fuel as [|fuel IH]; intros c e; simpl.
  - intros [= <- <-]. split; [lia|]. split; [|left; lia].
    replace (Z.to_N (e - e)) with 0%N by lia. simpl. lia.
  - pose proof (N.div_eucl_spec c 10) as Hs.
    pose proof (N.mod_lt c 10 ltac:(lia)) as Hm. unfold N.modulo in Hm.
    destruct (N.div_eucl c 10) as [q r] eqn:E. simpl in Hm.
    destruct (N.eqb_spec r 0) as [->|Hr].
    + intros H. apply IH in H as (H1 & H2 & H3). split; [lia|]. split; [|destruct H3; [left; lia|by right]].
      replace (Z.to_N (e' - e)) with (1 + Z.to_N (e' - (e + 1)))%N by lia.
      rewrite N.pow_add_r. change (10 ^ 1)%N with 10%N. lia.
    + intros [= <- <-]. split; [lia|]. split; [|right; unfold N.modulo; by rewrite E].
      replace (Z.to_N (e - e)) with 0%N by lia. simpl. lia.
Qed.

Lemma strip_to_val fuel s c e c' e' :
  strip_to fuel c e = (c', e') -> (dval (Dec s c' e') == dval (Dec s c e))%Q.
Proof.
  intros H. apply strip_to_spec in H as (H1 & H2 & _).
  rewrite (dval_scale (Dec s c' e') e) by (simpl; lia). unfold dval. simpl.
  assert (sval (Dec s c e) = sval (Dec s c' e') * 10 ^ (e' - e)) as ->; [|reflexivity].
  unfold sval; simpl. rewrite H2, N2Z.inj_mul, N2Z.inj_pow, Z2N.id by lia. by destruct s; lia.
Qed.

Lemma quotient_faithful p (num den : N) (e : Z) :
  (den <> 0)%N -> (10 ^ p * den <= num)%N -> (num mod den <> 0)%N ->
  let q := (num / den)%N in
  faithful p (inject_Z (Z.of_N num) / inject_Z (Z.of_N den) * q10 e)
    (Dec false (if (q mod 5 =? 0)%N then q + 1 else q)%N e).
Proof.
  intros Hd Hbig Hr q x Hx.
  pose proof (N.div_mod num den Hd) as Hdm. pose proof (N.mod_lt num den Hd) as Hmod. fold q in Hdm.
  set (r := (num mod den)%N) in *.
  assert (10 ^ p <= q)%N as Hq by (apply N.div_le_lower_bound; lia).
  set (q' := (if (q mod 5 =? 0)%N then q + 1 else q)%N).
  assert (q <= q' <= q + 1)%N as Hq' by (subst q'; destruct (q mod 5 =? 0)%N; lia).
  assert (0 < inject_Z (Z.of_N den))%Q as HD by (change 0%Q with (inject_Z 0); rewrite <- Zlt_Qlt; lia).
  assert (Z.abs (sval x) < 10 ^ Z.of_N p) as Hxz.
  { rewrite sval_abs. change 10 with (Z.of_N 10). rewrite <- N2Z.inj_pow. lia. }
  assert (forall m, (inject_Z m * q10 e <= inject_Z (Z.of_N num) / inject_Z (Z.of_N den) * q10 e)%Q
                    <-> m * Z.of_N den <= Z.of_N num) as Hle.
  { intros m. rewrite Qmult_le_r by done. rewrite Zle_Qle, inject_Z_mult.
    split; intros H.
    - apply (Qmult_le_r _ _ _ HD) in H. unfold Qdiv in H. rewrite <- Qmult_assoc, (Qmult_comm (/ _)), Qmult_inv_r in H by lra. lra.
    - apply (Qmult_le_r _ _ _ HD). unfold Qdiv. rewrite <- Qmult_assoc, (Qmult_comm (/ _)), Qmult_inv_r by lra. lra. }
  assert (forall m, (inject_Z (Z.of_N num) / inject_Z (Z.of_N den) * q10 e <= inject_Z m * q10 e)%Q
                    <-> Z.of_N num <= m * Z.of_N den) as Hge.
  { intros m. rewrite Qmult_le_r by done. rewrite Zle_Qle, inject_Z_mult.
    split; intros H.
    - apply (Qmult_le_r _ _ _ HD) in H. unfold Qdiv in H. rewrite <- Qmult_assoc, (Qmult_comm (/ _)), Qmult_inv_r in H by lra. lra.
    - apply (Qmult_le_r _ _ _ HD). unfold Qdiv. rewrite <- Qmult_assoc, (Qmult_comm (/ _)), Qmult_inv_r by lra. lra. }
  change (dval (Dec false q' e)) with (inject_Z (Z.of_N q') * q10 e)%Q.
  destruct (Z.le_gt_cases e (dexp x)) as [Hex|Hex].
  - rewrite (dval_scale x e) by done. set (m := sval x * 10 ^ (dexp x - e)).
    rewrite Hle, Hge, <- !inject_Z_le_scale. nia.
  - assert (dval x < inject_Z (Z.of_N q) * q10 e)%Q as Hsmall.
    { apply Qlt_le_trans with (inject_Z (10 ^ Z.of_N p) * q10 (dexp x))%Q.
      - apply Qmult_lt_r; [done|]. rewrite <- Zlt_Qlt. lia.
      - transitivity (inject_Z (10 ^ Z.of_N p) * q10 e)%Q.
        + rewrite <- !q10_Z, <- !q10_plus by lia. apply q10_le. lia.
        + apply inject_Z_le_scale. change 10 with (Z.of_N 10). rewrite <- N2Z.inj_pow. lia. }
    split; intros H.
    + apply Qlt_le_weak. eapply Qlt_le_trans; [exact Hsmall|]. apply inject_Z_le_scale. lia.
    + exfalso. assert (inject_Z (Z.of_N q) * q10 e <= dval x)%Q; [|lra].
      etransitivity; [|exact H]. apply Hle. nia.
Qed.

Lemma sval_sign s c e : sval (Dec s c e) = (if s then -1 else 1) * Z.of_N c.
Proof. unfold sval; simpl. destruct s; lia. Qed.

Lemma dval_zero_iff d : (dval d == 0)%Q <-> dcoef d = 0%N.
Proof.
  unfold dval. split; intros H.
  - apply Qmult_integral in H as [H|H]; [|by apply q10_nonzero in H].
    apply (proj1 (inject_Z_eq0 _)) in H.
    pose proof (sval_abs d). lia.
  - assert (sval d = 0) as -> by (pose proof (sval_abs d); lia). change (inject_Z 0) with 0%Q. ring.
Qed.

Lemma dis_zero_spec d : dis_zero d = true <-> (dval d == 0)%Q.
Proof. rewrite dval_zero_iff. apply N.eqb_eq. Qed.

Definition qsign (s : bool) : Q := if s then (-1)%Q else 1%Q.

Lemma dval_sign s c e : (dval (Dec s c e) == qsign s * (inject_Z (Z.of_N c) * q10 e))%Q.
Proof. unfold dval. rewrite sval_sign, inject_Z_mult. simpl. destruct s; simpl; ring. Qed.

Lemma faithful_sign p s v c e :
  faithful p v (Dec false c e) -> faithful p (qsign s * v) (Dec s c e).
Proof.
  destruct s; simpl; intros H.
  - apply faithful_neg in H. assert (-1 * v == - v)%Q as -> by ring. exact H.
  - assert (1 * v == v)%Q as -> by ring. exact H.
Qed.

Lemma ddiv_err p a b : ddiv p a b = Err ArithError <-> (dval b == 0)%Q.
Proof.
  rewrite dval_zero_iff. unfold ddiv. destruct (N.eqb_spec (dcoef b) 0) as [|Hb]; [done|].
  split; [|done]. destruct (dcoef a =? 0)%N; [done|].
  destruct (N.div_eucl _ _) as [q r]. destruct (r =? 0)%N; [|done]. by destruct (strip_to _ _ _).
Qed.

Lemma ddiv_total p a b : ~ (dval b == 0)%Q -> exists d, ddiv p a b = Ok d.
Proof.
  intros Hb. destruct (ddiv p a b) as [d|e] eqn:E; [eauto|].
  exfalso. apply Hb, (ddiv_err p a). rewrite E. revert E. unfold ddiv.
  repeat case_match; naive_solver.
Qed.

Lemma ddiv_value (a b : dec) (n m : N) (shift e : Z) :
  (dcoef b <> 0)%N -> e = dexp a - dexp b - shift ->
  (inject_Z (Z.of_N n) == inject_Z (Z.of_N (dcoef a)) * q10 shift * (inject_Z (Z.of_N m) / inject_Z (Z.of_N (dcoef b))))%Q ->
  (m <> 0)%N ->
  (dval a / dval b == qsign (xorb (dneg a) (dneg b)) * (inject_Z (Z.of_N n) / inject_Z (Z.of_N m) * q10 e))%Q.
Proof.
  intros Hb -> Hn Hm. destruct a as [sa ca ea], b as [sb cb eb]; simpl in *.
  rewrite Hn, !dval_sign.
  assert (~ inject_Z (Z.of_N cb) == 0)%Q by (by apply inject_N_neq0).
  assert (~ inject_Z (Z.of_N m) == 0)%Q by (by apply inject_N_neq0).
  assert (q10 ea == q10 (ea - eb - shift) * q10 shift * q10 eb)%Q as ->.
  { rewrite <- !q10_plus. by replace (ea - eb - shift + shift + eb) with ea by lia. }
  pose proof (q10_nonzero eb). pose proof (q10_nonzero shift).
  destruct sa, sb; simpl; field; auto.
Qed.

Lemma inject_N_mul_pow c k : (inject_Z (Z.of_N (c * 10 ^ k)) == inject_Z (Z.of_N c) * q10 (Z.of_N k))%Q.
Proof. rewrite q10_Z by lia. rewrite <- inject_Z_mult, N2Z.inj_mul, N2Z.inj_pow. reflexivity. Qed.

Lemma ddiv_faithful p a b d : (1 <= p)%N -> ddiv p a b = Ok d -> faithful p (dval a / dval b) d.
Proof.
  intros Hp. unfold ddiv. destruct (N.eqb_spec (dcoef b) 0) as [|Hb]; [done|].
  destruct (N.eqb_spec (dcoef a) 0) as [Ha|Ha].
  { intros [= <-]. apply faithful_trans with (w := Dec (xorb (dneg a) (dneg b)) 0 (dexp a - dexp b));
      [|by apply dfix_faithful].
    assert (dval a == 0)%Q as Ea by by apply dval_zero_iff.
    assert (dval (Dec (xorb (dneg a) (dneg b)) 0 (dexp a - dexp b)) == 0)%Q as Ez by by apply dval_zero_iff.
    assert (dval a / dval b == dval (Dec (xorb (dneg a) (dneg b)) 0 (dexp a - dexp b)))%Q as ->.
    - rewrite Ea, Ez. unfold Qdiv. ring.
    - apply faithful_refl. }
  set (shift := Z.of_N (ndigits (dcoef b)) - Z.of_N (ndigits (dcoef a)) + Z.of_N p + 1).
  set (num := if 0 <=? shift then (dcoef a * 10 ^ Z.to_N shift)%N else dcoef a).
  set (den := if 0 <=? shift then dcoef b else (dcoef b * 10 ^ Z.to_N (- shift))%N).
  assert (den <> 0)%N as Hden.
  { subst den. destruct (0 <=? shift); [done|]. apply N.neq_mul_0. split; [done|]. by apply N.pow_nonzero. }
  assert (inject_Z (Z.of_N num) == inject_Z (Z.of_N (dcoef a)) * q10 shift
           * (inject_Z (Z.of_N den) / inject_Z (Z.of_N (dcoef b))))%Q as Hnum.
  { assert (~ inject_Z (Z.of_N (dcoef b)) == 0)%Q by (by apply inject_N_neq0).
    subst num den. destruct (Z.leb_spec 0 shift) as [Hs|Hs]; rewrite inject_N_mul_pow.
    - rewrite Z2N.id by exact Hs. field. done.
    - rewrite Z2N.id by (clear - Hs; lia). replace (q10 shift) with (q10 (- - shift)) by (f_equal; lia).
      unfold q10. rewrite Qpower_opp. field. split; [done|]. apply q10_nonzero. }
  assert (10 ^ p * den <= num)%N as Hbig.
  { pose proof (ndigits_spec _ Ha) as [Ha1 _]. pose proof (ndigits_spec _ Hb) as [_ Hb2].
    pose proof (ndigits_pos (dcoef a)).
    subst num den. destruct (Z.leb_spec 0 shift) as [Hs|Hs].
    - transitivity (10 ^ p * 10 ^ ndigits (dcoef b))%N; [apply N.mul_le_mono_l; lia|].
      transitivity (10 ^ (ndigits (dcoef a) - 1) * 10 ^ Z.to_N shift)%N; [|by apply N.mul_le_mono_r].
      rewrite <- !N.pow_add_r. apply N.pow_le_mono_r; lia.
    - transitivity (10 ^ p * (10 ^ ndigits (dcoef b) * 10 ^ Z.to_N (- shift)))%N;
        [apply N.mul_le_mono_l, N.mul_le_mono_r; lia|].
      transitivity (10 ^ (ndigits (dcoef a) - 1))%N; [|done].
      rewrite <- !N.pow_add_r. apply N.pow_le_mono_r; lia. }
  pose proof (ddiv_value a b num den shift (dexp a - dexp b - shift) Hb eq_refl Hnum Hden) as Hv.
  pose proof (N.div_mod num den Hden) as Hdm.
  pose proof (quotient_faithful p num den (dexp a - dexp b - shift) Hden Hbig) as Hq.
  unfold N.div, N.modulo in Hdm, Hq. destruct (N.div_eucl num den) as [q r] eqn:E. simpl in Hdm, Hq.
  rewrite Hv. destruct (N.eqb_spec r 0) as [->|Hr].
  - destruct (strip_to _ _ _) as [c' e'] eqn:Es. intros [= <-].
    eapply faithful_trans; [|by apply dfix_faithful].
    apply (strip_to_val _ (xorb (dneg a) (dneg b))) in Es.
    assert (dval (Dec (xorb (dneg a) (dneg b)) c' e')
            == qsign (xorb (dneg a) (dneg b)) * (inject_Z (Z.of_N num) / inject_Z (Z.of_N den) * q10 (dexp a - dexp b - shift)))%Q as <-.
    { rewrite Es, dval_sign, Hdm, N.add_0_r, N2Z.inj_mul, inject_Z_mult.
      assert (~ inject_Z (Z.of_N den) == 0)%Q by (by apply inject_N_neq0).
      field. done. }
    apply faithful_refl.
  - intros [= <-]. eapply faithful_trans; [|by apply dfix_faithful].
    apply faithful_sign, (Hq Hr).
Qed.

(** ** Representable values

    [rep i f v]: the rational [v] has at most [i] digits before the decimal
    point and [f] after it.  Rounding such a value to [i + f] digits or more
    keeps it, so the arithmetic of bounded decimal strings is exact. *)
Definition rep (i f : Z) (v : Q) : Prop :=
  0 <= i + f /\ exists n, (v == inject_Z n * q10 (- f))%Q /\ Z.abs n < 10 ^ (i + f).

#[export] Instance rep_proper i f : Proper (Qeq ==> iff) (rep i f).
Proof.
  intros v v' H. unfold rep. split; intros (H0 & n & Hn & Hb); (split; [done|]); exists n;
    (split; [|done]); [by rewrite <- H|by rewrite H].
Qed.

Lemma rep_dval i f d : fits i f d -> rep i f (dval d).
Proof.
  intros H. pose proof (fits_nonneg _ _ _ H). destruct H as [He H]. split; [done|].
  exists (sval d * 10 ^ (dexp d - - f)). split; [by apply dval_scale|].
  rewrite Z.abs_mul, sval_abs. rewrite (Z.abs_eq (10 ^ _)) by (apply Z.pow_nonneg; lia).
  by replace (dexp d - - f) with (dexp d + f) by lia.
Qed.

Lemma rep_lt i f v : rep i f v -> (Qabs v < q10 i)%Q.
Proof.
  intros (H0 & n & Hn & Hb). rewrite Hn, Qabs_Qmult, (Qabs_pos (q10 _)) by auto using Qlt_le_weak.
  replace i with ((i + f) + - f) by lia. rewrite (q10_plus (i + f)).
  apply Qmult_lt_r; [done|]. rewrite q10_Z by lia.
  change (Qabs (inject_Z ?x)) with (inject_Z (Z.abs x)). by rewrite <- Zlt_Qlt.
Qed.

Lemma rep_bound i f i' v : rep i f v -> 0 <= i' + f -> (Qabs v < q10 i')%Q -> rep i' f v.
Proof.
  intros (H0 & n & Hn & Hb) H0' Hv. split; [done|]. exists n. split; [done|].
  rewrite Hn, Qabs_Qmult, (Qabs_pos (q10 _)) in Hv by auto using Qlt_le_weak.
  replace i' with ((i' + f) + - f) in Hv by lia. rewrite (q10_plus (i' + f)) in Hv.
  apply Qmult_lt_r in Hv; [|done]. rewrite q10_Z in Hv by lia.
  change (Qabs (inject_Z ?x)) with (inject_Z (Z.abs x)) in Hv. by rewrite <- Zlt_Qlt in Hv.
Qed.

Lemma rep_weaken i f i' f' v : rep i f v -> i <= i' -> f <= f' -> rep i' f' v.
Proof.
  intros (H0 & n & Hn & Hb) Hi Hf. split; [lia|]. exists (n * 10 ^ (f' - f)). split.
  - rewrite Hn, inject_Z_mult, <- q10_Z, <- Qmult_assoc, <- q10_plus by lia.
    by replace (f' - f + - f') with (- f) by lia.
  - rewrite Z.abs_mul, (Z.abs_eq (10 ^ _)) by (apply Z.pow_nonneg; lia).
    apply Z.lt_le_trans with (10 ^ (i + f) * 10 ^ (f' - f)).
    + apply Z.mul_lt_mono_pos_r; [apply pow10_pos; lia|done].
    + rewrite <- pow10_add by lia. apply pow10_le. lia.
Qed.

Lemma rep_plus i1 f1 i2 f2 v w :
  rep i1 f1 v -> rep i2 f2 w -> rep (Z.max i1 i2 + 1) (Z.max f1 f2) (v + w).
Proof.
  intros Hv Hw. pose proof (proj1 Hv). pose proof (proj1 Hw).
  set (F := Z.max f1 f2). set (I := Z.max i1 i2).
  apply (rep_weaken _ _ I F) in Hv as (_ & n & Hn & Hbn); [|lia..].
  apply (rep_weaken _ _ I F) in Hw as (_ & m & Hm & Hbm); [|lia..].
  split; [lia|]. exists (n + m). split.
  - rewrite Hn, Hm, inject_Z_plus. ring.
  - replace (I + 1 + F) with (1 + (I + F)) by lia.
    rewrite (pow10_add 1) by lia. change (10 ^ 1) with 10. lia.
Qed.

Lemma rep_opp i f v : rep i f v -> rep i f (- v).
Proof.
  intros (H0 & n & Hn & Hb). split; [done|]. exists (- n). split; [|lia].
  rewrite Hn, inject_Z_opp. ring.
Qed.

Lemma rep_minus i1 f1 i2 f2 v w :
  rep i1 f1 v -> rep i2 f2 w -> rep (Z.max i1 i2 + 1) (Z.max f1 f2) (v - w).
Proof. intros Hv Hw. apply rep_plus; [done|by apply rep_opp]. Qed.

Lemma rep_abs i f v : rep i f v -> rep i f (Qabs v).
Proof.
  intros (H0 & n & Hn & Hb). split; [done|]. exists (Z.abs n). split; [|lia].
  rewrite Hn, Qabs_Qmult, (Qabs_pos (q10 _)) by auto using Qlt_le_weak. reflexivity.
Qed.

Lemma rep_mult i1 f1 i2 f2 v w : rep i1 f1 v -> rep i2 f2 w -> rep (i1 + i2) (f1 + f2) (v * w).
Proof.
  intros (H1 & n & Hn & Hbn) (H2 & m & Hm & Hbm). split; [lia|]. exists (n * m). split.
  - rewrite Hn, Hm, inject_Z_mult. replace (- (f1 + f2)) with (- f1 + - f2) by lia.
    rewrite q10_plus. ring.
  - rewrite Z.abs_mul. replace (i1 + i2 + (f1 + f2)) with ((i1 + f1) + (i2 + f2)) by lia.
    rewrite pow10_add by lia. apply Z.mul_lt_mono_nonneg; lia.
Qed.

Lemma rep_div10 k i f v : 0 <= k -> rep i f v -> rep (i - k) (f + k) (v / q10 k).
Proof.
  intros Hk (H0 & n & Hn & Hb). split; [lia|]. exists n. split.
  - rewrite Hn. replace (- (f + k)) with (- f + - k) by lia. rewrite q10_plus.
    unfold q10 at 2 4. rewrite Qpower_opp. unfold Qdiv. ring.
  - by replace (i - k + (f + k)) with (i + f) by lia.
Qed.

Lemma rep_Z n i : 0 <= i -> Z.abs n < 10 ^ i -> rep i 0 (inject_Z n).
Proof.
  intros Hi Hn. split; [lia|]. exists n. replace (i + 0) with i by lia. split; [|done].
  change (q10 (- 0)) with 1%Q. ring.
Qed.

Lemma rep_0 : rep 0 0 0.
Proof. apply (rep_Z 0); simpl; lia. Qed.
Lemma rep_1 : rep 1 0 1.
Proof. apply (rep_Z 1); simpl; lia. Qed.

Lemma rep_dec i f v p : rep i f v -> i + f <= Z.of_N p -> exists x, (dcoef x < 10 ^ p)%N /\ (dval x == v)%Q.
Proof.
  intros (H0 & n & Hn & Hb) Hp. exists (of_sval false n (- f)). split.
  - simpl. apply N2Z.inj_lt. rewrite N2Z.inj_abs_N, N2Z.inj_pow.
    eapply Z.lt_le_trans; [exact Hb|]. by apply pow10_le.
  - by rewrite dval_of_sval, Hn.
Qed.

Lemma faithful_rep i f v p d : rep i f v -> i + f <= Z.of_N p -> faithful p v d -> (dval d == v)%Q.
Proof. intros Hr Hp Hf. destruct (rep_dec _ _ _ _ Hr Hp) as (x & Hx & E). by eapply faithful_exact. Qed.

(** A rounding stays between representable bounds. *)
Lemma faithful_lower i f w p v d :
  rep i f w -> i + f <= Z.of_N p -> faithful p v d -> (w <= v)%Q -> (w <= dval d)%Q.
Proof.
  intros Hr Hp Hf Hle. destruct (rep_dec _ _ _ _ Hr Hp) as (x & Hx & E).
  rewrite <- E in *. by apply (Hf x Hx).
Qed.
Lemma faithful_upper i f w p v d :
  rep i f w -> i + f <= Z.of_N p -> faithful p v d -> (v <= w)%Q -> (dval d <= w)%Q.
Proof.
  intros Hr Hp Hf Hle. destruct (rep_dec _ _ _ _ Hr Hp) as (x & Hx & E).
  rewrite <- E in *. by apply (Hf x Hx).
Qed.
Lemma faithful_nonneg p v d : faithful p v d -> (0 <= v)%Q -> (0 <= dval d)%Q.
Proof. apply (faithful_lower 0 0 0); [apply rep_0|lia]. Qed.
Lemma faithful_nonpos p v d : faithful p v d -> (v <= 0)%Q -> (dval d <= 0)%Q.
Proof. apply (faithful_upper 0 0 0); [apply rep_0|lia]. Qed.

(** Context operations whose exact result is representable are exact. *)
Section RepOps.
Context {p : N} {i f : Z} {a b : dec}.
Hypothesis Hp : i + f <= Z.of_N p.
Hypothesis Hp1 : (1 <= p)%N.

Lemma dadd_val : rep i f (dval a + dval b) -> (dval (dadd p a b) == dval a + dval b)%Q.
Proof using All. intros H. eapply faithful_rep; [exact H|done|by apply dadd_faithful]. Qed.
Lemma dsub_val : rep i f (dval a - dval b) -> (dval (dsub p a b) == dval a - dval b)%Q.
Proof using All. intros H. eapply faithful_rep; [exact H|done|by apply dsub_faithful]. Qed.
Lemma dmul_val : rep i f (dval a * dval b) -> (dval (dmul p a b) == dval a * dval b)%Q.
Proof using All. intros H. eapply faithful_rep; [exact H|done|by apply dmul_faithful]. Qed.
Lemma ddiv_val d : ddiv p a b = Ok d -> rep i f (dval a / dval b) -> (dval d == dval a / dval b)%Q.
Proof using All. intros E H. eapply faithful_rep; [exact H|done|by eapply ddiv_faithful]. Qed.
Lemma dabs_val : rep i f (dval a) -> (dval (dabs p a) == Qabs (dval a))%Q.
Proof using Hp Hp1.
  intros H. rewrite <- dval_copy_abs. eapply faithful_rep; [|done|by apply dfix_faithful].
  rewrite dval_copy_abs. by apply rep_abs.
Qed.
Lemma dminus_val : rep i f (dval a) -> (dval (dminus p a) == - dval a)%Q.
Proof using Hp Hp1.
  intros H. unfold dminus. destruct (N.eqb_spec (dcoef a) 0) as [E|E].
  - assert (dval a == 0)%Q as E0 by by apply dval_zero_iff.
    assert (- dval a == dval (dcopy_abs a))%Q as -> by (rewrite dval_copy_abs, E0; reflexivity).
    eapply faithful_rep; [|done|by apply dfix_faithful]. rewrite dval_copy_abs. by apply rep_abs.
  - rewrite <- dval_copy_negate. eapply faithful_rep; [|done|by apply dfix_faithful].
    rewrite dval_copy_negate. by apply rep_opp.
Qed.
End RepOps.

(** ** Comparing a rounded quotient

    When the operands are bounded decimals, comparing a rounded quotient with a
    short constant decides the exact comparison: the exact quotient is either
    equal to the constant or far enough from it. *)
Lemma rep_gap i f v : rep i f v -> (0 < v)%Q -> (q10 (- f) <= v)%Q.
Proof.
  intros (_ & n & Hn & _) Hv. rewrite Hn in *.
  assert (0 < n) as H.
  { apply Z.nle_gt. intros Hle. rewrite Zle_Qle in Hle.
    apply (Qmult_le_compat_r _ _ (q10 (- f))) in Hle; [|by apply Qlt_le_weak]. change (inject_Z 0) with 0%Q in Hle.
    rewrite Qmult_0_l in Hle. lra. }
  assert (1 <= inject_Z n)%Q as H1 by (change 1%Q with (inject_Z 1); rewrite <- Zle_Qle; lia).
  apply (Qmult_le_compat_r _ _ (q10 (- f))) in H1; [|by apply Qlt_le_weak]. by rewrite Qmult_1_l in H1.
Qed.

Lemma rep_q10 i f k : 0 <= i -> 0 <= f -> - f <= k < i -> rep i f (q10 k).
Proof.
  intros Hi Hf Hk. split; [lia|]. exists (10 ^ (k + f)). split.
  - rewrite <- q10_Z, <- q10_plus by lia. by replace (k + f + - f) with k by lia.
  - rewrite Z.abs_eq by (apply Z.pow_nonneg; lia). apply pow10_lt; lia.
Qed.

Section DivCompare.
Context {p : N} {q : dec} {i f iw fw j : Z} {a b w : Q}.
Hypothesis Hp : iw + 1 + Z.max fw (f + j) <= Z.of_N p.
Hypothesis Hiw : 1 <= iw.
Hypothesis Hfw : 0 <= fw.
Hypothesis Hf : 0 <= f.
Hypothesis Hj : 0 <= j.
Hypothesis F : faithful p (a / b) q.
Hypothesis Hb : (0 < b < q10 j)%Q.
Hypothesis Rw : rep iw fw w.
Hypothesis Ra : rep i f (a - w * b).

Lemma div_step : rep (iw + 1) (Z.max fw (f + j)) (w + q10 (- (f + j)))
  /\ rep (iw + 1) (Z.max fw (f + j)) (w - q10 (- (f + j))).
Proof using Hp Hiw Hfw Hf Hj Rw.
  assert (rep 1 (f + j) (q10 (- (f + j)))) as R by (apply rep_q10; lia).
  pose proof (rep_plus _ _ _ _ _ _ Rw R). pose proof (rep_minus _ _ _ _ _ _ Rw R).
  by replace (Z.max iw 1) with iw in * by lia.
Qed.

Lemma div_gap x : (q10 (- f) <= x)%Q -> (q10 (- (f + j)) <= x / b)%Q.
Proof using Hp Hb.
  intros H. apply Qle_shift_div_l; [apply Hb|]. etransitivity; [|exact H].
  replace (- f) with (- (f + j) + j) by lia. rewrite q10_plus.
  rewrite !(Qmult_comm (q10 (- (f + j)))). apply Qmult_le_compat_r; [|by apply Qlt_le_weak]. destruct Hb. lra.
Qed.

Lemma quotient_gt : (w < dval q <-> w * b < a)%Q.
Proof using All.
  destruct Hb as [B0 B1]. split; intros H.
  - apply Qnot_le_lt. intros Hle. assert (a / b <= w)%Q as Hq by by apply Qle_shift_div_r.
    pose proof (faithful_upper iw fw w p _ q Rw ltac:(lia) F Hq). lra.
  - assert (0 < a - w * b)%Q as Hpos by lra.
    pose proof (div_gap _ (rep_gap _ _ _ Ra Hpos)) as Hg. pose proof (q10_pos (- (f + j))).
    apply Qlt_le_trans with (w + q10 (- (f + j)))%Q; [lra|].
    apply (faithful_lower _ _ _ p _ q (proj1 div_step) ltac:(lia) F).
    assert (a / b == w + (a - w * b) / b)%Q as -> by (field; lra). lra.
Qed.

Lemma quotient_lt : (dval q < w <-> a < w * b)%Q.
Proof using All.
  destruct Hb as [B0 B1]. split; intros H.
  - apply Qnot_le_lt. intros Hle. assert (w <= a / b)%Q as Hq by by apply Qle_shift_div_l.
    pose proof (faithful_lower iw fw w p _ q Rw ltac:(lia) F Hq). lra.
  - assert (0 < - (a - w * b))%Q as Hpos by lra.
    pose proof (div_gap _ (rep_gap _ _ _ (rep_opp _ _ _ Ra) Hpos)) as Hg. pose proof (q10_pos (- (f + j))).
    apply Qle_lt_trans with (w - q10 (- (f + j)))%Q; [|lra].
    apply (faithful_upper _ _ _ p _ q (proj2 div_step) ltac:(lia) F).
    assert (a / b == w - - (a - w * b) / b)%Q as -> by (field; lra). lra.
Qed.
End DivCompare.

Lemma faithful_dval p v d d' : (dval d == dval d')%Q -> faithful p v d -> faithful p v d'.
Proof. intros E H x Hx. rewrite <- E. by apply H. Qed.

Lemma faithful_copy_abs p v d : faithful p v d -> faithful p (Qabs v) (dcopy_abs d).
Proof.
  intros F. destruct (Qlt_le_dec v 0) as [Hv|Hv].
  - pose proof (faithful_nonpos _ _ _ F ltac:(lra)) as Hd. rewrite Qabs_neg by lra.
    eapply faithful_dval; [|by apply faithful_neg]. rewrite dval_copy_abs, dval_copy_negate, Qabs_neg by done. reflexivity.
  - pose proof (faithful_nonneg _ _ _ F Hv) as Hd. rewrite Qabs_pos by done.
    eapply faithful_dval; [|exact F]. by rewrite dval_copy_abs, Qabs_pos.
Qed.

Lemma dabs_faithful p v d : (1 <= p)%N -> faithful p v d -> faithful p (Qabs v) (dabs p d).
Proof. intros Hp F. eapply faithful_trans; [by apply faithful_copy_abs|by apply dfix_faithful]. Qed.

(** ** Rounding to an exponent *)

Lemma inject_Z_scale_iff n s e e' : e' <= e ->
  (inject_Z n * q10 e <= inject_Z s * q10 e')%Q <-> n <= s / 10 ^ (e - e').
Proof.
  intros He. assert (inject_Z n * q10 e == inject_Z (n * 10 ^ (e - e')) * q10 e')%Q as ->.
  { rewrite inject_Z_mult, <- q10_Z, <- Qmult_assoc, <- q10_plus by lia. by replace (e - e' + e') with e by lia. }
  rewrite <- inject_Z_le_scale. pose proof (pow10_pos (e - e') ltac:(lia)). split; intros H1.
  - apply Z.div_le_lower_bound; lia.
  - pose proof (Z.mul_div_le s (10 ^ (e - e')) ltac:(lia)). nia.
Qed.

Lemma half_even_sval (s : bool) c k : (1 <= k)%N ->
  let v := sval (Dec s c 0) in let w := sval (Dec s (half_even c k) 0) in
  v / 10 ^ Z.of_N k <= w /\ - w >= (- v) / 10 ^ Z.of_N k.
Proof.
  intros Hk. pose proof (half_even_bounds c k Hk). unfold sval; simpl. destruct s; simpl; [|lia].
  rewrite !Z.opp_involutive. lia.
Qed.

(** A quantized number stays on the same side of every multiple of the unit. *)
Lemma dquantize_between p e d d' : dexp d < e -> dquantize p e d = Ok d' ->
  dexp d' = e /\ dneg d' = dneg d
  /\ (forall n, (inject_Z n * q10 e <= dval d)%Q -> (inject_Z n * q10 e <= dval d')%Q)
  /\ (forall n, (dval d <= inject_Z n * q10 e)%Q -> (dval d' <= inject_Z n * q10 e)%Q).
Proof.
  intros He. unfold dquantize. rewrite (proj2 (Z.leb_gt e (dexp d))) by done.
  destruct (p <? _)%N; [done|]. intros [= <-]. split; [done|]. split; [done|].
  pose proof (half_even_sval (dneg d) (dcoef d) (Z.to_N (e - dexp d)) ltac:(lia)) as [H1 H2].
  rewrite Z2N.id in H1, H2 by lia. unfold dval. cbn [dexp dcoef].
  set (w := half_even _ _) in *. change (sval (Dec (dneg d) w e)) with (sval (Dec (dneg d) w 0)).
  change (sval d) with (sval (Dec (dneg d) (dcoef d) 0)). set (v := sval (Dec (dneg d) (dcoef d) 0)) in *.
  set (sw := sval (Dec (dneg d) w 0)) in *. split; intros n H.
  - apply inject_Z_scale_iff in H; [|lia]. apply inject_Z_le_scale. lia.
  - assert (inject_Z (- n) * q10 e <= inject_Z (- v) * q10 (dexp d))%Q as H' by (rewrite !inject_Z_opp; lra).
    apply inject_Z_scale_iff in H'; [|lia]. apply inject_Z_le_scale. lia.
Qed.

Lemma dquantize_total p e d i : dexp d < e -> e <= 0 -> 0 <= i -> i - e + 1 <= Z.of_N p -> (Qabs (dval d) <= q10 i)%Q ->
  exists d', dquantize p e d = Ok d' /\ (Qabs (dval d') <= q10 i)%Q.
Proof.
  intros He He0 Hi Hp Hv.
  assert (Z.of_N (half_even (dcoef d) (Z.to_N (e - dexp d))) <= 10 ^ (i - e)) as Hc.
  { pose proof (half_even_bounds (dcoef d) (Z.to_N (e - dexp d)) ltac:(lia)) as [_ H].
    rewrite Z2N.id in H by lia. etransitivity; [exact H|].
    enough (- 10 ^ (i - e) <= - Z.of_N (dcoef d) / 10 ^ (e - dexp d)) by lia.
    apply inject_Z_scale_iff; [lia|]. rewrite !inject_Z_opp, <- q10_Z by lia.
    assert (q10 (i - e) * q10 e == q10 i)%Q as Ei by (rewrite <- q10_plus; by replace (i - e + e) with i by lia).
    rewrite <- dval_copy_abs in Hv. unfold dval, sval in Hv. simpl in Hv. lra. }
  assert (10 ^ (i - e) < 10 ^ Z.of_N p) as Hlt by (apply pow10_lt; lia).
  eexists. unfold dquantize. rewrite (proj2 (Z.leb_gt e (dexp d))) by done.
  rewrite (proj2 (N.ltb_ge _ _)).
  - split; [reflexivity|]. rewrite <- dval_copy_abs. unfold dcopy_abs, dval, sval. cbn [dneg dcoef dexp].
    apply Qle_trans with (inject_Z (10 ^ (i - e)) * q10 e)%Q; [by apply inject_Z_le_scale|].
    rewrite <- q10_Z, <- q10_plus by lia. replace (i - e + e) with i by lia. apply Qle_refl.
  - apply ndigits_le; [lia|]. apply N2Z.inj_lt. rewrite N2Z.inj_pow. change (Z.of_N 10) with 10. lia.
Qed.

(** ** The exponent and the error of a rounding *)

Lemma dfix_dexp p d : dexp d <= dexp (dfix p d).
Proof. unfold dfix. repeat case_match; simpl; lia. Qed.

Lemma dval_pos_coef d : dneg d = false -> dval d = (inject_Z (Z.of_N (dcoef d)) * q10 (dexp d))%Q.
Proof. intros H. unfold dval, sval. by rewrite H. Qed.

(** The relative error of a rounding to [p] digits is below [10 ^ (1 - p)]. *)
Lemma dfix_relative_pos p d : (1 <= p)%N -> dneg d = false ->
  (Qabs (dval (dfix p d) - dval d) <= q10 (1 - Z.of_N p) * dval d)%Q.
Proof.
  intros Hp Hn. destruct (N.le_gt_cases (ndigits (dcoef d)) p) as [Hle|Hgt].
  - rewrite dfix_id by (done || by apply ndigits_le). assert (dval d - dval d == 0)%Q as -> by ring.
    apply Qmult_le_0_compat; [by apply Qlt_le_weak|]. rewrite dval_pos_coef by done.
    apply Qmult_le_0_compat; [|by apply Qlt_le_weak]. change 0%Q with (inject_Z 0). rewrite <- Zle_Qle. lia.
  - rewrite dfix_round by done. set (k := (ndigits (dcoef d) - p)%N). set (c := Z.of_N (dcoef d)).
    set (q := Z.of_N (half_even (dcoef d) k)).
    assert (dcoef d <> 0)%N as Hnz by (intros E; rewrite E in Hgt; change (ndigits 0) with 1%N in Hgt; lia).
    pose proof (half_even_bounds (dcoef d) k ltac:(lia)) as [B1 B2]. fold c q in B1, B2.
    pose proof (pow10_pos (Z.of_N k) ltac:(lia)) as Hk.
    pose proof (Z.div_mod c (10 ^ Z.of_N k) ltac:(lia)) as D1. pose proof (Z.mod_pos_bound c (10 ^ Z.of_N k) Hk) as M1.
    pose proof (Z.div_mod (- c) (10 ^ Z.of_N k) ltac:(lia)) as D2. pose proof (Z.mod_pos_bound (- c) (10 ^ Z.of_N k) Hk) as M2.
    assert (Z.abs (q * 10 ^ Z.of_N k - c) <= 10 ^ Z.of_N k) as Herr by nia.
    assert (10 ^ (Z.of_N p - 1 + Z.of_N k) <= c) as Hbig.
    { pose proof (ndigits_spec _ Hnz) as [Hlo _]. apply N2Z.inj_le in Hlo. rewrite N2Z.inj_pow in Hlo.
      change (Z.of_N 10) with 10 in Hlo. by replace (Z.of_N (ndigits (dcoef d) - 1)) with (Z.of_N p - 1 + Z.of_N k) in Hlo by lia. }
    rewrite dval_pos_coef by done. fold c.
    assert (inject_Z q * q10 (dexp d + Z.of_N k) - inject_Z c * q10 (dexp d)
            == inject_Z (q * 10 ^ Z.of_N k - c) * q10 (dexp d))%Q as ->.
    { rewrite q10_plus. unfold Zminus. rewrite inject_Z_plus, inject_Z_mult, inject_Z_opp, <- q10_Z by lia. ring. }
    rewrite Qabs_Qmult, (Qabs_pos (q10 (dexp d))), Qmult_assoc by auto using Qlt_le_weak.
    apply Qmult_le_compat_r; [|by apply Qlt_le_weak]. change (Qabs (inject_Z ?x)) with (inject_Z (Z.abs x)).
    apply Qle_trans with (q10 (Z.of_N k)); [rewrite q10_Z by lia; by rewrite <- Zle_Qle|].
    apply Qle_trans with (q10 (1 - Z.of_N p) * inject_Z (10 ^ (Z.of_N p - 1 + Z.of_N k)))%Q.
    + rewrite <- q10_Z, <- q10_plus by lia. replace (1 - Z.of_N p + (Z.of_N p - 1 + Z.of_N k)) with (Z.of_N k) by lia. apply Qle_refl.
    + rewrite !(Qmult_comm (q10 (1 - Z.of_N p))). apply Qmult_le_compat_r; [by rewrite <- Zle_Qle|by apply Qlt_le_weak].
Qed.
