(* ===== verification/PyText.v ===== *)
(** * Decimal strings

    Amounts travel as strings.  This file models the regular expressions that
    guard them ([DECIMAL_PATTERN] and the signed and unsigned patterns of the
    risk layer), [Decimal(text)] on the plain syntax those patterns accept,
    and [format(number, "f")], the text every layer calls canonical; and
    shows that the two conversions are inverse to each other. *)
From S2P Require Import Prelude PyDecimal.

(** ** Characters *)

Definition chr (n : N) : ascii := ascii_of_N n.
Definition ord (c : ascii) : N := N_of_ascii c.

Definition is_digit (c : ascii) : bool := ((48 <=? ord c) && (ord c <=? 57))%N.
Definition is_digit19 (c : ascii) : bool := ((49 <=? ord c) && (ord c <=? 57))%N.
Definition digit_val (c : ascii) : N := (ord c - 48)%N.
Definition digit_chr (n : N) : ascii := chr (48 + n)%N.
Definition dot : ascii := ".".
Definition minus_sign : ascii := "-".
Definition zero_chr : ascii := "0".

Abbreviation text := (list ascii).
Definition txt (s : string) : text := list_ascii_of_string s.
Definition str (l : text) : string := string_of_list_ascii l.

(** The text before and after the first point. *)
Fixpoint split_dot (l : text) : text * option text :=
  match l with
  | [] => ([], None)
  | c :: l' => if Ascii.eqb c dot then ([], Some l')
               else let (i, f) := split_dot l' in (c :: i, f)
  end.

(** ** The patterns *)

(** [0|[1-9][0-9]{0,39}] *)
Definition int_part_match (l : text) : bool :=
  match l with
  | [] => false
  | c :: l' => (Ascii.eqb c zero_chr && bool_decide (l' = []))
               || (is_digit19 c && forallb is_digit l' && (length l' <=? 39)%nat)
  end.

(** [(?:0|[1-9][0-9]{0,39})(?:\.[0-9]{1,40})?], full match. *)
Definition unsigned_text (l : text) : bool :=
  match split_dot l with
  | (i, None) => int_part_match i
  | (i, Some f) => int_part_match i && forallb is_digit f
                   && (1 <=? length f)%nat && (length f <=? 40)%nat
  end.

(** [-?(?:0|[1-9][0-9]{0,39})(?:\.[0-9]{1,40})?], full match. *)
Definition signed_text (l : text) : bool :=
  match l with
  | c :: l' => if Ascii.eqb c minus_sign then unsigned_text l' else unsigned_text l
  | [] => false
  end.

(** [DECIMAL_PATTERN.fullmatch(value) is not None] *)
Definition decimal_pattern (s : string) : bool := unsigned_text (txt s).
Definition signed_pattern (s : string) : bool := signed_text (txt s).

(** ** [Decimal(text)] *)

Definition digits_N (l : text) : N := fold_left (fun n c => 10 * n + digit_val c)%N l 0%N.

Definition dec_of_parts (neg : bool) (i f : text) : result dec :=
  if (forallb is_digit i && forallb is_digit f && (1 <=? length (i ++ f))%nat)
  then Ok (Dec neg (digits_N (i ++ f)) (- Z.of_nat (length f)))
  else Err ArithError.

Definition unsigned_dec (neg : bool) (l : text) : result dec :=
  match split_dot l with
  | (i, None) => dec_of_parts neg i []
  | (i, Some f) => dec_of_parts neg i f
  end.

Definition text_dec (l : text) : result dec :=
  match l with
  | c :: l' => if Ascii.eqb c minus_sign then unsigned_dec true l' else unsigned_dec false l
  | [] => Err ArithError
  end.

Definition Decimal (s : string) : result dec := text_dec (txt s).

(** ** [format(number, "f")] *)

Fixpoint digits_fuel (fuel : nat) (n : N) (acc : text) : text :=
  match fuel with
  | O => acc
  | S fuel =>
      let (q, r) := N.div_eucl n 10 in
      if (q =? 0)%N then digit_chr r :: acc else digits_fuel fuel q (digit_chr r :: acc)
  end.

Definition digits_of (n : N) : text := digits_fuel (N.to_nat (ndigits n)) n [].

Definition pad_zeros (k : nat) (l : text) : text := repeat zero_chr (k - length l) ++ l.

Definition format_text (d : dec) : text :=
  let ds := digits_of (dcoef d) in
  let body :=
    if 0 <=? dexp d then
      (if (dcoef d =? 0)%N then ds else ds ++ repeat zero_chr (Z.to_nat (dexp d)))
    else
      let k := Z.to_nat (- dexp d) in
      let full := pad_zeros (S k) ds in
      take (length full - k) full ++ dot :: drop (length full - k) full in
  if dneg d then minus_sign :: body else body.

Definition format_f (d : dec) : string := str (format_text d).

(** * Properties *)

Lemma is_digit_spec c : is_digit c = true <-> (48 <= ord c <= 57)%N.
Proof. unfold is_digit. rewrite andb_true_iff, !N.leb_le. done. Qed.

Lemma ord_chr n : (n < 256)%N -> ord (chr n) = n.
Proof. intros. by apply N_ascii_embedding. Qed.

Lemma digit_chr_digit n : (n < 10)%N -> is_digit (digit_chr n) = true.
Proof. intros. apply is_digit_spec. unfold digit_chr. rewrite ord_chr; lia. Qed.

Lemma digit_val_chr n : (n < 10)%N -> digit_val (digit_chr n) = n.
Proof. intros. unfold digit_val, digit_chr. rewrite ord_chr; lia. Qed.

Lemma digit_val_lt c : is_digit c = true -> (digit_val c < 10)%N.
Proof. rewrite is_digit_spec. unfold digit_val. lia. Qed.

Lemma digit_val_inj c c' :
  is_digit c = true -> is_digit c' = true -> digit_val c = digit_val c' -> c = c'.
Proof.
  rewrite !is_digit_spec. unfold digit_val. intros H H' E.
  rewrite <- (ascii_N_embedding c), <- (ascii_N_embedding c'). f_equal. unfold ord in *. lia.
Qed.

Lemma digit_not_dot c : is_digit c = true -> Ascii.eqb c dot = false.
Proof. intros H. destruct (Ascii.eqb_spec c dot) as [->|]; done. Qed.

Lemma digit_not_minus c : is_digit c = true -> Ascii.eqb c minus_sign = false.
Proof. intros H. destruct (Ascii.eqb_spec c minus_sign) as [->|]; done. Qed.

Lemma digits_N_from l n :
  fold_left (fun n c => 10 * n + digit_val c)%N l n = (n * 10 ^ N.of_nat (length l) + digits_N l)%N.
Proof.
  unfold digits_N. revert n. induction l as [|c l IH]; intros n; cbn [fold_left length].
  - change (10 ^ N.of_nat 0)%N with 1%N. lia.
  - rewrite IH, (IH (10 * 0 + digit_val c)%N).
    replace (N.of_nat (S (length l))) with (1 + N.of_nat (length l))%N by lia.
    rewrite N.pow_add_r. lia.
Qed.

Lemma digits_N_app l m :
  digits_N (l ++ m) = (digits_N l * 10 ^ N.of_nat (length m) + digits_N m)%N.
Proof. unfold digits_N at 1. rewrite fold_left_app. apply digits_N_from. Qed.

Lemma digits_N_cons c l :
  digits_N (c :: l) = (digit_val c * 10 ^ N.of_nat (length l) + digits_N l)%N.
Proof. apply (digits_N_app [c] l). Qed.

Lemma digits_N_lt l : forallb is_digit l = true -> (digits_N l < 10 ^ N.of_nat (length l))%N.
Proof.
  induction l as [|c l IH]; [intros _; vm_compute; done|].
  simpl forallb. rewrite andb_true_iff. intros [Hc Hl]. specialize (IH Hl).
  rewrite digits_N_cons. apply digit_val_lt in Hc. cbn [length].
  replace (N.of_nat (S (length l))) with (1 + N.of_nat (length l))%N by lia.
  rewrite N.pow_add_r. change (10 ^ 1)%N with 10%N. nia.
Qed.

(** Digit strings of one length are ordered as their numbers. *)
Lemma digits_N_inj l m :
  length l = length m -> forallb is_digit l = true -> forallb is_digit m = true ->
  digits_N l = digits_N m -> l = m.
Proof.
  revert m. induction l as [|c l IH]; intros [|c' m]; try done.
  intros [= Hlen]. simpl forallb. rewrite !andb_true_iff. intros [Hc Hl] [Hc' Hm].
  rewrite !digits_N_cons, Hlen. intros E.
  pose proof (digits_N_lt l Hl) as B1. pose proof (digits_N_lt m Hm) as B2. rewrite Hlen in B1.
  assert (digit_val c = digit_val c') as Ec by nia.
  rewrite (digit_val_inj c c' Hc Hc' Ec). f_equal. apply IH; try done.
  rewrite Ec in E. lia.
Qed.

Lemma ndigits_unique n k : (10 ^ k <= n < 10 ^ (k + 1))%N -> ndigits n = (k + 1)%N.
Proof.
  intros [H1 H2].
  assert (n <> 0)%N as Hn by (pose proof (N.pow_nonzero 10 k); lia).
  apply N.le_antisymm.
  - apply ndigits_le; [lia|done].
  - apply N.nlt_ge. intros Hlt. pose proof (ndigits_pos n).
    assert (n < 10 ^ k)%N; [|lia]. apply ndigits_le; lia.
Qed.

Lemma digits_fuel_spec fuel n acc :
  (n < 10 ^ N.of_nat fuel)%N -> (1 <= fuel)%nat ->
  exists ds, digits_fuel fuel n acc = ds ++ acc /\ forallb is_digit ds = true
    /\ digits_N ds = n /\ N.of_nat (length ds) = ndigits n.
Proof.
  revert n acc. induction fuel as [|fuel IH]; intros n acc Hn Hf; [lia|]. simpl.
  pose proof (N.div_mod n 10 ltac:(lia)) as Hdm. pose proof (N.mod_lt n 10 ltac:(lia)) as Hm.
  unfold N.div, N.modulo in Hdm, Hm. destruct (N.div_eucl n 10) as [q r]. simpl in Hdm, Hm.
  destruct (N.eqb_spec q 0) as [->|Hq].
  - exists [digit_chr r]. split; [done|]. split; [simpl; by rewrite digit_chr_digit|].
    unfold digits_N; simpl. rewrite digit_val_chr by done. split; [lia|].
    symmetry. destruct (N.eq_dec r 0%N) as [->|Hr]; [by rewrite Hdm|].
    apply (ndigits_unique n 0). simpl. change (10 ^ 0)%N with 1%N. lia.
  - assert (fuel <> 0)%nat as Hf0.
    { intros ->. change (10 ^ N.of_nat 1)%N with 10%N in Hn. lia. }
    destruct (IH q (digit_chr r :: acc)) as (ds & E & Hd & Hv & Hl); [|lia|].
    { replace (N.of_nat (S fuel)) with (1 + N.of_nat fuel)%N in Hn by lia.
      rewrite N.pow_add_r in Hn. change (10 ^ 1)%N with 10%N in Hn. lia. }
    exists (ds ++ [digit_chr r]). split; [by rewrite E, <- app_assoc|].
    split; [rewrite forallb_app, Hd; simpl; by rewrite digit_chr_digit|].
    split.
    + rewrite digits_N_app, Hv. unfold digits_N; cbn [fold_left length].
      change (10 ^ N.of_nat 1)%N with 10%N. rewrite digit_val_chr by done. lia.
    + rewrite length_app. simpl length. replace (N.of_nat (length ds + 1)) with (ndigits q + 1)%N by lia.
      symmetry. apply ndigits_unique. pose proof (ndigits_spec q Hq) as [H1 H2].
      pose proof (ndigits_pos q).
      replace (ndigits q) with ((ndigits q - 1) + 1)%N at 1 by lia.
      rewrite !N.pow_add_r. change (10 ^ 1)%N with 10%N. lia.
Qed.

Lemma digits_of_spec n :
  forallb is_digit (digits_of n) = true /\ digits_N (digits_of n) = n
  /\ N.of_nat (length (digits_of n)) = ndigits n.
Proof.
  unfold digits_of. pose proof (ndigits_pos n).
  destruct (digits_fuel_spec (N.to_nat (ndigits n)) n []) as (ds & E & H1 & H2 & H3).
  - rewrite N2Nat.id. by apply ndigits_le.
  - lia.
  - rewrite E, app_nil_r. done.
Qed.

Lemma digits_N_zeros k l : digits_N (repeat zero_chr k ++ l) = digits_N l.
Proof.
  rewrite digits_N_app. enough (digits_N (repeat zero_chr k) = 0%N) as -> by lia.
  induction k as [|k IH]; [done|]. cbn [repeat]. rewrite digits_N_cons, IH. change (digit_val zero_chr) with 0%N. lia.
Qed.

Lemma zeros_digits k : forallb is_digit (repeat zero_chr k) = true.
Proof. by induction k. Qed.

Lemma pad_zeros_spec k n :
  forallb is_digit (pad_zeros k (digits_of n)) = true
  /\ digits_N (pad_zeros k (digits_of n)) = n
  /\ length (pad_zeros k (digits_of n)) = Nat.max k (N.to_nat (ndigits n)).
Proof.
  pose proof (digits_of_spec n) as (H1 & H2 & H3). unfold pad_zeros.
  rewrite forallb_app, zeros_digits, H1, digits_N_zeros, length_app, repeat_length. split; [done|].
  split; [done|lia].
Qed.

(** Padded to its own length, a digit string is recovered from its number. *)
Lemma pad_zeros_inverse l :
  forallb is_digit l = true -> (1 <= length l)%nat ->
  pad_zeros (length l) (digits_of (digits_N l)) = l.
Proof.
  intros Hl H1. pose proof (pad_zeros_spec (length l) (digits_N l)) as (P1 & P2 & P3).
  apply digits_N_inj; [|done|done|by rewrite P2].
  rewrite P3. apply Nat.max_l.
  assert (ndigits (digits_N l) <= N.of_nat (length l))%N; [|lia].
  apply ndigits_le; [lia|]. by apply digits_N_lt.
Qed.

Lemma digits_of_inverse c l :
  is_digit c = true -> forallb is_digit l = true -> ord c <> 48%N ->
  digits_of (digits_N (c :: l)) = c :: l.
Proof.
  intros Hc Hl Hnz.
  pose proof (digits_of_spec (digits_N (c :: l))) as (H1 & H2 & H3).
  apply digits_N_inj; [|done|simpl; by rewrite Hc, Hl|done].
  apply Nat2N.inj. rewrite H3. cbn [length].
  replace (N.of_nat (S (length l))) with (N.of_nat (length l) + 1)%N by lia.
  apply ndigits_unique. split.
  - rewrite digits_N_cons. apply is_digit_spec in Hc. unfold digit_val. nia.
  - replace (N.of_nat (length l) + 1)%N with (N.of_nat (length (c :: l))) by (simpl; lia).
    apply digits_N_lt. simpl. by rewrite Hc, Hl.
Qed.

Lemma split_dot_digits l : forallb is_digit l = true -> split_dot l = (l, None).
Proof.
  induction l as [|c l IH]; [done|]. simpl. rewrite andb_true_iff. intros [Hc Hl].
  by rewrite digit_not_dot, IH.
Qed.

Lemma split_dot_point i f : forallb is_digit i = true -> split_dot (i ++ dot :: f) = (i, Some f).
Proof.
  induction i as [|c i IH]; [done|]. simpl. rewrite andb_true_iff. intros [Hc Hi].
  by rewrite digit_not_dot, IH.
Qed.

Lemma split_dot_some l i f : split_dot l = (i, Some f) -> l = i ++ dot :: f.
Proof.
  revert i. induction l as [|c l IH]; intros i; simpl; [done|].
  destruct (Ascii.eqb_spec c dot) as [->|].
  - intros [= <- <-]. done.
  - destruct (split_dot l) as [i' o]. intros [= <- ->]. by rewrite (IH i').
Qed.

Lemma split_dot_none l i : split_dot l = (i, None) -> l = i.
Proof.
  revert i. induction l as [|c l IH]; intros i; simpl; [congruence|].
  destruct (Ascii.eqb c dot); [done|]. destruct (split_dot l) as [i' o] eqn:E.
  intros [= <- ->]. by rewrite (IH i').
Qed.

Lemma txt_str l : txt (str l) = l.
Proof. apply list_ascii_of_string_of_list_ascii. Qed.
Lemma str_txt s : str (txt s) = s.
Proof. apply string_of_list_ascii_of_string. Qed.

(** ** Text of a number, number of a text *)

Definition unsigned_body (c : N) (e : Z) : text := format_text (Dec false c e).

Lemma format_text_sign d :
  format_text d = (if dneg d then [minus_sign] else []) ++ unsigned_body (dcoef d) (dexp d).
Proof. unfold unsigned_body, format_text; simpl. by destruct (dneg d). Qed.

(** The parts of the printed text of a number with exponent [- k]. *)
Lemma unsigned_body_parts c k :
  exists i f, length f = k /\ (1 <= length i)%nat
    /\ forallb is_digit i = true /\ forallb is_digit f = true
    /\ i ++ f = pad_zeros (S k) (digits_of c)
    /\ unsigned_body c (- Z.of_nat k) = match k with O => i | _ => i ++ dot :: f end.
Proof.
  pose proof (pad_zeros_spec (S k) c) as (P1 & P2 & P3).
  set (full := pad_zeros (S k) (digits_of c)) in *.
  rewrite <- (take_drop (length full - k) full) in P1.
  rewrite forallb_app, andb_true_iff in P1. destruct P1 as [Pi Pf].
  exists (take (length full - k) full), (drop (length full - k) full).
  rewrite length_drop, length_take. split; [lia|]. split; [lia|]. split; [done|]. split; [done|].
  split; [by rewrite take_drop|].
  unfold unsigned_body, format_text; cbn [dneg dcoef dexp].
  destruct k as [|k].
  - change (0 <=? - Z.of_nat 0) with true. cbn match.
    change (Z.to_nat (- Z.of_nat 0)) with O. simpl repeat. rewrite app_nil_r, Nat.sub_0_r, firstn_all.
    pose proof (ndigits_pos c). pose proof (digits_of_spec c) as (_ & _ & Hl).
    assert (full = digits_of c) as -> by (subst full; unfold pad_zeros;
      replace (1 - length (digits_of c))%nat with O by lia; done).
    by destruct (c =? 0)%N.
  - rewrite (proj2 (Z.leb_gt 0 (- Z.of_nat (S k)))) by lia.
    replace (Z.to_nat (- - Z.of_nat (S k))) with (S k) by lia. done.
Qed.

Lemma unsigned_dec_body neg c k : unsigned_dec neg (unsigned_body c (- Z.of_nat k)) = Ok (Dec neg c (- Z.of_nat k)).
Proof.
  destruct (unsigned_body_parts c k) as (i & f & Hf & Hi & Di & Df & Eif & E).
  pose proof (pad_zeros_spec (S k) c) as (_ & P2 & _). rewrite <- Eif in P2.
  assert (dec_of_parts neg i f = Ok (Dec neg c (- Z.of_nat k))) as Hp.
  { unfold dec_of_parts. rewrite Di, Df, length_app, P2, Hf.
    by rewrite (proj2 (Nat.leb_le 1 _)) by lia. }
  unfold unsigned_dec. rewrite E. destruct k as [|k].
  - destruct f; [|done]. by rewrite split_dot_digits.
  - by rewrite split_dot_point.
Qed.

Lemma unsigned_body_head c k : exists a l, unsigned_body c (- Z.of_nat k) = a :: l /\ is_digit a = true.
Proof.
  destruct (unsigned_body_parts c k) as (i & f & Hf & Hi & Di & _ & _ & E).
  destruct i as [|a i]; [simpl in Hi; lia|]. simpl in Di. apply andb_true_iff in Di as [Da _].
  exists a. rewrite E. destruct k; simpl; eauto.
Qed.

Lemma text_dec_format d : dexp d <= 0 -> text_dec (format_text d) = Ok d.
Proof.
  destruct d as [s c e]; simpl. intros He.
  replace e with (- Z.of_nat (Z.to_nat (- e))) by lia. set (k := Z.to_nat (- e)).
  rewrite format_text_sign. cbn [dneg dcoef dexp].
  destruct (unsigned_body_head c k) as (a & l & E & Ha).
  destruct s; simpl.
  - apply unsigned_dec_body.
  - rewrite <- (unsigned_dec_body false c k), E. simpl. by rewrite digit_not_minus.
Qed.

(** [Decimal(format(d, "f")) = d]. *)
Lemma Decimal_format d : dexp d <= 0 -> Decimal (format_f d) = Ok d.
Proof. intros. unfold Decimal, format_f. rewrite txt_str. by apply text_dec_format. Qed.

(** What a text that passes the pattern denotes. *)
Definition plain_range (neg : bool) (d : dec) : Prop :=
  dneg d = neg /\ -40 <= dexp d <= 0 /\ fits 40 40 d.

Lemma int_part_digits i : int_part_match i = true ->
  forallb is_digit i = true /\ (1 <= length i <= 40)%nat
  /\ (i = [zero_chr] \/ exists c l, i = c :: l /\ ord c <> 48%N).
Proof.
  destruct i as [|c l]; [done|]. simpl. rewrite orb_true_iff, !andb_true_iff.
  intros [[Hc Hl]|[[Hc Hl] Hn]].
  - apply Ascii.eqb_eq in Hc as ->. apply bool_decide_eq_true in Hl as ->. simpl. split; [done|]. split; [lia|by left].
  - apply Nat.leb_le in Hn.
    unfold is_digit19 in Hc. rewrite andb_true_iff, !N.leb_le in Hc.
    assert (is_digit c = true) as -> by (apply is_digit_spec; lia).
    split; [done|]. split; [lia|]. right. exists c, l. split; [done|lia].
Qed.

Lemma unsigned_dec_parts neg i f :
  int_part_match i = true -> forallb is_digit f = true -> (length f <= 40)%nat ->
  exists d, dec_of_parts neg i f = Ok d /\ plain_range neg d
    /\ unsigned_body (dcoef d) (dexp d) = match f with [] => i | _ => i ++ dot :: f end.
Proof.
  intros Hi Df Lf. apply int_part_digits in Hi as (Di & Li & Hz).
  assert (forallb is_digit (i ++ f) = true) as Dif by (by rewrite forallb_app, Di, Df).
  exists (Dec neg (digits_N (i ++ f)) (- Z.of_nat (length f))).
  split; [|split].
  - unfold dec_of_parts. rewrite Di, Df, length_app. by rewrite (proj2 (Nat.leb_le 1 _)) by lia.
  - split; [done|]. split; [simpl; lia|]. split; simpl; [lia|].
    pose proof (digits_N_lt (i ++ f) Dif) as B. rewrite length_app in B.
    apply Z.lt_le_trans with (10 ^ Z.of_nat (length i + length f) * 10 ^ (- Z.of_nat (length f) + 40)).
    + apply Z.mul_lt_mono_pos_r; [apply pow10_pos; lia|].
      apply N2Z.inj_lt in B. rewrite N2Z.inj_pow, nat_N_Z in B. exact B.
    + rewrite <- pow10_add by lia. apply pow10_le. lia.
  - cbn [dcoef dexp].
    destruct (unsigned_body_parts (digits_N (i ++ f)) (length f)) as (i' & f' & Hf' & Hi' & _ & _ & E' & ->).
    assert (pad_zeros (S (length f)) (digits_of (digits_N (i ++ f))) = i ++ f) as Hpad.
    { destruct Hz as [->|(c & l & -> & Hc)].
      - change (S (length f)) with (length ([zero_chr] ++ f)). apply pad_zeros_inverse; [done|simpl; lia].
      - simpl in Dif |- *. apply andb_true_iff in Dif as [Dc Dl].
        rewrite digits_of_inverse by done. unfold pad_zeros. simpl. rewrite length_app.
        by replace (length f - (length l + length f))%nat with O by lia. }
    rewrite Hpad in E'. apply app_inj_2 in E' as [-> ->]; [|done].
    by destruct f.
Qed.

Lemma unsigned_text_dec neg l : unsigned_text l = true ->
  exists d, unsigned_dec neg l = Ok d /\ plain_range neg d /\ unsigned_body (dcoef d) (dexp d) = l.
Proof.
  unfold unsigned_text, unsigned_dec. destruct (split_dot l) as [i [f|]] eqn:E.
  - rewrite !andb_true_iff, !Nat.leb_le. intros (((Hi & Hf) & H1) & H2).
    destruct (unsigned_dec_parts neg i f Hi Hf H2) as (d & Ed & Hr & Hb).
    exists d. split; [done|]. split; [done|]. rewrite Hb. apply split_dot_some in E as ->.
    by destruct f; [simpl in H1; lia|].
  - intros Hi. destruct (unsigned_dec_parts neg i [] Hi eq_refl ltac:(simpl; lia)) as (d & Ed & Hr & Hb).
    exists d. split; [done|]. split; [done|]. rewrite Hb. by apply split_dot_none in E.
Qed.

Lemma unsigned_text_head l : unsigned_text l = true -> exists a l', l = a :: l' /\ is_digit a = true.
Proof.
  intros H. destruct (unsigned_text_dec false l H) as (d & Ed & (_ & He & _) & Hb).
  rewrite <- Hb. replace (dexp d) with (- Z.of_nat (Z.to_nat (- dexp d))) by lia. apply unsigned_body_head.
Qed.

(** A string that passes [DECIMAL_PATTERN] is the canonical text of the
    non-negative number it denotes, which has at most 40 digits on each side. *)
Lemma decimal_pattern_spec s : decimal_pattern s = true ->
  exists d, Decimal s = Ok d /\ plain_range false d /\ format_f d = s.
Proof.
  unfold decimal_pattern, Decimal, format_f. intros H.
  destruct (unsigned_text_dec false _ H) as (d & Ed & Hr & Hb).
  destruct (unsigned_text_head _ H) as (a & l' & E & Ha).
  exists d. split; [|split; [done|]].
  - rewrite E. simpl. rewrite digit_not_minus by done. by rewrite <- E.
  - rewrite format_text_sign. destruct Hr as (-> & _). simpl. by rewrite Hb, str_txt.
Qed.

Lemma signed_pattern_spec s : signed_pattern s = true ->
  exists d, Decimal s = Ok d /\ plain_range (dneg d) d /\ format_f d = s.
Proof.
  unfold signed_pattern, Decimal, format_f. destruct (txt s) as [|c l] eqn:E; [done|].
  simpl. destruct (Ascii.eqb_spec c minus_sign) as [->|Hc]; intros H.
  - destruct (unsigned_text_dec true _ H) as (d & Ed & Hr & Hb). exists d.
    pose proof Hr as (Hn & _). rewrite Hn.
    split; [done|]. split; [done|]. rewrite format_text_sign, Hn, Hb. simpl.
    by rewrite <- (str_txt s), E.
  - destruct (unsigned_text_dec false _ H) as (d & Ed & Hr & Hb). exists d.
    pose proof Hr as (Hn & _). rewrite Hn.
    split; [done|]. split; [done|]. rewrite format_text_sign, Hn, Hb. simpl.
    by rewrite <- (str_txt s), E.
Qed.

(** The converse: which numbers print to a text that passes the pattern. *)
Lemma unsigned_body_match c k :
  (k <= 40)%nat -> (c < 10 ^ (40 + N.of_nat k))%N -> unsigned_text (unsigned_body c (- Z.of_nat k)) = true.
Proof.
  intros Hk Hc. destruct (unsigned_body_parts c k) as (i & f & Hf & Hi & Di & Df & E & ->).
  assert (int_part_match i = true) as Him.
  { pose proof (ndigits_pos c). pose proof (digits_of_spec c) as (Ddc & Vdc & Ldc).
    assert (ndigits c <= 40 + N.of_nat k)%N as Hnd by (apply ndigits_le; [lia|done]).
    unfold pad_zeros in E. destruct (Nat.le_gt_cases (length (digits_of c)) k) as [Hle|Hgt].
    - replace (S k - length (digits_of c))%nat with (S (k - length (digits_of c))) in E by lia.
      destruct i as [|a i]; [simpl in Hi; lia|]. simpl in E. injection E as -> E.
      assert (i = []) as ->; [|done].
      apply (f_equal length) in E. rewrite !length_app, repeat_length in E.
      destruct i; [done|]. simpl in E. lia.
    - replace (S k - length (digits_of c))%nat with O in E by lia. simpl in E.
      assert (length i = (length (digits_of c) - k)%nat) as Hli.
      { apply (f_equal length) in E. rewrite length_app in E. lia. }
      destruct i as [|a i]; [simpl in Hi; lia|]. simpl in Di. apply andb_true_iff in Di as [Da Di].
      simpl. rewrite Di. simpl in Hli.
      destruct (Ascii.eqb_spec a zero_chr) as [->|Ha]; simpl.
      + destruct (decide (c = 0%N)) as [->|Hnz].
        * change (digits_of 0) with [zero_chr] in E. injection E as E. destruct i; [done|discriminate].
        * exfalso. assert (digits_N (zero_chr :: i ++ f) = c) as V by (change (zero_chr :: i ++ f) with ((zero_chr :: i) ++ f); by rewrite E).
          rewrite digits_N_cons in V. change (digit_val zero_chr) with 0%N in V.
          pose proof (digits_N_lt (i ++ f) ltac:(by rewrite forallb_app, Di, Df)) as B.
          pose proof (ndigits_spec c Hnz) as [B' _].
          assert (N.of_nat (length (i ++ f)) = ndigits c - 1)%N as El.
          { apply (f_equal length) in E. simpl in E. lia. }
          rewrite El in B. lia.
      + assert (is_digit19 a = true) as ->.
        { unfold is_digit19. apply is_digit_spec in Da. rewrite andb_true_iff, !N.leb_le.
          split; [|lia]. assert (ord a <> 48%N); [|lia]. intros Ho. apply Ha.
          rewrite <- (ascii_N_embedding a). unfold ord in Ho. by rewrite Ho. }
        simpl. apply Nat.leb_le. lia. }
  unfold unsigned_text. destruct k as [|k].
  - rewrite split_dot_digits by done. done.
  - rewrite split_dot_point by done.
    rewrite Him, Df, Hf.
    by rewrite (proj2 (Nat.leb_le 1 (S k))), (proj2 (Nat.leb_le (S k) 40)) by lia.
Qed.

Lemma format_pattern d : dneg d = false -> -40 <= dexp d <= 0 -> fits 40 40 d -> decimal_pattern (format_f d) = true.
Proof.
  destruct d as [s c e]; simpl. intros -> He Hf. unfold decimal_pattern, format_f. rewrite txt_str, format_text_sign.
  cbn [dneg dcoef dexp app]. replace e with (- Z.of_nat (Z.to_nat (- e))) by lia.
  apply unsigned_body_match; [lia|]. destruct Hf as [_ Hf]. simpl in Hf.
  apply N2Z.inj_lt. rewrite N2Z.inj_pow, N2Z.inj_add, nat_N_Z, Z2Nat.id by lia.
  change (Z.of_N 10) with 10. change (Z.of_N 40) with 40.
  apply (Z.mul_lt_mono_pos_r (10 ^ (e + 40))); [apply pow10_pos; lia|].
  eapply Z.lt_le_trans; [exact Hf|]. rewrite <- pow10_add by lia. apply pow10_le. lia.
Qed.

(** ** [text.rstrip("0").rstrip(".") if "." in text else text] *)

(** [s.rstrip(c)] for one character. *)
Fixpoint rstrip (x : ascii) (l : text) : text :=
  match l with
  | [] => []
  | c :: l' => match rstrip x l' with [] => if Ascii.eqb c x then [] else [c] | r => c :: r end
  end.

Definition strip_plain (l : text) : text :=
  if existsb (Ascii.eqb dot) l then rstrip dot (rstrip zero_chr l) else l.
Definition plain_text (d : dec) : string := str (strip_plain (format_text d)).

Lemma rstrip_spec x l : exists m, l = rstrip x l ++ repeat x m /\ (rstrip x l = [] \/ last (rstrip x l) <> Some x).
Proof.
  induction l as [|c l (m & E & H)]; [by exists O; split; [|left]|]. simpl.
  destruct (rstrip x l) as [|y r] eqn:Er.
  - destruct (Ascii.eqb_spec c x) as [->|Hc].
    + exists (S m). simpl. split; [by rewrite E|by left].
    + exists m. simpl. split; [by rewrite E|right; congruence].
  - exists m. split; [by rewrite E at 1|]. right. destruct H as [|H]; [done|]. exact H.
Qed.

Lemma rstrip_app x y l f : x <> y -> rstrip x (l ++ y :: f) = l ++ y :: rstrip x f.
Proof.
  intros Hxy. induction l as [|c l IH]; simpl.
  - destruct (rstrip x f); [|done]. destruct (Ascii.eqb_spec y x); [congruence|done].
  - rewrite IH. by destruct l.
Qed.

Lemma rstrip_none x l c : c <> x -> rstrip x (l ++ [c]) = l ++ [c].
Proof. intros H. rewrite (rstrip_app x c l []) by congruence. done. Qed.

Lemma digits_last_not x l : is_digit x = false -> forallb is_digit l = true -> rstrip x l = l.
Proof.
  intros Hx. induction l as [|c l IH]; [done|]. simpl. rewrite andb_true_iff. intros [Hc Hl]. rewrite IH by done.
  destruct l; [|done]. destruct (Ascii.eqb_spec c x); [congruence|done].
Qed.

Lemma existsb_dot_digits l : forallb is_digit l = true -> existsb (Ascii.eqb dot) l = false.
Proof.
  induction l as [|c l IH]; [done|]. cbn [forallb existsb]. rewrite andb_true_iff. intros [Hc Hl].
  rewrite IH, orb_false_r by done. destruct (Ascii.eqb_spec dot c) as [<-|]; done.
Qed.

Lemma rstrip_snoc x l : rstrip x (l ++ [x]) = rstrip x l.
Proof. induction l as [|c l IH]; simpl; [by rewrite (proj2 (Ascii.eqb_eq x x))|by rewrite IH]. Qed.

Lemma ndigits_shift c m : (c <> 0)%N -> ndigits (c * 10 ^ m) = (ndigits c + m)%N.
Proof.
  intros Hc. pose proof (ndigits_spec c Hc) as [H1 H2]. pose proof (ndigits_pos c).
  replace (ndigits c + m)%N with ((ndigits c + m - 1) + 1)%N by lia. apply ndigits_unique.
  replace (ndigits c + m - 1)%N with (ndigits c - 1 + m)%N by lia.
  replace (ndigits c - 1 + m + 1)%N with (ndigits c + m)%N by lia. rewrite !N.pow_add_r.
  assert (10 ^ m <> 0)%N by by apply N.pow_nonzero. nia.
Qed.

(** The fractional part without its trailing zeros prints a shorter number. *)
Lemma body_without_zeros c k i f m : i ++ f ++ repeat zero_chr m = pad_zeros (S (k + m)) (digits_of c) ->
  length f = k -> forallb is_digit (i ++ f) = true ->
  c = (digits_N (i ++ f) * 10 ^ N.of_nat m)%N
  /\ unsigned_body (digits_N (i ++ f)) (- Z.of_nat k) = match k with O => i | _ => i ++ dot :: f end.
Proof.
  intros E Hf Hd. pose proof (pad_zeros_spec (S (k + m)) c) as (_ & V & L). rewrite <- E, app_assoc in V, L.
  rewrite digits_N_app, repeat_length in V. assert (digits_N (repeat zero_chr m) = 0%N) as Z0.
  { rewrite <- (app_nil_r (repeat _ _)), digits_N_zeros. done. }
  rewrite Z0, N.add_0_r in V. split; [done|]. rewrite length_app, repeat_length in L.
  assert (i ++ f = pad_zeros (S k) (digits_of (digits_N (i ++ f)))) as Ep.
  { pose proof (pad_zeros_spec (S k) (digits_N (i ++ f))) as (D' & V' & L'). apply digits_N_inj; [|done|done|done].
    rewrite L'. destruct (N.eq_dec (digits_N (i ++ f)) 0%N) as [E0|Hnz].
    - rewrite E0 in V |- *. rewrite N.mul_0_l in V. subst c. change (N.to_nat (ndigits 0)) with 1%nat in *. lia.
    - rewrite <- V, ndigits_shift in L by done. lia. }
  destruct (unsigned_body_parts (digits_N (i ++ f)) k) as (i' & f' & Hf' & _ & _ & _ & E' & ->).
  rewrite <- Ep in E'. apply app_inj_2 in E' as [-> ->]; [done|congruence].
Qed.

(** A number written without trailing zeros after its point. *)
Definition reduced (d : dec) : Prop := dexp d = 0 \/ (dcoef d mod 10 <> 0)%N.

Lemma digits_reduced s i f : forallb is_digit f = true -> f = [] \/ last f <> Some zero_chr ->
  reduced (Dec s (digits_N (i ++ f)) (- Z.of_nat (length f))).
Proof.
  intros Hd [->|Hl]; [by left|]. destruct f as [|a f _] using rev_ind; [by left|]. right. cbn [dcoef].
  rewrite last_snoc in Hl. rewrite forallb_app in Hd. apply andb_true_iff in Hd as [_ Ha]. simpl in Ha. rewrite andb_true_r in Ha.
  rewrite app_assoc, digits_N_app. cbn [length]. change (10 ^ N.of_nat 1)%N with 10%N. unfold digits_N at 2. cbn [fold_left].
  rewrite N.mul_0_r, N.add_0_l, N.add_comm, N.Div0.mod_add, N.mod_small by by apply digit_val_lt.
  intros E. apply Hl. f_equal. apply digit_val_inj; [done|done|by rewrite E].
Qed.

Lemma plain_body c k : exists c' k' m, k = (k' + m)%nat /\ c = (c' * 10 ^ N.of_nat m)%N
  /\ strip_plain (unsigned_body c (- Z.of_nat k)) = unsigned_body c' (- Z.of_nat k')
  /\ forall s, reduced (Dec s c' (- Z.of_nat k')).
Proof.
  destruct (unsigned_body_parts c k) as (i & f & Hf & Hi & Di & Df & Eif & E). destruct k as [|k].
  { exists c, O, O. split; [done|]. split; [simpl; lia|]. split; [|by left]. rewrite E. unfold strip_plain.
    by rewrite existsb_dot_digits. }
  destruct (rstrip_spec zero_chr f) as (m & Em & Hlast). set (f' := rstrip zero_chr f) in *.
  assert (forallb is_digit f' = true) as Df' by (rewrite Em, forallb_app in Df; by apply andb_true_iff in Df as [? _]).
  assert (S k = length f' + m)%nat as Hk by (rewrite <- Hf, Em at 1; by rewrite length_app, repeat_length).
  rewrite Hk, Em in Eif. destruct (body_without_zeros c (length f') i f' m Eif eq_refl) as [Ec Eb];
    [by rewrite forallb_app, Di|].
  exists (digits_N (i ++ f')), (length f'), m. split; [done|]. split; [done|].
  split; [|by intros s; apply digits_reduced]. rewrite E, Eb. unfold strip_plain.
  rewrite existsb_app. simpl. rewrite orb_true_r, rstrip_app by done. fold f'.
  destruct f' as [|a g _] using rev_ind.
  - rewrite rstrip_snoc. by apply digits_last_not.
  - rewrite forallb_app in Df'. simpl in Df'. apply andb_true_iff in Df' as [_ Da]. rewrite andb_true_r in Da.
    rewrite app_comm_cons, app_assoc, rstrip_none by (intros ->; done). rewrite <- app_assoc, length_app, Nat.add_comm. done.
Qed.

(** A number with a positive exponent prints like the integer it is. *)
Lemma body_positive c e : 0 <= e -> unsigned_body c e = unsigned_body (c * 10 ^ Z.to_N e) (- Z.of_nat 0).
Proof.
  intros He. unfold unsigned_body, format_text. cbn [dneg dcoef dexp]. rewrite (proj2 (Z.leb_le 0 e)) by done.
  change (0 <=? - Z.of_nat 0) with true. cbn match. change (Z.to_nat (- Z.of_nat 0)) with O.
  destruct (N.eqb_spec c 0) as [->|Hc]; [done|].
  assert (c * 10 ^ Z.to_N e <> 0)%N as Hm by (apply N.neq_mul_0; split; [done|by apply N.pow_nonzero]).
  rewrite (proj2 (N.eqb_neq _ _)) by done. simpl repeat. rewrite app_nil_r.
  pose proof (digits_of_spec c) as (D1 & V1 & L1). pose proof (digits_of_spec (c * 10 ^ Z.to_N e)) as (D2 & V2 & L2).
  apply digits_N_inj; [|by rewrite forallb_app, D1, zeros_digits|done|].
  - rewrite length_app, repeat_length. rewrite ndigits_shift in L2 by done. lia.
  - rewrite digits_N_app, repeat_length, V1, V2.
    assert (digits_N (repeat zero_chr (Z.to_nat e)) = 0%N) as -> by (rewrite <- (app_nil_r (repeat _ _)), digits_N_zeros; done).
    rewrite N.add_0_r. f_equal. f_equal. lia.
Qed.

Lemma rstrip_minus x l : x <> minus_sign -> rstrip x (minus_sign :: l) = minus_sign :: rstrip x l.
Proof. intros Hx. cbn [rstrip]. destruct (rstrip x l); [|done]. destruct (Ascii.eqb_spec minus_sign x); [congruence|done]. Qed.

Lemma strip_plain_minus l : strip_plain (minus_sign :: l) = minus_sign :: strip_plain l.
Proof.
  unfold strip_plain. cbn [existsb]. change (Ascii.eqb dot minus_sign) with false. cbn [orb].
  destruct (existsb _ l); [|done]. by rewrite !rstrip_minus by done.
Qed.

(** Any number read back from its text has the same value, and the same text. *)
Lemma format_f_reads d : exists d', Decimal (format_f d) = Ok d' /\ (dval d' == dval d)%Q /\ format_f d' = format_f d.
Proof.
  destruct (Z.leb_spec (dexp d) 0) as [He|He]; [exists d; split; [by apply Decimal_format|done]|].
  destruct d as [s c e]. cbn [dexp] in He. exists (Dec s (c * 10 ^ Z.to_N e)%N 0).
  assert (format_f (Dec s (c * 10 ^ Z.to_N e)%N 0) = format_f (Dec s c e)) as Ef.
  { unfold format_f. f_equal. rewrite !format_text_sign. cbn [dneg dcoef dexp]. rewrite (body_positive c e) by lia. done. }
  split; [rewrite <- Ef; by apply Decimal_format|]. split; [|done].
  rewrite !dval_sign, inject_N_mul_pow, Z2N.id by lia. change (q10 0) with 1%Q. ring.
Qed.

(** The plain text denotes the same number, with no more decimals, none of
    them a trailing zero. *)
Lemma plain_text_reduced d : exists d', plain_text d = format_f d' /\ dneg d' = dneg d /\ (dval d' == dval d)%Q
  /\ Z.min 0 (dexp d) <= dexp d' <= 0 /\ reduced d'.
Proof.
  destruct d as [s c e]. set (c1 := if 0 <=? e then (c * 10 ^ Z.to_N e)%N else c). set (k := Z.to_nat (- e)).
  assert (unsigned_body c e = unsigned_body c1 (- Z.of_nat k)) as E1.
  { subst c1 k. destruct (Z.leb_spec 0 e) as [He|He]; [|f_equal; lia].
    replace (Z.to_nat (- e)) with O by lia. by apply body_positive. }
  assert (dval (Dec s c1 (- Z.of_nat k)) == dval (Dec s c e))%Q as V1.
  { subst c1 k. destruct (Z.leb_spec 0 e) as [He|He]; [|replace (- Z.of_nat (Z.to_nat (- e))) with e by lia; reflexivity].
    replace (Z.to_nat (- e)) with O by lia. rewrite !dval_sign. change (q10 (- Z.of_nat 0)) with 1%Q.
    rewrite inject_N_mul_pow, Z2N.id by done. ring. }
  destruct (plain_body c1 k) as (c' & k' & m & Hk & Hc & E & Hr). exists (Dec s c' (- Z.of_nat k')). split.
  - unfold plain_text, format_f. f_equal. rewrite !format_text_sign. cbn [dneg dcoef dexp]. rewrite E1, <- E.
    destruct s; [apply strip_plain_minus|done].
  - split; [done|]. split; [|split; [simpl; lia|apply Hr]]. rewrite <- V1, Hc, !dval_sign, inject_N_mul_pow, Hk, Nat2Z.inj_add.
    replace (- Z.of_nat k') with (Z.of_nat m + - (Z.of_nat k' + Z.of_nat m)) by lia. rewrite q10_plus.
    rewrite nat_N_Z. ring.
Qed.

Lemma plain_text_spec d : exists d', plain_text d = format_f d' /\ dneg d' = dneg d /\ (dval d' == dval d)%Q
  /\ Z.min 0 (dexp d) <= dexp d' <= 0.
Proof. destruct (plain_text_reduced d) as (d' & E & Hn & V & He & _). by exists d'. Qed.

(** Two reduced numbers of the same value are the same number. *)
Lemma reduced_le d d' : dneg d = dneg d' -> dexp d <= dexp d' <= 0 -> reduced d -> (dval d == dval d')%Q -> d = d'.
Proof.
  destruct d as [s c e], d' as [s' c' e']. cbn [dneg dexp]. intros <- He Hr E. set (k := Z.to_N (e' - e)).
  rewrite (dval_scale _ e), (dval_scale (Dec s c' e') e) in E by (simpl; lia). cbn [dexp] in E.
  assert (sval (Dec s c e) = sval (Dec s c' e') * 10 ^ (e' - e)) as Es.
  { rewrite Z.sub_diag, Z.mul_1_r in E. apply Z.le_antisymm; apply (inject_Z_le_scale _ _ e); rewrite E; apply Qle_refl. }
  assert (c = c' * 10 ^ k)%N as Ec.
  { apply N2Z.inj. rewrite N2Z.inj_mul, N2Z.inj_pow. subst k. rewrite Z2N.id by lia. change (Z.of_N 10) with 10.
    unfold sval in Es. cbn [dneg dcoef] in Es. destruct s; nia. }
  destruct (Z.eq_dec e e') as [<-|Hne].
  - f_equal. rewrite Ec. subst k. rewrite Z.sub_diag. simpl. lia.
  - destruct Hr as [Hr|Hr]; cbn [dexp dcoef] in Hr; [lia|]. destruct Hr. rewrite Ec.
    replace k with (N.succ (N.pred k)) by lia. rewrite N.pow_succ_r', (N.mul_comm 10), N.mul_assoc. by apply N.Div0.mod_mul.
Qed.

Lemma reduced_unique d d' : dneg d = dneg d' -> dexp d <= 0 -> dexp d' <= 0 -> reduced d -> reduced d' ->
  (dval d == dval d')%Q -> d = d'.
Proof.
  intros Hn He He' Hr Hr' E. destruct (Z.le_ge_cases (dexp d) (dexp d')).
  - by apply reduced_le.
  - symmetry. apply reduced_le; [done|lia|done|by symmetry].
Qed.

(** The plain text of a number depends on its value and sign only. *)
Lemma plain_text_value d d' : dneg d = dneg d' -> (dval d == dval d')%Q -> plain_text d = plain_text d'.
Proof.
  intros Hn E. destruct (plain_text_reduced d) as (r & -> & Nr & Vr & Er & Rr).
  destruct (plain_text_reduced d') as (r' & -> & Nr' & Vr' & Er' & Rr'). f_equal.
  apply reduced_unique; [congruence|lia|lia|done|done|by rewrite Vr, Vr'].
Qed.
