(* ===== verification/Digest.v ===== *)
(** * Canonical JSON and SHA-256

    Every identity in the program is [hashlib.sha256] of
    [json.dumps(payload, sort_keys=True, separators=(",", ":"))].  Both are
    standard-library functions: this file gives them executable definitions
    (the JSON encoder on the values the payloads contain; the hash function
    on the resulting ASCII bytes) and shows that the encoder is injective, so
    that two payloads with one digest are either the same payload or a
    SHA-256 collision. *)
From stdpp Require Import sorting.
From S2P Require Import Prelude PyDecimal PyText.

(** ** SHA-256 (FIPS 180-4) on byte strings *)
Module Sha.
Open Scope N_scope.
Abbreviation word := N.
Definition wmod (x : N) : word := N.land x 0xffffffff.
Definition wadd (x y : word) : word := wmod (x + y).
Definition rotr (k x : word) : word := N.lor (N.shiftr x k) (wmod (N.shiftl x (32 - k))).
Definition big0 x := N.lxor (rotr 2 x) (N.lxor (rotr 13 x) (rotr 22 x)).
Definition big1 x := N.lxor (rotr 6 x) (N.lxor (rotr 11 x) (rotr 25 x)).
Definition small0 x := N.lxor (rotr 7 x) (N.lxor (rotr 18 x) (N.shiftr x 3)).
Definition small1 x := N.lxor (rotr 17 x) (N.lxor (rotr 19 x) (N.shiftr x 10)).
Definition choose x y z := N.lxor (N.land x y) (N.land (N.lxor x 0xffffffff) z).
Definition major x y z := N.lxor (N.land x y) (N.lxor (N.land x z) (N.land y z)).

(** The integer cube root, bit by bit from bit [n]. *)
Fixpoint cube_root (n : nat) (x acc : N) : N :=
  match n with
  | O => acc
  | S n' =>
      let try := acc + 2 ^ N.of_nat n' in
      cube_root n' x (if try * try * try <=? x then try else acc)
  end.

Definition primes : list N := [
  2;3;5;7;11;13;17;19;23;29;31;37;41;43;47;53;59;61;67;71;73;79;83;89;97;101;103;107;109;113;127;131;
  137;139;149;151;157;163;167;173;179;181;191;193;197;199;211;223;227;229;233;239;241;251;257;263;
  269;271;277;281;283;293;307;311].

(** The first 32 bits of the fractional parts of the cube roots of the first
    64 primes. *)
Definition round_constants : list word :=
  Eval vm_compute in map (fun p => wmod (cube_root 40 (p * 2 ^ 96) 0)) primes.

(** The eight working variables. *)
Record regs := Regs { ra : word; rb : word; rc : word; rd : word;
                      re : word; rf : word; rg : word; rh : word }.
(** The first 32 bits of the fractional parts of the square roots of the
    first eight primes. *)
Definition initial : regs := Eval vm_compute in
  match map (fun p => wmod (N.sqrt (p * 2 ^ 64))) primes with
  | a :: b :: c :: d :: e :: f :: g :: h :: _ => Regs a b c d e f g h
  | _ => Regs 0 0 0 0 0 0 0 0
  end.

Definition round (s : regs) (k w : word) : regs :=
  let t1 := wadd (rh s) (wadd (big1 (re s)) (wadd (choose (re s) (rf s) (rg s)) (wadd k w))) in
  let t2 := wadd (big0 (ra s)) (major (ra s) (rb s) (rc s)) in
  Regs (wadd t1 t2) (ra s) (rb s) (rc s) (wadd (rd s) t1) (re s) (rf s) (rg s).

(** The message schedule is produced on the fly from a window of the last
    sixteen words, oldest first. *)
Definition next_word (window : list word) : word :=
  match window with
  | w0 :: w1 :: _ =>
      wadd (small1 (nth 14 window 0)) (wadd (nth 9 window 0) (wadd (small0 w1) w0))
  | _ => 0
  end.
Fixpoint rounds (ks : list word) (window : list word) (s : regs) : regs :=
  match ks, window with
  | k :: ks', w :: rest => rounds ks' (rest ++ [next_word window]) (round s k w)
  | _, _ => s
  end.

Definition compress (s : regs) (block : list word) : regs :=
  let t := rounds round_constants block s in
  Regs (wadd (ra s) (ra t)) (wadd (rb s) (rb t)) (wadd (rc s) (rc t)) (wadd (rd s) (rd t))
       (wadd (re s) (re t)) (wadd (rf s) (rf t)) (wadd (rg s) (rg t)) (wadd (rh s) (rh t)).

Definition be_bytes (n : nat) (x : N) : list N :=
  map (fun i => N.land (N.shiftr x (8 * N.of_nat (n - 1 - i))) 0xff) (seq 0 n).

(** One 1 bit, zeros up to 56 bytes modulo 64, the length in bits. *)
Definition padding (len : nat) : list N :=
  0x80 :: repeat 0 ((119 - len mod 64) mod 64) ++ be_bytes 8 (8 * N.of_nat len).

Fixpoint words (bytes : list N) : list word :=
  match bytes with
  | a :: b :: c :: d :: rest => (((a * 256 + b) * 256 + c) * 256 + d) :: words rest
  | _ => []
  end.

Fixpoint blocks (fuel : nat) (ws : list word) : list (list word) :=
  match fuel, ws with
  | S fuel, _ :: _ => take 16 ws :: blocks fuel (drop 16 ws)
  | _, _ => []
  end.

Definition hash (msg : list N) : regs :=
  let ws := words (msg ++ padding (length msg)) in
  fold_left compress (blocks (length ws) ws) initial.

Definition hex_chr (n : N) : ascii := if n <? 10 then chr (48 + n) else chr (87 + n).
Definition hex_byte (b : N) : text := [hex_chr (N.shiftr b 4); hex_chr (N.land b 15)].
Definition hex_word (w : word) : text := concat (map hex_byte (be_bytes 4 w)).
Definition hexdigest (s : regs) : text :=
  hex_word (ra s) ++ hex_word (rb s) ++ hex_word (rc s) ++ hex_word (rd s)
  ++ hex_word (re s) ++ hex_word (rf s) ++ hex_word (rg s) ++ hex_word (rh s).
End Sha.

(** [hashlib.sha256(text.encode("utf-8")).hexdigest()] for an ASCII text. *)
Definition sha256_hex (l : text) : string := str (Sha.hexdigest (Sha.hash (map ord l))).

Example sha256_abc :
  sha256_hex (txt "abc") = "ba7816bf8f01cfea414140de5dae2223b00361a396177a9cb410ff61f20015ad"%string.
Proof. vm_compute. reflexivity. Qed.

Example sha256_empty :
  sha256_hex [] = "e3b0c44298fc1c149afbf4c8996fb92427ae41e4649b934ca495991b7852b855"%string.
Proof. vm_compute. reflexivity. Qed.

Example sha256_two_blocks :
  sha256_hex (txt "abcdbcdecdefdefgefghfghighijhijkijkljklmklmnlmnomnopnopq")
  = "248d6a61d20638b8e5c026930c3e6039a33ce45964ff2167f6ecedd419db06c1"%string.
Proof. vm_compute. reflexivity. Qed.

(** ** [json.dumps(payload, sort_keys=True, separators=(",", ":"))] *)

Inductive json : Type :=
| JNull
| JBool (b : bool)
| JInt (n : Z)
| JStr (s : string)
| JArr (l : list json)
| JObj (l : list (string * json)).

(** A character inside a JSON string with [ensure_ascii]. *)
Definition hex4 (n : N) : text :=
  Sha.hex_chr 0 :: Sha.hex_chr 0 :: Sha.hex_byte n.
Definition quote : ascii := chr 34.
Definition backslash : ascii := chr 92.
Definition json_chr (c : ascii) : text :=
  let n := ord c in
  if (n =? 34)%N then [backslash; quote]
  else if (n =? 92)%N then [backslash; backslash]
  else if ((32 <=? n) && (n <=? 126))%N then [c]
  else if (n =? 8)%N then [backslash; "b"%char]
  else if (n =? 9)%N then [backslash; "t"%char]
  else if (n =? 10)%N then [backslash; "n"%char]
  else if (n =? 12)%N then [backslash; "f"%char]
  else if (n =? 13)%N then [backslash; "r"%char]
  else backslash :: "u"%char :: hex4 n.
Definition json_string (s : string) : text := quote :: concat (map json_chr (txt s)) ++ [quote].

Definition json_int (n : Z) : text :=
  if n <? 0 then minus_sign :: digits_of (Z.abs_N n) else digits_of (Z.abs_N n).

(** [sort_keys]: by the order of code points. *)
Definition item_leb {A} (a b : string * A) : bool := String.leb (fst a) (fst b).
Definition sort_items {A} (l : list (string * A)) : list (string * A) := isort item_leb l.

Definition join_comma (l : list text) : text :=
  match l with
  | [] => []
  | x :: l' => x ++ concat (map (fun y => ","%char :: y) l')
  end.

Fixpoint json_dumps (j : json) : text :=
  match j with
  | JNull => txt "null"
  | JBool b => txt (if b then "true" else "false")
  | JInt n => json_int n
  | JStr s => json_string s
  | JArr l => "["%char :: join_comma (map json_dumps l) ++ ["]"%char]
  | JObj l =>
      "{"%char ::
      join_comma (map (fun kv => json_string (fst kv) ++ ":"%char :: snd kv)
        (sort_items (map (fun kv => (fst kv, json_dumps (snd kv))) l)))
      ++ ["}"%char]
  end.

(** [_digest(payload)] *)
Definition digest (j : json) : string := sha256_hex (json_dumps j).

Definition JOptStr (o : option string) : json := match o with Some s => JStr s | None => JNull end.
Definition JOptInt (o : option Z) : json := match o with Some n => JInt n | None => JNull end.

(** [re.compile(r"[0-9a-f]{64}").fullmatch(value)] *)
Definition is_hex (c : ascii) : bool :=
  (is_digit c || ((97 <=? ord c) && (ord c <=? 102)))%N.
Definition sha256_pattern (s : string) : bool :=
  forallb is_hex (txt s) && (length (txt s) =? 64)%nat.

(** * The encoder is injective *)

(** Structural induction through the nested lists. *)
Lemma json_ind' (P : json -> Prop) :
  P JNull -> (forall b, P (JBool b)) -> (forall n, P (JInt n)) -> (forall s, P (JStr s)) ->
  (forall l, Forall P l -> P (JArr l)) ->
  (forall l, Forall (fun kv => P (snd kv)) l -> P (JObj l)) ->
  forall j, P j.
Proof.
  intros Hn Hb Hi Hs Ha Ho. fix IH 1. intros [|b|n|s|l|l]; [apply Hn|apply Hb|apply Hi|apply Hs|..].
  - apply Ha. induction l as [|x l IHl]; constructor; [apply IH|apply IHl].
  - apply Ho. induction l as [|[k x] l IHl]; constructor; [apply IH|apply IHl].
Qed.

(** Objects up to the order of their keys. *)
Fixpoint jnorm (j : json) : json :=
  match j with
  | JArr l => JArr (map jnorm l)
  | JObj l => JObj (sort_items (map (fun kv => (fst kv, jnorm (snd kv))) l))
  | _ => j
  end.

(** What may follow a number: nothing, or a character that is no digit. *)
Definition stop (r : text) : Prop := match r with [] => True | c :: _ => is_digit c = false end.

(** [enc] can be read back unambiguously in front of any such rest. *)
Definition readable {A B} (enc : A -> text) (nrm : A -> B) (x : A) : Prop :=
  forall y r r', stop r -> stop r' -> enc x ++ r = enc y ++ r' -> nrm x = nrm y /\ r = r'.

Lemma digits_munch l l' r r' :
  forallb is_digit l = true -> forallb is_digit l' = true -> stop r -> stop r' ->
  l ++ r = l' ++ r' -> l = l' /\ r = r'.
Proof.
  revert l'. induction l as [|c l IH]; intros [|c' l']; simpl.
  - auto.
  - rewrite andb_true_iff. intros _ [Hc _] Hr _ ->. simpl in Hr. congruence.
  - rewrite andb_true_iff. intros [Hc _] _ _ Hr' <-. simpl in Hr'. congruence.
  - rewrite !andb_true_iff. intros [_ Hl] [_ Hl'] Hr Hr' [= <- E].
    destruct (IH l' Hl Hl' Hr Hr' E) as [-> ->]. done.
Qed.

Lemma digits_of_inj n m : digits_of n = digits_of m -> n = m.
Proof.
  intros E. destruct (digits_of_spec n) as (_ & <- & _), (digits_of_spec m) as (_ & <- & _). by rewrite E.
Qed.

Lemma digits_of_head n : exists c l, digits_of n = c :: l /\ is_digit c = true.
Proof.
  destruct (digits_of_spec n) as (H1 & _ & H3). pose proof (ndigits_pos n).
  destruct (digits_of n) as [|c l]; [simpl in H3; lia|].
  simpl in H1. apply andb_true_iff in H1 as [Hc _]. eauto.
Qed.

Lemma json_int_readable n m r r' :
  stop r -> stop r' -> json_int n ++ r = json_int m ++ r' -> n = m /\ r = r'.
Proof.
  intros Hr Hr'. unfold json_int.
  destruct (digits_of_spec (Z.abs_N n)) as (Dn & _). destruct (digits_of_spec (Z.abs_N m)) as (Dm & _).
  destruct (digits_of_head (Z.abs_N n)) as (c & l & En & Hc). destruct (digits_of_head (Z.abs_N m)) as (c' & l' & Em & Hc').
  destruct (Z.ltb_spec n 0), (Z.ltb_spec m 0); simpl; intros E.
  - injection E as E. apply digits_munch in E as [E ->]; [|done..]. apply digits_of_inj in E. split; [lia|done].
  - rewrite Em in E. injection E as <- _. done.
  - rewrite En in E. injection E as -> _. done.
  - apply digits_munch in E as [E ->]; [|done..]. apply digits_of_inj in E. split; [lia|done].
Qed.

(** *** Reading one character of a JSON string back *)
Definition hex_val (c : ascii) : N := if is_digit c then digit_val c else (ord c - 87)%N.
Definition json_unchr (l : text) : option (ascii * text) :=
  match l with
  | [] => None
  | c :: l' =>
      if (ord c =? 34)%N then None
      else if (ord c =? 92)%N then
        match l' with
        | d :: l'' =>
            if (ord d =? 117)%N then
              match l'' with
              | _ :: _ :: h1 :: h0 :: r => Some (chr (16 * hex_val h1 + hex_val h0), r)
              | _ => None
              end
            else
              let n := if (ord d =? 98)%N then 8%N else if (ord d =? 116)%N then 9%N
                       else if (ord d =? 110)%N then 10%N else if (ord d =? 102)%N then 12%N
                       else if (ord d =? 114)%N then 13%N else ord d in
              Some (chr n, l'')
        | [] => None
        end
      else Some (c, l')
  end.

Lemma json_unchr_chr c r : json_unchr (json_chr c ++ r) = Some (c, r).
Proof. destruct c as [[] [] [] [] [] [] [] []]; reflexivity. Qed.

Lemma json_chars_readable l l' r r' :
  concat (map json_chr l) ++ quote :: r = concat (map json_chr l') ++ quote :: r' -> l = l' /\ r = r'.
Proof.
  revert l'. induction l as [|c l IH]; intros [|c' l'] E; cbn [map concat app] in E.
  - by injection E.
  - apply (f_equal json_unchr) in E. rewrite <- app_assoc, json_unchr_chr in E. discriminate E.
  - apply (f_equal json_unchr) in E. rewrite <- app_assoc, json_unchr_chr in E. discriminate E.
  - apply (f_equal json_unchr) in E. rewrite <- !app_assoc, !json_unchr_chr in E.
    injection E as <- E. destruct (IH l' E) as [-> ->]. done.
Qed.

Lemma json_string_readable s s' r r' : json_string s ++ r = json_string s' ++ r' -> s = s' /\ r = r'.
Proof.
  unfold json_string. simpl. rewrite <- !app_assoc. simpl. intros [= E].
  apply json_chars_readable in E as [E ->]. split; [|done]. by rewrite <- (str_txt s), <- (str_txt s'), E.
Qed.

(** *** Sequences *)
Section Items.
Context {A B : Type} (enc : A -> text) (nrm : A -> B) (close : ascii).
Hypothesis Hclose : close <> ","%char /\ is_digit close = false.
Hypothesis Hhead : forall x, exists c l, enc x = c :: l /\ c <> close.

Lemma items_tail_readable l l' r r' :
  Forall (readable enc nrm) l ->
  concat (map (fun y => ","%char :: y) (map enc l)) ++ close :: r
  = concat (map (fun y => ","%char :: y) (map enc l')) ++ close :: r' ->
  map nrm l = map nrm l' /\ r = r'.
Proof using Hclose.
  intros Hl. revert l'. induction Hl as [|x l Hx Hl IH]; intros [|x' l'] E; cbn [map concat app] in E.
  - by injection E.
  - injection E as E _. by destruct Hclose.
  - injection E as E _. by destruct Hclose.
  - injection E as E. rewrite <- !app_assoc in E.
    assert (forall l r, stop (concat (map (fun y => ","%char :: y) (map enc l)) ++ close :: r)) as Hstop.
    { intros [|y m] r0; simpl; [by destruct Hclose|done]. }
    apply Hx in E as [Ex E]; [|apply Hstop..].
    destruct (IH l' E) as [El ->]. simpl. by rewrite Ex, El.
Qed.

Lemma items_readable l l' r r' :
  Forall (readable enc nrm) l ->
  join_comma (map enc l) ++ close :: r = join_comma (map enc l') ++ close :: r' ->
  map nrm l = map nrm l' /\ r = r'.
Proof using Hclose Hhead.
  intros Hl E. destruct l as [|x l], l' as [|x' l']; cbn [map join_comma app] in E.
  - by injection E.
  - destruct (Hhead x') as (c & m & Ec & Hc). rewrite Ec in E. injection E as E _. by symmetry in E.
  - destruct (Hhead x) as (c & m & Ec & Hc). rewrite Ec in E. injection E as E _. done.
  - inversion Hl as [|? ? Hx Hl']; subst.
    rewrite <- !app_assoc in E.
    assert (forall l r, stop (concat (map (fun y => ","%char :: y) (map enc l)) ++ close :: r)) as Hstop.
    { intros [|y m] r0; simpl; [by destruct Hclose|done]. }
    apply Hx in E as [Ex E]; [|apply Hstop..].
    apply items_tail_readable in E as [El ->]; [|done]. simpl. by rewrite Ex, El.
Qed.
End Items.

Lemma sort_items_map {A B} (f : A -> B) l :
  sort_items (map (fun kv => (fst kv, f (snd kv))) l) = map (fun kv => (fst kv, f (snd kv))) (sort_items l).
Proof. by apply isort_map. Qed.

Lemma sort_items_Forall {A} (P : string * A -> Prop) l : Forall P l -> Forall P (sort_items l).
Proof. apply isort_Forall. Qed.

Lemma json_dumps_head j : exists c l, json_dumps j = c :: l /\ c <> "]"%char.
Proof.
  destruct j as [|[]|n|s|l|l]; try (eexists _, _; split; [reflexivity|discriminate]).
  simpl. unfold json_int. destruct (digits_of_head (Z.abs_N n)) as (c & l & E & Hc).
  destruct (n <? 0); [by eexists _, _|]. rewrite E. eexists _, _; split; [done|]. by intros ->.
Qed.

Definition enc_item (kv : string * json) : text := json_string (fst kv) ++ ":"%char :: json_dumps (snd kv).

Lemma json_dumps_obj l : json_dumps (JObj l) = "{"%char :: join_comma (map enc_item (sort_items l)) ++ ["}"%char].
Proof. simpl. f_equal. f_equal. rewrite (sort_items_map json_dumps), map_map. done. Qed.

Lemma json_dumps_readable j : readable json_dumps jnorm j.
Proof.
  induction j as [|b|n|s|l IH|l IH] using json_ind'; intros j' r r' Hr Hr' E.
  - destruct j' as [|[]|n'|s'|l'|l']; try discriminate E; [by injection E|].
    simpl in E. unfold json_int in E. destruct (digits_of_head (Z.abs_N n')) as (c & m & Ec & Hc).
    destruct (n' <? 0); [discriminate E|]. rewrite Ec in E. injection E as <- _. done.
  - destruct j' as [|b'|n'|s'|l'|l']; try by destruct b.
    + by destruct b, b'; try discriminate E; injection E as ->.
    + simpl in E. unfold json_int in E. destruct (digits_of_head (Z.abs_N n')) as (c & m & Ec & Hc).
      destruct b, (n' <? 0); try discriminate E; rewrite Ec in E; injection E as <- _; done.
  - assert (exists c m, json_dumps (JInt n) = c :: m /\ (is_digit c = true \/ c = minus_sign)) as (c & m & Ec & Hc).
    { simpl. unfold json_int. destruct (digits_of_head (Z.abs_N n)) as (c & m & Ec & Hc).
      destruct (n <? 0); [by eexists _, _; split; [done|right]|]. rewrite Ec. eexists _, _; split; [done|by left]. }
    destruct j' as [|b'|n'|s'|l'|l'];
      try (rewrite Ec in E; destruct b' || idtac; injection E as -> _; destruct Hc as [Hc|Hc]; discriminate Hc).
    apply json_int_readable in E as [-> ->]; done.
  - destruct j' as [|b'|n'|s'|l'|l']; try discriminate E.
    + destruct b'; discriminate E.
    + simpl in E. unfold json_int in E. destruct (digits_of_head (Z.abs_N n')) as (c & m & Ec & Hc).
      destruct (n' <? 0); [discriminate E|]. rewrite Ec in E. injection E as <- _. done.
    + apply json_string_readable in E as [-> ->]. done.
  - destruct j' as [|b'|n'|s'|l'|l']; try discriminate E.
    + destruct b'; discriminate E.
    + simpl in E. unfold json_int in E. destruct (digits_of_head (Z.abs_N n')) as (c & m & Ec & Hc).
      destruct (n' <? 0); [discriminate E|]. rewrite Ec in E. injection E as <- _. done.
    + cbn [json_dumps app] in E. injection E as E. rewrite <- !app_assoc in E. cbn [app] in E.
      apply (items_readable json_dumps jnorm) in E as [E ->]; [simpl; by rewrite E|done|apply json_dumps_head|done].
  - destruct j' as [|b'|n'|s'|l'|l']; try discriminate E.
    + destruct b'; discriminate E.
    + simpl in E. unfold json_int in E. destruct (digits_of_head (Z.abs_N n')) as (c & m & Ec & Hc).
      destruct (n' <? 0); [discriminate E|]. rewrite Ec in E. injection E as <- _. done.
    + rewrite !json_dumps_obj in E. cbn [app] in E. injection E as E. rewrite <- !app_assoc in E. cbn [app] in E.
      apply (items_readable enc_item (fun kv => (fst kv, jnorm (snd kv)))) in E as [E ->].
      * simpl. by rewrite !sort_items_map, E.
      * done.
      * intros kv. eexists _, _. split; [reflexivity|discriminate].
      * apply sort_items_Forall. eapply Forall_impl; [exact IH|]. intros [k x] Hx [k' x'] r1 r1' Hr1 Hr1' E1.
        unfold enc_item in E1. cbn [fst snd] in *. rewrite <- !app_assoc in E1.
        apply json_string_readable in E1 as [-> E1]. cbn [app] in E1. injection E1 as E1.
        apply Hx in E1 as [-> ->]; done.
Qed.

(** Two payloads with the same text are equal up to key order. *)
Lemma json_dumps_inj j j' : json_dumps j = json_dumps j' -> jnorm j = jnorm j'.
Proof.
  intros E. apply (json_dumps_readable j j' [] []); [done|done|]. by rewrite E.
Qed.

(** A SHA-256 collision: two different texts with one digest. *)
Definition sha256_collision (x y : text) : Prop := x <> y /\ sha256_hex x = sha256_hex y.

(** One digest: one payload, or a collision in hand. *)
Lemma digest_inj j j' :
  digest j = digest j' -> jnorm j = jnorm j' \/ sha256_collision (json_dumps j) (json_dumps j').
Proof.
  intros E. destruct (decide (json_dumps j = json_dumps j')) as [H|H].
  - left. by apply json_dumps_inj.
  - right. split; [exact H|exact E].
Qed.

(** ** Every digest is 64 hexadecimal characters *)

Lemma hex_chr_hex n : (n < 16)%N -> is_hex (Sha.hex_chr n) = true.
Proof.
  intros H. unfold Sha.hex_chr, is_hex. destruct (N.ltb_spec n 10).
  - change (chr (48 + n)) with (digit_chr n). by rewrite digit_chr_digit.
  - rewrite ord_chr by lia. rewrite orb_true_iff, andb_true_iff, !N.leb_le. right. lia.
Qed.

Lemma hex_byte_hex b : (b < 256)%N -> forallb is_hex (Sha.hex_byte b) = true /\ length (Sha.hex_byte b) = 2%nat.
Proof.
  intros H. split; [|done]. simpl. rewrite !hex_chr_hex; [done|..].
  - change 15%N with (N.ones 4). rewrite N.land_ones. apply N.mod_lt. done.
  - rewrite N.shiftr_div_pow2. apply N.Div0.div_lt_upper_bound. exact H.
Qed.

Lemma hex_word_hex w : forallb is_hex (Sha.hex_word w) = true /\ length (Sha.hex_word w) = 8%nat.
Proof.
  unfold Sha.hex_word, Sha.be_bytes. cbn [seq map concat].
  assert (forall x, N.land x 0xff < 256)%N as Hb.
  { intros x. change 255%N with (N.ones 8). rewrite N.land_ones. by apply N.mod_lt. }
  rewrite !forallb_app, !length_app. split.
  - by rewrite !(fun x => proj1 (hex_byte_hex _ (Hb x))).
  - by rewrite !(fun x => proj2 (hex_byte_hex _ (Hb x))).
Qed.

Lemma sha256_hex_pattern l : sha256_pattern (sha256_hex l) = true.
Proof.
  unfold sha256_pattern, sha256_hex. rewrite txt_str. unfold Sha.hexdigest.
  rewrite !forallb_app, !length_app.
  by rewrite !(fun w => proj1 (hex_word_hex w)), !(fun w => proj2 (hex_word_hex w)).
Qed.

Lemma digest_pattern j : sha256_pattern (digest j) = true.
Proof. apply sha256_hex_pattern. Qed.
#[export] Hint Resolve digest_pattern : core.

(** * Objects with fixed keys

    Two objects with the same distinct keys in the same order have the same text
    only if their fields do, field by field. *)
Lemma sort_items_perm {A} (l : list (string * A)) : sort_items l ≡ₚ l.
Proof. apply isort_perm. Qed.

(** Distinct keys: an item is known by its key. *)
Lemma keyed_unique {A} (l : list (string * A)) x y : NoDup (map fst l) -> x ∈ l -> y ∈ l -> fst x = fst y -> x = y.
Proof. apply key_unique. Qed.

(** Strings are ordered by their code points. *)
Definition str_le (a b : string) : Prop := String.leb a b = true.

#[global] Instance str_le_trans : Transitive str_le.
Proof.
  unfold str_le, String.leb. intros a. induction a as [|x a IH]; intros [|y b] [|z c]; try done. cbn [String.compare].
  intros H1 H2. specialize (IH b c). destruct (Ascii.compare x y) eqn:E1; [..|done].
  - apply Ascii.compare_eq_iff in E1 as ->. destruct (Ascii.compare y z); [by apply IH|done|done].
  - destruct (Ascii.compare y z) eqn:E2; [..|done].
    + apply Ascii.compare_eq_iff in E2 as ->. by rewrite E1.
    + unfold Ascii.compare in *. assert ((N_of_ascii x ?= N_of_ascii z)%N = Lt) as ->; [|done].
      rewrite N.compare_lt_iff in *. lia.
Qed.

#[global] Instance str_le_anti : AntiSymm (=) str_le.
Proof. intros a b. apply String.leb_antisym. Qed.

Abbreviation sorted_by_name := (StronglySorted (fun a b => str_le (fst a) (fst b))).

Lemma item_leb_total {A} (a b : string * A) : item_leb a b = true \/ item_leb b a = true.
Proof. apply String.leb_total. Qed.
Lemma item_leb_trans {A} (a b c : string * A) : item_leb a b = true -> item_leb b c = true -> item_leb a c = true.
Proof. apply str_le_trans. Qed.

Lemma sort_items_sorted {A} (l : list (string * A)) : sorted_by_name (sort_items l).
Proof. exact (isort_sorted _ item_leb_total item_leb_trans l). Qed.

(** Two sorted lists of the same items, with distinct keys, are the same list. *)
Lemma sorted_by_name_unique {A} (l l' : list (string * A)) :
  NoDup (map fst l) -> sorted_by_name l -> sorted_by_name l' -> l ≡ₚ l' -> l = l'.
Proof.
  intros Hnd Hl Hl' Hp. apply (StronglySorted_unique_strong (fun a b => str_le (fst a) (fst b))); [|done..].
  intros x y Hx Hy H1 H2. rewrite <- Hp in Hy. apply (keyed_unique l); [done..|]. by apply (anti_symm str_le).
Qed.

Lemma sort_items_canonical {A} (l l' : list (string * A)) : NoDup (map fst l) -> l ≡ₚ l' -> sort_items l = sort_items l'.
Proof.
  intros Hnd Hp. apply sorted_by_name_unique; [|apply sort_items_sorted..|by rewrite !sort_items_perm].
  by rewrite (Permutation_map fst (sort_items_perm l)).
Qed.

Lemma sort_items_fixed {A} (l : list (string * A)) : NoDup (map fst l) -> sorted_by_name l -> sort_items l = l.
Proof.
  intros Hnd Hl. symmetry. apply sorted_by_name_unique; [done|done|apply sort_items_sorted|by rewrite sort_items_perm].
Qed.

Lemma keyed_perm_eq {A} (l l' : list (string * A)) : NoDup (map fst l) -> map fst l = map fst l' -> l ≡ₚ l' -> l = l'.
Proof.
  intros Hnd Hk Hp. apply list_eq. intros i.
  assert (length l = length l') as Hlen by by apply Permutation_length.
  destruct (l !! i) as [x|] eqn:E; [|symmetry; apply lookup_ge_None; apply lookup_ge_None in E; lia].
  destruct (lookup_lt_is_Some_2 l' i) as [y Ey]; [rewrite <- Hlen; by eapply lookup_lt_Some|]. rewrite Ey. f_equal.
  apply (keyed_unique l); [done|by eapply list_elem_of_lookup_2|rewrite Hp; by eapply list_elem_of_lookup_2|].
  assert (map fst l !! i = map fst l' !! i) as Ef by by rewrite Hk.
  change (@map (string * A) string) with (@fmap list _ (string * A) string) in Ef. rewrite !list_lookup_fmap, E, Ey in Ef.
  cbn in Ef. congruence.
Qed.

Lemma jobj_inj l l' : NoDup (map fst l) -> map fst l = map fst l' -> jnorm (JObj l) = jnorm (JObj l') ->
  Forall2 (fun a b => jnorm (snd a) = jnorm (snd b)) l l'.
Proof.
  intros Hnd Hk H. cbn [jnorm] in H.
  set (f := fun kv : string * json => (fst kv, jnorm (snd kv))) in H.
  assert (forall m, map fst (map f m) = map fst m) as Hf by (intros m; rewrite map_map; by apply map_ext).
  assert (map f l = map f l') as E.
  { apply keyed_perm_eq; [by rewrite Hf|by rewrite !Hf|]. rewrite <- (sort_items_perm (map f l)), <- (sort_items_perm (map f l')).
    assert (forall a b, JObj a = JObj b -> a = b) as Hinj by (intros ? ? Hab; congruence). apply Hinj in H. by rewrite H. }
  clear H Hnd Hk Hf. revert l' E. induction l as [|x l IH]; intros [|y l'] E; try done. cbn [map] in E.
  constructor; [|apply IH; congruence]. assert (f x = f y) as Hxy by congruence. unfold f in Hxy. congruence.
Qed.

Lemma JStr_inj a b : jnorm (JStr a) = jnorm (JStr b) -> a = b.
Proof. cbn [jnorm]. congruence. Qed.
Lemma JInt_inj a b : jnorm (JInt a) = jnorm (JInt b) -> a = b.
Proof. cbn [jnorm]. congruence. Qed.
Lemma JBool_inj a b : jnorm (JBool a) = jnorm (JBool b) -> a = b.
Proof. cbn [jnorm]. congruence. Qed.
Lemma JOptStr_inj a b : jnorm (JOptStr a) = jnorm (JOptStr b) -> a = b.
Proof. destruct a, b; simpl; congruence. Qed.
Lemma JOptInt_inj a b : jnorm (JOptInt a) = jnorm (JOptInt b) -> a = b.
Proof. destruct a, b; simpl; congruence. Qed.
Lemma JArr_inj l l' : jnorm (JArr l) = jnorm (JArr l') -> Forall2 (fun a b => jnorm a = jnorm b) l l'.
Proof.
  cbn [jnorm]. intros H. assert (map jnorm l = map jnorm l') as E by congruence. clear H. revert l' E.
  induction l as [|x l IH]; intros [|y l'] E; try done. cbn [map] in E. constructor; [congruence|apply IH; congruence].
Qed.
Lemma JStrs_inj l l' : jnorm (JArr (map JStr l)) = jnorm (JArr (map JStr l')) -> l = l'.
Proof.
  intros H. apply JArr_inj in H. revert l' H. induction l as [|x l IH]; intros [|y l'] H; try done; inversion H as [|? ? ? ? Hxy Ht]; subst; [].
  apply JStr_inj in Hxy. by rewrite Hxy, (IH l').
Qed.

(** [json_fields H]: from the equality of two objects to that of their fields. *)
Ltac json_fields H :=
  apply jobj_inj in H; [|apply (bool_decide_unpack _); vm_compute; exact I|reflexivity];
  repeat match type of H with
  | Forall2 _ (_ :: _) (_ :: _) =>
      let E := fresh "Hj" in let T := fresh "Ht" in
      apply Forall2_cons_1 in H; destruct H as [E T]; cbn [fst snd] in E; clear H; rename T into H
  | Forall2 _ [] [] => clear H
  end;
  repeat match goal with
  | E : jnorm (JStr _) = jnorm (JStr _) |- _ => apply JStr_inj in E
  | E : jnorm (JInt _) = jnorm (JInt _) |- _ => apply JInt_inj in E
  | E : jnorm (JBool _) = jnorm (JBool _) |- _ => apply JBool_inj in E
  | E : jnorm (JOptStr _) = jnorm (JOptStr _) |- _ => apply JOptStr_inj in E
  | E : jnorm (JOptInt _) = jnorm (JOptInt _) |- _ => apply JOptInt_inj in E
  | E : jnorm (JArr (map JStr _)) = jnorm (JArr (map JStr _)) |- _ => apply JStrs_inj in E
  end.

(** ** Collisions among the texts a program has hashed

    What a digest binds is stated up to a collision of two of finitely many texts,
    listed by the statement: the texts that the operations in question hash.  (That
    SHA-256 has collisions at all is a fact of counting, and says nothing.) *)
Definition collision (T : list text) : Prop := exists x y, x ∈ T /\ y ∈ T /\ sha256_collision x y.

(** It can be tested. *)
#[global] Instance collision_dec T : Decision (collision T).
Proof.
  refine (cast_if (decide (Exists (fun x => Exists (fun y => x <> y /\ sha256_hex x = sha256_hex y) T) T))).
  - abstract (match goal with H : Exists _ _ |- _ => apply Exists_exists in H as (x & Hx & H); apply Exists_exists in H as (y & Hy & H); by exists x, y end).
  - abstract (match goal with H : ~ _ |- _ => intros (x & y & Hx & Hy & Hc); apply H, Exists_exists; exists x; split; [done|apply Exists_exists; by exists y] end).
Defined.

(** One list of texts is part of another. *)
Definition among (l T : list text) : Prop := forall x, x ∈ l -> x ∈ T.

Lemma collision_among T T' : among T T' -> collision T -> collision T'.
Proof. intros H (x & y & Hx & Hy & Hc). exists x, y. split_and!; [by apply H..|exact Hc]. Qed.

Lemma no_collision x T : (forall y, y ∈ T -> y = x) -> ~ collision T.
Proof. intros H (a & b & Ha & Hb & Hn & _). apply H in Ha, Hb. congruence. Qed.

Lemma no_collision_nil : ~ collision [].
Proof. intros (a & b & Ha & _). by apply elem_of_nil in Ha. Qed.

Lemma among_refl T : among T T.
Proof. by intros x. Qed.
Lemma among_app l l' T : among (l ++ l') T <-> among l T /\ among l' T.
Proof. unfold among. setoid_rewrite elem_of_app. naive_solver. Qed.
Lemma among_cons x l T : among (x :: l) T <-> x ∈ T /\ among l T.
Proof. unfold among. setoid_rewrite elem_of_cons. naive_solver. Qed.
Lemma among_cons3 x y l T : among (x :: y :: l) T -> x ∈ T /\ y ∈ T /\ among l T.
Proof. intros [Hx [Hy Hl]%among_cons]%among_cons. done. Qed.
Lemma among_left l l' : among l (l ++ l').
Proof. intros x Hx. apply elem_of_app. by left. Qed.
Lemma among_right l l' : among l' (l ++ l').
Proof. intros x Hx. apply elem_of_app. by right. Qed.
Lemma among_head x l T : among (x :: l) T -> x ∈ T.
Proof. intros H. apply H, list_elem_of_here. Qed.
Lemma among_tail x l T : among (x :: l) T -> among l T.
Proof. intros H y Hy. by apply H, list_elem_of_further. Qed.
Lemma among_map {A} (f : A -> text) l T : among (map f l) T <-> forall a, a ∈ l -> f a ∈ T.
Proof.
  unfold among. setoid_rewrite list_elem_of_In. setoid_rewrite in_map_iff. naive_solver.
Qed.
#[export] Hint Resolve among_refl among_left among_right among_head among_tail : core.

(** The same digest: the same payload, or the two texts collide. *)
Lemma digest_binds T j j' : json_dumps j ∈ T -> json_dumps j' ∈ T -> digest j = digest j' -> jnorm j = jnorm j' \/ collision T.
Proof. intros Hj Hj' H. destruct (digest_inj j j' H) as [E|E]; [by left|right; by exists (json_dumps j), (json_dumps j')]. Qed.

Lemma sha256_hex_binds T a b : a ∈ T -> b ∈ T -> sha256_hex a = sha256_hex b -> a = b \/ collision T.
Proof. intros Ha Hb H. destruct (decide (a = b)) as [|Hn]; [by left|right]. by exists a, b. Qed.
