(* ===== verification/JsonText.v ===== *)
(** * Reading JSON text ([json.loads])

    The standard library's reader on the values the program's files contain, and
    the theorem that it reads back what [json.dumps] writes.  A number with a
    fraction or an exponent, NaN, Infinity, and a character beyond the first 256
    code points have no value in [json] and are refused here like invalid text;
    Python's limits on nesting and on the length of an integer are not modelled. *)
From S2P Require Import Prelude PyDecimal PyText Digest.

Definition is_space (c : ascii) : bool := let n := ord c in ((n =? 32) || (n =? 9) || (n =? 10) || (n =? 13))%N.
Fixpoint skip_space (l : text) : text :=
  match l with c :: r => if is_space c then skip_space r else l | [] => [] end.

(** A key given again replaces the value it had. *)
Definition dict_set {A} (l : list (string * A)) (k : string) (v : A) : list (string * A) :=
  if existsb (fun kv => String.eqb (fst kv) k) l
  then map (fun kv => if String.eqb (fst kv) k then (k, v) else kv) l
  else l ++ [(k, v)].

(** ** Strings *)

Definition is_hex_any (c : ascii) : bool := is_hex c || ((65 <=? ord c) && (ord c <=? 70))%N.
Definition hex_any_val (c : ascii) : N := if is_digit c then digit_val c else if (97 <=? ord c)%N then (ord c - 87)%N else (ord c - 55)%N.

(** [\uXXXX] *)
Definition unicode_escape (a b c d : ascii) : option ascii :=
  if forallb is_hex_any [a; b; c; d] then
    let n := (((hex_any_val a * 16 + hex_any_val b) * 16 + hex_any_val c) * 16 + hex_any_val d)%N in
    if (n <? 256)%N then Some (chr n) else None
  else None.

(** The character of a one-letter escape. *)
Definition simple_escape (d : ascii) : option ascii :=
  let n := ord d in
  if (n =? 34)%N then Some quote else if (n =? 92)%N then Some backslash else if (n =? 47)%N then Some d
  else if (n =? 98)%N then Some (chr 8) else if (n =? 102)%N then Some (chr 12) else if (n =? 110)%N then Some (chr 10)
  else if (n =? 114)%N then Some (chr 13) else if (n =? 116)%N then Some (chr 9) else None.

(** The characters up to the closing quote, and the text after it. *)
Fixpoint read_chars (l : text) : option (text * text) :=
  match l with
  | [] => None
  | c :: r =>
      if (ord c =? 34)%N then Some ([], r)
      else if (ord c =? 92)%N then
        match r with
        | [] => None
        | d :: r1 =>
            if (ord d =? 117)%N then
              match r1 with
              | h3 :: h2 :: h1 :: h0 :: r2 =>
                  match unicode_escape h3 h2 h1 h0, read_chars r2 with
                  | Some x, Some (s, rest) => Some (x :: s, rest)
                  | _, _ => None
                  end
              | _ => None
              end
            else match simple_escape d, read_chars r1 with
                 | Some x, Some (s, rest) => Some (x :: s, rest)
                 | _, _ => None
                 end
        end
      else if (ord c <? 32)%N then None
      else match read_chars r with Some (s, rest) => Some (c :: s, rest) | None => None end
  end.

Definition read_string (l : text) : option (string * text) :=
  match l with
  | c :: r => if (ord c =? 34)%N then match read_chars r with Some (s, rest) => Some (str s, rest) | None => None end else None
  | [] => None
  end.

(** ** Numbers *)

Fixpoint take_digits (l : text) : text * text :=
  match l with
  | c :: r => if is_digit c then let '(ds, rest) := take_digits r in (c :: ds, rest) else ([], l)
  | [] => ([], [])
  end.

(** A zero, or digits that do not start with one; not followed by a fraction or an exponent. *)
Definition read_natural (l : text) : option (N * text) :=
  let '(ds, rest) :=
    match l with
    | c :: r => if (ord c =? 48)%N then ([c], r) else take_digits l
    | [] => ([], [])
    end in
  match ds, rest with
  | [], _ => None
  | _, c :: _ => if ((ord c =? 46) || (ord c =? 101) || (ord c =? 69))%N then None else Some (digits_N ds, rest)
  | _, [] => Some (digits_N ds, rest)
  end.

Definition read_int (l : text) : option (Z * text) :=
  match l with
  | c :: r =>
      if (ord c =? 45)%N then match read_natural r with Some (n, rest) => Some (- Z.of_N n, rest) | None => None end
      else match read_natural l with Some (n, rest) => Some (Z.of_N n, rest) | None => None end
  | [] => None
  end.

(** ** Values *)

(** What is left of [l] after the literal [w]. *)
Fixpoint after (w l : text) : option text :=
  match w, l with
  | [], _ => Some l
  | c :: w', d :: l' => if Ascii.eqb c d then after w' l' else None
  | _, [] => None
  end.

Definition read_literal (l : text) : option (json * text) :=
  match after (txt "null") l, after (txt "true") l, after (txt "false") l with
  | Some r, _, _ => Some (JNull, r)
  | _, Some r, _ => Some (JBool true, r)
  | _, _, Some r => Some (JBool false, r)
  | _, _, _ => None
  end.

(** One value; the elements of an array and the members of an object after those
    already read.  Every call consumes a character, so the length of the text is
    enough fuel. *)
Fixpoint read_value (n : nat) (l : text) : option (json * text) :=
  match n, l with
  | S n, c :: r =>
      if (ord c =? 34)%N then match read_string l with Some (s, rest) => Some (JStr s, rest) | None => None end
      else if (ord c =? 91)%N then
        match skip_space r with
        | d :: rest => if (ord d =? 93)%N then Some (JArr [], rest) else read_elements n [] (d :: rest)
        | [] => None
        end
      else if (ord c =? 123)%N then
        match skip_space r with
        | d :: rest => if (ord d =? 125)%N then Some (JObj [], rest) else read_members n [] (d :: rest)
        | [] => None
        end
      else if (ord c =? 45)%N || is_digit c then match read_int l with Some (z, rest) => Some (JInt z, rest) | None => None end
      else read_literal l
  | _, _ => None
  end
with read_elements (n : nat) (acc : list json) (l : text) : option (json * text) :=
  match n with
  | O => None
  | S n =>
      match read_value n l with
      | Some (v, rest) =>
          match skip_space rest with
          | d :: rest => if (ord d =? 93)%N then Some (JArr (acc ++ [v]), rest)
                         else if (ord d =? 44)%N then read_elements n (acc ++ [v]) (skip_space rest) else None
          | [] => None
          end
      | None => None
      end
  end
with read_members (n : nat) (acc : list (string * json)) (l : text) : option (json * text) :=
  match n with
  | O => None
  | S n =>
      match read_string l with
      | Some (k, rest) =>
          match skip_space rest with
          | d :: rest =>
              if (ord d =? 58)%N then
                match read_value n (skip_space rest) with
                | Some (v, rest) =>
                    match skip_space rest with
                    | d :: rest => if (ord d =? 125)%N then Some (JObj (dict_set acc k v), rest)
                                   else if (ord d =? 44)%N then read_members n (dict_set acc k v) (skip_space rest) else None
                    | [] => None
                    end
                | None => None
                end
              else None
          | [] => None
          end
      | None => None
      end
  end.

Definition read_json (l : text) : option json :=
  let l := skip_space l in
  match read_value (S (length l)) l with
  | Some (j, rest) => match skip_space rest with [] => Some j | _ => None end
  | None => None
  end.

(** [json.loads(text)]; JSONDecodeError is a ValueError. *)
Definition loads (l : text) : result json :=
  match read_json l with Some j => Ok j | None => Err (Raise ValueError "JSONDecodeError") end.

(** * Reading back what was written *)

(** Every object has each key once, as a dict does. *)
Fixpoint well_keyed (j : json) : bool :=
  match j with
  | JArr l => forallb well_keyed l
  | JObj l => bool_decide (NoDup (map fst l)) && forallb (fun kv => well_keyed (snd kv)) l
  | _ => true
  end.

(** What may follow a number. *)
Definition number_stop (r : text) : Prop :=
  match r with [] => True | c :: _ => is_digit c = false /\ ord c <> 46%N /\ ord c <> 101%N /\ ord c <> 69%N end.

Lemma number_stop_weak r : number_stop r -> stop r.
Proof. destruct r; [done|]. by intros [H _]. Qed.

Lemma take_digits_app ds r : forallb is_digit ds = true -> stop r -> take_digits (ds ++ r) = (ds, r).
Proof.
  intros Hd Hr. induction ds as [|c ds IH]; cbn [app take_digits].
  - destruct r as [|c r]; [done|]. cbn [take_digits]. cbn [stop] in Hr. by rewrite Hr.
  - cbn [forallb] in Hd. apply andb_true_iff in Hd as [Hc Hd]. by rewrite Hc, IH.
Qed.

(** No leading zero. *)
Lemma digits_of_zero_head n c l : digits_of n = c :: l -> ord c = 48%N -> l = [].
Proof.
  intros E Hc. destruct (digits_of_spec n) as (Hd & Hv & Hl). rewrite E in Hd, Hv, Hl. destruct l as [|d l]; [done|]. exfalso.
  cbn [forallb] in Hd. apply andb_true_iff in Hd as [_ Hd]. rewrite digits_N_cons in Hv. unfold digit_val in Hv at 1. rewrite Hc in Hv.
  assert (n = digits_N (d :: l)) as Hn by lia. assert (ndigits n <= N.of_nat (length (d :: l)))%N as Hle.
  { apply ndigits_le; [simpl; lia|]. rewrite Hn. by apply digits_N_lt. }
  cbn [length] in Hl, Hle. lia.
Qed.

Lemma read_natural_digits n r : number_stop r -> read_natural (digits_of n ++ r) = Some (n, r).
Proof.
  intros Hr. destruct (digits_of_spec n) as (Hd & Hv & _). destruct (digits_of_head n) as (c & l & E & Hc). pose proof (digits_of_zero_head n c l E) as Hz.
  unfold read_natural. rewrite E in *. cbn [app].
  assert ((if (ord c =? 48)%N then ([c], l ++ r) else take_digits (c :: l ++ r)) = (c :: l, r)) as ->.
  { destruct (N.eqb_spec (ord c) 48) as [E0|E0]; [by rewrite (Hz E0)|]. change (c :: l ++ r) with ((c :: l) ++ r). apply take_digits_app; [done|]. by apply number_stop_weak. }
  rewrite Hv. destruct r as [|d r]; [done|]. destruct Hr as (_ & H1 & H2 & H3). by rewrite !(proj2 (N.eqb_neq _ _)) by done.
Qed.

Lemma digit_not c : is_digit c = true -> (ord c =? 34)%N = false /\ (ord c =? 91)%N = false /\ (ord c =? 123)%N = false /\ (ord c =? 45)%N = false.
Proof. unfold is_digit. rewrite andb_true_iff, !N.leb_le, !N.eqb_neq. lia. Qed.

Lemma read_int_dumps z r : number_stop r -> read_int (json_int z ++ r) = Some (z, r).
Proof.
  intros Hr. unfold json_int. destruct (Z.ltb_spec z 0) as [H|H].
  - cbn [app read_int]. change ((ord minus_sign =? 45)%N) with true. cbn beta iota. rewrite (read_natural_digits _ _ Hr). do 2 f_equal. lia.
  - destruct (digits_of_head (Z.abs_N z)) as (c & l & E & Hc). pose proof (read_natural_digits (Z.abs_N z) r Hr) as Hn. rewrite E in *.
    cbn [app read_int] in *. destruct (digit_not c Hc) as (_ & _ & _ & ->). rewrite Hn. do 2 f_equal. lia.
Qed.

Lemma read_chars_chr c l : read_chars (json_chr c ++ l) = match read_chars l with Some (s, rest) => Some (c :: s, rest) | None => None end.
Proof. destruct c as [[] [] [] [] [] [] [] []]; reflexivity. Qed.

Lemma read_chars_dumps s r : read_chars (concat (map json_chr s) ++ quote :: r) = Some (s, r).
Proof. induction s as [|c s IH]; [done|]. cbn [map concat]. by rewrite <- app_assoc, read_chars_chr, IH. Qed.

Lemma read_string_dumps s r : read_string (json_string s ++ r) = Some (s, r).
Proof.
  unfold json_string. cbn [app read_string]. change ((ord quote =? 34)%N) with true. cbn beta iota. rewrite <- app_assoc. cbn [app].
  by rewrite read_chars_dumps, str_txt.
Qed.

(** The first character of a text is not a space. *)
Definition solid (l : text) : Prop := match l with c :: _ => is_space c = false | [] => True end.
Lemma skip_solid l : solid l -> skip_space l = l.
Proof. destruct l as [|c l]; [done|]. cbn. by intros ->. Qed.

Lemma digit_solid c : is_digit c = true -> is_space c = false.
Proof. unfold is_digit, is_space. rewrite andb_true_iff, !N.leb_le, !orb_false_iff, !N.eqb_neq. lia. Qed.

Lemma dumps_solid j r : solid (json_dumps j ++ r).
Proof.
  destruct j as [|[]|z|s|l|l]; try done. cbn [json_dumps]. unfold json_int. destruct (digits_of_head (Z.abs_N z)) as (c & l & -> & Hc).
  destruct (z <? 0); [done|]. cbn. by apply digit_solid.
Qed.

Lemma dict_set_fresh {A} (l : list (string * A)) k v : k ∉ map fst l -> dict_set l k v = l ++ [(k, v)].
Proof.
  intros H. unfold dict_set. destruct (existsb _ l) eqn:E; [|done]. exfalso. apply existsb_exists in E as ([k' x] & Hin & E).
  apply String.eqb_eq in E. cbn in E. subst k'. apply H. apply list_elem_of_fmap. exists (k, x). split; [done|]. by apply list_elem_of_In.
Qed.

(** [j] is read back in front of anything that cannot continue a number. *)
Definition read_back (j : json) : Prop := forall n r, number_stop r -> (length (json_dumps j) <= n)%nat ->
  read_value n (json_dumps j ++ r) = Some (jnorm j, r).

Lemma after_comma x m r : exists rest, concat (map (fun y => ","%char :: y) (x :: m)) ++ r = ","%char :: rest /\ rest = x ++ concat (map (fun y => ","%char :: y) m) ++ r.
Proof. eexists. split; [|reflexivity]. cbn [map concat app]. by rewrite <- app_assoc. Qed.

Lemma closed_stop c m r : number_stop (c :: r) -> number_stop (concat (map (fun y => ","%char :: y) m) ++ c :: r).
Proof. intros H. destruct m as [|x m]; [exact H|]. destruct (after_comma x m (c :: r)) as (rest & -> & _). split; [done|]. by split; [|split]. Qed.

Lemma elements_back l : forall x acc n r, Forall read_back (x :: l) ->
  (S (length (json_dumps x ++ concat (map (fun y => ","%char :: y) (map json_dumps l)))) <= n)%nat ->
  read_elements n acc (json_dumps x ++ concat (map (fun y => ","%char :: y) (map json_dumps l)) ++ "]"%char :: r)
  = Some (JArr (acc ++ map jnorm (x :: l)), r).
Proof.
  induction l as [|y l IH]; intros x acc n r H Hn; (destruct n as [|n]; [exfalso; lia|]); cbn [read_elements]; inversion H as [|? ? Hx Hl]; subst; rewrite length_app in Hn.
  - cbn [map concat app]. by rewrite Hx by (done || lia).
  - rewrite Hx; [|by apply closed_stop|lia]. destruct (after_comma (json_dumps y) (map json_dumps l) ("]"%char :: r)) as (rest & E & ->).
    change (map json_dumps (y :: l)) with (json_dumps y :: map json_dumps l). rewrite E.
    cbn [skip_space]. change (is_space ","%char) with false. change ((ord ","%char =? 93)%N) with false. change ((ord ","%char =? 44)%N) with true. cbn beta iota.
    rewrite skip_solid by apply dumps_solid. cbn [map concat] in Hn. rewrite length_app in Hn. cbn [length] in Hn. rewrite IH; [|done|rewrite length_app; lia]. cbn [map]. by rewrite <- app_assoc.
Qed.

Definition norm_item (kv : string * json) : string * json := (fst kv, jnorm (snd kv)).

Lemma members_back l : forall kv acc n r, Forall (fun kv => read_back (snd kv)) (kv :: l) -> NoDup (map fst (acc ++ kv :: l)) ->
  (S (length (enc_item kv ++ concat (map (fun y => ","%char :: y) (map enc_item l)))) <= n)%nat ->
  read_members n acc (enc_item kv ++ concat (map (fun y => ","%char :: y) (map enc_item l)) ++ "}"%char :: r)
  = Some (JObj (acc ++ map norm_item (kv :: l)), r).
Proof.
  induction l as [|x l IH]; intros [k v] acc n r H Hnd Hn; (destruct n as [|n]; [exfalso; lia|]); cbn [read_members]; inversion H as [|? ? Hx Hl]; subst; rewrite length_app in Hn.
  all: assert (k ∉ map fst acc) as Hk by (rewrite map_app in Hnd; apply NoDup_app in Hnd as (_ & Hd & _); intros Hin; apply (Hd k Hin); by apply list_elem_of_here).
  all: unfold enc_item at 1; cbn [fst snd] in *; rewrite <- app_assoc, read_string_dumps; cbn [app skip_space]; change (is_space ":"%char) with false; change ((ord ":"%char =? 58)%N) with true; cbn beta iota.
  all: rewrite skip_solid by apply dumps_solid; unfold enc_item in Hn at 1; cbn [fst snd] in Hn; rewrite length_app in Hn; cbn [length] in Hn.
  - cbn [map concat app]. rewrite Hx by (done || lia). cbn. by rewrite dict_set_fresh.
  - rewrite Hx; [|by apply closed_stop|lia]. destruct (after_comma (enc_item x) (map enc_item l) ("}"%char :: r)) as (rest & E & ->).
    change (map enc_item (x :: l)) with (enc_item x :: map enc_item l). rewrite E.
    cbn [skip_space]. change (is_space ","%char) with false. change ((ord ","%char =? 125)%N) with false. change ((ord ","%char =? 44)%N) with true. cbn beta iota.
    rewrite skip_solid by done. cbn [map concat] in Hn. rewrite length_app in Hn. cbn [length] in Hn. rewrite dict_set_fresh by done. rewrite IH.
    + cbn [map]. by rewrite <- app_assoc.
    + done.
    + rewrite <- app_assoc. rewrite map_app in Hnd |- *. exact Hnd.
    + rewrite length_app. lia.
Qed.

Lemma norm_keys l : map fst (map norm_item l) = map fst l.
Proof. rewrite map_map. by apply map_ext. Qed.

Lemma dumps_back j : well_keyed j = true -> read_back j.
Proof.
  induction j as [|b|z|s|l IH|l IH] using json_ind'; intros Hw n r Hr Hn.
  1-4: destruct n as [|n]; [exfalso; destruct b || idtac; cbn in Hn; unfold json_int, json_string in Hn; try (destruct (digits_of_head (Z.abs_N z)) as (? & ? & E & _); rewrite E in Hn; destruct (z <? 0)); cbn in Hn; lia|].
  - reflexivity.
  - by destruct b.
  - cbn [json_dumps jnorm]. pose proof (read_int_dumps z r Hr) as H. unfold json_int in *. destruct (z <? 0).
    + cbn [app read_value] in *. change ((ord minus_sign =? 34)%N) with false. change ((ord minus_sign =? 91)%N) with false. change ((ord minus_sign =? 123)%N) with false.
      change ((ord minus_sign =? 45)%N) with true. cbn [orb]. cbn beta iota. by rewrite H.
    + destruct (digits_of_head (Z.abs_N z)) as (c & l & E & Hc). rewrite E in *. cbn [app read_value] in *. destruct (digit_not c Hc) as (-> & -> & -> & E4).
      rewrite Hc, orb_true_r. by rewrite H.
  - pose proof (read_string_dumps s r) as H. cbn [json_dumps jnorm]. unfold json_string in *. cbn [app read_value] in *. change ((ord quote =? 34)%N) with true. cbn beta iota. by rewrite H.
  - cbn [well_keyed] in Hw. cbn [json_dumps jnorm] in *. destruct n as [|n]; [simpl in Hn; lia|]. cbn [app read_value].
    change ((ord "["%char =? 34)%N) with false. change ((ord "["%char =? 91)%N) with true. cbn beta iota. rewrite <- app_assoc. cbn [app].
    destruct l as [|x l]; [reflexivity|]. cbn [map join_comma] in *. rewrite <- app_assoc.
    rewrite skip_solid by apply dumps_solid. destruct (json_dumps_head x) as (c & t & Ec & Hc).
    pose proof (elements_back l x [] n r) as H. rewrite Ec in H |- *. cbn [app] in H |- *. rewrite (proj2 (N.eqb_neq (ord c) 93)) by (intros E; apply Hc; rewrite <- (ascii_N_embedding c); unfold ord in E; by rewrite E).
    apply H.
    + apply Forall_forall. intros y Hy. cbn [forallb] in Hw. assert (well_keyed y = true) as Hyw.
      { apply (proj1 (forallb_forall well_keyed (x :: l)) Hw). by apply list_elem_of_In. }
      rewrite Forall_forall in IH. exact (IH y Hy Hyw).
    + rewrite Ec in Hn. cbn [app length] in Hn. rewrite !length_app in Hn. cbn [length] in *. rewrite length_app. lia.
  - cbn [well_keyed] in Hw. apply andb_true_iff in Hw as [Hnd Hw]. apply bool_decide_eq_true in Hnd. rewrite json_dumps_obj in Hn |- *.
    cbn [jnorm]. change (fun kv : string * json => (fst kv, jnorm (snd kv))) with norm_item. 
    assert (sort_items (map norm_item l) = map norm_item (sort_items l)) as -> by apply (sort_items_map jnorm).
    assert (Forall (fun kv => read_back (snd kv)) (sort_items l)) as Hb.
    { apply sort_items_Forall. apply Forall_forall. intros kv Hkv. rewrite Forall_forall in IH. apply (IH kv Hkv).
      apply (proj1 (forallb_forall (fun kv => well_keyed (snd kv)) l) Hw). by apply list_elem_of_In. }
    assert (NoDup (map fst (sort_items l))) as Hs by (by rewrite (Permutation_map fst (sort_items_perm l))).
    revert Hn Hb Hs. generalize (sort_items l). clear. intros l Hn Hb Hs. destruct n as [|n]; [simpl in Hn; lia|]. cbn [app read_value].
    change ((ord "{"%char =? 34)%N) with false. change ((ord "{"%char =? 91)%N) with false. change ((ord "{"%char =? 123)%N) with true. cbn beta iota. rewrite <- app_assoc. cbn [app].
    destruct l as [|x l]; [reflexivity|]. cbn [map join_comma] in *. rewrite <- app_assoc. rewrite skip_solid by done.
    assert (S (length (enc_item x ++ concat (map (fun y => ","%char :: y) (map enc_item l)))) <= n)%nat as Hlen.
    { cbn [length] in Hn. rewrite length_app in Hn. cbn [length] in Hn. lia. }
    pose proof (members_back l x [] n r Hb Hs Hlen) as H. unfold enc_item at 1 in H. unfold enc_item at 1. unfold json_string at 1 in H. unfold json_string at 1.
    cbn [app] in H |- *. change ((ord quote =? 125)%N) with false. exact H.
Qed.

(** [json.loads(json.dumps(j) + newline)] is [j], its keys in order. *)
Lemma read_json_dumps j e : well_keyed j = true -> Forall (fun c => is_space c = true) e -> read_json (json_dumps j ++ e) = Some (jnorm j).
Proof.
  intros Hw He. assert (skip_space e = []) as Hs by (clear - He; induction He as [|c e Hc _ IH]; [done|cbn; by rewrite Hc]).
  unfold read_json. rewrite skip_solid by apply dumps_solid. rewrite dumps_back; [by rewrite Hs|done| |rewrite length_app; lia].
  destruct He as [|c e Hc _]; [done|]. unfold is_space in Hc. cbn. rewrite !orb_true_iff, !N.eqb_eq in Hc. unfold is_digit. rewrite andb_false_iff, !N.leb_gt. lia.
Qed.
