(* ===== verification/Market.v ===== *)
(** * The market data contract (yatl/data/config.py, yatl/data/models.py)

    The fixed markets and intervals, and the [Candle] record whose
    constructor rejects every value outside the contract.  A Python object
    is its field record; [__post_init__] is a function that returns or
    raises, and "the object exists" is [candle_valid]. *)
From S2P Require Import Prelude PyDecimal PyText.

(** ** yatl/data/config.py *)
Definition DATA_SOURCE : string := "BINANCE_SPOT_PUBLIC".
Definition SYMBOLS : list string := ["BTCUSDT"; "ETHUSDT"]%string.
Definition INTERVAL_MILLISECONDS : list (string * Z) :=
  [("15m"%string, 15 * 60 * 1000); ("1h"%string, 60 * 60 * 1000); ("4h"%string, 4 * 60 * 60 * 1000)].

(** [INTERVAL_MILLISECONDS.get(interval)] *)
Definition interval_ms (i : string) : option Z :=
  match find (fun kv => String.eqb i (fst kv)) INTERVAL_MILLISECONDS with
  | Some kv => Some (snd kv)
  | None => None
  end.

(** ** yatl/data/models.py *)
Definition _decimal (value field : string) (allow_zero : bool) : result dec :=
  raise_if negb (decimal_pattern value)
    with CandleValidationError (String.append field " must be a plain non-negative decimal string") ;;
  let* number := rcatch (Decimal value) [ArithmeticTrap] (Raise CandleValidationError (String.append field " is invalid")) in
  raise_if dltb number dec0 || (negb allow_zero && deqb number dec0)
    with CandleValidationError (String.append field " is outside the allowed range") ;;
  Ok number.

Record candle : Type := Candle {
  source : string;
  symbol : string;
  interval : string;
  open_time_ms : Z;
  close_time_ms : Z;
  open : string;
  high : string;
  low : string;
  close : string;
  base_volume : string;
  quote_volume : string;
  trade_count : Z;
  is_closed : bool;
}.

#[global] Instance candle_eq_dec : EqDecision candle.
Proof. solve_decision. Defined.

Definition candle_post_init (c : candle) : result unit :=
  raise_if negb (String.eqb (source c) DATA_SOURCE) with CandleValidationError "Unsupported candle source" ;;
  raise_if negb (str_in (symbol c) SYMBOLS) with CandleValidationError "Unsupported candle symbol" ;;
  match interval_ms (interval c) with
  | None => Err (Raise CandleValidationError "Unsupported candle interval")
  | Some duration =>
      raise_if open_time_ms c <? 0
        with CandleValidationError "Candle timestamps must be non-negative integers" ;;
      raise_if negb (open_time_ms c mod duration =? 0)
        with CandleValidationError "Candle open timestamp is not interval-aligned UTC" ;;
      raise_if negb (close_time_ms c =? open_time_ms c + duration - 1)
        with CandleValidationError "Candle close timestamp does not match its interval" ;;
      raise_if trade_count c <? 0
        with CandleValidationError "Trade count must be a non-negative integer" ;;
      let* opened := _decimal (open c) "open" false in
      let* high_ := _decimal (high c) "high" false in
      let* low_ := _decimal (low c) "low" false in
      let* closed := _decimal (close c) "close" false in
      do* _decimal (base_volume c) "base_volume" true ;;
      do* _decimal (quote_volume c) "quote_volume" true ;;
      raise_if negb (dleb low_ (dmin opened closed) && dleb (dmin opened closed) (dmax opened closed)
                     && dleb (dmax opened closed) high_)
        with CandleValidationError "Candle OHLC values are inconsistent" ;;
      Ok tt
  end.

(** [Candle(...)] *)
Definition new_candle (c : candle) : result candle := do* candle_post_init c ;; Ok c.
Definition candle_valid (c : candle) : Prop := candle_post_init c = Ok tt.

(** [Candle.key] *)
Definition candle_key (c : candle) : string * string * string * Z :=
  (source c, symbol c, interval c, open_time_ms c).

(** * Properties *)

Lemma interval_ms_pos i d : interval_ms i = Some d -> 0 < d.
Proof. unfold interval_ms. simpl. repeat case_match; naive_solver. Qed.

(** The decimal a validated string denotes. *)
Definition denotes (s : string) (d : dec) : Prop := Decimal s = Ok d /\ plain_range false d /\ format_f d = s.

Lemma plain_nonneg d : plain_range false d -> (0 <= dval d)%Q.
Proof.
  intros (Hn & _). unfold dval, sval. rewrite Hn. apply Qmult_le_0_compat; [|by apply Qlt_le_weak].
  change 0%Q with (inject_Z 0). rewrite <- Zle_Qle. lia.
Qed.

Lemma plain_rep neg d : plain_range neg d -> rep 40 40 (dval d).
Proof. intros (_ & _ & H). by apply rep_dval. Qed.

Lemma _decimal_ok value field z d : _decimal value field z = Ok d ->
  denotes value d /\ (0 <= dval d)%Q /\ (z = false -> (0 < dval d)%Q).
Proof.
  unfold _decimal. intros H. res_inv. subst. apply negb_false_iff in Hc.
  destruct (decimal_pattern_spec _ Hc) as (d' & E & Hpl & Hf). rewrite E in Hr. injection Hr as ->.
  apply orb_false_iff in Hc0 as [_ Hz]. pose proof (plain_nonneg _ Hpl) as H0.
  split; [done|]. split; [done|]. intros ->. simpl in Hz.
  apply deqb_false in Hz. rewrite dval_0 in Hz.
  destruct (Qle_lt_or_eq _ _ H0) as [|E0]; [done|]. by symmetry in E0.
Qed.

Lemma dmin_spec a b : (dval (dmin a b) <= dval a)%Q /\ (dval (dmin a b) <= dval b)%Q.
Proof. unfold dmin. destruct (dltb b a) eqn:E; bool_prop; split; lra. Qed.
Lemma dmax_spec a b : (dval a <= dval (dmax a b))%Q /\ (dval b <= dval (dmax a b))%Q.
Proof. unfold dmax. destruct (dltb a b) eqn:E; bool_prop; split; lra. Qed.

(** Everything a constructed candle guarantees. *)
Record candle_facts (c : candle) : Prop := {
  cf_source : source c = DATA_SOURCE;
  cf_symbol : symbol c ∈ SYMBOLS;
  cf_interval : exists duration, interval_ms (interval c) = Some duration
    /\ open_time_ms c mod duration = 0 /\ close_time_ms c = open_time_ms c + duration - 1;
  cf_open_time : 0 <= open_time_ms c;
  cf_trades : 0 <= trade_count c;
  cf_prices : exists o h l cl,
    denotes (open c) o /\ denotes (high c) h /\ denotes (low c) l /\ denotes (close c) cl
    /\ (0 < dval l)%Q
    /\ (dval l <= dval o <= dval h)%Q /\ (dval l <= dval cl <= dval h)%Q;
  cf_volumes : exists b q, denotes (base_volume c) b /\ denotes (quote_volume c) q
    /\ (0 <= dval b)%Q /\ (0 <= dval q)%Q;
}.

Lemma candle_valid_facts c : candle_valid c -> candle_facts c.
Proof.
  unfold candle_valid, candle_post_init. intros H. res_inv. bool_prop.
  destruct (interval_ms (interval c)) as [duration|] eqn:Ei; [|done]. res_inv. bool_prop.
  repeat match goal with Hd : _decimal _ _ _ = Ok _ |- _ => apply _decimal_ok in Hd as (? & ? & ?) end.
  repeat match goal with Hd : _ /\ _ |- _ => destruct Hd end.
  pose proof (dmin_spec a a2) as [? ?]. pose proof (dmax_spec a a2) as [? ?].
  apply str_in_spec in Hc0.
  constructor; try done.
  - by exists duration.
  - exists a, a0, a1, a2.
    repeat match goal with Hf : false = false -> _ |- _ => specialize (Hf eq_refl) end.
    do 4 (split; [assumption|]). lra.
  - exists a3, a4. do 3 (split; [assumption|]). assumption.
Qed.

(** Open and close are the two candle extremes' neighbours. *)
Lemma candle_low_high c o h l cl : candle_valid c ->
  Decimal (open c) = Ok o -> Decimal (high c) = Ok h -> Decimal (low c) = Ok l -> Decimal (close c) = Ok cl ->
  (0 < dval l <= dval o)%Q /\ (dval o <= dval h)%Q /\ (dval l <= dval cl <= dval h)%Q.
Proof.
  intros Hv Eo Eh El Ecl. apply candle_valid_facts in Hv as [].
  destruct cf_prices0 as (o' & h' & l' & cl' & (E1 & _) & (E2 & _) & (E3 & _) & (E4 & _) & H0 & H1 & H2).
  rewrite E1 in Eo. rewrite E2 in Eh. rewrite E3 in El. rewrite E4 in Ecl. simplify_eq. lra.
Qed.
