(* ===== verification/BacktestConfig.v ===== *)
(** * The backtest specification (yatl/backtest/config.py)

    The immutable policy of a simulation: the range, the cash and the cost
    rates, and the safety switches that the constructor pins. *)
From S2P Require Import Prelude PyDecimal PyText Market.

Definition PRIMARY_INTERVAL : string := "1h".
Definition REGIME_INTERVAL : string := "4h".
Definition CONTEXT_INTERVAL : string := "15m".
Definition EXECUTION_PRICE_POLICY : string := "NEXT_PRIMARY_OPEN".
Definition MAX_COST_BPS : dec := dec_of_Z 1000.
Definition MAX_INITIAL_CASH : dec := dec_of_Z 1000000000000000.
Definition MAX_PRIMARY_CANDLES : Z := 100000.
(** [INTERVAL_MILLISECONDS[PRIMARY_INTERVAL]] *)
Definition HOUR_MS : Z := 60 * 60 * 1000.

Definition _bounded_decimal (value field : string) (positive : bool) (maximum : option dec) : result dec :=
  raise_if negb (decimal_pattern value)
    with BacktestConfigError (String.append field " must be a plain decimal string") ;;
  let* number := rcatch (Decimal value) [ArithmeticTrap] (Raise BacktestConfigError (String.append field " is invalid")) in
  raise_if dltb number dec0 || (positive && deqb number dec0)
           || match maximum with Some m => dltb m number | None => false end
    with BacktestConfigError (String.append field " is outside the allowed range") ;;
  Ok number.

Record backtest_spec : Type := BacktestSpec {
  bs_symbol : string;
  start_time_ms : Z;
  end_time_ms : Z;
  initial_cash : string;
  fee_bps : string;
  slippage_bps : string;
  seed : Z;
  paper_only : bool;
  live_master_lock : string;
  spot_only : bool;
  allow_short : bool;
  allow_leverage : bool;
  execution_price_policy : string;
}.

#[global] Instance backtest_spec_eq_dec : EqDecision backtest_spec.
Proof. solve_decision. Defined.

(** [BacktestSpec(symbol, start, end)] with the defaults of the dataclass. *)
Definition default_spec (sym : string) (s e : Z) : backtest_spec :=
  BacktestSpec sym s e "10000" "10" "5" 0 true "OFF" true false false EXECUTION_PRICE_POLICY.

Definition spec_post_init (s : backtest_spec) : result unit :=
  raise_if negb (str_in (bs_symbol s) SYMBOLS) with BacktestConfigError "Backtest symbol is not approved" ;;
  raise_if (start_time_ms s <? 0) || (end_time_ms s <=? start_time_ms s)
           || negb (start_time_ms s mod HOUR_MS =? 0) || negb (end_time_ms s mod HOUR_MS =? 0)
           || (MAX_PRIMARY_CANDLES <? (end_time_ms s - start_time_ms s) / HOUR_MS)
    with BacktestConfigError "Backtest range must be a non-empty aligned 1h range" ;;
  do* _bounded_decimal (initial_cash s) "initial_cash" true (Some MAX_INITIAL_CASH) ;;
  do* _bounded_decimal (fee_bps s) "fee_bps" false (Some MAX_COST_BPS) ;;
  do* _bounded_decimal (slippage_bps s) "slippage_bps" false (Some MAX_COST_BPS) ;;
  raise_if (seed s <? 0) || (2 ^ 32 - 1 <? seed s) with BacktestConfigError "Backtest seed is invalid" ;;
  raise_if negb (paper_only s) || negb (String.eqb (live_master_lock s) "OFF") || negb (spot_only s)
           || allow_short s || allow_leverage s
           || negb (String.eqb (execution_price_policy s) EXECUTION_PRICE_POLICY)
    with BacktestConfigError "Backtest safety policy is invalid" ;;
  Ok tt.

Definition new_spec (s : backtest_spec) : result backtest_spec := do* spec_post_init s ;; Ok s.
Definition spec_valid (s : backtest_spec) : Prop := spec_post_init s = Ok tt.

Definition cash_decimal (s : backtest_spec) : result dec := Decimal (initial_cash s).
Definition fee_bps_decimal (s : backtest_spec) : result dec := Decimal (fee_bps s).
Definition slippage_bps_decimal (s : backtest_spec) : result dec := Decimal (slippage_bps s).

(** * Properties *)

Lemma _bounded_decimal_ok value field pos m d :
  _bounded_decimal value field pos (Some m) = Ok d ->
  denotes value d /\ (0 <= dval d)%Q /\ (pos = true -> (0 < dval d)%Q) /\ (dval d <= dval m)%Q.
Proof.
  unfold _bounded_decimal. intros H. res_inv. subst. apply negb_false_iff in Hc.
  destruct (decimal_pattern_spec _ Hc) as (d' & E & Hpl & Hf). rewrite E in Hr. injection Hr as ->.
  rewrite !orb_false_iff in Hc0. destruct Hc0 as [[_ Hz] Hm]. pose proof (plain_nonneg _ Hpl) as H0.
  split; [done|]. split; [done|]. split; [|by apply dltb_false].
  intros ->. simpl in Hz. apply deqb_false in Hz. rewrite dval_0 in Hz.
  destruct (Qle_lt_or_eq _ _ H0) as [|E0]; [done|]. by symmetry in E0.
Qed.

(** Everything a constructed specification guarantees. *)
Record spec_facts (s : backtest_spec) : Prop := {
  sf_symbol : bs_symbol s ∈ SYMBOLS;
  sf_start : 0 <= start_time_ms s < end_time_ms s;
  sf_aligned : start_time_ms s mod HOUR_MS = 0 /\ end_time_ms s mod HOUR_MS = 0;
  sf_count : (end_time_ms s - start_time_ms s) / HOUR_MS <= MAX_PRIMARY_CANDLES;
  sf_money : exists cash fee slip,
    cash_decimal s = Ok cash /\ fee_bps_decimal s = Ok fee /\ slippage_bps_decimal s = Ok slip
    /\ plain_range false cash /\ plain_range false fee /\ plain_range false slip
    /\ (0 < dval cash <= 1000000000000000)%Q /\ (0 <= dval fee <= 1000)%Q /\ (0 <= dval slip <= 1000)%Q;
  sf_safety : paper_only s = true /\ live_master_lock s = "OFF"%string /\ spot_only s = true
    /\ allow_short s = false /\ allow_leverage s = false;
}.

Lemma spec_valid_facts s : spec_valid s -> spec_facts s.
Proof.
  unfold spec_valid, spec_post_init. intros H. res_inv.
  rewrite !orb_false_iff in *. bool_prop.
  repeat match goal with Hd : _bounded_decimal _ _ _ _ = Ok _ |- _ =>
    apply _bounded_decimal_ok in Hd as ((? & ? & _) & ? & ? & ?) end.
  repeat match goal with Hd : _ /\ _ |- _ => destruct Hd end.
  apply str_in_spec in Hc.
  constructor; try done.
  exists a, a0, a1. unfold cash_decimal, fee_bps_decimal, slippage_bps_decimal.
  repeat match goal with Hf : true = true -> _ |- _ => specialize (Hf eq_refl) end.
  assert (dval MAX_INITIAL_CASH == 1000000000000000)%Q as E1 by reflexivity.
  assert (dval MAX_COST_BPS == 1000)%Q as E2 by reflexivity.
  rewrite E1, E2 in *.
  do 6 (split; [assumption|]). lra.
Qed.
