(* ===== verification/MarketView.v ===== *)
(** * Point-in-time market views

    yatl/backtest/models.py ([MarketSnapshot]), the in-memory part of
    yatl/backtest/loader.py (row validation, range gates, [snapshot_at]) and
    yatl/backtest/clock.py.  The rows the SQLite query returns and the parsed
    manifest reports are inputs; the file and database access around them is
    not modelled. *)
From S2P Require Import Prelude PyDecimal PyText Market BacktestConfig.

(** ** yatl/backtest/models.py *)

Fixpoint history_loop (sym ivl : string) (duration t : Z) (previous : option Z) (candles : list candle)
    : result unit :=
  match candles with
  | [] => Ok tt
  | c :: rest =>
      raise_if negb (String.eqb (source c) DATA_SOURCE) || negb (String.eqb (symbol c) sym)
               || negb (String.eqb (interval c) ivl) || negb (is_closed c)
        with BacktestContractError (String.append ivl " history identity or state is invalid") ;;
      raise_if t <=? close_time_ms c
        with BacktestContractError "Future or still-open candle reached the decision" ;;
      raise_if match previous with Some p => negb (open_time_ms c =? p + duration) | None => false end
        with BacktestContractError (String.append ivl " history is not contiguous and ordered") ;;
      history_loop sym ivl duration t (Some (open_time_ms c)) rest
  end.

Definition _validate_history (candles : list candle) (sym ivl : string) (t : Z) : result unit :=
  match last candles, interval_ms ivl with
  | None, _ => Err (Raise BacktestContractError (String.append ivl " history must be a non-empty tuple"))
  | Some _, None => Err (Raise KeyError ivl)
  | Some newest, Some duration =>
      let expected_last_open := (t / duration) * duration - duration in
      do* history_loop sym ivl duration t None candles ;;
      raise_if negb (open_time_ms newest =? expected_last_open)
        with BacktestContractError (String.append ivl " history is stale at the decision time") ;;
      Ok tt
  end.

Record market_snapshot : Type := MarketSnapshot {
  ms_symbol : string;
  ms_decision_time_ms : Z;
  primary : list candle;
  context : list candle;
  regime : list candle;
}.

#[global] Instance market_snapshot_eq_dec : EqDecision market_snapshot.
Proof. solve_decision. Defined.

Definition snapshot_post_init (s : market_snapshot) : result unit :=
  raise_if (ms_decision_time_ms s <=? 0) || negb (ms_decision_time_ms s mod HOUR_MS =? 0)
    with BacktestContractError "Decision time must be an aligned 1h boundary" ;;
  do* _validate_history (primary s) (ms_symbol s) PRIMARY_INTERVAL (ms_decision_time_ms s) ;;
  do* _validate_history (context s) (ms_symbol s) CONTEXT_INTERVAL (ms_decision_time_ms s) ;;
  _validate_history (regime s) (ms_symbol s) REGIME_INTERVAL (ms_decision_time_ms s).

Definition new_snapshot (s : market_snapshot) : result market_snapshot := do* snapshot_post_init s ;; Ok s.
Definition snapshot_valid (s : market_snapshot) : Prop := snapshot_post_init s = Ok tt.

(** [candles[-1]]; a validated history is never empty. *)
Definition last_candle (l : list candle) : result candle :=
  match last l with Some c => Ok c | None => Err (Raise IndexError "tuple index out of range") end.
Definition latest_primary (s : market_snapshot) : result candle := last_candle (primary s).
Definition latest_context (s : market_snapshot) : result candle := last_candle (context s).
Definition latest_regime (s : market_snapshot) : result candle := last_candle (regime s).

(** ** yatl/backtest/loader.py *)

Definition INTERVALS : list string := [PRIMARY_INTERVAL; CONTEXT_INTERVAL; REGIME_INTERVAL].
Definition MAX_LOADED_ROWS : Z := 100000.

(** The fields of one manifest report the loader reads. *)
Record dataset_report : Type := DatasetReport {
  dr_symbol : string;
  dr_interval : string;
  requested_start_time_ms : Z;
  requested_end_time_ms : Z;
  total_rows : Z;
}.

(** The [SELECT ... WHERE ... ORDER BY open_time_ms] of [_read_rows] over the
    rows of the [candles] table; [is_closed] is the 0/1 column as a boolean. *)
Definition select_rows (report : dataset_report) (table : list candle) : list candle :=
  sort_by open_time_ms
    (filter (fun c => source c = DATA_SOURCE /\ symbol c = dr_symbol report
                      /\ interval c = dr_interval report
                      /\ requested_start_time_ms report <= open_time_ms c
                      /\ open_time_ms c < requested_end_time_ms report) table).

Definition _read_rows (table : list candle) (report : dataset_report) : result (list candle) :=
  let rows := select_rows report table in
  raise_if negb (Z.of_nat (length rows) =? total_rows report) || (MAX_LOADED_ROWS <? Z.of_nat (length rows))
    with BacktestLoadError "Database and accepted manifest row counts differ" ;;
  let* candles := rmap (fun row =>
    let* c := rcatch (new_candle row) [CandleValidationError]
      (Raise BacktestLoadError "Database row violates the canonical candle contract") in
    raise_if negb (is_closed c) with BacktestLoadError "Accepted backtest data contains an open candle" ;;
    Ok c) rows in
  match interval_ms (dr_interval report) with
  | None => Err (Raise KeyError (dr_interval report))
  | Some duration =>
      raise_if negb (bool_decide (map open_time_ms candles
                 = py_range (requested_start_time_ms report) (requested_end_time_ms report) duration))
        with BacktestLoadError "Database candle coverage differs from the accepted manifest" ;;
      Ok candles
  end.

Record accepted_dataset : Type := AcceptedBacktestDataset {
  ds_spec : backtest_spec;
  manifest_generated_at_ms : Z;
  ds_primary : list candle;
  ds_context : list candle;
  ds_regime : list candle;
}.

Definition visible (t : Z) (l : list candle) : list candle := filter (fun c => close_time_ms c < t) l.

Definition snapshot_at (ds : accepted_dataset) (t : Z) : result market_snapshot :=
  raise_if negb ((start_time_ms (ds_spec ds) <=? t) && (t <? end_time_ms (ds_spec ds)))
    with BacktestLoadError "Decision time is outside the backtest range" ;;
  rcatch (new_snapshot (MarketSnapshot (bs_symbol (ds_spec ds)) t
            (visible t (ds_primary ds)) (visible t (ds_context ds)) (visible t (ds_regime ds))))
    [BacktestContractError] (Raise BacktestLoadError "Point-in-time snapshot cannot be built safely").

(** [load_accepted_dataset] once the manifest is parsed and the database
    open: the symbol's reports, in the order of [INTERVALS], and the table. *)
Definition load_accepted_dataset (spec : backtest_spec) (generated_at : Z)
    (rep_p rep_c rep_r : dataset_report) (table : list candle) : result accepted_dataset :=
  raise_if existsb (fun r => (start_time_ms spec <? requested_start_time_ms r)
                             || (requested_end_time_ms r <? end_time_ms spec)) [rep_p; rep_c; rep_r]
    with BacktestLoadError "Backtest range is outside the accepted dataset" ;;
  let* p := _read_rows table rep_p in
  let* c := _read_rows table rep_c in
  let* r := _read_rows table rep_r in
  Ok (AcceptedBacktestDataset spec generated_at p c r).

(** [latest_spec_from_manifest] on the symbol's reports. *)
Definition latest_spec_from_manifest (reports : list dataset_report) (sym : string) (hours : Z) : result backtest_spec :=
  raise_if negb ((1 <=? hours) && (hours <=? 24 * 365))
    with BacktestLoadError "Requested backtest hours are invalid" ;;
  match reports with
  | [] => Err (Raise BacktestLoadError "Accepted dataset coverage is incomplete")
  | r0 :: rest =>
      let earliest := fold_left Z.max (map requested_start_time_ms rest) (requested_start_time_ms r0) in
      let latest := fold_left Z.min (map requested_end_time_ms rest) (requested_end_time_ms r0) in
      let end_ := (latest / HOUR_MS) * HOUR_MS in
      let start := end_ - hours * HOUR_MS in
      raise_if start <? earliest + 4 * HOUR_MS
        with BacktestLoadError "Accepted dataset lacks the requested warmup range" ;;
      rcatch (new_spec (default_spec sym start end_)) [BacktestConfigError]
        (Raise BacktestLoadError "Accepted manifest cannot form a backtest range")
  end.

(** ** yatl/backtest/clock.py *)

Record decision_event : Type := DecisionEvent {
  ev_sequence : Z;
  ev_decision_time_ms : Z;
  eligible_fill_open_time_ms : Z;
  ev_snapshot : market_snapshot;
}.

Definition event_post_init (e : decision_event) : result unit :=
  raise_if (ev_sequence e <? 0) || (ev_decision_time_ms e <=? 0)
           || negb (ev_decision_time_ms e mod HOUR_MS =? 0)
           || negb (eligible_fill_open_time_ms e =? ev_decision_time_ms e)
           || negb (ms_decision_time_ms (ev_snapshot e) =? ev_decision_time_ms e)
    with BacktestClockError "Decision event violates the P2 clock contract" ;;
  Ok tt.
Definition new_event (e : decision_event) : result decision_event := do* event_post_init e ;; Ok e.
Definition event_valid (e : decision_event) : Prop := event_post_init e = Ok tt.

Definition event_count (ds : accepted_dataset) : Z :=
  (end_time_ms (ds_spec ds) - start_time_ms (ds_spec ds)) / HOUR_MS.

(** [enumerate(range(start, end, 1h))], one event per step. *)
Definition clock_events (ds : accepted_dataset) : result (list decision_event) :=
  let times := py_range (start_time_ms (ds_spec ds)) (end_time_ms (ds_spec ds)) HOUR_MS in
  rmap (fun st =>
    let* snapshot := rcatch (snapshot_at ds (snd st)) [BacktestLoadError]
      (Raise BacktestClockError "Clock could not build a legal point-in-time event") in
    new_event (DecisionEvent (Z.of_nat (fst st)) (snd st) (snd st) snapshot))
    (combine (seq 0 (length times)) times).

(** * Properties *)

(** Candles whose open times are [s], [s + d], [s + 2d], ... *)
Fixpoint opens_from (s d : Z) (l : list candle) : Prop :=
  match l with
  | [] => True
  | c :: l' => open_time_ms c = s /\ opens_from (s + d) d l'
  end.

Definition history_candle (sym ivl : string) (t : Z) (c : candle) : Prop :=
  source c = DATA_SOURCE /\ symbol c = sym /\ interval c = ivl /\ is_closed c = true /\ close_time_ms c < t.

Lemma history_loop_ok sym ivl d t prev l :
  history_loop sym ivl d t prev l = Ok tt <->
  Forall (history_candle sym ivl t) l
  /\ (match l with
      | [] => True
      | c :: _ => (match prev with Some p => open_time_ms c = p + d | None => True end)
                  /\ opens_from (open_time_ms c) d l
      end).
Proof.
  revert prev. induction l as [|c l IH]; intros prev; [simpl; split; auto|].
  cbn [history_loop]. rewrite !raise_if_ok, IH, Forall_cons, !orb_false_iff, !negb_false_iff,
    !String.eqb_eq, Z.leb_gt. unfold history_candle at 2.
  assert ((match prev with Some p => negb (open_time_ms c =? p + d) | None => false end) = false
          <-> match prev with Some p => open_time_ms c = p + d | None => True end) as ->.
  { destruct prev; [by rewrite negb_false_iff, Z.eqb_eq|done]. }
  generalize (match prev with Some p => open_time_ms c = p + d | None => True end). intros P.
  destruct l as [|c' l]; simpl; split; intros; destruct_and?; split_and!; first [done|congruence].
Qed.

(** What a validated history guarantees. *)
Record history_facts (sym ivl : string) (t : Z) (l : list candle) : Prop := {
  hf_candles : Forall (history_candle sym ivl t) l;
  hf_grid : exists d newest, interval_ms ivl = Some d /\ last l = Some newest
    /\ open_time_ms newest = t / d * d - d
    /\ match l with c :: _ => opens_from (open_time_ms c) d l | [] => True end;
}.

Lemma validate_history_ok l sym ivl t : _validate_history l sym ivl t = Ok tt <-> history_facts sym ivl t l.
Proof.
  unfold _validate_history. split.
  - destruct (last l) as [newest|] eqn:El; [|done]. destruct (interval_ms ivl) as [d|] eqn:Ed; [|done].
    intros H. res_inv. destruct a. apply history_loop_ok in Hr as [H1 H2]. bool_prop.
    constructor; [done|]. exists d, newest. split; [done|]. split; [done|]. split; [done|].
    by destruct l as [|c l']; [|destruct H2].
  - intros [H1 (d & newest & Ed & El & Hn & Hg)]. rewrite El, Ed.
    rewrite (proj2 (history_loop_ok sym ivl d t None l)).
    + simpl. rewrite raise_if_ok, negb_false_iff, Z.eqb_eq. done.
    + split; [done|]. by destruct l.
Qed.

Lemma snapshot_valid_facts s : snapshot_valid s <->
  0 < ms_decision_time_ms s /\ ms_decision_time_ms s mod HOUR_MS = 0
  /\ history_facts (ms_symbol s) PRIMARY_INTERVAL (ms_decision_time_ms s) (primary s)
  /\ history_facts (ms_symbol s) CONTEXT_INTERVAL (ms_decision_time_ms s) (context s)
  /\ history_facts (ms_symbol s) REGIME_INTERVAL (ms_decision_time_ms s) (regime s).
Proof.
  unfold snapshot_valid, snapshot_post_init.
  rewrite raise_if_ok, orb_false_iff, negb_false_iff, Z.leb_gt, Z.eqb_eq.
  rewrite <- !validate_history_ok.
  destruct (_validate_history (primary s) _ _ _) as [[]|]; simpl; [|naive_solver].
  destruct (_validate_history (context s) _ _ _) as [[]|]; simpl; naive_solver.
Qed.

Lemma snapshot_at_ok ds t s : snapshot_at ds t = Ok s ->
  snapshot_valid s /\ ms_decision_time_ms s = t /\ ms_symbol s = bs_symbol (ds_spec ds)
  /\ primary s = visible t (ds_primary ds) /\ context s = visible t (ds_context ds)
  /\ regime s = visible t (ds_regime ds)
  /\ start_time_ms (ds_spec ds) <= t < end_time_ms (ds_spec ds).
Proof.
  unfold snapshot_at, new_snapshot. intros H. res_inv. subst. destruct a.
  split; [exact Hr|]. simpl. apply negb_false_iff, andb_true_iff in Hc as [H1 H2]. bool_prop. done.
Qed.

(** ** Accepted series *)

Lemma opens_from_range s d l e : map open_time_ms l = py_range s e d -> opens_from s d l.
Proof.
  unfold py_range. generalize (Z.to_nat ((e - s + d - 1) / d)). intros n E.
  assert (forall k l, map open_time_ms l = map (fun i => s + Z.of_nat i * d) (seq k (length l)) ->
                      opens_from (s + Z.of_nat k * d) d l) as H.
  { clear. intros k l. revert k. induction l as [|c l IH]; intros k; [done|]. cbn [length seq map].
    intros [= H1 H2]. split; [done|]. replace (s + Z.of_nat k * d + d) with (s + Z.of_nat (S k) * d) by lia. by apply IH. }
  specialize (H O l). replace (s + Z.of_nat 0 * d) with s in H by lia. apply H. rewrite E.
  f_equal. f_equal. apply (f_equal (@length Z)) in E. by rewrite !length_map, length_seq in E.
Qed.

Lemma visible_cons t c l : visible t (c :: l) = if decide (close_time_ms c < t) then c :: visible t l else visible t l.
Proof. unfold visible. rewrite filter_cons. done. Qed.

Section Series.
Variables (sym ivl : string) (d : Z).
Hypothesis Hd : interval_ms ivl = Some d.

(** A candle of the series. *)
Definition series_candle (c : candle) : Prop :=
  source c = DATA_SOURCE /\ symbol c = sym /\ interval c = ivl /\ is_closed c = true
  /\ close_time_ms c = open_time_ms c + d - 1.

Lemma visible_take t s l : opens_from s d l -> Forall series_candle l ->
  visible t l = take (Z.to_nat ((t - s) / d)) l.
Proof using Hd.
  pose proof (interval_ms_pos _ _ Hd) as Hpos. intros Ho Hl. revert s Ho.
  induction Hl as [|c l (_ & _ & _ & _ & Hc) Hl IH]; intros s; [by rewrite take_nil|].
  intros [Hs Ho]. rewrite visible_cons, (IH _ Ho). rewrite Hc, Hs.
  destruct (decide (s + d - 1 < t)) as [H|H].
  - assert (1 <= (t - s) / d) by (apply Z.div_le_lower_bound; lia).
    replace (Z.to_nat ((t - s) / d)) with (S (Z.to_nat ((t - (s + d)) / d))); [done|].
    replace (t - (s + d)) with ((t - s) + (-1) * d) by lia. rewrite Z.div_add by lia. lia.
  - assert ((t - s) / d < 1) by (apply Z.div_lt_upper_bound; lia).
    assert ((t - (s + d)) / d < 1) by (apply Z.div_lt_upper_bound; lia).
    by replace (Z.to_nat ((t - s) / d)) with O by lia; replace (Z.to_nat ((t - (s + d)) / d)) with O by lia.
Qed.

Lemma opens_from_lookup s l i c : opens_from s d l -> l !! i = Some c -> open_time_ms c = s + Z.of_nat i * d.
Proof using.
  revert s i. induction l as [|c' l IH]; intros s [|i]; simpl; try done.
  - intros [H _] [= <-]. lia.
  - intros [_ H] E. rewrite (IH _ _ H E). lia.
Qed.

Lemma opens_from_take s l n : opens_from s d l -> opens_from s d (take n l).
Proof using. revert s l. induction n as [|n IH]; intros s [|c l]; simpl; try done. intros [Hc H]. split; [done|by apply IH]. Qed.

Lemma last_take (l : list candle) n : (n < length l)%nat -> last (take (S n) l) = l !! n.
Proof using.
  intros H. destruct (lookup_lt_is_Some_2 _ _ H) as [c Hc]. rewrite Hc.
  rewrite (take_S_r _ _ _ Hc). apply last_snoc.
Qed.

(** The visible part of an aligned, complete series is a legal history as
    soon as one candle has closed. *)
Lemma visible_history t s e l :
  map open_time_ms l = py_range s e d -> Forall series_candle l ->
  s mod d = 0 -> s + d <= t / d * d -> t <= e ->
  history_facts sym ivl t (visible t l).
Proof using Hd.
  pose proof (interval_ms_pos _ _ Hd) as Hpos. intros Hr Hl Hs Hlo He.
  pose proof (opens_from_range _ _ _ _ Hr) as Ho.
  pose proof (Z.mul_div_le t d Hpos) as Hfl.
  pose proof (Z.mul_succ_div_gt t d Hpos) as Hfg.
  pose proof (Z_div_exact_full_2 s d ltac:(lia) Hs) as Hsd.
  assert ((t - s) / d = t / d - s / d) as Eq.
  { replace (t - s) with (t + (- (s / d)) * d) by lia. rewrite Z.div_add by lia. lia. }
  assert (1 <= t / d - s / d) as H1 by nia.
  assert (length l = Z.to_nat ((e - s + d - 1) / d)) as Hlen.
  { apply (f_equal (@length Z)) in Hr. unfold py_range in Hr. by rewrite !length_map, length_seq in Hr. }
  assert (t / d - s / d <= (e - s + d - 1) / d) as Hin by (apply Z.div_le_lower_bound; nia).
  set (n := Z.to_nat (t / d - s / d - 1)).
  assert (visible t l = take (S n) l) as Ev.
  { rewrite (visible_take t s) by done. f_equal. subst n. lia. }
  assert (n < length l)%nat as Hn by lia.
  destruct (lookup_lt_is_Some_2 _ _ Hn) as [c Hc].
  constructor.
  - unfold visible. apply Forall_forall. intros c' Hin'. apply list_elem_of_filter in Hin' as [Ht Hin'].
    rewrite Forall_forall in Hl. destruct (Hl _ Hin') as (? & ? & ? & ? & _). done.
  - exists d, c. split; [done|]. rewrite Ev, last_take by done. split; [done|]. split.
    + rewrite (opens_from_lookup _ _ _ _ Ho Hc). subst n. rewrite Z2Nat.id by lia. nia.
    + apply (opens_from_take _ _ (S n)) in Ho. destruct l as [|c0 l0]; [done|]. simpl in Ho |- *.
      destruct Ho as [-> Ho]. done.
Qed.
End Series.

Lemma rmap_same {A} (f : A -> result A) l l' :
  (forall x y, f x = Ok y -> x = y) -> rmap f l = Ok l' -> l = l' /\ Forall (fun x => f x = Ok x) l.
Proof.
  intros Hf H. apply rmap_ok in H. induction H as [|x y l l' Hxy H IH]; [done|].
  pose proof (Hf _ _ Hxy) as <-. destruct IH as [-> IH]. split; [done|]. by constructor.
Qed.

Lemma select_rows_elem rep table c : c ∈ select_rows rep table ->
  source c = DATA_SOURCE /\ symbol c = dr_symbol rep /\ interval c = dr_interval rep.
Proof. unfold select_rows. rewrite sort_by_perm, list_elem_of_filter. naive_solver. Qed.

(** An accepted series: valid closed candles of one market, one per grid point. *)
Lemma read_rows_ok table rep l d : _read_rows table rep = Ok l -> interval_ms (dr_interval rep) = Some d ->
  Forall candle_valid l /\ Forall (series_candle (dr_symbol rep) (dr_interval rep) d) l
  /\ map open_time_ms l = py_range (requested_start_time_ms rep) (requested_end_time_ms rep) d.
Proof.
  unfold _read_rows. intros H Ed. res_inv. apply rmap_same in Hr as [<- Hr].
  - rewrite Ed in H. res_inv. subst.
    assert (Forall (fun c => candle_valid c /\ is_closed c = true) (select_rows rep table)) as Hv.
    { eapply Forall_impl; [exact Hr|]. intros c Hcc. cbv beta in Hcc. res_inv. subst.
      unfold new_candle in Hr0. res_inv. subst. destruct a. split; [done|]. by apply negb_false_iff in Hc1. }
    split; [eapply Forall_impl; [exact Hv|]; naive_solver|].
    split; [|by apply negb_false_iff, bool_decide_eq_true in Hc0].
    apply Forall_forall. intros c Hin. rewrite Forall_forall in Hv. destruct (Hv c Hin) as [Hcv Hcl].
    destruct (select_rows_elem _ _ _ Hin) as (E1 & E2 & E3). do 4 (split; [done|]).
    destruct (cf_interval _ (candle_valid_facts _ Hcv)) as (d' & Ed' & _ & E). rewrite E3, Ed in Ed'. congruence.
  - intros x y Hxy. res_inv. subst. unfold new_candle in Hr0. res_inv. done.
Qed.

(** ** The properties of the market views *)

(** What a snapshot at [t] exposes of one accepted series: exactly the candles that
    closed before [t], in order; each is a closed candle of the market and the
    interval, each opens one period after the one before it, and the newest is the
    last complete one, whose period ends at the last boundary not after [t]. *)
Record exposed (sym ivl : string) (t : Z) (series history : list candle) : Prop := {
  ex_candles : forall c, c ∈ history -> close_time_ms c < t /\ is_closed c = true /\ source c = DATA_SOURCE /\ symbol c = sym /\ interval c = ivl;
  ex_all : history `sublist_of` series /\ forall c, c ∈ series -> close_time_ms c < t -> c ∈ history;
  ex_contiguous : forall d i c c', interval_ms ivl = Some d -> history !! i = Some c -> history !! S i = Some c' ->
    open_time_ms c' = open_time_ms c + d;
  ex_newest : exists d c, interval_ms ivl = Some d /\ last_candle history = Ok c /\ open_time_ms c = t / d * d - d
    /\ (candle_valid c -> close_time_ms c = t / d * d - 1);
}.

Lemma visible_exposed sym ivl t l : history_facts sym ivl t (visible t l) -> exposed sym ivl t l (visible t l).
Proof.
  intros [Hl (d & newest & Ed & Hn & Ho & Hg)]. rewrite Forall_forall in Hl. constructor.
  - intros c Hc. by destruct (Hl c Hc) as (? & ? & ? & ? & ?).
  - split; [apply sublist_filter|]. intros c Hc Ht. by apply list_elem_of_filter.
  - intros d' i c c' Ed' Hi Hi'. rewrite Ed in Ed'. injection Ed' as <-. destruct (visible t l) as [|x h]; [done|].
    rewrite (opens_from_lookup d _ _ _ _ Hg Hi), (opens_from_lookup d _ _ _ _ Hg Hi'). lia.
  - exists d, newest. unfold last_candle. rewrite Hn. do 3 (split; [done|]). intros Hv.
    destruct (Hl newest) as (_ & _ & Ei & _); [by apply last_Some_elem_of|].
    destruct (cf_interval _ (candle_valid_facts _ Hv)) as (d' & Ed' & _ & E). rewrite Ei, Ed in Ed'. injection Ed' as <-. lia.
Qed.

(** C1.  No look-ahead: the decision time is an hour of the backtest range, and each
    of the three histories of a snapshot is exactly the closed part of its accepted
    series: right market and interval, contiguous, ending with the last complete
    candle, which for the hourly history closed right before the decision. *)
Theorem snapshot_no_lookahead ds t s :
  snapshot_at ds t = Ok s ->
  start_time_ms (ds_spec ds) <= t < end_time_ms (ds_spec ds) /\ t mod HOUR_MS = 0
  /\ exposed (bs_symbol (ds_spec ds)) "1h" t (ds_primary ds) (primary s)
  /\ exposed (bs_symbol (ds_spec ds)) "15m" t (ds_context ds) (context s)
  /\ exposed (bs_symbol (ds_spec ds)) "4h" t (ds_regime ds) (regime s)
  /\ exists c, latest_primary s = Ok c /\ close_time_ms c < t /\ (candle_valid c -> close_time_ms c = t - 1).
Proof.
  intros H. apply snapshot_at_ok in H as (Hv & Et & Es & Ep & Ec & Er & Hrange).
  apply snapshot_valid_facts in Hv as (_ & Htm & Hp & Hc & Hr). rewrite Et, Es, ?Ep, ?Ec, ?Er in *.
  apply visible_exposed in Hp, Hc, Hr. do 5 (split; [done|]).
  destruct (ex_newest _ _ _ _ _ Hp) as (d & c & Ed & El & _ & Hcl). injection Ed as <-. exists c.
  unfold latest_primary. rewrite Ep. split; [done|]. split.
  - apply (ex_candles _ _ _ _ _ Hp). apply last_Some_elem_of. unfold last_candle in El. destruct (last _); congruence.
  - intros Hcv. rewrite (Hcl Hcv). change (60 * 60 * 1000) with HOUR_MS. pose proof (Z_div_exact_full_2 t HOUR_MS ltac:(done) Htm). lia.
Qed.

(** *** The clock *)

(** How a manifest report belongs to a specification: the right market, an
    aligned range that covers the backtest, and one regime candle of warm-up
    (what [latest_spec_from_manifest] demands before it builds the range). *)
Definition report_covers (spec : backtest_spec) (ivl : string) (d : Z) (rep : dataset_report) : Prop :=
  dr_symbol rep = bs_symbol spec /\ dr_interval rep = ivl /\ interval_ms ivl = Some d
  /\ requested_start_time_ms rep mod d = 0
  /\ requested_start_time_ms rep + 4 * HOUR_MS <= start_time_ms spec.

Lemma covered_history spec table rep l ivl d t :
  _read_rows table rep = Ok l -> report_covers spec ivl d rep -> d <= 4 * HOUR_MS -> (d | 4 * HOUR_MS) ->
  start_time_ms spec <= t <= requested_end_time_ms rep ->
  history_facts (bs_symbol spec) ivl t (visible t l).
Proof.
  intros Hl (<- & <- & Ed & Hal & Hw) Hd4 [k Hk] Ht.
  pose proof (interval_ms_pos _ _ Ed) as Hpos.
  destruct (read_rows_ok _ _ _ _ Hl Ed) as (_ & Hser & Hmap).
  apply (visible_history _ _ d Ed t (requested_start_time_ms rep) (requested_end_time_ms rep)); try done; [|lia].
  pose proof (Z_div_exact_full_2 _ d ltac:(lia) Hal) as E.
  assert (requested_start_time_ms rep / d + 1 <= t / d); [|nia].
  apply Z.div_le_lower_bound; nia.
Qed.

Lemma snapshot_at_total spec gen rp rc rr table ds t :
  load_accepted_dataset spec gen rp rc rr table = Ok ds ->
  report_covers spec PRIMARY_INTERVAL HOUR_MS rp ->
  report_covers spec CONTEXT_INTERVAL (15 * 60 * 1000) rc ->
  report_covers spec REGIME_INTERVAL (4 * HOUR_MS) rr ->
  0 <= start_time_ms spec -> 0 < t -> t mod HOUR_MS = 0 -> start_time_ms spec <= t < end_time_ms spec ->
  exists s, snapshot_at ds t = Ok s.
Proof.
  intros Hload Hp Hc Hr H0 Ht0 Htm Ht. unfold load_accepted_dataset in Hload. res_inv. subst.
  simpl in Hc0. rewrite !orb_false_iff in Hc0. bool_prop.
  eexists. unfold snapshot_at. cbn [ds_spec ds_primary ds_context ds_regime].
  rewrite (proj2 (Z.leb_le _ _)), (proj2 (Z.ltb_lt _ _)) by lia. cbn [andb negb].
  unfold new_snapshot.
  assert (snapshot_valid (MarketSnapshot (bs_symbol spec) t (visible t a) (visible t a0) (visible t a1))) as Hv.
  { apply snapshot_valid_facts. cbn. split; [lia|]. split; [done|].
    split; [|split].
    - eapply covered_history; [exact Hr0|exact Hp|done|by exists 4|lia].
    - eapply covered_history; [exact Hr1|exact Hc|done|by exists 16|lia].
    - eapply covered_history; [exact Hr2|exact Hr|done|by exists 1|lia]. }
  unfold snapshot_valid in Hv. rewrite Hv. reflexivity.
Qed.

Lemma rmap_total {A B} (f : A -> result B) l :
  (forall x, x ∈ l -> exists y, f x = Ok y) -> exists ys, rmap f l = Ok ys.
Proof.
  induction l as [|x l IH]; intros H; [by exists []|]. simpl.
  destruct (H x ltac:(by left)) as [y ->]. simpl.
  destruct IH as [ys ->]; [intros z Hz; apply H; by right|]. by exists (y :: ys).
Qed.

Lemma mod_shift a k d : 0 < d -> a mod d = 0 -> (k - a) mod d = 0 -> k mod d = 0.
Proof.
  intros Hd Ha Hk. apply Z.mod_divide in Ha, Hk; [|lia..]. apply Z.mod_divide; [lia|].
  replace k with ((k - a) + a) by lia. by apply Z.divide_add_r.
Qed.

(** C2.  The clock runs to the end: over accepted data with the warm-up the
    loader demands, no decision point fails, and the events are exactly the
    aligned hours of the range in order, each with a legal snapshot. *)
Theorem clock_total spec gen rp rc rr table ds :
  spec_valid spec ->
  load_accepted_dataset spec gen rp rc rr table = Ok ds ->
  report_covers spec PRIMARY_INTERVAL HOUR_MS rp ->
  report_covers spec CONTEXT_INTERVAL (15 * 60 * 1000) rc ->
  report_covers spec REGIME_INTERVAL (4 * HOUR_MS) rr ->
  0 < start_time_ms spec ->
  exists evs, clock_events ds = Ok evs
    /\ Z.of_nat (length evs) = event_count ds
    /\ forall i e, evs !! i = Some e ->
         event_valid e /\ snapshot_valid (ev_snapshot e)
         /\ ev_sequence e = Z.of_nat i
         /\ ev_decision_time_ms e = start_time_ms spec + Z.of_nat i * HOUR_MS
         /\ snapshot_at ds (ev_decision_time_ms e) = Ok (ev_snapshot e).
Proof.
  intros Hs Hload Hp Hc Hr H0. pose proof (spec_valid_facts _ Hs) as [_ Frange Falign _ _ _].
  assert (ds_spec ds = spec) as Eds by (unfold load_accepted_dataset in Hload; res_inv; by subst).
  set (times := py_range (start_time_ms spec) (end_time_ms spec) HOUR_MS).
  assert (forall t, t ∈ times -> 0 < t /\ t mod HOUR_MS = 0 /\ exists s, snapshot_at ds t = Ok s) as Htimes.
  { intros t Hin. apply py_range_elem in Hin as [Hrange Hm]; [|done].
    assert (t mod HOUR_MS = 0) as Htm by (eapply mod_shift; [done|apply (proj1 Falign)|done]).
    split; [lia|]. split; [done|]. eapply snapshot_at_total; eauto; lia. }
  assert (forall st, st ∈ combine (seq 0 (length times)) times ->
     exists e, (let* snapshot := rcatch (snapshot_at ds (snd st)) [BacktestLoadError]
                 (Raise BacktestClockError "Clock could not build a legal point-in-time event") in
                new_event (DecisionEvent (Z.of_nat (fst st)) (snd st) (snd st) snapshot)) = Ok e) as Hall.
  { intros [i t] Hin. apply list_elem_of_In, in_combine_r, list_elem_of_In in Hin.
    destruct (Htimes t Hin) as (Hpos & Hm & s & Es). cbn [fst snd]. rewrite Es. simpl.
    pose proof (snapshot_at_ok _ _ _ Es) as (_ & Et & _).
    unfold new_event, event_post_init. cbn. rewrite Et, Hm, !Z.eqb_refl.
    rewrite (proj2 (Z.ltb_ge _ _)), (proj2 (Z.leb_gt _ _)) by lia. simpl. eauto. }
  destruct (rmap_total _ _ Hall) as [evs Hevs]. exists evs.
  unfold clock_events. rewrite Eds. fold times. split; [done|].
  apply rmap_ok in Hevs. pose proof (Forall2_length _ _ _ Hevs) as Hlen.
  rewrite length_combine, length_seq, Nat.min_id in Hlen. split.
  - rewrite <- Hlen. unfold event_count, times, py_range. rewrite Eds, length_map, length_seq.
    rewrite Z2Nat.id by (apply Z.div_pos; unfold HOUR_MS; lia).
    destruct Falign as [A1 A2].
    pose proof (Z_div_exact_full_2 (end_time_ms spec - start_time_ms spec) HOUR_MS ltac:(done)) as E.
    rewrite Zminus_mod, A1, A2 in E. specialize (E eq_refl).
    set (q := (end_time_ms spec - start_time_ms spec) / HOUR_MS) in *.
    rewrite E. symmetry. apply (Z.div_unique _ _ q (HOUR_MS - 1)); unfold HOUR_MS; lia.
  - intros i e He. destruct (Forall2_lookup_r _ _ _ _ _ Hevs He) as ([j t] & Hjt & Hst).
    assert (j = i /\ times !! i = Some t) as [-> Ht].
    { clear - Hjt. revert Hjt. generalize times. intros l. rewrite <- (Nat.add_0_l i) at 2. generalize O. revert i.
      induction l as [|x l IH]; intros i k; [done|]. simpl. destruct i as [|i]; simpl.
      - intros [= <- <-]. split; [lia|done].
      - intros H. apply IH in H as [H1 H2]. split; [lia|done]. }
    cbn [fst snd] in Hst. res_inv. subst.
    pose proof (snapshot_at_ok _ _ _ Hr0) as (Hsv & _).
    unfold new_event in Hst. res_inv. subst. destruct a0. cbn.
    split; [exact Hr1|]. split; [done|]. split; [done|]. split; [|done].
    pose proof (lookup_lt_Some _ _ _ Ht) as Hlt. unfold times in Ht. rewrite py_range_lookup in Ht by done. congruence.
Qed.

(** ** A concrete accepted dataset *)

Definition sample_candle (ivl : string) (d i : Z) : candle :=
  Candle DATA_SOURCE "BTCUSDT" ivl (i * d) (i * d + d - 1) "100" "110" "90" "105" "10" "1000" 5 true.
Definition sample_series (ivl : string) (d : Z) (n : nat) : list candle :=
  map (fun i => sample_candle ivl d (Z.of_nat i)) (seq 0 n).
Definition sample_spec : backtest_spec := default_spec "BTCUSDT" (4 * HOUR_MS) (6 * HOUR_MS).
Definition sample_dataset : accepted_dataset :=
  AcceptedBacktestDataset sample_spec 1 (sample_series "1h" HOUR_MS 6) (sample_series "15m" (15 * 60 * 1000) 24)
    (sample_series "4h" (4 * HOUR_MS) 2).
Definition sample_table : list candle :=
  ds_regime sample_dataset ++ rev (ds_context sample_dataset) ++ ds_primary sample_dataset.

Lemma sample_load :
  load_accepted_dataset sample_spec 1
    (DatasetReport "BTCUSDT" "1h" 0 (6 * HOUR_MS) 6) (DatasetReport "BTCUSDT" "15m" 0 (6 * HOUR_MS) 24)
    (DatasetReport "BTCUSDT" "4h" 0 (8 * HOUR_MS) 2) sample_table = Ok sample_dataset.
Proof. vm_compute. reflexivity. Qed.

Lemma clock_total_witness :
  exists evs, clock_events sample_dataset = Ok evs /\ Z.of_nat (length evs) = event_count sample_dataset.
Proof.
  destruct (clock_total sample_spec 1
    (DatasetReport "BTCUSDT" "1h" 0 (6 * HOUR_MS) 6) (DatasetReport "BTCUSDT" "15m" 0 (6 * HOUR_MS) 24)
    (DatasetReport "BTCUSDT" "4h" 0 (8 * HOUR_MS) 2) sample_table sample_dataset)
    as (evs & H1 & H2 & _).
  - vm_compute. reflexivity.
  - exact sample_load.
  - repeat split; vm_compute; congruence.
  - repeat split; vm_compute; congruence.
  - repeat split; vm_compute; congruence.
  - vm_compute. reflexivity.
  - exists evs. split; assumption.
Defined.

Lemma snapshot_no_lookahead_witness :
  exists s, snapshot_at sample_dataset (5 * HOUR_MS) = Ok s /\ (length (primary s), length (context s), length (regime s)) = (5, 20, 1)%nat
    /\ exposed "BTCUSDT" "1h" (5 * HOUR_MS) (ds_primary sample_dataset) (primary s)
    /\ exposed "BTCUSDT" "15m" (5 * HOUR_MS) (ds_context sample_dataset) (context s)
    /\ exposed "BTCUSDT" "4h" (5 * HOUR_MS) (ds_regime sample_dataset) (regime s).
Proof.
  destruct (snapshot_at sample_dataset (5 * HOUR_MS)) as [s|e] eqn:E.
  - destruct (snapshot_no_lookahead sample_dataset (5 * HOUR_MS) s E) as (_ & _ & H1 & H2 & H3 & _). exists s. split; [reflexivity|].
    split; [|exact (conj H1 (conj H2 H3))]. vm_compute in E. injection E as <-. reflexivity.
  - exfalso. vm_compute in E. discriminate E.
Defined.
