(* ===== verification/Fills.v ===== *)
(** * The paper fill engine (yatl/backtest/fills.py)

    Intents, fill references, and the long-only lifecycle with its
    conservative protective exit. *)
From S2P Require Import Prelude PyDecimal PyText Market BacktestConfig MarketView.

Inductive intent_action : Type := HOLD | ENTER_LONG | EXIT_LONG.
Inductive fill_reason : Type :=
| NEXT_PRIMARY_OPEN | SCRIPTED_EXIT | STOP | TARGET | AMBIGUOUS_STOP_PRIORITY.

Definition intent_action_value (a : intent_action) : string :=
  match a with HOLD => "HOLD" | ENTER_LONG => "ENTER_LONG" | EXIT_LONG => "EXIT_LONG" end.
Definition fill_reason_value (r : fill_reason) : string :=
  match r with
  | NEXT_PRIMARY_OPEN => "NEXT_PRIMARY_OPEN" | SCRIPTED_EXIT => "SCRIPTED_EXIT" | STOP => "STOP" | TARGET => "TARGET"
  | AMBIGUOUS_STOP_PRIORITY => "AMBIGUOUS_STOP_PRIORITY"
  end.

#[global] Instance intent_action_eq_dec : EqDecision intent_action.
Proof. solve_decision. Defined.
#[global] Instance fill_reason_eq_dec : EqDecision fill_reason.
Proof. solve_decision. Defined.

Definition _positive_decimal (value field : string) : result dec :=
  raise_if negb (decimal_pattern value) with FillModelError (String.append field " must be a plain decimal string") ;;
  let* number := rcatch (Decimal value) [ArithmeticTrap] (Raise FillModelError (String.append field " is invalid")) in
  raise_if dleb number dec0 with FillModelError (String.append field " must be positive") ;;
  Ok number.

(** The same helper applied to a field that may be [None]. *)
Definition _positive_decimal_opt (value : option string) (field : string) : result dec :=
  match value with
  | Some v => _positive_decimal v field
  | None => Err (Raise FillModelError (String.append field " must be a plain decimal string"))
  end.

Record paper_intent : Type := PaperIntent {
  pi_action : intent_action;
  pi_decision_time_ms : Z;
  pi_quantity : option string;
  pi_stop_price : option string;
  pi_target_price : option string;
}.

#[global] Instance paper_intent_eq_dec : EqDecision paper_intent.
Proof. solve_decision. Defined.

Definition intent_post_init (i : paper_intent) : result unit :=
  raise_if (pi_decision_time_ms i <=? 0) || negb (pi_decision_time_ms i mod HOUR_MS =? 0)
    with FillModelError "Paper intent identity is invalid" ;;
  match pi_action i with
  | ENTER_LONG =>
      let* quantity := _positive_decimal_opt (pi_quantity i) "quantity" in
      let* stop := _positive_decimal_opt (pi_stop_price i) "stop_price" in
      let* target := _positive_decimal_opt (pi_target_price i) "target_price" in
      raise_if dleb quantity dec0 || dleb target stop with FillModelError "Long entry bracket is invalid" ;;
      Ok tt
  | _ =>
      raise_if negb (opt_is_none (pi_quantity i) && opt_is_none (pi_stop_price i) && opt_is_none (pi_target_price i))
        with FillModelError "HOLD and EXIT_LONG cannot carry entry fields" ;;
      Ok tt
  end.
Definition new_intent (i : paper_intent) : result paper_intent := do* intent_post_init i ;; Ok i.
Definition intent_valid (i : paper_intent) : Prop := intent_post_init i = Ok tt.

Record fill_reference : Type := FillReference {
  fr_action : intent_action;
  fr_symbol : string;
  fr_decision_time_ms : Z;
  fill_time_ms : Z;
  fr_quantity : string;
  reference_price : string;
  fr_reason : fill_reason;
}.

#[global] Instance fill_reference_eq_dec : EqDecision fill_reference.
Proof. solve_decision. Defined.

Definition reference_post_init (r : fill_reference) : result unit :=
  raise_if bool_decide (fr_action r = HOLD) || negb (str_in (fr_symbol r) SYMBOLS)
           || negb (fill_time_ms r =? fr_decision_time_ms r) || (fill_time_ms r <=? 0)
           || negb (fill_time_ms r mod HOUR_MS =? 0)
           || (bool_decide (fr_action r = ENTER_LONG) && negb (bool_decide (fr_reason r = NEXT_PRIMARY_OPEN)))
           || (bool_decide (fr_action r = EXIT_LONG) && bool_decide (fr_reason r = NEXT_PRIMARY_OPEN))
    with FillModelError "Fill reference identity is invalid" ;;
  do* _positive_decimal (fr_quantity r) "quantity" ;;
  do* _positive_decimal (reference_price r) "reference_price" ;;
  Ok tt.
Definition new_reference (r : fill_reference) : result fill_reference := do* reference_post_init r ;; Ok r.
Definition reference_valid (r : fill_reference) : Prop := reference_post_init r = Ok tt.

Record open_position : Type := OpenPosition { quantity : string; stop_price : string; target_price : string }.

#[global] Instance open_position_eq_dec : EqDecision open_position.
Proof. solve_decision. Defined.

(** [PaperFillEngine]: the approved symbol and the open position. *)
Definition engine_state : Type := option open_position.

Definition new_engine (sym : string) : result engine_state :=
  raise_if negb (str_in sym SYMBOLS) with FillModelError "Fill engine symbol is not approved" ;; Ok None.

Definition has_position (st : engine_state) : bool := negb (opt_is_none st).

Definition _reference (sym : string) (action : intent_action) (ev : decision_event) (q price : string)
    (reason : fill_reason) : result fill_reference :=
  new_reference (FillReference action sym (ev_decision_time_ms ev) (eligible_fill_open_time_ms ev) q price reason).

(** The price and the reason of the protective exit, when one is due. *)
Definition protective_level (p : open_position) (bar : candle) : result (option (string * fill_reason)) :=
  let* opened := Decimal (open bar) in
  let* low_ := Decimal (low bar) in
  let* high_ := Decimal (high bar) in
  let* stop := Decimal (stop_price p) in
  let* target := Decimal (target_price p) in
  Ok (if dleb opened stop then Some (open bar, STOP)
      else if dleb target opened then Some (target_price p, TARGET)
      else if dleb low_ stop && dleb target high_ then Some (stop_price p, AMBIGUOUS_STOP_PRIORITY)
      else if dleb low_ stop then Some (stop_price p, STOP)
      else if dleb target high_ then Some (target_price p, TARGET)
      else None).

Definition _protective_exit (sym : string) (ev : decision_event) (bar : candle)
    : stm engine_state (option fill_reference) :=
  let! pos := sget in
  match pos with
  | None => sret None
  | Some p =>
      let! level := slift (protective_level p bar) in
      match level with
      | None => sret None
      | Some (price, reason) =>
          let! r := slift (_reference sym EXIT_LONG ev (quantity p) price reason) in
          do! sput None ;;
          sret (Some r)
      end
  end.

Definition opt_list {A} (o : option A) : list A := match o with Some a => [a] | None => [] end.

(** The volume gate: [sum(Decimal(q) ...) > Decimal(base_volume)], with the
    sum in the default context. *)
Definition volume_exceeded (fills : list fill_reference) (bar : candle) : result bool :=
  let* qs := rmap (fun f => Decimal (fr_quantity f)) fills in
  let* volume := Decimal (base_volume bar) in
  Ok (dltb volume (dsum default_prec dec0 qs)).

Definition enter_steps (sym : string) (ev : decision_event) (i : paper_intent) (bar : candle)
    : stm engine_state (list fill_reference) :=
  let! pos := sget in
  sraise_if has_position pos with FillModelError "Overlapping long positions are forbidden" ;;
  let! opened := slift (Decimal (open bar)) in
  match pi_quantity i, pi_stop_price i, pi_target_price i with
  | Some q, Some s, Some t =>
      let! stop := slift (Decimal s) in
      let! target := slift (Decimal t) in
      sraise_if negb (dltb stop opened && dltb opened target)
        with FillModelError "Next-open price is outside the long bracket" ;;
      do! sput (Some (OpenPosition q s t)) ;;
      let! r := slift (_reference sym ENTER_LONG ev q (open bar) NEXT_PRIMARY_OPEN) in
      let! protective := _protective_exit sym ev bar in
      sret (r :: opt_list protective)
  | _, _, _ => sraise (Raise TypeError "Decimal")
  end.

Definition exit_steps (sym : string) (ev : decision_event) (bar : candle)
    : stm engine_state (list fill_reference) :=
  let! pos := sget in
  match pos with
  | None => sraise (Raise FillModelError "Cannot exit without an open long position")
  | Some p =>
      let! r := slift (_reference sym EXIT_LONG ev (quantity p) (open bar) SCRIPTED_EXIT) in
      do! sput None ;;
      sret [r]
  end.

Definition process_body (sym : string) (ev : decision_event) (i : paper_intent) (bar : candle)
    : stm engine_state (list fill_reference) :=
  let! fills :=
    match pi_action i with
    | EXIT_LONG => exit_steps sym ev bar
    | ENTER_LONG => enter_steps sym ev i bar
    | HOLD => let! protective := _protective_exit sym ev bar in sret (opt_list protective)
    end in
  let! over := slift (volume_exceeded fills bar) in
  sraise_if over with FillModelError "Paper fills exceed the candle base volume" ;;
  sret fills.

(** [PaperFillEngine.process] *)
Definition process (sym : string) (ev : decision_event) (i : paper_intent) (bar : candle)
    : stm engine_state (list fill_reference) :=
  sraise_if negb (pi_decision_time_ms i =? ev_decision_time_ms ev)
            || negb (String.eqb (ms_symbol (ev_snapshot ev)) sym)
            || negb (String.eqb (symbol bar) sym) || negb (String.eqb (interval bar) PRIMARY_INTERVAL)
            || negb (is_closed bar) || negb (open_time_ms bar =? eligible_fill_open_time_ms ev)
    with FillModelError "Intent, event or next-open candle is invalid" ;;
  srollback [FillModelError] (process_body sym ev i bar).

(** * Properties *)

Lemma _positive_decimal_ok value field d : _positive_decimal value field = Ok d ->
  denotes value d /\ (0 < dval d)%Q.
Proof.
  unfold _positive_decimal. intros H. res_inv. subst. apply negb_false_iff in Hc.
  destruct (decimal_pattern_spec _ Hc) as (d' & E & Hpl & Hf). rewrite E in Hr. injection Hr as ->.
  apply dleb_false in Hc0. rewrite dval_0 in Hc0. done.
Qed.

Lemma _positive_decimal_total value field d : denotes value d -> (0 < dval d)%Q ->
  _positive_decimal value field = Ok d.
Proof.
  intros (E & Hpl & Hf) Hpos. unfold _positive_decimal.
  assert (decimal_pattern value = true) as ->.
  { rewrite <- Hf. destruct Hpl as (H1 & H2 & H3). by apply format_pattern. }
  rewrite E. simpl. destruct (dleb d dec0) eqn:El; [|done]. apply dleb_spec in El. rewrite dval_0 in El. lra.
Qed.

Lemma _positive_decimal_opt_ok value field d : _positive_decimal_opt value field = Ok d ->
  exists v, value = Some v /\ denotes v d /\ (0 < dval d)%Q.
Proof. destruct value as [v|]; [|done]. intros H. apply _positive_decimal_ok in H. eauto. Qed.

(** A string that denotes a positive amount. *)
Definition positive_amount (s : string) (d : dec) : Prop := denotes s d /\ (0 < dval d)%Q.

Lemma positive_amount_fun s d d' : positive_amount s d -> positive_amount s d' -> d = d'.
Proof. intros ((E & _) & _) ((E' & _) & _). congruence. Qed.

Definition position_valid (p : open_position) : Prop :=
  exists q s t, positive_amount (quantity p) q /\ positive_amount (stop_price p) s
    /\ positive_amount (target_price p) t /\ (dval s < dval t)%Q.
Definition engine_inv (st : engine_state) : Prop :=
  match st with None => True | Some p => position_valid p end.

Lemma enter_intent_valid i : intent_valid i -> pi_action i = ENTER_LONG ->
  exists q s t, pi_quantity i = Some q /\ pi_stop_price i = Some s /\ pi_target_price i = Some t
    /\ position_valid (OpenPosition q s t).
Proof.
  unfold intent_valid, intent_post_init. intros H E. rewrite E in H. res_inv.
  apply _positive_decimal_opt_ok in Hr as (q & -> & ? & ?), Hr0 as (s & -> & ? & ?), Hr1 as (t & -> & ? & ?).
  apply orb_false_iff in Hc0 as [_ Hst]. apply dleb_false in Hst.
  exists q, s, t. split_and!; [done..|]. exists a, a0, a1. done.
Qed.

Lemma candle_amounts c : candle_valid c -> exists o h l cl v,
  positive_amount (open c) o /\ positive_amount (high c) h /\ positive_amount (low c) l
  /\ positive_amount (close c) cl /\ denotes (base_volume c) v
  /\ (dval l <= dval o <= dval h)%Q /\ (dval l <= dval cl <= dval h)%Q.
Proof.
  intros H. apply candle_valid_facts in H as [_ _ _ _ _ (o & h & l & cl & Ho & Hh & Hl & Hc & Hpos & H1 & H2) (v & q & Hv & _)].
  exists o, h, l, cl, v. unfold positive_amount. split_and!; try done; lra.
Qed.

(** ** Protective exits *)

(** The possible outcomes of the protective check of one bar. *)
Inductive level_spec (p : open_position) (o h l s t : Q) : option (string * fill_reason) -> Prop :=
| level_none : (s < l)%Q -> (h < t)%Q -> level_spec p o h l s t None
| level_gap_stop price d : Decimal price = Ok d -> (dval d == o)%Q -> (o <= s)%Q ->
    level_spec p o h l s t (Some (price, STOP))
| level_gap_target : (s < o)%Q -> (t <= o)%Q -> level_spec p o h l s t (Some (target_price p, TARGET))
| level_both : (s < o < t)%Q -> (l <= s)%Q -> (t <= h)%Q ->
    level_spec p o h l s t (Some (stop_price p, AMBIGUOUS_STOP_PRIORITY))
| level_stop : (s < o < t)%Q -> (l <= s)%Q -> (h < t)%Q -> level_spec p o h l s t (Some (stop_price p, STOP))
| level_target : (s < o < t)%Q -> (s < l)%Q -> (t <= h)%Q -> level_spec p o h l s t (Some (target_price p, TARGET)).

Lemma protective_level_total p bar q s t o h l :
  positive_amount (quantity p) q -> positive_amount (stop_price p) s -> positive_amount (target_price p) t ->
  positive_amount (open bar) o -> positive_amount (high bar) h -> positive_amount (low bar) l ->
  (dval l <= dval o <= dval h)%Q ->
  exists level, protective_level p bar = Ok level
    /\ level_spec p (dval o) (dval h) (dval l) (dval s) (dval t) level.
Proof.
  intros Hq ((Es & _) & _) ((Et & _) & _) ((Eo & _) & _) ((Eh & _) & _) ((El & _) & _) Hlo.
  unfold protective_level. rewrite Es, Et, Eo, Eh, El. simpl. eexists; split; [reflexivity|].
  destruct (dleb o s) eqn:E1; bool_prop; [by eapply level_gap_stop|].
  destruct (dleb t o) eqn:E2; bool_prop; [by apply level_gap_target|].
  destruct (dleb l s) eqn:E3, (dleb t h) eqn:E4; simpl; bool_prop.
  - by apply level_both.
  - by apply level_stop.
  - by apply level_target.
  - by apply level_none.
Qed.

Lemma level_price p o h l s t price r q sd td :
  level_spec p o h l (dval sd) (dval td) (Some (price, r)) ->
  positive_amount (quantity p) q -> positive_amount (stop_price p) sd -> positive_amount (target_price p) td ->
  (l <= o <= h)%Q -> s = dval sd -> t = dval td ->
  exists d, Decimal price = Ok d
    /\ (r = STOP \/ r = TARGET \/ r = AMBIGUOUS_STOP_PRIORITY)
    /\ (dval d <= h)%Q /\ ((l <= s)%Q -> (o < t)%Q -> (dval d <= s)%Q)
    /\ ((s < l)%Q -> (dval d == t)%Q).
Proof.
  intros Hl _ ((Es & _) & _) ((Et & _) & _) Hlo -> ->.
  inversion Hl; subst; [exists d|exists td|exists sd|exists sd|exists td]; split_and!; auto; try lra; intros; lra.
Qed.

(** C3.  Protective exits are conservative.  For a legal bar and a legal
    position the check never fails, and it exits exactly when the stop or
    the target was touched; the fill price never exceeds the bar's high; and
    whenever the stop was touched and the bar did not open beyond the target,
    the price is the stop or worse, even if the target was touched as well. *)
Theorem protective_exit_conservative p bar :
  position_valid p -> candle_valid bar ->
  exists level o h l s t, protective_level p bar = Ok level
    /\ positive_amount (open bar) o /\ positive_amount (high bar) h /\ positive_amount (low bar) l
    /\ positive_amount (stop_price p) s /\ positive_amount (target_price p) t
    /\ (level = None <-> (dval s < dval l)%Q /\ (dval h < dval t)%Q)
    /\ forall price reason, level = Some (price, reason) ->
         exists d, Decimal price = Ok d /\ (dval d <= dval h)%Q
           /\ ((dval l <= dval s)%Q -> (dval o < dval t)%Q -> (dval d <= dval s)%Q)
           /\ ((dval s < dval l)%Q -> (dval d == dval t)%Q).
Proof.
  intros (q & s & t & Hq & Hs & Ht & Hst) Hbar.
  destruct (candle_amounts _ Hbar) as (o & h & l & cl & v & Ho & Hh & Hl & _ & _ & Hlo & _).
  destruct (protective_level_total p bar q s t o h l Hq Hs Ht Ho Hh Hl Hlo) as (level & E & Hspec).
  exists level, o, h, l, s, t. do 6 (split; [done|]). split.
  - split; [intros ->; by inversion Hspec|]. intros [H1 H2].
    inversion Hspec; subst; try done; exfalso; lra.
  - intros price reason ->.
    destruct (level_price _ _ _ _ (dval s) (dval t) _ _ q s t Hspec) as (d & Ed & _ & H1 & H2 & H3); try done.
    exists d. done.
Qed.

(** ** The position lifecycle *)

Definition entry_of (sym : string) (ev : decision_event) (q : string) (bar : candle) : fill_reference :=
  FillReference ENTER_LONG sym (ev_decision_time_ms ev) (eligible_fill_open_time_ms ev) q (open bar) NEXT_PRIMARY_OPEN.
Definition exit_of (sym : string) (ev : decision_event) (p : open_position) (price : string) (reason : fill_reason) : fill_reference :=
  FillReference EXIT_LONG sym (ev_decision_time_ms ev) (eligible_fill_open_time_ms ev) (quantity p) price reason.

(** What one processed bar may do, as a step relation on the position. *)
Inductive lifecycle (sym : string) (ev : decision_event) (bar : candle)
    : engine_state -> paper_intent -> engine_state -> list fill_reference -> Prop :=
| lc_flat i : pi_action i = HOLD -> lifecycle sym ev bar None i None []
| lc_keep i p : pi_action i = HOLD -> protective_level p bar = Ok None ->
    lifecycle sym ev bar (Some p) i (Some p) []
| lc_protect i p price reason : pi_action i = HOLD -> protective_level p bar = Ok (Some (price, reason)) ->
    lifecycle sym ev bar (Some p) i None [exit_of sym ev p price reason]
| lc_exit i p : pi_action i = EXIT_LONG ->
    lifecycle sym ev bar (Some p) i None [exit_of sym ev p (open bar) SCRIPTED_EXIT]
| lc_enter i p : pi_action i = ENTER_LONG -> pi_quantity i = Some (quantity p) ->
    pi_stop_price i = Some (stop_price p) -> pi_target_price i = Some (target_price p) ->
    protective_level p bar = Ok None ->
    lifecycle sym ev bar None i (Some p) [entry_of sym ev (quantity p) bar]
| lc_round_trip i p price reason : pi_action i = ENTER_LONG -> pi_quantity i = Some (quantity p) ->
    pi_stop_price i = Some (stop_price p) -> pi_target_price i = Some (target_price p) ->
    protective_level p bar = Ok (Some (price, reason)) ->
    lifecycle sym ev bar None i None [entry_of sym ev (quantity p) bar; exit_of sym ev p price reason].

(** The inputs [process] is given: everything was built by its constructor. *)
Record step_inputs (sym : string) (ev : decision_event) (i : paper_intent) (bar : candle) : Prop := {
  si_symbol : str_in sym SYMBOLS = true;
  si_event : event_valid ev;
  si_intent : intent_valid i;
  si_bar : candle_valid bar;
}.

Lemma event_times ev : event_valid ev ->
  eligible_fill_open_time_ms ev = ev_decision_time_ms ev
  /\ 0 < ev_decision_time_ms ev /\ ev_decision_time_ms ev mod HOUR_MS = 0.
Proof. unfold event_valid, event_post_init. intros H. res_inv. bool_prop. naive_solver lia. Qed.

Lemma reference_ok sym ev act q price reason qd pd :
  str_in sym SYMBOLS = true -> event_valid ev -> positive_amount q qd -> positive_amount price pd ->
  (act = ENTER_LONG /\ reason = NEXT_PRIMARY_OPEN) \/ (act = EXIT_LONG /\ reason <> NEXT_PRIMARY_OPEN) ->
  let r := FillReference act sym (ev_decision_time_ms ev) (eligible_fill_open_time_ms ev) q price reason in
  _reference sym act ev q price reason = Ok r /\ reference_valid r.
Proof.
  intros Hs Hev [Hq Hq0] [Hp Hp0] Hact r.
  assert (reference_post_init r = Ok tt) as E.
  { destruct (event_times _ Hev) as (E1 & E2 & E3). unfold reference_post_init, r.
    cbn [fr_action fr_symbol fr_decision_time_ms fill_time_ms fr_quantity reference_price fr_reason].
    rewrite Hs, E1, Z.eqb_refl, E3. simpl. replace (_ <=? 0) with false by lia.
    destruct Hact as [[-> ->]|[-> Hr]]; simpl; [|rewrite (bool_decide_false _ Hr); simpl];
      by rewrite (_positive_decimal_total _ _ _ Hq Hq0), (_positive_decimal_total _ _ _ Hp Hp0). }
  split; [|done]. unfold _reference, new_reference. fold r. by rewrite E.
Qed.

Lemma level_amount p o h l q s t price reason bar :
  level_spec p o h l (dval s) (dval t) (Some (price, reason)) ->
  protective_level p bar = Ok (Some (price, reason)) -> 
  positive_amount (quantity p) q -> positive_amount (stop_price p) s -> positive_amount (target_price p) t ->
  (exists od, positive_amount (open bar) od) ->
  reason <> NEXT_PRIMARY_OPEN /\ exists d, positive_amount price d.
Proof.
  intros Hl E _ Hs Ht (od & Ho). split; [by inversion Hl|].
  unfold protective_level in E. res_inv. repeat case_match; simplify_eq; eauto.
Qed.

Lemma protective_exit_some sym ev bar p :
  str_in sym SYMBOLS = true -> event_valid ev -> candle_valid bar -> position_valid p ->
  exists level, protective_level p bar = Ok level
    /\ _protective_exit sym ev bar (Some p)
       = match level with
         | None => (Some p, Ok None)
         | Some (price, reason) => (None, Ok (Some (exit_of sym ev p price reason)))
         end
    /\ forall price reason, level = Some (price, reason) -> reference_valid (exit_of sym ev p price reason).
Proof.
  intros Hs Hev Hbar (q & s & t & Hq & Hsp & Ht & Hst).
  destruct (candle_amounts _ Hbar) as (o & h & l & cl & v & Ho & Hh & Hl & _ & _ & Hlo & _).
  destruct (protective_level_total p bar q s t o h l Hq Hsp Ht Ho Hh Hl Hlo) as (level & E & Hspec).
  exists level. split; [done|].
  unfold _protective_exit, sbind, sget, slift, sput, sret. rewrite E.
  destruct level as [[price reason]|]; [|done].
  destruct (level_amount _ _ _ _ _ _ _ _ _ _ Hspec E Hq Hsp Ht (ex_intro _ o Ho)) as (Hr & d & Hd).
  destruct (reference_ok sym ev EXIT_LONG (quantity p) price reason q d) as [-> Hv]; auto.
  split; [done|]. intros ? ? [= <- <-]. done.
Qed.

(** A [FillModelError], and no other exception. *)
Definition model_error {A} (r : result A) : Prop := exists m, r = Err (Raise FillModelError m).

Definition good_outcome (sym : string) (ev : decision_event) (bar : candle) (st : engine_state)
    (i : paper_intent) (out : engine_state * result (list fill_reference)) : Prop :=
  (exists st' fills, out = (st', Ok fills) /\ lifecycle sym ev bar st i st' fills
     /\ engine_inv st' /\ Forall reference_valid fills)
  \/ model_error (snd out).

(** The branches before the volume gate. *)
Definition action_steps (sym : string) (ev : decision_event) (i : paper_intent) (bar : candle)
    : stm engine_state (list fill_reference) :=
  match pi_action i with
  | EXIT_LONG => exit_steps sym ev bar
  | ENTER_LONG => enter_steps sym ev i bar
  | HOLD => let! protective := _protective_exit sym ev bar in sret (opt_list protective)
  end.

Lemma hold_outcome sym ev i bar st : step_inputs sym ev i bar -> engine_inv st -> pi_action i = HOLD ->
  good_outcome sym ev bar st i (action_steps sym ev i bar st).
Proof.
  intros [Hs Hev Hi Hbar] Hst Ea. left. unfold action_steps. rewrite Ea.
  destruct st as [p|]; [|exists None, []; by repeat constructor].
  destruct (protective_exit_some sym ev bar p Hs Hev Hbar Hst) as (level & El & E & Hv).
  unfold sbind at 1. rewrite E. destruct level as [[price reason]|].
  - do 2 eexists. split; [reflexivity|]. split; [by apply lc_protect|]. split; [done|]. by repeat constructor; auto.
  - do 2 eexists. split; [reflexivity|]. split; [by apply lc_keep|]. split; [done|]. constructor.
Qed.

Lemma exit_outcome sym ev i bar st : step_inputs sym ev i bar -> engine_inv st -> pi_action i = EXIT_LONG ->
  good_outcome sym ev bar st i (action_steps sym ev i bar st).
Proof.
  intros [Hs Hev Hi Hbar] Hst Ea. unfold action_steps. rewrite Ea.
  destruct st as [p|]; [left|right; by eexists].
  destruct Hst as (q & s & t & Hq & _). destruct (candle_amounts _ Hbar) as (o & _ & _ & _ & _ & Ho & _).
  destruct (reference_ok sym ev EXIT_LONG (quantity p) (open bar) SCRIPTED_EXIT q o) as [E Hv]; auto.
  unfold exit_steps, sbind, sget, slift, sput, sret. rewrite E.
  do 2 eexists. split; [reflexivity|]. split; [by apply lc_exit|]. split; [done|]. by repeat constructor.
Qed.

Lemma enter_outcome sym ev i bar st : step_inputs sym ev i bar -> engine_inv st -> pi_action i = ENTER_LONG ->
  good_outcome sym ev bar st i (action_steps sym ev i bar st).
Proof.
  intros [Hs Hev Hi Hbar] Hst Ea. unfold action_steps. rewrite Ea.
  destruct (enter_intent_valid i Hi Ea) as (q & s & t & Eq & Es & Et & Hp).
  pose proof Hp as (qd & sd & td & Hq & Hsd & Htd & _). simpl in Hq, Hsd, Htd.
  destruct (candle_amounts _ Hbar) as (o & _ & _ & _ & _ & Ho & _).
  unfold enter_steps. destruct st as [p|]; [right; by eexists|].
  destruct (reference_ok sym ev ENTER_LONG q (open bar) NEXT_PRIMARY_OPEN qd o) as [E Hv]; auto.
  destruct (protective_exit_some sym ev bar _ Hs Hev Hbar Hp) as (level & El & Epe & Hve).
  destruct Ho as ((Eo & _) & _), Hsd as ((Esd & _) & _), Htd as ((Etd & _) & _).
  rewrite Eq, Es, Et. unfold sbind, sget, slift, sput, sret. simpl. rewrite Eo, Esd, Etd.
  destruct (negb _); [right; by eexists|]. left. rewrite E, Epe.
  destruct level as [[price reason]|]; do 2 eexists; (split; [reflexivity|]).
  - split; [by eapply (lc_round_trip sym ev bar i (OpenPosition q s t))|]. split; [done|].
    repeat constructor; [done|]. by apply Hve.
  - split; [by eapply (lc_enter sym ev bar i (OpenPosition q s t))|]. split; [done|]. by repeat constructor.
Qed.

Lemma volume_exceeded_total fills bar : Forall reference_valid fills -> candle_valid bar ->
  exists b, volume_exceeded fills bar = Ok b.
Proof.
  intros Hf Hbar. destruct (candle_amounts _ Hbar) as (o & h & l & cl & v & _ & _ & _ & _ & (Ev & _) & _).
  unfold volume_exceeded. assert (exists qs, rmap (fun f => Decimal (fr_quantity f)) fills = Ok qs) as [qs ->].
  { induction Hf as [|f fs Hf _ [qs IH]]; [by eexists|]. simpl. 
    unfold reference_valid, reference_post_init in Hf. res_inv.
    apply _positive_decimal_ok in Hr as [(Eq & _) _]. rewrite Eq. simpl. rewrite IH. by eexists. }
  simpl. rewrite Ev. by eexists.
Qed.

Lemma process_body_outcome sym ev i bar st : step_inputs sym ev i bar -> engine_inv st ->
  good_outcome sym ev bar st i (process_body sym ev i bar st).
Proof.
  intros Hin Hst.
  assert (good_outcome sym ev bar st i (action_steps sym ev i bar st)) as Hact.
  { destruct (pi_action i) eqn:Ea; [by apply hold_outcome|by apply enter_outcome|by apply exit_outcome]. }
  unfold process_body. fold (action_steps sym ev i bar). unfold sbind at 1.
  destruct Hact as [(st' & fills & E & Hlc & Hinv & Hf)|(m & E)].
  - rewrite E. destruct (volume_exceeded_total fills bar Hf (si_bar _ _ _ _ Hin)) as [b Eb].
    unfold sbind, slift. rewrite Eb. destruct b; [right; by eexists|]. left. by exists st', fills.
  - destruct (action_steps _ _ _ _ _) as [st1 r]. simpl in E. subst r. right. by exists m.
Qed.

Lemma process_spec sym ev i bar st st' out :
  step_inputs sym ev i bar -> engine_inv st -> process sym ev i bar st = (st', out) ->
  match out with
  | Ok fills => lifecycle sym ev bar st i st' fills /\ engine_inv st' /\ Forall reference_valid fills
  | Err e => exn_cls e = FillModelError /\ st' = st
  end.
Proof.
  intros Hin Hst. unfold process. destruct (_ || _); [intros [= <- <-]; done|].
  unfold srollback. destruct (process_body_outcome sym ev i bar st Hin Hst) as [(st1 & fills & E & ?)|(m & E)].
  - rewrite E. intros [= <- <-]. done.
  - destruct (process_body sym ev i bar st) as [st1 r]. simpl in E. subst r.
    rewrite bool_decide_true by by left. intros [= <- <-]. done.
Qed.

(** C4.  [process] is total and atomic on inputs built by the constructors:
    it either performs one legal lifecycle step (at most one entry and one
    exit, never overlapping positions, every fill a valid reference, the new
    position a legal bracket), or raises [FillModelError] and leaves the open
    position as it was. *)
Theorem process_total_atomic sym ev i bar st st' out :
  step_inputs sym ev i bar -> engine_inv st -> process sym ev i bar st = (st', out) ->
  match out with
  | Ok fills => lifecycle sym ev bar st i st' fills /\ engine_inv st' /\ Forall reference_valid fills
  | Err e => exn_cls e = FillModelError /\ st' = st
  end.
Proof. apply process_spec. Qed.

(** ** Whole runs *)

(** A session: [process] on each input in turn, the caller continuing after
    a [FillModelError]; the fills produced, in order. *)
Fixpoint session (sym : string) (inputs : list (decision_event * paper_intent * candle)) (st : engine_state)
    : engine_state * list fill_reference :=
  match inputs with
  | [] => (st, [])
  | (ev, i, bar) :: rest =>
      let '(st1, out) := process sym ev i bar st in
      let '(st2, more) := session sym rest st1 in
      (st2, match out with Ok fills => fills ++ more | Err _ => more end)
  end.

(** A legal Spot trade log: entries and exits alternate, and every exit sells
    exactly the quantity its entry bought.  The state is the open quantity. *)
Fixpoint trade_log (holding : option string) (fills : list fill_reference) : option (option string) :=
  match fills with
  | [] => Some holding
  | f :: rest =>
      match fr_action f, holding with
      | ENTER_LONG, None => trade_log (Some (fr_quantity f)) rest
      | EXIT_LONG, Some q => if String.eqb (fr_quantity f) q then trade_log None rest else None
      | _, _ => None
      end
  end.

Lemma trade_log_app h l1 l2 h1 : trade_log h l1 = Some h1 -> trade_log h (l1 ++ l2) = trade_log h1 l2.
Proof.
  revert h. induction l1 as [|f l1 IH]; intros h; simpl; [by intros [= ->]|].
  destruct (fr_action f), h; try done; auto. destruct (String.eqb _ _); [auto|done].
Qed.

Lemma lifecycle_log sym ev bar st i st' fills : lifecycle sym ev bar st i st' fills ->
  trade_log (quantity <$> st) fills = Some (quantity <$> st').
Proof. inversion 1; subst; simpl; by rewrite ?String.eqb_refl. Qed.

(** Over any session from a flat engine the fills form a legal Spot
    trade log: entries and exits alternate, every exit sells exactly what was
    bought, the log ends holding the engine's open position, and every fill is
    a valid reference for the engine's symbol. *)
Theorem session_trade_log sym inputs st fills :
  Forall (fun x => step_inputs sym (fst (fst x)) (snd (fst x)) (snd x)) inputs ->
  session sym inputs None = (st, fills) ->
  trade_log None fills = Some (quantity <$> st) /\ engine_inv st
  /\ Forall (fun f => reference_valid f /\ fr_symbol f = sym) fills.
Proof.
  intros Hin. assert (engine_inv None) as Hst by done. revert Hst.
  change (@None string) with (quantity <$> @None open_position). generalize (@None open_position) as st0.
  revert st fills. induction Hin as [|[[ev i] bar] rest Hx _ IH]; intros st fills st0 Hst; simpl.
  - intros [= <- <-]. done.
  - destruct (process sym ev i bar st0) as [st1 out] eqn:E, (session sym rest st1) as [st2 more] eqn:E2.
    intros [= <- <-]. assert (engine_inv st1) as Hst1.
    { pose proof (process_spec _ _ _ _ _ _ _ Hx Hst E) as H. destruct out; [by destruct H as (_ & ? & _)|]. by destruct H as [_ ->]. }
    destruct (IH _ _ _ Hst1 E2) as (Hlog & Hinv & Hf).
    pose proof (process_spec _ _ _ _ _ _ _ Hx Hst E) as H. destruct out as [fs|e]; [|by destruct H as [_ ->]].
    destruct H as (Hlc & _ & Hv). split; [|split; [done|]].
    + rewrite (trade_log_app _ _ _ _ (lifecycle_log _ _ _ _ _ _ _ Hlc)). done.
    + apply Forall_app. split; [|done].
      inversion Hlc; subst; inversion Hv; subst; repeat constructor; try done.
      all: match goal with H : Forall _ [_] |- _ => by inversion H end.
Qed.

(** ** The volume gate *)

Definition fill_quantity (f : fill_reference) : Q :=
  match Decimal (fr_quantity f) with Ok d => dval d | Err _ => 0%Q end.
Definition total_quantity (fills : list fill_reference) : Q := fold_right (fun f s => (fill_quantity f + s)%Q) 0%Q fills.

Lemma process_gate sym ev i bar st st' fills :
  process sym ev i bar st = (st', Ok fills) -> volume_exceeded fills bar = Ok false.
Proof.
  unfold process. destruct (_ || _); [done|]. intros H. apply srollback_ok in H.
  unfold process_body in H. stm_inv. subst. done.
Qed.

Lemma lifecycle_fills sym ev bar st i st' fills : lifecycle sym ev bar st i st' fills ->
  fills = [] \/ (exists f, fills = [f]) \/ exists f g, fills = [f; g] /\ fr_quantity g = fr_quantity f.
Proof. inversion 1; subst; eauto 10. Qed.

(** Quantities of at most [i + f] digits, one below the context's 28. *)
Definition short_quantity (i f : Z) (r : fill_reference) : Prop := rep i f (fill_quantity r).

Lemma dsum_two i f a b :
  i + 1 + f <= 28 -> 1 <= i -> rep i f (dval a) -> rep i f (dval b) ->
  (dval (dsum default_prec dec0 [a]) == dval a)%Q
  /\ (dval (dsum default_prec dec0 [a; b]) == dval a + dval b)%Q.
Proof.
  intros Hp Hi Ha Hb. pose proof (proj1 Ha) as Hif.
  assert (dval (dadd default_prec dec0 a) == dval a)%Q as E1.
  { rewrite (dadd_val (i:=i) (f:=f)); rewrite ?dval_0, ?Qplus_0_l; [done|simpl; lia|done|exact Ha]. }
  split; [exact E1|]. simpl. unfold dsum. simpl.
  rewrite (dadd_val (i:=i + 1) (f:=f)); rewrite ?E1; [done|simpl; lia|done|].
  pose proof (rep_plus _ _ _ _ _ _ Ha Hb) as H. rewrite !Z.max_id in H. done.
Qed.

(** The volume gate.  When every accepted fill has a quantity of at most
    27 significant places, the fills of one bar never exceed its base volume.
    (The sum is rounded to 28 digits, so the bound on the quantities is
    needed; see [volume_gate_rounds].) *)
Theorem volume_gate_exact sym ev i bar st st' fills ip fp :
  step_inputs sym ev i bar -> engine_inv st -> process sym ev i bar st = (st', Ok fills) ->
  1 <= ip -> ip + fp <= 27 -> Forall (short_quantity ip fp) fills ->
  exists v, Decimal (base_volume bar) = Ok v /\ (total_quantity fills <= dval v)%Q.
Proof.
  intros Hin Hst Hp Hi Hf Hq. pose proof (process_spec _ _ _ _ _ _ _ Hin Hst Hp) as (Hlc & _ & _).
  pose proof (process_gate _ _ _ _ _ _ _ Hp) as Hg.
  destruct (candle_amounts _ (si_bar _ _ _ _ Hin)) as (o & h & l & cl & v & _ & _ & _ & _ & (Ev & Hpl & _) & _).
  exists v. split; [done|]. apply plain_nonneg in Hpl.
  unfold volume_exceeded in Hg. rewrite Ev in Hg.
  destruct (lifecycle_fills _ _ _ _ _ _ _ Hlc) as [->|[(f & ->)|(f & g & -> & Efg)]]; [done| |].
  all: unfold total_quantity, fill_quantity, short_quantity in *; simpl in *.
  all: rewrite ?Efg in *; inversion Hq as [|? ? Hd _]; subst; cbn beta in Hd.
  all: unfold fill_quantity in Hd.
  all: destruct (Decimal (fr_quantity f)) as [d|] eqn:Ed; [|discriminate Hg].
  all: destruct (dsum_two ip fp d d) as [E1 E2]; [lia|done..|].
  all: simpl in Hg; injection Hg as Hg; apply dltb_false in Hg.
  - rewrite E1 in Hg. lra.
  - rewrite E2 in Hg. lra.
Qed.

(** ** Legal intents are filled *)

(** The event, the intent and the bar belong together. *)
Record aligned_inputs (sym : string) (ev : decision_event) (i : paper_intent) (bar : candle) : Prop := {
  al_time : pi_decision_time_ms i = ev_decision_time_ms ev;
  al_symbol : ms_symbol (ev_snapshot ev) = sym /\ symbol bar = sym;
  al_bar : interval bar = PRIMARY_INTERVAL /\ is_closed bar = true /\ open_time_ms bar = eligible_fill_open_time_ms ev;
}.

(** The quantity a bar may fill, at most twice. *)
Definition stake (i : paper_intent) (st : engine_state) : option string :=
  match st with Some p => Some (quantity p) | None => pi_quantity i end.

(** The intent is possible in the position, and the bar opens inside the bracket. *)
Definition possible (i : paper_intent) (bar : candle) (st : engine_state) : Prop :=
  match pi_action i with
  | HOLD => True
  | EXIT_LONG => st <> None
  | ENTER_LONG => st = None /\ exists s o t, positive_amount (default "" (pi_stop_price i))%string s /\ positive_amount (open bar) o
      /\ positive_amount (default "" (pi_target_price i))%string t /\ (dval s < dval o < dval t)%Q
  end.

Lemma lifecycle_stake sym ev bar st i st' fills f : lifecycle sym ev bar st i st' fills -> f ∈ fills -> stake i st = Some (fr_quantity f).
Proof.
  intros Hl Hf. destruct Hl as [i Hi|i p Hi Hx|i p price reason Hi Hx|i p Hi|i p Hi Hn Hs Ht Hx|i p price reason Hi Hn Hs Ht Hx];
    rewrite ?elem_of_cons in Hf; cbn [stake]; (destruct Hf as [-> | Hf] || by apply elem_of_nil in Hf); try done;
    rewrite ?elem_of_cons in Hf; (destruct Hf as [-> | Hf] || by apply elem_of_nil in Hf); try done; by apply elem_of_nil in Hf.
Qed.

(** Two fills of the stake stay within the bar's volume. *)
Lemma volume_within sym ev bar st i st' fills ip fp : candle_valid bar -> lifecycle sym ev bar st i st' fills -> Forall reference_valid fills ->
  1 <= ip -> ip + fp <= 27 ->
  (forall q, stake i st = Some q -> exists d v, Decimal q = Ok d /\ rep ip fp (dval d) /\ Decimal (base_volume bar) = Ok v
     /\ (0 <= dval d)%Q /\ (2 * dval d <= dval v)%Q) ->
  volume_exceeded fills bar = Ok false.
Proof.
  intros Hbar Hl Hv Hi Hp Hq. destruct (candle_amounts _ Hbar) as (o & h & l & cl & v & _ & _ & _ & _ & (Ev & Hpl & _) & _).
  apply plain_nonneg in Hpl. unfold volume_exceeded. rewrite Ev.
  destruct (lifecycle_fills _ _ _ _ _ _ _ Hl) as [->|[(f & ->)|(f & g & -> & Efg)]].
  - cbn. destruct (dltb v dec0) eqn:E; [|done]. apply dltb_spec in E. rewrite dval_0 in E. lra.
  - destruct (Hq (fr_quantity f)) as (d & v' & Ed & Hr & Ev' & H0 & H2); [eapply lifecycle_stake; [exact Hl|in_list]|]. rewrite Ev in Ev'. injection Ev' as <-.
    cbn [rmap]. rewrite Ed. cbn [rbind]. destruct (dsum_two ip fp d d) as [E1 _]; [lia|done..|].
    destruct (dltb v _) eqn:E; [|done]. apply dltb_spec in E. rewrite E1 in E. lra.
  - destruct (Hq (fr_quantity f)) as (d & v' & Ed & Hr & Ev' & H0 & H2); [eapply lifecycle_stake; [exact Hl|in_list]|]. rewrite Ev in Ev'. injection Ev' as <-.
    cbn [rmap]. rewrite Efg, Ed. cbn [rbind]. destruct (dsum_two ip fp d d) as [_ E2]; [lia|done..|].
    destruct (dltb v _) eqn:E; [|done]. apply dltb_spec in E. rewrite E2 in E. lra.
Qed.

Lemma possible_steps sym ev i bar st : step_inputs sym ev i bar -> engine_inv st -> possible i bar st ->
  exists st' fills, action_steps sym ev i bar st = (st', Ok fills) /\ lifecycle sym ev bar st i st' fills
    /\ engine_inv st' /\ Forall reference_valid fills.
Proof.
  intros Hin Hst Hpos.
  assert (good_outcome sym ev bar st i (action_steps sym ev i bar st)) as [H|(m & Hm)]; [|done|].
  { destruct (pi_action i) eqn:Ea; [by apply hold_outcome|by apply enter_outcome|by apply exit_outcome]. }
  exfalso. unfold possible in Hpos. destruct (pi_action i) eqn:Ea.
  - pose proof (hold_outcome sym ev i bar st Hin Hst Ea) as [(st' & fills & E & _)|_]; [by rewrite E in Hm|].
    destruct Hin as [Hs Hev Hi Hbar]. revert Hm. unfold action_steps. rewrite Ea. destruct st as [p|]; [|done].
    destruct (protective_exit_some sym ev bar p Hs Hev Hbar Hst) as (level & El & E & Hv). unfold sbind at 1. rewrite E. by destruct level as [[]|].
  - destruct Hpos as (-> & s & o & t & Hs & Ho & Ht & H1 & H2). destruct Hin as [Hsym Hev Hi Hbar].
    destruct (enter_intent_valid i Hi Ea) as (q & s' & t' & Eq & Es & Et & Hp). rewrite Es in Hs. rewrite Et in Ht. cbn [default from_option id] in Hs, Ht.
    pose proof Hp as (qd & sd & td & Hq & _).
    destruct (reference_ok sym ev ENTER_LONG q (open bar) NEXT_PRIMARY_OPEN qd o) as [E Hv]; auto.
    destruct (protective_exit_some sym ev bar _ Hsym Hev Hbar Hp) as (level & El & Epe & Hve).
    revert Hm. unfold action_steps. rewrite Ea. unfold enter_steps, sbind, sget, slift, sput, sret. rewrite Eq, Es, Et. cbn [has_position opt_is_none negb].
    destruct Hs as ((Esd & _) & _), Ho as ((Eo & _) & _), Ht as ((Etd & _) & _). rewrite Eo, Esd, Etd.
    rewrite (proj2 (dltb_spec s o) H1), (proj2 (dltb_spec o t) H2). cbn [andb negb]. rewrite E, Epe. by destruct level as [[]|].
  - destruct st as [p|]; [|done]. destruct Hin as [Hsym Hev Hi Hbar]. destruct Hst as (q & s & t & Hq & _).
    destruct (candle_amounts _ Hbar) as (o & _ & _ & _ & _ & Ho & _).
    destruct (reference_ok sym ev EXIT_LONG (quantity p) (open bar) SCRIPTED_EXIT q o) as [E Hv]; auto.
    revert Hm. unfold action_steps. rewrite Ea. unfold exit_steps, sbind, sget, slift, sput, sret. by rewrite E.
Qed.

(** Progress.  When the event, the intent and the bar belong together, the
    intent is possible in the position (hold always, exit with a position, entry
    when flat with the bar opening inside the bracket) and twice the quantity at
    stake, of at most 27 places, is within the bar's volume, [process] does not
    refuse: it returns the fills of one lifecycle step. *)
Theorem legal_intents_fill sym ev i bar st ip fp (Hin : step_inputs sym ev i bar) (Hst : engine_inv st) (Hal : aligned_inputs sym ev i bar)
    (Hpos : possible i bar st) (Hip : 1 <= ip) (Hfp : ip + fp <= 27)
    (Hvol : forall q, stake i st = Some q -> exists d v, Decimal q = Ok d /\ rep ip fp (dval d) /\ Decimal (base_volume bar) = Ok v
       /\ (0 <= dval d)%Q /\ (2 * dval d <= dval v)%Q) :
  exists st' fills, process sym ev i bar st = (st', Ok fills) /\ lifecycle sym ev bar st i st' fills.
Proof.
  destruct (possible_steps sym ev i bar st Hin Hst Hpos) as (st' & fills & E & Hl & _ & Hv). exists st', fills. split; [|done].
  destruct Hal as [T [S1 S2] (B1 & B2 & B3)]. unfold process. rewrite T, S1, S2, B1, B2, B3, !String.eqb_refl, !Z.eqb_refl. cbn [negb orb].
  unfold srollback, process_body. fold (action_steps sym ev i bar). unfold sbind at 1. rewrite E.
  pose proof (volume_within sym ev bar st i st' fills ip fp (si_bar _ _ _ _ Hin) Hl Hv Hip Hfp Hvol) as Eg.
  unfold sbind, slift. by rewrite Eg.
Qed.

(** ** A concrete session *)

Definition sample_event (t : Z) : decision_event :=
  DecisionEvent 0 t t (MarketSnapshot "BTCUSDT" t (visible t (ds_primary sample_dataset))
    (visible t (ds_context sample_dataset)) (visible t (ds_regime sample_dataset))).
Definition sample_entry (t : Z) (q : string) : paper_intent :=
  PaperIntent ENTER_LONG t (Some q) (Some "80") (Some "108").
Definition sample_bar (t : Z) (volume : string) : candle :=
  Candle DATA_SOURCE "BTCUSDT" "1h" t (t + HOUR_MS - 1) "100" "110" "90" "105" volume "1000" 5 true.

Lemma sample_inputs : step_inputs "BTCUSDT" (sample_event (5 * HOUR_MS)) (sample_entry (5 * HOUR_MS) "1")
  (sample_bar (5 * HOUR_MS) "10").
Proof. split; vm_compute; reflexivity. Qed.

(** The program means fills never to exceed the bar's base volume, but
    the gate sums in the default 28-digit context: a legal bar of volume 1
    accepts an entry of 1.0000000000000000000000000001. *)
Theorem volume_gate_rounds : exists q st' f,
  process "BTCUSDT" (sample_event (5 * HOUR_MS)) (sample_entry (5 * HOUR_MS) q)
    (Candle DATA_SOURCE "BTCUSDT" "1h" (5 * HOUR_MS) (6 * HOUR_MS - 1) "100" "105" "90" "105" "1" "100" 5 true) None
    = (st', Ok [f])
  /\ step_inputs "BTCUSDT" (sample_event (5 * HOUR_MS)) (sample_entry (5 * HOUR_MS) q)
       (Candle DATA_SOURCE "BTCUSDT" "1h" (5 * HOUR_MS) (6 * HOUR_MS - 1) "100" "105" "90" "105" "1" "100" 5 true)
  /\ (1 < total_quantity [f])%Q.
Proof.
  exists "1.0000000000000000000000000001"%string. do 2 eexists. split; [vm_compute; reflexivity|].
  split; [split; vm_compute; reflexivity|]. vm_compute. reflexivity.
Qed.

Lemma protective_exit_conservative_witness :
  exists price reason, protective_level (OpenPosition "1" "95" "108") (sample_bar (5 * HOUR_MS) "10") = Ok (Some (price, reason))
    /\ exists d, Decimal price = Ok d /\ (dval d <= 95)%Q.
Proof.
  destruct (protective_exit_conservative (OpenPosition "1" "95" "108") (sample_bar (5 * HOUR_MS) "10"))
    as (level & o & h & l & s & t & E & Ho & Hh & Hl & Hs & Ht & _ & Hprice).
  - exists dec1, (dec_of_Z 95), (dec_of_Z 108). repeat split; vm_compute; (reflexivity || congruence).
  - vm_compute. reflexivity.
  - exists "95"%string, AMBIGUOUS_STOP_PRIORITY. split; [vm_compute; reflexivity|].
    destruct (Hprice "95"%string AMBIGUOUS_STOP_PRIORITY) as (d & Ed & _ & H & _).
    { vm_compute in E. injection E as <-. reflexivity. }
    exists d. split; [exact Ed|].
    destruct Ho as ((Eo & _) & _), Hl as ((El & _) & _), Hs as ((Es & _) & _), Ht as ((Et & _) & _).
    vm_compute in Eo, El, Es, Et. injection Eo as <-. injection El as <-. injection Es as <-. injection Et as <-.
    apply H; vm_compute; congruence.
Defined.

Lemma process_total_atomic_witness :
  exists st' fills, process "BTCUSDT" (sample_event (5 * HOUR_MS)) (sample_entry (5 * HOUR_MS) "1")
      (sample_bar (5 * HOUR_MS) "10") None = (st', Ok fills)
    /\ engine_inv st' /\ Forall reference_valid fills.
Proof.
  do 2 eexists. split; [vm_compute; reflexivity|].
  apply (process_total_atomic "BTCUSDT" (sample_event (5 * HOUR_MS)) (sample_entry (5 * HOUR_MS) "1")
    (sample_bar (5 * HOUR_MS) "10") None _ (Ok _) sample_inputs I).
  vm_compute. reflexivity.
Defined.

Lemma session_trade_log_witness :
  exists st fills, session "BTCUSDT" [(sample_event (5 * HOUR_MS), sample_entry (5 * HOUR_MS) "1", sample_bar (5 * HOUR_MS) "10")] None
      = (st, fills) /\ trade_log None fills = Some (quantity <$> st).
Proof.
  do 2 eexists. split; [vm_compute; reflexivity|].
  apply (session_trade_log "BTCUSDT" [(sample_event (5 * HOUR_MS), sample_entry (5 * HOUR_MS) "1", sample_bar (5 * HOUR_MS) "10")]).
  - constructor; [exact sample_inputs|constructor].
  - vm_compute. reflexivity.
Defined.

Lemma volume_gate_exact_witness :
  exists v fills, snd (process "BTCUSDT" (sample_event (5 * HOUR_MS)) (sample_entry (5 * HOUR_MS) "1")
      (sample_bar (5 * HOUR_MS) "10") None) = Ok fills
    /\ Decimal "10" = Ok v /\ (total_quantity fills <= dval v)%Q.
Proof.
  destruct (process "BTCUSDT" (sample_event (5 * HOUR_MS)) (sample_entry (5 * HOUR_MS) "1")
      (sample_bar (5 * HOUR_MS) "10") None) as [st' [fills|e]] eqn:E; [|exfalso; vm_compute in E; discriminate E].
  destruct (volume_gate_exact _ _ _ _ None _ _ 1 0 sample_inputs I E) as (v & H1 & H2); [lia|lia| |].
  - vm_compute in E. injection E as _ <-.
    repeat constructor; (discriminate || (exists 1; split; vm_compute; reflexivity)).
  - exists v, fills. split; [reflexivity|]. split; [exact H1|exact H2].
Defined.

Lemma legal_intents_fill_witness : exists st' fills,
  process "BTCUSDT" (sample_event (5 * HOUR_MS)) (sample_entry (5 * HOUR_MS) "1") (sample_bar (5 * HOUR_MS) "10") None = (st', Ok fills)
  /\ lifecycle "BTCUSDT" (sample_event (5 * HOUR_MS)) (sample_bar (5 * HOUR_MS) "10") None (sample_entry (5 * HOUR_MS) "1") st' fills.
Proof.
  apply (legal_intents_fill "BTCUSDT" (sample_event (5 * HOUR_MS)) (sample_entry (5 * HOUR_MS) "1") (sample_bar (5 * HOUR_MS) "10") None 1 0
           sample_inputs I).
  - repeat split.
  - split; [reflexivity|]. exists (dec_of_Z 80), (dec_of_Z 100), (dec_of_Z 108). repeat split; vm_compute; (reflexivity || congruence).
  - lia.
  - lia.
  - intros q Hq. injection Hq as <-. exists dec1, (dec_of_Z 10). split; [vm_compute; reflexivity|]. split; [|split; [vm_compute; reflexivity|split; vm_compute; congruence]].
    split; [lia|]. exists 1. split; [vm_compute; reflexivity|lia].
Defined.
