(* ===== verification/Costs.v ===== *)
(** * Exact costs of a fill (yatl/backtest/costs.py)

    Adverse slippage and quote fees, computed in a 256-digit decimal context.
    The theorems show that, for every reference and specification the
    program accepts, no operation of the component rounds. *)
From S2P Require Import Prelude PyDecimal PyText Market BacktestConfig MarketView Fills.

Definition BASIS_POINTS : dec := dec_of_Z 10000.
Definition DECIMAL_PRECISION : N := prec256.

Definition _rate (value : dec) (field : string) : result dec :=
  raise_if dltb value dec0 || dltb MAX_COST_BPS value with CostModelError (String.append field " is invalid") ;;
  Ok value.

(** The computed values of a fill, in the order of the constructor. *)
Record cost_values : Type := CostValues {
  execution_price : dec;
  gross_quote : dec;
  fee_quote : dec;
  slippage_quote : dec;
  cash_delta : dec;
  asset_delta : dec;
}.

Definition _components (reference : fill_reference) (fee_bps slippage_bps : dec) : result cost_values :=
  let p := DECIMAL_PRECISION in
  let* fee_bps := _rate fee_bps "fee_bps" in
  let* slippage_bps := _rate slippage_bps "slippage_bps" in
  let* quantity := Decimal (fr_quantity reference) in
  let* price := Decimal (reference_price reference) in
  let* slip_rate := ddiv p slippage_bps BASIS_POINTS in
  let* fee_rate := ddiv p fee_bps BASIS_POINTS in
  let entering := bool_decide (fr_action reference = ENTER_LONG) in
  let execution_price :=
    if entering then dmul p price (dadd p dec1 slip_rate) else dmul p price (dsub p dec1 slip_rate) in
  let asset_delta := if entering then quantity else dminus p quantity in
  let direction := if entering then dec_of_Z (-1) else dec1 in
  let gross_quote := dmul p quantity execution_price in
  let fee_quote := dmul p gross_quote fee_rate in
  let slippage_quote := dmul p quantity (dabs p (dsub p execution_price price)) in
  let cash_delta := dsub p (dmul p direction gross_quote) fee_quote in
  Ok (CostValues execution_price gross_quote fee_quote slippage_quote cash_delta asset_delta).

(** Equality of the tuples of decimals is numeric. *)
Definition values_eqb (v w : cost_values) : bool :=
  deqb (execution_price v) (execution_price w) && deqb (gross_quote v) (gross_quote w)
  && deqb (fee_quote v) (fee_quote w) && deqb (slippage_quote v) (slippage_quote w)
  && deqb (cash_delta v) (cash_delta w) && deqb (asset_delta v) (asset_delta w).

Record costed_fill : Type := CostedFill {
  cf_reference : fill_reference;
  cf_fee_bps : dec;
  cf_slippage_bps : dec;
  cf_values : cost_values;
}.

Definition costed_post_init (f : costed_fill) : result unit :=
  let* expected := _components (cf_reference f) (cf_fee_bps f) (cf_slippage_bps f) in
  raise_if negb (values_eqb (cf_values f) expected)
    with CostModelError "Costed fill arithmetic is inconsistent" ;;
  Ok tt.
Definition new_costed (f : costed_fill) : result costed_fill := do* costed_post_init f ;; Ok f.
Definition costed_valid (f : costed_fill) : Prop :=
  reference_valid (cf_reference f) /\ costed_post_init f = Ok tt.

Definition total_cost_quote (f : costed_fill) : dec :=
  dadd DECIMAL_PRECISION (fee_quote (cf_values f)) (slippage_quote (cf_values f)).

Definition apply_costs (reference : fill_reference) (spec : backtest_spec) : result costed_fill :=
  raise_if negb (String.eqb (fr_symbol reference) (bs_symbol spec))
    with CostModelError "Fill and backtest symbols differ" ;;
  let* fee_bps := fee_bps_decimal spec in
  let* slippage_bps := slippage_bps_decimal spec in
  let* values := _components reference fee_bps slippage_bps in
  new_costed (CostedFill reference fee_bps slippage_bps values).

(** * Properties *)

(** ** The exact values *)

Definition bps (v : Q) : Q := (v / 10000)%Q.

(** The accounting model over the rationals: side, quantity, reference price,
    fee and slippage rates. *)
Section Model.
Context (entering : bool) (q p fee slip : Q).
Definition side : Q := if entering then 1%Q else (-1)%Q.
Definition exec_value : Q := (p * (1 + side * slip))%Q.
Definition gross_value : Q := (q * exec_value)%Q.
Definition fee_value : Q := (gross_value * fee)%Q.
Definition slippage_value : Q := (q * p * slip)%Q.
Definition cash_value : Q := (- side * gross_value - fee_value)%Q.
Definition asset_value : Q := (side * q)%Q.
End Model.

Definition is_entry (r : fill_reference) : bool := bool_decide (fr_action r = ENTER_LONG).

(** [values] are exactly the model's values. *)
Record exact_values (entering : bool) (q p fee slip : Q) (v : cost_values) : Prop := {
  ev_exec : (dval (execution_price v) == exec_value entering p slip)%Q;
  ev_gross : (dval (gross_quote v) == gross_value entering q p slip)%Q;
  ev_fee : (dval (fee_quote v) == fee_value entering q p fee slip)%Q;
  ev_slippage : (dval (slippage_quote v) == slippage_value q p slip)%Q;
  ev_cash : (dval (cash_delta v) == cash_value entering q p fee slip)%Q;
  ev_asset : (dval (asset_delta v) == asset_value entering q)%Q;
}.

(** A rate in basis points as the specification allows it. *)
Definition rate_value (v : Q) : Prop := rep 4 40 v /\ (0 <= v <= 1000)%Q.

Lemma _rate_ok value field d : _rate value field = Ok d -> d = value /\ (0 <= dval value <= 1000)%Q.
Proof.
  unfold _rate. intros H. res_inv. subst. apply orb_false_iff in Hc as [H1 H2].
  apply dltb_false in H1, H2. rewrite dval_0 in H1.
  assert (dval MAX_COST_BPS == 1000)%Q as E by reflexivity. rewrite E in H2. done.
Qed.

Lemma _rate_total value field : (0 <= dval value <= 1000)%Q -> _rate value field = Ok value.
Proof.
  intros [H1 H2]. unfold _rate.
  rewrite (proj2 (dltb_false value dec0)) by by rewrite dval_0.
  by rewrite (proj2 (dltb_false MAX_COST_BPS value)) by exact H2.
Qed.

Lemma bps_rep v : rate_value v -> rep 0 44 (bps v) /\ (0 <= bps v <= 1 # 10)%Q.
Proof.
  intros [Hr Hb]. split.
  - apply (rep_div10 4 4 40 v) in Hr; [exact Hr|lia].
  - unfold bps. split; [apply Qle_shift_div_l|apply Qle_shift_div_r]; lra.
Qed.

Lemma bps_div v d : rate_value (dval v) -> ddiv DECIMAL_PRECISION v BASIS_POINTS = Ok d -> (dval d == bps (dval v))%Q.
Proof.
  intros H E. apply bps_rep in H as [Hr _].
  assert (dval BASIS_POINTS == 10000)%Q as EB by reflexivity.
  rewrite (ddiv_val (p:=DECIMAL_PRECISION) (i:=0) (f:=44) ltac:(done) ltac:(done) _ E); rewrite EB; done.
Qed.

Lemma bps_total v : exists d, ddiv DECIMAL_PRECISION v BASIS_POINTS = Ok d.
Proof. apply ddiv_total. discriminate. Qed.

(** Bounds on a product with a factor below a power of ten. *)
Lemma Qabs_lt_iff x y : (Qabs x < y)%Q <-> (- y < x < y)%Q.
Proof. rewrite Qabs_Qlt_condition. done. Qed.

Section Exactness.
Context (e : bool) (q p fee slip : Q).
Hypothesis Hq : rep 40 40 q.
Hypothesis Hp : rep 40 40 p.
Hypothesis Hslip : rep 0 44 slip.
Hypothesis Hfee : rep 0 44 fee.
Hypothesis Bslip : (0 <= slip <= 1 # 10)%Q.
Hypothesis Bfee : (0 <= fee <= 1 # 10)%Q.
Hypothesis Bq : (0 < q)%Q.
Hypothesis Bp : (0 < p)%Q.

Lemma factor_bounds : (9 # 10 <= 1 + side e * slip <= 11 # 10)%Q.
Proof using Bslip. unfold side. destruct e; lra. Qed.

Lemma side_rep : rep 1 0 (side e).
Proof using. destruct e; [apply rep_1|apply (rep_opp _ _ _ rep_1)]. Qed.

Lemma side_mult_rep i f v : rep i f v -> rep i f (side e * v).
Proof using.
  intros H. unfold side. destruct e; [by rewrite Qmult_1_l|].
  assert (-1 * v == - v)%Q as -> by ring. by apply rep_opp.
Qed.

Lemma factor_rep : rep 1 44 (1 + side e * slip).
Proof using Hslip Bslip.
  pose proof factor_bounds as B.
  eapply rep_bound; [apply (rep_plus 1 0 0 44); [apply rep_1|by apply side_mult_rep]|done|].
  apply Qabs_lt_iff. change (q10 1) with 10%Q. lra.
Qed.

Lemma exec_rep : rep 41 84 (exec_value e p slip).
Proof using Hp Hslip Bslip. apply (rep_mult 40 40 1 44 _ _ Hp factor_rep). Qed.

Lemma exec_pos : (0 < exec_value e p slip)%Q.
Proof using Bslip Bp. apply Qmult_lt_0_compat; [done|]. pose proof factor_bounds. lra. Qed.

Lemma gross_rep : rep 81 124 (gross_value e q p slip).
Proof using Hq Hp Hslip Bslip. apply (rep_mult 40 40 41 84 _ _ Hq exec_rep). Qed.

Lemma gross_pos : (0 < gross_value e q p slip)%Q.
Proof using Bslip Bp Bq. apply Qmult_lt_0_compat; [done|apply exec_pos]. Qed.

Lemma fee_rep : rep 81 168 (fee_value e q p fee slip).
Proof using Hq Hp Hslip Hfee Bslip. apply (rep_mult 81 124 0 44 _ _ gross_rep Hfee). Qed.

Lemma fee_bounds : (0 <= fee_value e q p fee slip <= (1 # 10) * gross_value e q p slip)%Q.
Proof using Bslip Bp Bq Bfee. pose proof gross_pos. unfold fee_value. split; nra. Qed.

Lemma slippage_rep : rep 80 124 (slippage_value q p slip).
Proof using Hq Hp Hslip.
  unfold slippage_value. rewrite <- Qmult_assoc. apply (rep_mult 40 40 40 84); [done|].
  apply (rep_mult 40 40 0 44); done.
Qed.

Lemma slippage_nonneg : (0 <= slippage_value q p slip)%Q.
Proof using Bslip Bp Bq.
  unfold slippage_value. apply Qmult_le_0_compat; [|lra]. apply Qlt_le_weak, Qmult_lt_0_compat; done.
Qed.

Lemma exec_diff : (exec_value e p slip - p == side e * (p * slip))%Q.
Proof using. unfold exec_value. ring. Qed.

Lemma exec_diff_rep : rep 40 84 (exec_value e p slip - p).
Proof using Hp Hslip. rewrite exec_diff. apply side_mult_rep, (rep_mult 40 40 0 44); done. Qed.

Lemma exec_diff_abs : (Qabs (exec_value e p slip - p) == p * slip)%Q.
Proof using Bslip Bp.
  assert (0 <= p * slip)%Q by (apply Qmult_le_0_compat; lra).
  rewrite exec_diff, Qabs_Qmult, (Qabs_pos (p * slip)) by done.
  unfold side. destruct e; apply Qmult_1_l.
Qed.

Lemma cash_rep : rep 82 168 (cash_value e q p fee slip).
Proof using Hq Hp Hslip Hfee Bslip.
  unfold cash_value. apply (rep_minus 81 124 81 168); [|apply fee_rep].
  assert (- side e * gross_value e q p slip == - (side e * gross_value e q p slip))%Q as -> by ring.
  apply rep_opp, side_mult_rep, gross_rep.
Qed.
End Exactness.

(** The intermediate decimals of [_components] are exact. *)
Lemma components_exact r fee_bps slip_bps q p :
  denotes (fr_quantity r) q -> denotes (reference_price r) p -> (0 < dval q)%Q -> (0 < dval p)%Q ->
  rate_value (dval fee_bps) -> rate_value (dval slip_bps) ->
  exists v, _components r fee_bps slip_bps = Ok v
    /\ exact_values (is_entry r) (dval q) (dval p) (bps (dval fee_bps)) (bps (dval slip_bps)) v.
Proof.
  intros (Eq & Hq & _) (Ep & Hp & _) Bq Bp Hfee Hslip.
  apply plain_rep in Hq, Hp.
  destruct (bps_total slip_bps) as [sr Es], (bps_total fee_bps) as [fr Ef].
  pose proof (bps_div _ _ Hslip Es) as Vs. pose proof (bps_div _ _ Hfee Ef) as Vf.
  destruct (bps_rep _ Hslip) as [Rs Bs], (bps_rep _ Hfee) as [Rf Bf].
  unfold _components. rewrite (_rate_total _ _ (proj2 Hfee)). cbn [rbind].
  rewrite (_rate_total _ _ (proj2 Hslip)). cbn [rbind]. rewrite Eq, Ep, Es, Ef. cbn [rbind].
  eexists. split; [reflexivity|]. fold (is_entry r).
  set (e := is_entry r). set (sl := bps (dval slip_bps)) in *. set (fe := bps (dval fee_bps)) in *.
  assert (dval (if e then dadd DECIMAL_PRECISION dec1 sr else dsub DECIMAL_PRECISION dec1 sr) == 1 + side e * sl)%Q as Vfac.
  { pose proof (factor_rep e sl Rs Bs) as H. unfold side in *. destruct e.
    - rewrite (dadd_val (i:=1) (f:=44)); rewrite ?dval_1, ?Vs; [ring|done|done|]. by rewrite Qmult_1_l in H.
    - rewrite (dsub_val (i:=1) (f:=44)); rewrite ?dval_1, ?Vs; [ring|done|done|].
      assert (1 - sl == 1 + -1 * sl)%Q as -> by ring. done. }
  pose proof (exec_rep e _ sl Hp Rs Bs) as Rx. pose proof (gross_rep e _ _ sl Hq Hp Rs Bs) as Rg.
  pose proof (fee_rep e _ _ fe sl Hq Hp Rs Rf Bs) as Rfee. pose proof (slippage_rep _ _ sl Hq Hp Rs) as Rsl.
  pose proof (exec_diff_rep e _ sl Hp Rs) as Rd. pose proof (cash_rep e _ _ fe sl Hq Hp Rs Rf Bs) as Rc.
  set (x := if e then dmul _ p (dadd _ dec1 sr) else dmul _ p (dsub _ dec1 sr)).
  assert (dval x == exec_value e (dval p) sl)%Q as Vx.
  { replace x with (dmul DECIMAL_PRECISION p (if e then dadd DECIMAL_PRECISION dec1 sr else dsub DECIMAL_PRECISION dec1 sr))
      by (unfold x; by destruct e).
    rewrite (dmul_val (i:=41) (f:=84)); rewrite ?Vfac; [reflexivity|done|done|exact Rx]. }
  assert (dval (dmul DECIMAL_PRECISION q x) == gross_value e (dval q) (dval p) sl)%Q as Vg.
  { rewrite (dmul_val (i:=81) (f:=124)); rewrite ?Vx; [reflexivity|done|done|exact Rg]. }
  assert (dval (dmul DECIMAL_PRECISION (dmul DECIMAL_PRECISION q x) fr) == fee_value e (dval q) (dval p) fe sl)%Q as Vfee.
  { rewrite (dmul_val (i:=81) (f:=168)); rewrite ?Vg, ?Vf; [reflexivity|done|done|exact Rfee]. }
  constructor; simpl; [exact Vx|exact Vg|exact Vfee|..].
  - assert (dval (dsub DECIMAL_PRECISION x p) == exec_value e (dval p) sl - dval p)%Q as Vd.
    { rewrite (dsub_val (i:=40) (f:=84)); rewrite ?Vx; [reflexivity|done|done|exact Rd]. }
    assert (dval (dabs DECIMAL_PRECISION (dsub DECIMAL_PRECISION x p)) == dval p * sl)%Q as Va.
    { rewrite (dabs_val (i:=40) (f:=84)); rewrite ?Vd; [|done|done|exact Rd]. by apply exec_diff_abs. }
    rewrite (dmul_val (i:=80) (f:=124)); rewrite ?Va; [unfold slippage_value; ring|done|done|].
    unfold slippage_value in Rsl. by rewrite <- Qmult_assoc in Rsl.
  - assert (dval (dmul DECIMAL_PRECISION (if e then dec_of_Z (-1) else dec1) (dmul DECIMAL_PRECISION q x))
            == - side e * gross_value e (dval q) (dval p) sl)%Q as Vdir.
    { assert (dval (if e then dec_of_Z (-1) else dec1) == - side e)%Q as E1 by by destruct e.
      rewrite (dmul_val (i:=81) (f:=124)); rewrite ?E1, ?Vg; [reflexivity|done|done|].
      assert (- side e * gross_value e (dval q) (dval p) sl == - (side e * gross_value e (dval q) (dval p) sl))%Q as -> by ring.
      apply rep_opp, side_mult_rep, Rg. }
    rewrite (dsub_val (i:=82) (f:=168)); rewrite ?Vdir, ?Vfee; [reflexivity|done|done|exact Rc].
  - unfold asset_value, side. destruct e; [ring|].
    rewrite (dminus_val (i:=40) (f:=40)); [ring|done|done|exact Hq].
Qed.

Lemma values_eqb_exact e q p f s v w : exact_values e q p f s v ->
  values_eqb v w = true <-> exact_values e q p f s w.
Proof.
  intros [E1 E2 E3 E4 E5 E6]. unfold values_eqb. rewrite !andb_true_iff, !deqb_spec, E1, E2, E3, E4, E5, E6.
  split; [intros (((((?&?)&?)&?)&?)&?); constructor|intros []; repeat split]; by symmetry.
Qed.

Lemma reference_amounts r : reference_valid r -> exists q p,
  denotes (fr_quantity r) q /\ denotes (reference_price r) p /\ (0 < dval q)%Q /\ (0 < dval p)%Q.
Proof.
  unfold reference_valid, reference_post_init. intros H. res_inv.
  apply _positive_decimal_ok in Hr as [? ?], Hr0 as [? ?]. eauto 10.
Qed.

Lemma spec_rates spec : spec_valid spec -> exists f s,
  fee_bps_decimal spec = Ok f /\ slippage_bps_decimal spec = Ok s
  /\ rate_value (dval f) /\ rate_value (dval s).
Proof.
  intros H. apply spec_valid_facts in H as [_ _ _ _ (c & f & s & _ & Ef & Es & _ & Hf & Hs & _ & Bf & Bs) _].
  exists f, s. unfold rate_value. split_and!; try done; try lra.
  - eapply rep_bound; [by eapply plain_rep|done|]. apply Qabs_lt_iff. change (q10 4) with 10000%Q. lra.
  - eapply rep_bound; [by eapply plain_rep|done|]. apply Qabs_lt_iff. change (q10 4) with 10000%Q. lra.
Qed.

Lemma apply_costs_exact r spec : reference_valid r -> spec_valid spec -> fr_symbol r = bs_symbol spec ->
  exists q p f s fill,
    apply_costs r spec = Ok fill /\ costed_valid fill
    /\ cf_reference fill = r /\ cf_fee_bps fill = f /\ cf_slippage_bps fill = s
    /\ positive_amount (fr_quantity r) q /\ positive_amount (reference_price r) p
    /\ fee_bps_decimal spec = Ok f /\ slippage_bps_decimal spec = Ok s
    /\ rate_value (dval f) /\ rate_value (dval s)
    /\ exact_values (is_entry r) (dval q) (dval p) (bps (dval f)) (bps (dval s)) (cf_values fill).
Proof.
  intros Hr Hs Hsym. destruct (reference_amounts _ Hr) as (q & p & Hq & Hp & Bq & Bp).
  destruct (spec_rates _ Hs) as (f & s & Ef & Es & Rf & Rs).
  destruct (components_exact r f s q p Hq Hp Bq Bp Rf Rs) as (v & Ev & Hv).
  assert (costed_post_init (CostedFill r f s v) = Ok tt) as Hc.
  { unfold costed_post_init. cbn [cf_reference cf_fee_bps cf_slippage_bps cf_values]. rewrite Ev. cbn [rbind].
    by rewrite (proj2 (values_eqb_exact _ _ _ _ _ v v Hv) Hv). }
  exists q, p, f, s, (CostedFill r f s v). split_and!; try done.
  unfold apply_costs. rewrite Hsym, String.eqb_refl. simpl. rewrite Ef, Es. cbn [rbind]. rewrite Ev. cbn [rbind].
  unfold new_costed. by rewrite Hc.
Qed.

(** A fill that passed its constructor carries the model's values, whatever
    the spelling of its rates. *)
Lemma costed_exact f : costed_valid f -> rate_value (dval (cf_fee_bps f)) -> rate_value (dval (cf_slippage_bps f)) ->
  exists q p, positive_amount (fr_quantity (cf_reference f)) q /\ positive_amount (reference_price (cf_reference f)) p
    /\ exact_values (is_entry (cf_reference f)) (dval q) (dval p)
         (bps (dval (cf_fee_bps f))) (bps (dval (cf_slippage_bps f))) (cf_values f).
Proof.
  intros [Hr Hc] Rf Rs. destruct (reference_amounts _ Hr) as (q & p & Hq & Hp & Bq & Bp).
  exists q, p. do 2 (split; [done|]).
  destruct (components_exact _ _ _ q p Hq Hp Bq Bp Rf Rs) as (v & Ev & Hv).
  unfold costed_post_init in Hc. rewrite Ev in Hc. res_inv. subst. bool_prop.
  apply (values_eqb_exact _ _ _ _ _ _ _ Hv).
  clear Hv. unfold values_eqb in *. rewrite !andb_true_iff, !deqb_spec in *.
  repeat match goal with H : _ /\ _ |- _ => destruct H end. split_and!; by symmetry.
Qed.

Lemma cash_identity e q p f s :
  (cash_value e q p f s == - side e * (q * p) - (fee_value e q p f s + slippage_value q p s))%Q.
Proof. unfold cash_value, gross_value, exec_value, slippage_value, side. destruct e; ring. Qed.

Lemma exit_cash_pos q p f s : (0 < q)%Q -> (0 < p)%Q -> (0 <= f <= 1 # 10)%Q -> (0 <= s <= 1 # 10)%Q ->
  (0 < cash_value false q p f s)%Q.
Proof.
  intros Bq Bp Bf Bs. pose proof (gross_pos false q p s Bs Bq Bp).
  pose proof (fee_bounds false q p f s Bs Bf Bq Bp).
  unfold cash_value. change (side false) with (-1)%Q. lra.
Qed.

Lemma total_cost_exact f q p : costed_valid f ->
  rate_value (dval (cf_fee_bps f)) -> rate_value (dval (cf_slippage_bps f)) ->
  positive_amount (fr_quantity (cf_reference f)) q -> positive_amount (reference_price (cf_reference f)) p ->
  (dval (total_cost_quote f) == dval (fee_quote (cf_values f)) + dval (slippage_quote (cf_values f)))%Q.
Proof.
  intros Hc Rf Rs Hq Hp. destruct (costed_exact f Hc Rf Rs) as (q' & p' & Hq' & Hp' & Hv).
  rewrite (positive_amount_fun _ _ _ Hq' Hq), (positive_amount_fun _ _ _ Hp' Hp) in Hv.
  destruct (bps_rep _ Rf) as [Rf' Bf], (bps_rep _ Rs) as [Rs' Bs].
  destruct Hq as ((_ & Hq & _) & Bq), Hp as ((_ & Hp & _) & Bp). apply plain_rep in Hq, Hp.
  destruct Hv as [_ _ Vf Vs _ _]. unfold total_cost_quote.
  rewrite (dadd_val (i:=82) (f:=168)); [reflexivity|done|done|]. rewrite Vf, Vs.
  apply (rep_plus 81 168 80 124); [by apply fee_rep|by apply slippage_rep].
Qed.

(** C5.  Costs are exact and adverse.  [apply_costs] accepts every valid
    reference of the specification's symbol; none of its decimal operations
    rounds; slippage moves the price against the trader by exactly the given
    rate and never in their favour; and the cash movement is the frictionless
    one minus exactly the reported total cost.  An exit always brings cash. *)
Theorem apply_costs_adverse r spec :
  reference_valid r -> spec_valid spec -> fr_symbol r = bs_symbol spec ->
  exists q p f s fill,
    apply_costs r spec = Ok fill /\ costed_valid fill
    /\ positive_amount (fr_quantity r) q /\ positive_amount (reference_price r) p
    /\ fee_bps_decimal spec = Ok f /\ slippage_bps_decimal spec = Ok s
    /\ exact_values (is_entry r) (dval q) (dval p) (bps (dval f)) (bps (dval s)) (cf_values fill)
    /\ (dval (cash_delta (cf_values fill))
        == - side (is_entry r) * (dval q * dval p) - dval (total_cost_quote fill))%Q
    /\ (0 <= dval (total_cost_quote fill))%Q
    /\ (0 <= side (is_entry r) * (dval (execution_price (cf_values fill)) - dval p))%Q
    /\ (is_entry r = false -> (0 < dval (cash_delta (cf_values fill)))%Q).
Proof.
  intros Hr Hs Hsym.
  destruct (apply_costs_exact r spec Hr Hs Hsym)
    as (q & p & f & s & fill & E & Hc & Er & Ecf & Ecs & Hq & Hp & Ef & Es & Rf & Rs & Hv).
  exists q, p, f, s, fill. split_and!; try done.
  all: destruct (bps_rep _ Rf) as [Rf' Bf], (bps_rep _ Rs) as [Rs' Bs], Hq as [Hq Bq], Hp as [Hp Bp].
  all: pose proof (total_cost_exact fill q p Hc) as Ht; rewrite Er, Ecf, Ecs in Ht.
  all: specialize (Ht Rf Rs (conj Hq Bq) (conj Hp Bp)); destruct Hv as [Vx Vg Vf Vs Vc Va].
  - rewrite Vc, Ht, Vf, Vs. apply cash_identity.
  - rewrite Ht, Vf, Vs. pose proof (fee_bounds (is_entry r) _ _ _ _ Bs Bf Bq Bp).
    pose proof (slippage_nonneg _ _ _ Bs Bq Bp). lra.
  - rewrite Vx, exec_diff. assert (0 <= dval p * bps (dval s))%Q by (apply Qmult_le_0_compat; lra).
    unfold side. destruct (is_entry r); lra.
  - intros Ee. rewrite Ee in Vc. rewrite Vc. by apply exit_cash_pos.
Qed.

Definition sample_reference : fill_reference :=
  FillReference ENTER_LONG "BTCUSDT" (5 * HOUR_MS) (5 * HOUR_MS) "2" "100" NEXT_PRIMARY_OPEN.

Lemma apply_costs_adverse_witness :
  exists fill, apply_costs sample_reference sample_spec = Ok fill
    /\ (dval (cash_delta (cf_values fill)) == - (2 * 100) - dval (total_cost_quote fill))%Q.
Proof.
  destruct (apply_costs_adverse sample_reference sample_spec)
    as (q & p & f & s & fill & E & _ & [(Eq & _) _] & [(Ep & _) _] & _ & _ & _ & Hcash & _).
  - vm_compute. reflexivity.
  - vm_compute. reflexivity.
  - reflexivity.
  - exists fill. split; [exact E|]. rewrite Hcash.
    vm_compute in Eq, Ep. injection Eq as <-. injection Ep as <-.
    change (side (is_entry sample_reference)) with 1%Q. 
    assert (dval (Dec false 2 0) == 2)%Q as -> by reflexivity.
    assert (dval (Dec false 100 0) == 100)%Q as -> by reflexivity. ring.
Defined.
