(* ===== verification/Ledger.v ===== *)
(** * The portfolio ledger (yatl/backtest/portfolio.py)

    A long-only Spot ledger that applies costed fills one by one or in
    batches, with rollback, and values the position at a mark price. *)
From S2P Require Import Prelude PyDecimal PyText Market BacktestConfig MarketView Fills Costs.

Definition MAX_LEDGER_BATCH : Z := 100000.

Definition _mark (value : string) : result dec :=
  raise_if negb (decimal_pattern value) with PortfolioError "Mark price must be a plain positive decimal string" ;;
  let* number := Decimal value in
  raise_if dleb number dec0 with PortfolioError "Mark price must be positive" ;;
  Ok number.

Record portfolio_snapshot : Type := PortfolioSnapshot {
  ps_symbol : string;
  ps_cash : dec;
  ps_asset_quantity : dec;
  ps_cost_basis_quote : dec;
  liquidation_value_quote : dec;
  ps_realized_pnl_quote : dec;
  unrealized_pnl_quote : dec;
  equity_quote : dec;
  ps_total_fee_quote : dec;
  ps_total_slippage_quote : dec;
  ps_closed_trades : Z;
}.

Definition portfolio_snapshot_post_init (s : portfolio_snapshot) : result unit :=
  let p := DECIMAL_PRECISION in
  let equity_is_valid := deqb (equity_quote s) (dadd p (ps_cash s) (liquidation_value_quote s)) in
  let unrealized_is_valid :=
    deqb (unrealized_pnl_quote s) (dsub p (liquidation_value_quote s) (ps_cost_basis_quote s)) in
  raise_if negb (str_in (ps_symbol s) SYMBOLS)
           || dltb (ps_cash s) dec0 || dltb (ps_asset_quantity s) dec0
           || dltb (ps_cost_basis_quote s) dec0 || dltb (liquidation_value_quote s) dec0
           || dltb (ps_total_fee_quote s) dec0 || dltb (ps_total_slippage_quote s) dec0
           || (ps_closed_trades s <? 0)
           || negb equity_is_valid || negb unrealized_is_valid
           || (deqb (ps_asset_quantity s) dec0
               && (negb (deqb (ps_cost_basis_quote s) dec0) || negb (deqb (liquidation_value_quote s) dec0)))
    with PortfolioError "Portfolio snapshot arithmetic is inconsistent" ;;
  Ok tt.

(** [PortfolioLedger]; [_applied] is a set of fills, kept here as a list, and
    membership is the dataclass equality. *)
Record ledger : Type := Ledger {
  cash : dec;
  asset_quantity : dec;
  cost_basis_quote : dec;
  realized_pnl_quote : dec;
  total_fee_quote : dec;
  total_slippage_quote : dec;
  closed_trades : Z;
  _last_fill_time_ms : option Z;
  _applied : list costed_fill;
}.

Definition costed_eqb (f g : costed_fill) : bool :=
  bool_decide (cf_reference f = cf_reference g) && deqb (cf_fee_bps f) (cf_fee_bps g)
  && deqb (cf_slippage_bps f) (cf_slippage_bps g) && values_eqb (cf_values f) (cf_values g).

Definition new_ledger (spec : backtest_spec) : result ledger :=
  let* cash := cash_decimal spec in
  Ok (Ledger cash dec0 dec0 dec0 dec0 dec0 0 None []).

Definition ledger_has_position (l : ledger) : bool := dltb dec0 (asset_quantity l).

(** The balances after an accepted entry or exit, before the totals. *)
Definition enter_balances (f : costed_fill) : stm ledger unit :=
  let! l := sget in
  sraise_if ledger_has_position l with PortfolioError "Overlapping portfolio positions are forbidden" ;;
  let new_cash := dadd DECIMAL_PRECISION (cash l) (cash_delta (cf_values f)) in
  sraise_if dltb new_cash dec0 with PortfolioError "Portfolio has insufficient cash" ;;
  sput (Ledger new_cash (asset_delta (cf_values f)) (dcopy_negate (cash_delta (cf_values f)))
          (realized_pnl_quote l) (total_fee_quote l) (total_slippage_quote l) (closed_trades l)
          (_last_fill_time_ms l) (_applied l)).

Definition exit_balances (f : costed_fill) : stm ledger unit :=
  let p := DECIMAL_PRECISION in
  let! l := sget in
  sraise_if negb (ledger_has_position l)
            || negb (deqb (dcopy_negate (asset_delta (cf_values f))) (asset_quantity l))
    with PortfolioError "Exit must close the full long position" ;;
  let proceeds := cash_delta (cf_values f) in
  sput (Ledger (dadd p (cash l) proceeds) dec0 dec0
          (dadd p (realized_pnl_quote l) (dsub p proceeds (cost_basis_quote l)))
          (total_fee_quote l) (total_slippage_quote l) (closed_trades l + 1)
          (_last_fill_time_ms l) (_applied l)).

Definition add_totals (f : costed_fill) : stm ledger unit :=
  let p := DECIMAL_PRECISION in
  let! l := sget in
  sput (Ledger (cash l) (asset_quantity l) (cost_basis_quote l) (realized_pnl_quote l)
          (dadd p (total_fee_quote l) (fee_quote (cf_values f)))
          (dadd p (total_slippage_quote l) (slippage_quote (cf_values f)))
          (closed_trades l) (_last_fill_time_ms l) (_applied l)).

Definition record_fill (f : costed_fill) : stm ledger unit :=
  let! l := sget in
  sraise_if dltb (cash l) dec0 || dltb (asset_quantity l) dec0
    with PortfolioError "Portfolio balance became negative" ;;
  sput (Ledger (cash l) (asset_quantity l) (cost_basis_quote l) (realized_pnl_quote l)
          (total_fee_quote l) (total_slippage_quote l) (closed_trades l)
          (Some (fill_time_ms (cf_reference f))) (f :: _applied l)).

Definition _apply (spec : backtest_spec) (f : costed_fill) : stm ledger unit :=
  sraise_if negb (String.eqb (fr_symbol (cf_reference f)) (bs_symbol spec))
    with PortfolioError "Costed fill does not belong to this portfolio" ;;
  let! fee := slift (fee_bps_decimal spec) in
  let! slip := slift (slippage_bps_decimal spec) in
  sraise_if negb (deqb (cf_fee_bps f) fee) || negb (deqb (cf_slippage_bps f) slip)
    with PortfolioError "Costed fill uses a different cost policy" ;;
  let! l := sget in
  sraise_if existsb (costed_eqb f) (_applied l) with PortfolioError "Costed fill was already applied" ;;
  sraise_if match _last_fill_time_ms l with
            | Some t => fill_time_ms (cf_reference f) <? t
            | None => false
            end
    with PortfolioError "Costed fills are out of time order" ;;
  do! (if is_entry (cf_reference f) then enter_balances f else exit_balances f) ;;
  do! add_totals f ;;
  record_fill f.

Definition apply (spec : backtest_spec) (f : costed_fill) : stm ledger unit :=
  srollback [PortfolioError] (_apply spec f).

Fixpoint apply_all (spec : backtest_spec) (fills : list costed_fill) : stm ledger unit :=
  match fills with
  | [] => sret tt
  | f :: rest => do! _apply spec f ;; apply_all spec rest
  end.

Definition apply_many (spec : backtest_spec) (fills : list costed_fill) : stm ledger unit :=
  let n := Z.of_nat (length fills) in
  sraise_if negb ((1 <=? n) && (n <=? MAX_LEDGER_BATCH)) with PortfolioError "Portfolio fill batch size is invalid" ;;
  srollback [PortfolioError] (apply_all spec fills).

(** The liquidation value of the position at a mark price. *)
Definition liquidation (spec : backtest_spec) (l : ledger) (price : dec) : result dec :=
  let p := DECIMAL_PRECISION in
  if ledger_has_position l then
    let* slip := slippage_bps_decimal spec in
    let* slip_rate := ddiv p slip BASIS_POINTS in
    let slipped := dmul p price (dsub p dec1 slip_rate) in
    let gross := dmul p (asset_quantity l) slipped in
    let* fee := fee_bps_decimal spec in
    let* fee_rate := ddiv p fee BASIS_POINTS in
    Ok (dmul p gross (dsub p dec1 fee_rate))
  else Ok dec0.

Definition snapshot (spec : backtest_spec) (l : ledger) (mark_price : string) : result portfolio_snapshot :=
  let p := DECIMAL_PRECISION in
  let* price := _mark mark_price in
  let* liquidation := liquidation spec l price in
  let unrealized := dsub p liquidation (cost_basis_quote l) in
  let equity := dadd p (cash l) liquidation in
  let s := PortfolioSnapshot (bs_symbol spec) (cash l) (asset_quantity l) (cost_basis_quote l) liquidation
             (realized_pnl_quote l) unrealized equity (total_fee_quote l) (total_slippage_quote l)
             (closed_trades l) in
  do* portfolio_snapshot_post_init s ;;
  Ok s.

(** * Properties *)

(** ** Sums over the applied fills *)

Definition total (sel : cost_values -> dec) (fills : list costed_fill) : Q :=
  fold_right (fun f s => (dval (sel (cf_values f)) + s)%Q) 0%Q fills.

(** What the ledger relies on about one fill. *)
Record fill_facts (f : costed_fill) : Prop := {
  ff_cash : rep 82 168 (dval (cash_delta (cf_values f)));
  ff_fee : rep 82 168 (dval (fee_quote (cf_values f)));
  ff_slip : rep 82 168 (dval (slippage_quote (cf_values f)));
  ff_asset : rep 40 40 (dval (asset_delta (cf_values f)));
  ff_fee_nonneg : (0 <= dval (fee_quote (cf_values f)))%Q;
  ff_slip_nonneg : (0 <= dval (slippage_quote (cf_values f)))%Q;
  ff_entry : is_entry (cf_reference f) = true ->
    (dval (cash_delta (cf_values f)) < 0)%Q /\ (0 < dval (asset_delta (cf_values f)))%Q;
  ff_exit : is_entry (cf_reference f) = false ->
    (0 < dval (cash_delta (cf_values f)))%Q /\ (dval (asset_delta (cf_values f)) < 0)%Q;
}.

Lemma costed_facts f : costed_valid f -> rate_value (dval (cf_fee_bps f)) -> rate_value (dval (cf_slippage_bps f)) ->
  fill_facts f.
Proof.
  intros Hc Rf Rs. destruct (costed_exact f Hc Rf Rs) as (q & p & Hq & Hp & [Vx Vg Vf Vs Vc Va]).
  destruct (bps_rep _ Rf) as [Rf' Bf], (bps_rep _ Rs) as [Rs' Bs].
  destruct Hq as ((_ & Hq & _) & Bq), Hp as ((_ & Hp & _) & Bp). apply plain_rep in Hq, Hp.
  set (e := is_entry (cf_reference f)) in *.
  pose proof (fee_bounds e _ _ _ _ Bs Bf Bq Bp) as Bfee. pose proof (gross_pos e _ _ _ Bs Bq Bp) as Bg.
  constructor; rewrite ?Vf, ?Vs, ?Vc, ?Va.
  - by apply cash_rep.
  - eapply rep_weaken; [by apply fee_rep|done..].
  - eapply rep_weaken; [by apply slippage_rep|done..].
  - by apply side_mult_rep.
  - lra.
  - by apply slippage_nonneg.
  - intros Ee. fold e in Ee. rewrite Ee in *. unfold cash_value, asset_value. change (side true) with 1%Q. lra.
  - intros Ee. fold e in Ee. rewrite Ee in *. split; [by apply exit_cash_pos|].
    unfold asset_value. change (side false) with (-1)%Q. lra.
Qed.

(** The bound on the number of fills under which the totals stay exact: a
    backtest has at most 100,000 bars and two fills per bar. *)
Definition FILL_BOUND : Z := 500000.

Lemma total_bound sel fills : Forall (fun f => rep 82 168 (dval (sel (cf_values f)))) fills ->
  (Qabs (total sel fills) <= inject_Z (Z.of_nat (length fills)) * q10 82)%Q.
Proof.
  induction 1 as [|f fs Hf _ IH]; [discriminate|]. unfold total in *; cbn [fold_right length].
  rewrite Nat2Z.inj_succ. unfold Z.succ. rewrite inject_Z_plus.
  pose proof (rep_lt _ _ _ Hf) as B. pose proof (Qabs_triangle (dval (sel (cf_values f))) (fold_right (fun f s => (dval (sel (cf_values f)) + s)%Q) 0%Q fs)).
  change (inject_Z 1) with 1%Q. rewrite Qmult_plus_distr_l, Qmult_1_l. lra.
Qed.

Lemma fill_bound_q10 (n : nat) : Z.of_nat n <= FILL_BOUND -> (inject_Z (Z.of_nat n) * q10 82 + (q10 16 + q10 82) < q10 88)%Q.
Proof.
  intros H. rewrite Zle_Qle in H. apply (Qmult_le_compat_r _ _ (q10 82)) in H; [|by apply Qlt_le_weak].
  eapply Qle_lt_trans; [apply Qplus_le_compat; [exact H|apply Qle_refl]|]. reflexivity.
Qed.

Lemma total_rep sel fills : Forall (fun f => rep 82 168 (dval (sel (cf_values f)))) fills ->
  Z.of_nat (length fills) <= FILL_BOUND -> rep 88 168 (total sel fills).
Proof.
  intros H Hn. pose proof (total_bound sel fills H) as B. pose proof (fill_bound_q10 _ Hn) as Bn.
  pose proof (q10_pos 16). pose proof (q10_pos 82). induction H as [|f fs Hf Hfs IH]; [by apply (rep_weaken 0 0 88 168 0 rep_0)|].
  eapply rep_bound; [|done|eapply Qle_lt_trans; [exact B|lra]]. simpl.
  apply (rep_plus 82 168 88 168); [done|]. simpl in Hn, B, Bn.
  assert (Z.of_nat (length fs) <= FILL_BOUND) as Hn' by lia.
  apply IH; [done|by apply total_bound|by apply fill_bound_q10].
Qed.

(** ** The accounting invariant *)

Definition position_asset (fills : list costed_fill) : Q :=
  match fills with
  | f :: _ => if is_entry (cf_reference f) then dval (asset_delta (cf_values f)) else 0%Q
  | [] => 0%Q
  end.
Definition position_basis (fills : list costed_fill) : Q :=
  match fills with
  | f :: _ => if is_entry (cf_reference f) then (- dval (cash_delta (cf_values f)))%Q else 0%Q
  | [] => 0%Q
  end.
Definition exits (fills : list costed_fill) : Z :=
  fold_right (fun f n => (if is_entry (cf_reference f) then 0 else 1) + n) 0 fills.

(** Entries and exits alternate, newest first, from a flat start. *)
Fixpoint alternating (fills : list costed_fill) : Prop :=
  match fills with
  | [] => True
  | f :: rest =>
      alternating rest
      /\ (if is_entry (cf_reference f) then position_asset rest == 0
          else dval (asset_delta (cf_values f)) == - position_asset rest)%Q
  end.

(** Every field of the ledger is an exact function of the applied fills. *)
Record ledger_inv (cash0 : Q) (l : ledger) : Prop := {
  li_fills : Forall fill_facts (_applied l);
  li_cash : (dval (cash l) == cash0 + total cash_delta (_applied l))%Q;
  li_cash_nonneg : (0 <= dval (cash l))%Q;
  li_asset : (dval (asset_quantity l) == position_asset (_applied l))%Q;
  li_basis : (dval (cost_basis_quote l) == position_basis (_applied l))%Q;
  li_realized : (dval (realized_pnl_quote l) == dval (cash l) + dval (cost_basis_quote l) - cash0)%Q;
  li_fees : (dval (total_fee_quote l) == total fee_quote (_applied l))%Q;
  li_slippage : (dval (total_slippage_quote l) == total slippage_quote (_applied l))%Q;
  li_closed : closed_trades l = exits (_applied l);
  li_last : _last_fill_time_ms l = (fun f => fill_time_ms (cf_reference f)) <$> head (_applied l);
  li_alternating : alternating (_applied l);
}.

Lemma position_signs fills : Forall fill_facts fills ->
  (0 <= position_asset fills)%Q /\ (0 <= position_basis fills)%Q
  /\ ((position_asset fills == 0)%Q -> (position_basis fills == 0)%Q).
Proof.
  intros H. destruct H as [|f fs [_ _ _ _ _ _ He _] _]; simpl; [done|].
  destruct (is_entry _); [|done]. destruct (He eq_refl). split_and!; lra.
Qed.

Lemma exits_nonneg fills : 0 <= exits fills.
Proof. induction fills as [|f fs IH]; simpl; [done|]. destruct (is_entry _); lia. Qed.

Lemma total_nonneg sel fills : Forall (fun f => (0 <= dval (sel (cf_values f)))%Q) fills -> (0 <= total sel fills)%Q.
Proof. induction 1; simpl; [done|]. lra. Qed.

Lemma facts_totals fills : Forall fill_facts fills ->
  Forall (fun f => rep 82 168 (dval (cash_delta (cf_values f)))) fills
  /\ Forall (fun f => rep 82 168 (dval (fee_quote (cf_values f)))) fills
  /\ Forall (fun f => rep 82 168 (dval (slippage_quote (cf_values f)))) fills.
Proof. intros H. split_and!; (eapply Forall_impl; [exact H|]); intros f []; done. Qed.

Section Ledger.
Context (spec : backtest_spec) (c : dec).
Hypothesis Hspec : spec_valid spec.
Hypothesis Hcash : cash_decimal spec = Ok c.

Lemma initial_cash_rep : rep 16 168 (dval c) /\ (0 < dval c)%Q.
Proof using All.
  apply spec_valid_facts in Hspec as [_ _ _ _ (c' & f & s & Ec & _ & _ & Hc & _ & _ & Bc & _) _].
  rewrite Hcash in Ec. injection Ec as <-. split; [|lra].
  eapply rep_weaken; [eapply (rep_bound 40 40 16); [by eapply plain_rep|done|]|done|done].
  apply Qabs_lt_iff. change (q10 16) with 10000000000000000%Q. lra.
Qed.

Lemma new_ledger_inv : exists l, new_ledger spec = Ok l /\ ledger_inv (dval c) l /\ _applied l = [].
Proof using All.
  unfold new_ledger. rewrite Hcash. simpl. eexists. split; [reflexivity|]. split; [|done].
  pose proof initial_cash_rep. constructor; simpl; rewrite ?dval_0; try done; try lra; constructor.
Qed.

Lemma balance_rep fills : Forall fill_facts fills -> Z.of_nat (length fills) <= FILL_BOUND ->
  rep 88 168 (dval c + total cash_delta fills).
Proof using All.
  intros Hf Hn. destruct (facts_totals _ Hf) as (Hc & _). destruct initial_cash_rep as [Rc _].
  eapply rep_bound; [apply (rep_plus 16 168 88 168); [exact Rc|by apply total_rep]|done|].
  eapply Qle_lt_trans; [apply Qabs_triangle|]. pose proof (total_bound _ _ Hc). pose proof (fill_bound_q10 _ Hn).
  pose proof (rep_lt _ _ _ Rc). pose proof (q10_pos 82). lra.
Qed.

Lemma position_basis_rep fills : Forall fill_facts fills -> rep 82 168 (position_basis fills).
Proof using.
  intros H. destruct H as [|f fs [Hc _ _ _ _ _ _ _] _]; simpl; [by apply (rep_weaken 0 0 82 168 0 rep_0)|].
  destruct (is_entry _); [by apply rep_opp|by apply (rep_weaken 0 0 82 168 0 rep_0)].
Qed.

(** The balances after [f], and the totals not yet updated. *)
Record balances_after (f : costed_fill) (l l1 : ledger) : Prop := {
  ba_cash : (dval (cash l1) == dval c + total cash_delta (f :: _applied l))%Q;
  ba_asset : (dval (asset_quantity l1) == position_asset (f :: _applied l))%Q;
  ba_basis : (dval (cost_basis_quote l1) == position_basis (f :: _applied l))%Q;
  ba_realized : (dval (realized_pnl_quote l1) == dval (cash l1) + dval (cost_basis_quote l1) - dval c)%Q;
  ba_closed : closed_trades l1 = exits (f :: _applied l);
  ba_alternating : alternating (f :: _applied l);
  ba_fee : total_fee_quote l1 = total_fee_quote l;
  ba_slip : total_slippage_quote l1 = total_slippage_quote l;
  ba_applied : _applied l1 = _applied l;
}.

Lemma has_position_spec l : ledger_inv (dval c) l ->
  ledger_has_position l = true <-> (0 < position_asset (_applied l))%Q.
Proof using. intros [_ _ _ Ha _ _ _ _ _ _ _]. unfold ledger_has_position. by rewrite dltb_spec, dval_0, Ha. Qed.

Lemma cash_step f l : ledger_inv (dval c) l -> fill_facts f -> Z.of_nat (length (_applied l)) < FILL_BOUND ->
  (dval (dadd DECIMAL_PRECISION (cash l) (cash_delta (cf_values f))) == dval c + total cash_delta (f :: _applied l))%Q.
Proof using All.
  intros [Hf Hc _ _ _ _ _ _ _ _ _] Hff Hn. simpl.
  assert (dval (cash l) + dval (cash_delta (cf_values f)) == dval c + total cash_delta (f :: _applied l))%Q as E.
  { rewrite Hc. simpl. ring. }
  rewrite (dadd_val (i:=88) (f:=168)); rewrite ?E; [simpl; reflexivity|done|done|].
  apply balance_rep; [by constructor|]. simpl length. unfold FILL_BOUND in *. lia.
Qed.

Lemma enter_step f l l1 : ledger_inv (dval c) l -> fill_facts f -> Z.of_nat (length (_applied l)) < FILL_BOUND ->
  is_entry (cf_reference f) = true -> enter_balances f l = (l1, Ok tt) -> balances_after f l l1.
Proof using All.
  intros Hinv Hff Hn He E. unfold enter_balances in E. stm_inv. subst.
  assert (~ (0 < position_asset (_applied st))%Q) as Hflat.
  { rewrite <- has_position_spec by done. by rewrite Hc. }
  pose proof (cash_step f st Hinv Hff Hn) as Vc.
  destruct Hinv as [Hf H1 H2 H3 H4 H5 H6 H7 H8 H9 H10].
  destruct (position_signs _ Hf) as (Ha & Hb & Hab).
  assert (position_asset (_applied st) == 0)%Q as E0 by lra. specialize (Hab E0).
  constructor; simpl; rewrite ?He; try done.
  - by apply dval_copy_negate.
  - rewrite dval_copy_negate, Vc, H5, H1, H4, Hab. simpl. ring.
Qed.

Lemma exit_step f l l1 : ledger_inv (dval c) l -> fill_facts f -> Z.of_nat (length (_applied l)) < FILL_BOUND ->
  is_entry (cf_reference f) = false -> exit_balances f l = (l1, Ok tt) -> balances_after f l l1.
Proof using All.
  intros Hinv Hff Hn He E. unfold exit_balances in E. stm_inv. subst.
  pose proof (cash_step f st Hinv Hff Hn) as Vc.
  destruct Hinv as [Hf H1 H2 H3 H4 H5 H6 H7 H8 H9 H10].
  apply orb_false_iff in Hc as [Hc1 Hc2]. bool_prop. rewrite dval_copy_negate, H3 in Hc2.
  assert (dval (dsub DECIMAL_PRECISION (cash_delta (cf_values f)) (cost_basis_quote st))
          == dval (cash_delta (cf_values f)) - position_basis (_applied st))%Q as Vd.
  { rewrite (dsub_val (i:=83) (f:=168)); rewrite ?H4; [reflexivity|done|done|].
    apply (rep_minus 82 168 82 168); [apply Hff|by apply position_basis_rep]. }
  assert (dval (dadd DECIMAL_PRECISION (realized_pnl_quote st)
            (dsub DECIMAL_PRECISION (cash_delta (cf_values f)) (cost_basis_quote st)))
          == total cash_delta (f :: _applied st))%Q as Vr.
  { assert (dval (realized_pnl_quote st) + (dval (cash_delta (cf_values f)) - position_basis (_applied st))
            == total cash_delta (f :: _applied st))%Q as Er.
    { rewrite H5, H1, H4. simpl. ring. }
    rewrite (dadd_val (i:=88) (f:=168)); rewrite ?Vd, ?Er; [reflexivity|done|done|].
    assert (Forall fill_facts (f :: _applied st)) as Hall by by constructor.
    destruct (facts_totals _ Hall) as (Hca & _). apply total_rep; [done|]. simpl length. unfold FILL_BOUND in *. lia. }
  constructor; simpl; rewrite ?He, ?dval_0; try done.
  - rewrite Vr, Vc. simpl. ring.
  - rewrite H8. lia.
  - split; [done|]. lra.
Qed.

Lemma record_step f l l1 l2 l3 : ledger_inv (dval c) l -> fill_facts f ->
  Z.of_nat (length (_applied l)) < FILL_BOUND -> balances_after f l l1 ->
  add_totals f l1 = (l2, Ok tt) -> record_fill f l2 = (l3, Ok tt) ->
  ledger_inv (dval c) l3 /\ _applied l3 = f :: _applied l.
Proof using All.
  intros [Hf H1 H2 H3 H4 H5 H6 H7 H8 H9 H10] Hff Hn [B1 B2 B3 B4 B5 B6 B7 B8 B9] E1 E2.
  unfold add_totals in E1. unfold record_fill in E2. stm_inv. subst. simpl in *.
  apply orb_false_iff in Hc as [Hc1 Hc2]. bool_prop. rewrite dval_0 in *.
  assert (Forall fill_facts (f :: _applied l)) as Hall by by constructor.
  destruct (facts_totals _ Hall) as (_ & Hfees & Hslips).
  assert (Z.of_nat (length (f :: _applied l)) <= FILL_BOUND) as Hn' by (simpl length; unfold FILL_BOUND in *; lia).
  split; [|by rewrite B9]. constructor; simpl; rewrite ?B9; try done.
  - rewrite B7, (dadd_val (i:=88) (f:=168)); rewrite ?H6; [simpl; ring|done|done|].
    eapply rep_proper; [|by apply (total_rep fee_quote _ Hfees)]. simpl. ring.
  - rewrite B8, (dadd_val (i:=88) (f:=168)); rewrite ?H7; [simpl; ring|done|done|].
    eapply rep_proper; [|by apply (total_rep slippage_quote _ Hslips)]. simpl. ring.
Qed.

Lemma apply_gate f l l' : _apply spec f l = (l', Ok tt) -> costed_valid f -> fill_facts f.
Proof using Hspec.
  intros E Hv. unfold _apply in E. stm_inv. subst. apply orb_false_iff in Hc0 as [Hf Hs]. bool_prop.
  destruct (spec_rates _ Hspec) as (fee & slip & Ef & Es & [Rf Bf] & [Rs Bs]).
  rewrite Ef, Es in *. simplify_eq. apply costed_facts; [done|..]; split; by rewrite ?Hf, ?Hs.
Qed.

Lemma apply_step f l l' : ledger_inv (dval c) l -> costed_valid f -> Z.of_nat (length (_applied l)) < FILL_BOUND ->
  _apply spec f l = (l', Ok tt) -> ledger_inv (dval c) l' /\ _applied l' = f :: _applied l.
Proof using All.
  intros Hinv Hv Hn E. pose proof (apply_gate _ _ _ E Hv) as Hff. unfold _apply in E. stm_inv. subst.
  destruct v2, v3. eapply record_step; [done..| |done|done].
  destruct (is_entry _) eqn:He; [by apply enter_step|by apply exit_step].
Qed.

(** The applied fills, newest first: no fill twice, in time order. *)
Fixpoint history_ok (fills : list costed_fill) : Prop :=
  match fills with
  | [] => True
  | f :: rest =>
      costed_valid f /\ existsb (costed_eqb f) rest = false
      /\ match rest with g :: _ => fill_time_ms (cf_reference g) <= fill_time_ms (cf_reference f) | [] => True end
      /\ history_ok rest
  end.

Definition books_ok (l : ledger) : Prop := ledger_inv (dval c) l /\ history_ok (_applied l).

Lemma apply_books f l l' : books_ok l -> costed_valid f -> Z.of_nat (length (_applied l)) < FILL_BOUND ->
  _apply spec f l = (l', Ok tt) -> books_ok l' /\ _applied l' = f :: _applied l.
Proof using All.
  intros [Hinv Hh] Hv Hn E. destruct (apply_step f l l' Hinv Hv Hn E) as [Hinv' Ea].
  split; [|done]. split; [done|]. rewrite Ea. unfold _apply in E. stm_inv. subst.
  split; [done|]. split; [done|]. split; [|done].
  rewrite (li_last _ _ Hinv) in Hc2. destruct (_applied st1); [done|]. simpl in Hc2. lia.
Qed.

(** Applying a fill only extends the history, without assuming a bound. *)
Lemma apply_applied f l l' : _apply spec f l = (l', Ok tt) -> _applied l' = f :: _applied l.
Proof using.
  intros E. unfold _apply in E. stm_inv. subst.
  unfold record_fill, add_totals in *. stm_inv. subst. simpl. f_equal.
  destruct (is_entry _); unfold enter_balances, exit_balances in *; stm_inv; by subst.
Qed.

Lemma apply_all_applied fills l l' : apply_all spec fills l = (l', Ok tt) -> _applied l' = rev fills ++ _applied l.
Proof using.
  revert l. induction fills as [|f fs IH]; intros l E; simpl in E; stm_inv; subst; [done|].
  destruct v. rewrite (IH _ E), (apply_applied _ _ _ Hm). simpl. by rewrite <- app_assoc.
Qed.

Lemma apply_all_books fills l l' : books_ok l -> Forall costed_valid fills ->
  Z.of_nat (length (_applied l')) <= FILL_BOUND -> apply_all spec fills l = (l', Ok tt) -> books_ok l'.
Proof using All.
  intros Hb Hv. revert l Hb. induction Hv as [|f fs Hf _ IH]; intros l Hb Hn E; simpl in E; stm_inv; subst; [done|].
  destruct v. eapply (IH st); [|done|done].
  apply apply_all_applied in E. rewrite E, length_app, length_rev, (apply_applied _ _ _ Hm) in Hn. simpl in Hn.
  by destruct (apply_books f l st Hb Hf ltac:(lia) Hm).
Qed.

(** Every exception of the ledger is a [PortfolioError]. *)
Lemma apply_err f l l' e : _apply spec f l = (l', Err e) -> exn_cls e = PortfolioError.
Proof using Hspec.
  destruct (spec_rates _ Hspec) as (fee & slip & Ef & Es & _).
  unfold _apply, sbind, slift, sget. rewrite Ef, Es.
  repeat (match goal with |- context [if ?b then sraise _ else _] => destruct b end; [by intros [= <- <-]|]).
  destruct (is_entry _); unfold enter_balances, exit_balances, add_totals, record_fill, sbind, sget, sput.
  all: repeat (match goal with |- context [if ?b then sraise _ else _] => destruct b end; [by intros [= <- <-]|]).
  all: done.
Qed.

Lemma apply_all_err fills l l' e : apply_all spec fills l = (l', Err e) -> exn_cls e = PortfolioError.
Proof using Hspec.
  revert l. induction fills as [|f fs IH]; intros l; simpl; [done|].
  unfold sbind. destruct (_apply spec f l) as [l1 [u|e1]] eqn:E; [apply IH|].
  intros [= <- <-]. by apply apply_err in E.
Qed.

(** The ledgers a caller can hold: any sequence of calls, failing or not. *)
Inductive reachable : ledger -> Prop :=
| reach_new l : new_ledger spec = Ok l -> reachable l
| reach_apply l f l' out : reachable l -> costed_valid f -> apply spec f l = (l', out) -> reachable l'
| reach_many l fills l' out : reachable l -> Forall costed_valid fills ->
    apply_many spec fills l = (l', out) -> reachable l'.

Lemma apply_cases f l l' out : apply spec f l = (l', out) ->
  (out = Ok tt /\ _apply spec f l = (l', Ok tt)) \/ (exists e, out = Err e /\ exn_cls e = PortfolioError /\ l' = l).
Proof using Hspec.
  unfold apply. destruct out as [[]|e]; intros E.
  - apply srollback_ok in E. by left.
  - right. exists e. unfold srollback in E. destruct (_apply spec f l) as [l1 [u|e1]] eqn:E1; [done|].
    pose proof (apply_err _ _ _ _ E1) as He. rewrite He, bool_decide_true in E by by left.
    by injection E as <- <-.
Qed.

Lemma apply_many_cases fills l l' out : apply_many spec fills l = (l', out) ->
  (out = Ok tt /\ apply_all spec fills l = (l', Ok tt)) \/ (exists e, out = Err e /\ exn_cls e = PortfolioError /\ l' = l).
Proof using Hspec.
  unfold apply_many. destruct (negb _); [intros [= <- <-]; right; by eexists|]. destruct out as [[]|e]; intros E.
  - apply srollback_ok in E. by left.
  - right. exists e. unfold srollback in E. destruct (apply_all spec fills l) as [l1 [u|e1]] eqn:E1; [done|].
    pose proof (apply_all_err _ _ _ _ E1) as He. rewrite He, bool_decide_true in E by by left.
    by injection E as <- <-.
Qed.

Lemma reachable_books l : reachable l -> Z.of_nat (length (_applied l)) <= FILL_BOUND -> books_ok l.
Proof using All.
  induction 1 as [l E|l f l' out Hr IH Hv E|l fs l' out Hr IH Hv E]; intros Hn.
  - destruct new_ledger_inv as (l0 & E0 & Hinv & Ha). rewrite E in E0. injection E0 as <-.
    split; [done|]. by rewrite Ha.
  - apply apply_cases in E as [(_ & E)|(e & _ & _ & ->)]; [|by apply IH].
    pose proof (apply_applied _ _ _ E) as Ea. rewrite Ea in Hn. simpl in Hn.
    by apply (apply_books f l); [apply IH|..]; try lia.
  - apply apply_many_cases in E as [(_ & E)|(e & _ & _ & ->)]; [|by apply IH].
    pose proof (apply_all_applied _ _ _ E) as Ea. pose proof Hn as Hn'.
    rewrite Ea, length_app in Hn'. eapply (apply_all_books fs l); try done. apply IH. lia.
Qed.

(** ** Valuation *)

Lemma one_minus_rate v : rate_value v -> rep 1 44 (1 - bps v) /\ (9 # 10 <= 1 - bps v <= 1)%Q.
Proof using.
  intros H. destruct (bps_rep v H) as [R B]. split; [|lra].
  pose proof (factor_rep false (bps v) R B) as F. eapply rep_proper; [|exact F].
  unfold side. ring.
Qed.

Lemma one_minus_val v d : rate_value (dval v) -> ddiv DECIMAL_PRECISION v BASIS_POINTS = Ok d ->
  (dval (dsub DECIMAL_PRECISION dec1 d) == 1 - bps (dval v))%Q.
Proof using.
  intros H E. pose proof (bps_div v d H E) as Vd. destruct (one_minus_rate _ H) as [R _].
  rewrite (dsub_val (i:=1) (f:=44)); rewrite ?dval_1, ?Vd; [reflexivity|done|done|exact R].
Qed.

(** The value of the position at price [v]: the bid after slippage and fee. *)
Definition liquidation_value (fee slip asset v : Q) : Q := (asset * (v * (1 - bps slip)) * (1 - bps fee))%Q.

Lemma liquidation_exact l price fee slip :
  ledger_inv (dval c) l -> rep 40 40 (dval price) -> (0 < dval price)%Q ->
  fee_bps_decimal spec = Ok fee -> slippage_bps_decimal spec = Ok slip ->
  rate_value (dval fee) -> rate_value (dval slip) ->
  exists d, liquidation spec l price = Ok d
    /\ (dval d == liquidation_value (dval fee) (dval slip) (position_asset (_applied l)) (dval price))%Q
    /\ rep 82 168 (dval d) /\ (0 <= dval d)%Q /\ ((position_asset (_applied l) == 0)%Q -> (dval d == 0)%Q).
Proof using.
  intros Hinv Rp Bp Ef Es Rf Rs. pose proof (has_position_spec l Hinv) as Hpos.
  destruct (position_signs _ (li_fills _ _ Hinv)) as (Ha & _).
  unfold liquidation. destruct (ledger_has_position l) eqn:Eh.
  - destruct (bps_total slip) as [sr Esr], (bps_total fee) as [fr Efr]. rewrite Es, Ef. simpl.
    rewrite Esr, Efr. simpl. eexists. split; [reflexivity|].
    pose proof (one_minus_val _ _ Rs Esr) as Vs. pose proof (one_minus_val _ _ Rf Efr) as Vf.
    destruct (one_minus_rate _ Rs) as [Ms Bs], (one_minus_rate _ Rf) as [Mf Bf].
    destruct Hinv as [Hfills _ _ Hasset _ _ _ _ _ _ _].
    assert (rep 40 40 (position_asset (_applied l))) as Ra.
    { destruct Hfills as [|g gs [_ _ _ Hg _ _ _ _] _]; simpl; [by apply (rep_weaken 0 0 40 40 0 rep_0)|].
      destruct (is_entry _); [done|by apply (rep_weaken 0 0 40 40 0 rep_0)]. }
    pose proof (rep_mult 40 40 1 44 _ _ Rp Ms) as R1. pose proof (rep_mult 40 40 41 84 _ _ Ra R1) as R2.
    pose proof (rep_mult 81 124 1 44 _ _ R2 Mf) as R3.
    match goal with |- (dval ?d == _)%Q /\ _ => assert (dval d == liquidation_value (dval fee) (dval slip)
      (position_asset (_applied l)) (dval price))%Q as V end.
    { assert (dval (dmul DECIMAL_PRECISION price (dsub DECIMAL_PRECISION dec1 sr)) == dval price * (1 - bps (dval slip)))%Q as V1.
      { rewrite (dmul_val (i:=41) (f:=84)); rewrite ?Vs; [reflexivity|done|done|exact R1]. }
      assert (dval (dmul DECIMAL_PRECISION (asset_quantity l) (dmul DECIMAL_PRECISION price (dsub DECIMAL_PRECISION dec1 sr)))
              == position_asset (_applied l) * (dval price * (1 - bps (dval slip))))%Q as V2.
      { rewrite (dmul_val (i:=81) (f:=124)); rewrite ?Hasset, ?V1; [reflexivity|done|done|exact R2]. }
      rewrite (dmul_val (i:=82) (f:=168)); rewrite ?V2, ?Vf; [reflexivity|done|done|exact R3]. }
    split; [exact V|]. rewrite V. split; [exact R3|].
    assert (0 < position_asset (_applied l))%Q as Hp by by apply Hpos. unfold liquidation_value.
    split; [|intros E0; lra].
    apply Qmult_le_0_compat; [apply Qmult_le_0_compat; [lra|apply Qmult_le_0_compat; lra]|lra].
  - assert (position_asset (_applied l) == 0)%Q as E0.
    { apply Qle_antisym; [|done]. apply Qnot_lt_le. intros Hlt. by apply Hpos in Hlt. }
    exists dec0. rewrite dval_0. split_and!; try done; [|by apply (rep_weaken 0 0 82 168 0 rep_0)].
    unfold liquidation_value. rewrite E0. ring.
Qed.

Lemma mark_total mark d : positive_amount mark d -> _mark mark = Ok d.
Proof using.
  intros ((E & Hpl & Hf) & Hpos). unfold _mark.
  assert (decimal_pattern mark = true) as ->.
  { rewrite <- Hf. destruct Hpl as (H1 & H2 & H3). by apply format_pattern. }
  rewrite E. simpl. destruct (dleb d dec0) eqn:El; [|done]. apply dleb_spec in El. rewrite dval_0 in El. lra.
Qed.

(** The sums of a snapshot fit the context. *)
Lemma snapshot_reps l liq : ledger_inv (dval c) l -> Z.of_nat (length (_applied l)) <= FILL_BOUND -> rep 82 168 (dval liq) ->
  rep 83 168 (dval liq - dval (cost_basis_quote l)) /\ rep 88 168 (dval (cash l) + dval liq).
Proof using All.
  intros [Hf Hc _ _ Hb _ _ _ _ _ _] Hn Rl. rewrite Hb, Hc. split.
  - apply (rep_minus 82 168 82 168); [done|by apply position_basis_rep].
  - destruct (facts_totals _ Hf) as (Hct & _). destruct initial_cash_rep as [Rc _].
    eapply rep_bound; [apply (rep_plus 88 168 82 168); [by apply balance_rep|exact Rl]|done|].
    pose proof (total_bound _ _ Hct). pose proof (fill_bound_q10 _ Hn). pose proof (rep_lt _ _ _ Rc).
    pose proof (rep_lt _ _ _ Rl).
    eapply Qle_lt_trans; [apply Qabs_triangle|].
    pose proof (Qabs_triangle (dval c) (total cash_delta (_applied l))). lra.
Qed.

Lemma snapshot_values l d liq : ledger_inv (dval c) l -> Z.of_nat (length (_applied l)) <= FILL_BOUND ->
  liquidation spec l d = Ok liq -> rep 82 168 (dval liq) ->
  (dval (dsub DECIMAL_PRECISION liq (cost_basis_quote l)) == dval liq - dval (cost_basis_quote l))%Q
  /\ (dval (dadd DECIMAL_PRECISION (cash l) liq) == dval (cash l) + dval liq)%Q.
Proof using All.
  intros Hl Hn El Rl. destruct (snapshot_reps l liq Hl Hn Rl) as [R1 R2]. split.
  - by apply (dsub_val (i:=83) (f:=168)).
  - by apply (dadd_val (i:=88) (f:=168)).
Qed.

Lemma mark_ok mark d : _mark mark = Ok d -> positive_amount mark d.
Proof using.
  unfold _mark. intros H. destruct (decimal_pattern mark) eqn:Ep; [|done]. destruct (decimal_pattern_spec _ Ep) as (d' & E & Hpl & Hf).
  cbn [negb] in H. rewrite E in H. cbn [rbind] in H. destruct (dleb d' dec0) eqn:El; [done|]. injection H as ->.
  apply dleb_false in El. rewrite dval_0 in El. by split.
Qed.

Lemma snapshot_exact l mark d fee slip : reachable l -> Z.of_nat (length (_applied l)) <= FILL_BOUND ->
  positive_amount mark d -> fee_bps_decimal spec = Ok fee -> slippage_bps_decimal spec = Ok slip ->
  exists s, snapshot spec l mark = Ok s
    /\ ps_cash s = cash l /\ ps_realized_pnl_quote s = realized_pnl_quote l
    /\ (dval (liquidation_value_quote s)
        == liquidation_value (dval fee) (dval slip) (position_asset (_applied l)) (dval d))%Q
    /\ (dval (equity_quote s) == dval (cash l) + dval (liquidation_value_quote s))%Q
    /\ (dval (unrealized_pnl_quote s) == dval (liquidation_value_quote s) - dval (cost_basis_quote l))%Q.
Proof using All.
  intros Hr Hn Hm Ef Es. destruct (reachable_books l Hr Hn) as [Hinv _].
  destruct (spec_rates _ Hspec) as (fee' & slip' & Ef' & Es' & Rf & Rs).
  assert (fee' = fee) as -> by congruence. assert (slip' = slip) as -> by congruence.
  pose proof Hm as ((_ & Hpl & _) & Bd).
  destruct (liquidation_exact l d fee slip Hinv (plain_rep _ _ Hpl) Bd Ef Es Rf Rs)
    as (liq & El & Vl & Rl & Bl & Zl).
  destruct (snapshot_values l d liq Hinv Hn El Rl) as [Vu Ve].
  unfold snapshot. rewrite (mark_total _ _ Hm). simpl. rewrite El. cbn [rbind].
  match goal with |- context [portfolio_snapshot_post_init ?x] => assert (portfolio_snapshot_post_init x = Ok tt) as -> end.
  { destruct Hinv as [Hf Hc Hc0 Ha Hb Hrl Hfe Hsl Hcl _ _]. destruct (position_signs _ Hf) as (Pa & Pb & Pz).
    assert (Forall (fun f => (0 <= dval (fee_quote (cf_values f)))%Q) (_applied l)
            /\ Forall (fun f => (0 <= dval (slippage_quote (cf_values f)))%Q) (_applied l)) as [F1 F2].
    { split; (eapply Forall_impl; [exact Hf|]); by intros f []. }
    apply total_nonneg in F1, F2. pose proof (exits_nonneg (_applied l)) as Ex.
    unfold portfolio_snapshot_post_init. cbn [ps_symbol ps_cash ps_asset_quantity ps_cost_basis_quote
      liquidation_value_quote ps_realized_pnl_quote unrealized_pnl_quote equity_quote ps_total_fee_quote
      ps_total_slippage_quote ps_closed_trades].
    rewrite (proj2 (str_in_spec _ _)) by (by apply spec_valid_facts in Hspec as []).
    rewrite !(proj2 (dltb_false _ dec0)) by (rewrite dval_0, ?Ha, ?Hb, ?Hfe, ?Hsl; done).
    replace (closed_trades l <? 0) with false by lia.
    rewrite !(proj2 (deqb_spec _ _)) by done. simpl.
    destruct (deqb (asset_quantity l) dec0) eqn:Ez; [|done]. bool_prop. rewrite dval_0, Ha in Ez.
    rewrite !(proj2 (deqb_spec _ dec0)); [done|rewrite dval_0; by apply Zl|rewrite dval_0, Hb; by apply Pz]. }
  eexists. split; [reflexivity|]. by split_and!.
Qed.

(** The same snapshot, up to the spelling of its numbers. *)
Record snapshot_same (s t : portfolio_snapshot) : Prop := {
  sn_symbol : ps_symbol s = ps_symbol t;
  sn_cash : (dval (ps_cash s) == dval (ps_cash t))%Q;
  sn_asset : (dval (ps_asset_quantity s) == dval (ps_asset_quantity t))%Q;
  sn_basis : (dval (ps_cost_basis_quote s) == dval (ps_cost_basis_quote t))%Q;
  sn_liquidation : (dval (liquidation_value_quote s) == dval (liquidation_value_quote t))%Q;
  sn_realized : (dval (ps_realized_pnl_quote s) == dval (ps_realized_pnl_quote t))%Q;
  sn_unrealized : (dval (unrealized_pnl_quote s) == dval (unrealized_pnl_quote t))%Q;
  sn_equity : (dval (equity_quote s) == dval (equity_quote t))%Q;
  sn_fee : (dval (ps_total_fee_quote s) == dval (ps_total_fee_quote t))%Q;
  sn_slippage : (dval (ps_total_slippage_quote s) == dval (ps_total_slippage_quote t))%Q;
  sn_trades : ps_closed_trades s = ps_closed_trades t;
}.

Lemma snapshot_ok_inv l mark s : reachable l -> Z.of_nat (length (_applied l)) <= FILL_BOUND -> snapshot spec l mark = Ok s ->
  portfolio_snapshot_post_init s = Ok tt /\ rep 88 168 (dval (ps_cash s) + dval (liquidation_value_quote s))
  /\ rep 83 168 (dval (liquidation_value_quote s) - dval (ps_cost_basis_quote s)).
Proof using All.
  intros Hr Hn H. destruct (reachable_books l Hr Hn) as [Hinv _]. unfold snapshot in H.
  apply rbind_ok in H as (d & Hm & H). apply rbind_ok in H as (liq & El & H). apply rbind_ok in H as ([] & Hp & H). injection H as <-.
  split; [exact Hp|]. cbn [ps_cash liquidation_value_quote ps_cost_basis_quote].
  destruct (spec_rates _ Hspec) as (fee & slip & Ef & Es & Rf & Rs). pose proof (mark_ok _ _ Hm) as ((_ & Hpl & _) & Bd).
  destruct (liquidation_exact l d fee slip Hinv (plain_rep _ _ Hpl) Bd Ef Es Rf Rs) as (liq' & El' & _ & Rl & _).
  rewrite El in El'. injection El' as <-. destruct (snapshot_reps l liq Hinv Hn Rl) as [R1 R2]. by split.
Qed.

(** A snapshot written as text and read back passes the constructor again. *)
Lemma snapshot_reread l mark s t : reachable l -> Z.of_nat (length (_applied l)) <= FILL_BOUND -> snapshot spec l mark = Ok s ->
  snapshot_same t s -> portfolio_snapshot_post_init t = Ok tt.
Proof using All.
  intros Hr Hn Hs [S1 S2 S3 S4 S5 S6 S7 S8 S9 S10 S11]. destruct (snapshot_ok_inv l mark s Hr Hn Hs) as (Hp & R1 & R2).
  assert (dval (dadd DECIMAL_PRECISION (ps_cash t) (liquidation_value_quote t)) == dval (ps_cash s) + dval (liquidation_value_quote s))%Q as V1.
  { rewrite (dadd_val (i:=88) (f:=168)); rewrite ?S2, ?S5; [reflexivity|done|done|exact R1]. }
  assert (dval (dsub DECIMAL_PRECISION (liquidation_value_quote t) (ps_cost_basis_quote t))
          == dval (liquidation_value_quote s) - dval (ps_cost_basis_quote s))%Q as V2.
  { rewrite (dsub_val (i:=83) (f:=168)); rewrite ?S4, ?S5; [reflexivity|done|done|exact R2]. }
  revert Hp. unfold portfolio_snapshot_post_init.
  rewrite S1, S11, (dltb_value _ (ps_cash s) _ dec0 S2), (dltb_value _ (ps_asset_quantity s) _ dec0 S3), (dltb_value _ (ps_cost_basis_quote s) _ dec0 S4),
    (dltb_value _ (liquidation_value_quote s) _ dec0 S5), (dltb_value _ (ps_total_fee_quote s) _ dec0 S9), (dltb_value _ (ps_total_slippage_quote s) _ dec0 S10)
    by reflexivity.
  rewrite (deqb_value _ (ps_asset_quantity s) _ dec0 S3), (deqb_value _ (ps_cost_basis_quote s) _ dec0 S4),
    (deqb_value _ (liquidation_value_quote s) _ dec0 S5) by reflexivity.
  rewrite (deqb_value (equity_quote t) (equity_quote s) _ (dadd DECIMAL_PRECISION (ps_cash s) (liquidation_value_quote s)) S8).
  2: { rewrite V1. symmetry. by apply (dadd_val (i:=88) (f:=168)). }
  rewrite (deqb_value (unrealized_pnl_quote t) (unrealized_pnl_quote s) _ (dsub DECIMAL_PRECISION (liquidation_value_quote s) (ps_cost_basis_quote s)) S7); [done|].
  rewrite V2. symmetry. by apply (dsub_val (i:=83) (f:=168)).
Qed.
End Ledger.

(** C6.  The books always balance, exactly.  After any sequence of calls to
    [apply] and [apply_many], failing or not, with up to 500,000 applied fills:
    the cash is exactly the initial cash plus the cash deltas of the applied
    fills, never negative; cash plus cost basis is initial cash plus realized
    profit; the fee and slippage totals are the exact sums; entries and exits
    alternate, each exit closing the full position; and no fill is applied
    twice or out of time order. *)
Theorem ledger_accounting spec c l :
  spec_valid spec -> cash_decimal spec = Ok c -> reachable spec l -> Z.of_nat (length (_applied l)) <= FILL_BOUND ->
  (dval (cash l) == dval c + total cash_delta (_applied l))%Q
  /\ (0 <= dval (cash l))%Q /\ (0 <= dval (asset_quantity l))%Q
  /\ (dval (cash l) + dval (cost_basis_quote l) == dval c + dval (realized_pnl_quote l))%Q
  /\ (dval (total_fee_quote l) == total fee_quote (_applied l))%Q
  /\ (dval (total_slippage_quote l) == total slippage_quote (_applied l))%Q
  /\ closed_trades l = exits (_applied l)
  /\ alternating (_applied l) /\ history_ok (_applied l).
Proof.
  intros Hs Hc Hr Hn. destruct (reachable_books spec c Hs Hc l Hr Hn) as [Hinv Hh].
  destruct (position_signs _ (li_fills _ _ Hinv)) as (Ha & _). destruct Hinv.
  split_and!; try done; [by rewrite li_asset0|]. rewrite li_realized0. ring.
Qed.

(** [apply] and [apply_many] are atomic: they end normally with every
    fill recorded, newest first, or raise [PortfolioError], and no other
    exception, with the ledger exactly as it was. *)
Theorem ledger_atomic spec fills f l :
  spec_valid spec ->
  (let '(l', out) := apply spec f l in
   match out with
   | Ok _ => _applied l' = f :: _applied l
   | Err e => exn_cls e = PortfolioError /\ l' = l
   end)
  /\ (let '(l', out) := apply_many spec fills l in
   match out with
   | Ok _ => _applied l' = rev fills ++ _applied l
   | Err e => exn_cls e = PortfolioError /\ l' = l
   end).
Proof.
  intros Hs. split.
  - destruct (apply spec f l) as [l' out] eqn:E.
    apply apply_cases in E as [(-> & E)|(e & -> & He & ->)]; [by eapply apply_applied|done|done].
  - destruct (apply_many spec fills l) as [l' out] eqn:E.
    apply apply_many_cases in E as [(-> & E)|(e & -> & He & ->)]; [by eapply apply_all_applied|done|done].
Qed.

(** A snapshot of a reachable ledger never fails on a legal mark price,
    and it values the account honestly: the liquidation value is exactly what
    a costed exit of the whole position at the mark would pay, equity is cash
    plus that value, and equity differs from the initial cash by exactly the
    realized plus the unrealized profit. *)
Theorem snapshot_honest spec c l mark d fee slip :
  spec_valid spec -> cash_decimal spec = Ok c -> reachable spec l -> Z.of_nat (length (_applied l)) <= FILL_BOUND ->
  positive_amount mark d -> fee_bps_decimal spec = Ok fee -> slippage_bps_decimal spec = Ok slip ->
  exists s, snapshot spec l mark = Ok s
    /\ (dval (liquidation_value_quote s)
        == cash_value false (dval (asset_quantity l)) (dval d) (bps (dval fee)) (bps (dval slip)))%Q
    /\ (dval (equity_quote s) == dval (cash l) + dval (liquidation_value_quote s))%Q
    /\ (dval (equity_quote s) - dval c == dval (ps_realized_pnl_quote s) + dval (unrealized_pnl_quote s))%Q.
Proof.
  intros Hs Hc Hr Hn Hm Ef Es.
  destruct (snapshot_exact spec c Hs Hc l mark d fee slip Hr Hn Hm Ef Es) as (s & E & _ & Er & Vl & Ve & Vu).
  destruct (reachable_books spec c Hs Hc l Hr Hn) as [Hinv _]. exists s. split; [done|]. split; [|split; [done|]].
  - rewrite Vl. unfold liquidation_value, cash_value, fee_value, gross_value, exec_value, side.
    rewrite (li_asset _ _ Hinv). ring.
  - rewrite Ve, Vu, Er, (li_realized _ _ Hinv). ring.
Qed.

(** ** A concrete ledger *)

Definition sample_exit_reference : fill_reference :=
  FillReference EXIT_LONG "BTCUSDT" (6 * HOUR_MS) (6 * HOUR_MS) "2" "110" TARGET.
Definition sample_costed (r : fill_reference) : costed_fill :=
  match apply_costs r sample_spec with Ok f => f | Err _ => CostedFill r dec0 dec0 (CostValues dec0 dec0 dec0 dec0 dec0 dec0) end.
Definition sample_ledger : ledger := Ledger (dec_of_Z 10000) dec0 dec0 dec0 dec0 dec0 0 None [].
Definition sample_ledger_open : ledger := fst (apply sample_spec (sample_costed sample_reference) sample_ledger).

Lemma sample_reachable : reachable sample_spec sample_ledger_open.
Proof.
  apply (reach_apply _ sample_ledger (sample_costed sample_reference) _ (Ok tt)).
  - apply reach_new. vm_compute. reflexivity.
  - split; vm_compute; reflexivity.
  - vm_compute. reflexivity.
Qed.

Lemma ledger_accounting_witness :
  (dval (cash sample_ledger_open) + dval (cost_basis_quote sample_ledger_open)
   == 10000 + dval (realized_pnl_quote sample_ledger_open))%Q
  /\ (dval (asset_quantity sample_ledger_open) == 2)%Q.
Proof.
  destruct (ledger_accounting sample_spec (dec_of_Z 10000) sample_ledger_open)
    as (_ & _ & _ & H & _).
  - vm_compute. reflexivity.
  - vm_compute. reflexivity.
  - exact sample_reachable.
  - vm_compute. discriminate.
  - split; [exact H|vm_compute; reflexivity].
Defined.

Lemma ledger_atomic_witness :
  snd (apply sample_spec (sample_costed sample_exit_reference) sample_ledger)
    = Err (Raise PortfolioError "Exit must close the full long position")
  /\ fst (apply sample_spec (sample_costed sample_exit_reference) sample_ledger) = sample_ledger.
Proof.
  destruct (ledger_atomic sample_spec [] (sample_costed sample_exit_reference) sample_ledger) as [H _].
  - vm_compute. reflexivity.
  - destruct (apply sample_spec (sample_costed sample_exit_reference) sample_ledger) as [l' [u|e]] eqn:E.
    + exfalso. vm_compute in E. discriminate E.
    + split; [vm_compute in E; injection E as _ <-; reflexivity|exact (proj2 H)].
Defined.

Lemma snapshot_honest_witness :
  exists s, snapshot sample_spec sample_ledger_open "110" = Ok s
    /\ (dval (equity_quote s) - 10000 == dval (ps_realized_pnl_quote s) + dval (unrealized_pnl_quote s))%Q.
Proof.
  destruct (snapshot_honest sample_spec (dec_of_Z 10000) sample_ledger_open "110" (dec_of_Z 110)
    (dec_of_Z 10) (dec_of_Z 5)) as (s & E & _ & _ & H).
  - vm_compute. reflexivity.
  - vm_compute. reflexivity.
  - exact sample_reachable.
  - vm_compute. discriminate.
  - repeat split; vm_compute; (reflexivity || discriminate).
  - vm_compute. reflexivity.
  - vm_compute. reflexivity.
  - exists s. split; [exact E|exact H].
Defined.
