(* ===== verification/Metrics.v ===== *)
(** * Performance metrics (yatl/backtest/metrics.py)

    The equity curve of a finished paper run, the checks on its lifecycle, and
    the decimal statistics of the report. *)
From S2P Require Import Prelude PyDecimal PyText Market BacktestConfig MarketView Fills Costs Ledger.

(** ** Square root and square of [decimal]

    [Decimal.sqrt]: an exact root keeps the exponent nearest to the ideal one, any
    other is truncated one digit beyond the precision, marked as inexact in its
    last digit, and rounded. *)
Definition dsqrt (p : N) (d : dec) : result dec :=
  if (dcoef d =? 0)%N then Ok (dfix p (Dec (dneg d) 0 (dexp d / 2)))
  else if dneg d then Err ArithError
  else
    let odd := Z.odd (dexp d) in
    let digits := Z.of_N (ndigits (dcoef d)) in
    let c := if odd then (dcoef d * 10)%N else dcoef d in
    let l := if odd then digits / 2 + 1 else (digits + 1) / 2 in
    let shift := Z.of_N p + 1 - l in
    let '(c, exact) :=
      if 0 <=? shift then ((c * 100 ^ Z.to_N shift)%N, true)
      else let (q, r) := N.div_eucl c (100 ^ Z.to_N (- shift)) in (q, (r =? 0)%N) in
    let e := dexp d / 2 - shift in
    let n := N.sqrt c in
    if exact && (n * n =? c)%N then
      let n := if 0 <=? shift then (n / 10 ^ Z.to_N shift)%N else (n * 10 ^ Z.to_N (- shift))%N in
      Ok (dfix p (Dec false n (e + shift)))
    else Ok (dfix p (Dec false (if (n mod 5 =? 0)%N then n + 1 else n)%N e)).

(** [value ** 2]: a zero base gives plain zero; any other is multiplied with three
    digits more than the precision and rounded again. *)
Definition dsquare (p : N) (d : dec) : dec := if (dcoef d =? 0)%N then dec0 else dfix p (dmul (p + 3) d d).

Example sqrt_exact : dsqrt 28 (Dec false 225 (-4)) = Ok (Dec false 15 (-2)).
Proof. reflexivity. Qed.
Example sqrt_two : dsqrt 5 (Dec false 2 0) = Ok (Dec false 14142 (-4)).
Proof. reflexivity. Qed.
Example sqrt_ten : dsqrt 5 (Dec false 1 1) = Ok (Dec false 31623 (-4)).
Proof. reflexivity. Qed.

(** ** The curve *)

Record equity_point : Type := EquityPoint {
  ep_time_ms : Z;
  portfolio : portfolio_snapshot;
}.

Definition new_point (p : equity_point) : result equity_point :=
  raise_if ep_time_ms p <? 0 with MetricsError "Equity point time is invalid" ;;
  Ok p.

(** One pair of neighbours of the curve. *)
Definition step_inconsistent (symbol : string) (previous point : equity_point) : bool :=
  let current := portfolio point in
  let prior := portfolio previous in
  let trade_delta := ps_closed_trades current - ps_closed_trades prior in
  (ep_time_ms point <=? ep_time_ms previous) || negb (String.eqb (ps_symbol current) symbol) || dleb (equity_quote current) dec0
  || dltb (ps_total_fee_quote current) (ps_total_fee_quote prior) || dltb (ps_total_slippage_quote current) (ps_total_slippage_quote prior)
  || negb ((trade_delta =? 0) || (trade_delta =? 1))
  || ((trade_delta =? 0) && negb (deqb (ps_realized_pnl_quote current) (ps_realized_pnl_quote prior))).

Fixpoint lifecycle_loop (symbol : string) (previous : equity_point) (points : list equity_point) : result equity_point :=
  match points with
  | [] => Ok previous
  | point :: rest =>
      raise_if step_inconsistent symbol previous point with MetricsError "Equity curve lifecycle is inconsistent" ;;
      lifecycle_loop symbol point rest
  end.

(** [points[0]] and [points[-1]] of a checked curve, which [_calculate] reads again. *)
Definition _validate_curve (points : list equity_point) : result (equity_point * equity_point) :=
  match points with
  | [] => Err (Raise MetricsError "Equity curve must be a non-empty tuple")
  | start :: rest =>
      let first := portfolio start in
      raise_if negb (deqb (ps_asset_quantity first) dec0) || dleb (equity_quote first) dec0 || negb (ps_closed_trades first =? 0)
               || negb (deqb (ps_realized_pnl_quote first) dec0) || negb (deqb (ps_total_fee_quote first) dec0)
               || negb (deqb (ps_total_slippage_quote first) dec0)
        with MetricsError "Equity curve must begin at a clean flat portfolio" ;;
      let* final := lifecycle_loop (ps_symbol first) start rest in
      raise_if negb (deqb (ps_asset_quantity (portfolio final)) dec0)
        with MetricsError "Final performance metrics require a flat portfolio" ;;
      Ok (start, final)
  end.

(** ** The values *)

Record metric_values : Type := MetricValues {
  initial_equity_quote : dec;
  final_equity_quote : dec;
  mv_total_return : dec;
  mv_trade_count : Z;
  winning_trades : Z;
  losing_trades : Z;
  breakeven_trades : Z;
  win_rate : option dec;
  gross_pnl_quote : dec;
  net_pnl_quote : dec;
  mv_total_fee_quote : dec;
  mv_total_slippage_quote : dec;
  mv_total_cost_quote : dec;
  maximum_drawdown_quote : dec;
  mv_maximum_drawdown : dec;
  mean_period_return : option dec;
  sample_period_volatility : option dec;
  downside_deviation : option dec;
  mean_over_volatility : option dec;
  mean_over_downside : option dec;
}.

(** The variables of the loop over the curve. *)
Record curve_state : Type := CurveState {
  peak : dec;
  max_drawdown_quote : dec;
  max_drawdown : dec;
  period_returns : list dec;
  trade_pnls : list dec;
}.

Definition MP : N := DECIMAL_PRECISION.

Definition curve_step (previous point : equity_point) (a : curve_state) : result curve_state :=
  let equity := equity_quote (portfolio point) in
  let* ratio := ddiv MP equity (equity_quote (portfolio previous)) in
  let returns := period_returns a ++ [dsub MP ratio dec1] in
  let peak := if dltb (peak a) equity then equity else peak a in
  let drawdown_quote := dsub MP peak equity in
  let* drawdown := ddiv MP drawdown_quote peak in
  let deeper := dltb (max_drawdown a) drawdown in
  Ok (CurveState peak (if deeper then drawdown_quote else max_drawdown_quote a) (if deeper then drawdown else max_drawdown a) returns
        (if ps_closed_trades (portfolio previous) <? ps_closed_trades (portfolio point)
         then trade_pnls a ++ [dsub MP (ps_realized_pnl_quote (portfolio point)) (ps_realized_pnl_quote (portfolio previous))]
         else trade_pnls a)).

Fixpoint curve_loop (previous : equity_point) (points : list equity_point) (a : curve_state) : result curve_state :=
  match points with
  | [] => Ok a
  | point :: rest => let* a := curve_step previous point a in curve_loop point rest a
  end.

Definition count (f : dec -> bool) (l : list dec) : Z := Z.of_nat (length (List.filter f l)).

(** [numerator / root] unless there is no root or it is zero. *)
Definition over (numerator : dec) (root : option dec) : result (option dec) :=
  match root with
  | Some d => if deqb d dec0 then Ok None else let* r := ddiv MP numerator d in Ok (Some r)
  | None => Ok None
  end.

Definition downside_of (returns : list dec) : result (option dec) :=
  match List.filter (fun v => dltb v dec0) returns with
  | [] => Ok None
  | negative =>
      let* v := ddiv MP (dsum MP dec0 (map (fun v => dmul MP v v) negative)) (dec_of_Z (Z.of_nat (length returns))) in
      let* d := dsqrt MP v in Ok (Some d)
  end.

Definition volatility_of (mean : dec) (returns : list dec) : result (option dec) :=
  if (length returns <? 2)%nat then Ok None else
  let* v := ddiv MP (dsum MP dec0 (map (fun v => dsquare MP (dsub MP v mean)) returns)) (dec_of_Z (Z.of_nat (length returns) - 1)) in
  let* d := dsqrt MP v in Ok (Some d).

(** The statistics of the period returns: mean, volatility, downside and the two ratios. *)
Definition return_statistics (returns : list dec) : result (option dec * option dec * option dec * option dec * option dec) :=
  match returns with
  | [] => Ok (None, None, None, None, None)
  | _ =>
      let* mean := ddiv MP (dsum MP dec0 returns) (dec_of_Z (Z.of_nat (length returns))) in
      let* downside := downside_of returns in
      let* mean_over_downside := over mean downside in
      let* volatility := volatility_of mean returns in
      let* mean_over_volatility := over mean volatility in
      Ok (Some mean, volatility, downside, mean_over_volatility, mean_over_downside)
  end.

Definition _calculate (points : list equity_point) : result metric_values :=
  let* ends := _validate_curve points in
  let start := fst ends in
  let first := portfolio start in
  let final := portfolio (snd ends) in
  let net_pnl := dsub MP (equity_quote final) (equity_quote first) in
  let total_cost := dadd MP (ps_total_fee_quote final) (ps_total_slippage_quote final) in
  let gross_pnl := dadd MP net_pnl total_cost in
  let* total_return := ddiv MP net_pnl (equity_quote first) in
  let* a := curve_loop start (tail points) (CurveState (equity_quote first) dec0 dec0 [] []) in
  let wins := count (fun pnl => dltb dec0 pnl) (trade_pnls a) in
  let losses := count (fun pnl => dltb pnl dec0) (trade_pnls a) in
  let breakeven := count (fun pnl => deqb pnl dec0) (trade_pnls a) in
  let trade_count := ps_closed_trades final in
  let* win_rate :=
    if trade_count =? 0 then Ok None
    else let* r := ddiv MP (dec_of_Z wins) (dec_of_Z trade_count) in Ok (Some r) in
  let* statistics := return_statistics (period_returns a) in
  let '(mean, volatility, downside, mean_over_volatility, mean_over_downside) := statistics in
  Ok (MetricValues (equity_quote first) (equity_quote final) total_return trade_count wins losses breakeven win_rate gross_pnl net_pnl
        (ps_total_fee_quote final) (ps_total_slippage_quote final) total_cost (max_drawdown_quote a) (max_drawdown a)
        mean volatility downside mean_over_volatility mean_over_downside).

Record performance_report : Type := PerformanceReport {
  pr_points : list equity_point;
  pr_values : metric_values;
}.

Definition opt_deqb (a b : option dec) : bool :=
  match a, b with Some x, Some y => deqb x y | None, None => true | _, _ => false end.

Definition metrics_eqb (v w : metric_values) : bool :=
  deqb (initial_equity_quote v) (initial_equity_quote w) && deqb (final_equity_quote v) (final_equity_quote w)
  && deqb (mv_total_return v) (mv_total_return w) && (mv_trade_count v =? mv_trade_count w) && (winning_trades v =? winning_trades w)
  && (losing_trades v =? losing_trades w) && (breakeven_trades v =? breakeven_trades w) && opt_deqb (win_rate v) (win_rate w)
  && deqb (gross_pnl_quote v) (gross_pnl_quote w) && deqb (net_pnl_quote v) (net_pnl_quote w)
  && deqb (mv_total_fee_quote v) (mv_total_fee_quote w) && deqb (mv_total_slippage_quote v) (mv_total_slippage_quote w)
  && deqb (mv_total_cost_quote v) (mv_total_cost_quote w) && deqb (maximum_drawdown_quote v) (maximum_drawdown_quote w)
  && deqb (mv_maximum_drawdown v) (mv_maximum_drawdown w) && opt_deqb (mean_period_return v) (mean_period_return w)
  && opt_deqb (sample_period_volatility v) (sample_period_volatility w) && opt_deqb (downside_deviation v) (downside_deviation w)
  && opt_deqb (mean_over_volatility v) (mean_over_volatility w) && opt_deqb (mean_over_downside v) (mean_over_downside w).

Definition report_post_init (r : performance_report) : result unit :=
  let* expected := _calculate (pr_points r) in
  raise_if negb (metrics_eqb (pr_values r) expected) with MetricsError "Performance report arithmetic is inconsistent" ;;
  Ok tt.

Definition calculate_metrics (points : list equity_point) : result performance_report :=
  let* values := _calculate points in
  let r := PerformanceReport points values in
  do* report_post_init r ;; Ok r.

(** * Properties *)

Abbreviation equity p := (dval (equity_quote (portfolio p))).

(** ** The lifecycle of a curve *)

(** What one pair of neighbours satisfies. *)
Record step_ok (symbol : string) (previous point : equity_point) : Prop := {
  so_time : ep_time_ms previous < ep_time_ms point;
  so_symbol : ps_symbol (portfolio point) = symbol;
  so_equity : (0 < equity point)%Q;
  so_fees : (dval (ps_total_fee_quote (portfolio previous)) <= dval (ps_total_fee_quote (portfolio point)))%Q;
  so_slippage : (dval (ps_total_slippage_quote (portfolio previous)) <= dval (ps_total_slippage_quote (portfolio point)))%Q;
  so_trades : ps_closed_trades (portfolio point) = ps_closed_trades (portfolio previous)
    /\ (dval (ps_realized_pnl_quote (portfolio point)) == dval (ps_realized_pnl_quote (portfolio previous)))%Q
    \/ ps_closed_trades (portfolio point) = ps_closed_trades (portfolio previous) + 1;
}.

Fixpoint lifecycle_ok (symbol : string) (previous : equity_point) (points : list equity_point) : Prop :=
  match points with
  | [] => (dval (ps_asset_quantity (portfolio previous)) == 0)%Q
  | point :: rest => step_ok symbol previous point /\ lifecycle_ok symbol point rest
  end.

Record clean_start (p : portfolio_snapshot) : Prop := {
  cs_flat : (dval (ps_asset_quantity p) == 0)%Q;
  cs_equity : (0 < dval (equity_quote p))%Q;
  cs_trades : ps_closed_trades p = 0;
  cs_realized : (dval (ps_realized_pnl_quote p) == 0)%Q;
  cs_fees : (dval (ps_total_fee_quote p) == 0)%Q;
  cs_slippage : (dval (ps_total_slippage_quote p) == 0)%Q;
}.

Definition curve_ok (points : list equity_point) : Prop :=
  match points with
  | [] => False
  | start :: rest => clean_start (portfolio start) /\ lifecycle_ok (ps_symbol (portfolio start)) start rest
  end.

Lemma last_default {A} (x : A) l d d' : List.last (x :: l) d = List.last (x :: l) d'.
Proof. revert x. induction l as [|y l IH]; intros x; [done|]. change (List.last (y :: l) d = List.last (y :: l) d'). apply IH. Qed.

Lemma step_inconsistent_spec symbol p q : step_inconsistent symbol p q = false <-> step_ok symbol p q.
Proof.
  unfold step_inconsistent. rewrite !orb_false_iff, Z.leb_gt, negb_false_iff, String.eqb_eq, dleb_false, dval_0, !dltb_false, negb_false_iff, orb_true_iff,
    !Z.eqb_eq, andb_false_iff, Z.eqb_neq, negb_false_iff, deqb_spec. split.
  - intros [[[[[[H1 H2] H3] H4] H5] H6] H7]. constructor; try done. destruct H6; [left|right; lia]. split; [lia|]. by destruct H7 as [H7|H7].
  - intros [H1 H2 H3 H4 H5 H6]. split_and!; try done; [destruct H6 as [[H6 _]|H6]; [left|right]; lia|].
    destruct H6 as [[_ H6]|H6]; [by right|left; lia].
Qed.

Lemma lifecycle_loop_spec symbol p rest :
  match lifecycle_loop symbol p rest with
  | Ok final => final = List.last rest p /\ (lifecycle_ok symbol p rest <-> dval (ps_asset_quantity (portfolio final)) == 0)%Q
  | Err e => exn_cls e = MetricsError /\ ~ lifecycle_ok symbol p rest
  end.
Proof.
  revert p. induction rest as [|q rest IH]; intros p; [done|]. cbn [lifecycle_loop lifecycle_ok].
  destruct (step_inconsistent symbol p q) eqn:E.
  - split; [done|]. intros [H _]. apply step_inconsistent_spec in H. congruence.
  - apply step_inconsistent_spec in E. specialize (IH q). destruct (lifecycle_loop symbol q rest) as [final|x].
    + destruct IH as [-> IH]. split; [destruct rest as [|x rest]; [done|exact (last_default x rest q p)]|]. rewrite <- IH. tauto.
    + split; [apply IH|]. intros [_ H]. by apply IH.
Qed.

Lemma clean_start_spec p : negb (deqb (ps_asset_quantity p) dec0) || dleb (equity_quote p) dec0 || negb (ps_closed_trades p =? 0)
  || negb (deqb (ps_realized_pnl_quote p) dec0) || negb (deqb (ps_total_fee_quote p) dec0) || negb (deqb (ps_total_slippage_quote p) dec0) = false
  <-> clean_start p.
Proof.
  rewrite !orb_false_iff, !negb_false_iff, dleb_false, !deqb_spec, Z.eqb_eq, !dval_0. split.
  - by intros [[[[[H1 H2] H3] H4] H5] H6].
  - by intros [H1 H2 H3 H4 H5 H6].
Qed.

Lemma validate_curve_spec points :
  match _validate_curve points with
  | Ok (start, final) => curve_ok points /\ points = start :: tail points /\ final = List.last (tail points) start
  | Err e => exn_cls e = MetricsError /\ ~ curve_ok points
  end.
Proof.
  destruct points as [|start rest]; [split; [done|intros []]|]. unfold _validate_curve. destruct (_ || _) eqn:E.
  - split; [done|]. intros [H _]. apply clean_start_spec in H. congruence.
  - apply clean_start_spec in E. pose proof (lifecycle_loop_spec (ps_symbol (portfolio start)) start rest) as H.
    destruct (lifecycle_loop _ start rest) as [final|x]; cbn [rbind]; [|split; [apply H|by intros [_ H']; apply H]].
    destruct H as [-> H]. destruct (deqb _ dec0) eqn:Ea; cbn [negb].
    + apply deqb_spec in Ea. rewrite dval_0 in Ea. split; [|done]. split; [done|by apply H].
    + split; [done|]. intros [_ H']. apply deqb_false in Ea. rewrite dval_0 in Ea. by apply Ea, H.
Qed.

(** ** Drawdowns *)

(** The fall from one point to a later one. *)
Definition fall (p q : equity_point) : Q := ((equity p - equity q) / equity p)%Q.

(** [m] is the deepest fall of the curve. *)
Definition deepest (points : list equity_point) (m : Q) : Prop :=
  (forall i j p q, (i <= j)%nat -> points !! i = Some p -> points !! j = Some q -> (fall p q <= m)%Q)
  /\ exists i j p q, (i <= j)%nat /\ points !! i = Some p /\ points !! j = Some q /\ (fall p q == m)%Q.

Lemma fall_mono e e' q : (0 < e)%Q -> (e <= e')%Q -> (0 <= q)%Q -> ((e - q) / e <= (e' - q) / e')%Q.
Proof.
  intros He Hle Hq. assert (forall x, (0 < x)%Q -> (x - q) / x == 1 - q / x)%Q as E by (intros x Hx; field; lra).
  rewrite !E by lra. assert (q / e' <= q / e)%Q; [|lra]. apply Qle_shift_div_l; [lra|].
  assert (q / e' * e == e / e' * q)%Q as -> by (field; lra).
  rewrite <- (Qmult_1_l q) at 2. apply Qmult_le_compat_r; [|done]. apply Qle_shift_div_r; lra.
Qed.

Lemma fall_bound e q : (0 < e)%Q -> (0 <= q)%Q -> ((e - q) / e <= 1)%Q.
Proof. intros He Hq. apply Qle_shift_div_r; lra. Qed.

Lemma lookup_snoc_cases {A} (l : list A) x i y : (l ++ [x]) !! i = Some y -> l !! i = Some y \/ (i = length l /\ y = x).
Proof. intros H. apply lookup_app_Some in H as [H|[Hl H]]; [by left|right]. destruct (i - length l)%nat eqn:E; [|done]. injection H as <-. split; [lia|done]. Qed.

Lemma deepest_snoc l q r m d dd : deepest l m -> Forall (fun p => 0 < equity p)%Q l -> (0 < equity q)%Q ->
  r ∈ l ++ [q] -> (forall p, p ∈ l ++ [q] -> (equity p <= equity r)%Q) ->
  faithful MP m dd -> faithful MP (fall r q) d ->
  exists m', deepest (l ++ [q]) m' /\ faithful MP m' (if dltb dd d then d else dd).
Proof.
  intros [Hmax (i0 & j0 & p0 & q0 & Hij & Ei & Ej & E0)] Hpos Hq Hr Htop Fm Fd.
  assert (forall i j p s, (i <= j)%nat -> (l ++ [q]) !! i = Some p -> (l ++ [q]) !! j = Some s -> (fall p s <= m)%Q \/ (fall p s <= fall r q)%Q) as Hall.
  { intros i j p s Hle Hi Hj. destruct (lookup_snoc_cases _ _ _ _ Hj) as [Hj'|[-> ->]].
    - left. apply (Hmax i j); [done| |done]. rewrite lookup_app_l in Hi; [done|]. apply lookup_lt_Some in Hj'. lia.
    - right. apply fall_mono; [|apply Htop; by eapply list_elem_of_lookup_2|lra].
      destruct (lookup_snoc_cases _ _ _ _ Hi) as [Hi'|[_ ->]]; [|done]. rewrite Forall_forall in Hpos. apply Hpos. by eapply list_elem_of_lookup_2. }
  assert ((l ++ [q]) !! i0 = Some p0 /\ (l ++ [q]) !! j0 = Some q0) as [Ei' Ej'] by (split; by apply lookup_app_l_Some).
  apply list_elem_of_lookup in Hr as (k & Hk).
  assert ((l ++ [q]) !! length l = Some q) as Hlast by apply list_lookup_middle, eq_refl.
  assert (k <= length l)%nat as Hkl by (apply lookup_lt_Some in Hk; rewrite length_app in Hk; simpl in Hk; lia).
  destruct (Qlt_le_dec m (fall r q)) as [Hlt|Hle].
  - exists (fall r q). split; [split|].
    + intros i j p s H1 H2 H3. destruct (Hall i j p s H1 H2 H3); lra.
    + exists k, (length l), r, q. split_and!; try done.
    + destruct (dltb dd d) eqn:E; [done|]. apply dltb_false in E. intros x Hx. destruct (Fm x Hx) as [F1 F2], (Fd x Hx) as [F3 F4]. split; intros H.
      * specialize (F3 H). lra.
      * apply F2. lra.
  - exists m. split; [split|].
    + intros i j p s H1 H2 H3. destruct (Hall i j p s H1 H2 H3); lra.
    + by exists i0, j0, p0, q0.
    + destruct (dltb dd d) eqn:E; [|done]. apply dltb_spec in E. intros x Hx. destruct (Fm x Hx) as [F1 F2], (Fd x Hx) as [F3 F4]. split; intros H.
      * specialize (F1 H). lra.
      * apply F4. lra.
Qed.

Lemma drawdown_exact r q : (equity q <= equity r)%Q -> (0 < equity q)%Q -> rep 88 168 (equity r) -> rep 88 168 (equity q) ->
  (dval (dsub MP (equity_quote (portfolio r)) (equity_quote (portfolio q))) == equity r - equity q)%Q.
Proof.
  intros H1 H2 Hr Hq. apply (dsub_val (i:=88) (f:=168)); [done|done|]. eapply (rep_bound 89 168); [exact (rep_minus 88 168 88 168 _ _ Hr Hq)|done|].
  pose proof (rep_lt _ _ _ Hr) as Hb. rewrite Qabs_pos in Hb |- * by lra. lra.
Qed.

(** ** The loop over the curve *)

(** Equities at the ledger's widths, as every curve of the simulator has them. *)
Definition equities_exact (points : list equity_point) : Prop := Forall (fun p => rep 88 168 (equity p)) points.

(** The state after [seen], the newest point [previous] included. *)
Record curve_inv (seen : list equity_point) (previous : equity_point) (a : curve_state) : Prop := {
  ci_last : last seen = Some previous;
  ci_equities : Forall (fun p => 0 < equity p)%Q seen;
  ci_peak : exists r, r ∈ seen /\ peak a = equity_quote (portfolio r) /\ forall p, p ∈ seen -> (equity p <= equity r)%Q;
  ci_bounds : (0 <= dval (max_drawdown a))%Q /\ (0 <= dval (max_drawdown_quote a))%Q;
  ci_returns : S (length (period_returns a)) = length seen;
  ci_pnls : Z.of_nat (length (trade_pnls a)) = ps_closed_trades (portfolio previous);
  ci_deepest : equities_exact seen -> exists m, deepest seen m /\ faithful MP m (max_drawdown a);
}.

Lemma MP_pos : (1 <= MP)%N.
Proof. done. Qed.

Lemma curve_start start : clean_start (portfolio start) -> curve_inv [start] start (CurveState (equity_quote (portfolio start)) dec0 dec0 [] []).
Proof.
  intros [_ He Ht _ _ _]. constructor; cbn [peak max_drawdown_quote max_drawdown period_returns trade_pnls]; rewrite ?dval_0; try done.
  - by repeat constructor.
  - exists start. split; [in_list|]. split; [done|]. intros p Hp. apply list_elem_of_singleton in Hp as ->. apply Qle_refl.
  - intros _. exists 0%Q. assert (forall i p, [start] !! i = Some p -> i = O /\ p = start) as H1 by (intros [|i] p; naive_solver).
    assert (fall start start == 0)%Q as E by (unfold fall; field; lra). split; [split|].
    + intros i j p q _ Hi Hj. apply H1 in Hi as [_ ->], Hj as [_ ->]. rewrite E. apply Qle_refl.
    + by exists O, O, start, start.
    + rewrite <- dval_0. apply faithful_refl.
Qed.

Lemma top_snoc seen q r pk : r ∈ seen -> pk = equity_quote (portfolio r) -> (forall p, p ∈ seen -> (equity p <= equity r)%Q) ->
  exists r', r' ∈ seen ++ [q] /\ (if dltb pk (equity_quote (portfolio q)) then equity_quote (portfolio q) else pk) = equity_quote (portfolio r')
    /\ forall p, p ∈ seen ++ [q] -> (equity p <= equity r')%Q.
Proof.
  intros Hr -> Htop. destruct (dltb _ _) eqn:E.
  - apply dltb_spec in E. exists q. split; [apply elem_of_app; right; in_list|]. split; [done|]. intros p Hp.
    apply elem_of_app in Hp as [Hp|Hp]; [specialize (Htop p Hp); lra|]. apply list_elem_of_singleton in Hp as ->. apply Qle_refl.
  - apply dltb_false in E. exists r. split; [apply elem_of_app; by left|]. split; [done|]. intros p Hp.
    apply elem_of_app in Hp as [Hp|Hp]; [by apply Htop|]. by apply list_elem_of_singleton in Hp as ->.
Qed.

Lemma curve_step_ok symbol seen p q a : curve_inv seen p a -> step_ok symbol p q ->
  exists b, curve_step p q a = Ok b /\ curve_inv (seen ++ [q]) q b.
Proof.
  intros [Hlast Heq (r & Hr & Er & Htop) [B1 B2] Hret Hpnl Hdeep] [_ _ Hq _ _ Htr]. unfold curve_step.
  assert (p ∈ seen) as Hp by by apply last_Some_elem_of. assert (0 < equity p)%Q as Pp by (rewrite Forall_forall in Heq; by apply Heq).
  destruct (ddiv_total MP (equity_quote (portfolio q)) (equity_quote (portfolio p))) as (ratio & ->); [lra|]. cbn [rbind].
  destruct (top_snoc seen q r (peak a) Hr Er Htop) as (r' & Hr' & Er' & Htop'). rewrite Er'.
  assert (0 < equity r')%Q as Pr by (apply Qlt_le_trans with (equity q); [done|]; apply Htop', elem_of_app; right; in_list).
  pose proof (Htop' q ltac:(apply elem_of_app; right; in_list)) as Hqr. set (ddq := dsub MP _ (equity_quote (portfolio q))).
  pose proof (dsub_faithful MP (equity_quote (portfolio r')) (equity_quote (portfolio q)) MP_pos) as Fq. fold ddq in Fq.
  assert (0 <= dval ddq)%Q as P1 by (eapply faithful_nonneg; [exact Fq|lra]).
  destruct (ddiv_total MP ddq (equity_quote (portfolio r'))) as (dd & Edd); [lra|]. rewrite Edd. cbn [rbind].
  pose proof (ddiv_faithful MP _ _ _ MP_pos Edd) as Fd. eexists. split; [reflexivity|].
  assert (0 <= dval dd)%Q as P2.
  { eapply faithful_nonneg; [exact Fd|]. apply Qle_shift_div_l; [done|]. by rewrite Qmult_0_l. }
  constructor; cbn [peak max_drawdown_quote max_drawdown period_returns trade_pnls].
  - apply last_snoc.
  - apply Forall_app. split; [done|by repeat constructor].
  - by exists r'.
  - destruct (dltb _ dd); by split.
  - rewrite !length_app. simpl. lia.
  - destruct Htr as [[-> _]| ->]; [by rewrite Z.ltb_irrefl|]. rewrite (proj2 (Z.ltb_lt _ _)) by lia. rewrite length_app. simpl. lia.
  - intros Hex. apply Forall_app in Hex as [Hex Hexq]. apply Forall_inv in Hexq. destruct (Hdeep Hex) as (m & Hm & Fm).
    apply (deepest_snoc seen q r' m dd); try done. unfold fall. rewrite <- (drawdown_exact r' q); [exact Fd|lra..| |done].
    apply elem_of_app in Hr' as [Hr'|Hr']; [unfold equities_exact in Hex; rewrite Forall_forall in Hex; by apply Hex|by apply list_elem_of_singleton in Hr' as ->].
Qed.

Lemma curve_loop_ok symbol seen p rest a : curve_inv seen p a -> lifecycle_ok symbol p rest ->
  exists b, curve_loop p rest a = Ok b /\ curve_inv (seen ++ rest) (List.last rest p) b.
Proof.
  revert seen p a. induction rest as [|q rest IH]; intros seen p a Ha Hl.
  - exists a. by rewrite app_nil_r.
  - destruct Hl as [Hs Hl]. destruct (curve_step_ok symbol seen p q a Ha Hs) as (b & E & Hb). destruct (IH _ _ _ Hb Hl) as (c & Ec & Hc).
    exists c. cbn [curve_loop]. rewrite E. cbn [rbind]. split; [done|]. rewrite <- app_assoc in Hc. cbn [app] in Hc.
    destruct rest as [|x rest]; [done|]. by rewrite (last_default x rest q p) in Hc.
Qed.

(** ** The statistics *)

Lemma dneg_coef_nonneg d : (0 <= dval d)%Q -> dneg d = true -> dcoef d = 0%N.
Proof.
  intros H Hn. apply dval_zero_iff. destruct d as [s c e]. cbn [dneg] in Hn. subst s. rewrite dval_sign in H |- *. cbn [qsign] in *.
  assert (0 <= inject_Z (Z.of_N c) * q10 e)%Q; [|lra]. apply Qmult_le_0_compat; [|by apply Qlt_le_weak]. change 0%Q with (inject_Z 0). rewrite <- Zle_Qle. lia.
Qed.

Lemma dval_positive_sign c e : (0 <= dval (Dec false c e))%Q.
Proof. rewrite dval_sign. cbn [qsign]. rewrite Qmult_1_l. apply Qmult_le_0_compat; [|by apply Qlt_le_weak]. change 0%Q with (inject_Z 0). rewrite <- Zle_Qle. lia. Qed.

Lemma dfix_nonneg d : (0 <= dval d)%Q -> (0 <= dval (dfix MP d))%Q.
Proof. intros H. eapply faithful_nonneg; [by apply dfix_faithful|done]. Qed.

Lemma dsqrt_total d : (0 <= dval d)%Q -> exists r, dsqrt MP d = Ok r /\ (0 <= dval r)%Q.
Proof.
  intros H. unfold dsqrt. destruct (N.eqb_spec (dcoef d) 0) as [E|E].
  - eexists. split; [reflexivity|]. apply dfix_nonneg. rewrite (proj2 (dval_zero_iff (Dec (dneg d) 0 _)) eq_refl). apply Qle_refl.
  - destruct (dneg d) eqn:En; [by rewrite (dneg_coef_nonneg d H En) in E|]. destruct (if 0 <=? _ then _ else _) as [c exact].
    destruct (exact && _); (eexists; split; [reflexivity|]; apply dfix_nonneg, dval_positive_sign).
Qed.

Lemma metric_sum_nonneg l s : (0 <= dval s)%Q -> Forall (fun d => 0 <= dval d)%Q l -> (0 <= dval (dsum MP s l))%Q.
Proof.
  intros Hs Hl. unfold dsum. revert s Hs. induction Hl as [|d l Hd _ IH]; intros s Hs; [done|]. cbn [fold_left]. apply IH.
  eapply faithful_nonneg; [by apply dadd_faithful|lra].
Qed.

Lemma square_nonneg p d : (1 <= p)%N -> (0 <= dval (dmul p d d))%Q.
Proof. intros Hp. eapply faithful_nonneg; [exact (dmul_faithful p d d Hp)|]. destruct (dval d) as [n k]. unfold Qle, Qmult. cbn. nia. Qed.
Lemma dsquare_nonneg d : (0 <= dval (dsquare MP d))%Q.
Proof. unfold dsquare. destruct (dcoef d =? 0)%N; [apply Qle_refl|]. apply dfix_nonneg. by apply square_nonneg. Qed.

Lemma mean_square_root l n : 0 < n -> Forall (fun d => 0 <= dval d)%Q l ->
  exists r, (let* v := ddiv MP (dsum MP dec0 l) (dec_of_Z n) in let* d := dsqrt MP v in Ok (Some d)) = Ok (Some r) /\ (0 <= dval r)%Q.
Proof.
  intros Hn Hl. assert (0 < dval (dec_of_Z n))%Q as Pn by (rewrite dval_dec_of_Z; change 0%Q with (inject_Z 0); by rewrite <- Zlt_Qlt).
  destruct (ddiv_total MP (dsum MP dec0 l) (dec_of_Z n)) as (v & E); [lra|]. rewrite E. cbn [rbind].
  assert (0 <= dval v)%Q as Hv.
  { eapply faithful_nonneg; [exact (ddiv_faithful MP _ _ _ MP_pos E)|]. apply Qle_shift_div_l; [done|]. rewrite Qmult_0_l. apply metric_sum_nonneg; [apply Qle_refl|done]. }
  destruct (dsqrt_total v Hv) as (r & -> & Hr). cbn [rbind]. by exists r.
Qed.

Lemma over_total n root : exists o, over n root = Ok o.
Proof.
  destruct root as [d|]; [|by eexists]. unfold over. destruct (deqb d dec0) eqn:E; [by eexists|]. apply deqb_false in E. rewrite dval_0 in E.
  destruct (ddiv_total MP n d E) as (r & ->). by eexists.
Qed.

Definition opt_nonneg (o : option dec) : Prop := match o with Some d => (0 <= dval d)%Q | None => True end.

Lemma downside_total l : l <> [] -> exists o, downside_of l = Ok o /\ opt_nonneg o
  /\ (o = None <-> Forall (fun v => 0 <= dval v)%Q l).
Proof.
  intros Hl. unfold downside_of. destruct (List.filter _ l) as [|x xs] eqn:E.
  - exists None. split; [done|]. split; [done|]. split; [|done]. intros _. rewrite Forall_forall. intros v Hv. apply list_elem_of_In in Hv.
    destruct (dltb v dec0) eqn:Ev; [|by apply dltb_false in Ev]. assert (In v (List.filter (fun v => dltb v dec0) l)) as Hin by by apply filter_In.
    rewrite E in Hin. destruct Hin.
  - destruct (mean_square_root (map (fun v => dmul MP v v) (x :: xs)) (Z.of_nat (length l))) as (r & Er & Hr).
    + destruct l; [done|]. simpl. lia.
    + rewrite Forall_map. apply Forall_true. intros d. by apply square_nonneg.
    + exists (Some r). split; [exact Er|]. split; [done|]. split; [done|]. intros Hall. exfalso.
      assert (In x (List.filter (fun v => dltb v dec0) l)) as Hin by (rewrite E; by left). apply filter_In in Hin as [Hin Hx].
      apply list_elem_of_In in Hin. rewrite Forall_forall in Hall. specialize (Hall x Hin). apply dltb_spec in Hx. rewrite dval_0 in Hx. lra.
Qed.

Lemma volatility_total m l : exists o, volatility_of m l = Ok o /\ opt_nonneg o /\ (o = None <-> (length l < 2)%nat).
Proof.
  unfold volatility_of. destruct (Nat.ltb_spec (length l) 2) as [H|H]; [by exists None|].
  destruct (mean_square_root (map (fun v => dsquare MP (dsub MP v m)) l) (Z.of_nat (length l) - 1)) as (r & Er & Hr); [lia| |].
  - rewrite Forall_map. apply Forall_true. intros d. apply dsquare_nonneg.
  - exists (Some r). split; [exact Er|]. split; [done|]. split; [done|]. intros Hlt. lia.
Qed.

Lemma statistics_total l : exists m v d a b, return_statistics l = Ok (m, v, d, a, b) /\ opt_nonneg v /\ opt_nonneg d
  /\ (m = None <-> l = []) /\ (v = None <-> (length l < 2)%nat) /\ (d = None <-> Forall (fun r => 0 <= dval r)%Q l).
Proof.
  destruct l as [|x l]; [exists None, None, None, None, None; do 3 (split; [done|]); split; [done|]; split; [split; [intros _; simpl; lia|done]|]; split; [constructor|done]|]. unfold return_statistics.
  assert (0 < dval (dec_of_Z (Z.of_nat (length (x :: l)))))%Q as Pn by (rewrite dval_dec_of_Z; change 0%Q with (inject_Z 0); rewrite <- Zlt_Qlt; simpl; lia).
  destruct (ddiv_total MP (dsum MP dec0 (x :: l)) (dec_of_Z (Z.of_nat (length (x :: l))))) as (mu & ->); [lra|]. cbn [rbind].
  destruct (downside_total (x :: l) ltac:(done)) as (d & -> & Hd & Nd). cbn [rbind]. destruct (over_total mu d) as (b & ->). cbn [rbind].
  destruct (volatility_total mu (x :: l)) as (v & -> & Hv & Nv). cbn [rbind]. destruct (over_total mu v) as (a & ->). cbn [rbind].
  by exists (Some mu), v, d, a, b.
Qed.

Lemma count_three l : Z.of_nat (length l) = count (fun d => dltb dec0 d) l + count (fun d => dltb d dec0) l + count (fun d => deqb d dec0) l.
Proof.
  unfold count. induction l as [|d l IH]; [done|]. cbn [List.filter length]. unfold dltb, deqb. rewrite !dcompare_spec.
  rewrite <- (Qcompare_antisym (dval d) (dval dec0)). unfold dltb, deqb in IH. destruct (dval d ?= dval dec0)%Q; cbn [CompOpp length]; lia.
Qed.

Lemma opt_deqb_refl o : opt_deqb o o = true.
Proof. destruct o; [|done]. by apply deqb_spec. Qed.

Lemma metrics_eqb_refl v : metrics_eqb v v = true.
Proof.
  assert (forall d, deqb d d = true) as H by (intros d; by apply deqb_spec). unfold metrics_eqb. rewrite !H, !Z.eqb_refl, !opt_deqb_refl. done.
Qed.

(** ** The report *)

(** The last point of a curve. *)
Definition final_point (start : equity_point) (points : list equity_point) : equity_point := List.last (tail points) start.

Record metrics_facts (points : list equity_point) (v : metric_values) : Prop := {
  mf_ends : exists start, points = start :: tail points
    /\ initial_equity_quote v = equity_quote (portfolio start)
    /\ final_equity_quote v = equity_quote (portfolio (final_point start points))
    /\ mv_total_fee_quote v = ps_total_fee_quote (portfolio (final_point start points))
    /\ mv_total_slippage_quote v = ps_total_slippage_quote (portfolio (final_point start points))
    /\ mv_trade_count v = ps_closed_trades (portfolio (final_point start points));
  mf_pnl : faithful MP (dval (final_equity_quote v) - dval (initial_equity_quote v)) (net_pnl_quote v)
    /\ faithful MP (dval (net_pnl_quote v) / dval (initial_equity_quote v)) (mv_total_return v)
    /\ faithful MP (dval (mv_total_fee_quote v) + dval (mv_total_slippage_quote v)) (mv_total_cost_quote v)
    /\ faithful MP (dval (net_pnl_quote v) + dval (mv_total_cost_quote v)) (gross_pnl_quote v);
  mf_trades : mv_trade_count v = winning_trades v + losing_trades v + breakeven_trades v
    /\ 0 <= winning_trades v /\ 0 <= losing_trades v /\ 0 <= breakeven_trades v;
  mf_win_rate : match win_rate v with
                | None => mv_trade_count v = 0
                | Some r => 0 < mv_trade_count v /\ faithful MP (inject_Z (winning_trades v) / inject_Z (mv_trade_count v)) r /\ (0 <= dval r <= 1)%Q
                end;
  mf_drawdown : (0 <= dval (mv_maximum_drawdown v))%Q /\ (0 <= dval (maximum_drawdown_quote v))%Q
    /\ (equities_exact points -> (dval (mv_maximum_drawdown v) <= 1)%Q
          /\ exists m, deepest points m /\ faithful MP m (mv_maximum_drawdown v));
  mf_dispersion : opt_nonneg (sample_period_volatility v) /\ opt_nonneg (downside_deviation v)
    /\ (mean_period_return v = None <-> (length points < 2)%nat) /\ (sample_period_volatility v = None <-> (length points < 3)%nat);
}.

Lemma win_rate_spec w n : 0 <= w <= n ->
  exists r, (if n =? 0 then Ok None else let* r := ddiv MP (dec_of_Z w) (dec_of_Z n) in Ok (Some r)) = Ok r
    /\ match r with
       | None => n = 0
       | Some r => 0 < n /\ faithful MP (inject_Z w / inject_Z n) r /\ (0 <= dval r <= 1)%Q
       end.
Proof.
  intros Hw. destruct (Z.eqb_spec n 0) as [E|E]; [by exists None|].
  assert (0 < inject_Z n)%Q as Pn by (change 0%Q with (inject_Z 0); rewrite <- Zlt_Qlt; lia).
  destruct (ddiv_total MP (dec_of_Z w) (dec_of_Z n)) as (r & Er); [rewrite dval_dec_of_Z; lra|]. rewrite Er. exists (Some r). split; [done|].
  apply (ddiv_faithful MP _ _ _ MP_pos) in Er. rewrite !dval_dec_of_Z in Er. split; [lia|]. split; [done|].
  assert (0 <= inject_Z w)%Q as Pw by (change 0%Q with (inject_Z 0); rewrite <- Zle_Qle; lia).
  assert (inject_Z w <= inject_Z n)%Q as Hwn by (rewrite <- Zle_Qle; lia). split.
  - eapply faithful_nonneg; [exact Er|]. apply Qle_shift_div_l; [done|]. by rewrite Qmult_0_l.
  - apply (faithful_upper 1 0 1 MP _ _ rep_1 ltac:(done) Er). apply Qle_shift_div_r; [done|]. by rewrite Qmult_1_l.
Qed.

Lemma fall_le_1 points m : Forall (fun p => 0 < equity p)%Q points -> deepest points m -> (m <= 1)%Q.
Proof.
  intros Hp [_ (i & j & p & q & _ & Hi & Hj & <-)]. rewrite Forall_forall in Hp. apply fall_bound; [apply Hp; by eapply list_elem_of_lookup_2|].
  apply Qlt_le_weak, Hp. by eapply list_elem_of_lookup_2.
Qed.

Lemma calculate_ok points : curve_ok points -> exists v, _calculate points = Ok v /\ metrics_facts points v.
Proof.
  intros Hok. unfold _calculate. pose proof (validate_curve_spec points) as Hv. destruct (_validate_curve points) as [[start final]|x]; [|by destruct Hv].
  destruct Hv as (_ & Ep & Ef). cbn [rbind fst snd]. rewrite Ep in Hok. destruct Hok as [Hs Hl].
  destruct (curve_loop_ok _ [start] start (tail points) _ (curve_start start Hs) Hl) as (a & Ea & Ha).
  change ([start] ++ tail points) with (start :: tail points) in Ha. rewrite <- Ep, <- Ef in Ha.
  pose proof (cs_equity _ Hs) as Pe. set (net := dsub MP _ _).
  destruct (ddiv_total MP net (equity_quote (portfolio start))) as (ret & Eret); [lra|]. rewrite Eret. cbn [rbind]. rewrite Ea. cbn [rbind].
  pose proof (count_three (trade_pnls a)) as H3. rewrite (ci_pnls _ _ _ Ha) in H3. pose proof (Nat2Z.is_nonneg (length (List.filter (fun d => dltb dec0 d) (trade_pnls a)))).
  pose proof (Nat2Z.is_nonneg (length (List.filter (fun d => dltb d dec0) (trade_pnls a)))).
  pose proof (Nat2Z.is_nonneg (length (List.filter (fun d => deqb d dec0) (trade_pnls a)))). fold (count (fun d => dltb dec0 d) (trade_pnls a)) in *.
  fold (count (fun d => dltb d dec0) (trade_pnls a)) in *. fold (count (fun d => deqb d dec0) (trade_pnls a)) in *.
  destruct (win_rate_spec (count (fun d => dltb dec0 d) (trade_pnls a)) (ps_closed_trades (portfolio final))) as (wr & Ewr & Hwr); [lia|].
  rewrite Ewr. cbn [rbind]. destruct (statistics_total (period_returns a)) as (mu & vol & down & r1 & r2 & Est & Hvol & Hdown & Nmu & Nvol & _).
  rewrite Est. cbn [rbind]. eexists. split; [reflexivity|].
  pose proof (ci_returns _ _ _ Ha) as Hr. constructor; cbn [initial_equity_quote final_equity_quote mv_total_return mv_trade_count winning_trades losing_trades
    breakeven_trades win_rate gross_pnl_quote net_pnl_quote mv_total_fee_quote mv_total_slippage_quote mv_total_cost_quote maximum_drawdown_quote
    mv_maximum_drawdown mean_period_return sample_period_volatility downside_deviation mean_over_volatility mean_over_downside].
  - exists start. unfold final_point. by rewrite <- Ef.
  - split_and!; [apply (dsub_faithful MP _ _ MP_pos)|exact (ddiv_faithful MP _ _ _ MP_pos Eret)|apply (dadd_faithful MP _ _ MP_pos)..].
  - done.
  - exact Hwr.
  - destruct (ci_bounds _ _ _ Ha) as [B1 B2]. split; [done|]. split; [done|]. intros Hex. destruct (ci_deepest _ _ _ Ha Hex) as (m & Hm & Fm).
    split; [|by exists m]. apply (faithful_upper 1 0 1 MP _ _ rep_1 ltac:(done) Fm). by apply (fall_le_1 points m (ci_equities _ _ _ Ha)).
  - split; [done|]. split; [done|]. rewrite Nmu, Nvol. split; [|lia]. rewrite <- length_zero_iff_nil. lia.
Qed.

Lemma last_of_cons {A} (x : A) l : last (x :: l) = Some (List.last l x).
Proof. revert x. induction l as [|y l IH]; intros x; [done|]. change (last (y :: l) = Some (List.last (y :: l) x)). rewrite IH. by destruct l as [|z l]; [|rewrite (last_default z l y x)]. Qed.

Lemma metrics_ok points r : calculate_metrics points = Ok r -> pr_points r = points /\ metrics_facts points (pr_values r).
Proof.
  unfold calculate_metrics. intros H. apply rbind_ok in H as (v & Hv & H). apply rbind_ok in H as (u & _ & H). apply Ok_inj in H. subst r.
  cbn [pr_points pr_values]. split; [done|]. pose proof (validate_curve_spec points) as Hs. pose proof Hv as Hc. unfold _calculate in Hc.
  destruct (_validate_curve points) as [[start final]|e]; [|done]. destruct Hs as [Hok _]. destruct (calculate_ok points Hok) as (v' & Ev & Hf).
  rewrite Hv in Ev. apply Ok_inj in Ev. by subst v'.
Qed.

(** Metrics are total and mean what they say.  [calculate_metrics] succeeds
    exactly on the curves whose lifecycle is consistent (a clean flat start, times
    increasing, equity positive, costs never falling, at most one trade closed
    per step, realized profit moving only then, a flat end) and raises
    MetricsError on any other; no arithmetic of it can trap.  Trades split exactly
    into wins, losses and ties; the win rate is in [0, 1]; and on equities of the
    ledger's width the maximum drawdown is in [0, 1] and is the rounding, to the
    full 256 digits, of the deepest fall between two points of the curve. *)
Theorem metrics_total_exact points :
  match calculate_metrics points with
  | Ok r => curve_ok points /\ pr_points r = points /\ metrics_facts points (pr_values r)
  | Err e => exn_cls e = MetricsError /\ ~ curve_ok points
  end.
Proof.
  unfold calculate_metrics. pose proof (validate_curve_spec points) as Hv. destruct (_validate_curve points) as [[start final]|x] eqn:E.
  - destruct Hv as [Hok _]. destruct (calculate_ok points Hok) as (v & Ev & Hf). rewrite Ev. cbn [rbind]. unfold report_post_init.
    cbn [pr_points pr_values]. rewrite Ev. cbn [rbind]. by rewrite metrics_eqb_refl.
  - unfold _calculate. by rewrite E.
Qed.

Definition flat_point (t : Z) (e pnl fees : dec) (n : Z) : equity_point :=
  EquityPoint t (PortfolioSnapshot "BTCUSDT" e dec0 dec0 dec0 pnl dec0 e fees dec0 n).
Example metrics_of_a_loss :
  match calculate_metrics [flat_point 1 (dec_of_Z 100) dec0 dec0 0; flat_point 2 (dec_of_Z 125) (dec_of_Z 25) dec1 1;
                           flat_point 3 (dec_of_Z 75) (dec_of_Z (-25)) dec1 2] with
  | Ok r => deqb (mv_maximum_drawdown (pr_values r)) (Dec false 4 (-1)) && (losing_trades (pr_values r) =? 1) && (winning_trades (pr_values r) =? 1)
  | Err _ => false
  end = true.
Proof. vm_compute. reflexivity. Qed.
