(* ===== verification/DataQuality.v ===== *)
(** * Data quality and health reports
    (yatl/data/quality.py and yatl/data/health.py)

    Duplicate detection, gap detection and the repair plan of a bounded range
    of candles, and the health report that gates a dataset. *)
From stdpp Require Import gmap sets.
From S2P Require Import Prelude Market.

Definition MAX_RANGE_CANDLES : Z := 100000.
Definition MAX_REPAIR_RANGES : Z := 1000.

(** ** yatl/data/quality.py *)

Record range_quality_report : Type := RangeQualityReport {
  rq_source : string;
  rq_symbol : string;
  rq_interval : string;
  rq_start_time_ms : Z;
  rq_end_time_ms : Z;
  expected_rows : Z;
  observed_rows : Z;
  observed_unique_rows : Z;
  duplicate_open_times : list Z;
  historical_gap_open_times : list Z;
  expected_current_open_time_ms : option Z;
  expected_current_open_missing : bool;
  repair_ranges : list (Z * Z);
}.

Definition healthy (r : range_quality_report) : bool :=
  match duplicate_open_times r, historical_gap_open_times r with [], [] => true | _, _ => false end.

(** The shared loop: each key seen again is reported once, in the order of
    its first repetition.  The state is (seen, repeated, duplicates). *)
Definition seen_state (K : Type) `{Countable K} : Type := gset K * gset K * list K.

Definition see {K} `{Countable K} (s : seen_state K) (k : K) : seen_state K :=
  let '(seen, repeated, duplicates) := s in
  if decide (k ∈ seen /\ k ∉ repeated) then ({[k]} ∪ seen, {[k]} ∪ repeated, duplicates ++ [k])
  else ({[k]} ∪ seen, repeated, duplicates).

Definition duplicate_candle_keys (candles : list candle) : result (list (string * string * string * Z)) :=
  raise_if MAX_RANGE_CANDLES <? Z.of_nat (length candles)
    with QualityError "Candle collection is invalid or too large" ;;
  let '(_, _, duplicates) := fold_left (fun s c => see s (candle_key c)) candles (∅, ∅, []) in
  Ok duplicates.

Fixpoint ranges_loop (duration start previous : Z) (rest : list Z) : list (Z * Z) :=
  match rest with
  | [] => [(start, previous + duration)]
  | t :: rest' =>
      if negb (t =? previous + duration)
      then (start, previous + duration) :: ranges_loop duration t t rest'
      else ranges_loop duration start t rest'
  end.

Definition _repair_ranges (missing_open_times : list Z) (duration : Z) : result (list (Z * Z)) :=
  match missing_open_times with
  | [] => Ok []
  | t :: rest =>
      let ranges := ranges_loop duration t t rest in
      raise_if MAX_REPAIR_RANGES <? Z.of_nat (length ranges)
        with QualityError "Missing candles require too many repair ranges" ;;
      Ok ranges
  end.

Fixpoint observe (start_time_ms end_time_ms duration : Z) (s : seen_state Z) (open_times : list Z)
    : result (seen_state Z) :=
  match open_times with
  | [] => Ok s
  | t :: rest =>
      raise_if (t <? start_time_ms) || (end_time_ms <=? t) || negb (t mod duration =? 0)
        with QualityError "Observed candle timestamp is outside the exact UTC grid" ;;
      observe start_time_ms end_time_ms duration (see s t) rest
  end.

Definition analyze_open_times (source symbol interval : string) (start_time_ms end_time_ms : Z)
    (open_times : list Z) (server_time_ms : Z) : result range_quality_report :=
  match interval_ms interval with
  | None => Err (Raise QualityError "Unsupported source, symbol or interval")
  | Some duration =>
      raise_if negb (String.eqb source DATA_SOURCE) || negb (str_in symbol SYMBOLS)
        with QualityError "Unsupported source, symbol or interval" ;;
      raise_if (start_time_ms <? 0) || (server_time_ms <? 0) || (end_time_ms <=? start_time_ms)
               || negb (start_time_ms mod duration =? 0) || negb (end_time_ms mod duration =? 0)
        with QualityError "Quality range or server time is invalid" ;;
      let expected_rows := (end_time_ms - start_time_ms) / duration in
      raise_if MAX_RANGE_CANDLES <? expected_rows with QualityError "Quality range exceeds the candle limit" ;;
      let current_open := (server_time_ms / duration) * duration in
      raise_if current_open + duration <? end_time_ms
        with QualityError "Quality range extends beyond the current interval" ;;
      raise_if MAX_RANGE_CANDLES <? Z.of_nat (length open_times)
        with QualityError "Open-time collection is invalid or too large" ;;
      let* s := observe start_time_ms end_time_ms duration (∅, ∅, []) open_times in
      let '(seen, _, duplicates) := s in
      let missing := filter (fun t => t ∉ seen) (py_range start_time_ms end_time_ms duration) in
      let expected_current :=
        if (start_time_ms <=? current_open) && (current_open <? end_time_ms) then Some current_open else None in
      let current_missing :=
        match expected_current with Some t => bool_decide (t ∈ missing) | None => false end in
      let historical_gaps := filter (fun t => Some t <> expected_current) missing in
      let* ranges := _repair_ranges historical_gaps duration in
      Ok (RangeQualityReport source symbol interval start_time_ms end_time_ms expected_rows
            (Z.of_nat (length open_times)) (Z.of_nat (size seen)) duplicates historical_gaps
            expected_current current_missing ranges)
  end.

(** ** yatl/data/health.py *)

Record data_health_report : Type := DataHealthReport {
  dh_source : string;
  dh_symbol : string;
  dh_interval : string;
  dh_requested_start_time_ms : Z;
  dh_requested_end_time_ms : Z;
  stored_first_open_time_ms : option Z;
  stored_last_open_time_ms : option Z;
  dh_total_rows : Z;
  unique_rows : Z;
  closed_rows : Z;
  open_rows : Z;
  dh_duplicate_open_times : list Z;
  dh_historical_gap_open_times : list Z;
  dh_repair_ranges : list (Z * Z);
  dh_expected_current_open_time_ms : option Z;
  dh_expected_current_open_missing : bool;
  unexpected_open_times : list Z;
  malformed_rows : Z;
  conflicting_rows : Z;
  freshness_ms : option Z;
  fresh : bool;
  backtest_ready : bool;
  failure_reasons : list string;
}.

(** The first candle of each open time, in ascending order: [setdefault] over
    the stably sorted rows. *)
Fixpoint first_by_time (seen : list Z) (rows : list candle) : list candle :=
  match rows with
  | [] => []
  | c :: rest =>
      if decide (open_time_ms c ∈ seen) then first_by_time seen rest
      else c :: first_by_time (open_time_ms c :: seen) rest
  end.
Definition unique_by_time (candles : list candle) : list candle :=
  first_by_time [] (sort_by open_time_ms candles).

Definition count_if (f : candle -> bool) (l : list candle) : Z := Z.of_nat (length (filter (fun c => f c = true) l)).

(** [max(..., key=open_time_ms, default=None)] keeps the first maximum. *)
Definition latest_of (l : list candle) : option candle :=
  fold_left (fun acc c => match acc with
                          | None => Some c
                          | Some b => if open_time_ms b <? open_time_ms c then Some c else acc
                          end) l None.

Definition reason_if (b : bool) (reason : string) : list string := if b then [reason] else [].

Definition nonempty {A} (l : list A) : bool := match l with [] => false | _ => true end.

Definition build_health_report (source_ symbol_ interval_ : string) (start_time_ms end_time_ms : Z)
    (candles : list candle) (server_time_ms malformed conflicting : Z) : result data_health_report :=
  match interval_ms interval_ with
  | None => Err (Raise HealthError "Unsupported health-report identity")
  | Some duration =>
      raise_if negb (String.eqb source_ DATA_SOURCE) || negb (str_in symbol_ SYMBOLS)
        with HealthError "Unsupported health-report identity" ;;
      raise_if (MAX_RANGE_CANDLES <? Z.of_nat (length candles)) || (malformed <? 0) || (conflicting <? 0)
        with HealthError "Health-report rows or diagnostics are invalid" ;;
      raise_if existsb (fun c => negb (String.eqb (source c) source_) || negb (String.eqb (symbol c) symbol_)
                                 || negb (String.eqb (interval c) interval_)) candles
        with HealthError "Candle identity does not match the health report" ;;
      let* quality := rcatch
        (let* q := analyze_open_times source_ symbol_ interval_ start_time_ms end_time_ms
                     (map open_time_ms candles) server_time_ms in
         do* duplicate_candle_keys candles ;; Ok q)
        [QualityError] (Raise HealthError "Health range failed quality validation") in
      let ordered := sort_by open_time_ms candles in
      let unique := unique_by_time candles in
      let closed_times := map open_time_ms (filter (fun c => is_closed c = true) unique) in
      let open_times := map open_time_ms (filter (fun c => is_closed c = false) unique) in
      let unexpected_open := filter (fun t => Some t <> expected_current_open_time_ms quality) open_times in
      let current_open := (server_time_ms / duration) * duration in
      let closed_boundary := Z.min end_time_ms current_open in
      let latest_required_closed :=
        if start_time_ms <? closed_boundary then Some (closed_boundary - duration) else None in
      let fresh :=
        match latest_required_closed with None => true | Some t => bool_decide (t ∈ closed_times) end in
      let latest_closed := latest_of (filter (fun c => is_closed c = true) unique) in
      let freshness := (fun c => Z.max 0 (server_time_ms - (close_time_ms c + 1))) <$> latest_closed in
      let reasons :=
        reason_if (nonempty (duplicate_open_times quality)) "duplicates"
        ++ reason_if (nonempty (historical_gap_open_times quality)) "historical_gaps"
        ++ reason_if (nonempty unexpected_open) "unexpected_open_candles"
        ++ reason_if (negb (malformed =? 0)) "malformed_rows"
        ++ reason_if (negb (conflicting =? 0)) "conflicting_rows"
        ++ reason_if (negb fresh) "stale_closed_data" in
      Ok (DataHealthReport source_ symbol_ interval_ start_time_ms end_time_ms
            (open_time_ms <$> head ordered) (open_time_ms <$> last ordered)
            (Z.of_nat (length candles)) (Z.of_nat (length unique))
            (count_if is_closed unique) (count_if (fun c => negb (is_closed c)) unique)
            (duplicate_open_times quality) (historical_gap_open_times quality) (repair_ranges quality)
            (expected_current_open_time_ms quality) (expected_current_open_missing quality)
            unexpected_open malformed conflicting freshness fresh (negb (nonempty reasons)) reasons)
  end.

(** * Properties *)

(** ** Duplicates *)

(** [k] occurs at two positions of [l]. *)
Definition repeats {K} (l : list K) (k : K) : Prop := exists l1 l2 l3, l = l1 ++ k :: l2 ++ k :: l3.

Lemma repeats_snoc {K} (l : list K) x k : repeats (l ++ [x]) k <-> repeats l k \/ (k = x /\ k ∈ l).
Proof.
  split.
  - intros (l1 & l2 & l3 & E). destruct l3 as [|y l3 _] using rev_ind.
    + rewrite app_comm_cons, app_assoc in E. apply app_inj_tail in E as [-> ->]. right. split; [done|]. set_solver.
    + rewrite app_comm_cons, app_assoc, app_comm_cons, app_assoc in E.
      apply app_inj_tail in E as [-> _]. left. exists l1, l2, l3. by rewrite <- app_assoc.
  - intros [(l1 & l2 & l3 & ->)|[-> (l1 & l2 & ->)%list_elem_of_split]].
    + exists l1, l2, (l3 ++ [x]). by rewrite <- !app_assoc; simpl; rewrite <- app_assoc.
    + exists l1, l2, []. by rewrite <- app_assoc.
Qed.

Lemma repeats_NoDup {K} `{EqDecision K} (l : list K) : (forall k, ~ repeats l k) <-> NoDup l.
Proof.
  induction l as [|x l IH] using rev_ind.
  - split; [constructor|]. intros _ k (l1 & l2 & l3 & E). by destruct l1.
  - setoid_rewrite repeats_snoc. rewrite NoDup_app, <- IH. split.
    + intros H. split; [naive_solver|]. split; [|apply NoDup_singleton].
      intros y Hy ->%list_elem_of_singleton. naive_solver.
    + intros (H1 & H2 & _) k [Hk|[-> Hk]]; [by eapply H1|]. apply (H2 x Hk). set_solver.
Qed.

(** The loop's state after the keys [p]. *)
Definition seen_inv {K} `{Countable K} (p : list K) (s : seen_state K) : Prop :=
  let '(seen, repeated, duplicates) := s in
  seen = list_to_set p /\ repeated = list_to_set duplicates /\ NoDup duplicates
  /\ forall k, k ∈ duplicates <-> repeats p k.

Lemma seen_inv_nil {K} `{Countable K} : seen_inv (K:=K) [] (∅, ∅, []).
Proof.
  split_and!; [done|done|constructor|]. intros k. split; [by intros ?%elem_of_nil|].
  intros (l1 & l2 & l3 & E). by destruct l1.
Qed.

Lemma see_inv {K} `{Countable K} (p : list K) s k : seen_inv p s -> seen_inv (p ++ [k]) (see s k).
Proof.
  destruct s as [[seen repeated] duplicates]. intros (-> & -> & Hnd & Hd). unfold see.
  assert (forall x, repeats (p ++ [k]) x <-> x ∈ duplicates \/ (x = k /\ k ∈ p)) as Hr.
  { intros x. rewrite repeats_snoc, Hd. naive_solver. }
  case_decide as Hk; unfold seen_inv; setoid_rewrite Hr; rewrite !list_to_set_app_L; simpl.
  - destruct Hk as [Hk1 Hk2]. apply elem_of_list_to_set in Hk1. rewrite elem_of_list_to_set in Hk2.
    split_and!; [set_solver|set_solver| |set_solver].
    apply NoDup_app. split; [done|]. split; [set_solver|]. apply NoDup_singleton.
  - split_and!; [set_solver|done|done|]. intros x. split; [by left|].
    intros [Hx|[-> Hx]]; [done|]. destruct (decide (k ∈ duplicates)); [done|].
    destruct Hk. rewrite !elem_of_list_to_set. done.
Qed.

Lemma see_fold {K A} `{Countable K} (key : A -> K) (l : list A) p s :
  seen_inv p s -> seen_inv (p ++ map key l) (fold_left (fun s x => see s (key x)) l s).
Proof.
  revert p s. induction l as [|x l IH]; intros p s Hs; simpl; [by rewrite app_nil_r|].
  replace (p ++ key x :: map key l) with ((p ++ [key x]) ++ map key l) by by rewrite <- app_assoc.
  apply IH. by apply see_inv.
Qed.

(** ** Repair ranges *)

Lemma py_range_one t d : 0 < d -> py_range t (t + d) d = [t].
Proof.
  intros Hd. unfold py_range. replace (t + d - t + d - 1) with (1 * d + (d - 1)) by lia.
  rewrite Z.div_add_l, Z.div_small by lia. simpl. f_equal. lia.
Qed.

Lemma py_range_snoc s e d : 0 < d -> s <= e -> (e - s) mod d = 0 -> py_range s (e + d) d = py_range s e d ++ [e].
Proof.
  intros Hd Hse Hm. apply Z_div_exact_full_2 in Hm as Hq; [|lia]. set (q := (e - s) / d) in *.
  assert (0 <= q) by (apply Z.div_pos; lia). unfold py_range.
  replace (e + d - s + d - 1) with ((q + 1) * d + (d - 1)) by lia.
  replace (e - s + d - 1) with (q * d + (d - 1)) by lia.
  rewrite !Z.div_add_l, Z.div_small, !Z.add_0_r by lia.
  rewrite Z2Nat.inj_add, seq_app, map_app by lia. simpl. f_equal. f_equal. lia.
Qed.

(** Missing open times as [analyze_open_times] lists them. *)
Fixpoint ascending (d previous : Z) (l : list Z) : Prop :=
  match l with
  | [] => True
  | t :: rest => previous < t /\ (t - previous) mod d = 0 /\ ascending d t rest
  end.

(** Each range ends strictly before the next one starts. *)
Fixpoint separated (previous_end : Z) (ranges : list (Z * Z)) : Prop :=
  match ranges with
  | [] => True
  | (s, e) :: rest => previous_end < s /\ s < e /\ separated e rest
  end.

Definition expand (d : Z) (ranges : list (Z * Z)) : list Z := flat_map (fun r => py_range (fst r) (snd r) d) ranges.

Lemma mod_add_0 a b d : 0 < d -> a mod d = 0 -> b mod d = 0 -> (a + b) mod d = 0.
Proof. intros Hd Ha Hb. rewrite Z.add_mod, Ha, Hb by lia. by apply Z.mod_0_l; lia. Qed.

Lemma ranges_loop_spec d s p rest : 0 < d -> s <= p -> (p - s) mod d = 0 -> ascending d p rest ->
  expand d (ranges_loop d s p rest) = py_range s (p + d) d ++ rest
  /\ forall b, b < s -> separated b (ranges_loop d s p rest).
Proof.
  intros Hd. revert s p. induction rest as [|t rest IH]; intros s p Hsp Hm Ha; simpl in *.
  - split; [done|]. intros b Hb. split_and!; [lia|lia|done].
  - destruct Ha as (Hpt & Hmt & Ha). destruct (Z.eqb_spec t (p + d)) as [->|Hne]; simpl.
    + destruct (IH s (p + d)) as [E Hs]; [lia| |done|].
      { replace (p + d - s) with ((p - s) + 1 * d) by lia. by rewrite Z_mod_plus_full. }
      split; [|done]. rewrite E, py_range_snoc by (try lia; replace (p + d - s) with ((p - s) + 1 * d) by lia;
        by rewrite Z_mod_plus_full). by rewrite <- app_assoc.
    + destruct (IH t t) as [E Hs]; [lia|by rewrite Z.sub_diag, Z.mod_0_l by lia|done|].
      split; [|intros b Hb; split; [done|split; [lia|apply Hs]]].
      * rewrite E, py_range_one by done. done.
      * apply Z_div_exact_full_2 in Hmt; [|lia]. generalize dependent ((t - p) / d). intros q Hq.
        destruct (Z.eq_dec q 1) as [->|]; [lia|]. assert (0 < q) by nia. assert (2 * d <= q * d) by nia. lia.
Qed.

Lemma repair_ranges_spec l d ranges : 0 < d ->
  match l with [] => True | t :: rest => ascending d t rest end ->
  _repair_ranges l d = Ok ranges ->
  expand d ranges = l /\ (forall b, (forall t, t ∈ l -> b < t) -> separated b ranges)
  /\ Z.of_nat (length ranges) <= MAX_REPAIR_RANGES.
Proof.
  intros Hd Ha. destruct l as [|t rest]; simpl; intros H; res_inv; subst.
  - split; [done|]. done.
  - destruct (ranges_loop_spec d t t rest) as [E Hs]; [done|lia|by rewrite Z.sub_diag, Z.mod_0_l by lia|done|].
    rewrite E, py_range_one by done. split; [done|]. split; [|lia]. intros b Hb. apply Hs, Hb. set_solver.
Qed.

Lemma ascending_weaken d p p' l : 0 < d -> p' <= p -> (p - p') mod d = 0 -> ascending d p l -> ascending d p' l.
Proof.
  intros Hd Hp Hm. destruct l as [|t l]; [done|]. intros (H1 & H2 & H3). split; [lia|]. split; [|done].
  replace (t - p') with ((t - p) + (p - p')) by lia. by apply mod_add_0.
Qed.

Lemma ascending_filter d p l (P : Z -> Prop) `{!forall t, Decision (P t)} : 0 < d ->
  ascending d p l -> ascending d p (filter P l).
Proof.
  intros Hd. revert p. induction l as [|t l IH]; intros p; [done|]. intros (H1 & H2 & H3).
  rewrite filter_cons. case_decide; [split_and!; auto|].
  apply (ascending_weaken d t); [done|lia|done|]. by apply IH.
Qed.

Lemma ascending_head d p l : ascending d p l -> match l with [] => True | t :: rest => ascending d t rest end.
Proof. destruct l; [done|]. by intros (_ & _ & ?). Qed.

Lemma ascending_lt d p l t : ascending d p l -> t ∈ l -> p < t.
Proof.
  revert p. induction l as [|x l IH]; intros p; [by intros _ ?%elem_of_nil|].
  intros (H1 & _ & H3) [->|Ht]%elem_of_cons; [done|]. specialize (IH _ H3 Ht). lia.
Qed.

Lemma ascending_NoDup d p l : ascending d p l -> NoDup l.
Proof.
  revert p. induction l as [|x l IH]; intros p; [constructor|]. intros (_ & _ & H3). constructor; [|by eapply IH].
  intros Hx. pose proof (ascending_lt _ _ _ _ H3 Hx). lia.
Qed.

Lemma py_range_ascending s e d : 0 < d -> ascending d (s - d) (py_range s e d).
Proof.
  intros Hd. unfold py_range. generalize (Z.to_nat ((e - s + d - 1) / d)) as n.
  replace (s - d) with (s + (Z.of_nat 0 - 1) * d) by lia. generalize 0%nat as k.
  intros k n. revert k. induction n as [|n IH]; intros k; [done|]. simpl. split; [lia|]. split.
  - replace (s + Z.of_nat k * d - (s + (Z.of_nat k - 1) * d)) with (1 * d) by lia. by rewrite Z_mod_mult.
  - replace (s + Z.of_nat k * d) with (s + (Z.of_nat (S k) - 1) * d) by lia. apply IH.
Qed.

Lemma py_range_length s e d : 0 < d -> s <= e -> (e - s) mod d = 0 -> Z.of_nat (length (py_range s e d)) = (e - s) / d.
Proof.
  intros Hd Hse Hm. unfold py_range. rewrite length_map, length_seq.
  apply Z_div_exact_full_2 in Hm; [|lia].
  replace ((e - s + d - 1) / d) with ((e - s) / d).
  - rewrite Z2Nat.id; [done|]. apply Z.div_pos; lia.
  - rewrite Hm at 2. replace (d * ((e - s) / d) + d - 1) with ((e - s) / d * d + (d - 1)) by lia.
    rewrite Z.div_add_l, (Z.div_small (d - 1)) by lia. lia.
Qed.

Lemma observe_ok start e d s open_times s' : observe start e d s open_times = Ok s' ->
  s' = fold_left (fun s t => see s (id t)) open_times s
  /\ Forall (fun t => start <= t < e /\ t mod d = 0) open_times.
Proof.
  revert s. induction open_times as [|t l IH]; intros s; simpl; [intros [= ->]; by split|].
  intros H. res_inv. apply IH in H as [-> Hl]. split; [done|]. constructor; [|done].
  rewrite !orb_false_iff in Hc. bool_prop. lia.
Qed.

Lemma filter_ext_elem {A} (P Q : A -> Prop) `{!forall x, Decision (P x), !forall x, Decision (Q x)} (l : list A) :
  (forall x, x ∈ l -> P x <-> Q x) -> filter P l = filter Q l.
Proof.
  induction l as [|x l IH]; intros HPQ; [done|]. rewrite !filter_cons, IH by (intros; apply HPQ; set_solver).
  specialize (HPQ x ltac:(set_solver)). repeat case_decide; naive_solver.
Qed.

(** The counting argument: a set of grid points and its complement. *)
Lemma filter_complement (X : gset Z) l : NoDup l -> (forall t, t ∈ X -> t ∈ l) ->
  (size X + length (filter (fun t => t ∉ X) l) = length l)%nat.
Proof.
  intros Hnd. revert X. induction Hnd as [|t l Hx _ IH]; intros X HX.
  - assert (X = ∅) as -> by (apply set_eq; intros t; specialize (HX t); set_solver). by rewrite size_empty.
  - rewrite filter_cons. case_decide as Ht.
    + simpl. rewrite <- (IH X); [lia|]. intros y Hy. specialize (HX y Hy). set_solver.
    + simpl. rewrite <- (IH (X ∖ {[t]})); [|intros y Hy; specialize (HX y); set_solver].
      assert ({[t]} ⊆ X) as Hsub by set_solver.
      pose proof (size_difference X {[t]} Hsub). pose proof (subseteq_size {[t]} X Hsub).
      rewrite size_singleton in *. assert (size X = S (size (X ∖ {[t]}))) as -> by lia.
      rewrite (filter_ext_elem (fun y => y ∉ X) (fun y => y ∉ X ∖ {[t]}) l); [lia|]. set_solver.
Qed.

(** Everything an accepted analysis says about its inputs. *)
Record quality_facts (ivl : string) (start e server d : Z) (open_times : list Z) (r : range_quality_report) : Prop := {
  qf_range : 0 <= start < e /\ start mod d = 0 /\ e mod d = 0 /\ 0 <= server;
  qf_report : rq_start_time_ms r = start /\ rq_end_time_ms r = e /\ rq_interval r = ivl
    /\ expected_rows r = (e - start) / d /\ expected_rows r <= MAX_RANGE_CANDLES;
  qf_grid : Forall (fun t => t ∈ py_range start e d) open_times;
  qf_current : expected_current_open_time_ms r
    = if (start <=? server / d * d) && (server / d * d <? e) then Some (server / d * d) else None;
  qf_past : e <= server / d * d + d;
  qf_missing : expected_current_open_missing r
    = match expected_current_open_time_ms r with Some t => bool_decide (t ∉ open_times) | None => false end;
  qf_gaps : historical_gap_open_times r
    = filter (fun t => (t ∉ open_times) /\ Some t <> expected_current_open_time_ms r) (py_range start e d);
  qf_duplicates : NoDup (duplicate_open_times r) /\ forall t, t ∈ duplicate_open_times r <-> repeats open_times t;
  qf_unique : observed_unique_rows r = Z.of_nat (size (list_to_set open_times : gset Z));
  qf_repair : expand d (repair_ranges r) = historical_gap_open_times r /\ separated (start - 1) (repair_ranges r);
}.

Lemma filter_filter_and {A} (P Q : A -> Prop) `{!forall x, Decision (P x), !forall x, Decision (Q x)} (l : list A) :
  filter Q (filter P l) = filter (fun x => P x /\ Q x) l.
Proof.
  induction l as [|x l IH]; [done|]. rewrite !filter_cons. repeat case_decide; rewrite ?filter_cons;
    repeat case_decide; naive_solver congruence.
Qed.

Lemma analyze_ok src sym ivl start e open_times server d r :
  interval_ms ivl = Some d -> analyze_open_times src sym ivl start e open_times server = Ok r ->
  quality_facts ivl start e server d open_times r.
Proof.
  intros Hivl H. pose proof (interval_ms_pos _ _ Hivl) as Hd. unfold analyze_open_times in H. rewrite Hivl in H. res_inv.
  destruct a as [[seen rep] dups]. apply observe_ok in Hr as [Es Hgrid]. res_inv. subst r.
  pose proof (see_fold id open_times [] (∅, ∅, []) seen_inv_nil) as Hinv. rewrite <- Es in Hinv.
  rewrite map_id in Hinv. simpl in Hinv. destruct Hinv as (-> & -> & Hnd & Hdup).
  rewrite !orb_false_iff in Hc0. bool_prop.
  assert (forall t, t ∈ open_times <-> t ∈ (list_to_set open_times : gset Z)) as Hset by (intros; by rewrite elem_of_list_to_set).
  rewrite filter_filter_and in Hr.
  pose proof (py_range_ascending start e d Hd) as Hasc.
  assert (0 < d) as Hd' by done.
  match type of Hr with _repair_ranges ?l _ = _ => set (gaps := l) in * end.
  assert (ascending d (start - d) gaps) as Hga by by apply ascending_filter.
  destruct (repair_ranges_spec gaps d a Hd (ascending_head _ _ _ Hga) Hr) as (Eexp & Hsep & _).
  assert (forall t, t ∈ gaps -> start <= t) as Hge.
  { intros t Ht. apply list_elem_of_filter in Ht as [_ Ht]. apply py_range_elem in Ht; lia. }
  constructor; simpl; rewrite ?filter_filter_and; try done.
  - lia.
  - rewrite Forall_forall in Hgrid. apply Forall_forall. intros t Ht. destruct (Hgrid t Ht) as [Hb Hm].
    apply py_range_elem; [done|]. split; [done|]. rewrite Zminus_mod, Hm. 
    replace (start mod d) with 0 by lia. by rewrite Z.sub_0_r, Z.mod_0_l by lia.
  - destruct (_ && _) eqn:Ecur; [|done]. apply andb_true_iff in Ecur. bool_prop.
    apply bool_decide_ext. rewrite list_elem_of_filter, elem_of_list_to_set, py_range_elem by done.
    split; [by intros [? _]|]. intros Hn. split; [done|]. split; [lia|].
    rewrite Zminus_mod, Z_mod_mult. replace (start mod d) with 0 by lia. by rewrite Z.sub_0_r, Z.mod_0_l by lia.
  - apply filter_ext_elem. intros t _. by rewrite elem_of_list_to_set.
  - split; [done|]. apply Hsep. intros t Ht. specialize (Hge t Ht). lia.
Qed.

Lemma no_gaps ivl start e server d open_times r : quality_facts ivl start e server d open_times r ->
  historical_gap_open_times r = [] <->
  forall t, t ∈ py_range start e d -> Some t <> expected_current_open_time_ms r -> t ∈ open_times.
Proof.
  intros [_ _ _ _ _ _ Hg _ _ _]. rewrite Hg. split.
  - intros Hnil t Ht Hc. destruct (decide (t ∈ open_times)) as [|Hn]; [done|]. exfalso.
    assert (t ∈ @nil Z) as []%elem_of_nil. rewrite <- Hnil. by apply list_elem_of_filter.
  - intros H. destruct (filter _ _) as [|t l] eqn:E; [done|]. exfalso.
    assert (t ∈ t :: l) as Ht by set_solver. rewrite <- E in Ht. apply list_elem_of_filter in Ht as [[H1 H2] H3].
    by apply H1, H.
Qed.

Lemma no_duplicates ivl start e server d open_times r : quality_facts ivl start e server d open_times r ->
  duplicate_open_times r = [] <-> NoDup open_times.
Proof.
  intros [_ _ _ _ _ _ _ [_ Hdup] _ _]. rewrite <- repeats_NoDup. split.
  - intros E k Hk. apply Hdup in Hk. rewrite E in Hk. by apply elem_of_nil in Hk.
  - intros H. destruct (duplicate_open_times r) as [|t l]; [done|]. exfalso. apply (H t), Hdup. set_solver.
Qed.

Lemma healthy_spec ivl start e server d open_times r : quality_facts ivl start e server d open_times r ->
  healthy r = true <->
  NoDup open_times /\ forall t, t ∈ py_range start e d -> Some t <> expected_current_open_time_ms r -> t ∈ open_times.
Proof.
  intros Hq. rewrite <- (no_gaps _ _ _ _ _ _ _ Hq), <- (no_duplicates _ _ _ _ _ _ _ Hq). unfold healthy.
  destruct (duplicate_open_times r), (historical_gap_open_times r); naive_solver.
Qed.

Lemma quality_count ivl start e server d open_times r : 0 < d -> quality_facts ivl start e server d open_times r ->
  observed_unique_rows r + Z.of_nat (length (historical_gap_open_times r))
    + (if expected_current_open_missing r then 1 else 0) = expected_rows r.
Proof.
  intros Hd [Hr (_ & _ & _ & -> & _) Hgrid Hcur _ Hm Hg _ -> _].
  rewrite <- (py_range_length start e d) by (try lia; rewrite Zminus_mod; replace (e mod d) with 0 by lia;
    replace (start mod d) with 0 by lia; by apply Z.mod_0_l; lia).
  pose proof (py_range_ascending start e d Hd) as Hasc. apply ascending_NoDup in Hasc as Hnd.
  rewrite Hm, Hg. set (cur := expected_current_open_time_ms r) in *.
  set (X := list_to_set open_times ∪ (match cur with Some t => {[t]} | None => ∅ end) : gset Z).
  assert (cur = None \/ exists t, cur = Some t /\ t ∈ py_range start e d) as Hc.
  { rewrite Hcur. destruct (_ && _) eqn:E; [|by left]. right. eexists; split; [done|].
    apply andb_true_iff in E. bool_prop. apply py_range_elem; [done|]. split; [lia|].
    rewrite Zminus_mod, Z_mod_mult. replace (start mod d) with 0 by lia. by apply Z.mod_0_l; lia. }
  rewrite Forall_forall in Hgrid.
  assert (length (py_range start e d) = size X + length (filter (fun t => t ∉ X) (py_range start e d)))%nat as E.
  { symmetry. apply filter_complement; [done|]. intros t. unfold X. destruct Hc as [->|(c & -> & Hc)].
    - rewrite union_empty_r_L, elem_of_list_to_set. apply Hgrid.
    - rewrite elem_of_union, elem_of_list_to_set, elem_of_singleton. intros [?| ->]; [by apply Hgrid|done]. }
  assert (filter (fun t => t ∉ X) (py_range start e d)
    = filter (fun t => (t ∉ open_times) /\ Some t <> cur) (py_range start e d)) as EX.
  { apply filter_ext_elem. intros t _. unfold X. rewrite elem_of_union, elem_of_list_to_set.
    destruct cur as [c|]; [rewrite elem_of_singleton; naive_solver|]. set_solver. }
  rewrite EX in E. rewrite E, Nat2Z.inj_add. unfold X. destruct cur as [c|].
  - case_bool_decide as Hin.
    + rewrite size_union, size_singleton; [lia|]. set_solver.
    + rewrite union_comm_L, subseteq_union_1_L; [lia|]. set_solver.
  - rewrite union_empty_r_L. lia.
Qed.

(** C7.  Quality analysis misses nothing.  In an accepted report every grid
    point of the range is observed, a historical gap, or the missing current
    candle, and never two of these; the three counts add up to the expected
    rows; duplicates are listed exactly once each; the repair ranges expand to
    exactly the gaps and are pairwise separated; and [healthy] holds exactly
    when no time repeats and no historical candle is missing. *)
Theorem analyze_complete src sym ivl start e open_times server d r :
  interval_ms ivl = Some d -> analyze_open_times src sym ivl start e open_times server = Ok r ->
  (forall t, t ∈ py_range start e d <->
     t ∈ open_times \/ t ∈ historical_gap_open_times r
     \/ (expected_current_open_time_ms r = Some t /\ expected_current_open_missing r = true))
  /\ (forall t, t ∈ historical_gap_open_times r -> (t ∉ open_times) /\ expected_current_open_time_ms r <> Some t)
  /\ observed_unique_rows r + Z.of_nat (length (historical_gap_open_times r))
       + (if expected_current_open_missing r then 1 else 0) = expected_rows r
  /\ NoDup (duplicate_open_times r) /\ (forall t, t ∈ duplicate_open_times r <-> repeats open_times t)
  /\ expand d (repair_ranges r) = historical_gap_open_times r /\ separated (start - 1) (repair_ranges r)
  /\ (healthy r = true <-> NoDup open_times /\
        forall t, t ∈ py_range start e d -> Some t <> expected_current_open_time_ms r -> t ∈ open_times).
Proof.
  intros Hivl H. pose proof (interval_ms_pos _ _ Hivl) as Hd. pose proof (analyze_ok _ _ _ _ _ _ _ _ _ Hivl H) as Hq.
  pose proof (quality_count _ _ _ _ _ _ _ Hd Hq) as Hcount. pose proof (healthy_spec _ _ _ _ _ _ _ Hq) as Hh.
  destruct Hq as [Hr _ Hgrid Hcur _ Hm Hg [Hd1 Hd2] _ [He Hs]]. rewrite Forall_forall in Hgrid.
  split_and!; try done.
  - intros t. rewrite Hg, Hm, list_elem_of_filter. split.
    + intros Ht. destruct (decide (t ∈ open_times)); [by left|]. right.
      destruct (decide (Some t = expected_current_open_time_ms r)) as [E|]; [|by left].
      right. rewrite <- E. split; [done|]. by apply bool_decide_eq_true.
    + intros [Ht|[[_ Ht]|[Et Hmt]]]; [by apply Hgrid|done|]. rewrite Hcur in Et.
      destruct (_ && _) eqn:E; [|done]. injection Et as <-. apply andb_true_iff in E. bool_prop.
      apply py_range_elem; [done|]. split; [lia|]. rewrite Zminus_mod, Z_mod_mult.
      replace (start mod d) with 0 by lia. by apply Z.mod_0_l; lia.
  - intros t. rewrite Hg, list_elem_of_filter. intros [[H1 H2] _]. done.
Qed.

(** ** The health gate *)

Lemma first_by_time_id seen rows : NoDup (map open_time_ms rows) ->
  (forall t, t ∈ seen -> t ∉ map open_time_ms rows) -> first_by_time seen rows = rows.
Proof.
  revert seen. induction rows as [|c rows IH]; intros seen Hnd Hs; [done|]. simpl in *.
  apply NoDup_cons in Hnd as [Hc Hnd].
  rewrite decide_False by (intros Hin; apply (Hs _ Hin); set_solver).
  f_equal. apply IH; [done|]. intros t [->|Ht]%elem_of_cons; [done|]. specialize (Hs t Ht). set_solver.
Qed.

Lemma unique_by_time_perm candles : NoDup (map open_time_ms candles) -> unique_by_time candles ≡ₚ candles.
Proof.
  intros H. unfold unique_by_time. rewrite first_by_time_id; [apply sort_by_perm| |set_solver].
  change (@map candle Z) with (@fmap list _ candle Z) in *. by rewrite sort_by_perm.
Qed.

Lemma nonempty_false {A} (l : list A) : nonempty l = false <-> l = [].
Proof. by destruct l. Qed.

Lemma same_time_candle candles c c' : NoDup (map open_time_ms candles) ->
  c ∈ candles -> c' ∈ candles -> open_time_ms c = open_time_ms c' -> c = c'.
Proof.
  intros Hnd. induction candles as [|x l IH]; [by intros ?%elem_of_nil|]. simpl in Hnd.
  apply NoDup_cons in Hnd as [Hx Hnd]. change (@map candle Z) with (@fmap list _ candle Z) in *.
  intros [->|Hc]%elem_of_cons [->|Hc']%elem_of_cons E; [done| | |by apply IH].
  - destruct Hx. rewrite E. by apply list_elem_of_fmap_2.
  - destruct Hx. rewrite <- E. by apply list_elem_of_fmap_2.
Qed.

(** The dataset is complete: one closed candle for every historical point. *)
Definition complete_history (start e d : Z) (current : option Z) (candles : list candle) : Prop :=
  NoDup (map open_time_ms candles)
  /\ forall t, t ∈ py_range start e d -> Some t <> current ->
       exists c, c ∈ candles /\ open_time_ms c = t /\ is_closed c = true.

Lemma no_reasons b1 b2 b3 b4 b5 b6 s1 s2 s3 s4 s5 s6 :
  negb (nonempty (reason_if b1 s1 ++ reason_if b2 s2 ++ reason_if b3 s3 ++ reason_if b4 s4
                  ++ reason_if b5 s5 ++ reason_if b6 s6)) = true
  <-> (b1 = false /\ b2 = false /\ b3 = false) /\ b4 = false /\ b5 = false /\ b6 = false.
Proof. destruct b1, b2, b3, b4, b5, b6; simpl; naive_solver. Qed.

Lemma no_unexpected candles current : NoDup (map open_time_ms candles) ->
  filter (fun t => Some t <> current)
    (map open_time_ms (filter (fun c => is_closed c = false) (unique_by_time candles))) = []
  <-> forall c, c ∈ candles -> Some (open_time_ms c) <> current -> is_closed c = true.
Proof.
  intros Hnd. pose proof (unique_by_time_perm _ Hnd) as Hp. change (@map candle Z) with (@fmap list _ candle Z).
  split.
  - intros E c Hc Hn. destruct (is_closed c) eqn:Ec; [done|]. exfalso.
    assert (open_time_ms c ∈ @nil Z) as []%elem_of_nil. rewrite <- E. apply list_elem_of_filter. split; [done|].
    apply list_elem_of_fmap_2, list_elem_of_filter. split; [done|]. by rewrite Hp.
  - intros H. destruct (filter (fun t => Some t <> current) _) as [|t l] eqn:E; [done|]. exfalso.
    assert (t ∈ t :: l) as Ht by set_solver. rewrite <- E in Ht. apply list_elem_of_filter in Ht as [Hn Ht].
    apply list_elem_of_fmap in Ht as (c & -> & Hc). apply list_elem_of_filter in Hc as [Ec Hc].
    rewrite Hp in Hc. specialize (H c Hc Hn). congruence.
Qed.

Lemma history_fresh start e server d candles r : 0 < d ->
  quality_facts (rq_interval r) start e server d (map open_time_ms candles) r ->
  complete_history start e d (expected_current_open_time_ms r) candles ->
  forall t, (if start <? Z.min e (server / d * d) then Some (Z.min e (server / d * d) - d) else None) = Some t ->
  t ∈ map open_time_ms (filter (fun c => is_closed c = true) (unique_by_time candles)).
Proof.
  intros Hd [Hr _ _ Hcur _ _ _ _ _ _] [Hnd Hall] t Ht. destruct (Z.ltb_spec start (Z.min e (server / d * d))); [|done].
  injection Ht as <-. set (b := Z.min e (server / d * d)) in *.
  assert ((b - start) mod d = 0) as Hm.
  { rewrite Zminus_mod. replace (start mod d) with 0 by lia. rewrite Z.sub_0_r, Zmod_mod. unfold b.
    destruct (Z.min_spec e (server / d * d)) as [[_ ->]|[_ ->]]; [lia|apply Z_mod_mult]. }
  assert (start <= b - d) as Hb.
  { apply Z_div_exact_full_2 in Hm; [|lia]. assert (0 < (b - start) / d) by nia. nia. }
  destruct (Hall (b - d)) as (c & Hc & Et & Ec).
  - apply py_range_elem; [done|]. split; [lia|]. replace (b - d - start) with (b - start + (-1) * d) by lia.
    by rewrite Z_mod_plus_full.
  - rewrite Hcur. destruct (_ && _); [|done]. intros [=]. lia.
  - change (@map candle Z) with (@fmap list _ candle Z). apply list_elem_of_fmap. exists c. split; [done|].
    apply list_elem_of_filter. split; [done|]. by rewrite (unique_by_time_perm _ Hnd).
Qed.

Lemma health_gate_complete src sym ivl start e candles server malformed conflicting d r :
  interval_ms ivl = Some d ->
  build_health_report src sym ivl start e candles server malformed conflicting = Ok r ->
  backtest_ready r = true <->
  malformed = 0 /\ conflicting = 0
  /\ complete_history start e d (dh_expected_current_open_time_ms r) candles.
Proof.
  intros Hivl H. pose proof (interval_ms_pos _ _ Hivl) as Hd.
  unfold build_health_report in H. rewrite Hivl in H. res_inv. subst. clear Hr1.
  pose proof (analyze_ok _ _ _ _ _ _ _ _ _ Hivl Hr0) as Hq.
  cbn [backtest_ready dh_expected_current_open_time_ms]. rewrite no_reasons, !nonempty_false.
  rewrite (no_duplicates _ _ _ _ _ _ _ Hq), (no_gaps _ _ _ _ _ _ _ Hq), !negb_false_iff, !Z.eqb_eq.
  split.
  - intros ((Hnd & Hgap & Hun) & -> & -> & _). split; [done|]. split; [done|]. split; [done|].
    rewrite no_unexpected in Hun by done. intros t Ht Hcur. specialize (Hgap t Ht Hcur).
    change (@map candle Z) with (@fmap list _ candle Z) in Hgap.
    apply list_elem_of_fmap in Hgap as (c & -> & Hin). exists c. auto.
  - intros (-> & -> & Hcomp). pose proof Hcomp as [Hnd Hall].
    assert (Hgrid : forall c, c ∈ candles -> open_time_ms c ∈ py_range start e d).
    { intros c Hin. destruct Hq as [_ _ Hg _ _ _ _ _ _ _]. rewrite Forall_forall in Hg. apply Hg.
      change (@map candle Z) with (@fmap list _ candle Z). by apply list_elem_of_fmap_2. }
    split_and!; try done.
    + intros t Ht Hcur. destruct (Hall t Ht Hcur) as (c & Hin & <- & _).
      change (@map candle Z) with (@fmap list _ candle Z). by apply list_elem_of_fmap_2.
    + apply no_unexpected; [done|]. intros c Hin Hcur. destruct (Hall _ (Hgrid c Hin) Hcur) as (c' & Hin' & E & Ec).
      by rewrite <- (same_time_candle candles c' c).
    + destruct (if start <? _ then _ else _) as [t|] eqn:Et; [|done]. apply bool_decide_eq_true.
      eapply history_fresh; [done| |done|done]. destruct Hq. constructor; try done. naive_solver.
Qed.

(** The backtest gate.  A health report marks a range ready exactly when
    there are no malformed or conflicting rows, no open time occurs twice, and
    every historical grid point of the range (all but the one still forming)
    has a closed candle. *)
Theorem health_gate src sym ivl start e candles server malformed conflicting d r :
  interval_ms ivl = Some d ->
  build_health_report src sym ivl start e candles server malformed conflicting = Ok r ->
  backtest_ready r = true <->
  malformed = 0 /\ conflicting = 0
  /\ complete_history start e d (dh_expected_current_open_time_ms r) candles.
Proof. apply health_gate_complete. Qed.

(** ** Concrete ranges *)

Definition hour : Z := 3600000.
Definition quality_sample : result range_quality_report :=
  analyze_open_times DATA_SOURCE "BTCUSDT" "1h" 0 (4 * hour) [0; 3 * hour; 3 * hour] (4 * hour + 5).

Example quality_sample_gaps :
  quality_sample = Ok (RangeQualityReport DATA_SOURCE "BTCUSDT" "1h" 0 (4 * hour) 4 3 2
    [3 * hour] [hour; 2 * hour] None false [(hour, 3 * hour)]).
Proof. vm_compute. reflexivity. Qed.

Lemma analyze_complete_witness : exists r, quality_sample = Ok r
  /\ expand hour (repair_ranges r) = historical_gap_open_times r /\ repeats [0; 3 * hour; 3 * hour] (3 * hour).
Proof.
  destruct quality_sample as [r|e] eqn:E; [|exfalso; vm_compute in E; discriminate E].
  exists r. split; [reflexivity|].
  destruct (analyze_complete DATA_SOURCE "BTCUSDT" "1h" 0 (4 * hour) [0; 3 * hour; 3 * hour] (4 * hour + 5) hour r
    eq_refl E) as (_ & _ & _ & _ & Hd & He & _).
  split; [exact He|]. apply Hd. vm_compute in E. injection E as <-. cbn. apply list_elem_of_here.
Defined.

Definition health_sample_candle (i : Z) : candle :=
  Candle DATA_SOURCE "BTCUSDT" "1h" (i * hour) (i * hour + hour - 1) "100" "110" "90" "105" "10" "1000" 5 true.

Lemma health_gate_witness : exists r,
  build_health_report DATA_SOURCE "BTCUSDT" "1h" 0 (2 * hour) [health_sample_candle 1; health_sample_candle 0]
    (2 * hour + 5) 0 0 = Ok r
  /\ complete_history 0 (2 * hour) hour (dh_expected_current_open_time_ms r) [health_sample_candle 1; health_sample_candle 0].
Proof.
  destruct (build_health_report DATA_SOURCE "BTCUSDT" "1h" 0 (2 * hour) [health_sample_candle 1; health_sample_candle 0]
    (2 * hour + 5) 0 0) as [r|e] eqn:E; [|exfalso; vm_compute in E; discriminate E].
  exists r. split; [reflexivity|].
  apply (health_gate DATA_SOURCE "BTCUSDT" "1h" 0 (2 * hour) [health_sample_candle 1; health_sample_candle 0]
    (2 * hour + 5) 0 0 hour r eq_refl E).
  vm_compute in E. injection E as <-. reflexivity.
Defined.
