(* ===== verification/CandleStore.v ===== *)
(** * The candle store (yatl/data/storage.py)

    The SQLite table [candles] as a finite map from its primary key to the
    row.  Each public write runs in one transaction, which an exception rolls
    back.  Opening, migrating and closing the database are not modelled. *)
From stdpp Require Import gmap sets sorting.
From S2P Require Import Prelude Market.

Abbreviation row_key := (string * string * string * Z)%type.
Abbreviation candle_store := (gmap row_key candle).

Definition MAX_BATCH_SIZE : Z := 100000.

(** [_write]: what happened, or [ClosedCandleConflict]. *)
Definition _write (c : candle) : stm candle_store string :=
  let! rows := sget in
  match rows !! candle_key c with
  | None => do! sput (<[candle_key c := c]> rows) ;; sret "inserted"%string
  | Some existing =>
      if decide (existing = c) then sret "unchanged"%string
      else
        sraise_if is_closed existing with ClosedCandleConflict "A closed candle conflicts with stored data" ;;
        do! sput (<[candle_key c := c]> rows) ;;
        sret (if is_closed c then "finalized"%string else "updated"%string)
  end.

(** [with self._connection]: commit, or roll back and re-raise. *)
Definition transaction {A} (m : stm candle_store A) : stm candle_store A :=
  srollback [StorageError; ClosedCandleConflict] m.

Definition write (c : candle) : stm candle_store string := transaction (_write c).

Fixpoint write_all (candles : list candle) : stm candle_store (list string) :=
  match candles with
  | [] => sret []
  | c :: rest => let! r := _write c in let! rs := write_all rest in sret (r :: rs)
  end.

Definition write_many (candles : list candle) : stm candle_store (list string) :=
  let n := Z.of_nat (length candles) in
  sraise_if negb ((1 <=? n) && (n <=? MAX_BATCH_SIZE)) with StorageError "Candle batch size is invalid" ;;
  transaction (write_all candles).

(** A row read back goes through the constructor again. *)
Definition read_row (c : candle) : result candle :=
  rcatch (new_candle c) [CandleValidationError] (Raise StorageError "Stored candle violates the canonical contract").

Definition get (rows : candle_store) (key : row_key) : result (option candle) :=
  match rows !! key with
  | None => Ok None
  | Some c => let* c := read_row c in Ok (Some c)
  end.

Definition count (rows : candle_store) : Z := Z.of_nat (size rows).

(** [WHERE source, symbol, interval = ? AND start <= open_time_ms < end ORDER
    BY open_time_ms] *)
Definition select (rows : candle_store) (source_ symbol_ interval_ : string) (start_time_ms end_time_ms : Z) : list candle :=
  sort_by open_time_ms
    (filter (fun c => source c = source_ /\ symbol c = symbol_ /\ interval c = interval_
                      /\ start_time_ms <= open_time_ms c < end_time_ms) (map snd (map_to_list rows))).

Definition known_open_times (rows : candle_store) (source_ symbol_ interval_ : string) (s e : Z) : list Z :=
  map open_time_ms (select rows source_ symbol_ interval_ s e).

Definition candles_between (rows : candle_store) (source_ symbol_ interval_ : string) (s e : Z) : result (list candle) :=
  rmap read_row (select rows source_ symbol_ interval_ s e).

(** * Properties *)

(** Every row is a valid candle under its own key. *)
Definition store_inv (rows : candle_store) : Prop :=
  forall k c, rows !! k = Some c -> candle_key c = k /\ candle_valid c.

(** What a write may do to the table: nothing, or add a key, or replace an
    open candle. *)
Inductive write_step (c : candle) (rows : candle_store) : candle_store -> string -> Prop :=
| ws_inserted : rows !! candle_key c = None -> write_step c rows (<[candle_key c := c]> rows) "inserted"
| ws_unchanged : rows !! candle_key c = Some c -> write_step c rows rows "unchanged"
| ws_updated old : rows !! candle_key c = Some old -> old <> c -> is_closed old = false -> is_closed c = false ->
    write_step c rows (<[candle_key c := c]> rows) "updated"
| ws_finalized old : rows !! candle_key c = Some old -> old <> c -> is_closed old = false -> is_closed c = true ->
    write_step c rows (<[candle_key c := c]> rows) "finalized".

Lemma write_spec c rows : let '(rows', out) := _write c rows in
  match out with
  | Ok r => write_step c rows rows' r
  | Err e => exn_cls e = ClosedCandleConflict
      /\ exists old, rows !! candle_key c = Some old /\ old <> c /\ is_closed old = true
  end.
Proof.
  unfold _write, sbind, sget, sput, sret. destruct (rows !! candle_key c) as [old|] eqn:E; [|by constructor].
  case_decide as Hd; [subst; by constructor|].
  destruct (is_closed old) eqn:Ho; [split; [done|]; by exists old|].
  destruct (is_closed c) eqn:Hc; [by eapply ws_finalized|by eapply ws_updated].
Qed.

Lemma write_ok c rows rows' r : _write c rows = (rows', Ok r) -> write_step c rows rows' r.
Proof. intros E. pose proof (write_spec c rows) as H. by rewrite E in H. Qed.

Lemma write_err c rows rows' e : _write c rows = (rows', Err e) -> exn_cls e = ClosedCandleConflict.
Proof. intros E. pose proof (write_spec c rows) as H. rewrite E in H. by destruct H. Qed.

Lemma write_all_err cs rows rows' e : write_all cs rows = (rows', Err e) -> exn_cls e = ClosedCandleConflict.
Proof.
  revert rows rows'. induction cs as [|c cs IH]; intros rows rows'; simpl; [done|]. unfold sbind, sret.
  destruct (_write c rows) as [r1 [a|e1]] eqn:E1; [|intros [= <- <-]; by eapply write_err].
  destruct (write_all cs r1) as [r2 [b|e2]] eqn:E2; [done|]. intros [= <- <-]. by eapply IH.
Qed.

Lemma transaction_atomic {A} (m : stm candle_store A) rows rows' e :
  (forall r1 e1, m rows = (r1, Err e1) -> exn_cls e1 = ClosedCandleConflict) ->
  transaction m rows = (rows', Err e) -> rows' = rows.
Proof.
  intros Hm E. eapply srollback_atomic; [exact E|]. unfold transaction, srollback in E.
  destruct (m rows) as [r1 [a|e1]] eqn:E1; [done|]. specialize (Hm _ _ eq_refl).
  case_bool_decide; injection E as <- <-; rewrite Hm; set_solver.
Qed.

(** The calls a client may make, whatever their outcome. *)
Inductive store_call : Type := CallWrite (c : candle) | CallWriteMany (cs : list candle).

Definition run_call (call : store_call) (rows : candle_store) : candle_store :=
  match call with
  | CallWrite c => fst (write c rows)
  | CallWriteMany cs => fst (write_many cs rows)
  end.
Definition call_candles (call : store_call) : list candle :=
  match call with CallWrite c => [c] | CallWriteMany cs => cs end.
Definition run_calls (calls : list store_call) (rows : candle_store) : candle_store :=
  fold_left (fun rows call => run_call call rows) calls rows.

(** How the table may evolve: keys are never lost and a closed candle stays. *)
Definition store_le (rows rows' : candle_store) : Prop :=
  forall k c, rows !! k = Some c -> exists c', rows' !! k = Some c' /\ (is_closed c = true -> c' = c).

#[export] Instance store_le_preorder : PreOrder store_le.
Proof.
  split; [intros rows k c; eauto|]. intros r1 r2 r3 H1 H2 k c E.
  destruct (H1 k c E) as (c1 & E1 & Hc1). destruct (H2 k c1 E1) as (c2 & E2 & Hc2).
  exists c2. split; [done|]. intros Hc. rewrite Hc2; [by apply Hc1|]. by rewrite Hc1.
Qed.

Lemma write_step_le c rows rows' r : write_step c rows rows' r -> store_le rows rows'.
Proof.
  assert ((forall old, rows !! candle_key c = Some old -> is_closed old = true -> False) ->
    store_le rows (<[candle_key c := c]> rows)) as Hins.
  { intros H k x E. destruct (decide (candle_key c = k)) as [<-|Hn].
    - exists c. rewrite lookup_insert_eq. split; [done|]. intros Hx. destruct (H x E Hx).
    - exists x. by rewrite lookup_insert_ne. }
  intros []; [|done|..]; apply Hins; congruence.
Qed.

Lemma write_step_inv c rows rows' r : candle_valid c -> store_inv rows -> write_step c rows rows' r -> store_inv rows'.
Proof.
  intros Hc Hi Hs. assert (store_inv (<[candle_key c := c]> rows)) as Hins.
  { intros k x [[<- <-]|[_ E]]%lookup_insert_Some; [done|by apply Hi]. }
  by destruct Hs.
Qed.

Lemma write_step_written c rows rows' r : write_step c rows rows' r -> rows' !! candle_key c = Some c.
Proof. intros []; [by rewrite lookup_insert_eq|done|by rewrite lookup_insert_eq..]. Qed.

Lemma write_all_ok cs rows rows' rs : Forall candle_valid cs -> write_all cs rows = (rows', Ok rs) ->
  store_le rows rows' /\ (store_inv rows -> store_inv rows') /\ length rs = length cs.
Proof.
  intros Hv. revert rows rows' rs. induction Hv as [|c cs Hc _ IH]; intros rows rows' rs E; simpl in E; stm_inv; subst.
  - done.
  - apply write_ok in Hm. destruct (IH _ _ _ Hm0) as (H1 & H2 & H3). split_and!.
    + etrans; [by eapply write_step_le|done].
    + intros Hi. apply H2. by eapply write_step_inv.
    + simpl. by rewrite H3.
Qed.

Lemma run_call_spec call rows : Forall candle_valid (call_candles call) ->
  store_le rows (run_call call rows) /\ (store_inv rows -> store_inv (run_call call rows)).
Proof.
  intros Hv. destruct call as [c|cs]; simpl in *.
  - rewrite Forall_singleton in Hv. unfold write. destruct (transaction (_write c) rows) as [rows' [r|e]] eqn:E; simpl.
    + apply srollback_ok, write_ok in E. split; [by eapply write_step_le|]. intros. by eapply write_step_inv.
    + apply transaction_atomic in E as ->; [done|]. intros; by eauto using write_err.
  - unfold write_many. destruct (negb _); [done|].
    destruct (transaction (write_all cs) rows) as [rows' [r|e]] eqn:E; simpl.
    + apply srollback_ok in E. destruct (write_all_ok _ _ _ _ Hv E) as (? & ? & _). done.
    + apply transaction_atomic in E as ->; [done|]. intros; by eauto using write_all_err.
Qed.

Lemma run_calls_spec calls rows : Forall (fun call => Forall candle_valid (call_candles call)) calls ->
  store_le rows (run_calls calls rows) /\ (store_inv rows -> store_inv (run_calls calls rows)).
Proof.
  intros H. revert rows. induction H as [|call calls Hc _ IH]; intros rows; [done|]. simpl.
  destruct (run_call_spec call rows Hc) as [H1 H2]. destruct (IH (run_call call rows)) as [H3 H4].
  split; [by etrans|auto].
Qed.

(** C8.  Finality of the candle store.  Whatever sequence of [write] and
    [write_many] calls is made, failing or not: no stored key is ever lost, a
    closed candle is never changed or reopened, and every row remains a valid
    candle stored under its own key. *)
Theorem store_finality calls rows :
  Forall (fun call => Forall candle_valid (call_candles call)) calls -> store_inv rows ->
  store_inv (run_calls calls rows)
  /\ forall k c, rows !! k = Some c ->
       exists c', run_calls calls rows !! k = Some c' /\ (is_closed c = true -> c' = c).
Proof.
  intros Hc Hi. destruct (run_calls_spec calls rows Hc) as [Hle Hinv]. split; [by apply Hinv|]. exact Hle.
Qed.

Lemma write_all_stored cs rows rows' rs c : write_all cs rows = (rows', Ok rs) -> Forall candle_valid cs ->
  Forall (fun c => is_closed c = true) cs -> c ∈ cs -> rows' !! candle_key c = Some c.
Proof.
  revert rows rs. induction cs as [|x cs IH]; intros rows rs E Hv Hcl Hin; [by apply elem_of_nil in Hin|].
  inversion Hv; inversion Hcl; subst. simpl in E. stm_inv. subst. apply elem_of_cons in Hin as [->|Hin]; [|by eapply IH].
  apply write_ok, write_step_written in Hm.
  destruct (write_all_ok cs _ _ _ H2 Hm0) as (Hle & _ & _). destruct (Hle _ _ Hm) as (c' & E & Hc'). by rewrite Hc' in E.
Qed.

Lemma write_all_unchanged cs rows : Forall (fun c => rows !! candle_key c = Some c) cs ->
  write_all cs rows = (rows, Ok (repeat "unchanged"%string (length cs))).
Proof.
  induction 1 as [|c cs Hc _ IH]; simpl; [done|]. unfold sbind. unfold _write, sbind, sget. rewrite Hc.
  rewrite decide_True by done. unfold sret. by rewrite IH.
Qed.

(** Batches are atomic and repeatable.  [write_many] either stores a
    legal batch, or raises a storage error and leaves the table as it was; a
    batch of closed candles that was accepted is stored exactly, and sending it
    again changes nothing and reports every row as unchanged. *)
Theorem write_many_idempotent cs rows rows' out :
  Forall candle_valid cs -> write_many cs rows = (rows', out) ->
  match out with
  | Err e => rows' = rows /\ (exn_cls e = StorageError \/ exn_cls e = ClosedCandleConflict)
  | Ok rs => length rs = length cs /\
      (Forall (fun c => is_closed c = true) cs ->
        (forall c, c ∈ cs -> rows' !! candle_key c = Some c)
        /\ write_many cs rows' = (rows', Ok (repeat "unchanged"%string (length cs))))
  end.
Proof.
  intros Hv. unfold write_many. destruct (negb _) eqn:En; [intros [= <- <-]; auto|].
  destruct out as [rs|e]; intros E.
  - apply srollback_ok in E. destruct (write_all_ok _ _ _ _ Hv E) as (_ & _ & Hl). split; [done|].
    intros Hcl. assert (forall c, c ∈ cs -> rows' !! candle_key c = Some c) as Hst
      by (intros c Hin; by eapply write_all_stored).
    split; [done|]. apply srollback_ok, write_all_unchanged, Forall_forall. done.
  - assert (rows' = rows) as -> by (eapply transaction_atomic; [|exact E]; eauto using write_all_err).
    split; [done|]. unfold transaction, srollback in E.
    destruct (write_all cs rows) as [r1 [a|e1]] eqn:E1; [done|]. apply write_all_err in E1.
    right. case_bool_decide; by simplify_eq.
Qed.

(** ** Reading a range *)

Definition in_range (s i v : string) (t0 t1 : Z) (c : candle) : Prop :=
  source c = s /\ symbol c = i /\ interval c = v /\ t0 <= open_time_ms c < t1.

Lemma select_elem rows s i v t0 t1 c : store_inv rows ->
  c ∈ select rows s i v t0 t1 <-> in_range s i v t0 t1 c /\ rows !! candle_key c = Some c.
Proof.
  intros Hi. unfold select. rewrite sort_by_perm, list_elem_of_filter. apply and_iff_compat_l.
  change (@map (row_key * candle) candle) with (@fmap list _ (row_key * candle) candle).
  rewrite list_elem_of_fmap. split.
  - intros ([k x] & -> & Hin). apply elem_of_map_to_list in Hin. simpl. by destruct (Hi _ _ Hin) as [-> _].
  - intros E. exists (candle_key c, c). split; [done|]. by apply elem_of_map_to_list.
Qed.

Lemma select_times_NoDup rows s i v t0 t1 : store_inv rows -> NoDup (map open_time_ms (select rows s i v t0 t1)).
Proof.
  intros Hi. unfold select. change (@map candle Z) with (@fmap list _ candle Z). rewrite sort_by_perm.
  change (@map (row_key * candle) candle) with (@fmap list _ (row_key * candle) candle).
  assert (forall l : list (row_key * candle), NoDup l.*1 -> Forall (fun p => fst p = candle_key (snd p)) l ->
    NoDup (open_time_ms <$> filter (in_range s i v t0 t1) (snd <$> l))) as H.
  { induction l as [|[k c] l IH]; intros Hnd Hk; [constructor|]. inversion Hk as [|? ? Ek Hk']; subst.
    apply NoDup_cons in Hnd as [Hx Hnd]. simpl in Ek |- *. rewrite filter_cons. case_decide as Hc; [|by apply IH].
    simpl. constructor; [|by apply IH]. intros Hin. apply list_elem_of_fmap in Hin as (c' & Et & Hin).
    apply list_elem_of_filter in Hin as [Hc' Hin]. apply list_elem_of_fmap in Hin as ([k' c''] & -> & Hin). simpl in *.
    apply Hx. apply list_elem_of_fmap. exists (k', c''). split; [|done]. simpl.
    rewrite Forall_forall in Hk'. specialize (Hk' _ Hin). simpl in Hk'. subst.
    destruct Hc as (E1 & E2 & E3 & _), Hc' as (E1' & E2' & E3' & _). unfold candle_key. congruence. }
  apply H; [apply NoDup_fst_map_to_list|]. apply Forall_forall. intros [k c] Hin.
  apply elem_of_map_to_list in Hin. simpl. by destruct (Hi _ _ Hin).
Qed.

Lemma sorted_strict {A} (key : A -> Z) l : StronglySorted (fun a b => key a <= key b) l -> NoDup (map key l) ->
  StronglySorted (fun a b => key a < key b) l.
Proof.
  induction 1 as [|x l Hl IH Hx]; intros Hnd; [constructor|]. simpl in Hnd. apply NoDup_cons in Hnd as [Hn Hnd].
  constructor; [by apply IH|]. rewrite !Forall_forall in *. intros y Hy. specialize (Hx y Hy).
  assert (key x <> key y); [|lia]. intros E. apply Hn. rewrite E.
  change (@map A Z) with (@fmap list _ A Z). by apply list_elem_of_fmap_2.
Qed.

Lemma rmap_read_row l : Forall candle_valid l -> rmap read_row l = Ok l.
Proof.
  induction 1 as [|c l Hc _ IH]; simpl; [done|].
  assert (read_row c = Ok c) as -> by (unfold read_row, new_candle; by rewrite Hc). simpl. by rewrite IH.
Qed.

(** Range reads.  On a well-formed table [candles_between] never fails;
    it returns exactly the stored candles of the range, in strictly ascending
    open time; and [known_open_times] lists exactly their open times. *)
Theorem candles_between_exact rows s i v t0 t1 :
  store_inv rows -> exists l, candles_between rows s i v t0 t1 = Ok l
    /\ (forall c, c ∈ l <-> in_range s i v t0 t1 c /\ rows !! candle_key c = Some c)
    /\ StronglySorted (fun a b => open_time_ms a < open_time_ms b) l
    /\ known_open_times rows s i v t0 t1 = map open_time_ms l.
Proof.
  intros Hi. exists (select rows s i v t0 t1). split; [|split; [|split; [|done]]].
  - apply rmap_read_row, Forall_forall. intros c Hc. apply select_elem in Hc as [_ E]; [|done]. by apply Hi in E as [_ ?].
  - intros c. by apply select_elem.
  - apply sorted_strict; [apply sort_by_sorted|by apply select_times_NoDup].
Qed.

(** ** A concrete table *)

Definition store_sample_candle (i : Z) (close : string) (closed : bool) : candle :=
  Candle DATA_SOURCE "BTCUSDT" "1h" (i * 3600000) (i * 3600000 + 3599999) "100" "110" "90" close "10" "1000" 5 closed.
Definition store_sample : list candle := [store_sample_candle 1 "105" true; store_sample_candle 0 "101" true].
Definition store_sample_rows : candle_store := fst (write_many store_sample ∅).

Lemma store_sample_valid : Forall candle_valid store_sample.
Proof. repeat constructor. Qed.

Lemma store_finality_witness :
  exists c', run_calls [CallWriteMany store_sample; CallWrite (store_sample_candle 0 "102" false)] ∅
    !! candle_key (store_sample_candle 0 "101" true) = Some c' /\ c' = store_sample_candle 0 "101" true.
Proof.
  destruct (store_finality [CallWrite (store_sample_candle 0 "102" false)] (run_calls [CallWriteMany store_sample] ∅))
    as [_ H].
  - repeat constructor.
  - apply (store_finality [CallWriteMany store_sample] ∅); [repeat constructor|].
    intros k c E. rewrite lookup_empty in E. discriminate E.
  - destruct (H (candle_key (store_sample_candle 0 "101" true)) (store_sample_candle 0 "101" true)) as (c' & E & Hc).
    + vm_compute. reflexivity.
    + exists c'. split; [exact E|]. apply Hc. reflexivity.
Defined.

Lemma write_many_idempotent_witness :
  write_many store_sample store_sample_rows = (store_sample_rows, Ok ["unchanged"; "unchanged"]%string).
Proof.
  destruct (write_many_idempotent store_sample ∅ store_sample_rows (Ok ["inserted"; "inserted"]%string)) as [_ H].
  - exact store_sample_valid.
  - rewrite (surjective_pairing (write_many store_sample ∅)). f_equal.
  - apply H. repeat constructor.
Defined.

Lemma candles_between_exact_witness : exists l,
  candles_between store_sample_rows DATA_SOURCE "BTCUSDT" "1h" 0 7200000 = Ok l
  /\ StronglySorted (fun a b => open_time_ms a < open_time_ms b) l.
Proof.
  destruct (candles_between_exact store_sample_rows DATA_SOURCE "BTCUSDT" "1h" 0 7200000) as (l & H1 & _ & H2 & _).
  - apply (store_finality [CallWriteMany store_sample] ∅); [repeat constructor|].
    intros k c E. rewrite lookup_empty in E. discriminate E.
  - exists l. split; [exact H1|exact H2].
Defined.
