(* ===== verification/Ingest.v ===== *)
(** * Market ingestion (yatl/data/normalize.py, history.py and the dataset
    loop of rebuild.py)

    Public payloads become canonical candles; a bounded history is downloaded
    page by page from a client; a dataset is rebuilt into an empty store and
    compared with its accepted report.  The REST client is a parameter. *)
From stdpp Require Import gmap sets sorting.
From S2P Require Import Prelude PyDecimal PyText Digest Market DataQuality CandleStore.

(** ** yatl/data/normalize.py *)

(** [row[i]] of a JSON array and [d.get(k)] of a JSON object. *)
Definition item (l : list json) (i : nat) : json := nth i l JNull.
Definition field (o : list (string * json)) (k : string) : json :=
  match find (fun kv => String.eqb (fst kv) k) o with Some (_, v) => v | None => JNull end.
Definition has_field (o : list (string * json)) (k : string) : bool := existsb (fun kv => String.eqb (fst kv) k) o.

(** Payload values reach the constructor unchecked; it rejects the wrong types. *)
Definition _build_candle (symbol interval : string)
    (open_time close_time opened high low closed base_volume quote_volume trade_count is_closed : json) : result candle :=
  rcatch
    match open_time, close_time, opened, high, low with
    | JInt t0, JInt t1, JStr o, JStr h, JStr l =>
        match closed, base_volume, quote_volume, trade_count, is_closed with
        | JStr c, JStr bv, JStr qv, JInt n, JBool b => new_candle (Candle DATA_SOURCE symbol interval t0 t1 o h l c bv qv n b)
        | _, _, _, _, _ => Err (Raise CandleValidationError "type")
        end
    | _, _, _, _, _ => Err (Raise CandleValidationError "type")
    end
    [CandleValidationError; TypeError] (Raise NormalizationError "Kline payload violates the canonical candle contract").

(** [row[11] in (0, "0")], where [False == 0]. *)
Definition reserved_zero (v : json) : bool :=
  match v with JInt n => n =? 0 | JBool b => negb b | JStr s => String.eqb s "0" | _ => false end.

Definition normalize_rest_kline (symbol interval : string) (row : json) (server_time_ms : Z) : result candle :=
  raise_if negb (str_in symbol SYMBOLS) || opt_is_none (interval_ms interval)
    with NormalizationError "Unsupported REST kline market or interval" ;;
  raise_if server_time_ms <=? 0 with NormalizationError "A positive Binance server timestamp is required" ;;
  match row with
  | JArr l =>
      raise_if negb (Z.of_nat (length l) =? 12) with NormalizationError "REST kline row must contain exactly 12 fields" ;;
      raise_if negb (reserved_zero (item l 11)) with NormalizationError "REST kline reserved field is unexpected" ;;
      match item l 6 with
      | JInt close_time =>
          _build_candle symbol interval (item l 0) (JInt close_time) (item l 1) (item l 2) (item l 3) (item l 4)
            (item l 5) (item l 7) (item l 8) (JBool (close_time <? server_time_ms))
      | _ => Err (Raise NormalizationError "REST kline close timestamp is invalid")
      end
  | _ => Err (Raise NormalizationError "REST kline row must contain exactly 12 fields")
  end.

Definition lower_chr (c : ascii) : ascii :=
  let n := ord c in if ((65 <=? n) && (n <=? 90))%N then chr (n + 32) else c.
Definition lower (s : string) : string := str (map lower_chr (txt s)).

(** [value in INTERVAL_MILLISECONDS] hashes the value first: a list or a dict
    is unhashable. *)
Definition interval_lookup (v : json) : result (option string) :=
  match v with
  | JStr s => Ok (if opt_is_none (interval_ms s) then None else Some s)
  | JArr _ | JObj _ => Err (Raise TypeError "unhashable type")
  | _ => Ok None
  end.

Definition kline_fields : list string := ["t"; "T"; "s"; "i"; "o"; "h"; "l"; "c"; "v"; "n"; "x"; "q"]%string.

Definition normalize_event (stream : option string) (event : list (string * json)) : result candle :=
  raise_if negb (match field event "e" with JStr s => String.eqb s "kline" | _ => false end)
           || negb (match field event "E" with JInt _ => true | _ => false end)
    with NormalizationError "WebSocket event is not a timestamped kline" ;;
  match field event "s", field event "k" with
  | JStr symbol, JObj kline =>
      raise_if negb (str_in symbol SYMBOLS) with NormalizationError "WebSocket kline market is unsupported" ;;
      raise_if negb (forallb (has_field kline) kline_fields)
        with NormalizationError "WebSocket kline fields are incomplete" ;;
      raise_if negb (match field kline "s" with JStr s => String.eqb s symbol | _ => false end)
        with NormalizationError "WebSocket kline identity is inconsistent" ;;
      let* known := interval_lookup (field kline "i") in
      match known with
      | None => Err (Raise NormalizationError "WebSocket kline identity is inconsistent")
      | Some interval =>
          raise_if match stream with
                   | Some s => negb (String.eqb s (String.append (lower symbol) (String.append "@kline_" interval)))
                   | None => false
                   end
            with NormalizationError "Combined WebSocket stream name is inconsistent" ;;
          match field kline "x" with
          | JBool b =>
              _build_candle symbol interval (field kline "t") (field kline "T") (field kline "o") (field kline "h")
                (field kline "l") (field kline "c") (field kline "v") (field kline "q") (field kline "n") (JBool b)
          | _ => Err (Raise NormalizationError "WebSocket closed state must be boolean")
          end
      end
  | _, _ => Err (Raise NormalizationError "WebSocket kline market is unsupported")
  end.

Definition normalize_websocket_kline (payload : json) : result candle :=
  match payload with
  | JObj o =>
      if has_field o "stream" && has_field o "data" then
        match field o "stream", field o "data" with
        | JStr stream, JObj event => normalize_event (Some stream) event
        | _, _ => Err (Raise NormalizationError "Combined WebSocket wrapper is invalid")
        end
      else normalize_event None o
  | _ => Err (Raise NormalizationError "WebSocket kline payload must be an object")
  end.

(** ** yatl/data/history.py *)

Record historical_batch : Type := HistoricalBatch {
  hb_symbol : string;
  hb_interval : string;
  hb_start_time_ms : Z;
  hb_end_time_ms : Z;
  pages : Z;
  hb_rows : list json;
  skipped_known_rows : Z;
}.

(** The accumulators of one download. *)
Record download_state : Type := DownloadState {
  seen_remote : gset Z;
  skipped : Z;
  collected : list json;
}.

Section Download.
(** [client.klines(symbol, interval, limit=, start_time=, end_time=)] *)
Context (klines : Z -> Z -> Z -> result (list json)).
Context (duration end_ page_limit : Z) (known : gset Z).

(** The timestamps of one page row. *)
Definition row_times (row : json) : result (Z * Z) :=
  match row with
  | JArr l =>
      raise_if negb (Z.of_nat (length l) =? 12)
        with HistoricalDownloadError "Historical page contains an invalid row" ;;
      match item l 0, item l 6 with
      | JInt open_time, JInt close_time => Ok (open_time, close_time)
      | _, _ => Err (Raise HistoricalDownloadError "Historical candle timestamps are invalid")
      end
  | _ => Err (Raise HistoricalDownloadError "Historical page contains an invalid row")
  end.

(** One page: the open time of the last row is returned with the state. *)
Fixpoint page_loop (cursor : Z) (previous : option Z) (st : download_state) (page : list json)
    : result (option Z * download_state) :=
  match page with
  | [] => Ok (previous, st)
  | row :: rest =>
      let*' (open_time, close_time) := row_times row in
      raise_if (open_time <? cursor) || (end_ <=? open_time) || negb (open_time mod duration =? 0)
               || negb (close_time =? open_time + duration - 1)
        with HistoricalDownloadError "Historical candle timestamps are invalid" ;;
      raise_if match previous with Some p => open_time <=? p | None => false end
               || bool_decide (open_time ∈ seen_remote st)
        with HistoricalDownloadError "Historical page is duplicated or out of order" ;;
      let seen := {[open_time]} ∪ seen_remote st in
      let st' := if decide (open_time ∈ known) then DownloadState seen (skipped st + 1) (collected st)
                 else DownloadState seen (skipped st) (collected st ++ [row]) in
      page_loop cursor (Some open_time) st' rest
  end.

(** [while cursor < end], with fuel; [None] when the fuel runs out. *)
Fixpoint download_loop (fuel : nat) (cursor pages : Z) (st : download_state) : option (result (Z * download_state)) :=
  match fuel with
  | O => None
  | S fuel' =>
      if negb (cursor <? end_) then Some (Ok (pages, st)) else
      let remaining := (end_ - cursor) / duration in
      let limit := Z.min page_limit remaining in
      match rcatch (klines limit cursor (end_ - 1)) [PublicRestError]
              (Raise HistoricalDownloadError "Historical page request failed") with
      | Err e => Some (Err e)
      | Ok [] => Some (Ok (pages + 1, st))
      | Ok page =>
          match page_loop cursor None st page with
          | Err e => Some (Err e)
          | Ok (None, st') => Some (Err (Raise IndexError "list index out of range"))
          | Ok (Some last_open, st') =>
              let next_cursor := last_open + duration in
              if next_cursor <=? cursor
              then Some (Err (Raise HistoricalDownloadError "Historical pagination made no progress"))
              else download_loop fuel' next_cursor (pages + 1) st'
          end
      end
  end.
End Download.

Definition _timestamp (value : Z) (name : string) : result Z :=
  raise_if value <=? 0 with HistoricalDownloadError (String.append name " must be a positive integer timestamp") ;;
  Ok value.

(** The guards of [download_range], and the duration they establish. *)
Definition download_guards (symbol interval : string) (start_time_ms end_time_ms page_limit : Z) (known : gset Z)
    : result Z :=
  raise_if negb (str_in symbol SYMBOLS) with HistoricalDownloadError "Unsupported historical symbol" ;;
  match interval_ms interval with
  | None => Err (Raise HistoricalDownloadError "Unsupported historical interval")
  | Some duration =>
      let* start := _timestamp start_time_ms "start_time_ms" in
      let* end_ := _timestamp end_time_ms "end_time_ms" in
      raise_if (end_ <=? start) || negb (start mod duration =? 0) || negb (end_ mod duration =? 0)
        with HistoricalDownloadError "Historical range must be ordered and interval-aligned" ;;
      raise_if MAX_RANGE_CANDLES <? (end_ - start) / duration
        with HistoricalDownloadError "Historical range exceeds the candle limit" ;;
      raise_if negb ((1 <=? page_limit) && (page_limit <=? 1000))
        with HistoricalDownloadError "page_limit must be between 1 and 1000" ;;
      raise_if existsb (fun t => (t <? start) || (end_ <=? t) || negb (t mod duration =? 0)) (elements known)
        with HistoricalDownloadError "Known candle timestamps are invalid for the range" ;;
      Ok duration
  end.

Definition download_range (klines : Z -> Z -> Z -> result (list json)) (symbol interval : string)
    (start_time_ms end_time_ms page_limit : Z) (known : gset Z) (fuel : nat) : option (result historical_batch) :=
  match download_guards symbol interval start_time_ms end_time_ms page_limit known with
  | Err e => Some (Err e)
  | Ok duration =>
      match download_loop klines duration end_time_ms page_limit known fuel start_time_ms 0 (DownloadState ∅ 0 []) with
      | None => None
      | Some (Err e) => Some (Err e)
      | Some (Ok (pages, st)) =>
          Some (Ok (HistoricalBatch symbol interval start_time_ms end_time_ms pages (collected st) (skipped st)))
      end
  end.

(** * Properties *)

(** ** Pagination *)

Definition row_open (row : json) : Z := match row_times row with Ok (t, _) => t | Err _ => 0 end.

Section DownloadProof.
Context (klines : Z -> Z -> Z -> result (list json)).
Context (duration start end_ page_limit : Z) (known : gset Z).
Hypothesis Hd : 0 < duration.
Hypothesis Hend : end_ mod duration = 0.

(** A collected row: new, on the grid, inside the range, one full interval. *)
Definition good_row (row : json) : Prop :=
  exists t, row_times row = Ok (t, t + duration - 1) /\ start <= t < end_ /\ t mod duration = 0 /\ t ∉ known.

(** All rows so far lie below [b] and are in strictly ascending order. *)
Definition rows_below (b : Z) (st : download_state) : Prop :=
  Forall good_row (collected st) /\ Forall (fun r => row_open r < b) (collected st)
  /\ StronglySorted Z.lt (map row_open (collected st)) /\ (forall t, t ∈ seen_remote st -> t < b).

Definition next_bound (cursor : Z) (previous : option Z) : Z :=
  match previous with Some p => p + 1 | None => cursor end.

Lemma rows_below_mono b b' st : b <= b' -> rows_below b st -> rows_below b' st.
Proof using.
  intros Hb (H1 & H2 & H3 & H4). split_and!; [done| |done|].
  - eapply Forall_impl; [exact H2|]. simpl. lia.
  - intros t Ht. specialize (H4 t Ht). lia.
Qed.

Lemma page_loop_spec cursor previous st page previous' st' :
  start <= cursor -> (forall p, previous = Some p -> cursor <= p) ->
  rows_below (next_bound cursor previous) st ->
  page_loop duration end_ known cursor previous st page = Ok (previous', st') ->
  rows_below (next_bound cursor previous') st'
  /\ (previous' = previous \/ exists q, previous' = Some q /\ cursor <= q < end_ /\ q mod duration = 0)
  /\ (page <> [] -> exists q, previous' = Some q).
Proof using.
  intros Hs. revert previous st. induction page as [|row page IH]; intros previous st Hp Hst E; simpl in E.
  - injection E as <- <-. split; [done|]. split; [by left|done].
  - res_inv. destruct a as [t tc]. res_inv. rewrite !orb_false_iff in *. bool_prop.
    destruct Hc as (((Hc1 & Hc2) & Hc3) & ->), Hc0 as [Hprev Hseen].
    assert (next_bound cursor previous <= t) as Hb.
    { destruct previous as [p|]; simpl; [bool_prop; lia|done]. }
    set (stn := if decide (t ∈ known) then _ else _) in E.
    assert (rows_below (t + 1) stn) as Hn.
    { apply (rows_below_mono _ (t + 1)) in Hst as Hst'; [|lia]. destruct Hst as (H1 & H2 & H3 & H4), Hst' as (_ & H2' & _ & H4').
      assert (row_open row = t) as Er by (unfold row_open; by rewrite Hr).
      unfold stn. clear E stn. destruct (decide (t ∈ known)) as [Hk|Hk]; unfold rows_below; simpl.
      - split_and!; [done|done|done|]. intros x [->%elem_of_singleton|Hx]%elem_of_union; [lia|by apply H4'].
      - rewrite !Forall_app, map_app, !Forall_singleton. simpl. rewrite Er.
        split_and!; [done|exists t; split_and!; done || lia|done|lia| |].
        + apply strongly_sorted_snoc; [done|]. rewrite Forall_map. eapply Forall_impl; [exact H2|]. simpl. lia.
        + intros x [->%elem_of_singleton|Hx]%elem_of_union; [lia|by apply H4']. }
    destruct (IH (Some t) stn) as (R1 & R2 & R3); [intros p [= <-]; lia|done|done|].
    split; [done|]. split.
    + right. destruct R2 as [->|?]; [|done]. exists t. split; [done|]. lia.
    + intros _. destruct R2 as [->|(q & -> & _)]; eauto.
Qed.

(** The errors of the loop: never a failure to advance. *)
Definition download_error (e : exn) : Prop :=
  exn_cls e = HistoricalDownloadError /\ exn_msg e <> "Historical pagination made no progress"%string.

Lemma page_loop_err cursor previous st page e :
  page_loop duration end_ known cursor previous st page = Err e -> download_error e.
Proof using.
  revert previous st. induction page as [|row page IH]; intros previous st E; simpl in E; [done|].
  destruct (row_times row) as [[t tc]|x] eqn:Er; simpl in E.
  - repeat (case_match; [by injection E as <-|]). by eapply IH.
  - injection E as <-. unfold row_times in Er. repeat case_match; simplify_eq; done.
Qed.

(** The loop ends within the fuel, advances on every page, and collects only
    good rows in ascending order. *)
Lemma download_loop_spec fuel cursor pages st :
  start <= cursor <= end_ -> cursor mod duration = 0 -> rows_below cursor st ->
  (Z.to_nat ((end_ - cursor) / duration) < fuel)%nat ->
  exists out, download_loop klines duration end_ page_limit known fuel cursor pages st = Some out
    /\ (forall e, out = Err e -> (forall l s f x, klines l s f = Err x -> exn_cls x = PublicRestError) ->
          download_error e)
    /\ forall pages' st', out = Ok (pages', st') ->
         rows_below end_ st' /\ pages <= pages' <= pages + (end_ - cursor) / duration.
Proof using All.
  revert cursor pages st. induction fuel as [|fuel IH]; intros cursor pages st Hcur Hm Hst Hf; [lia|]. simpl.
  assert (0 <= (end_ - cursor) / duration) as Hq by (apply Z.div_pos; lia).
  destruct (Z.ltb_spec cursor end_) as [Hlt|Hge]; simpl.
  2: { eexists; split; [done|]. split; [done|]. intros ? ? [= <- <-]. split; [|lia].
       eapply rows_below_mono; [|exact Hst]. lia. }
  assert ((end_ - cursor) mod duration = 0) as Hmod by (rewrite Zminus_mod, Hend, Hm; by apply Z.mod_0_l; lia).
  assert (1 <= (end_ - cursor) / duration) as Hq1.
  { apply Z_div_exact_full_2 in Hmod; [|lia]. nia. }
  destruct (rcatch (klines _ cursor (end_ - 1)) _ _) as [page|e] eqn:Ek.
  2: { eexists; split; [done|]. split; [|done]. intros ? [= <-] Hcl. unfold rcatch in Ek.
       destruct (klines _ _ _) as [?|x] eqn:Ex; [done|]. specialize (Hcl _ _ _ _ Ex).
       rewrite bool_decide_true in Ek by (rewrite Hcl; by left). injection Ek as <-. done. }
  destruct page as [|row page].
  { eexists; split; [done|]. split; [done|]. intros ? ? [= <- <-]. split; [|lia].
    eapply rows_below_mono; [|exact Hst]. lia. }
  destruct (page_loop _ _ _ cursor None st (row :: page)) as [[prev st']|e] eqn:Ep.
  2: { eexists; split; [done|]. split; [|done]. intros ? [= <-] _. by eapply page_loop_err. }
  apply page_loop_spec in Ep as (R1 & R2 & R3); [|lia|done|done].
  destruct (R3 ltac:(done)) as [q ->]. destruct R2 as [|(q' & [= <-] & Hb & Hmq)]; [done|].
  destruct (Z.leb_spec (q + duration) cursor); [lia|].
  assert ((q + duration) mod duration = 0) as Hmq'.
  { rewrite <- Hmq. replace (q + duration) with (q + 1 * duration) by lia. apply Z_mod_plus_full. }
  assert (q + duration <= end_) as Hqe.
  { assert ((end_ - q) mod duration = 0) as Hx by (rewrite Zminus_mod, Hend, Hmq; by apply Z.mod_0_l; lia).
    apply Z_div_exact_full_2 in Hx; [|lia]. assert (0 < (end_ - q) / duration) by nia. nia. }
  assert ((end_ - (q + duration)) / duration + 1 <= (end_ - cursor) / duration) as Hdec.
  { replace (end_ - (q + duration)) with (end_ - q + (-1) * duration) by lia. rewrite Z_div_plus_full by lia.
    assert ((end_ - q) / duration <= (end_ - cursor) / duration); [apply Z.div_le_mono; lia|lia]. }
  destruct (IH (q + duration) (pages + 1) st') as (out & Eo & Herr & Hok); [lia|done| | |].
  - eapply rows_below_mono; [|exact R1]. simpl. lia.
  - assert (0 <= (end_ - (q + duration)) / duration) by (apply Z.div_pos; lia). lia.
  - exists out. split; [done|]. split; [done|]. intros pages' s2 E. destruct (Hok _ _ E). split; [done|lia].
Qed.
End DownloadProof.

Lemma guards_spec symbol interval start end_ limit known out :
  download_guards symbol interval start end_ limit known = out ->
  match out with
  | Err e => download_error e
  | Ok d => interval_ms interval = Some d /\ 0 < d /\ 0 < start < end_ /\ start mod d = 0 /\ end_ mod d = 0
      /\ (end_ - start) / d <= MAX_RANGE_CANDLES
  end.
Proof.
  intros <-. unfold download_guards, _timestamp, rbind.
  destruct (interval_ms interval) as [d|] eqn:Ei; [|by repeat case_match; simplify_eq].
  repeat (case_match; simplify_eq; try done).
  repeat match goal with H : (_ || _) = false |- _ => apply orb_false_iff in H as [? ?] end. bool_prop.
  split; [done|]. split; [by eapply interval_ms_pos|]. lia.
Qed.

(** C9.  Bounded pagination.  Against any client that fails only with
    [PublicRestError], [download_range] terminates within one page per candle
    of the range (at most 100,001 client calls) and raises only
    [HistoricalDownloadError], never for lack of progress; an accepted batch
    holds, in strictly ascending open time and without repetition, rows inside
    the range, on the interval grid, of exactly one interval, and not among the
    known ones. *)
Theorem download_range_bounded klines symbol interval start end_ limit known fuel :
  (forall l s f e, klines l s f = Err e -> exn_cls e = PublicRestError) ->
  MAX_RANGE_CANDLES < Z.of_nat fuel ->
  exists out, download_range klines symbol interval start end_ limit known fuel = Some out
    /\ match out with
       | Err e => download_error e
       | Ok b => exists d, interval_ms interval = Some d
           /\ Forall (good_row d start end_ known) (hb_rows b)
           /\ StronglySorted Z.lt (map row_open (hb_rows b))
           /\ 0 <= pages b <= (end_ - start) / d
       end.
Proof.
  intros Hcl Hfuel. unfold download_range.
  pose proof (guards_spec symbol interval start end_ limit known _ eq_refl) as Hg.
  destruct (download_guards _ _ _ _ _ _) as [d|e]; [|by eexists].
  destruct Hg as (Hi & Hd & Hr & Hs & He & Hn).
  destruct (download_loop_spec klines d start end_ limit known Hd He fuel start 0 (DownloadState ∅ 0 []))
    as (out & -> & Herr & Hok); [lia|done| | |].
  { repeat split; try constructor. intros t Ht. set_solver. }
  { generalize dependent ((end_ - start) / d). intros n Hn. unfold MAX_RANGE_CANDLES in *. lia. }
  destruct out as [[pages st]|e]; [|eexists; split; [done|]; by eapply Herr].
  eexists. split; [done|]. destruct (Hok pages st eq_refl) as [(H1 & _ & H3 & _) H4]. exists d. simpl. done.
Qed.

(** ** Normalization *)

Lemma candle_post_init_err c e : candle_post_init c = Err e -> exn_cls e = CandleValidationError.
Proof.
  assert (forall v f z x, _decimal v f z = Err x -> exn_cls x = CandleValidationError) as Hdec.
  { intros v f z x E. unfold _decimal in E. destruct (decimal_pattern v) eqn:P; simpl in E; [|by injection E as <-].
    destruct (decimal_pattern_spec _ P) as (d & Ed & _). rewrite Ed in E. simpl in E.
    destruct (_ || _); [by injection E as <-|done]. }
  unfold candle_post_init. intros E. destruct (interval_ms _); [|by repeat case_match; simplify_eq].
  repeat match type of E with
  | (if ?b then _ else _) = _ => destruct b; [by injection E as <-|]
  | rbind ?m _ = _ => destruct m eqn:?; simpl in E; [|injection E as <-; by eapply Hdec]
  end. all: done.
Qed.

Lemma build_candle_spec symbol interval t0 t1 o h l c bv qv n b :
  match _build_candle symbol interval t0 t1 o h l c bv qv n b with
  | Err e => exn_cls e = NormalizationError
  | Ok x => candle_valid x /\ Market.symbol x = symbol /\ Market.interval x = interval
      /\ t0 = JInt (open_time_ms x) /\ t1 = JInt (close_time_ms x) /\ b = JBool (is_closed x)
  end.
Proof.
  unfold _build_candle, rcatch.
  assert (forall m : result candle, (forall e, m = Err e -> exn_cls e = CandleValidationError) ->
    match m with Ok a => Ok a | Err e0 => if bool_decide (exn_cls e0 ∈ [CandleValidationError; TypeError])
      then Err (Raise NormalizationError "Kline payload violates the canonical candle contract") else Err e0 end
    = match m with Ok a => Ok a | Err _ => Err (Raise NormalizationError "Kline payload violates the canonical candle contract") end)
    as Hm by (intros [?|e] He; [done|]; by rewrite bool_decide_true by (rewrite (He e eq_refl); set_solver)).
  rewrite Hm.
  - destruct t0, t1, o, h, l; try done. destruct c, bv, qv, n, b; try done. unfold new_candle.
    destruct (candle_post_init _) as [[]|e] eqn:E; simpl; done.
  - destruct t0, t1, o, h, l; try (by intros ? [= <-]). destruct c, bv, qv, n, b; try (by intros ? [= <-]).
    unfold new_candle. destruct (candle_post_init _) as [[]|e] eqn:E; simpl; [done|].
    intros ? [= <-]. by eapply candle_post_init_err.
Qed.

Lemma normalize_rest_spec symbol interval row server :
  match normalize_rest_kline symbol interval row server with
  | Err e => exn_cls e = NormalizationError
  | Ok c => candle_valid c /\ Market.symbol c = symbol /\ Market.interval c = interval
      /\ (is_closed c = true <-> close_time_ms c < server)
      /\ exists l, row = JArr l /\ length l = 12%nat /\ item l 0 = JInt (open_time_ms c) /\ item l 6 = JInt (close_time_ms c)
  end.
Proof.
  unfold normalize_rest_kline. destruct (_ || _); [done|]. destruct (_ <=? _); [done|].
  destruct row as [| | | |l|]; try done. destruct (Z.eqb_spec (Z.of_nat (length l)) 12) as [Hl|]; [|done]. cbn [negb].
  destruct (negb (reserved_zero _)); [done|]. destruct (item l 6) as [| |t1| | |] eqn:E6; try done.
  pose proof (build_candle_spec symbol interval (item l 0) (JInt t1) (item l 1) (item l 2) (item l 3) (item l 4)
            (item l 5) (item l 7) (item l 8) (JBool (t1 <? server))) as H.
  destruct (_build_candle _ _ _ _ _ _ _ _ _ _ _ _) as [c|e]; [|exact H].
  destruct H as (Hv & Hs & Hi & E0 & [= ->] & [= E1]). split_and!; try done.
  - rewrite <- E1. apply Z.ltb_lt.
  - exists l. split_and!; [done|lia|done|done].
Qed.

(** REST normalization.  A row becomes a candle only if it satisfies the
    canonical contract, for the requested market, with the row's own
    timestamps; the candle is closed exactly when the exchange's clock is past
    its close time; every rejection is a [NormalizationError]. *)
Theorem normalize_rest_sound symbol interval row server :
  match normalize_rest_kline symbol interval row server with
  | Err e => exn_cls e = NormalizationError
  | Ok c => candle_valid c /\ Market.symbol c = symbol /\ Market.interval c = interval
      /\ (is_closed c = true <-> close_time_ms c < server)
      /\ exists l, row = JArr l /\ length l = 12%nat /\ item l 0 = JInt (open_time_ms c) /\ item l 6 = JInt (close_time_ms c)
  end.
Proof. exact (normalize_rest_spec symbol interval row server). Qed.

(** WebSocket normalization lets one exception through that its
    documented error does not cover: an event whose interval is a JSON list
    raises [TypeError]. Every other rejection is a [NormalizationError], and an
    accepted event is a valid candle. *)
Theorem normalize_websocket_errors :
  (forall payload, match normalize_websocket_kline payload with
     | Ok c => candle_valid c
     | Err e => exn_cls e = NormalizationError \/ exn_cls e = TypeError
     end)
  /\ exists payload e, normalize_websocket_kline payload = Err e /\ exn_cls e = TypeError.
Proof.
  assert (forall stream event, match normalize_event stream event with
     | Ok c => candle_valid c
     | Err e => exn_cls e = NormalizationError \/ exn_cls e = TypeError end) as He.
  { intros stream event. unfold normalize_event. destruct (_ || _); [by left|].
    destruct (field event "s") as [| | |s| |]; try (by left). destruct (field event "k") as [| | | | |k]; try (by left).
    destruct (negb _); [by left|]. destruct (negb _); [by left|]. destruct (negb _); [by left|].
    destruct (interval_lookup _) as [[i|]|e] eqn:Ei; simpl; [|by left|].
    - match goal with |- context [if ?b then _ else _] => destruct b end; [by left|].
      destruct (field k "x") as [|b| | | |]; try (by left).
      match goal with |- context [_build_candle ?a1 ?a2 ?a3 ?a4 ?a5 ?a6 ?a7 ?a8 ?a9 ?a10 ?a11 ?a12] =>
        pose proof (build_candle_spec a1 a2 a3 a4 a5 a6 a7 a8 a9 a10 a11 a12) as H;
        destruct (_build_candle a1 a2 a3 a4 a5 a6 a7 a8 a9 a10 a11 a12) end; [by destruct H|by left].
    - right. unfold interval_lookup in Ei. by destruct (field k "i"); simplify_eq. }
  split.
  - intros payload. unfold normalize_websocket_kline. destruct payload as [| | | | |o]; try (by left).
    destruct (_ && _); [|apply He]. destruct (field o "stream"); try (by left).
    destruct (field o "data"); try (by left). apply He.
  - exists (JObj [("e", JStr "kline"); ("E", JInt 1); ("s", JStr "BTCUSDT");
      ("k", JObj [("t", JInt 0); ("T", JInt 0); ("s", JStr "BTCUSDT"); ("i", JArr []); ("o", JNull); ("h", JNull);
                  ("l", JNull); ("c", JNull); ("v", JNull); ("n", JNull); ("x", JNull); ("q", JNull)])])%string.
    eexists. split; [vm_compute; reflexivity|done].
Qed.

(** ** The rebuild loop (yatl/data/rebuild.py)

    The download, with fuel for one page per candle of the largest range. *)
Definition download (klines : Z -> Z -> Z -> result (list json)) (symbol interval : string) (s e : Z)
    : result historical_batch :=
  match download_range klines symbol interval s e 1000 ∅ (Z.to_nat (MAX_RANGE_CANDLES + 1)) with
  | Some out => out
  | None => Err (Raise HistoricalDownloadError "out of fuel")
  end.

#[global] Instance data_health_report_eq_dec : EqDecision data_health_report.
Proof. solve_decision. Defined.

(** One dataset of the manifest: download, normalize, store, read back, and
    compare the health report with the accepted one. *)
Definition rebuild_dataset (klines : string -> string -> Z -> Z -> Z -> result (list json)) (generated_at : Z)
    (expected : data_health_report) : stm candle_store unit :=
  let sym := dh_symbol expected in
  let ivl := dh_interval expected in
  let s := dh_requested_start_time_ms expected in
  let e := dh_requested_end_time_ms expected in
  let! batch := slift (download (klines sym ivl) sym ivl s e) in
  let! candles := slift (rmap (fun row => normalize_rest_kline sym ivl row generated_at) (hb_rows batch)) in
  do! (if nonempty candles then do! write_many candles ;; sret tt else sret tt) ;;
  let! rows := sget in
  let! stored := slift (candles_between rows DATA_SOURCE sym ivl s e) in
  let! actual := slift (build_health_report DATA_SOURCE sym ivl s e stored generated_at 0 0) in
  sraise_if negb (bool_decide (actual = expected))
    with CheckpointRebuildError "Rebuilt dataset differs from accepted manifest" ;;
  sret tt.

Fixpoint rebuild_all (klines : string -> string -> Z -> Z -> Z -> result (list json)) (generated_at : Z)
    (datasets : list data_health_report) : stm candle_store unit :=
  match datasets with
  | [] => sret tt
  | expected :: rest => do! rebuild_dataset klines generated_at expected ;; rebuild_all klines generated_at rest
  end.

(** [rebuild_accepted_database]: the database replaces the target only when
    every dataset and the row count agree; otherwise nothing is produced. *)
Definition rebuild_accepted_database (klines : string -> string -> Z -> Z -> Z -> result (list json)) (generated_at : Z)
    (datasets : list data_health_report) : result candle_store :=
  let expected_rows := fold_left (fun n r => n + closed_rows r) datasets 0 in
  rcatch
    (let '(rows, out) := rebuild_all klines generated_at datasets ∅ in
     do* out ;;
     raise_if negb (count rows =? expected_rows)
       with CheckpointRebuildError "Rebuilt database row count is inconsistent" ;;
     Ok rows)
    [HistoricalDownloadError; HealthError; NormalizationError; PublicRestError; StorageError; ClosedCandleConflict; TypeError]
    (Raise CheckpointRebuildError "Accepted checkpoint rebuild failed safely").

Lemma rmap_normalize_valid sym ivl at_ rows candles :
  rmap (fun row => normalize_rest_kline sym ivl row at_) rows = Ok candles ->
  Forall (fun c => candle_valid c /\ symbol c = sym /\ interval c = ivl) candles.
Proof.
  revert candles. induction rows as [|row rows IH]; intros candles; simpl; [by intros [= <-]|]. intros H. res_inv. subst.
  constructor; [|by apply IH]. pose proof (normalize_rest_spec sym ivl row at_) as Hn. rewrite Hr in Hn. naive_solver.
Qed.

Lemma write_all_other cs rows rows' rs k : write_all cs rows = (rows', Ok rs) -> Forall (fun c => candle_key c <> k) cs ->
  rows' !! k = rows !! k.
Proof.
  intros E Hk. revert rows rs E. induction Hk as [|c cs Hc _ IH]; intros rows rs E; simpl in E; stm_inv; subst; [done|].
  rewrite (IH _ _ Hm0). apply write_ok in Hm. destruct Hm; try done; by rewrite lookup_insert_ne.
Qed.

Lemma sorted_unique (l1 l2 : list candle) :
  StronglySorted (fun a b => open_time_ms a < open_time_ms b) l1 ->
  StronglySorted (fun a b => open_time_ms a < open_time_ms b) l2 ->
  (forall c, c ∈ l1 <-> c ∈ l2) -> l1 = l2.
Proof.
  intros H1 H2 He.
  assert (forall l, StronglySorted (fun a b => open_time_ms a < open_time_ms b) l -> NoDup l) as Hnd.
  { induction 1 as [|x l Hl IH Hx]; constructor; [|done]. intros Hin. rewrite Forall_forall in Hx. specialize (Hx x Hin). lia. }
  assert (AntiSymm (=) (fun a b : candle => open_time_ms a < open_time_ms b)) as Ha by (intros a b ? ?; lia).
  eapply (StronglySorted_unique (fun a b => open_time_ms a < open_time_ms b)); try done.
  apply NoDup_Permutation; auto.
Qed.

(** Reads of one market are independent of writes to another. *)
Lemma select_other rows rows' s i v t0 t1 : store_inv rows -> store_inv rows' ->
  (forall c, symbol c = i -> interval c = v -> rows' !! candle_key c = rows !! candle_key c) ->
  select rows' s i v t0 t1 = select rows s i v t0 t1.
Proof.
  intros Hr Hr' He. apply sorted_unique.
  1-2: apply sorted_strict; [apply sort_by_sorted|by apply select_times_NoDup].
  intros c. rewrite !select_elem by done. split; intros [(H1 & H2 & H3 & H4) H5]; (split; [done|]);
    [rewrite <- He|rewrite He]; done.
Qed.

(** What one rebuilt dataset leaves in the store. *)
Definition rebuilt (generated_at : Z) (rows : candle_store) (expected : data_health_report) : Prop :=
  exists stored,
    candles_between rows DATA_SOURCE (dh_symbol expected) (dh_interval expected)
      (dh_requested_start_time_ms expected) (dh_requested_end_time_ms expected) = Ok stored
    /\ build_health_report DATA_SOURCE (dh_symbol expected) (dh_interval expected)
         (dh_requested_start_time_ms expected) (dh_requested_end_time_ms expected) stored generated_at 0 0 = Ok expected.

Lemma rebuild_dataset_ok klines at_ expected rows rows' : store_inv rows ->
  rebuild_dataset klines at_ expected rows = (rows', Ok tt) ->
  store_inv rows' /\ rebuilt at_ rows' expected
  /\ forall c, symbol c <> dh_symbol expected \/ interval c <> dh_interval expected ->
       rows' !! candle_key c = rows !! candle_key c.
Proof.
  intros Hi E. unfold rebuild_dataset in E. stm_inv. subst.
  apply negb_false_iff, bool_decide_eq_true in Hc. subst v4.
  match goal with H : rmap _ _ = Ok _ |- _ => apply rmap_normalize_valid in H as Hv end.
  match goal with H : (if nonempty ?l then _ else _) ?r = _ |- _ => rename H into Hw; rename r into rows0 end.
  assert (store_inv rows' /\ forall c, symbol c <> dh_symbol expected \/ interval c <> dh_interval expected ->
    rows' !! candle_key c = rows0 !! candle_key c) as [Hi' Ho]; [|split_and!; try done; unfold rebuilt; eauto].
  destruct (nonempty _); stm_inv; subst; [|done].
  unfold write_many in Hm. destruct (negb _); [done|]. apply srollback_ok in Hm.
  assert (Forall candle_valid v0) as Hcv by (eapply Forall_impl; [exact Hv|]; naive_solver).
  destruct (write_all_ok _ _ _ _ Hcv Hm) as (_ & H' & _). split; [by apply H'|].
  intros c Hc. eapply write_all_other; [exact Hm|]. eapply Forall_impl; [exact Hv|].
  intros x (_ & E1 & E2) [=]. destruct Hc; congruence.
Qed.

Lemma rebuilt_other at_ rows rows' expected : store_inv rows -> store_inv rows' ->
  (forall c, symbol c = dh_symbol expected -> interval c = dh_interval expected ->
     rows' !! candle_key c = rows !! candle_key c) ->
  rebuilt at_ rows expected -> rebuilt at_ rows' expected.
Proof.
  intros Hi Hi' He (stored & E1 & E2). exists stored. split; [|done]. rewrite <- E1.
  unfold candles_between. by rewrite (select_other rows rows').
Qed.

Definition same_market (a b : data_health_report) : Prop :=
  dh_symbol a = dh_symbol b /\ dh_interval a = dh_interval b.

Lemma rebuild_all_ok klines at_ datasets rows rows' : store_inv rows ->
  ForallOrdPairs (fun a b => ~ same_market a b) datasets ->
  rebuild_all klines at_ datasets rows = (rows', Ok tt) ->
  store_inv rows' /\ Forall (rebuilt at_ rows') datasets
  /\ forall c, Forall (fun e => symbol c <> dh_symbol e \/ interval c <> dh_interval e) datasets ->
       rows' !! candle_key c = rows !! candle_key c.
Proof.
  intros Hi Hd. revert rows Hi. induction Hd as [|e es He _ IH]; intros rows Hi E; simpl in E; stm_inv; subst; [done|].
  destruct v. destruct (rebuild_dataset_ok _ _ _ _ _ Hi Hm) as (Hi1 & Hr1 & Ho1).
  destruct (IH _ Hi1 E) as (Hi2 & Hr2 & Ho2). split; [done|]. split.
  - constructor; [|done]. eapply rebuilt_other; [exact Hi1|done| |done]. intros c Es Ei. apply Ho2.
    eapply Forall_impl; [exact He|]. intros x Hx. unfold same_market in Hx. rewrite Es, Ei.
    destruct (decide (dh_symbol e = dh_symbol x)); [right|by left]. naive_solver.
  - intros c Hc. inversion Hc; subst. rewrite Ho2 by done. by apply Ho1.
Qed.

(** C10.  A rebuilt database is the accepted one.  If
    [rebuild_accepted_database] produces a database for a manifest with one
    report per market, then whatever the client returned, every row is a valid
    candle under its key; for every report the stored candles of its range give
    exactly that report again; and if the report was marked ready, they are a
    complete history of the range. *)
Theorem rebuild_faithful klines generated_at datasets rows :
  ForallOrdPairs (fun a b => ~ same_market a b) datasets ->
  rebuild_accepted_database klines generated_at datasets = Ok rows ->
  store_inv rows
  /\ count rows = fold_left (fun n r => n + closed_rows r) datasets 0
  /\ forall expected, expected ∈ datasets -> rebuilt generated_at rows expected
       /\ (backtest_ready expected = true -> exists stored d,
             candles_between rows DATA_SOURCE (dh_symbol expected) (dh_interval expected)
               (dh_requested_start_time_ms expected) (dh_requested_end_time_ms expected) = Ok stored
             /\ interval_ms (dh_interval expected) = Some d
             /\ complete_history (dh_requested_start_time_ms expected) (dh_requested_end_time_ms expected) d
                  (dh_expected_current_open_time_ms expected) stored).
Proof.
  intros Hd E. unfold rebuild_accepted_database in E. apply rcatch_ok in E.
  destruct (rebuild_all klines generated_at datasets ∅) as [rows1 out] eqn:Ea. destruct out as [[]|]; [|done].
  res_inv. subst. bool_prop.
  assert (store_inv ∅) as H0 by (intros k c Hk; by rewrite lookup_empty in Hk).
  destruct (rebuild_all_ok _ _ _ _ _ H0 Hd Ea) as (Hi & Hr & _). split; [done|]. split; [done|].
  intros expected Hin. rewrite Forall_forall in Hr. specialize (Hr expected Hin). split; [done|]. intros Hready.
  destruct Hr as (stored & E1 & E2). destruct (interval_ms (dh_interval expected)) as [d|] eqn:Ei.
  - exists stored, d. split_and!; try done. by eapply (health_gate_complete _ _ _ _ _ _ _ _ _ _ _ Ei E2).
  - unfold build_health_report in E2. by rewrite Ei in E2.
Qed.

(** ** A concrete client *)

Definition sample_row (d t : Z) : json :=
  JArr [JInt t; JStr "100"; JStr "110"; JStr "90"; JStr "105"; JStr "10"; JInt (t + d - 1); JStr "1000"; JInt 5;
        JStr "1"; JStr "2"; JStr "0"]%string.
Definition sample_klines (sym ivl : string) (limit s f : Z) : result (list json) :=
  match interval_ms ivl with
  | Some d => Ok (map (sample_row d) (take (Z.to_nat limit) (py_range s f d)))
  | None => Err (Raise PublicRestError "Unsupported kline interval")
  end.
Definition four_hours : Z := 14400000.

Lemma sample_klines_errors l s f e : sample_klines "BTCUSDT" "4h" l s f = Err e -> exn_cls e = PublicRestError.
Proof. unfold sample_klines. destruct (interval_ms "4h"); [discriminate|]. by intros [= <-]. Qed.

Lemma download_range_bounded_witness : exists b,
  download_range (sample_klines "BTCUSDT" "4h") "BTCUSDT" "4h" four_hours (4 * four_hours) 2 {[2 * four_hours]}
    (Z.to_nat (MAX_RANGE_CANDLES + 1)) = Some (Ok b)
  /\ StronglySorted Z.lt (map row_open (hb_rows b)) /\ pages b <= 3.
Proof.
  destruct (download_range_bounded (sample_klines "BTCUSDT" "4h") "BTCUSDT" "4h" four_hours (4 * four_hours) 2
    {[2 * four_hours]} (Z.to_nat (MAX_RANGE_CANDLES + 1))) as (out & E & H).
  - exact sample_klines_errors.
  - unfold MAX_RANGE_CANDLES. lia.
  - destruct out as [b|e].
    + destruct H as (d & Hi & _ & Hs & Hp). exists b. split; [exact E|]. split; [exact Hs|].
      vm_compute in Hi. injection Hi as <-. exact (proj2 Hp).
    + exfalso. assert (match download_range (sample_klines "BTCUSDT" "4h") "BTCUSDT" "4h" four_hours (4 * four_hours) 2
        {[2 * four_hours]} (Z.to_nat (MAX_RANGE_CANDLES + 1)) with Some (Ok _) => true | _ => false end = true) as Hok
        by (vm_compute; reflexivity).
      rewrite E in Hok. discriminate Hok.
Defined.

Definition sample_report : data_health_report :=
  DataHealthReport DATA_SOURCE "BTCUSDT" "4h" four_hours (3 * four_hours) (Some four_hours) (Some (2 * four_hours))
    2 2 2 0 [] [] [] None false [] 0 0 (Some 7) true true [].

Lemma rebuild_faithful_witness : exists rows stored,
  rebuild_accepted_database sample_klines (3 * four_hours + 7) [sample_report] = Ok rows
  /\ candles_between rows DATA_SOURCE "BTCUSDT" "4h" four_hours (3 * four_hours) = Ok stored
  /\ complete_history four_hours (3 * four_hours) four_hours None stored.
Proof.
  assert (is_ok (rebuild_accepted_database sample_klines (3 * four_hours + 7) [sample_report]) = true) as Hok
    by (vm_compute; reflexivity).
  destruct (rebuild_accepted_database sample_klines (3 * four_hours + 7) [sample_report]) as [rows|e] eqn:E;
    [|discriminate Hok].
  destruct (rebuild_faithful sample_klines (3 * four_hours + 7) [sample_report] rows) as (_ & _ & H).
  - repeat constructor.
  - exact E.
  - destruct (H sample_report) as [_ Hr]; [apply list_elem_of_here|].
    destruct (Hr eq_refl) as (stored & d & E1 & Hd & Hc). exists rows, stored. split; [reflexivity|]. split; [exact E1|].
    vm_compute in Hd. injection Hd as <-. exact Hc.
Defined.
