(* ===== verification/StrategyContracts.v ===== *)
(** * Strategy contracts (yatl/strategy/contracts.py)

    Identities, point-in-time contexts with their fixed safety policy, long
    setups and decisions, with every constructor check. *)
From S2P Require Import Prelude PyDecimal PyText Digest Market BacktestConfig MarketView Fills.

Inductive strategy_action : Type := SNoTrade | SEnterLong | SExitLong.
Inductive decision_reason : Type :=
| R_INSUFFICIENT_HISTORY | REGIME_UNKNOWN | REGIME_BLOCKED | SETUP_ABSENT | CONFIRMATION_FAILED | HOLD_POSITION
| TREND_PULLBACK_ENTRY | BREAKOUT_ENTRY | STRATEGY_EXIT.

#[global] Instance strategy_action_eq_dec : EqDecision strategy_action.
Proof. solve_decision. Defined.
#[global] Instance decision_reason_eq_dec : EqDecision decision_reason.
Proof. solve_decision. Defined.

Definition action_value (a : strategy_action) : string :=
  match a with SNoTrade => "NO_TRADE" | SEnterLong => "ENTER_LONG" | SExitLong => "EXIT_LONG" end.
Definition reason_value (r : decision_reason) : string :=
  match r with
  | R_INSUFFICIENT_HISTORY => "INSUFFICIENT_HISTORY" | REGIME_UNKNOWN => "REGIME_UNKNOWN"
  | REGIME_BLOCKED => "REGIME_BLOCKED" | SETUP_ABSENT => "SETUP_ABSENT"
  | CONFIRMATION_FAILED => "CONFIRMATION_FAILED" | HOLD_POSITION => "HOLD_POSITION"
  | TREND_PULLBACK_ENTRY => "TREND_PULLBACK_ENTRY" | BREAKOUT_ENTRY => "BREAKOUT_ENTRY"
  | STRATEGY_EXIT => "STRATEGY_EXIT"
  end.

Definition ENTRY_REASONS : list decision_reason := [TREND_PULLBACK_ENTRY; BREAKOUT_ENTRY].
Definition NO_TRADE_REASONS : list decision_reason :=
  [R_INSUFFICIENT_HISTORY; REGIME_UNKNOWN; REGIME_BLOCKED; SETUP_ABSENT; CONFIRMATION_FAILED; HOLD_POSITION].

(** [STRATEGY_ID_PATTERN], [VERSION_PATTERN] *)
Definition is_upper (c : ascii) : bool := ((65 <=? ord c) && (ord c <=? 90))%N.
Definition strategy_id_pattern (s : string) : bool :=
  match txt s with
  | c :: l => is_upper c && forallb (fun c => is_upper c || is_digit c || Ascii.eqb c "_"%char) l
              && (2 <=? length l)%nat && (length l <=? 31)%nat
  | [] => false
  end.
Definition some_digits (l : text) : bool := forallb is_digit l && (1 <=? length l)%nat.
Definition version_pattern (s : string) : bool :=
  match split_dot (txt s) with
  | (c :: major, Some rest) =>
      is_digit19 c && forallb is_digit major &&
      match split_dot rest with
      | (minor, Some patch) => some_digits minor && some_digits patch
      | _ => false
      end
  | _ => false
  end.

Definition _positive (value field : string) : result dec :=
  raise_if negb (decimal_pattern value)
    with StrategyContractError (String.append field " must be a plain positive decimal string") ;;
  let* number := Decimal value in
  raise_if dleb number dec0 with StrategyContractError (String.append field " must be positive") ;;
  Ok number.

Record strategy_identity : Type := StrategyIdentity { strategy_id : string; version : string }.

#[global] Instance strategy_identity_eq_dec : EqDecision strategy_identity.
Proof. solve_decision. Defined.

Definition identity_post_init (i : strategy_identity) : result unit :=
  raise_if negb (strategy_id_pattern (strategy_id i)) || negb (version_pattern (version i))
    with StrategyContractError "Strategy identity is invalid" ;;
  Ok tt.

Record strategy_context : Type := StrategyContext {
  identity : strategy_identity;
  sc_snapshot : market_snapshot;
  sc_paper_only : bool;
  sc_live_master_lock : string;
  sc_spot_only : bool;
  sc_allow_short : bool;
  sc_allow_leverage : bool;
}.

#[global] Instance strategy_context_eq_dec : EqDecision strategy_context.
Proof. solve_decision. Defined.

Definition new_context_default (i : strategy_identity) (s : market_snapshot) : strategy_context :=
  StrategyContext i s true "OFF" true false false.

Definition context_post_init (c : strategy_context) : result unit :=
  raise_if negb (sc_paper_only c) || negb (String.eqb (sc_live_master_lock c) "OFF") || negb (sc_spot_only c)
           || sc_allow_short c || sc_allow_leverage c
    with StrategyContractError "Strategy context or safety policy is invalid" ;;
  Ok tt.

Definition sc_symbol (c : strategy_context) : string := ms_symbol (sc_snapshot c).
Definition sc_decision_time_ms (c : strategy_context) : Z := ms_decision_time_ms (sc_snapshot c).

(** [Candle.as_record] *)
Definition candle_record (c : candle) : json := JObj [
  ("source", JStr (source c)); ("symbol", JStr (symbol c)); ("interval", JStr (interval c));
  ("open_time_ms", JInt (open_time_ms c)); ("close_time_ms", JInt (close_time_ms c));
  ("open", JStr (open c)); ("high", JStr (high c)); ("low", JStr (low c)); ("close", JStr (close c));
  ("base_volume", JStr (base_volume c)); ("quote_volume", JStr (quote_volume c));
  ("trade_count", JInt (trade_count c)); ("is_closed", JBool (is_closed c))]%string.

Definition context_payload (c : strategy_context) : json := JObj [
  ("strategy_id", JStr (strategy_id (identity c)));
  ("strategy_version", JStr (version (identity c)));
  ("symbol", JStr (sc_symbol c));
  ("decision_time_ms", JInt (sc_decision_time_ms c));
  ("primary", JArr (map candle_record (primary (sc_snapshot c))));
  ("context", JArr (map candle_record (context (sc_snapshot c))));
  ("regime", JArr (map candle_record (regime (sc_snapshot c))));
  ("safety", JObj [
    ("paper_only", JBool (sc_paper_only c));
    ("live_master_lock", JStr (sc_live_master_lock c));
    ("spot_only", JBool (sc_spot_only c));
    ("allow_short", JBool (sc_allow_short c));
    ("allow_leverage", JBool (sc_allow_leverage c))])]%string.
Definition context_sha256 (c : strategy_context) : string := digest (context_payload c).

Record long_setup : Type := LongSetup {
  setup_reference_price : string;
  invalidation_price : string;
  setup_target_price : string;
}.

#[global] Instance long_setup_eq_dec : EqDecision long_setup.
Proof. solve_decision. Defined.

Definition setup_post_init (s : long_setup) : result unit :=
  let* reference := _positive (setup_reference_price s) "reference_price" in
  let* invalidation := _positive (invalidation_price s) "invalidation_price" in
  let* target := _positive (setup_target_price s) "target_price" in
  raise_if negb (dltb invalidation reference && dltb reference target)
    with StrategyContractError "Long setup levels are invalid" ;;
  Ok tt.
Definition new_setup (s : long_setup) : result long_setup := do* setup_post_init s ;; Ok s.

Record strategy_decision : Type := StrategyDecision {
  sd_context : strategy_context;
  sd_action : strategy_action;
  sd_reason : decision_reason;
  sd_setup : option long_setup;
}.

#[global] Instance strategy_decision_eq_dec : EqDecision strategy_decision.
Proof. solve_decision. Defined.

Definition decision_post_init (d : strategy_decision) : result unit :=
  let valid :=
    match sd_action d with
    | SEnterLong => negb (opt_is_none (sd_setup d)) && bool_decide (sd_reason d ∈ ENTRY_REASONS)
    | SExitLong => opt_is_none (sd_setup d) && bool_decide (sd_reason d = STRATEGY_EXIT)
    | SNoTrade => opt_is_none (sd_setup d) && bool_decide (sd_reason d ∈ NO_TRADE_REASONS)
    end in
  raise_if negb valid with StrategyContractError "Strategy action, reason and setup are inconsistent" ;;
  Ok tt.
Definition new_decision (d : strategy_decision) : result strategy_decision := do* decision_post_init d ;; Ok d.

Definition sd_symbol (d : strategy_decision) : string := sc_symbol (sd_context d).
Definition sd_decision_time_ms (d : strategy_decision) : Z := sc_decision_time_ms (sd_context d).

(** * Properties *)

Definition context_valid (c : strategy_context) : Prop :=
  identity_post_init (identity c) = Ok tt /\ snapshot_valid (sc_snapshot c) /\ context_post_init c = Ok tt.

Lemma _positive_spec value field d : _positive value field = Ok d <-> denotes value d /\ (0 < dval d)%Q.
Proof.
  unfold _positive. split.
  - intros H. res_inv. subst. apply negb_false_iff in Hc.
    destruct (decimal_pattern_spec _ Hc) as (d' & E & Hpl & Hf). rewrite E in Hr. injection Hr as ->.
    apply dleb_false in Hc0. by rewrite dval_0 in Hc0.
  - intros ((E & Hpl & Hf) & Hpos).
    assert (decimal_pattern value = true) as ->.
    { rewrite <- Hf. destruct Hpl as (H1 & H2 & H3). by apply format_pattern. }
    rewrite E. simpl. destruct (dleb d dec0) eqn:El; [|done]. apply dleb_spec in El. rewrite dval_0 in El. lra.
Qed.

Definition setup_valid (s : long_setup) : Prop := setup_post_init s = Ok tt.

Lemma setup_valid_spec s : setup_valid s <-> exists r i t,
  denotes (setup_reference_price s) r /\ denotes (invalidation_price s) i /\ denotes (setup_target_price s) t
  /\ (0 < dval i)%Q /\ (dval i < dval r)%Q /\ (dval r < dval t)%Q.
Proof.
  unfold setup_valid, setup_post_init. split.
  - intros H. res_inv. apply _positive_spec in Hr as [? ?], Hr0 as [? ?], Hr1 as [? ?].
    bool_prop. destruct Hc as [Hir Hrt]. exists a, a0, a1. done.
  - intros (r & i & t & Hr & Hi & Ht & B1 & B2 & B3).
    rewrite (proj2 (_positive_spec _ "reference_price" r)) by (split; [done|lra]). simpl.
    rewrite (proj2 (_positive_spec _ "invalidation_price" i)) by (split; [done|lra]). simpl.
    rewrite (proj2 (_positive_spec _ "target_price" t)) by (split; [done|lra]). simpl.
    by rewrite (proj2 (dltb_spec i r)), (proj2 (dltb_spec r t)).
Qed.

(** ** The paper intents of a decision *)

Lemma decision_time_aligned c : context_valid c -> 0 < sc_decision_time_ms c /\ sc_decision_time_ms c mod HOUR_MS = 0.
Proof.
  intros (_ & Hs & _). unfold snapshot_valid, snapshot_post_init in Hs. unfold sc_decision_time_ms. res_inv. bool_prop. lia.
Qed.

Lemma plain_intent_valid act t : act <> ENTER_LONG -> 0 < t -> t mod HOUR_MS = 0 -> intent_post_init (PaperIntent act t None None None) = Ok tt.
Proof.
  intros Ha Ht Hm. unfold intent_post_init. cbn [pi_decision_time_ms pi_action pi_quantity pi_stop_price pi_target_price].
  rewrite (proj2 (Z.leb_gt t 0) Ht), (proj2 (Z.eqb_eq _ _) Hm). cbn [orb negb]. by destruct act.
Qed.

Lemma entry_intent_valid t q setup d : 0 < t -> t mod HOUR_MS = 0 -> denotes q d -> (0 < dval d)%Q -> setup_valid setup ->
  intent_post_init (PaperIntent ENTER_LONG t (Some q) (Some (invalidation_price setup)) (Some (setup_target_price setup))) = Ok tt.
Proof.
  intros Ht Hm Hd Pd Hs. apply setup_valid_spec in Hs as (x & i & y & _ & Hi & Hy & P1 & P2 & P3).
  unfold intent_post_init. cbn [pi_decision_time_ms pi_action pi_quantity pi_stop_price pi_target_price _positive_decimal_opt].
  rewrite (proj2 (Z.leb_gt t 0) Ht), (proj2 (Z.eqb_eq _ _) Hm). cbn [orb negb].
  rewrite (_positive_decimal_total _ _ _ Hd Pd), (_positive_decimal_total _ _ i Hi) by done. cbn [rbind].
  rewrite (_positive_decimal_total _ _ y Hy) by lra. cbn [rbind].
  rewrite (proj2 (dleb_false d dec0)) by by rewrite dval_0. rewrite (proj2 (dleb_false y i)) by lra. done.
Qed.

(** ** What a context digest binds *)

Lemma candle_record_inj c c' : jnorm (candle_record c) = jnorm (candle_record c') -> c = c'.
Proof. intros H. cbn in H. injection H as ?. destruct c, c'; simpl in *; congruence. Qed.

Lemma candle_records_inj l l' :
  map jnorm (map candle_record l) = map jnorm (map candle_record l') -> l = l'.
Proof.
  rewrite !map_map. assert (Inj (=) (=) (fun c => jnorm (candle_record c))) as Hinj by exact candle_record_inj.
  apply (inj (fmap (fun c => jnorm (candle_record c)))).
Qed.

Lemma context_payload_inj c c' : jnorm (context_payload c) = jnorm (context_payload c') -> c = c'.
Proof.
  intros H. cbn -[candle_record] in H. injection H as H. apply candle_records_inj in H, H1, H2.
  destruct c as [[] []], c' as [[] []]. unfold sc_symbol, sc_decision_time_ms in *. simpl in *. congruence.
Qed.

(** A context digest determines the context, unless SHA-256 collides. *)
Lemma context_sha256_binding c c' : context_sha256 c = context_sha256 c' ->
  c = c' \/ sha256_collision (json_dumps (context_payload c)) (json_dumps (context_payload c')).
Proof.
  intros H. destruct (digest_inj (context_payload c) (context_payload c') H) as [E|E];
    [left; apply context_payload_inj, E|right; exact E].
Qed.
