(* ===== verification/Features.v ===== *)
(** * Point-in-time features (yatl/strategy/features.py)

    Moving averages, ranges, true range and relative strength over the closed
    candles visible at a decision, in a 256-digit decimal context. *)
From S2P Require Import Prelude PyDecimal PyText Market BacktestConfig MarketView Fills Costs.

Definition MAX_FEATURE_CANDLES : Z := 100000.
Definition MAX_FEATURE_PERIOD : Z := 10000.

Inductive feature_state : Type := READY | INSUFFICIENT_HISTORY.

#[global] Instance feature_state_eq_dec : EqDecision feature_state.
Proof. solve_decision. Defined.

Record feature_result : Type := FeatureResult {
  fname : string;
  fperiod : Z;
  f_decision_time_ms : Z;
  observed : Z;
  warmup_required : Z;
  fstate : feature_state;
  fvalue : option dec;
}.

Definition feature_post_init (r : feature_result) : result unit :=
  raise_if String.eqb (fname r) "" || (fperiod r <=? 0) || (f_decision_time_ms r <=? 0) || (observed r <? 0)
           || (warmup_required r <=? 0)
           || (bool_decide (fstate r = READY) && (opt_is_none (fvalue r) || (observed r <? warmup_required r)))
           || (bool_decide (fstate r = INSUFFICIENT_HISTORY)
               && (negb (opt_is_none (fvalue r)) || (warmup_required r <=? observed r)))
    with FeatureError "Feature result is inconsistent" ;;
  Ok tt.
Definition new_feature (r : feature_result) : result feature_result := do* feature_post_init r ;; Ok r.

Definition available (r : feature_result) : bool := bool_decide (fstate r = READY).

Definition _period (value : Z) : result Z :=
  raise_if negb ((1 <=? value) && (value <=? MAX_FEATURE_PERIOD)) with FeatureError "Feature period is invalid" ;;
  Ok value.

Fixpoint series_loop (first : candle) (duration : Z) (previous : option candle) (visible : list candle) : result unit :=
  match visible with
  | [] => Ok tt
  | c :: rest =>
      raise_if negb (String.eqb (symbol c) (symbol first)) || negb (String.eqb (interval c) (interval first))
               || negb (is_closed c)
               || match previous with Some p => negb (open_time_ms c =? open_time_ms p + duration) | None => false end
        with FeatureError "Feature candle series is inconsistent" ;;
      series_loop first duration (Some c) rest
  end.

Definition _visible (candles : list candle) (decision_time_ms : Z) : result (list candle) :=
  raise_if (MAX_FEATURE_CANDLES <? Z.of_nat (length candles)) || (decision_time_ms <=? 0)
    with FeatureError "Feature input identity is invalid" ;;
  match visible decision_time_ms candles with
  | [] => Ok []
  | first :: rest =>
      match interval_ms (interval first) with
      | None => Err (Raise KeyError (interval first))
      | Some duration => do* series_loop first duration None (first :: rest) ;; Ok (first :: rest)
      end
  end.

Definition _result (name : string) (period decision_time_ms : Z) (visible : list candle) (required : Z)
    (value : option dec) : result feature_result :=
  let n := Z.of_nat (length visible) in
  if n <? required
  then new_feature (FeatureResult name period decision_time_ms n required INSUFFICIENT_HISTORY None)
  else new_feature (FeatureResult name period decision_time_ms n required READY value).

(** Every feature: validate, wait for the warm-up, then compute. *)
Definition feature (name : string) (extra : Z) (compute : Z -> list candle -> result dec)
    (candles : list candle) (period decision_time_ms : Z) : result feature_result :=
  let* period := _period period in
  let* visible := _visible candles decision_time_ms in
  let required := period + extra in
  if Z.of_nat (length visible) <? required
  then _result name period decision_time_ms visible required None
  else
    let* value := compute period visible in
    _result name period decision_time_ms visible required (Some value).

Definition FP : N := DECIMAL_PRECISION.
(** [l[-n:]] *)
Definition lastn {A} (n : Z) (l : list A) : list A := drop (length l - Z.to_nat n) l.
Definition firstn_z {A} (n : Z) (l : list A) : list A := take (Z.to_nat n) l.
Definition dropn_z {A} (n : Z) (l : list A) : list A := drop (Z.to_nat n) l.
Definition closes (l : list candle) : result (list dec) := rmap (fun c => Decimal (close c)) l.

Definition close_at (o : option candle) : result dec :=
  match o with Some c => Decimal (close c) | None => Err (Raise IndexError "tuple index out of range") end.

Definition simple_return_value (period : Z) (visible : list candle) : result dec :=
  let* a := close_at (last visible) in
  let* b := close_at (head (lastn (period + 1) visible)) in
  let* q := ddiv FP a b in
  Ok (dsub FP q dec1).
Definition simple_return := feature "SIMPLE_RETURN" 1 simple_return_value.

(** [max(...)] and [min(...)] of a non-empty sequence keep the first extremum. *)
Definition dmax_list (l : list dec) : result dec :=
  match l with x :: l' => Ok (fold_left dmax l' x) | [] => Err (Raise TypeError "max() arg is an empty sequence") end.
Definition dmin_list (l : list dec) : result dec :=
  match l with x :: l' => Ok (fold_left dmin l' x) | [] => Err (Raise TypeError "min() arg is an empty sequence") end.

Definition rolling_high_value (period : Z) (visible : list candle) : result dec :=
  let* highs := rmap (fun c => Decimal (high c)) (lastn period visible) in dmax_list highs.
Definition rolling_high := feature "ROLLING_HIGH" 0 rolling_high_value.

Definition rolling_low_value (period : Z) (visible : list candle) : result dec :=
  let* lows := rmap (fun c => Decimal (low c)) (lastn period visible) in dmin_list lows.
Definition rolling_low := feature "ROLLING_LOW" 0 rolling_low_value.

Definition sma_value (period : Z) (visible : list candle) : result dec :=
  let* cs := closes (lastn period visible) in
  ddiv FP (dsum FP dec0 cs) (dec_of_Z period).
Definition sma := feature "SMA" 0 sma_value.

Definition ema_value (period : Z) (visible : list candle) : result dec :=
  let* values := closes visible in
  let* first := ddiv FP (dsum FP dec0 (firstn_z period values)) (dec_of_Z period) in
  let* alpha := ddiv FP (dec_of_Z 2) (dec_of_Z (period + 1)) in
  Ok (fold_left (fun current value => dadd FP (dmul FP alpha value) (dmul FP (dsub FP dec1 alpha) current))
        (dropn_z period values) first).
Definition ema := feature "EMA" 0 ema_value.

Definition true_range (previous current : candle) : result dec :=
  let* high_ := Decimal (high current) in
  let* low_ := Decimal (low current) in
  let* prior_close := Decimal (close previous) in
  Ok (dmax (dmax (dsub FP high_ low_) (dabs FP (dsub FP high_ prior_close))) (dabs FP (dsub FP low_ prior_close))).

(** Wilder smoothing: [((current * (period - 1)) + value) / period]. *)
Fixpoint smooth (period : Z) (current : dec) (values : list dec) : result dec :=
  match values with
  | [] => Ok current
  | v :: rest =>
      let* next := ddiv FP (dadd FP (dmul FP current (dec_of_Z (period - 1))) v) (dec_of_Z period) in
      smooth period next rest
  end.

Definition wilder (period : Z) (values : list dec) : result dec :=
  let* first := ddiv FP (dsum FP dec0 (firstn_z period values)) (dec_of_Z period) in
  smooth period first (dropn_z period values).

Definition atr_value (period : Z) (visible : list candle) : result dec :=
  let* ranges := rmap (fun pc => true_range (fst pc) (snd pc)) (combine visible (tail visible)) in
  wilder period ranges.
Definition atr := feature "ATR" 1 atr_value.

Definition rsi_of (average_gain average_loss : dec) : result dec :=
  if deqb average_gain dec0 && deqb average_loss dec0 then Ok (dec_of_Z 50)
  else if deqb average_loss dec0 then Ok (dec_of_Z 100)
  else if deqb average_gain dec0 then Ok dec0
  else
    let* relative_strength := ddiv FP average_gain average_loss in
    let* q := ddiv FP (dec_of_Z 100) (dadd FP dec1 relative_strength) in
    Ok (dsub FP (dec_of_Z 100) q).

(** The two averages are smoothed in one loop; each depends only on its own
    values. *)
Definition rsi_value (period : Z) (visible : list candle) : result dec :=
  let* cs := closes visible in
  let changes := map (fun pc => dsub FP (snd pc) (fst pc)) (combine cs (tail cs)) in
  let gains := map (fun v => dmax v dec0) changes in
  let losses := map (fun v => dmax (dminus FP v) dec0) changes in
  let* average_gain := wilder period gains in
  let* average_loss := wilder period losses in
  rsi_of average_gain average_loss.
Definition rsi := feature "RSI" 1 rsi_value.

(** * Properties *)

(** ** Visibility *)

(** A contiguous series of valid closed candles, all before [t]. *)
Record series_ok (t : Z) (l : list candle) : Prop := {
  so_valid : Forall candle_valid l;
  so_time : 0 < t;
  so_length : Z.of_nat (length l) <= MAX_FEATURE_CANDLES;
  so_chain : exists sym ivl d s, interval_ms ivl = Some d /\ Forall (history_candle sym ivl t) l /\ opens_from s d l;
}.

Lemma series_loop_ok first d prev l :
  Forall (fun c => symbol c = symbol first /\ interval c = interval first /\ is_closed c = true) l ->
  match l with
  | [] => True
  | c :: rest => opens_from (open_time_ms c) d l /\ match prev with Some p => open_time_ms c = open_time_ms p + d | None => True end
  end ->
  series_loop first d prev l = Ok tt.
Proof.
  intros H. revert prev. induction H as [|c l (Es & Ei & Ec) Hl IH]; intros prev Hg; [done|]. simpl.
  destruct Hg as [[_ Hg] Hp]. rewrite Es, Ei, Ec, !String.eqb_refl. simpl.
  assert (match prev with Some p => negb (open_time_ms c =? open_time_ms p + d) | None => false end = false) as ->.
  { destruct prev; [|done]. by rewrite negb_false_iff, Z.eqb_eq. }
  apply IH. destruct l as [|c' l']; [done|]. destruct Hg as [E Hg]. split; [|done]. split; [done|]. by rewrite E.
Qed.

Lemma visible_all t l : Forall (fun c => close_time_ms c < t) l -> visible t l = l.
Proof. induction 1 as [|c l Hc _ IH]; [done|]. by rewrite visible_cons, decide_True, IH. Qed.

Lemma visible_series t l : series_ok t l -> _visible l t = Ok l.
Proof.
  intros [Hv Ht Hn (sym & ivl & d & s & Hi & Hf & Ho)]. unfold _visible.
  replace (MAX_FEATURE_CANDLES <? Z.of_nat (length l)) with false by lia. replace (t <=? 0) with false by lia. simpl.
  rewrite visible_all by (eapply Forall_impl; [exact Hf|]; by intros ? (_ & _ & _ & _ & ?)).
  destruct l as [|c l]; [done|]. pose proof Hf as Hf'. inversion Hf' as [|? ? (_ & Es & Ei & _) _]; subst.
  rewrite Hi. change ((do* series_loop c d None (c :: l) ;; Ok (c :: l)) = Ok (c :: l)). rewrite (series_loop_ok c d None (c :: l)); [done| |].
  - eapply Forall_impl; [exact Hf|]. intros x (_ & ? & ? & ? & _). done.
  - destruct Ho as [E Ho]. split; [|done]. split; [done|]. by rewrite E.
Qed.

Lemma series_prefix t l n : series_ok t l -> series_ok t (take n l).
Proof.
  intros [Hv Ht Hn (sym & ivl & d & s & Hi & Hf & Ho)]. constructor; [by apply Forall_take|done| |].
  - rewrite length_take. lia.
  - exists sym, ivl, d, s. split_and!; [done|by apply Forall_take|]. clear -Ho.
    revert s n Ho. induction l as [|c l IH]; intros s [|n] Ho; try done. destruct Ho. split; [done|]. by apply IH.
Qed.

(** ** The shape of every feature *)

Lemma feature_ready name extra compute l period t v : name <> ""%string -> 0 <= extra ->
  series_ok t l -> 1 <= period <= MAX_FEATURE_PERIOD ->
  period + extra <= Z.of_nat (length l) -> compute period l = Ok v ->
  feature name extra compute l period t
  = Ok (FeatureResult name period t (Z.of_nat (length l)) (period + extra) READY (Some v)).
Proof.
  intros Hname He Hs Hp Hn Hc. unfold feature, _period.
  replace ((1 <=? period) && (period <=? MAX_FEATURE_PERIOD)) with true by lia. simpl.
  rewrite (visible_series t l Hs). simpl. replace (Z.of_nat (length l) <? period + extra) with false by lia.
  rewrite Hc. simpl. unfold _result. replace (Z.of_nat (length l) <? period + extra) with false by lia.
  unfold new_feature, feature_post_init. destruct Hs. cbn [fname fperiod f_decision_time_ms observed warmup_required fstate fvalue].
  apply String.eqb_neq in Hname. rewrite Hname, bool_decide_true, bool_decide_false by done. cbn [opt_is_none].
  replace (period <=? 0) with false by lia. replace (t <=? 0) with false by lia.
  replace (Z.of_nat (length l) <? 0) with false by lia. replace (period + extra <=? 0) with false by lia.
  by replace (Z.of_nat (length l) <? period + extra) with false by lia.
Qed.

Lemma feature_waiting name extra compute l period t : name <> ""%string -> 0 <= extra ->
  series_ok t l -> 1 <= period <= MAX_FEATURE_PERIOD -> Z.of_nat (length l) < period + extra ->
  feature name extra compute l period t
  = Ok (FeatureResult name period t (Z.of_nat (length l)) (period + extra) INSUFFICIENT_HISTORY None).
Proof.
  intros Hname He Hs Hp Hn. unfold feature, _period.
  replace ((1 <=? period) && (period <=? MAX_FEATURE_PERIOD)) with true by lia. simpl.
  rewrite (visible_series t l Hs). simpl. replace (Z.of_nat (length l) <? period + extra) with true by lia.
  unfold _result. replace (Z.of_nat (length l) <? period + extra) with true by lia.
  unfold new_feature, feature_post_init. destruct Hs. cbn [fname fperiod f_decision_time_ms observed warmup_required fstate fvalue].
  apply String.eqb_neq in Hname. rewrite Hname, bool_decide_false, bool_decide_true by done. cbn [opt_is_none].
  replace (period <=? 0) with false by lia. replace (t <=? 0) with false by lia.
  replace (Z.of_nat (length l) <? 0) with false by lia. replace (period + extra <=? 0) with false by lia.
  by replace (period + extra <=? Z.of_nat (length l)) with false by lia.
Qed.

Lemma feature_visible name extra compute l l' period t : visible t l = visible t l' ->
  Z.of_nat (length l) <= MAX_FEATURE_CANDLES -> Z.of_nat (length l') <= MAX_FEATURE_CANDLES ->
  feature name extra compute l period t = feature name extra compute l' period t.
Proof.
  intros E Hl Hl'. unfold feature, _visible. rewrite E.
  replace (MAX_FEATURE_CANDLES <? Z.of_nat (length l)) with false by lia.
  by replace (MAX_FEATURE_CANDLES <? Z.of_nat (length l')) with false by lia.
Qed.

(** ** Values *)

Lemma rmap_Forall2 {A B} (f : A -> result B) (R : A -> B -> Prop) l :
  Forall (fun x => exists y, f x = Ok y /\ R x y) l -> exists ys, rmap f l = Ok ys /\ Forall2 R l ys.
Proof.
  induction 1 as [|x l (y & Ey & Hy) _ (ys & E & IH)]; [by exists []|]. exists (y :: ys). simpl. rewrite Ey. simpl.
  rewrite E. by repeat constructor.
Qed.

Definition price (d : dec) : Prop := rep 40 40 (dval d) /\ (0 < dval d)%Q.

Lemma candle_prices c : candle_valid c -> exists o h l cl,
  Decimal (open c) = Ok o /\ Decimal (high c) = Ok h /\ Decimal (low c) = Ok l /\ Decimal (close c) = Ok cl
  /\ price o /\ price h /\ price l /\ price cl
  /\ (dval l <= dval o <= dval h)%Q /\ (dval l <= dval cl <= dval h)%Q.
Proof.
  intros H. destruct (candle_amounts c H) as (o & h & l & cl & v & ((Eo & Po & _) & Bo) & ((Eh & Ph & _) & Bh)
    & ((El & Pl & _) & Bl) & ((Ec & Pc & _) & Bc) & _ & H1 & H2).
  apply plain_rep in Po, Ph, Pl, Pc. exists o, h, l, cl. unfold price. done.
Qed.

Definition qsum (l : list dec) : Q := fold_right (fun d s => (dval d + s)%Q) 0%Q l.

Lemma dsum_exact l acc : Forall price l -> rep 45 40 (dval acc) ->
  (Qabs (dval acc) + inject_Z (Z.of_nat (length l)) * q10 40 < q10 45)%Q ->
  (dval (dsum FP acc l) == dval acc + qsum l)%Q.
Proof.
  intros H. revert acc. induction H as [|d l [Rd Bd] _ IH]; intros acc Ra Hb; [unfold dsum; simpl; ring|].
  cbn [length] in Hb. rewrite Nat2Z.inj_succ in Hb. unfold Z.succ in Hb. rewrite inject_Z_plus in Hb.
  pose proof (rep_lt _ _ _ Rd) as Bl. pose proof (Qabs_triangle (dval acc) (dval d)) as Tr.
  assert (0 <= inject_Z (Z.of_nat (length l)) * q10 40)%Q as Hnn.
  { apply Qmult_le_0_compat; [|by apply Qlt_le_weak]. change 0%Q with (inject_Z 0). rewrite <- Zle_Qle. lia. }
  rewrite Qmult_plus_distr_l in Hb. change (inject_Z 1 * q10 40)%Q with (1 * q10 40)%Q in Hb. rewrite Qmult_1_l in Hb.
  assert (rep 45 40 (dval acc + dval d)) as Rs.
  { eapply rep_bound; [apply (rep_plus 45 40 40 40); done|done|]. lra. }
  assert (dval (dadd FP acc d) == dval acc + dval d)%Q as Va by (apply (dadd_val (i:=45) (f:=40)); done).
  change (dsum FP acc (d :: l)) with (dsum FP (dadd FP acc d) l).
  rewrite IH; [rewrite Va; simpl; ring|by rewrite Va|]. rewrite Va. lra.
Qed.

Lemma dsum_prices l : Forall price l -> Z.of_nat (length l) <= 10000 ->
  (dval (dsum FP dec0 l) == qsum l)%Q.
Proof.
  intros H Hn. rewrite dsum_exact; [rewrite dval_0; ring|done|rewrite dval_0; by apply (rep_weaken 0 0 45 40 0 rep_0)|].
  rewrite dval_0. change (Qabs 0) with 0%Q. rewrite Qplus_0_l. rewrite Zle_Qle in Hn.
  apply (Qmult_le_compat_r _ _ (q10 40)) in Hn; [|by apply Qlt_le_weak].
  eapply Qle_lt_trans; [exact Hn|]. reflexivity.
Qed.

Lemma rmap_prices (sel : candle -> string) l :
  (forall c, candle_valid c -> exists d, Decimal (sel c) = Ok d /\ price d) -> Forall candle_valid l ->
  exists ds, rmap (fun c => Decimal (sel c)) l = Ok ds /\ Forall2 (fun c d => Decimal (sel c) = Ok d) l ds /\ Forall price ds.
Proof.
  intros Hsel Hl.
  destruct (rmap_Forall2 (fun c => Decimal (sel c)) (fun c d => Decimal (sel c) = Ok d /\ price d) l) as (ds & E & H).
  { eapply Forall_impl; [exact Hl|]. intros c Hc. destruct (Hsel c Hc) as (d & E & Hd). by exists d. }
  exists ds. split; [done|]. split; [eapply Forall2_impl; [exact H|]; by intros ? ? []|].
  clear E Hl. induction H as [|c d l ds [_ Hd] _ IH]; [by apply Forall_nil|]. by apply Forall_cons.
Qed.

Lemma close_price c : candle_valid c -> exists d, Decimal (close c) = Ok d /\ price d.
Proof. intros H. destruct (candle_prices c H) as (o & h & l & cl & ? & ? & ? & ? & ? & ? & ? & ? & _). eauto. Qed.
Lemma high_price c : candle_valid c -> exists d, Decimal (high c) = Ok d /\ price d.
Proof. intros H. destruct (candle_prices c H) as (o & h & l & cl & ? & ? & ? & ? & ? & ? & ? & ? & _). eauto. Qed.
Lemma low_price c : candle_valid c -> exists d, Decimal (low c) = Ok d /\ price d.
Proof. intros H. destruct (candle_prices c H) as (o & h & l & cl & ? & ? & ? & ? & ? & ? & ? & ? & _). eauto. Qed.

Lemma length_lastn {A} n (l : list A) : 0 <= n <= Z.of_nat (length l) -> Z.of_nat (length (lastn n l)) = n.
Proof. intros H. unfold lastn. rewrite length_drop. lia. Qed.

Lemma lastn_Forall {A} (Q : A -> Prop) n l : Forall Q l -> Forall Q (lastn n l).
Proof. apply Forall_drop. Qed.

Lemma dec_of_Z_pos n : 0 < n -> (0 < dval (dec_of_Z n))%Q.
Proof. intros H. rewrite dval_dec_of_Z. change 0%Q with (inject_Z 0). by rewrite <- Zlt_Qlt. Qed.

Lemma ddiv_pos_total a b : (0 < dval b)%Q -> exists d, ddiv FP a b = Ok d.
Proof. intros H. apply ddiv_total. intros E. rewrite E in H. discriminate H. Qed.

(** The average of prices stays between their bounds, although the division
    rounds. *)
Lemma qsum_bounds l lo hi : Forall (fun d => (lo <= dval d <= hi)%Q) l ->
  (inject_Z (Z.of_nat (length l)) * lo <= qsum l <= inject_Z (Z.of_nat (length l)) * hi)%Q.
Proof.
  induction 1 as [|d l Hd _ IH]; [split; change (inject_Z (Z.of_nat (length []))) with 0%Q; rewrite Qmult_0_l; apply Qle_refl|]. cbn [qsum fold_right length]. fold (qsum l).
  rewrite Nat2Z.inj_succ. unfold Z.succ. rewrite inject_Z_plus, !Qmult_plus_distr_l. change (inject_Z 1) with 1%Q.
  rewrite !Qmult_1_l. destruct Hd, IH. split; lra.
Qed.

Lemma mean_bounds ds n lo hi d : Forall price ds -> Z.of_nat (length ds) = n -> 0 < n <= 10000 ->
  rep 40 40 lo -> rep 40 40 hi -> Forall (fun x => (lo <= dval x <= hi)%Q) ds ->
  ddiv FP (dsum FP dec0 ds) (dec_of_Z n) = Ok d -> (lo <= dval d <= hi)%Q.
Proof.
  intros Hp Hn Hb Rlo Rhi Hr E. pose proof (qsum_bounds ds lo hi Hr) as [H1 H2]. rewrite Hn in *.
  apply ddiv_faithful in E; [|done]. rewrite dsum_prices, dval_dec_of_Z in E by (done || lia).
  assert (0 < inject_Z n)%Q as Hpos by (change 0%Q with (inject_Z 0); rewrite <- Zlt_Qlt; lia).
  split; [apply (faithful_lower 40 40 lo FP _ d Rlo ltac:(done) E)|apply (faithful_upper 40 40 hi FP _ d Rhi ltac:(done) E)].
  - apply Qle_shift_div_l; [done|]. rewrite Qmult_comm. exact H1.
  - apply Qle_shift_div_r; [done|]. rewrite Qmult_comm. exact H2.
Qed.

Lemma ddiv_nonneg a b d : ddiv FP a b = Ok d -> (0 <= dval a)%Q -> (0 < dval b)%Q -> (0 <= dval d)%Q.
Proof.
  intros E Ha Hb. apply (ddiv_faithful FP) in E; [|done]. eapply faithful_nonneg; [exact E|].
  apply Qle_shift_div_l; [done|]. by rewrite Qmult_0_l.
Qed.
Lemma dadd_nonneg a b : (0 <= dval a)%Q -> (0 <= dval b)%Q -> (0 <= dval (dadd FP a b))%Q.
Proof. intros. apply (faithful_nonneg FP (dval a + dval b)); [by apply dadd_faithful|lra]. Qed.
Lemma dmul_nonneg a b : (0 <= dval a)%Q -> (0 <= dval b)%Q -> (0 <= dval (dmul FP a b))%Q.
Proof. intros. apply (faithful_nonneg FP (dval a * dval b)); [by apply dmul_faithful|by apply Qmult_le_0_compat]. Qed.
Lemma dec_of_Z_nonneg n : 0 <= n -> (0 <= dval (dec_of_Z n))%Q.
Proof. intros H. rewrite dval_dec_of_Z. change 0%Q with (inject_Z 0). by rewrite <- Zle_Qle. Qed.

Lemma smooth_nonneg period current values : 1 <= period -> (0 <= dval current)%Q ->
  Forall (fun d => (0 <= dval d)%Q) values ->
  exists d, smooth period current values = Ok d /\ (0 <= dval d)%Q.
Proof.
  intros Hp Hc Hv. revert current Hc. induction Hv as [|v values Hv _ IH]; intros current Hc; simpl; [by exists current|].
  assert (0 < dval (dec_of_Z period))%Q as Hpos by (apply dec_of_Z_pos; lia).
  destruct (ddiv_pos_total (dadd FP (dmul FP current (dec_of_Z (period - 1))) v) (dec_of_Z period) Hpos) as [d Ed].
  rewrite Ed. simpl. apply IH. eapply ddiv_nonneg; [exact Ed| |done].
  apply dadd_nonneg; [|done]. apply dmul_nonneg; [done|]. apply dec_of_Z_nonneg. lia.
Qed.

Lemma dsum_nonneg acc l : (0 <= dval acc)%Q -> Forall (fun d => (0 <= dval d)%Q) l -> (0 <= dval (dsum FP acc l))%Q.
Proof.
  intros Ha Hl. revert acc Ha. induction Hl as [|d l Hd _ IH]; intros acc Ha; [done|].
  apply (IH (dadd FP acc d)). by apply dadd_nonneg.
Qed.

Lemma wilder_nonneg period values : 1 <= period -> Forall (fun d => (0 <= dval d)%Q) values ->
  exists d, wilder period values = Ok d /\ (0 <= dval d)%Q.
Proof.
  intros Hp Hv. unfold wilder. assert (0 < dval (dec_of_Z period))%Q as Hpos by (apply dec_of_Z_pos; lia).
  destruct (ddiv_pos_total (dsum FP dec0 (firstn_z period values)) (dec_of_Z period) Hpos) as [d Ed]. rewrite Ed. simpl.
  apply smooth_nonneg; [done| |by apply Forall_drop]. eapply ddiv_nonneg; [exact Ed| |done].
  apply dsum_nonneg; [by rewrite dval_0|by apply Forall_take].
Qed.

Lemma dabs_nonneg d : (0 <= dval (dabs FP d))%Q.
Proof.
  apply (faithful_nonneg FP (dval (dcopy_abs d))); [by apply dfix_faithful|]. rewrite dval_copy_abs. apply Qabs_nonneg.
Qed.

Lemma true_range_total p c : candle_valid p -> candle_valid c ->
  exists d, true_range p c = Ok d /\ (0 <= dval d)%Q.
Proof.
  intros Hp Hc. destruct (candle_prices p Hp) as (_ & _ & _ & cl & _ & _ & _ & Ecl & _).
  destruct (candle_prices c Hc) as (_ & h & l & _ & _ & Eh & El & _). unfold true_range. rewrite Eh, El, Ecl. simpl.
  eexists. split; [reflexivity|].
  match goal with |- (0 <= dval (dmax ?a ?b))%Q => pose proof (proj2 (dmax_spec a b)); pose proof (dabs_nonneg (dsub FP l cl)); lra end.
Qed.

Lemma rsi_of_bounds g l : (0 <= dval g)%Q -> (0 <= dval l)%Q -> exists d, rsi_of g l = Ok d /\ (0 <= dval d <= 100)%Q.
Proof.
  intros Hg Hl. unfold rsi_of.
  destruct (deqb g dec0) eqn:Eg, (deqb l dec0) eqn:El; simpl; try (eexists; split; [reflexivity|]; split; vm_compute; congruence).
  bool_prop. rewrite dval_0 in *. assert (0 < dval l)%Q as Hl' by (apply Qnot_le_lt; intros H; apply El, Qle_antisym; done).
  destruct (ddiv_pos_total g l Hl') as [rs Ers]. rewrite Ers. simpl.
  assert (0 <= dval rs)%Q as Hrs by (eapply ddiv_nonneg; [exact Ers|done|done]).
  assert (1 <= dval (dadd FP dec1 rs))%Q as Hden.
  { apply (faithful_lower 1 0 1 FP (dval dec1 + dval rs)); [apply rep_1|done|by apply dadd_faithful|]. rewrite dval_1. lra. }
  destruct (ddiv_pos_total (dec_of_Z 100) (dadd FP dec1 rs)) as [q Eq]; [lra|]. rewrite Eq. simpl.
  eexists. split; [reflexivity|]. apply ddiv_faithful in Eq as Fq; [|done].
  assert (dval (dec_of_Z 100) == 100)%Q as V100 by reflexivity. rewrite V100 in Fq.
  assert (rep 3 0 100) as R100 by (apply (rep_Z 100); done).
  assert (0 <= dval q <= 100)%Q as Bq.
  { split; [apply (faithful_nonneg _ _ _ Fq)|apply (faithful_upper 3 0 100 FP _ q R100 ltac:(done) Fq)].
    - apply Qle_shift_div_l; lra.
    - apply Qle_shift_div_r; lra. }
  pose proof (dsub_faithful FP (dec_of_Z 100) q) as Fs. rewrite V100 in Fs. specialize (Fs ltac:(done)).
  split; [apply (faithful_nonneg _ _ _ Fs); lra|apply (faithful_upper 3 0 100 FP _ _ R100 ltac:(done) Fs); lra].
Qed.

Lemma dmax_list_spec l : l <> [] -> exists d, dmax_list l = Ok d /\ d ∈ l /\ Forall (fun x => (dval x <= dval d)%Q) l.
Proof.
  destruct l as [|x l]; [done|]. intros _. simpl. eexists. split; [reflexivity|]. revert x.
  induction l as [|y l IH]; intros x; simpl; [split; [apply list_elem_of_here|repeat constructor; lra]|].
  destruct (IH (dmax x y)) as [Hin Hall]. pose proof (dmax_spec x y) as [Hx Hy]. inversion Hall as [|? ? Hm Hl]; subst. split.
  - apply elem_of_cons in Hin as [->|Hin]; [|by do 2 right]. unfold dmax. destruct (dltb x y); [right|]; apply list_elem_of_here.
  - constructor; [lra|]. constructor; [lra|done].
Qed.

Lemma dmin_list_spec l : l <> [] -> exists d, dmin_list l = Ok d /\ d ∈ l /\ Forall (fun x => (dval d <= dval x)%Q) l.
Proof.
  destruct l as [|x l]; [done|]. intros _. simpl. eexists. split; [reflexivity|]. revert x.
  induction l as [|y l IH]; intros x; simpl; [split; [apply list_elem_of_here|repeat constructor; lra]|].
  destruct (IH (dmin x y)) as [Hin Hall]. pose proof (dmin_spec x y) as [Hx Hy]. inversion Hall as [|? ? Hm Hl]; subst. split.
  - apply elem_of_cons in Hin as [->|Hin]; [|by do 2 right]. unfold dmin. destruct (dltb y x); [right|]; apply list_elem_of_here.
  - constructor; [lra|]. constructor; [lra|done].
Qed.

Lemma Forall2_nonempty {A B} (R : A -> B -> Prop) l ds : Forall2 R l ds -> l <> [] -> ds <> [].
Proof. by destruct 1. Qed.

(** The window extremes and the average between them. *)
Lemma window_values period l : Forall candle_valid l -> 1 <= period <= MAX_FEATURE_PERIOD ->
  period <= Z.of_nat (length l) ->
  exists lo hi avg, rolling_low_value period l = Ok lo /\ rolling_high_value period l = Ok hi /\ sma_value period l = Ok avg
    /\ price lo /\ price hi /\ (dval lo <= dval avg <= dval hi)%Q
    /\ Forall (fun c => exists x y, Decimal (low c) = Ok x /\ Decimal (high c) = Ok y
                 /\ (dval lo <= dval x)%Q /\ (dval y <= dval hi)%Q) (lastn period l).
Proof.
  intros Hv Hp Hn. pose proof (lastn_Forall _ period l Hv) as Hw. pose proof (length_lastn period l ltac:(lia)) as Hlen.
  set (w := lastn period l) in *. assert (w <> []) as Hne by (destruct w; [simpl in Hlen; lia|done]).
  destruct (rmap_prices low w low_price Hw) as (ls & El & Fl & Pl).
  destruct (rmap_prices high w high_price Hw) as (hs & Eh & Fh & Ph).
  destruct (rmap_prices close w close_price Hw) as (cs & Ec & Fc & Pc).
  destruct (dmin_list_spec ls (Forall2_nonempty _ _ _ Fl Hne)) as (lo & Elo & Ilo & Blo).
  destruct (dmax_list_spec hs (Forall2_nonempty _ _ _ Fh Hne)) as (hi & Ehi & Ihi & Bhi).
  rewrite Forall_forall in Pl, Ph, Blo, Bhi.
  assert (Forall (fun c => exists x y, Decimal (low c) = Ok x /\ Decimal (high c) = Ok y
            /\ (dval lo <= dval x)%Q /\ (dval y <= dval hi)%Q) w) as Hwin.
  { apply Forall_forall. intros c Hc. apply list_elem_of_lookup in Hc as [i Hi].
    destruct (Forall2_lookup_l _ _ _ _ _ Fl Hi) as (x & Hx & Ex). destruct (Forall2_lookup_l _ _ _ _ _ Fh Hi) as (y & Hy & Ey).
    apply list_elem_of_lookup_2 in Hx, Hy. exists x, y. split_and!; auto. }
  assert (Forall (fun d => (dval lo <= dval d <= dval hi)%Q) cs) as Hcs.
  { apply Forall_forall. intros d Hd. apply list_elem_of_lookup in Hd as [i Hi].
    destruct (Forall2_lookup_r _ _ _ _ _ Fc Hi) as (c & Hc & Ecl). apply list_elem_of_lookup_2 in Hc.
    rewrite Forall_forall in Hwin, Hw. destruct (Hwin c Hc) as (x & y & Ex & Ey & Bx & By).
    destruct (candle_prices c (Hw c Hc)) as (o & h & l' & cl & _ & Eh' & El' & Ecl' & _ & _ & _ & _ & _ & Bc).
    assert (x = l') as -> by congruence. assert (y = h) as -> by congruence. assert (d = cl) as -> by congruence. lra. }
  destruct (ddiv_pos_total (dsum FP dec0 cs) (dec_of_Z period)) as [avg Eavg]; [apply dec_of_Z_pos; lia|].
  exists lo, hi, avg. unfold rolling_low_value, rolling_high_value, sma_value, closes. fold w. rewrite El, Eh, Ec. simpl.
  split_and!; try done; try (by apply Pl); try (by apply Ph).
  all: assert (Z.of_nat (length cs) = period) as Hlc by (rewrite <- (Forall2_length _ _ _ Fc); done).
  all: by apply (mean_bounds cs period (dval lo) (dval hi) avg Pc Hlc); try done; try (by apply Pl); try (by apply Ph);
    unfold MAX_FEATURE_PERIOD in *; lia.
Qed.

Lemma ema_value_nonneg period l : Forall candle_valid l -> 1 <= period ->
  exists d, ema_value period l = Ok d /\ (0 <= dval d)%Q.
Proof.
  intros Hv Hp. destruct (rmap_prices close l close_price Hv) as (cs & Ec & _ & Pc).
  unfold ema_value, closes. rewrite Ec. simpl.
  assert (Forall (fun d => (0 <= dval d)%Q) cs) as Hnn by (eapply Forall_impl; [exact Pc|]; intros ? [_ ?]; lra).
  assert (0 < dval (dec_of_Z period))%Q as Bp by (apply dec_of_Z_pos; lia).
  assert (0 < dval (dec_of_Z (period + 1)))%Q as Bp1 by (apply dec_of_Z_pos; lia).
  destruct (ddiv_pos_total (dsum FP dec0 (firstn_z period cs)) (dec_of_Z period) Bp) as [first Ef]. rewrite Ef. simpl.
  destruct (ddiv_pos_total (dec_of_Z 2) (dec_of_Z (period + 1)) Bp1) as [alpha Ea]. rewrite Ea. simpl.
  eexists. split; [reflexivity|].
  assert (0 <= dval alpha)%Q as Ba by (eapply ddiv_nonneg; [exact Ea|by apply dec_of_Z_nonneg|done]).
  assert (dval alpha <= 1)%Q as Ba1.
  { apply ddiv_faithful in Ea; [|done]. apply (faithful_upper 1 0 1 FP _ alpha rep_1 ltac:(done) Ea).
    apply Qle_shift_div_r; [done|]. rewrite Qmult_1_l, !dval_dec_of_Z, <- Zle_Qle. lia. }
  assert (0 <= dval (dsub FP dec1 alpha))%Q as Bm.
  { apply (faithful_nonneg FP (dval dec1 - dval alpha)); [by apply dsub_faithful|]. rewrite dval_1. lra. }
  assert (0 <= dval first)%Q as Bf.
  { eapply ddiv_nonneg; [exact Ef| |done]. apply dsum_nonneg; [by rewrite dval_0|by apply Forall_take]. }
  assert (Forall (fun d => (0 <= dval d)%Q) (dropn_z period cs)) as Hd by by apply Forall_drop.
  clear -Hd Bf Ba Bm. revert first Bf. induction Hd as [|v vs Hv _ IH]; intros first Bf; [done|]. simpl. apply IH.
  apply dadd_nonneg; by apply dmul_nonneg.
Qed.

Lemma atr_value_nonneg period l : Forall candle_valid l -> 1 <= period ->
  exists d, atr_value period l = Ok d /\ (0 <= dval d)%Q.
Proof.
  intros Hv Hp. unfold atr_value.
  destruct (rmap_Forall2 (fun pc => true_range (fst pc) (snd pc)) (fun _ d => (0 <= dval d)%Q) (combine l (tail l))) as (rs & E & H).
  { apply Forall_forall. intros [p c] Hin. apply list_elem_of_In in Hin as Hin'. rewrite Forall_forall in Hv.
    apply true_range_total; apply Hv, list_elem_of_In; [by eapply in_combine_l|].
    apply in_combine_r in Hin'. destruct l; [done|]. by right. }
  rewrite E. simpl. apply wilder_nonneg; [done|]. clear E. induction H; [by apply Forall_nil|by apply Forall_cons].
Qed.

Lemma rsi_value_bounds period l : Forall candle_valid l -> 1 <= period ->
  exists d, rsi_value period l = Ok d /\ (0 <= dval d <= 100)%Q.
Proof.
  intros Hv Hp. destruct (rmap_prices close l close_price Hv) as (cs & Ec & _ & _).
  unfold rsi_value, closes. rewrite Ec. simpl.
  assert (forall g ds, Forall (fun d => (0 <= dval d)%Q) (map (fun v : dec => dmax (g v) dec0) ds)) as Hnn.
  { intros g ds. rewrite Forall_map. apply Forall_true. intros x. pose proof (dmax_spec (g x) dec0) as [_ H]. by rewrite dval_0 in H. }
  destruct (wilder_nonneg period _ Hp (Hnn id (map (fun pc => dsub FP (snd pc) (fst pc)) (combine cs (tail cs))))) as (ag & Eg & Bg).
  destruct (wilder_nonneg period _ Hp (Hnn (dminus FP) (map (fun pc => dsub FP (snd pc) (fst pc)) (combine cs (tail cs))))) as (al & El & Bl).
  unfold id in Eg. rewrite Eg. simpl. rewrite El. simpl. by apply rsi_of_bounds.
Qed.

Lemma last_some {A} (l : list A) : l <> [] -> exists x, last l = Some x /\ x ∈ l.
Proof.
  destruct l as [|x l] using rev_ind; [done|]. intros _. exists x. rewrite last_snoc. split; [done|].
  apply elem_of_app. right. apply list_elem_of_here.
Qed.

Lemma close_at_some o c : o = Some c -> candle_valid c -> exists d, close_at o = Ok d /\ price d.
Proof. intros -> H. by apply close_price. Qed.

Lemma simple_return_value_bound period l : Forall candle_valid l -> 1 <= period -> period + 1 <= Z.of_nat (length l) ->
  exists d, simple_return_value period l = Ok d /\ (-1 <= dval d)%Q.
Proof.
  intros Hv Hp Hn. unfold simple_return_value.
  destruct (last_some l) as (c & Ec & Hc); [by destruct l; simpl in Hn; [lia|]|].
  pose proof (length_lastn (period + 1) l ltac:(lia)) as Hlen. pose proof (lastn_Forall _ (period + 1) l Hv) as Hw.
  destruct (lastn (period + 1) l) as [|b w]; [simpl in Hlen; lia|]. apply Forall_cons in Hw as [Hb _].
  rewrite Forall_forall in Hv. destruct (close_at_some _ c Ec (Hv c Hc)) as (x & Ex & _ & Px).
  destruct (close_at_some (head (b :: w)) b eq_refl Hb) as (y & Ey & _ & Py). rewrite Ex, Ey. simpl.
  destruct (ddiv_pos_total x y Py) as [q Eq]. rewrite Eq. simpl. eexists. split; [reflexivity|].
  assert (0 <= dval q)%Q as Bq by (eapply ddiv_nonneg; [exact Eq|lra|done]).
  apply (faithful_lower 1 0 (-1) FP (dval q - dval dec1)); [apply (rep_Z (-1)); done|done|by apply dsub_faithful|].
  rewrite dval_1. lra.
Qed.

(** ** The average true range is bounded *)

(** [k] times the largest price, representable for the counts of a feature. *)
Lemma rep_count k : 0 <= k <= 100000 -> rep 46 0 (inject_Z k * q10 40).
Proof.
  intros Hk. assert (inject_Z k * q10 40 == inject_Z (k * 10 ^ 40))%Q as -> by by rewrite inject_Z_mult, <- q10_Z.
  apply rep_Z; [lia|]. lia.
Qed.

Lemma count_step a b k : (a <= inject_Z k * q10 40)%Q -> (b <= q10 40)%Q -> (a + b <= inject_Z (k + 1) * q10 40)%Q.
Proof. intros Ha Hb. rewrite inject_Z_plus, Qmult_plus_distr_l. change (inject_Z 1) with 1%Q. rewrite Qmult_1_l. lra. Qed.

Definition below (d : dec) : Prop := (dval d <= q10 40)%Q.

Lemma dadd_count a b k : 0 <= k < 100000 -> (dval a <= inject_Z k * q10 40)%Q -> below b ->
  (dval (dadd FP a b) <= inject_Z (k + 1) * q10 40)%Q.
Proof.
  intros Hk Ha Hb. apply (faithful_upper 46 0 _ FP (dval a + dval b) _ (rep_count (k + 1) ltac:(lia)) ltac:(done));
    [by apply dadd_faithful|by apply count_step].
Qed.

Lemma dsum_count l acc k : 0 <= k -> k + Z.of_nat (length l) <= 100000 -> (dval acc <= inject_Z k * q10 40)%Q ->
  Forall below l -> (dval (dsum FP acc l) <= inject_Z (k + Z.of_nat (length l)) * q10 40)%Q.
Proof.
  intros Hk Hn Ha Hl. revert acc k Hk Hn Ha. induction Hl as [|d l Hd _ IH]; intros acc k Hk Hn Ha.
  - cbn [length]. change (Z.of_nat 0) with 0. by rewrite Z.add_0_r.
  - cbn [length] in *. replace (k + Z.of_nat (S (length l))) with (k + 1 + Z.of_nat (length l)) by lia.
    change (dsum FP acc (d :: l)) with (dsum FP (dadd FP acc d) l). apply IH; [lia|lia|]. apply dadd_count; [lia|done|done].
Qed.

Lemma ddiv_count a d n : 0 < n <= 100000 -> (dval a <= inject_Z n * q10 40)%Q -> ddiv FP a (dec_of_Z n) = Ok d -> below d.
Proof.
  intros Hn Ha E. apply ddiv_faithful in E; [|done]. rewrite dval_dec_of_Z in E.
  apply (faithful_upper 46 0 (q10 40) FP _ d) in E; [done| |done|].
  - assert (q10 40 == inject_Z 1 * q10 40)%Q as -> by ring. apply rep_count. lia.
  - apply Qle_shift_div_r; [change 0%Q with (inject_Z 0); rewrite <- Zlt_Qlt; lia|]. by rewrite Qmult_comm.
Qed.

Lemma smooth_below period current values d : 1 <= period <= MAX_FEATURE_PERIOD -> below current -> Forall below values ->
  smooth period current values = Ok d -> below d.
Proof.
  intros Hp Hc Hv. unfold MAX_FEATURE_PERIOD in Hp. revert current Hc. induction Hv as [|v values Hv _ IH]; intros current Hc; simpl; [congruence|].
  destruct (ddiv FP _ (dec_of_Z period)) as [next|] eqn:E; [|done]. simpl. apply IH.
  eapply ddiv_count; [|  |exact E]; [lia|]. replace period with (period - 1 + 1) at 2 by lia. apply dadd_count; [lia| |done].
  apply (faithful_upper 46 0 _ FP (dval current * dval (dec_of_Z (period - 1))) _ (rep_count (period - 1) ltac:(lia)) ltac:(done));
    [by apply dmul_faithful|]. rewrite dval_dec_of_Z.
  rewrite (Qmult_comm (inject_Z (period - 1))).
  apply Qmult_le_compat_r; [done|]. change 0%Q with (inject_Z 0). rewrite <- Zle_Qle. lia.
Qed.

Lemma wilder_below period values d : 1 <= period <= MAX_FEATURE_PERIOD -> period <= Z.of_nat (length values) -> Forall below values ->
  wilder period values = Ok d -> below d.
Proof.
  intros Hp Hn Hv H. unfold wilder in H. res_inv. unfold MAX_FEATURE_PERIOD in *.
  eapply smooth_below in H; [exact H|unfold MAX_FEATURE_PERIOD; lia| |by apply Forall_drop].
  eapply ddiv_count; [| |exact Hr]; [lia|].
  pose proof (dsum_count (firstn_z period values) dec0 0 ltac:(lia)) as Hs.
  assert (Z.of_nat (length (firstn_z period values)) = period) as E by (unfold firstn_z; rewrite length_take; lia).
  rewrite E in Hs. apply Hs; [lia|rewrite dval_0; done|by apply Forall_take].
Qed.

Lemma true_range_below p c d : candle_valid p -> candle_valid c -> true_range p c = Ok d -> below d.
Proof.
  intros Hp Hc. destruct (candle_prices p Hp) as (_ & _ & _ & cl & _ & _ & _ & Ecl & _ & _ & _ & [Rc Pc] & _).
  destruct (candle_prices c Hc) as (_ & h & l & _ & _ & Eh & El & _ & _ & [Rh Ph] & [Rl Pl] & _).
  unfold true_range. rewrite Eh, El, Ecl. simpl. intros [= <-].
  assert (forall a b, rep 40 40 (dval a) -> (0 < dval a)%Q -> rep 40 40 (dval b) -> (0 < dval b)%Q ->
    (Qabs (dval (dsub FP a b)) <= q10 40)%Q /\ below (dabs FP (dsub FP a b))) as H.
  { intros a b Ra Pa Rb Pb.
    pose proof (rep_minus _ _ _ _ _ _ Ra Rb) as Rd. simpl in Rd.
    assert (dval (dsub FP a b) == dval a - dval b)%Q as E by by apply (dsub_val (i:=41) (f:=40)).
    pose proof (rep_lt _ _ _ Ra) as La. pose proof (rep_lt _ _ _ Rb) as Lb. rewrite Qabs_pos in La, Lb by lra.
    assert (Qabs (dval (dsub FP a b)) <= q10 40)%Q as B by (rewrite E; apply Qabs_Qle_condition; split; lra).
    split; [done|]. unfold below. rewrite (dabs_val (i:=41) (f:=40)); [done|done|done|]. by rewrite E. }
  destruct (H h l) as [B1 _]; try done. destruct (H h cl) as [_ B2]; try done. destruct (H l cl) as [_ B3]; try done.
  assert (forall x y, below x -> below y -> below (dmax x y)) as Hm by (intros x y; unfold below, dmax; by destruct (dltb x y)).
  apply Hm; [apply Hm; [|done]|done]. unfold below. pose proof (Qle_Qabs (dval (dsub FP h l))). lra.
Qed.

Lemma atr_value_below period l d : Forall candle_valid l -> 1 <= period <= MAX_FEATURE_PERIOD -> period + 1 <= Z.of_nat (length l) ->
  atr_value period l = Ok d -> below d.
Proof.
  intros Hv Hp Hn H. unfold atr_value in H. res_inv. apply rmap_ok in Hr. pose proof (Forall2_length _ _ _ Hr) as Hl.
  rewrite length_combine in Hl. assert (length (tail l) = length l - 1)%nat as Ht by (destruct l; simpl; lia).
  eapply wilder_below; [exact Hp| | |exact H]; [lia|]. apply Forall_forall. intros x Hx. apply list_elem_of_lookup in Hx as [i Hi].
  destruct (Forall2_lookup_r _ _ _ _ _ Hr Hi) as ([p c] & Hpc & E). apply list_elem_of_lookup_2, list_elem_of_In in Hpc.
  rewrite Forall_forall in Hv. eapply true_range_below; [| |exact E]; apply Hv, list_elem_of_In.
  - by eapply in_combine_l.
  - apply in_combine_r in Hpc. destruct l; [done|]. by right.
Qed.

(** The seven features of a series. *)
Definition features (candles : list candle) (period t : Z) : list (result feature_result) :=
  [simple_return candles period t; rolling_high candles period t; rolling_low candles period t;
   sma candles period t; ema candles period t; atr candles period t; rsi candles period t].

(** The result of a feature that has its value. *)
Definition ready_value (r : result feature_result) (v : dec) : Prop :=
  exists f, r = Ok f /\ fstate f = READY /\ fvalue f = Some v.
Definition waiting (r : result feature_result) : Prop :=
  exists f, r = Ok f /\ fstate f = INSUFFICIENT_HISTORY /\ fvalue f = None.

Lemma feature_ready_value name extra compute l period t v : name <> ""%string -> 0 <= extra ->
  series_ok t l -> 1 <= period <= MAX_FEATURE_PERIOD ->
  period + extra <= Z.of_nat (length l) -> compute period l = Ok v ->
  ready_value (feature name extra compute l period t) v.
Proof. intros. eexists. split; [by eapply feature_ready|done]. Qed.

Lemma feature_waits name extra compute l period t : name <> ""%string -> 0 <= extra ->
  series_ok t l -> 1 <= period <= MAX_FEATURE_PERIOD -> Z.of_nat (length l) < period + extra ->
  waiting (feature name extra compute l period t).
Proof. intros. eexists. split; [by apply feature_waiting|done]. Qed.

(** C11. No feature looks ahead: two series of at most 100,000 candles each, the
    limit of the code, whose candles closed before the decision time agree give the
    same results, values and errors alike, for all seven features; in particular
    candles that close later cannot change them, as long as they do not carry the
    series over that limit (a longer one is a FeatureError). *)
Theorem features_point_in_time l l' period t : visible t l = visible t l' ->
  Z.of_nat (length l) <= MAX_FEATURE_CANDLES -> Z.of_nat (length l') <= MAX_FEATURE_CANDLES ->
  features l period t = features l' period t.
Proof.
  intros E Hl Hl'. unfold features, simple_return, rolling_high, rolling_low, sma, ema, atr, rsi.
  by rewrite !(feature_visible _ _ _ l l') by done.
Qed.

(** On a contiguous series of valid closed candles every feature answers:
    before its warm-up it waits without a value, after it it has one.  The
    moving average then lies between the window's lowest low and highest high,
    which bound every candle of the window; the return is at least -1, the
    exponential average and the average true range are not negative and the
    strength index lies between 0 and 100, all despite the rounding. *)
Theorem features_sound l t period : series_ok t l -> 1 <= period <= MAX_FEATURE_PERIOD ->
  (Z.of_nat (length l) < period -> Forall waiting (features l period t))
  /\ (period <= Z.of_nat (length l) -> exists lo hi avg e,
        ready_value (rolling_low l period t) lo /\ ready_value (rolling_high l period t) hi
        /\ ready_value (sma l period t) avg /\ ready_value (ema l period t) e
        /\ (0 < dval lo)%Q /\ (dval lo <= dval avg <= dval hi)%Q /\ (0 <= dval e)%Q
        /\ Forall (fun c => exists x y, Decimal (low c) = Ok x /\ Decimal (high c) = Ok y
                     /\ (dval lo <= dval x)%Q /\ (dval y <= dval hi)%Q) (lastn period l))
  /\ (Z.of_nat (length l) = period -> Forall waiting [simple_return l period t; atr l period t; rsi l period t])
  /\ (period < Z.of_nat (length l) -> exists s a r,
        ready_value (simple_return l period t) s /\ ready_value (atr l period t) a /\ ready_value (rsi l period t) r
        /\ (-1 <= dval s)%Q /\ (0 <= dval a)%Q /\ (0 <= dval r <= 100)%Q).
Proof.
  intros Hs Hp. pose proof (so_valid _ _ Hs) as Hv. split_and!; intros Hn.
  - repeat apply Forall_cons_2; try apply Forall_nil_2; apply feature_waits; done || lia.
  - destruct (window_values period l Hv Hp Hn) as (lo & hi & avg & El & Eh & Ea & Pl & _ & B & W).
    destruct (ema_value_nonneg period l Hv ltac:(lia)) as (e & Ee & Be).
    exists lo, hi, avg, e. split_and!; try done; try apply Pl; try apply B; apply feature_ready_value; done || lia.
  - repeat apply Forall_cons_2; try apply Forall_nil_2; apply feature_waits; done || lia.
  - destruct (simple_return_value_bound period l Hv ltac:(lia) ltac:(lia)) as (s & Es & Bs).
    destruct (atr_value_nonneg period l Hv ltac:(lia)) as (a & Ea & Ba).
    destruct (rsi_value_bounds period l Hv ltac:(lia)) as (r & Er & Br).
    exists s, a, r. split_and!; try done; try apply Br; apply feature_ready_value; done || lia.
Qed.

(** ** A concrete series *)

Lemma sample_series_ok : series_ok (6 * HOUR_MS) (sample_series "1h" HOUR_MS 6).
Proof.
  constructor; [repeat constructor|done|done|].
  exists "BTCUSDT"%string, "1h"%string, HOUR_MS, 0. split; [done|]. split; [repeat constructor|repeat constructor].
Defined.

Lemma features_point_in_time_witness :
  features (sample_series "1h" HOUR_MS 6) 3 (4 * HOUR_MS) = features (sample_series "1h" HOUR_MS 4) 3 (4 * HOUR_MS).
Proof. apply (features_point_in_time (sample_series "1h" HOUR_MS 6) (sample_series "1h" HOUR_MS 4)); vm_compute; congruence. Defined.

Lemma features_sound_witness : exists s a r,
  ready_value (simple_return (sample_series "1h" HOUR_MS 6) 3 (6 * HOUR_MS)) s
  /\ ready_value (atr (sample_series "1h" HOUR_MS 6) 3 (6 * HOUR_MS)) a
  /\ ready_value (rsi (sample_series "1h" HOUR_MS 6) 3 (6 * HOUR_MS)) r
  /\ (-1 <= dval s)%Q /\ (0 <= dval a)%Q /\ (0 <= dval r <= 100)%Q.
Proof.
  apply (features_sound (sample_series "1h" HOUR_MS 6) (6 * HOUR_MS) 3 sample_series_ok).
  - vm_compute. split; congruence.
  - reflexivity.
Defined.
