(* ===== verification/Regime.v ===== *)
(** * Regime classification (yatl/strategy/regime.py)

    The frozen 4h moving-average rules and the self-checking result record. *)
From S2P Require Import Prelude PyDecimal PyText Digest Market BacktestConfig MarketView Fills Costs StrategyContracts Features.

Definition REGIME_VERSION : string := "SMA_4H_V1".
Definition FAST_PERIOD : Z := 20.
Definition SLOW_PERIOD : Z := 50.
Definition WARMUP : Z := 51.
Definition SPREAD_BOUNDARY : dec := Dec false 2 (-3).
Definition RANGE_SLOPE_BOUNDARY : dec := Dec false 5 (-4).

Inductive market_regime : Type := TREND_UP | TREND_DOWN | RANGE | UNKNOWN.
Inductive regime_reason : Type :=
| RG_INSUFFICIENT_HISTORY | UP_ALIGNED | DOWN_ALIGNED | AVERAGES_CONVERGED | CONFLICTING_EVIDENCE.

#[global] Instance market_regime_eq_dec : EqDecision market_regime.
Proof. solve_decision. Defined.
#[global] Instance regime_reason_eq_dec : EqDecision regime_reason.
Proof. solve_decision. Defined.

Definition _classify (price fast slow spread slope : dec) : market_regime * regime_reason :=
  if dltb SPREAD_BOUNDARY spread && dltb dec0 slope && dltb fast price then (TREND_UP, UP_ALIGNED)
  else if dltb spread (dminus FP SPREAD_BOUNDARY) && dltb slope dec0 && dltb price fast then (TREND_DOWN, DOWN_ALIGNED)
  else if dleb (dabs FP spread) SPREAD_BOUNDARY && dleb (dabs FP slope) RANGE_SLOPE_BOUNDARY
  then (RANGE, AVERAGES_CONVERGED)
  else (UNKNOWN, CONFLICTING_EVIDENCE).

(** [replace(context.identity); replace(context.snapshot); replace(context)]:
    the constructors run again. *)
Definition replace_context (c : strategy_context) : result unit :=
  do* identity_post_init (identity c) ;;
  do* snapshot_post_init (sc_snapshot c) ;;
  context_post_init c.

(** The tuple [_measure] returns. *)
Record measure : Type := Measure {
  mr_regime : market_regime;
  mr_reason : regime_reason;
  mr_fast : option dec;
  mr_slow : option dec;
  mr_spread : option dec;
  mr_slope : option dec;
}.

Definition _measure (c : strategy_context) : result measure :=
  do* rcatch (replace_context c) [TypeError; StrategyContractError; BacktestContractError]
        (Raise RegimeError "Regime context failed point-in-time validation") ;;
  let candles := regime (sc_snapshot c) in
  if Z.of_nat (length candles) <? WARMUP
  then Ok (Measure UNKNOWN RG_INSUFFICIENT_HISTORY None None None None)
  else
    let* cs := closes (lastn WARMUP candles) in
    let* fast := ddiv FP (dsum FP dec0 (lastn FAST_PERIOD cs)) (dec_of_Z FAST_PERIOD) in
    let* slow := ddiv FP (dsum FP dec0 (lastn SLOW_PERIOD cs)) (dec_of_Z SLOW_PERIOD) in
    let* previous_slow := ddiv FP (dsum FP dec0 (removelast cs)) (dec_of_Z SLOW_PERIOD) in
    let* spread := ddiv FP (dsub FP fast slow) slow in
    let* slope := ddiv FP (dsub FP slow previous_slow) previous_slow in
    let* price := match last cs with Some d => Ok d | None => Err (Raise IndexError "list index out of range") end in
    let rr := _classify price fast slow spread slope in
    Ok (Measure (fst rr) (snd rr) (Some fast) (Some slow) (Some spread) (Some slope)).

Record regime_result : Type := RegimeResult {
  rr_context : strategy_context;
  rr_regime : market_regime;
  rr_reason : regime_reason;
  fast_sma : option dec;
  slow_sma : option dec;
  relative_spread : option dec;
  relative_slope : option dec;
  rr_version : string;
}.

Definition opt_deqb (a b : option dec) : bool :=
  match a, b with Some x, Some y => deqb x y | None, None => true | _, _ => false end.
Definition result_measure (r : regime_result) : measure :=
  Measure (rr_regime r) (rr_reason r) (fast_sma r) (slow_sma r) (relative_spread r) (relative_slope r).
Definition measure_eqb (m m' : measure) : bool :=
  bool_decide (mr_regime m = mr_regime m') && bool_decide (mr_reason m = mr_reason m')
  && opt_deqb (mr_fast m) (mr_fast m') && opt_deqb (mr_slow m) (mr_slow m')
  && opt_deqb (mr_spread m) (mr_spread m') && opt_deqb (mr_slope m) (mr_slope m').

Definition regime_post_init (r : regime_result) : result unit :=
  raise_if negb (String.eqb (rr_version r) REGIME_VERSION) with RegimeError "Regime result is inconsistent" ;;
  let* m := _measure (rr_context r) in
  raise_if negb (measure_eqb (result_measure r) m) with RegimeError "Regime result is inconsistent" ;;
  Ok tt.
Definition new_regime (r : regime_result) : result regime_result := do* regime_post_init r ;; Ok r.

Definition classify_regime (c : strategy_context) : result regime_result :=
  let* m := _measure c in
  new_regime (RegimeResult c (mr_regime m) (mr_reason m) (mr_fast m) (mr_slow m) (mr_spread m) (mr_slope m) REGIME_VERSION).

(** * Properties *)

(** A context whose candles went through their own constructor. *)
Definition candles_valid (s : market_snapshot) : Prop :=
  Forall candle_valid (primary s) /\ Forall candle_valid (context s) /\ Forall candle_valid (regime s).

Lemma replace_context_valid c : replace_context c = Ok tt <-> context_valid c.
Proof.
  unfold replace_context, context_valid, snapshot_valid. split.
  - intros H. res_inv. by destruct a, a0.
  - intros (E1 & E2 & E3). by rewrite E1, E2.
Qed.

Lemma measure_eqb_refl m : measure_eqb m m = true.
Proof.
  assert (forall o, opt_deqb o o = true) as R by (intros [d|]; simpl; [by apply deqb_spec|done]).
  unfold measure_eqb. by rewrite !bool_decide_true, !R by done.
Qed.

(** The result record always accepts what the classifier measured. *)
Lemma classify_measure c : classify_regime c = let* m := _measure c in
  Ok (RegimeResult c (mr_regime m) (mr_reason m) (mr_fast m) (mr_slow m) (mr_spread m) (mr_slope m) REGIME_VERSION).
Proof.
  unfold classify_regime, new_regime, regime_post_init. destruct (_measure c) as [m|e] eqn:E; [|done]. simpl.
  rewrite E. simpl. destruct m. unfold result_measure. simpl. by rewrite measure_eqb_refl.
Qed.

(** ** The rules over exact numbers *)

Section Exact.
Context (price fast slow previous : Q).
Definition Qltb (a b : Q) : bool := negb (Qle_bool b a).
(** With the averages as rational numbers: the spread is [(fast - slow) / slow]
    against 0.2%, the slope [(slow - previous) / previous] against 0.05%. *)
Definition exact_regime : market_regime :=
  if Qltb ((2 # 1000) * slow) (fast - slow) && Qltb previous slow && Qltb fast price then TREND_UP
  else if Qltb (fast - slow) (- (2 # 1000) * slow) && Qltb slow previous && Qltb price fast then TREND_DOWN
  else if Qle_bool (Qabs (fast - slow)) ((2 # 1000) * slow) && Qle_bool (Qabs (slow - previous)) ((5 # 10000) * previous)
  then RANGE else UNKNOWN.
End Exact.

Definition reason_of (r : market_regime) : regime_reason :=
  match r with
  | TREND_UP => UP_ALIGNED | TREND_DOWN => DOWN_ALIGNED | RANGE => AVERAGES_CONVERGED
  | UNKNOWN => CONFLICTING_EVIDENCE
  end.

Lemma Qltb_spec a b : Qltb a b = true <-> (a < b)%Q.
Proof.
  unfold Qltb. rewrite negb_true_iff. split; intros H.
  - apply Qnot_le_lt. intros Hle. apply Qle_bool_iff in Hle. congruence.
  - destruct (Qle_bool b a) eqn:E; [|done]. apply Qle_bool_iff in E. lra.
Qed.

Lemma bool_eq_iff (a b : bool) : (a = true <-> b = true) -> a = b.
Proof. destruct a, b; naive_solver. Qed.

Definition qmean (l : list dec) (n : Z) : Q := (qsum l / inject_Z n)%Q.

(** A value with 41 digits before the point and 42 after it. *)
Definition average (v : Q) : Prop := rep 41 42 v /\ (0 < v)%Q.

Lemma qsum_rep l : Forall price l -> Z.of_nat (length l) <= 50 -> rep 42 40 (qsum l).
Proof.
  intros H Hn. assert (0 <= qsum l /\ qsum l <= inject_Z (Z.of_nat (length l)) * q10 40 /\ exists n, qsum l == inject_Z n * q10 (-40))%Q
    as (H0 & H1 & n & En).
  { clear Hn. induction H as [|d l [Rd Pd] _ (B0 & B1 & n & En)]; [by split_and!; [done|done|exists 0]|].
    cbn [qsum fold_right length]. fold (qsum l).
    pose proof (rep_lt _ _ _ Rd) as Hl. rewrite Qabs_pos in Hl by lra. destruct Rd as (_ & m & Em & _).
    rewrite Nat2Z.inj_succ. unfold Z.succ. rewrite inject_Z_plus, Qmult_plus_distr_l.
    change (inject_Z 1) with 1%Q. rewrite Qmult_1_l. split_and!; [lra|lra|].
    exists (m + n). rewrite Em, En, inject_Z_plus. change (q10 (- (40))) with (q10 (-40)). ring. }
  split; [lia|]. exists n. split; [done|]. rewrite Zle_Qle in Hn.
  apply (Qmult_le_compat_r _ _ (q10 40)) in Hn; [|by apply Qlt_le_weak].
  assert (inject_Z n * q10 (-40) < inject_Z (10 ^ 82) * q10 (-40))%Q as Hlt.
  { rewrite <- En. eapply Qle_lt_trans; [exact H1|]. eapply Qle_lt_trans; [exact Hn|]. reflexivity. }
  apply (proj1 (Qmult_lt_r _ _ _ (q10_pos (-40)))) in Hlt. rewrite <- Zlt_Qlt in Hlt.
  assert (0 <= n); [|simpl; lia]. apply Z.nlt_ge. intros Hneg. rewrite Zlt_Qlt in Hneg.
  apply (Qmult_lt_r _ _ (q10 (-40))) in Hneg; [|done]. change (inject_Z 0) with 0%Q in Hneg. rewrite Qmult_0_l, <- En in Hneg. lra.
Qed.

Lemma qsum_pos l : Forall price l -> l <> [] -> (0 < qsum l)%Q.
Proof.
  assert (forall l, Forall price l -> 0 <= qsum l)%Q as H0.
  { induction 1 as [|d m [_ Pd] _ IH]; [done|]. cbn [qsum fold_right]. fold (qsum m). lra. }
  intros H Hne. destruct H as [|d m [_ Pd] Hm]; [done|]. cbn [qsum fold_right]. fold (qsum m). specialize (H0 m Hm). lra.
Qed.

(** Dividing by 20 or 50 is a multiplication by 5 or 2 and a shift. *)
Lemma mean_exact l n k : Forall price l -> Z.of_nat (length l) = n -> n * k = 100 -> 1 <= k <= 9 -> n <= 50 ->
  exists d, ddiv FP (dsum FP dec0 l) (dec_of_Z n) = Ok d /\ (dval d == qmean l n)%Q /\ average (dval d).
Proof.
  intros H Hlen Hk Hk9 Hn. assert (0 < n) by nia.
  destruct (ddiv_pos_total (dsum FP dec0 l) (dec_of_Z n)) as [d E]; [by apply dec_of_Z_pos|]. exists d.
  split; [done|]. assert (dval (dsum FP dec0 l) == qsum l)%Q as Es by (apply dsum_prices; [done|lia]).
  pose proof (qsum_rep l H ltac:(lia)) as Rs.
  assert (rep (42 + 1 - 2) (40 + 0 + 2) (qmean l n)) as R.
  { assert (qmean l n == qsum l * inject_Z k / q10 2)%Q as ->.
    { change (q10 2) with (inject_Z 100). rewrite <- Hk, inject_Z_mult. unfold qmean.
      assert (~ inject_Z n == 0)%Q by (rewrite inject_Z_eq0; lia). assert (~ inject_Z k == 0)%Q by (rewrite inject_Z_eq0; lia).
      field. done. }
    apply rep_div10; [lia|]. apply rep_mult; [done|]. apply rep_Z; [lia|]. simpl. lia. }
  assert (dval (dsum FP dec0 l) / dval (dec_of_Z n) == qmean l n)%Q as Ev by by rewrite Es, dval_dec_of_Z.
  assert (dval d == qmean l n)%Q as V.
  { rewrite <- Ev. apply (ddiv_val (i:=41) (f:=42) (p:=FP)); try done. by rewrite Ev. }
  split; [done|]. unfold average. rewrite V. split; [exact R|]. unfold qmean. apply Qlt_shift_div_l.
  - change 0%Q with (inject_Z 0). by rewrite <- Zlt_Qlt.
  - rewrite Qmult_0_l. apply qsum_pos; [done|]. destruct l; [simpl in Hlen; lia|done].
Qed.

(** ** Comparing the rounded ratios *)

Lemma boundary_rep b : b = SPREAD_BOUNDARY \/ b = RANGE_SLOPE_BOUNDARY -> rep 1 4 (dval b) /\ rep 1 4 (- dval b).
Proof.
  assert (forall b, fits 1 4 b -> rep 1 4 (dval b) /\ rep 1 4 (- dval b)) as H
    by (intros b' Hf; split; [|apply rep_opp]; by apply rep_dval).
  intros [-> | ->]; apply H; split; vm_compute; congruence.
Qed.

Lemma ratio_compare a b v r w : rep 42 42 a -> average b -> (v == a / b)%Q -> faithful FP v r -> rep 1 4 w ->
  (w < dval r <-> w * b < a)%Q /\ (dval r < w <-> a < w * b)%Q.
Proof.
  intros Ra [Rb Pb] Ev F Rw. rewrite Ev in F.
  assert (rep 43 46 (a - w * b)) as R by apply (rep_minus _ _ _ _ _ _ Ra (rep_mult _ _ _ _ _ _ Rw Rb)).
  assert (0 < b < q10 41)%Q as Bb.
  { split; [done|]. pose proof (rep_lt _ _ _ Rb) as Hl. by rewrite Qabs_pos in Hl by lra. }
  split; [apply (quotient_gt (p:=FP) (i:=43) (f:=46) (iw:=1) (fw:=4) (j:=41))
         |apply (quotient_lt (p:=FP) (i:=43) (f:=46) (iw:=1) (fw:=4) (j:=41))]; done.
Qed.

(** [(x - y) / y], as the code computes it for the spread and the slope. *)
Lemma ratio_rules x y r b : average (dval x) -> average (dval y) -> ddiv FP (dsub FP x y) y = Ok r ->
  b = SPREAD_BOUNDARY \/ b = RANGE_SLOPE_BOUNDARY ->
  (dltb b r = true <-> dval b * dval y < dval x - dval y)%Q
  /\ (dltb r (dminus FP b) = true <-> dval x - dval y < - dval b * dval y)%Q
  /\ (dleb (dabs FP r) b = true <-> Qabs (dval x - dval y) <= dval b * dval y)%Q
  /\ (dltb dec0 r = true <-> dval y < dval x)%Q /\ (dltb r dec0 = true <-> dval x < dval y)%Q.
Proof.
  intros [Rx Px] [Ry Py] E Hb. destruct (boundary_rep b Hb) as [R1 R2].
  assert (rep 42 42 (dval x - dval y)) as Rd by apply (rep_minus _ _ _ _ _ _ Rx Ry).
  assert (dval (dsub FP x y) == dval x - dval y)%Q as Ed by by apply (dsub_val (i:=42) (f:=42)).
  apply ddiv_faithful in E; [|done]. rewrite Ed in E.
  assert (dval (dminus FP b) == - dval b)%Q as Em by by apply (dminus_val (i:=1) (f:=4)).
  pose proof (dabs_faithful FP _ _ ltac:(done) E) as Ea.
  assert (Qabs ((dval x - dval y) / dval y) == Qabs (dval x - dval y) / dval y)%Q as Eq.
  { unfold Qdiv. rewrite Qabs_Qmult, (Qabs_pos (/ dval y)); [done|]. apply Qlt_le_weak. by apply Qinv_lt_0_compat. }
  assert (rep 1 4 0) as R0 by by apply (rep_weaken 0 0 1 4 0 rep_0).
  rewrite !dltb_spec, dleb_spec, Em, dval_0.
  destruct (ratio_compare _ _ _ r _ Rd (conj Ry Py) (Qeq_refl _) E R1) as [H1 _].
  destruct (ratio_compare _ _ _ r _ Rd (conj Ry Py) (Qeq_refl _) E R2) as [_ H2].
  destruct (ratio_compare _ _ _ r _ Rd (conj Ry Py) (Qeq_refl _) E R0) as [H3 H4].
  destruct (ratio_compare _ _ _ (dabs FP r) _ (rep_abs _ _ _ Rd) (conj Ry Py) Eq Ea R1) as [H5 _].
  rewrite H1, H2, H3, H4. split_and!; [done|done| |split; intros; lra|split; intros; lra].
  split; intros H; apply Qnot_lt_le; intros Hlt; apply H5 in Hlt; lra.
Qed.

(** The code's rules on rounded ratios are the rules on the exact averages. *)
Lemma _classify_exact price fast slow previous spread slope :
  average (dval fast) -> average (dval slow) -> average (dval previous) ->
  ddiv FP (dsub FP fast slow) slow = Ok spread -> ddiv FP (dsub FP slow previous) previous = Ok slope ->
  let r := exact_regime (dval price) (dval fast) (dval slow) (dval previous) in
  _classify price fast slow spread slope = (r, reason_of r).
Proof.
  intros Hf Hs Hp E1 E2.
  destruct (ratio_rules _ _ _ _ Hf Hs E1 (or_introl eq_refl)) as (S1 & S2 & S3 & _).
  destruct (ratio_rules _ _ _ _ Hs Hp E2 (or_intror eq_refl)) as (_ & _ & L3 & L4 & L5).
  unfold _classify, exact_regime.
  assert (forall a b, dltb a b = Qltb (dval a) (dval b)) as Elt by (intros; apply bool_eq_iff; by rewrite dltb_spec, Qltb_spec).
  rewrite !(Elt price), !(Elt fast).
  assert (dltb SPREAD_BOUNDARY spread = Qltb ((2 # 1000) * dval slow) (dval fast - dval slow)) as ->
    by (apply bool_eq_iff; by rewrite S1, Qltb_spec).
  assert (dltb spread (dminus FP SPREAD_BOUNDARY) = Qltb (dval fast - dval slow) (- (2 # 1000) * dval slow)) as ->
    by (apply bool_eq_iff; by rewrite S2, Qltb_spec).
  assert (dltb dec0 slope = Qltb (dval previous) (dval slow)) as -> by (apply bool_eq_iff; by rewrite L4, Qltb_spec).
  assert (dltb slope dec0 = Qltb (dval slow) (dval previous)) as -> by (apply bool_eq_iff; by rewrite L5, Qltb_spec).
  assert (dleb (dabs FP spread) SPREAD_BOUNDARY = Qle_bool (Qabs (dval fast - dval slow)) ((2 # 1000) * dval slow)) as ->
    by (apply bool_eq_iff; by rewrite S3, Qle_bool_iff).
  assert (dleb (dabs FP slope) RANGE_SLOPE_BOUNDARY = Qle_bool (Qabs (dval slow - dval previous)) ((5 # 10000) * dval previous)) as ->
    by (apply bool_eq_iff; by rewrite L3, Qle_bool_iff).
  repeat case_match; done.
Qed.

#[export] Instance Qltb_proper : Proper (Qeq ==> Qeq ==> eq) Qltb.
Proof. intros a a' Ha b b' Hb. unfold Qltb. by rewrite Ha, Hb. Qed.

#[export] Instance exact_regime_proper : Proper (Qeq ==> Qeq ==> Qeq ==> Qeq ==> eq) exact_regime.
Proof. intros p p' Hp f f' Hf s s' Hs v v' Hv. unfold exact_regime. do 3 (rewrite ?Hp, ?Hf, ?Hs, ?Hv; case_match; [done|]). done. Qed.

(** ** What re-running the constructors can raise *)

Lemma history_loop_errors sym ivl d t prev l e :
  history_loop sym ivl d t prev l = Err e -> exn_cls e = BacktestContractError.
Proof. revert prev. induction l as [|c l IH]; intros prev; simpl; [done|]. repeat case_match; try naive_solver. Qed.

Lemma validate_history_errors l sym ivl d t e : interval_ms ivl = Some d ->
  _validate_history l sym ivl t = Err e -> exn_cls e = BacktestContractError.
Proof.
  intros Hi. unfold _validate_history. rewrite Hi. destruct (last l); [|naive_solver].
  destruct (history_loop _ _ _ _ _ _) as [|e'] eqn:E; simpl; [|intros [= <-]; by eapply history_loop_errors].
  case_match; naive_solver.
Qed.

Lemma replace_context_errors c e : replace_context c = Err e ->
  exn_cls e ∈ [TypeError; StrategyContractError; BacktestContractError].
Proof.
  assert (forall e', exn_cls e' = BacktestContractError -> exn_cls e' ∈ [TypeError; StrategyContractError; BacktestContractError])
    as Hb by (intros e' ->; in_list).
  unfold replace_context, identity_post_init, snapshot_post_init, context_post_init.
  case_match; simpl; [intros [= <-]; in_list|].
  case_match; simpl; [intros [= <-]; in_list|].
  destruct (_validate_history _ _ PRIMARY_INTERVAL _) eqn:E1; simpl; [|intros [= <-]; eapply Hb, validate_history_errors; [|exact E1]; reflexivity].
  destruct (_validate_history _ _ CONTEXT_INTERVAL _) eqn:E2; simpl; [|intros [= <-]; eapply Hb, validate_history_errors; [|exact E2]; reflexivity].
  destruct (_validate_history _ _ REGIME_INTERVAL _) eqn:E3; simpl; [|intros [= <-]; eapply Hb, validate_history_errors; [|exact E3]; reflexivity].
  case_match; [intros [= <-]; in_list|done].
Qed.

(** ** The classifier *)

Lemma removelast_Forall {A} (P : A -> Prop) l : Forall P l -> Forall P (removelast l).
Proof. induction 1 as [|x [|y l] Hx Hl IH]; [by apply Forall_nil|by apply Forall_nil|by apply Forall_cons]. Qed.
Lemma removelast_length {A} (l : list A) : length (removelast l) = (length l - 1)%nat.
Proof. induction l as [|x [|y l] IH]; [done|done|]. change (removelast (x :: y :: l)) with (x :: removelast (y :: l)). simpl in *. lia. Qed.

(** What the measured values are, in exact arithmetic. *)
Definition regime_spec (candles : list candle) (m : measure) : Prop :=
  exists cs price fast slow spread slope,
    Forall2 (fun c d => Decimal (close c) = Ok d) (lastn WARMUP candles) cs /\ last cs = Some price
    /\ m = Measure (exact_regime (dval price) (qmean (lastn FAST_PERIOD cs) FAST_PERIOD) (qmean (lastn SLOW_PERIOD cs) SLOW_PERIOD)
                     (qmean (removelast cs) SLOW_PERIOD))
             (reason_of (mr_regime m)) (Some fast) (Some slow) (Some spread) (Some slope)
    /\ (dval fast == qmean (lastn FAST_PERIOD cs) FAST_PERIOD)%Q
    /\ (dval slow == qmean (lastn SLOW_PERIOD cs) SLOW_PERIOD)%Q.

Lemma measure_spec c : context_valid c -> candles_valid (sc_snapshot c) ->
  WARMUP <= Z.of_nat (length (regime (sc_snapshot c))) ->
  exists m, _measure c = Ok m /\ regime_spec (regime (sc_snapshot c)) m.
Proof.
  intros Hc (_ & _ & Hv) Hn. unfold _measure. apply replace_context_valid in Hc. rewrite Hc. simpl.
  set (l := regime (sc_snapshot c)) in *. replace (Z.of_nat (length l) <? WARMUP) with false by lia.
  destruct (rmap_prices close (lastn WARMUP l) close_price (lastn_Forall _ _ _ Hv)) as (cs & Ec & Fc & Pc).
  unfold closes. rewrite Ec. simpl.
  assert (Z.of_nat (length cs) = WARMUP) as Hlen.
  { rewrite <- (Forall2_length _ _ _ Fc). apply length_lastn. unfold WARMUP in *. lia. }
  unfold WARMUP, FAST_PERIOD, SLOW_PERIOD in *.
  destruct (mean_exact (lastn 20 cs) 20 5) as (fast & Ef & Vf & Af); [by apply lastn_Forall|apply length_lastn; lia|done|done|done|].
  destruct (mean_exact (lastn 50 cs) 50 2) as (slow & Es & Vs & As); [by apply lastn_Forall|apply length_lastn; lia|done|done|done|].
  destruct (mean_exact (removelast cs) 50 2) as (prev & Ep & Vp & Ap);
    [by apply removelast_Forall|rewrite removelast_length; lia|done|done|done|].
  rewrite Ef, Es, Ep. simpl.
  destruct (ddiv_pos_total (dsub FP fast slow) slow (proj2 As)) as [spread E1]. rewrite E1. simpl.
  destruct (ddiv_pos_total (dsub FP slow prev) prev (proj2 Ap)) as [slope E2]. rewrite E2. simpl.
  destruct (last_some cs) as (price & El & _); [by destruct cs|]. rewrite El. simpl.
  eexists. split; [reflexivity|]. rewrite (_classify_exact price fast slow prev spread slope Af As Ap E1 E2). simpl.
  exists cs, price, fast, slow, spread, slope. rewrite Vf, Vs, Vp. done.
Qed.

(** C12. The regime of a snapshot.  A context that fails its constructors is a
    RegimeError.  A valid one is always classified: with fewer than 51 closed 4h
    candles as UNKNOWN with no averages, and otherwise exactly by the rules on
    the rational averages of the last 20 and 50 closes and of the 50 before the
    last - the decimal roundings of the spread and the slope never move a
    snapshot across a boundary - with averages that are the exact means. *)
Theorem regime_exact c :
  (~ context_valid c -> exists msg, classify_regime c = Err (Raise RegimeError msg))
  /\ (context_valid c -> candles_valid (sc_snapshot c) ->
      exists r, classify_regime c = Ok r /\ rr_context r = c
        /\ (Z.of_nat (length (regime (sc_snapshot c))) < WARMUP ->
              result_measure r = Measure UNKNOWN RG_INSUFFICIENT_HISTORY None None None None)
        /\ (WARMUP <= Z.of_nat (length (regime (sc_snapshot c))) -> regime_spec (regime (sc_snapshot c)) (result_measure r))).
Proof.
  split.
  - intros Hc. rewrite classify_measure. unfold _measure. destruct (replace_context c) as [[]|e] eqn:E.
    + by apply replace_context_valid in E.
    + simpl. rewrite bool_decide_true by by eapply replace_context_errors. eauto.
  - intros Hc Hv. rewrite classify_measure. destruct (Z.lt_ge_cases (Z.of_nat (length (regime (sc_snapshot c)))) WARMUP) as [Hn|Hn].
    + unfold _measure. apply replace_context_valid in Hc. rewrite Hc. simpl.
      replace (Z.of_nat (length (regime (sc_snapshot c))) <? WARMUP) with true by lia. simpl.
      eexists. split_and!; [reflexivity|done|done|]. intros. lia.
    + destruct (measure_spec c Hc Hv Hn) as (m & Em & Hm). rewrite Em. simpl.
      eexists. split_and!; [reflexivity|done|intros; lia|]. by destruct m.
Qed.

(** ** A concrete context: a rising market of 51 closed 4h candles *)

Lemma candles_valid_bool s :
  forallb (fun c => is_ok (candle_post_init c)) (primary s ++ context s ++ regime s) = true -> candles_valid s.
Proof.
  rewrite !forallb_app, !andb_true_iff, !forallb_Forall. intros (H1 & H2 & H3).
  assert (forall l, Forall (fun c => is_ok (candle_post_init c) = true) l -> Forall candle_valid l) as H.
  { intros l Hl. eapply Forall_impl; [exact Hl|]. intros c. unfold candle_valid. simpl. by destruct (candle_post_init c) as [[]|]. }
  split_and!; by apply H.
Qed.

(** [n] candles ending at [t] with the given open, high, low and close. *)
Definition sample_bars (ivl : string) (d t : Z) (n : nat) (bar : nat -> (Z * Z) * (Z * Z)) : list candle :=
  map (fun i => let o := t - Z.of_nat (n - i) * d in
    let v z := format_f (dec_of_Z z) in
    match bar i with ((op, hi), (lo, cl)) => Candle DATA_SOURCE "BTCUSDT" ivl o (o + d - 1) (v op) (v hi) (v lo) (v cl) "10" "1000" 5 true end)
  (seq 0 n).
Definition rising (i : nat) : (Z * Z) * (Z * Z) :=
  let k := Z.of_nat i * 10 + 1000 in ((k, k + 30), (k - 20, k + 5)).
Definition sample_time : Z := 100 * 4 * HOUR_MS.
Definition sample_snapshot (primary_bars : nat) : market_snapshot :=
  MarketSnapshot "BTCUSDT" sample_time (sample_bars "1h" HOUR_MS sample_time primary_bars rising)
    (sample_bars "15m" (15 * 60 * 1000) sample_time 2 rising) (sample_bars "4h" (4 * HOUR_MS) sample_time 51 rising).
Definition sample_context (id : strategy_identity) (primary_bars : nat) : strategy_context :=
  new_context_default id (sample_snapshot primary_bars).

Lemma regime_exact_witness : exists r,
  classify_regime (sample_context (StrategyIdentity "TREND_PULLBACK" "1.0.0") 1) = Ok r
  /\ regime_spec (regime (sample_snapshot 1)) (result_measure r).
Proof.
  destruct (proj2 (regime_exact (sample_context (StrategyIdentity "TREND_PULLBACK" "1.0.0") 1))) as (r & E & _ & _ & H).
  - split; [|split]; vm_compute; reflexivity.
  - apply candles_valid_bool. vm_compute. reflexivity.
  - exists r. split; [exact E|]. apply H. vm_compute. congruence.
Defined.

Example sample_regime_up :
  match classify_regime (sample_context (StrategyIdentity "TREND_PULLBACK" "1.0.0") 1) with
  | Ok r => rr_regime r = TREND_UP | Err _ => False end.
Proof. vm_compute. reflexivity. Qed.
