(* ===== verification/Trend.v ===== *)
(** * Trend-pullback candidate (yatl/strategy/trend.py)

    The long-only rules on a validated context: regime gate, pullback to the
    20-bar average, 15m confirmation and the levels of the setup.  The fixed
    parameter values are written out; the registry that validates them is not
    part of this file. *)
From S2P Require Import Prelude PyDecimal PyText Digest Market BacktestConfig MarketView Fills Costs StrategyContracts Features Regime.

(** [value.quantize(Decimal("1e-40"))] when it has more than 40 decimals, then
    the plain text without trailing zeros; [p] is the context's precision. *)
Definition _plain (p : N) (value : dec) : result string :=
  let* value := if dexp value <? -40 then dquantize p (-40) value else Ok value in
  Ok (plain_text value).

(** The value of a feature in a comparison or an operation: [None] raises. *)
Definition feature_value (f : feature_result) : result dec :=
  match fvalue f with Some v => Ok v | None => Err (Raise TypeError "NoneType") end.

(** [context[-2:]] of at least two bars. *)
Definition last_two (l : list candle) : result (candle * candle) :=
  match rev l with b :: a :: _ => Ok (a, b) | _ => Err (Raise TypeError "not enough values to unpack") end.

(** The latest 15m bar closes above its open and above the previous close. *)
Definition confirmation (l : list candle) : result bool :=
  let* ab := last_two l in
  let* c := Decimal (close (snd ab)) in
  let* o := Decimal (open (snd ab)) in
  let* pc := Decimal (close (fst ab)) in
  Ok (dltb o c && dltb pc c).

(** Invalidation, risk and target below and above a close, in the 256-digit
    context; [None] when the levels leave no trade. *)
Definition setup_levels (base volatility close_ stop_atr_fraction reward_risk : dec) : result (option (dec * dec)) :=
  let raw_invalidation := dsub FP base (dmul FP volatility stop_atr_fraction) in
  let* text := _plain FP raw_invalidation in
  let* invalidation := Decimal text in
  let risk := dsub FP close_ invalidation in
  let target := dadd FP close_ (dmul FP risk reward_risk) in
  if dleb invalidation dec0 || dleb risk dec0 then Ok None else Ok (Some (invalidation, target)).

Definition enter (c : strategy_context) (reason : decision_reason) (close_ invalidation target : dec) : result strategy_decision :=
  let* r := _plain default_prec close_ in
  let* i := _plain default_prec invalidation in
  let* t := _plain default_prec target in
  let* setup := new_setup (LongSetup r i t) in
  new_decision (StrategyDecision c SEnterLong reason (Some setup)).

Definition _no_trade (c : strategy_context) (reason : decision_reason) : result strategy_decision :=
  new_decision (StrategyDecision c SNoTrade reason None).

(** The checks both candidates make, with their own error. *)
Definition validated (id : strategy_identity) (state_error context_error : exn)
    (c : strategy_context) (in_position : bool) (active_setup : option long_setup) : result unit :=
  if negb (bool_decide (identity c = id)) || (in_position && opt_is_none active_setup)
     || (negb in_position && negb (opt_is_none active_setup)) then Err state_error
  else
    rcatch (do* replace_context c ;;
            match active_setup with Some s => setup_post_init s | None => Ok tt end)
      [BacktestContractError; StrategyContractError; TypeError] context_error.

(** [Decimal(active_setup.invalidation_price)] *)
Definition setup_invalidation (s : option long_setup) : result dec :=
  match s with Some s => Decimal (invalidation_price s) | None => Err (Raise TypeError "NoneType") end.

Definition TREND_IDENTITY : strategy_identity := StrategyIdentity "TREND_PULLBACK" "1.0.0".
Definition T_atr_period : Z := 14.
Definition T_primary_sma_period : Z := 20.
Definition T_pullback_lookback : Z := 3.
Definition T_reward_risk : string := "2".
Definition T_stop_atr_fraction : string := "0.25".

Definition _validated_trend := validated TREND_IDENTITY
  (Raise TrendStrategyError "Trend-pullback state or identity is invalid")
  (Raise TrendStrategyError "Trend-pullback context failed validation").

Definition trend_levels (c : strategy_context) (close_ : dec) : result strategy_decision :=
  let t := sc_decision_time_ms c in
  let bars := primary (sc_snapshot c) in
  let* vl := rcatch (let* volatility := atr bars T_atr_period t in
                     let* recent_low := rolling_low bars T_pullback_lookback t in
                     Ok (volatility, recent_low))
               [FeatureError] (Raise TrendStrategyError "Trend-pullback level evaluation failed") in
  if negb (available (fst vl)) || negb (available (snd vl)) then _no_trade c R_INSUFFICIENT_HISTORY
  else
    let* volatility := feature_value (fst vl) in
    let* recent_low := feature_value (snd vl) in
    let* fraction := Decimal T_stop_atr_fraction in
    let* reward := Decimal T_reward_risk in
    let* levels := setup_levels recent_low volatility close_ fraction reward in
    match levels with
    | None => _no_trade c SETUP_ABSENT
    | Some (invalidation, target) => enter c TREND_PULLBACK_ENTRY close_ invalidation target
    end.

Definition evaluate_trend_pullback (c : strategy_context) (in_position : bool) (active_setup : option long_setup)
    : result strategy_decision :=
  do* _validated_trend c in_position active_setup ;;
  let* ra := rcatch (let* r := classify_regime c in
                     let* average := sma (primary (sc_snapshot c)) T_primary_sma_period (sc_decision_time_ms c) in
                     Ok (r, average))
               [RegimeError; FeatureError] (Raise TrendStrategyError "Trend-pullback feature evaluation failed") in
  let r := fst ra in let average := snd ra in
  if bool_decide (rr_reason r = RG_INSUFFICIENT_HISTORY) || negb (available average)
     || (Z.of_nat (length (context (sc_snapshot c))) <? 2)
  then _no_trade c R_INSUFFICIENT_HISTORY
  else
    let* latest := latest_primary (sc_snapshot c) in
    let* close_ := Decimal (close latest) in
    let* average := feature_value average in
    if in_position then
      let* invalidation := setup_invalidation active_setup in
      if dleb close_ invalidation || negb (bool_decide (rr_regime r = TREND_UP)) || dltb close_ average
      then new_decision (StrategyDecision c SExitLong STRATEGY_EXIT None)
      else _no_trade c HOLD_POSITION
    else if bool_decide (rr_regime r = UNKNOWN) then _no_trade c REGIME_UNKNOWN
    else if negb (bool_decide (rr_regime r = TREND_UP)) then _no_trade c REGIME_BLOCKED
    else
      let* low_ := Decimal (low latest) in
      if dltb average low_ || dleb close_ average then _no_trade c SETUP_ABSENT
      else
        let* confirmed := confirmation (context (sc_snapshot c)) in
        if negb confirmed then _no_trade c CONFIRMATION_FAILED
        else trend_levels c close_.

(** A pullback: flat hourly bars, the last one dips and closes above. *)
Definition pullback (n : nat) (i : nat) : (Z * Z) * (Z * Z) :=
  if Nat.eqb (S i) n then ((1000, 1030), (970, 1020)) else ((1000, 1030), (980, 1005)).
Definition pullback_context : strategy_context :=
  new_context_default TREND_IDENTITY
    (MarketSnapshot "BTCUSDT" sample_time (sample_bars "1h" HOUR_MS sample_time 25 (pullback 25))
       (sample_bars "15m" (15 * 60 * 1000) sample_time 2 rising) (sample_bars "4h" (4 * HOUR_MS) sample_time 51 rising)).

Example sample_trend_entry :
  match evaluate_trend_pullback pullback_context false None with
  | Ok d => Some (sd_action d, sd_setup d) | Err _ => None end
  = Some (SEnterLong, Some (LongSetup "1020" "957.3214285714285714285714285714285714285714" "1145.3571428571428571428571428571428571428572")).
Proof. vm_compute. reflexivity. Qed.

(** * Properties *)

(** ** Plain texts *)

Lemma _plain_exact p v : -40 <= dexp v <= 0 -> exists d, _plain p v = Ok (format_f d)
  /\ dneg d = dneg v /\ (dval d == dval v)%Q /\ -40 <= dexp d <= 0.
Proof.
  intros He. unfold _plain. replace (dexp v <? -40) with false by lia. simpl.
  destruct (plain_text_spec v) as (d & E & Hn & Hv & Hd). exists d. rewrite E. split_and!; [done|done|done|lia|lia].
Qed.

(** Rounding to 40 decimals never crosses a number of 40 decimals. *)
Lemma _plain_rounds p v : 82 <= Z.of_N p -> (Qabs (dval v) <= q10 41)%Q -> exists d, _plain p v = Ok (format_f d)
  /\ dneg d = dneg v /\ -40 <= dexp d <= 0 /\ (Qabs (dval d) <= q10 41)%Q
  /\ forall n, ((dval v <= inject_Z n * q10 (-40))%Q -> (dval d <= inject_Z n * q10 (-40))%Q)
               /\ ((inject_Z n * q10 (-40) <= dval v)%Q -> (inject_Z n * q10 (-40) <= dval d)%Q).
Proof.
  intros Hp Hv. unfold _plain. destruct (Z.ltb_spec (dexp v) (-40)) as [He|He]; cbn [rbind].
  - destruct (dquantize_total p (-40) v 41 He) as (v' & E & Hb); [lia|lia|lia|done|]. rewrite E. cbn [rbind].
    destruct (dquantize_between _ _ _ _ He E) as (E1 & E2 & E3 & E4).
    destruct (plain_text_spec v') as (d & Ed & Hn & Hd & Hx). exists d. rewrite Ed, Hn.
    do 2 (split; [done|]). split; [lia|]. split; [by rewrite Hd|intros n; rewrite Hd; auto].
  - destruct (plain_text_spec v) as (d & Ed & Hn & Hd & Hx). exists d. rewrite Ed, Hn.
    do 2 (split; [done|]). split; [lia|]. split; [by rewrite Hd|intros n; rewrite Hd; auto].
Qed.

Lemma rep_units i v : rep i 40 v -> exists n, (v == inject_Z n * q10 (-40))%Q.
Proof. intros (_ & n & H & _). by exists n. Qed.

Lemma dneg_pos d : (0 < dval d)%Q -> dneg d = false.
Proof.
  destruct d as [[] c e]; [|done]. intros H. exfalso. rewrite dval_sign in H. cbn [qsign] in H.
  assert (0 <= inject_Z (Z.of_N c) * q10 e)%Q; [|lra]. apply Qmult_le_0_compat; [|by apply Qlt_le_weak].
  change 0%Q with (inject_Z 0). rewrite <- Zle_Qle. lia.
Qed.

Lemma amount_fits s d : positive_amount s d -> fits 40 40 d /\ -40 <= dexp d <= 0 /\ (0 < dval d)%Q /\ rep 40 40 (dval d).
Proof. intros [(_ & (_ & He & Hf) & _) Hp]. split_and!; [done|lia|lia|done|by apply rep_dval]. Qed.

(** ** The levels of a setup *)

(** [q] is [v] at 40 decimals: a number of 40 decimals, with no other such number
    between it and [v]. *)
Definition at_40_decimals (v q : Q) : Prop :=
  (exists n, (q == inject_Z n * q10 (-40))%Q)
  /\ forall n, ((v <= inject_Z n * q10 (-40))%Q -> (q <= inject_Z n * q10 (-40))%Q)
             /\ ((inject_Z n * q10 (-40) <= v)%Q -> (inject_Z n * q10 (-40) <= q)%Q).

(** The exact relation between the levels: the target lies over the close by twice
    what the invalidation lies under it. *)
Record levels_ok (close_ invalidation target : dec) : Prop := {
  lo_positive : (0 < dval invalidation)%Q;
  lo_risk : (dval invalidation < dval close_)%Q;
  lo_reward : (dval target == dval close_ + 2 * (dval close_ - dval invalidation))%Q;
  lo_inv_digits : -40 <= dexp invalidation <= 0;
  lo_target_digits : -40 <= dexp target <= 0;
}.

Lemma raw_invalidation_bounds base volatility fraction :
  rep 40 40 (dval base) -> (0 < dval base)%Q -> (0 <= dval volatility)%Q -> below volatility -> (dval fraction == 1 # 4)%Q ->
  let raw := dsub FP base (dmul FP volatility fraction) in
  (Qabs (dval raw) <= q10 41)%Q
  /\ forall n, ((dval base - dval volatility * (1 # 4) <= inject_Z n * q10 (-40))%Q -> (dval raw <= inject_Z n * q10 (-40))%Q)
             /\ ((inject_Z n * q10 (-40) <= dval base - dval volatility * (1 # 4))%Q -> (inject_Z n * q10 (-40) <= dval raw)%Q).
Proof.
  intros Rb Pb Hv0 Hv1 Hf raw.
  pose proof (dmul_faithful FP volatility fraction ltac:(done)) as Fm. rewrite Hf in Fm.
  assert (0 <= dval (dmul FP volatility fraction))%Q as M0 by (eapply faithful_nonneg; [exact Fm|lra]).
  assert (rep 46 0 (q10 40)) as R40 by (apply rep_q10; lia). unfold below in Hv1.
  assert (dval (dmul FP volatility fraction) <= q10 40)%Q as M1.
  { apply (faithful_upper 46 0 (q10 40) FP _ _ R40 ltac:(done) Fm). lra. }
  pose proof (dsub_faithful FP base (dmul FP volatility fraction) ltac:(done)) as Fs. fold raw in Fs.
  assert (dval raw <= dval base)%Q as B1 by (apply (faithful_upper 40 40 _ FP _ _ Rb ltac:(done) Fs); lra).
  assert (- q10 40 <= dval raw)%Q as B2.
  { apply (faithful_lower 46 0 (- q10 40) FP _ raw (rep_opp _ _ _ R40) ltac:(done) Fs). lra. }
  pose proof (rep_lt _ _ _ Rb) as Bb. rewrite Qabs_pos in Bb by lra. pose proof (q10_pos 40).
  assert (q10 41 == 10 * q10 40)%Q as E by reflexivity. split; [apply Qabs_Qle_condition; rewrite E; lra|]. intros n.
  destruct (Z.lt_ge_cases (Z.abs n) (10 ^ 82)) as [Hn|Hn].
  - assert (rep 42 40 (inject_Z n * q10 (-40))) as Rn.
    { split; [done|]. exists n. split; [reflexivity|]. change (42 + 40) with 82. exact Hn. }
    assert (rep 43 40 (dval base - inject_Z n * q10 (-40))) as Rd by exact (rep_minus _ _ _ _ _ _ Rb Rn). split; intros Hx.
    + apply (faithful_upper 42 40 _ FP _ _ Rn ltac:(done) Fs).
      assert (dval base - inject_Z n * q10 (-40) <= dval (dmul FP volatility fraction))%Q; [|lra].
      apply (faithful_lower 43 40 _ FP _ _ Rd ltac:(done) Fm). lra.
    + apply (faithful_lower 42 40 _ FP _ _ Rn ltac:(done) Fs).
      assert (dval (dmul FP volatility fraction) <= dval base - inject_Z n * q10 (-40))%Q; [|lra].
      apply (faithful_upper 43 40 _ FP _ _ Rd ltac:(done) Fm). lra.
  - assert (q10 42 <= Qabs (inject_Z n * q10 (-40)))%Q as Hbig.
    { rewrite Qabs_Qmult, (Qabs_pos (q10 (-40))) by by apply Qlt_le_weak, q10_pos.
      assert (q10 42 == inject_Z (10 ^ 82) * q10 (-40))%Q as -> by reflexivity. apply Qmult_le_compat_r; [|by apply Qlt_le_weak, q10_pos].
      change (Qabs (inject_Z n)) with (inject_Z (Z.abs n)). by rewrite <- Zle_Qle. }
    assert (q10 42 == 100 * q10 40)%Q as E2 by (apply Qeq_bool_iff; vm_compute; reflexivity). rewrite E2 in Hbig. split; intros Hx.
    + destruct (Qlt_le_dec (inject_Z n * q10 (-40)) 0) as [Hs|Hs]; [rewrite Qabs_neg in Hbig by lra|rewrite Qabs_pos in Hbig by lra]; lra.
    + destruct (Qlt_le_dec (inject_Z n * q10 (-40)) 0) as [Hs|Hs]; [rewrite Qabs_neg in Hbig by lra|rewrite Qabs_pos in Hbig by lra]; lra.
Qed.

Lemma setup_levels_spec base volatility close_ fraction reward sb sc :
  positive_amount sb base -> positive_amount sc close_ -> (0 <= dval volatility)%Q -> below volatility ->
  (dval fraction == 1 # 4)%Q -> reward = dec_of_Z 2 ->
  exists i o, setup_levels base volatility close_ fraction reward = Ok o /\ at_40_decimals (dval base - dval volatility * (1 # 4)) (dval i)
    /\ ((dval i <= 0 \/ dval close_ <= dval i)%Q -> o = None)
    /\ ((0 < dval i)%Q -> (dval i < dval close_)%Q -> exists t, o = Some (i, t) /\ levels_ok close_ i t).
Proof.
  intros Hb Hc Hv0 Hv1 Hf ->. destruct (amount_fits _ _ Hb) as (_ & _ & Pb & Rb). destruct (amount_fits _ _ Hc) as (Fc & Ec & Pc & Rc).
  destruct (raw_invalidation_bounds base volatility fraction Rb Pb Hv0 Hv1 Hf) as [B2 B1].
  unfold setup_levels. set (raw := dsub FP base (dmul FP volatility fraction)) in *.
  destruct (_plain_rounds FP raw ltac:(done) B2) as (i & Ei & _ & Xi & Bi & Hi). rewrite Ei. simpl.
  rewrite Decimal_format by lia. simpl.
  assert (fits 42 40 i) as Fi.
  { apply fits_of_val; [lia|lia|]. eapply Qle_lt_trans; [exact Bi|]. reflexivity. }
  assert (dsub FP close_ i = dadd_exact close_ (dcopy_negate i)) as Er by (eapply (dadd_eq FP 40 40 42 40); done).
  assert (fits 43 40 (dsub FP close_ i)) as Fr.
  { rewrite Er. apply (fits_add 40 40 42 40 close_ (dcopy_negate i) Fc). by apply fits_copy_negate. }
  assert (fits 1 0 (dec_of_Z 2)) as F2 by (split; vm_compute; congruence).
  assert (dmul FP (dsub FP close_ i) (dec_of_Z 2) = dmul_exact (dsub FP close_ i) (dec_of_Z 2)) as Em by (eapply (dmul_eq FP 43 40 1 0); done).
  pose proof (fits_mul _ _ _ _ _ _ Fr F2) as Fm. rewrite <- Em in Fm.
  assert (dadd FP close_ (dmul FP (dsub FP close_ i) (dec_of_Z 2))
          = dadd_exact close_ (dmul FP (dsub FP close_ i) (dec_of_Z 2))) as Et by (eapply (dadd_eq FP 40 40 44 40); done).
  assert (dval (dsub FP close_ i) == dval close_ - dval i)%Q as Vr by (rewrite Er, dval_add_exact, dval_copy_negate; ring).
  assert (-40 <= dexp (dsub FP close_ i) <= 0) as Xr by (rewrite Er; simpl; lia).
  exists i, (if dleb i dec0 || dleb (dsub FP close_ i) dec0 then None else Some (i, dadd FP close_ (dmul FP (dsub FP close_ i) (dec_of_Z 2)))).
  split; [by destruct (_ || _)|]. split; [split|].
  - exact (rep_units _ _ (rep_dval _ _ _ Fi)).
  - intros n. destruct (B1 n) as [U1 U2], (Hi n) as [V1 V2]. split; intros Hx; [apply V1, U1, Hx|apply V2, U2, Hx].
  - assert (dleb i dec0 || dleb (dsub FP close_ i) dec0 = true <-> (dval i <= 0 \/ dval close_ <= dval i)%Q) as Hg.
    { rewrite orb_true_iff, !dleb_spec, dval_0, Vr. split; (intros [?|?]; [by left|right; lra]). }
    split.
    + intros Hx. apply Hg in Hx. by rewrite Hx.
    + intros P1 P2. destruct (_ || _) eqn:Eg; [exfalso; destruct (proj1 Hg eq_refl); lra|]. eexists. split; [reflexivity|]. constructor.
      * done.
      * done.
      * rewrite Et, dval_add_exact, Em, dval_mul_exact, Vr, dval_dec_of_Z. ring.
      * done.
      * rewrite Et, Em. simpl. lia.
Qed.

(** What the texts of a setup denote. *)
Definition setup_denotes (s : long_setup) (reference invalidation target : Q) : Prop :=
  exists r i t, denotes (setup_reference_price s) r /\ denotes (invalidation_price s) i /\ denotes (setup_target_price s) t
    /\ (dval r == reference)%Q /\ (dval i == invalidation)%Q /\ (dval t == target)%Q.

Lemma denotes_format d : (0 < dval d)%Q -> -40 <= dexp d <= 0 -> (dval d < q10 40)%Q -> denotes (format_f d) d.
Proof.
  intros Hp He Hv. split; [apply Decimal_format; lia|]. split; [|done]. split; [by apply dneg_pos|]. split; [done|].
  apply fits_of_val; [lia|lia|]. by rewrite Qabs_pos by lra.
Qed.

Lemma _positive_large d field : -40 <= dexp d <= 0 -> (q10 40 <= dval d)%Q ->
  exists m, _positive (format_f d) field = Err (Raise StrategyContractError m).
Proof.
  intros He Hv. unfold _positive. destruct (decimal_pattern (format_f d)) eqn:E; [|by eexists]. exfalso.
  destruct (decimal_pattern_spec _ E) as (d' & E1 & (_ & _ & Hf) & _). rewrite Decimal_format in E1 by lia. injection E1 as <-.
  apply fits_abs_val in Hf. pose proof (Qle_Qabs (dval d)). lra.
Qed.

(** An entry either carries exactly the levels, or - when the target needs more
    than 40 digits before the point - the setup's constructor refuses it. *)
Lemma enter_spec c reason close_ i t sc : reason ∈ ENTRY_REASONS -> positive_amount sc close_ -> levels_ok close_ i t ->
  ((dval t < q10 40)%Q -> exists s, enter c reason close_ i t = Ok (StrategyDecision c SEnterLong reason (Some s))
     /\ setup_valid s /\ setup_denotes s (dval close_) (dval i) (dval t))
  /\ ((q10 40 <= dval t)%Q -> exists m, enter c reason close_ i t = Err (Raise StrategyContractError m)).
Proof.
  intros Hreason Hc [H1 H3 H4 H5 H6]. destruct (amount_fits _ _ Hc) as (Fc & Ec & Pc & Rc).
  pose proof (rep_lt _ _ _ Rc) as Lc. rewrite Qabs_pos in Lc by lra.
  unfold enter. destruct (_plain_exact default_prec close_ Ec) as (r' & Er & _ & Vr & Xr).
  destruct (_plain_exact default_prec i H5) as (i' & Ei & _ & Vi & Xi).
  destruct (_plain_exact default_prec t H6) as (t' & Et & _ & Vt & Xt).
  rewrite Er, Ei, Et. simpl.
  assert (denotes (format_f r') r') as Dr by (apply denotes_format; [rewrite Vr|done|rewrite Vr]; lra).
  assert (denotes (format_f i') i') as Di by (apply denotes_format; [rewrite Vi|done|rewrite Vi]; lra).
  split; intros Ht.
  - assert (denotes (format_f t') t') as Dt by (apply denotes_format; [rewrite Vt; clear -H1 H3 H4 Pc; lra|done|by rewrite Vt]).
    assert (setup_valid (LongSetup (format_f r') (format_f i') (format_f t'))) as Hs.
    { apply setup_valid_spec. exists r', i', t'. do 3 (split; [done|]). rewrite Vr, Vi, Vt. lra. }
    eexists. unfold new_setup. rewrite Hs. simpl. split; [|split; [exact Hs|exists r', i', t'; done]].
    unfold new_decision, decision_post_init. simpl. by rewrite bool_decide_true.
  - unfold new_setup, setup_post_init. simpl.
    rewrite (proj2 (_positive_spec (format_f r') "reference_price" r')) by (split; [done|rewrite Vr; lra]). simpl.
    rewrite (proj2 (_positive_spec (format_f i') "invalidation_price" i')) by (split; [done|rewrite Vi; lra]). simpl.
    destruct (_positive_large t' "target_price" Xt ltac:(by rewrite Vt)) as (m & Em). rewrite Em. by eexists.
Qed.

(** ** Features of a validated context *)

Lemma snapshot_series s : snapshot_valid s -> candles_valid s -> Z.of_nat (length (primary s)) <= MAX_FEATURE_CANDLES ->
  series_ok (ms_decision_time_ms s) (primary s).
Proof.
  intros Hs (Hv & _) Hn. apply snapshot_valid_facts in Hs as (H0 & _ & [Hh (d & newest & Hi & Hl & _ & Ho)] & _ & _).
  constructor; [done|done|done|]. destruct (primary s) as [|c l]; [done|].
  exists (ms_symbol s), PRIMARY_INTERVAL, d, (open_time_ms c). done.
Qed.

Lemma feature_cases name extra compute l period t (P : dec -> Prop) : name <> ""%string -> 0 <= extra ->
  series_ok t l -> 1 <= period <= MAX_FEATURE_PERIOD ->
  (period + extra <= Z.of_nat (length l) -> exists v, compute period l = Ok v /\ P v) ->
  exists f, feature name extra compute l period t = Ok f
    /\ ((available f = false /\ Z.of_nat (length l) < period + extra)
        \/ (available f = true /\ period + extra <= Z.of_nat (length l) /\ exists v, fvalue f = Some v /\ P v)).
Proof.
  intros Hname He Hs Hp H. destruct (Z.lt_ge_cases (Z.of_nat (length l)) (period + extra)) as [Hn|Hn].
  - eexists. split; [by apply feature_waiting|]. by left.
  - destruct (H Hn) as (v & Ev & Pv). eexists. split; [by eapply feature_ready|]. right. split; [done|]. split; [done|]. by exists v.
Qed.

(** The values of a ready window, as the strategies use them. *)
Definition window_low (l : list candle) (period : Z) (v : dec) : Prop :=
  (exists s, positive_amount s v)
  /\ Forall (fun c => exists x, Decimal (low c) = Ok x /\ (dval v <= dval x)%Q) (lastn period l).
Definition window_high (l : list candle) (period : Z) (v : dec) : Prop :=
  (exists s, positive_amount s v)
  /\ Forall (fun c => exists x, Decimal (high c) = Ok x /\ (dval x <= dval v)%Q) (lastn period l).

Lemma extreme_amount (sel : candle -> string) (pick : list dec -> result dec) l :
  (forall c, candle_valid c -> exists d, positive_amount (sel c) d) -> Forall candle_valid l -> l <> [] ->
  (forall ds, ds <> [] -> exists d, pick ds = Ok d /\ d ∈ ds) ->
  exists ds d, rmap (fun c => Decimal (sel c)) l = Ok ds /\ pick ds = Ok d /\ d ∈ ds
    /\ Forall2 (fun c x => Decimal (sel c) = Ok x) l ds /\ exists s, positive_amount s d.
Proof.
  intros Hsel Hl Hne Hpick.
  destruct (rmap_Forall2 (fun c => Decimal (sel c)) (fun c d => positive_amount (sel c) d) l) as (ds & E & H).
  { eapply Forall_impl; [exact Hl|]. intros c Hc. destruct (Hsel c Hc) as (d & Hd). exists d. split; [apply Hd|done]. }
  destruct (Hpick ds) as (d & Ed & Hd); [by eapply Forall2_nonempty|]. exists ds, d.
  split; [done|]. split; [done|]. split; [done|].
  split; [eapply Forall2_impl; [exact H|]; intros ? ? Ha; apply Ha|].
  apply list_elem_of_lookup in Hd as [i Hi]. destruct (Forall2_lookup_r _ _ _ _ _ H Hi) as (c & _ & Hc). by exists (sel c).
Qed.

Lemma candle_amount c : candle_valid c ->
  (exists d, positive_amount (low c) d) /\ (exists d, positive_amount (high c) d) /\ (exists d, positive_amount (close c) d)
  /\ (exists d, positive_amount (open c) d).
Proof. intros H. destruct (candle_amounts c H) as (o & h & l & cl & v & ? & ? & ? & ? & _). eauto 10. Qed.

Lemma lastn_nonempty {A} (l : list A) n : 1 <= n <= Z.of_nat (length l) -> lastn n l <> [].
Proof. intros Hn E. pose proof (length_lastn n l ltac:(lia)) as H. rewrite E in H. simpl in H. lia. Qed.

Lemma rolling_low_window l period : Forall candle_valid l -> 1 <= period <= Z.of_nat (length l) ->
  exists v, rolling_low_value period l = Ok v /\ window_low l period v.
Proof.
  intros Hv Hp. destruct (extreme_amount low dmin_list (lastn period l)) as (ds & d & E & Ed & _ & F & Hd);
    [intros c Hc; apply (candle_amount c Hc)|by apply lastn_Forall|by apply lastn_nonempty|
     intros ds Hds; destruct (dmin_list_spec ds Hds) as (d & ? & ? & _); eauto|].
  exists d. unfold rolling_low_value. rewrite E. split; [done|]. split; [done|].
  assert (ds <> []) as Hne by (eapply Forall2_nonempty; [exact F|by apply lastn_nonempty]).
  destruct (dmin_list_spec ds Hne) as (d' & Ed' & _ & Hall). assert (d' = d) as -> by congruence.
  apply Forall_forall. intros c Hc. apply list_elem_of_lookup in Hc as [i Hi].
  destruct (Forall2_lookup_l _ _ _ _ _ F Hi) as (x & Hx & Ex). exists x. split; [done|].
  rewrite Forall_forall in Hall. apply Hall. by eapply list_elem_of_lookup_2.
Qed.

Lemma rolling_high_window l period : Forall candle_valid l -> 1 <= period <= Z.of_nat (length l) ->
  exists v, rolling_high_value period l = Ok v /\ window_high l period v.
Proof.
  intros Hv Hp. destruct (extreme_amount high dmax_list (lastn period l)) as (ds & d & E & Ed & _ & F & Hd);
    [intros c Hc; apply (candle_amount c Hc)|by apply lastn_Forall|by apply lastn_nonempty|
     intros ds Hds; destruct (dmax_list_spec ds Hds) as (d & ? & ? & _); eauto|].
  exists d. unfold rolling_high_value. rewrite E. split; [done|]. split; [done|].
  assert (ds <> []) as Hne by (eapply Forall2_nonempty; [exact F|by apply lastn_nonempty]).
  destruct (dmax_list_spec ds Hne) as (d' & Ed' & _ & Hall). assert (d' = d) as -> by congruence.
  apply Forall_forall. intros c Hc. apply list_elem_of_lookup in Hc as [i Hi].
  destruct (Forall2_lookup_l _ _ _ _ _ F Hi) as (x & Hx & Ex). exists x. split; [done|].
  rewrite Forall_forall in Hall. apply Hall. by eapply list_elem_of_lookup_2.
Qed.

(** The 15m confirmation over exact numbers: the last bar closes above its open and
    above the close of the bar before it. *)
Definition confirmed (l : list candle) : Prop := exists before a b pc o cl,
  l = before ++ [a; b] /\ Decimal (close a) = Ok pc /\ Decimal (open b) = Ok o /\ Decimal (close b) = Ok cl
  /\ (dval o < dval cl)%Q /\ (dval pc < dval cl)%Q.

Lemma confirmation_exact l : Forall candle_valid l -> 2 <= Z.of_nat (length l) ->
  exists v, confirmation l = Ok v /\ (v = true <-> confirmed l).
Proof.
  intros Hv Hn. assert (exists before a b, l = before ++ [a; b]) as (before & a & b & ->).
  { destruct (rev l) as [|b [|a r]] eqn:E; [|..]; apply (f_equal (@rev candle)) in E; rewrite rev_involutive in E; subst l; simpl in Hn; try lia.
    exists (rev r), a, b. simpl. by rewrite <- app_assoc. }
  apply Forall_app in Hv as [_ Hv]. apply Forall_cons in Hv as [Ha Hv]. apply Forall_cons in Hv as [Hb _].
  destruct (candle_amount b Hb) as (_ & _ & (c & (Ec & _) & _) & (o & (Eo & _) & _)).
  destruct (candle_amount a Ha) as (_ & _ & (pc & (Epc & _) & _) & _).
  unfold confirmation, last_two. rewrite rev_app_distr. simpl. rewrite Ec, Eo, Epc. simpl. eexists. split; [reflexivity|].
  rewrite andb_true_iff, !dltb_spec. split.
  - intros [H1 H2]. by exists before, a, b, pc, o, c.
  - intros (before' & a' & b' & pc' & o' & c' & El & Epc' & Eo' & Ec' & H). apply app_inj_2 in El as [_ El]; [|done]. injection El as <- <-.
    assert (pc' = pc /\ o' = o /\ c' = c) as (-> & -> & ->) by (split_and!; congruence). exact H.
Qed.

Lemma no_trade_ok c r : r ∈ NO_TRADE_REASONS -> _no_trade c r = Ok (StrategyDecision c SNoTrade r None).
Proof. intros H. unfold _no_trade, new_decision, decision_post_init. simpl. by rewrite bool_decide_true. Qed.

(** ** The rules of an entry's levels *)

Definition no_trade (c : strategy_context) (reason : decision_reason) : result strategy_decision := Ok (StrategyDecision c SNoTrade reason None).

(** What follows once all conditions of an entry hold: the invalidation is the base
    less a quarter of the average true range, at 40 decimals.  No trade exactly when
    it is not positive or not under the close; otherwise an entry whose target is
    the close and twice the risk; a target of more than 40 integer digits is refused
    by the setup's constructor, whose error escapes. *)
Definition levels_rules (c : strategy_context) (reason : decision_reason) (base volatility close_ : Q) (out : result strategy_decision) : Prop :=
  exists i : Q, at_40_decimals (base - volatility * (1 # 4)) i
    /\ ((i <= 0 \/ close_ <= i)%Q -> out = no_trade c SETUP_ABSENT)
    /\ ((0 < i)%Q -> (i < close_)%Q -> let target := (close_ + 2 * (close_ - i))%Q in
          ((target < q10 40)%Q -> exists s, out = Ok (StrategyDecision c SEnterLong reason (Some s)) /\ setup_valid s /\ setup_denotes s close_ i target)
          /\ ((q10 40 <= target)%Q -> exists m, out = Err (Raise StrategyContractError m))).

Lemma setup_denotes_eq s a b t t' : (t == t')%Q -> setup_denotes s a b t -> setup_denotes s a b t'.
Proof. intros E (r & i & x & ? & ? & ? & ? & ? & Ht). exists r, i, x. rewrite <- E. by split_and!. Qed.

Lemma levels_decision c reason base volatility close_ sb sc :
  reason ∈ ENTRY_REASONS -> positive_amount sb base -> positive_amount sc close_ -> (0 <= dval volatility)%Q -> below volatility ->
  levels_rules c reason (dval base) (dval volatility) (dval close_)
    (let* fraction := Decimal "0.25" in
     let* reward := Decimal "2" in
     let* levels := setup_levels base volatility close_ fraction reward in
     match levels with None => _no_trade c SETUP_ABSENT | Some (i, t) => enter c reason close_ i t end).
Proof.
  intros Hr Hb Hc Hv0 Hv1. change (Decimal "0.25") with (Ok (Dec false 25 (-2)) : result dec). change (Decimal "2") with (Ok (dec_of_Z 2) : result dec).
  destruct (setup_levels_spec base volatility close_ (Dec false 25 (-2)) (dec_of_Z 2) sb sc Hb Hc Hv0 Hv1 ltac:(reflexivity) eq_refl)
    as (i & o & Eo & Hi & Hnone & Hsome).
  cbn [rbind]. rewrite Eo. cbn [rbind]. exists (dval i). split; [done|]. split.
  - intros Hx. rewrite (Hnone Hx). apply no_trade_ok. in_list.
  - intros P1 P2 target. destruct (Hsome P1 P2) as (t & -> & Ho). pose proof (lo_reward _ _ _ Ho) as Et.
    destruct (enter_spec c reason close_ i t sc Hr Hc Ho) as [H1 H2]. split; intros Ht.
    + destruct H1 as (s & E & Hs & Hd); [by rewrite Et|]. exists s. split; [done|]. split; [done|]. by eapply setup_denotes_eq.
    + apply H2. by rewrite Et.
Qed.

(** ** The state of a candidate *)

(** The setup a candidate is called with: none when flat, a valid one in a position. *)
Definition state_ok (in_position : bool) (active_setup : option long_setup) : Prop :=
  match active_setup with Some s => in_position = true /\ setup_valid s | None => in_position = false end.

Lemma validated_ok id e1 e2 c pos setup : validated id e1 e2 c pos setup = Ok tt
  <-> identity c = id /\ context_valid c /\ state_ok pos setup.
Proof.
  unfold validated, state_ok. rewrite <- replace_context_valid. split.
  - intros H. res_inv. bool_prop. destruct Hc as [[Hid H1] H2]. apply bool_decide_eq_true in Hid. destruct a. split; [done|]. split; [done|].
    destruct setup as [s|]; simpl in *; [|by destruct pos]. by destruct pos.
  - intros (-> & E & Hst). rewrite bool_decide_true, E by done. destruct setup as [s|]; [destruct Hst as [-> Hs]|rewrite Hst]; simpl; [|done].
    by rewrite Hs.
Qed.

Lemma setup_errors s e : setup_post_init s = Err e -> exn_cls e = StrategyContractError.
Proof.
  assert (forall v f e', _positive v f = Err e' -> exn_cls e' = StrategyContractError) as Hp.
  { intros v f e' H. unfold _positive in H. destruct (decimal_pattern v) eqn:Ep; simpl in H; [|naive_solver].
    destruct (decimal_pattern_spec _ Ep) as (d & Ed & _). rewrite Ed in H. simpl in H. destruct (dleb d dec0); naive_solver. }
  unfold setup_post_init. intros H.
  destruct (_positive (setup_reference_price s) _) eqn:E1; simpl in H; [|injection H as <-; by eapply Hp].
  destruct (_positive (invalidation_price s) _) eqn:E2; simpl in H; [|injection H as <-; by eapply Hp].
  destruct (_positive (setup_target_price s) _) eqn:E3; simpl in H; [|injection H as <-; by eapply Hp].
  destruct (negb _); naive_solver.
Qed.

Lemma validated_errors id e1 e2 c pos setup e : validated id e1 e2 c pos setup = Err e -> e = e1 \/ e = e2.
Proof.
  unfold validated. destruct (_ || _); [naive_solver|]. intros H. right.
  destruct (replace_context c) as [[]|e'] eqn:E; simpl in H.
  - destruct setup as [s|]; [|done]. destruct (setup_post_init s) as [|e'] eqn:Es; [done|]. simpl in H.
    rewrite bool_decide_true in H by (rewrite (setup_errors _ _ Es); in_list). naive_solver.
  - rewrite bool_decide_true in H; [naive_solver|]. apply replace_context_errors in E. rewrite !elem_of_cons in E |- *. naive_solver.
Qed.

Lemma _validated_trend_rejects c pos setup : ~ (identity c = TREND_IDENTITY /\ context_valid c /\ state_ok pos setup) ->
  exists m, _validated_trend c pos setup = Err (Raise TrendStrategyError m).
Proof.
  intros H. destruct (_validated_trend c pos setup) as [[]|e] eqn:E; [by apply validated_ok in E|].
  apply validated_errors in E as [-> | ->]; eauto.
Qed.

Lemma last_candle_some l : l <> [] -> exists c, last_candle l = Ok c /\ last l = Some c /\ c ∈ l.
Proof. intros H. destruct (last_some l H) as (c & E & Hc). exists c. unfold last_candle. by rewrite E. Qed.

Lemma snapshot_nonempty s : snapshot_valid s -> primary s <> [].
Proof. intros H. apply snapshot_valid_facts in H as (_ & _ & [_ (d & n & _ & Hl & _)] & _) . by destruct (primary s). Qed.

(** Insufficient history is reported for too few 4h candles, and for nothing else. *)
Lemma regime_history c : context_valid c -> candles_valid (sc_snapshot c) ->
  exists r, classify_regime c = Ok r /\ (rr_reason r = RG_INSUFFICIENT_HISTORY <-> Z.of_nat (length (regime (sc_snapshot c))) < 51).
Proof.
  intros Hc Hv. rewrite classify_measure.
  destruct (Z.lt_ge_cases (Z.of_nat (length (regime (sc_snapshot c)))) WARMUP) as [Hn|Hn].
  - unfold _measure. apply replace_context_valid in Hc. rewrite Hc. cbn [rbind rcatch].
    replace (Z.of_nat (length (regime (sc_snapshot c))) <? WARMUP) with true by lia. simpl. eexists. split; [reflexivity|]. done.
  - destruct (measure_spec c Hc Hv Hn) as (m & Em & cs & price & fast & slow & spread & slope & _ & _ & E & _). rewrite Em. simpl.
    eexists. split; [reflexivity|]. cbn [rr_reason]. apply (f_equal mr_reason) in E. cbn [mr_reason] in E. rewrite E.
    split; [by destruct (mr_regime m)|unfold WARMUP in Hn; lia].
Qed.

(** The rule of an open position: it exits exactly when it must. *)
Record position_rules (c : strategy_context) (exit : Prop) (out : result strategy_decision) : Prop := {
  pr_exit : exit -> out = Ok (StrategyDecision c SExitLong STRATEGY_EXIT None);
  pr_hold : ~ exit -> out = no_trade c HOLD_POSITION;
}.

Lemma position_decision c (b : bool) (exit : Prop) : (b = true <-> exit) ->
  position_rules c exit (if b then new_decision (StrategyDecision c SExitLong STRATEGY_EXIT None) else _no_trade c HOLD_POSITION).
Proof.
  intros Hb. destruct b; constructor; intros Hx; [done|by destruct Hx; apply Hb|by apply Hb in Hx|apply no_trade_ok; in_list].
Qed.

(** ** The rules of the trend pullback *)

(** Enough closed candles to decide on. *)
Definition trend_warm (c : strategy_context) : Prop :=
  51 <= Z.of_nat (length (regime (sc_snapshot c))) /\ 20 <= Z.of_nat (length (primary (sc_snapshot c)))
  /\ 2 <= Z.of_nat (length (context (sc_snapshot c))).

(** What the rules read: the regime, the average of 20 hourly closes, the low and
    the close of the last bar, the lowest low of 3 bars, and the average true range
    of 14. *)
Record trend_values (c : strategy_context) (r : regime_result) (average low_ close_ base volatility : dec) : Prop := {
  tv_regime : classify_regime c = Ok r;
  tv_average : ready_value (sma (primary (sc_snapshot c)) 20 (sc_decision_time_ms c)) average;
  tv_mean : exists cs, Forall2 (fun c d => Decimal (close c) = Ok d) (lastn 20 (primary (sc_snapshot c))) cs /\ (dval average == qmean cs 20)%Q;
  tv_latest : exists latest, last (primary (sc_snapshot c)) = Some latest /\ Decimal (low latest) = Ok low_ /\ Decimal (close latest) = Ok close_;
  tv_base : ready_value (rolling_low (primary (sc_snapshot c)) 3 (sc_decision_time_ms c)) base;
  tv_window : window_low (primary (sc_snapshot c)) 3 base;
  tv_volatility : ready_value (atr (primary (sc_snapshot c)) 14 (sc_decision_time_ms c)) volatility;
}.

(** The last bar dips to the average and closes over it. *)
Definition pulled_back (average low_ close_ : dec) : Prop := (dval low_ <= dval average)%Q /\ (dval average < dval close_)%Q.

Record trend_flat_rules (c : strategy_context) (r : regime_result) (average low_ close_ base volatility : dec) (out : result strategy_decision) : Prop := {
  tr_unknown : rr_regime r = UNKNOWN -> out = no_trade c REGIME_UNKNOWN;
  tr_blocked : rr_regime r <> UNKNOWN -> rr_regime r <> TREND_UP -> out = no_trade c REGIME_BLOCKED;
  tr_absent : rr_regime r = TREND_UP -> ~ pulled_back average low_ close_ -> out = no_trade c SETUP_ABSENT;
  tr_unconfirmed : rr_regime r = TREND_UP -> pulled_back average low_ close_ -> ~ confirmed (context (sc_snapshot c)) ->
    out = no_trade c CONFIRMATION_FAILED;
  tr_entry : rr_regime r = TREND_UP -> pulled_back average low_ close_ -> confirmed (context (sc_snapshot c)) ->
    levels_rules c TREND_PULLBACK_ENTRY (dval base) (dval volatility) (dval close_) out;
}.

(** An open position must be left: the close at or under the invalidation, the
    up-trend over, or the close under the average. *)
Definition trend_exit (r : regime_result) (average close_ invalidation : dec) : Prop :=
  (dval close_ <= dval invalidation)%Q \/ rr_regime r <> TREND_UP \/ (dval close_ < dval average)%Q.

Lemma feature_known name extra compute l period t (P : dec -> Prop) : name <> ""%string -> 0 <= extra ->
  series_ok t l -> 1 <= period <= MAX_FEATURE_PERIOD -> period + extra <= Z.of_nat (length l) ->
  (exists v, compute period l = Ok v /\ P v) ->
  exists f v, feature name extra compute l period t = Ok f /\ available f = true /\ fvalue f = Some v /\ P v.
Proof.
  intros H1 H2 H3 H4 H5 H6. destruct (feature_cases name extra compute l period t P H1 H2 H3 H4 (fun _ => H6)) as (f & E & [[_ Hx]|(Ha & _ & v & Ev & Hp)]); [lia|].
  by exists f, v.
Qed.

Lemma ready_of r f v : r = Ok f -> available f = true -> fvalue f = Some v -> ready_value r v.
Proof. intros E Ha Hv. exists f. split; [done|]. split; [by apply bool_decide_eq_true in Ha|done]. Qed.

(** Twenty closes have their exact average. *)
Lemma sma_mean l : Forall candle_valid l -> 20 <= Z.of_nat (length l) -> exists a, sma_value 20 l = Ok a
  /\ exists cs, Forall2 (fun c d => Decimal (close c) = Ok d) (lastn 20 l) cs /\ (dval a == qmean cs 20)%Q.
Proof.
  intros Hv Hn. destruct (rmap_prices close (lastn 20 l) close_price (lastn_Forall _ _ _ Hv)) as (cs & Ec & Fc & Pc).
  destruct (mean_exact cs 20 5 Pc) as (a & Ea & Va & _); [|done|done|done|].
  - rewrite <- (Forall2_length _ _ _ Fc). apply length_lastn. lia.
  - exists a. unfold sma_value, closes. rewrite Ec. split; [exact Ea|]. by exists cs.
Qed.

Section TrendTheorem.
Context (c : strategy_context).
Hypothesis Hid : identity c = TREND_IDENTITY.
Hypothesis Hc : context_valid c.
Hypothesis Hv : candles_valid (sc_snapshot c).
Hypothesis Hn : Z.of_nat (length (primary (sc_snapshot c))) <= MAX_FEATURE_CANDLES.

Lemma trend_series : series_ok (sc_decision_time_ms c) (primary (sc_snapshot c)).
Proof using Hc Hv Hn. apply snapshot_series; [apply Hc|done|done]. Qed.

(** The history test of the code is [trend_warm]. *)
Lemma trend_history : exists r favg, classify_regime c = Ok r
  /\ sma (primary (sc_snapshot c)) T_primary_sma_period (sc_decision_time_ms c) = Ok favg
  /\ (bool_decide (rr_reason r = RG_INSUFFICIENT_HISTORY) || negb (available favg) || (Z.of_nat (length (context (sc_snapshot c))) <? 2) = false
      <-> trend_warm c).
Proof using All.
  pose proof trend_series as Hso. destruct (regime_history c Hc Hv) as (r & Er & Hr).
  destruct (feature_cases "SMA" 0 sma_value _ T_primary_sma_period _ (fun _ => True) ltac:(done) ltac:(done) Hso ltac:(done))
    as (favg & Eavg & Cavg).
  { intros Hlen. rewrite Z.add_0_r in Hlen. destruct (window_values T_primary_sma_period _ (so_valid _ _ Hso) ltac:(done) Hlen) as (? & ? & avg & _ & _ & Ev & _).
    by exists avg. }
  exists r, favg. split; [done|]. split; [exact Eavg|]. rewrite !orb_false_iff, bool_decide_eq_false, Hr, negb_false_iff, Z.ltb_ge.
  unfold trend_warm. change (T_primary_sma_period + 0) with 20 in Cavg. destruct Cavg as [[-> H]|(-> & H & _)]; split; intros; destruct_and?; split_and?; done || lia.
Qed.

Lemma trend_known : trend_warm c -> exists r favg fvol flow avg lo cl base vol,
  classify_regime c = Ok r /\ sma (primary (sc_snapshot c)) T_primary_sma_period (sc_decision_time_ms c) = Ok favg
  /\ atr (primary (sc_snapshot c)) T_atr_period (sc_decision_time_ms c) = Ok fvol
  /\ rolling_low (primary (sc_snapshot c)) T_pullback_lookback (sc_decision_time_ms c) = Ok flow
  /\ (bool_decide (rr_reason r = RG_INSUFFICIENT_HISTORY) || negb (available favg) || (Z.of_nat (length (context (sc_snapshot c))) <? 2) = false)
  /\ (available fvol = true /\ available flow = true) /\ (fvalue favg = Some avg /\ fvalue fvol = Some vol /\ fvalue flow = Some base)
  /\ trend_values c r avg lo cl base vol
  /\ (exists latest, latest_primary (sc_snapshot c) = Ok latest /\ positive_amount (low latest) lo /\ positive_amount (close latest) cl)
  /\ (exists sb, positive_amount sb base) /\ (0 <= dval vol)%Q /\ below vol.
Proof using All.
  pose proof trend_series as Hso. intros Hw. destruct trend_history as (r & favg & Er & Eavg & Hg). pose proof (proj2 Hg Hw) as Eg. destruct Hw as (_ & H20 & _).
  pose proof (so_valid _ _ Hso) as Hvp.
  assert (available favg = true) as Aavg by (rewrite !orb_false_iff, negb_false_iff in Eg; apply Eg).
  destruct (feature_known "SMA" 0 sma_value _ T_primary_sma_period _
    (fun a => exists cs, Forall2 (fun c d => Decimal (close c) = Ok d) (lastn 20 (primary (sc_snapshot c))) cs /\ (dval a == qmean cs 20)%Q)
    ltac:(done) ltac:(done) Hso ltac:(done) H20) as (f1 & avg & E1 & _ & V1 & Hmean); [by apply sma_mean|].
  assert (f1 = favg) as -> by (apply Ok_inj; rewrite <- E1; exact Eavg).
  destruct (feature_known "ATR" 1 atr_value _ T_atr_period _ (fun v => (0 <= dval v)%Q /\ below v) ltac:(done) ltac:(done) Hso ltac:(done))
    as (fvol & vol & E2 & A2 & V2 & P2); [unfold T_atr_period; lia| |].
  { destruct (atr_value_nonneg T_atr_period _ Hvp ltac:(done)) as (v & Ev & Hv0). exists v. split; [done|]. split; [done|].
    apply (atr_value_below T_atr_period _ _ Hvp ltac:(done)) in Ev; [done|]. unfold T_atr_period. lia. }
  destruct (feature_known "ROLLING_LOW" 0 rolling_low_value _ T_pullback_lookback _ (window_low (primary (sc_snapshot c)) T_pullback_lookback)
    ltac:(done) ltac:(done) Hso ltac:(done)) as (flow & base & E3 & A3 & V3 & P3); [unfold T_pullback_lookback; lia| |].
  { apply rolling_low_window; [done|]. unfold T_pullback_lookback. lia. }
  destruct (last_candle_some _ (snapshot_nonempty _ (proj1 (proj2 Hc)))) as (latest & El & Hl & Hin). rewrite Forall_forall in Hvp.
  destruct (candle_amount latest (Hvp _ Hin)) as ((lo & Hlo) & _ & (cl & Hcl) & _).
  exists r, favg, fvol, flow, avg, lo, cl, base, vol. split; [done|]. split; [done|]. split; [exact E2|]. split; [exact E3|].
  split; [done|]. split; [done|]. split; [done|]. split; [|split; [by exists latest|split; [exact (proj1 P3)|exact P2]]].
  constructor; [done|exact (ready_of _ _ _ Eavg Aavg V1)|exact Hmean| |exact (ready_of _ _ _ E3 A3 V3)|exact P3|exact (ready_of _ _ _ E2 A2 V2)].
  exists latest. split; [done|]. split; [apply Hlo|apply Hcl].
Qed.

Lemma trend_cold pos setup : state_ok pos setup -> ~ trend_warm c -> evaluate_trend_pullback c pos setup = no_trade c R_INSUFFICIENT_HISTORY.
Proof using All.
  intros Hst Hw. destruct trend_history as (r & favg & Er & Eavg & Hg). unfold evaluate_trend_pullback, _validated_trend.
  rewrite (proj2 (validated_ok _ _ _ c pos setup)) by done. rewrite Er, Eavg. cbn [rbind rcatch fst snd].
  rewrite (not_false_is_true _ (fun H => Hw (proj1 Hg H))). apply no_trade_ok. in_list.
Qed.

Lemma trend_flat : trend_warm c -> exists r avg lo cl base vol, trend_values c r avg lo cl base vol
  /\ trend_flat_rules c r avg lo cl base vol (evaluate_trend_pullback c false None).
Proof using All.
  intros Hw. destruct (trend_known Hw) as (r & favg & fvol & flow & avg & lo & cl & base & vol & Er & Eavg & Evol & Elow & Eg & [A1 A2] & (V1 & V2 & V3)
    & Hval & (latest & El & Hlo & Hcl) & (sb & Hb) & P1 & P2).
  exists r, avg, lo, cl, base, vol. split; [done|]. destruct Hw as (_ & _ & H2).
  destruct (confirmation_exact (context (sc_snapshot c)) ltac:(apply Hv) H2) as (b & Ec & Hcf).
  assert (dltb avg lo || dleb cl avg = false <-> pulled_back avg lo cl) as Hp by (unfold pulled_back; by rewrite orb_false_iff, dltb_false, dleb_false).
  unfold evaluate_trend_pullback, _validated_trend, trend_levels. rewrite (proj2 (validated_ok _ _ _ c false None)) by done.
  rewrite Er, Eavg, Evol, Elow. cbn [rbind rcatch fst snd]. rewrite Eg, El, A1, A2. unfold feature_value. rewrite V1, V2, V3. cbn [rbind negb orb].
  rewrite (proj1 (proj1 Hcl)), (proj1 (proj1 Hlo)). cbn [rbind]. rewrite Ec. cbn [rbind].
  constructor; [intros Hx|intros Hu Hx|intros Hx Hnp|intros Hx Hpb Hnc|intros Hx Hpb Hcc].
  - rewrite bool_decide_true by done. apply no_trade_ok. in_list.
  - rewrite !bool_decide_false by done. apply no_trade_ok. in_list.
  - rewrite Hx. cbn. rewrite (not_false_is_true _ (fun H => Hnp (proj1 Hp H))). apply no_trade_ok. in_list.
  - rewrite Hx. cbn. rewrite (proj2 Hp Hpb), (not_true_is_false _ (fun H => Hnc (proj1 Hcf H))). apply no_trade_ok. in_list.
  - rewrite Hx, (proj2 Hp Hpb), (proj2 Hcf Hcc). cbn [negb]. rewrite bool_decide_false, bool_decide_true by done. cbn [negb].
    exact (levels_decision c TREND_PULLBACK_ENTRY base vol cl _ _ ltac:(in_list) Hb Hcl P1 P2).
Qed.

Lemma trend_position s : setup_valid s -> trend_warm c -> exists r avg lo cl base vol inv, trend_values c r avg lo cl base vol
  /\ denotes (invalidation_price s) inv
  /\ position_rules c (trend_exit r avg cl inv) (evaluate_trend_pullback c true (Some s)).
Proof using All.
  intros Hset Hw. destruct (trend_known Hw) as (r & favg & fvol & flow & avg & lo & cl & base & vol & Er & Eavg & Evol & Elow & Eg & _ & (V1 & _)
    & Hval & (latest & El & Hlo & Hcl) & _).
  destruct (proj1 (setup_valid_spec s) Hset) as (ref & inv & tgt & _ & Hinv & _).
  exists r, avg, lo, cl, base, vol, inv. split; [done|]. split; [done|].
  unfold evaluate_trend_pullback, _validated_trend. rewrite (proj2 (validated_ok _ _ _ c true (Some s))) by done.
  rewrite Er, Eavg. cbn [rbind rcatch fst snd]. rewrite Eg, El. unfold feature_value, setup_invalidation. rewrite V1. cbn [rbind].
  rewrite (proj1 (proj1 Hcl)). cbn [rbind]. rewrite (proj1 Hinv). cbn [rbind]. apply position_decision.
  unfold trend_exit. rewrite !orb_true_iff, negb_true_iff, bool_decide_eq_false, dleb_spec, dltb_spec. tauto.
Qed.
End TrendTheorem.

(** C13. The trend-pullback candidate, outcome by outcome.  A wrong identity, an
    invalid context or a setup that does not fit the position state is a
    TrendStrategyError.  With fewer than 51 4h, 20 hourly or 2 15m candles the
    history is insufficient, flat or not.  Otherwise, when flat: no trade for an
    unknown regime, none for another than the up-trend, none exactly when the last
    bar did not dip to the average of 20 closes and close over it, none exactly when
    the last 15m bar does not confirm, and else the levels decide: the invalidation
    is the low of 3 bars less a quarter of the average true range, at 40 decimals;
    no trade exactly when it is not positive or not under the close, and otherwise an
    entry with a valid setup of that reference, invalidation and a target over the
    close by twice the risk; but a target of more than 40 integer digits is a
    StrategyContractError of the setup.  In a position it exits exactly when the
    close is at or under the invalidation or under the average or the up-trend has
    ended, and holds exactly otherwise. *)
Theorem trend_pullback_sound c pos setup :
  Z.of_nat (length (primary (sc_snapshot c))) <= MAX_FEATURE_CANDLES -> candles_valid (sc_snapshot c) ->
  (~ (identity c = TREND_IDENTITY /\ context_valid c /\ state_ok pos setup) ->
     exists m, evaluate_trend_pullback c pos setup = Err (Raise TrendStrategyError m))
  /\ (identity c = TREND_IDENTITY -> context_valid c -> state_ok pos setup ->
      (~ trend_warm c -> evaluate_trend_pullback c pos setup = no_trade c R_INSUFFICIENT_HISTORY)
      /\ (trend_warm c -> exists r average low_ close_ base volatility, trend_values c r average low_ close_ base volatility
            /\ match setup with
               | None => trend_flat_rules c r average low_ close_ base volatility (evaluate_trend_pullback c pos setup)
               | Some s => exists inv, denotes (invalidation_price s) inv
                   /\ position_rules c (trend_exit r average close_ inv) (evaluate_trend_pullback c pos setup)
               end)).
Proof.
  intros Hn Hv. split.
  - intros H. destruct (_validated_trend_rejects c pos setup H) as [m E]. exists m. unfold evaluate_trend_pullback. by rewrite E.
  - intros Hid Hc Hst. split; [by apply trend_cold|]. intros Hw. destruct setup as [s|].
    + destruct Hst as [-> Hs]. destruct (trend_position c Hid Hc Hv Hn s Hs Hw) as (r & avg & lo & cl & base & vol & inv & Hval & Hinv & Hp).
      exists r, avg, lo, cl, base, vol. split; [done|]. by exists inv.
    + rewrite Hst. by apply trend_flat.
Qed.

(** The sample enters by these rules. *)
Lemma trend_pullback_sound_witness : exists r average low_ close_ base volatility s,
  trend_values pullback_context r average low_ close_ base volatility
  /\ trend_flat_rules pullback_context r average low_ close_ base volatility (evaluate_trend_pullback pullback_context false None)
  /\ evaluate_trend_pullback pullback_context false None = Ok (StrategyDecision pullback_context SEnterLong TREND_PULLBACK_ENTRY (Some s)).
Proof.
  destruct (proj2 (proj2 (trend_pullback_sound pullback_context false None
              ltac:(vm_compute; congruence) ltac:(apply candles_valid_bool; vm_compute; reflexivity))
              ltac:(reflexivity) ltac:(split; [|split]; vm_compute; reflexivity) ltac:(reflexivity)))
    as (r & avg & lo & cl & base & vol & H1 & H2); [vm_compute; split_and!; congruence|].
  exists r, avg, lo, cl, base, vol, (LongSetup "1020" "957.3214285714285714285714285714285714285714" "1145.3571428571428571428571428571428571428572").
  split; [exact H1|]. split; [exact H2|]. vm_compute. reflexivity.
Defined.
