(* ===== verification/Breakout.v ===== *)
(** * Range-breakout candidate (yatl/strategy/breakout.py)

    The long-only rules on a validated context: a close over the highest high
    of the 20 previous bars, near its own high and not too extended, with the
    15m confirmation.  The helpers that breakout.py repeats from trend.py
    ([_plain], [_no_trade], the validation and the levels) are those of Trend. *)
From S2P Require Import Prelude PyDecimal PyText Digest Market BacktestConfig MarketView Fills Costs StrategyContracts Features Regime Trend.

Definition BREAKOUT_IDENTITY : strategy_identity := StrategyIdentity "RANGE_BREAKOUT" "1.0.0".
Definition B_atr_period : Z := 14.
Definition B_breakout_lookback : Z := 20.
Definition B_maximum_extension_atr : string := "1".
Definition B_minimum_close_location : string := "0.75".
Definition B_reward_risk : string := "2".
Definition B_stop_atr_fraction : string := "0.25".

Definition _validated_breakout := validated BREAKOUT_IDENTITY
  (Raise BreakoutStrategyError "Breakout state or identity is invalid")
  (Raise BreakoutStrategyError "Breakout context failed validation").

(** [high - low] is computed before the wide context is entered, in the default
    28-digit one; [None] is [Decimal("Infinity")]. *)
Definition close_location (high_ low_ close_ : dec) : result dec :=
  let candle_range := dsub default_prec high_ low_ in
  if dltb dec0 candle_range then ddiv FP (dsub FP close_ low_) candle_range else Ok dec0.
Definition extension_atr (close_ boundary volatility : dec) : result (option dec) :=
  if dltb dec0 volatility then let* q := ddiv FP (dsub FP close_ boundary) volatility in Ok (Some q) else Ok None.
Definition too_extended (extension : option dec) (maximum : dec) : bool :=
  match extension with Some e => dltb maximum e | None => true end.

Definition evaluate_breakout (c : strategy_context) (in_position : bool) (active_setup : option long_setup)
    : result strategy_decision :=
  do* _validated_breakout c in_position active_setup ;;
  let bars := primary (sc_snapshot c) in
  let t := sc_decision_time_ms c in
  let* rbv := rcatch (let* r := classify_regime c in
                      let* boundary := rolling_high (removelast bars) B_breakout_lookback t in
                      let* volatility := atr (removelast bars) B_atr_period t in
                      Ok (r, boundary, volatility))
                [RegimeError; FeatureError] (Raise BreakoutStrategyError "Breakout feature evaluation failed") in
  let '(r, boundary, volatility) := rbv in
  if bool_decide (rr_reason r = RG_INSUFFICIENT_HISTORY) || negb (available boundary) || negb (available volatility)
     || (Z.of_nat (length (context (sc_snapshot c))) <? 2)
  then _no_trade c R_INSUFFICIENT_HISTORY
  else
    let* latest := latest_primary (sc_snapshot c) in
    let* close_ := Decimal (close latest) in
    let* boundary := feature_value boundary in
    let* volatility := feature_value volatility in
    if in_position then
      let* invalidation := setup_invalidation active_setup in
      if dleb close_ invalidation || negb (bool_decide (rr_regime r = TREND_UP)) || dleb close_ boundary
      then new_decision (StrategyDecision c SExitLong STRATEGY_EXIT None)
      else _no_trade c HOLD_POSITION
    else if bool_decide (rr_regime r = UNKNOWN) then _no_trade c REGIME_UNKNOWN
    else if negb (bool_decide (rr_regime r = TREND_UP)) then _no_trade c REGIME_BLOCKED
    else if dleb close_ boundary then _no_trade c SETUP_ABSENT
    else
      let* high_ := Decimal (high latest) in
      let* low_ := Decimal (low latest) in
      let* location := close_location high_ low_ close_ in
      let* extension := extension_atr close_ boundary volatility in
      let* minimum := Decimal B_minimum_close_location in
      let* maximum := Decimal B_maximum_extension_atr in
      if dltb location minimum || too_extended extension maximum then _no_trade c SETUP_ABSENT
      else
        let* confirmed := confirmation (context (sc_snapshot c)) in
        if negb confirmed then _no_trade c CONFIRMATION_FAILED
        else
          let* fraction := Decimal B_stop_atr_fraction in
          let* reward := Decimal B_reward_risk in
          let* levels := setup_levels low_ volatility close_ fraction reward in
          match levels with
          | None => _no_trade c SETUP_ABSENT
          | Some (invalidation, target) => enter c BREAKOUT_ENTRY close_ invalidation target
          end.

(** * Properties *)

(** ** The two ratios of an entry *)

(** The 28-digit range of a bar: off by less than one part in [10 ^ 27]. *)
Definition rounded_range (h l range : dec) : Prop :=
  (Qabs (dval range - (dval h - dval l)) <= q10 (-27) * (dval h - dval l))%Q.

Lemma range_spec sh sl h l : positive_amount sh h -> positive_amount sl l -> (dval l < dval h)%Q ->
  let range := dsub default_prec h l in
  rounded_range h l range /\ (0 < dval range < q10 41)%Q /\ rep 41 40 (dval range).
Proof.
  intros Hh Hl Hlt range. destruct (amount_fits _ _ Hh) as (_ & Eh & Ph & Rh). destruct (amount_fits _ _ Hl) as (_ & El & Pl & Rl).
  set (x := dadd_exact h (dcopy_negate l)).
  assert (dval x == dval h - dval l)%Q as Vx by (unfold x; rewrite dval_add_exact, dval_copy_negate; ring).
  assert (0 < dval x)%Q as Px by (rewrite Vx; lra).
  pose proof (dfix_relative_pos default_prec x ltac:(done) (dneg_pos _ Px)) as Hr.
  change (dfix default_prec x) with range in Hr. change (1 - Z.of_N default_prec) with (-27) in Hr. rewrite Vx in Hr.
  split; [exact Hr|]. apply Qabs_Qle_condition in Hr as [H1 H2].
  pose proof (rep_lt _ _ _ Rh) as Lh. rewrite Qabs_pos in Lh by lra.
  assert (q10 (-27) <= 1 # 2)%Q as Hq by (vm_compute; congruence). assert (0 <= q10 (-27))%Q as Hq0 by by apply Qlt_le_weak.
  set (w := (dval h - dval l)%Q) in *. assert (0 < w)%Q as Pw by (unfold w; lra). assert (w < q10 40)%Q as Lw by (unfold w; lra).
  pose proof (Qmult_le_compat_r _ _ w Hq (Qlt_le_weak _ _ Pw)) as Hqw.
  assert (q10 41 == 10 * q10 40)%Q as E41 by reflexivity.
  assert (0 < dval range)%Q as B1 by lra. assert (dval range < q10 41)%Q as B2 by (rewrite E41; lra).
  split; [exact (conj B1 B2)|]. apply rep_dval, fits_of_val; [|lia|by rewrite Qabs_pos by lra].
  unfold range, dsub, dadd. fold x. pose proof (dfix_dexp default_prec x) as He.
  assert (-40 <= dexp x) by (unfold x; simpl; lia). lia.
Qed.

(** The close lies in the upper quarter of its bar, whose height is [range]. *)
Definition near_high (h l cl range : dec) : Prop := (dval l < dval h)%Q /\ ((3 # 4) * dval range <= dval cl - dval l)%Q.

Lemma close_location_spec sh sl sc h l cl : positive_amount sh h -> positive_amount sl l -> positive_amount sc cl ->
  (dval l <= dval cl <= dval h)%Q ->
  exists d range, close_location h l cl = Ok d /\ rounded_range h l range /\ (dltb d (Dec false 75 (-2)) = false <-> near_high h l cl range).
Proof.
  intros Hh Hl Hc Hb. destruct (amount_fits _ _ Hl) as (_ & _ & Pl & Rl). destruct (amount_fits _ _ Hc) as (_ & _ & Pc & Rc).
  unfold close_location. destruct (Qlt_le_dec (dval l) (dval h)) as [Hlt|Hle].
  - destruct (range_spec _ _ _ _ Hh Hl Hlt) as (Hr & Hpos & Rr).
    assert (dltb dec0 (dsub default_prec h l) = true) as -> by (apply dltb_spec; rewrite dval_0; apply Hpos).
    destruct (ddiv_pos_total (dsub FP cl l) _ (proj1 Hpos)) as [d Ed]. exists d, (dsub default_prec h l). do 2 (split; [done|]). rewrite dltb_false.
    pose proof (rep_minus _ _ _ _ _ _ Rc Rl) as Rd. simpl in Rd.
    assert (dval (dsub FP cl l) == dval cl - dval l)%Q as En by by apply (dsub_val (i:=41) (f:=40)).
    apply ddiv_faithful in Ed; [|done]. rewrite En in Ed.
    assert (dval (Dec false 75 (-2)) == 3 # 4)%Q as E75 by reflexivity. rewrite E75.
    assert (rep 1 2 (3 # 4)) as R34 by (rewrite <- E75; apply rep_dval; split; vm_compute; congruence).
    pose proof (quotient_lt (p:=FP) (q:=d) (i:=43) (f:=42) (iw:=1) (fw:=2) (j:=41) ltac:(done) ltac:(done) ltac:(done) ltac:(done) ltac:(done)
      Ed Hpos R34 (rep_minus _ _ _ _ _ _ Rd (rep_mult _ _ _ _ _ _ R34 Rr))) as [Q1 Q2]. split.
    + intros Hd. split; [done|]. apply Qnot_lt_le. intros Hx. exact (Qlt_not_le _ _ (Q2 Hx) Hd).
    + intros [_ Hd]. apply Qnot_lt_le. intros Hx. exact (Qlt_not_le _ _ (Q1 Hx) Hd).
  - assert (dval (dsub default_prec h l) == 0)%Q as Hz.
    { pose proof (dsub_faithful default_prec h l ltac:(done)) as F. apply Qle_antisym; [apply (faithful_nonpos _ _ _ F)|apply (faithful_nonneg _ _ _ F)]; lra. }
    assert (dltb dec0 (dsub default_prec h l) = false) as -> by (apply dltb_false; by rewrite dval_0, Hz).
    exists dec0, (dsub default_prec h l). split; [done|]. split.
    + unfold rounded_range. rewrite Hz. assert (dval h - dval l == 0)%Q as -> by lra. vm_compute. congruence.
    + split; [intros Hx; vm_compute in Hx; congruence|]. intros [Hx _]. lra.
Qed.

(** The close is at most one average true range over the boundary. *)
Definition within_range (boundary volatility cl : dec) : Prop := (0 < dval volatility)%Q /\ (dval cl - dval boundary <= dval volatility)%Q.
(** It is more than that over it, by at least the last of the 256 digits. *)
Definition overextended (boundary volatility cl : dec) : Prop :=
  (dval volatility <= 0)%Q \/ ((1 + q10 (-255)) * dval volatility <= dval cl - dval boundary)%Q.

Lemma extension_spec sb sc boundary volatility cl : positive_amount sb boundary -> positive_amount sc cl ->
  exists o, extension_atr cl boundary volatility = Ok o
    /\ (within_range boundary volatility cl -> too_extended o (dec_of_Z 1) = false)
    /\ (overextended boundary volatility cl -> too_extended o (dec_of_Z 1) = true).
Proof.
  intros Hb Hc. destruct (amount_fits _ _ Hb) as (_ & _ & Pb & Rb). destruct (amount_fits _ _ Hc) as (_ & _ & Pc & Rc).
  unfold extension_atr. destruct (dltb dec0 volatility) eqn:E.
  - apply dltb_spec in E. rewrite dval_0 in E. destruct (ddiv_pos_total (dsub FP cl boundary) _ E) as [d Ed]. rewrite Ed. simpl.
    pose proof (rep_minus _ _ _ _ _ _ Rc Rb) as Rd. simpl in Rd.
    assert (dval (dsub FP cl boundary) == dval cl - dval boundary)%Q as En by by apply (dsub_val (i:=41) (f:=40)).
    apply ddiv_faithful in Ed; [|done]. rewrite En in Ed. assert (dval (dec_of_Z 1) == 1)%Q as E1 by reflexivity.
    eexists. split; [reflexivity|]. cbn [too_extended]. rewrite dltb_false, dltb_spec, E1. split.
    + intros [_ Hd]. apply (faithful_upper 1 0 1 FP _ d) in Ed; [exact Ed| |done|].
      * split; [done|]. exists 1. split; [reflexivity|done].
      * apply Qle_shift_div_r; [done|]. by rewrite Qmult_1_l.
    + intros [Hd|Hd]; [lra|]. assert (1 + q10 (-255) <= dval d)%Q as Hx.
      { apply (faithful_lower 1 255 (1 + q10 (-255)) FP _ d) in Ed; [exact Ed| |done|by apply Qle_shift_div_l].
        split; [done|]. exists (10 ^ 255 + 1). split; [reflexivity|done]. }
      pose proof (q10_pos (-255)). lra.
  - apply dltb_false in E. rewrite dval_0 in E. exists None. split; [done|]. split; [intros [Hx _]; lra|done].
Qed.

(** ** The rules of the breakout *)

(** Enough closed candles to decide on: 20 hourly ones before the latest. *)
Definition breakout_warm (c : strategy_context) : Prop :=
  51 <= Z.of_nat (length (regime (sc_snapshot c))) /\ 21 <= Z.of_nat (length (primary (sc_snapshot c)))
  /\ 2 <= Z.of_nat (length (context (sc_snapshot c))).

(** What the rules read: the regime, the highest high of the 20 bars and the average
    true range of the 14 before the latest one, and that bar's own prices, with its
    height as the 28 digits of the default context hold it. *)
Record breakout_values (c : strategy_context) (r : regime_result) (boundary volatility high_ low_ close_ range : dec) : Prop := {
  bv_regime : classify_regime c = Ok r;
  bv_boundary : ready_value (rolling_high (removelast (primary (sc_snapshot c))) 20 (sc_decision_time_ms c)) boundary;
  bv_window : window_high (removelast (primary (sc_snapshot c))) 20 boundary;
  bv_volatility : ready_value (atr (removelast (primary (sc_snapshot c))) 14 (sc_decision_time_ms c)) volatility;
  bv_latest : exists latest, last (primary (sc_snapshot c)) = Some latest
    /\ Decimal (high latest) = Ok high_ /\ Decimal (low latest) = Ok low_ /\ Decimal (close latest) = Ok close_;
  bv_range : rounded_range high_ low_ range;
}.

(** What the 15m confirmation leaves of an entry. *)
Definition confirmed_entry (c : strategy_context) (low_ volatility close_ : dec) (out : result strategy_decision) : Prop :=
  (~ confirmed (context (sc_snapshot c)) -> out = no_trade c CONFIRMATION_FAILED)
  /\ (confirmed (context (sc_snapshot c)) -> levels_rules c BREAKOUT_ENTRY (dval low_) (dval volatility) (dval close_) out).

Record breakout_flat_rules (c : strategy_context) (r : regime_result) (boundary volatility high_ low_ close_ range : dec)
    (out : result strategy_decision) : Prop := {
  br_unknown : rr_regime r = UNKNOWN -> out = no_trade c REGIME_UNKNOWN;
  br_blocked : rr_regime r <> UNKNOWN -> rr_regime r <> TREND_UP -> out = no_trade c REGIME_BLOCKED;
  br_under : rr_regime r = TREND_UP -> (dval close_ <= dval boundary)%Q -> out = no_trade c SETUP_ABSENT;
  br_low : rr_regime r = TREND_UP -> ~ near_high high_ low_ close_ range -> out = no_trade c SETUP_ABSENT;
  br_far : rr_regime r = TREND_UP -> overextended boundary volatility close_ -> out = no_trade c SETUP_ABSENT;
  br_entry : rr_regime r = TREND_UP -> (dval boundary < dval close_)%Q -> near_high high_ low_ close_ range ->
    within_range boundary volatility close_ -> confirmed_entry c low_ volatility close_ out;
  br_edge : rr_regime r = TREND_UP -> (dval boundary < dval close_)%Q -> near_high high_ low_ close_ range ->
    out = no_trade c SETUP_ABSENT \/ confirmed_entry c low_ volatility close_ out;
}.

(** An open position must be left: the close at or under the invalidation or the
    boundary, or the up-trend over. *)
Definition breakout_exit (r : regime_result) (boundary close_ invalidation : dec) : Prop :=
  (dval close_ <= dval invalidation)%Q \/ rr_regime r <> TREND_UP \/ (dval close_ <= dval boundary)%Q.

Lemma _validated_breakout_rejects c pos setup : ~ (identity c = BREAKOUT_IDENTITY /\ context_valid c /\ state_ok pos setup) ->
  exists m, _validated_breakout c pos setup = Err (Raise BreakoutStrategyError m).
Proof.
  intros H. destruct (_validated_breakout c pos setup) as [[]|e] eqn:E; [by apply validated_ok in E|].
  apply validated_errors in E as [-> | ->]; eauto.
Qed.

Lemma removelast_take {A} (l : list A) : removelast l = take (length l - 1) l.
Proof. induction l as [|x [|y l] IH]; [done|done|]. change (removelast (x :: y :: l)) with (x :: removelast (y :: l)). rewrite IH. simpl. by rewrite Nat.sub_0_r. Qed.

Section BreakoutTheorem.
Context (c : strategy_context).
Hypothesis Hid : identity c = BREAKOUT_IDENTITY.
Hypothesis Hc : context_valid c.
Hypothesis Hv : candles_valid (sc_snapshot c).
Hypothesis Hn : Z.of_nat (length (primary (sc_snapshot c))) <= MAX_FEATURE_CANDLES.

Lemma breakout_series : series_ok (sc_decision_time_ms c) (removelast (primary (sc_snapshot c))).
Proof using Hc Hv Hn. rewrite removelast_take. apply series_prefix. apply snapshot_series; [apply Hc|done|done]. Qed.

Lemma breakout_bars_length : Z.of_nat (length (removelast (primary (sc_snapshot c)))) = Z.of_nat (length (primary (sc_snapshot c))) - 1.
Proof using Hc. clear Hn. pose proof (snapshot_nonempty _ (proj1 (proj2 Hc))). rewrite removelast_length. destruct (primary (sc_snapshot c)); [done|]. simpl. lia. Qed.

(** The history test of the code is [breakout_warm]. *)
Lemma breakout_history : exists r fb fv, classify_regime c = Ok r
  /\ rolling_high (removelast (primary (sc_snapshot c))) B_breakout_lookback (sc_decision_time_ms c) = Ok fb
  /\ atr (removelast (primary (sc_snapshot c))) B_atr_period (sc_decision_time_ms c) = Ok fv
  /\ (bool_decide (rr_reason r = RG_INSUFFICIENT_HISTORY) || negb (available fb) || negb (available fv)
       || (Z.of_nat (length (context (sc_snapshot c))) <? 2) = false <-> breakout_warm c)
  /\ (available fb = true -> exists b, fvalue fb = Some b /\ window_high (removelast (primary (sc_snapshot c))) B_breakout_lookback b)
  /\ (available fv = true -> exists v, fvalue fv = Some v /\ (0 <= dval v)%Q /\ below v).
Proof using All.
  pose proof breakout_series as Hso. pose proof breakout_bars_length as Hlen. destruct (regime_history c Hc Hv) as (r & Er & Hr). pose proof (so_valid _ _ Hso) as Hvp.
  destruct (feature_cases "ROLLING_HIGH" 0 rolling_high_value _ B_breakout_lookback _ (window_high (removelast (primary (sc_snapshot c))) B_breakout_lookback)
    ltac:(done) ltac:(done) Hso ltac:(done)) as (fb & Eb & Cb).
  { intros Hx. apply rolling_high_window; [done|]. rewrite Z.add_0_r in Hx. done. }
  destruct (feature_cases "ATR" 1 atr_value _ B_atr_period _ (fun v => (0 <= dval v)%Q /\ below v) ltac:(done) ltac:(done) Hso ltac:(done)) as (fv & Ev & Cv).
  { intros Hx. destruct (atr_value_nonneg B_atr_period _ Hvp ltac:(done)) as (v & Ev & Hv0). exists v. split; [done|]. split; [done|].
    exact (atr_value_below B_atr_period _ _ Hvp ltac:(done) Hx Ev). }
  exists r, fb, fv. split; [done|]. split; [exact Eb|]. split; [exact Ev|]. split; [|split].
  - rewrite !orb_false_iff, bool_decide_eq_false, Hr, !negb_false_iff, Z.ltb_ge. unfold breakout_warm.
    change (B_breakout_lookback + 0) with 20 in Cb. change (B_atr_period + 1) with 15 in Cv. rewrite Hlen in Cb, Cv.
    destruct Cb as [[-> H1]|(-> & H1 & _)], Cv as [[-> H2]|(-> & H2 & _)]; split; intros; destruct_and?; split_and?; done || lia.
  - intros Ha. destruct Cb as [[Hx _]|(_ & _ & b & Hb)]; [congruence|]. by exists b.
  - intros Ha. destruct Cv as [[Hx _]|(_ & _ & v & Hb)]; [congruence|]. by exists v.
Qed.

Lemma breakout_cold pos setup : state_ok pos setup -> ~ breakout_warm c -> evaluate_breakout c pos setup = no_trade c R_INSUFFICIENT_HISTORY.
Proof using All.
  intros Hst Hw. destruct breakout_history as (r & fb & fv & Er & Eb & Ev & Hg & _). unfold evaluate_breakout, _validated_breakout.
  rewrite (proj2 (validated_ok _ _ _ c pos setup)) by done. rewrite Er, Eb, Ev. cbn [rbind rcatch].
  rewrite (not_false_is_true _ (fun H => Hw (proj1 Hg H))). apply no_trade_ok. in_list.
Qed.

(** Past the history test both states of the candidate run on the same values. *)
Lemma breakout_known : breakout_warm c -> exists r fb fv b v latest h lo cl location range extension,
  classify_regime c = Ok r
  /\ rolling_high (removelast (primary (sc_snapshot c))) B_breakout_lookback (sc_decision_time_ms c) = Ok fb
  /\ atr (removelast (primary (sc_snapshot c))) B_atr_period (sc_decision_time_ms c) = Ok fv
  /\ bool_decide (rr_reason r = RG_INSUFFICIENT_HISTORY) || negb (available fb) || negb (available fv)
     || (Z.of_nat (length (context (sc_snapshot c))) <? 2) = false
  /\ fvalue fb = Some b /\ fvalue fv = Some v /\ latest_primary (sc_snapshot c) = Ok latest
  /\ (positive_amount (high latest) h /\ positive_amount (low latest) lo /\ positive_amount (close latest) cl)
  /\ breakout_values c r b v h lo cl range
  /\ close_location h lo cl = Ok location /\ (dltb location (Dec false 75 (-2)) = false <-> near_high h lo cl range)
  /\ extension_atr cl b v = Ok extension /\ (within_range b v cl -> too_extended extension (dec_of_Z 1) = false)
  /\ (overextended b v cl -> too_extended extension (dec_of_Z 1) = true)
  /\ (0 <= dval v)%Q /\ below v.
Proof using All.
  intros Hw. destruct breakout_history as (r & fb & fv & Er & Eb & Ev & Hg & Hfb & Hfv). pose proof (proj2 Hg Hw) as Eg.
  assert (available fb = true /\ available fv = true) as [Ab Av] by (rewrite !orb_false_iff, !negb_false_iff in Eg; tauto).
  destruct (Hfb Ab) as (b & Vb & Wb). destruct (Hfv Av) as (v & Vv & V0 & V1).
  destruct (last_candle_some _ (snapshot_nonempty _ (proj1 (proj2 Hc)))) as (latest & El & Hl & Hin).
  assert (candle_valid latest) as Hval by (destruct Hv as [Hvp' _]; rewrite Forall_forall in Hvp'; by apply Hvp').
  destruct (candle_amounts latest Hval) as (o & h & lo & cl & vo & _ & Hh & Hlo & Hcl & _ & _ & Bcl).
  destruct (close_location_spec _ _ _ _ _ _ Hh Hlo Hcl Bcl) as (loc & range & Eloc & Hrange & Hloc).
  destruct (proj1 Wb) as [sb Hsb]. destruct (extension_spec sb _ b v cl Hsb Hcl) as (ext & Eext & X1 & X2).
  exists r, fb, fv, b, v, latest, h, lo, cl, loc, range, ext. split_and!; try done.
  constructor; [done|exact (ready_of _ _ _ Eb Ab Vb)|exact Wb|exact (ready_of _ _ _ Ev Av Vv)| |done].
  exists latest. split; [done|]. split; [apply Hh|]. split; [apply Hlo|apply Hcl].
Qed.

(** Once the close is over the boundary and near its high, the extension decides. *)
Lemma breakout_rest lo v cl (far : bool) : 2 <= Z.of_nat (length (context (sc_snapshot c))) ->
  (exists s, positive_amount s lo) -> (exists s, positive_amount s cl) -> (0 <= dval v)%Q -> below v ->
  let out := if far then _no_trade c SETUP_ABSENT else
    let* confirmed := confirmation (context (sc_snapshot c)) in
    if negb confirmed then _no_trade c CONFIRMATION_FAILED
    else
      let* fraction := Decimal B_stop_atr_fraction in
      let* reward := Decimal B_reward_risk in
      let* levels := setup_levels lo v cl fraction reward in
      match levels with
      | None => _no_trade c SETUP_ABSENT
      | Some (invalidation, target) => enter c BREAKOUT_ENTRY cl invalidation target
      end in
  (far = true -> out = no_trade c SETUP_ABSENT) /\ (far = false -> confirmed_entry c lo v cl out).
Proof using Hv.
  intros H2 [sl Hlo] [sc Hcl] P1 P2. destruct (confirmation_exact (context (sc_snapshot c)) ltac:(apply Hv) H2) as (b & Ec & Hcf). cbv zeta. split; intros ->.
  - apply no_trade_ok. in_list.
  - rewrite Ec. cbn [rbind]. split; intros Hx.
    + rewrite (not_true_is_false _ (fun H => Hx (proj1 Hcf H))). apply no_trade_ok. in_list.
    + rewrite (proj2 Hcf Hx). exact (levels_decision c BREAKOUT_ENTRY lo v cl _ _ ltac:(in_list) Hlo Hcl P1 P2).
Qed.

Lemma breakout_flat : breakout_warm c -> exists r b v h lo cl range, breakout_values c r b v h lo cl range
  /\ breakout_flat_rules c r b v h lo cl range (evaluate_breakout c false None).
Proof using All.
  intros Hw. destruct (breakout_known Hw) as (r & fb & fv & b & v & latest & h & lo & cl & loc & range & ext & Er & Eb & Ev & Eg & Vb & Vv & El
    & (Hh & Hlo & Hcl) & Hval & Eloc & Hloc & Eext & X1 & X2 & P1 & P2).
  exists r, b, v, h, lo, cl, range. split; [done|].
  destruct (breakout_rest lo v cl (too_extended ext (dec_of_Z 1)) (proj2 (proj2 Hw)) (ex_intro (fun s => positive_amount s lo) _ Hlo) (ex_intro (fun s => positive_amount s cl) _ Hcl) P1 P2) as [F1 F2].
  unfold evaluate_breakout, _validated_breakout. rewrite (proj2 (validated_ok _ _ _ c false None)) by done.
  rewrite Er, Eb, Ev. cbn [rbind rcatch]. rewrite Eg, El. unfold feature_value. rewrite Vb, Vv. cbn [rbind].
  rewrite (proj1 (proj1 Hcl)), (proj1 (proj1 Hh)), (proj1 (proj1 Hlo)). cbn [rbind]. rewrite Eloc, Eext. cbn [rbind].
  change (Decimal B_minimum_close_location) with (Ok (Dec false 75 (-2)) : result dec).
  change (Decimal B_maximum_extension_atr) with (Ok (dec_of_Z 1) : result dec). cbn [rbind].
  constructor; [intros Hx|intros Hu Hx|intros Hx Hle|intros Hx Hlow|intros Hx Hfar|intros Hx Hlt Hnear Hin|intros Hx Hlt Hnear].
  - rewrite bool_decide_true by done. apply no_trade_ok. in_list.
  - rewrite !bool_decide_false by done. apply no_trade_ok. in_list.
  - rewrite Hx. cbn. rewrite (proj2 (dleb_spec _ _) Hle). apply no_trade_ok. in_list.
  - rewrite Hx. cbn. rewrite (not_false_is_true _ (fun H => Hlow (proj1 Hloc H))). cbn [orb]. destruct (dleb cl b); apply no_trade_ok; in_list.
  - rewrite Hx. cbn. rewrite (X2 Hfar), orb_true_r. destruct (dleb cl b); apply no_trade_ok; in_list.
  - rewrite Hx, (proj2 (dleb_false _ _) Hlt), (proj2 Hloc Hnear). cbn [negb orb]. rewrite bool_decide_false, bool_decide_true by done. cbn [negb].
    exact (F2 (X1 Hin)).
  - rewrite Hx, (proj2 (dleb_false _ _) Hlt), (proj2 Hloc Hnear). cbn [negb orb]. rewrite bool_decide_false, bool_decide_true by done. cbn [negb].
    destruct (too_extended ext (dec_of_Z 1)); [left; exact (F1 eq_refl)|right; exact (F2 eq_refl)].
Qed.

Lemma breakout_position s : setup_valid s -> breakout_warm c -> exists r b v h lo cl range inv, breakout_values c r b v h lo cl range
  /\ denotes (invalidation_price s) inv
  /\ position_rules c (breakout_exit r b cl inv) (evaluate_breakout c true (Some s)).
Proof using All.
  intros Hset Hw. destruct (breakout_known Hw) as (r & fb & fv & b & v & latest & h & lo & cl & loc & range & ext & Er & Eb & Ev & Eg & Vb & Vv & El
    & (_ & _ & Hcl) & Hval & _).
  destruct (proj1 (setup_valid_spec s) Hset) as (ref & inv & tgt & _ & Hinv & _).
  exists r, b, v, h, lo, cl, range, inv. split; [done|]. split; [done|].
  unfold evaluate_breakout, _validated_breakout. rewrite (proj2 (validated_ok _ _ _ c true (Some s))) by done.
  rewrite Er, Eb, Ev. cbn [rbind rcatch]. rewrite Eg, El. unfold feature_value, setup_invalidation. rewrite Vb, Vv. cbn [rbind].
  rewrite (proj1 (proj1 Hcl)). cbn [rbind]. rewrite (proj1 Hinv). cbn [rbind]. apply position_decision.
  unfold breakout_exit. rewrite !orb_true_iff, negb_true_iff, bool_decide_eq_false, !dleb_spec. tauto.
Qed.
End BreakoutTheorem.

(** C14. The range-breakout candidate, outcome by outcome.  A wrong identity, an
    invalid context or a setup that does not fit the position state is a
    BreakoutStrategyError.  With fewer than 51 4h, 21 hourly or 2 15m candles the
    history is insufficient, flat or not.  Otherwise, when flat: no trade for an
    unknown regime, none for another than the up-trend, none when the close is not
    over the highest high of the 20 previous bars, not in the upper quarter of its
    bar (of a height rounded to 28 digits), or more than one average true range of
    the 14 previous bars over the boundary; when it is over the boundary, in that
    quarter and at most the average true range over it, no trade exactly when the
    last 15m bar does not confirm, and else the levels decide as for the trend
    pullback, from the low of the bar.  (Less than one part in [10 ^ 255] over that
    extension the division's last digit decides between the two.)  In a position it
    exits exactly when the close is at or under the invalidation or the boundary or
    the up-trend has ended, and holds exactly otherwise. *)
Theorem breakout_sound c pos setup :
  Z.of_nat (length (primary (sc_snapshot c))) <= MAX_FEATURE_CANDLES -> candles_valid (sc_snapshot c) ->
  (~ (identity c = BREAKOUT_IDENTITY /\ context_valid c /\ state_ok pos setup) ->
     exists m, evaluate_breakout c pos setup = Err (Raise BreakoutStrategyError m))
  /\ (identity c = BREAKOUT_IDENTITY -> context_valid c -> state_ok pos setup ->
      (~ breakout_warm c -> evaluate_breakout c pos setup = no_trade c R_INSUFFICIENT_HISTORY)
      /\ (breakout_warm c -> exists r boundary volatility high_ low_ close_ range,
            breakout_values c r boundary volatility high_ low_ close_ range
            /\ match setup with
               | None => breakout_flat_rules c r boundary volatility high_ low_ close_ range (evaluate_breakout c pos setup)
               | Some s => exists inv, denotes (invalidation_price s) inv
                   /\ position_rules c (breakout_exit r boundary close_ inv) (evaluate_breakout c pos setup)
               end)).
Proof.
  intros Hn Hv. split.
  - intros H. destruct (_validated_breakout_rejects c pos setup H) as [m E]. exists m. unfold evaluate_breakout. by rewrite E.
  - intros Hid Hc Hst. split; [by apply breakout_cold|]. intros Hw. destruct setup as [s|].
    + destruct Hst as [-> Hs]. destruct (breakout_position c Hid Hc Hv Hn s Hs Hw) as (r & b & v & h & lo & cl & range & inv & Hval & Hinv & Hp).
      exists r, b, v, h, lo, cl, range. split; [done|]. by exists inv.
    + rewrite Hst. by apply breakout_flat.
Qed.

(** A breakout: flat hourly bars, then a close over all of them. *)
Definition breakout_bars (n : nat) (i : nat) : (Z * Z) * (Z * Z) :=
  if Nat.eqb (S i) n then ((1005, 1045), (1003, 1040)) else ((1000, 1030), (980, 1005)).
Definition breakout_context : strategy_context :=
  new_context_default BREAKOUT_IDENTITY
    (MarketSnapshot "BTCUSDT" sample_time (sample_bars "1h" HOUR_MS sample_time 25 (breakout_bars 25))
       (sample_bars "15m" (15 * 60 * 1000) sample_time 2 rising) (sample_bars "4h" (4 * HOUR_MS) sample_time 51 rising)).

Example sample_breakout_entry :
  match evaluate_breakout breakout_context false None with
  | Ok d => Some (sd_action d, sd_setup d) | Err _ => None end
  = Some (SEnterLong, Some (LongSetup "1040" "990.5" "1139")).
Proof. vm_compute. reflexivity. Qed.

(** The sample enters by these rules. *)
Lemma breakout_sound_witness : exists r boundary volatility high_ low_ close_ range,
  breakout_values breakout_context r boundary volatility high_ low_ close_ range
  /\ breakout_flat_rules breakout_context r boundary volatility high_ low_ close_ range (evaluate_breakout breakout_context false None)
  /\ evaluate_breakout breakout_context false None
     = Ok (StrategyDecision breakout_context SEnterLong BREAKOUT_ENTRY (Some (LongSetup "1040" "990.5" "1139"))).
Proof.
  destruct (proj2 (proj2 (breakout_sound breakout_context false None
              ltac:(vm_compute; congruence) ltac:(apply candles_valid_bool; vm_compute; reflexivity))
              ltac:(reflexivity) ltac:(split; [|split]; vm_compute; reflexivity) ltac:(reflexivity)))
    as (r & b & v & h & lo & cl & range & H1 & H2); [vm_compute; split_and!; congruence|].
  exists r, b, v, h, lo, cl, range. split; [exact H1|]. split; [exact H2|]. vm_compute. reflexivity.
Defined.
