(* ===== verification/Registry.v ===== *)
(** * The strategy registry (yatl/strategy/registry.py)

    Parameter rules, definitions, configurations with their digest, and the
    registry; constructors that normalize their fields return the normalized
    record.  The registered configurations of the two candidates, and what a
    configuration digest identifies. *)
From stdpp Require Import sorting.
From S2P Require Import Prelude PyDecimal PyText Digest Market BacktestConfig MarketView Fills StrategyContracts Features Regime Trend Breakout.

(** [re.compile(r"[a-z][a-z0-9_]{0,39}")] *)
Definition is_lower (c : ascii) : bool := ((97 <=? ord c) && (ord c <=? 122))%N.
Definition NAME (s : string) : bool :=
  match txt s with
  | c :: l => is_lower c && forallb (fun c => is_lower c || is_digit c || Ascii.eqb c "_"%char) l && (length l <=? 39)%nat
  | [] => false
  end.
Definition RESERVED : list string := [
  "quantity"; "position_size"; "broker"; "api_key"; "api_secret"; "credential"; "account"; "order"; "leverage"; "paper_only";
  "live_master_lock"; "spot_only"; "allow_short"; "allow_leverage"]%string.

(** [int | str] *)
Inductive param_value : Type := PInt (n : Z) | PText (s : string).
#[global] Instance param_value_eq_dec : EqDecision param_value.
Proof. solve_decision. Defined.

Definition _number (v : param_value) (kind : string) : result dec :=
  let wrong := Err (Raise RegistryError "Parameter must match its exact declared numeric type") in
  match v with
  | PInt n => if String.eqb kind "integer" then Ok (dec_of_Z n) else wrong
  | PText s => if String.eqb kind "decimal" && decimal_pattern s then Decimal s else wrong
  end.

Definition _canonical_value (v : param_value) (kind : string) : result param_value :=
  let* _ := _number v kind in
  match v with
  | PInt n => Ok (PInt n)
  | PText s => Ok (PText (str (strip_plain (txt s))))
  end.

Record param_rule : Type := ParameterRule {
  pr_name : string;
  pr_kind : string;
  pr_minimum : param_value;
  pr_maximum : param_value;
}.
#[global] Instance param_rule_eq_dec : EqDecision param_rule.
Proof. solve_decision. Defined.

Definition MAX_PARAMETER : dec := dec_of_Z 10000.

Definition new_rule (r : param_rule) : result param_rule :=
  raise_if negb (NAME (pr_name r)) || str_in (pr_name r) RESERVED || negb (str_in (pr_kind r) ["integer"; "decimal"]%string)
    with RegistryError "Parameter rule identity is invalid" ;;
  let* low := _number (pr_minimum r) (pr_kind r) in
  let* high := _number (pr_maximum r) (pr_kind r) in
  raise_if negb (dleb dec0 low && dleb low high && dleb high MAX_PARAMETER) with RegistryError "Parameter rule bounds are invalid" ;;
  let* minimum := _canonical_value (pr_minimum r) (pr_kind r) in
  let* maximum := _canonical_value (pr_maximum r) (pr_kind r) in
  Ok (ParameterRule (pr_name r) (pr_kind r) minimum maximum).

Definition validate (r : param_rule) (v : param_value) : result param_value :=
  let* number := _number v (pr_kind r) in
  let* low := _number (pr_minimum r) (pr_kind r) in
  let* high := _number (pr_maximum r) (pr_kind r) in
  raise_if negb (dleb low number && dleb number high) with RegistryError "Parameter is outside its declared range" ;;
  _canonical_value v (pr_kind r).

Record strategy_definition : Type := StrategyDefinition {
  df_identity : strategy_identity;
  df_parameters : list param_rule;
}.
#[global] Instance strategy_definition_eq_dec : EqDecision strategy_definition.
Proof. solve_decision. Defined.

(** Names are distinct, so sorting is by name. *)
Definition by_name (l : list param_rule) : list param_rule := map snd (sort_items (map (fun r => (pr_name r, r)) l)).

Definition new_definition (d : strategy_definition) : result strategy_definition :=
  do* rcatch (identity_post_init (df_identity d)) [StrategyContractError; TypeError; ValueError]
        (Raise RegistryError "Definition identity is invalid") ;;
  raise_if (32 <? length (df_parameters d))%nat with RegistryError "Definition rules must be an immutable bounded tuple" ;;
  do* rmap new_rule (df_parameters d) ;;
  raise_if negb (bool_decide (NoDup (map pr_name (df_parameters d)))) with RegistryError "Duplicate parameter name" ;;
  Ok (StrategyDefinition (df_identity d) (by_name (df_parameters d))).

Record strategy_configuration : Type := StrategyConfiguration {
  cg_definition : strategy_definition;
  cg_values : list (string * param_value);
}.
#[global] Instance strategy_configuration_eq_dec : EqDecision strategy_configuration.
Proof. solve_decision. Defined.

Definition find_rule (name : string) (l : list param_rule) : option param_rule := find (fun r => String.eqb (pr_name r) name) l.

Definition validated_value (rules : list param_rule) (nv : string * param_value) : result (string * param_value) :=
  match find_rule (fst nv) rules with
  | Some r => let* v := validate r (snd nv) in Ok (fst nv, v)
  | None => Err (Raise KeyError (fst nv))
  end.

Definition new_configuration (c : strategy_configuration) : result strategy_configuration :=
  do* new_definition (cg_definition c) ;;
  let names := map fst (cg_values c) in
  let rules := df_parameters (cg_definition c) in
  raise_if negb (bool_decide (NoDup names)) || negb (forallb (fun n => str_in n (map pr_name rules)) names)
           || negb (forallb (fun n => str_in n names) (map pr_name rules))
    with RegistryError "Unknown, duplicate or missing parameter" ;;
  let* normalized := rmap (validated_value rules) (cg_values c) in
  Ok (StrategyConfiguration (cg_definition c) (sort_items normalized)).

Definition param_json (v : param_value) : json := match v with PInt n => JInt n | PText s => JStr s end.
Definition rule_json (r : param_rule) : json :=
  JObj [("name", JStr (pr_name r)); ("kind", JStr (pr_kind r)); ("minimum", param_json (pr_minimum r)); ("maximum", param_json (pr_maximum r))]%string.

Definition configuration_payload (c : strategy_configuration) : list (string * json) := [
  ("schema_version", JInt 1); ("strategy_id", JStr (strategy_id (df_identity (cg_definition c))));
  ("strategy_version", JStr (version (df_identity (cg_definition c))));
  ("rules", JArr (map rule_json (df_parameters (cg_definition c))));
  ("parameters", JObj (map (fun nv => (fst nv, param_json (snd nv))) (cg_values c)));
  ("policy", JObj [("paper_only", JBool true); ("live_master_lock", JStr "OFF"); ("spot_only", JBool true); ("allow_short", JBool false);
                   ("allow_leverage", JBool false)])]%string.

Definition configuration_json (c : strategy_configuration) : result text :=
  do* new_configuration c ;; Ok (json_dumps (JObj (configuration_payload c)) ++ [chr 10]).
Definition configuration_sha256 (c : strategy_configuration) : result string :=
  let* t := configuration_json c in Ok (sha256_hex t).

Definition strategy_registry : Type := list strategy_definition.

Definition definition_key (d : strategy_definition) : string * string := (strategy_id (df_identity d), version (df_identity d)).
(** Tuples are ordered by their first components, then their second. *)
Definition key_leb (a b : string * string) : bool :=
  if String.eqb (fst a) (fst b) then String.leb (snd a) (snd b) else String.leb (fst a) (fst b).
Fixpoint registry_keys (l : list strategy_definition) (seen : list (string * string)) : result unit :=
  match l with
  | [] => Ok tt
  | d :: rest =>
      do* new_definition d ;;
      raise_if bool_decide (definition_key d ∈ seen) with RegistryError "Duplicate strategy ID/version" ;;
      registry_keys rest (definition_key d :: seen)
  end.

Definition new_registry (l : list strategy_definition) : result strategy_registry :=
  raise_if (128 <? length l)%nat with RegistryError "Registry requires an immutable bounded definition tuple" ;;
  do* registry_keys l [] ;;
  Ok (isort (fun a b => key_leb (definition_key a) (definition_key b)) l).

Definition configure (registry : strategy_registry) (i : strategy_identity) (parameters : list (string * param_value)) : result strategy_configuration :=
  do* new_registry registry ;;
  match find (fun d => bool_decide (df_identity d = i)) registry with
  | Some d => new_configuration (StrategyConfiguration d parameters)
  | None => Err (Raise RegistryError "Strategy ID/version is not registered")
  end.

(** ** The registered candidates *)

Definition registered (d : strategy_definition) (parameters : list (string * param_value)) : result strategy_configuration :=
  let* rules := rmap new_rule (df_parameters d) in
  let* d := new_definition (StrategyDefinition (df_identity d) rules) in
  let* registry := new_registry [d] in
  configure registry (df_identity d) parameters.

Definition TREND_DEFINITION : strategy_definition := StrategyDefinition TREND_IDENTITY [
  ParameterRule "atr_period" "integer" (PInt 2) (PInt 100);
  ParameterRule "primary_sma_period" "integer" (PInt 2) (PInt 200);
  ParameterRule "pullback_lookback" "integer" (PInt 1) (PInt 10);
  ParameterRule "reward_risk" "decimal" (PText "1") (PText "10");
  ParameterRule "stop_atr_fraction" "decimal" (PText "0") (PText "2")].
Definition TREND_PARAMETERS : list (string * param_value) := [
  ("atr_period", PInt 14); ("primary_sma_period", PInt 20); ("pullback_lookback", PInt 3); ("reward_risk", PText "2");
  ("stop_atr_fraction", PText "0.25")]%string.
Definition TREND_CONFIGURATION : result strategy_configuration := registered TREND_DEFINITION TREND_PARAMETERS.

Definition BREAKOUT_DEFINITION : strategy_definition := StrategyDefinition BREAKOUT_IDENTITY [
  ParameterRule "atr_period" "integer" (PInt 2) (PInt 100);
  ParameterRule "breakout_lookback" "integer" (PInt 2) (PInt 200);
  ParameterRule "maximum_extension_atr" "decimal" (PText "0") (PText "10");
  ParameterRule "minimum_close_location" "decimal" (PText "0") (PText "1");
  ParameterRule "reward_risk" "decimal" (PText "1") (PText "10");
  ParameterRule "stop_atr_fraction" "decimal" (PText "0") (PText "2")].
Definition BREAKOUT_PARAMETERS : list (string * param_value) := [
  ("atr_period", PInt 14); ("breakout_lookback", PInt 20); ("maximum_extension_atr", PText "1"); ("minimum_close_location", PText "0.75");
  ("reward_risk", PText "2"); ("stop_atr_fraction", PText "0.25")]%string.
Definition BREAKOUT_CONFIGURATION : result strategy_configuration := registered BREAKOUT_DEFINITION BREAKOUT_PARAMETERS.

(** The candidates run with exactly the registered parameters. *)
Example trend_registered : TREND_CONFIGURATION = Ok (StrategyConfiguration TREND_DEFINITION [
  ("atr_period", PInt T_atr_period); ("primary_sma_period", PInt T_primary_sma_period); ("pullback_lookback", PInt T_pullback_lookback);
  ("reward_risk", PText T_reward_risk); ("stop_atr_fraction", PText T_stop_atr_fraction)]%string).
Proof. vm_compute. reflexivity. Qed.

Example breakout_registered : BREAKOUT_CONFIGURATION = Ok (StrategyConfiguration BREAKOUT_DEFINITION [
  ("atr_period", PInt B_atr_period); ("breakout_lookback", PInt B_breakout_lookback); ("maximum_extension_atr", PText B_maximum_extension_atr);
  ("minimum_close_location", PText B_minimum_close_location); ("reward_risk", PText B_reward_risk);
  ("stop_atr_fraction", PText B_stop_atr_fraction)]%string).
Proof. vm_compute. reflexivity. Qed.

(** ** Parameter values *)

Lemma number_inv v k d : _number v k = Ok d ->
  (k = "integer"%string /\ exists n, v = PInt n /\ d = dec_of_Z n)
  \/ (k = "decimal"%string /\ exists s, v = PText s /\ Decimal s = Ok d /\ plain_range false d /\ format_f d = s).
Proof.
  destruct v as [n|s]; unfold _number.
  - destruct (String.eqb_spec k "integer") as [->|]; [|done]. intros [= <-]. left. by split; [|exists n].
  - destruct (String.eqb_spec k "decimal") as [->|]; [|done]. cbn [andb]. destruct (decimal_pattern s) eqn:E; [|done].
    intros Hd. right. split; [done|]. exists s. destruct (decimal_pattern_spec _ E) as (d' & Ed & Hp & Hf).
    assert (d' = d) as -> by congruence. done.
Qed.

Lemma number_text d : plain_range false d -> _number (PText (format_f d)) "decimal" = Ok d.
Proof.
  intros (Hn & He & Hf). unfold _number. cbn [andb String.eqb Ascii.eqb Bool.eqb]. rewrite format_pattern by done. apply Decimal_format. lia.
Qed.

(** The canonical form of a value, from the number it denotes. *)
Definition canonical_form (v : param_value) (d : dec) : param_value :=
  match v with PInt n => PInt n | PText _ => PText (plain_text d) end.

Lemma canonical_value_ok v k d : _number v k = Ok d -> _canonical_value v k = Ok (canonical_form v d).
Proof.
  intros H. unfold _canonical_value. rewrite H. cbn [rbind].
  destruct (number_inv _ _ _ H) as [(_ & n & -> & _)|(_ & s & -> & _ & _ & <-)]; [done|].
  unfold canonical_form, plain_text, format_f. by rewrite txt_str.
Qed.

(** The canonical form denotes the same number and is its own canonical form. *)
Lemma canonical_form_reads v k d : _number v k = Ok d ->
  exists d', _number (canonical_form v d) k = Ok d' /\ (dval d' == dval d)%Q /\ canonical_form (canonical_form v d) d' = canonical_form v d.
Proof.
  intros H. destruct (number_inv _ _ _ H) as [(-> & n & -> & ->)|(-> & s & -> & _ & (Hn & He & Hf) & _)]; [by exists (dec_of_Z n)|].
  destruct (plain_text_spec d) as (d' & E & Hn' & V & He'). exists d'. cbn [canonical_form]. rewrite E.
  assert (plain_range false d') as Hp.
  { split; [congruence|]. split; [lia|]. apply fits_of_val; [lia|lia|]. rewrite V. by apply (fits_abs_val 40 40). }
  split; [by apply number_text|]. split; [done|]. f_equal. rewrite <- E. apply plain_text_value; congruence.
Qed.

(** Two values of one kind denote the same number. *)
Definition same_number (v v' : param_value) : Prop :=
  exists k d d', _number v k = Ok d /\ _number v' k = Ok d' /\ (dval d == dval d')%Q.

Lemma canonical_form_same v v' k d d' : _number v k = Ok d -> _number v' k = Ok d' ->
  canonical_form v d = canonical_form v' d' <-> same_number v v'.
Proof.
  intros H H'. split.
  - intros E. exists k, d, d'. split; [done|]. split; [done|].
    destruct (canonical_form_reads _ _ _ H) as (e & N1 & V1 & _), (canonical_form_reads _ _ _ H') as (e' & N2 & V2 & _).
    rewrite E in N1. rewrite <- V1, <- V2. assert (e = e') as -> by congruence. done.
  - intros (k0 & d0 & d0' & N & N' & V).
    destruct (number_inv _ _ _ H) as [(-> & n & -> & ->)|(-> & s & -> & E & (Hn & _) & _)];
      (destruct (number_inv _ _ _ H') as [(Hk & n' & -> & ->)|(Hk & s' & -> & E' & (Hn' & _) & _)]; try discriminate Hk);
      (destruct (number_inv _ _ _ N) as [(-> & m & E1 & ->)|(-> & t & E1 & D & _)]; try discriminate E1);
      (destruct (number_inv _ _ _ N') as [(Hk0 & m' & E1' & ->)|(Hk0 & t' & E1' & D' & _)]; try discriminate E1').
    + injection E1 as <-. injection E1' as <-. rewrite !dval_dec_of_Z in V. cbn [canonical_form]. f_equal. by apply inject_Z_injective.
    + injection E1 as <-. injection E1' as <-. cbn [canonical_form]. f_equal. apply plain_text_value; [congruence|].
      assert (d = d0) as -> by congruence. assert (d' = d0') as -> by congruence. done.
Qed.

(** A text without a fractional part, or whose fractional part does not end in a
    zero and is not empty. *)
Definition canonical_spelling (v : param_value) : Prop :=
  match v with
  | PInt _ => True
  | PText s => dot ∉ txt s \/ (last (txt s) <> Some zero_chr /\ last (txt s) <> Some dot)
  end.

Lemma rstrip_fixed x l : rstrip x l = l <-> last l <> Some x.
Proof.
  destruct (rstrip_spec x l) as (m & E & H). split.
  - intros F. rewrite F in H. destruct H as [->|H]; [done|exact H].
  - intros Hl. destruct m as [|m]; [by rewrite app_nil_r in E|]. exfalso. apply Hl. rewrite E. replace (repeat x (S m)) with (repeat x m ++ [x]) by (by rewrite <- repeat_cons).
    by rewrite app_assoc, last_snoc.
Qed.

Lemma strip_fixed l : strip_plain l = l <-> dot ∉ l \/ (last l <> Some zero_chr /\ last l <> Some dot).
Proof.
  unfold strip_plain. assert (existsb (Ascii.eqb dot) l = true <-> dot ∈ l) as Hd.
  { rewrite existsb_exists. split; [intros (c & Hc & E); apply Ascii.eqb_eq in E; subst; by apply list_elem_of_In|intros Hc; exists dot; split; [by apply list_elem_of_In|apply Ascii.eqb_refl]]. }
  destruct (existsb (Ascii.eqb dot) l); [|split; [intros _; left; intros X; by apply Hd in X|done]]. split.
  - intros F. right. assert (rstrip zero_chr l = l) as Fz.
    { destruct (rstrip_spec zero_chr l) as (m & E & _). destruct (rstrip_spec dot (rstrip zero_chr l)) as (n & E' & _). rewrite F in E'. rewrite E' in E.
      pose proof (f_equal length E) as Hl. rewrite !length_app, !repeat_length in Hl. destruct n; [by rewrite app_nil_r in E'|lia]. }
    rewrite Fz in F. split; by apply rstrip_fixed.
  - intros [X|[Hz Hp]]; [exfalso; by apply X, Hd|]. by rewrite (proj2 (rstrip_fixed _ _) Hz), (proj2 (rstrip_fixed _ _) Hp).
Qed.

(** The spellings the canonicalization leaves alone are the canonical ones. *)
Lemma canonical_form_spelling v k d : _number v k = Ok d -> canonical_form v d = v <-> canonical_spelling v.
Proof.
  intros H. destruct (number_inv _ _ _ H) as [(_ & n & -> & _)|(_ & s & -> & _ & _ & Es)]; [done|]. cbn [canonical_form canonical_spelling].
  rewrite <- strip_fixed. assert (plain_text d = str (strip_plain (txt s))) as -> by (unfold plain_text, format_f in *; by rewrite <- Es, txt_str).
  split; [intros [= E]|intros ->; f_equal; apply str_txt]. rewrite <- E at 2. by rewrite txt_str.
Qed.

(** ** Rules, definitions and configurations *)

(** A record as its constructor leaves it. *)
Definition constructed (d : strategy_definition) : Prop :=
  new_definition d = Ok d /\ Forall (fun r => new_rule r = Ok r) (df_parameters d).
Definition registry_ok (l : strategy_registry) : Prop := new_registry l = Ok l /\ Forall constructed l.

Lemma validate_inv r v w : validate r v = Ok w -> exists d, _number v (pr_kind r) = Ok d /\ w = canonical_form v d.
Proof.
  unfold validate. intros H. res_inv. exists a. split; [done|]. rewrite (canonical_value_ok _ _ _ Hr) in H. congruence.
Qed.

(** A validated value passes its rule again, unchanged. *)
Lemma validate_again r v w : validate r v = Ok w -> validate r w = Ok w.
Proof.
  unfold validate. intros H. res_inv. rewrite (canonical_value_ok _ _ _ Hr) in H. injection H as <-.
  destruct (canonical_form_reads _ _ _ Hr) as (d' & N & V & C). rewrite N, Hr0, Hr1. cbn [rbind].
  assert (dleb a0 d' && dleb d' a1 = dleb a0 a && dleb a a1) as ->.
  { f_equal; apply Bool.eq_true_iff_eq; by rewrite !dleb_spec, V. }
  rewrite Hc. rewrite (canonical_value_ok _ _ _ N). by f_equal.
Qed.

Lemma sorted_names {A} (l : list (string * A)) : sorted_by_name l -> StronglySorted str_le (map fst l).
Proof.
  induction 1 as [|x l Hl IH Hx]; [constructor|]. cbn [map]. constructor; [done|].
  apply list.Forall_fmap. eapply Forall_impl; [exact Hx|]. done.
Qed.

Definition named (r : param_rule) : string * param_rule := (pr_name r, r).
Lemma named_names l : map fst (map named l) = map pr_name l.
Proof. rewrite map_map. by apply map_ext. Qed.

Lemma by_name_perm l : by_name l ≡ₚ l.
Proof. unfold by_name. rewrite sort_items_perm, map_map. cbn [snd]. by rewrite map_id. Qed.

Lemma by_name_sorted l : StronglySorted str_le (map pr_name (by_name l)).
Proof.
  unfold by_name. fold named. pose proof (sorted_names _ (sort_items_sorted (map named l))) as H.
  assert (Forall (fun kr => fst kr = pr_name (snd kr)) (sort_items (map named l))) as Hk.
  { apply sort_items_Forall. apply list.Forall_fmap. by apply Forall_true. }
  erewrite map_map, map_ext_Forall; [exact H|]. eapply Forall_impl; [exact Hk|]. by intros ? ->.
Qed.

Lemma definition_inv d d' : new_definition d = Ok d' ->
  NoDup (map pr_name (df_parameters d)) /\ df_parameters d' = by_name (df_parameters d) /\ df_identity d' = df_identity d.
Proof. unfold new_definition. intros H. res_inv. rewrite <- H. rewrite negb_false_iff, bool_decide_eq_true in *. done. Qed.

Lemma constructed_names d : constructed d ->
  NoDup (map pr_name (df_parameters d)) /\ StronglySorted str_le (map pr_name (df_parameters d)).
Proof.
  intros [H _]. destruct (definition_inv _ _ H) as (Hnd & E & _). split; [done|]. rewrite E. apply by_name_sorted.
Qed.

Lemma find_rule_in r l : NoDup (map pr_name l) -> r ∈ l -> find_rule (pr_name r) l = Some r.
Proof.
  unfold find_rule. induction l as [|x l IH]; [by rewrite elem_of_nil|]. cbn [map find]. rewrite NoDup_cons, elem_of_cons.
  intros [Hx Hl] [->|Hr]; [by rewrite String.eqb_refl|]. destruct (String.eqb_spec (pr_name x) (pr_name r)) as [E|]; [|by apply IH].
  destruct Hx. rewrite E. by apply list_elem_of_fmap_2.
Qed.

Lemma find_rule_name n l r : find_rule n l = Some r -> r ∈ l /\ pr_name r = n.
Proof. unfold find_rule. intros H. apply find_some in H as [H1 H2]. apply String.eqb_eq in H2. by rewrite list_elem_of_In. Qed.

(** A configuration as its constructor leaves it. *)
Record well_typed (c : strategy_configuration) : Prop := {
  wt_definition : constructed (cg_definition c);
  wt_names : map fst (cg_values c) = map pr_name (df_parameters (cg_definition c));
  wt_values : Forall (fun nv => validated_value (df_parameters (cg_definition c)) nv = Ok nv) (cg_values c);
}.

Lemma validated_value_ok rules nv nv' : validated_value rules nv = Ok nv' ->
  exists r, find_rule (fst nv) rules = Some r /\ validate r (snd nv) = Ok (snd nv') /\ fst nv' = fst nv.
Proof.
  unfold validated_value. destruct (find_rule _ _) as [r|]; [|done]. intros H. res_inv. subst nv'. by exists r.
Qed.

Lemma validated_value_again rules nv nv' : validated_value rules nv = Ok nv' -> validated_value rules nv' = Ok nv'.
Proof.
  intros H. destruct (validated_value_ok _ _ _ H) as (r & Hr & Hv & Hn). unfold validated_value. rewrite Hn, Hr.
  rewrite (validate_again _ _ _ Hv). cbn [rbind]. destruct nv'. cbn in *. by subst.
Qed.

Lemma validated_names rules l l' : Forall2 (fun nv nv' => validated_value rules nv = Ok nv') l l' -> map fst l' = map fst l.
Proof. induction 1 as [|nv nv' l l' H _ IH]; [done|]. cbn [map]. destruct (validated_value_ok _ _ _ H) as (? & _ & _ & ->). by f_equal. Qed.

Lemma str_all_in l m : forallb (fun n => str_in n m) l = true <-> (forall n, n ∈ l -> n ∈ m).
Proof. rewrite forallb_forall. split; intros H n Hn; [by apply str_in_spec, H, list_elem_of_In|by apply str_in_spec, H, list_elem_of_In]. Qed.

Lemma new_configuration_inv c c' : new_configuration c = Ok c' ->
  cg_definition c' = cg_definition c /\ NoDup (map fst (cg_values c))
  /\ (forall n, n ∈ map fst (cg_values c) <-> n ∈ map pr_name (df_parameters (cg_definition c)))
  /\ exists l, Forall2 (fun nv nv' => validated_value (df_parameters (cg_definition c)) nv = Ok nv') (cg_values c) l /\ cg_values c' = sort_items l.
Proof.
  unfold new_configuration. intros H. res_inv. rewrite !orb_false_iff, !negb_false_iff, bool_decide_eq_true, !str_all_in in Hc.
  destruct Hc as ((Hnd & H1) & H2). rewrite <- H. split; [done|]. split; [done|]. split; [intros n; split; auto|].
  eexists. split; [by apply rmap_ok|done].
Qed.

Lemma new_configuration_typed c c' : constructed (cg_definition c) -> new_configuration c = Ok c' -> well_typed c'.
Proof.
  intros Hd H. destruct (new_configuration_inv _ _ H) as (Ed & Hnd & Hn & l & Hl & Ev).
  pose proof (constructed_names _ Hd) as (Hdn & Hds). pose proof (validated_names _ _ _ Hl) as El.
  split; [by rewrite Ed|..]; rewrite Ed, Ev.
  - apply (StronglySorted_unique str_le); [apply sorted_names, sort_items_sorted|done|].
    rewrite (Permutation_map fst (sort_items_perm l)), El. by apply NoDup_Permutation.
  - apply sort_items_Forall. clear - Hl. induction Hl as [|x y l1 l2 H _ IH]; [constructor|].
    constructor; [exact (validated_value_again _ _ _ H)|exact IH].
Qed.

(** Constructing it again changes nothing. *)
Lemma well_typed_again c : well_typed c -> new_configuration c = Ok c.
Proof.
  intros [Hd Hn Hv]. pose proof (constructed_names _ Hd) as (Hdn & Hds). unfold new_configuration. destruct Hd as [Hd _].
  rewrite Hd. cbn [rbind]. rewrite Hn. rewrite (bool_decide_true _ Hdn), (proj2 (str_all_in _ _)) by done. cbn [negb orb].
  assert (rmap (validated_value (df_parameters (cg_definition c))) (cg_values c) = Ok (cg_values c)) as ->.
  { apply rmap_ok. clear - Hv. induction Hv; by constructor. }
  cbn [rbind]. rewrite sort_items_fixed; [by destruct c|by rewrite Hn|].
  rewrite <- Hn in Hds. clear - Hds. induction (cg_values c) as [|x l IH]; [constructor|]. cbn [map] in Hds.
  apply StronglySorted_inv in Hds as [H1 H2]. constructor; [by apply IH|]. apply (proj1 (list.Forall_fmap _ _ _)) in H2. exact H2.
Qed.

Lemma configure_inv registry i p c : registry_ok registry -> configure registry i p = Ok c ->
  exists d, d ∈ registry /\ df_identity d = i /\ constructed d /\ new_configuration (StrategyConfiguration d p) = Ok c.
Proof.
  intros [_ Hc] H. unfold configure in H. res_inv. destruct (find _ registry) as [d|] eqn:E; [|done].
  apply find_some in E as [Hin Hi]. apply bool_decide_eq_true in Hi. apply list_elem_of_In in Hin. exists d.
  split; [done|]. split; [done|]. split; [|done]. rewrite Forall_forall in Hc. by apply Hc.
Qed.

(** The values of a configuration, from the assignment it was made from. *)
Lemma configured_values d p c n w : new_configuration (StrategyConfiguration d p) = Ok c ->
  (n, w) ∈ cg_values c <-> exists v r, (n, v) ∈ p /\ find_rule n (df_parameters d) = Some r /\ validate r v = Ok w.
Proof.
  intros H. destruct (new_configuration_inv _ _ H) as (_ & _ & _ & l & Hl & ->). cbn [cg_definition cg_values] in Hl.
  rewrite sort_items_perm. split.
  - intros Hin. apply list_elem_of_lookup in Hin as (k & Hk). destruct (Forall2_lookup_r _ _ _ _ _ Hl Hk) as ([m v] & Ek & Hv).
    destruct (validated_value_ok _ _ _ Hv) as (r & Hr & Hw & Hm). cbn in *. subst m. exists v, r. split; [by eapply list_elem_of_lookup_2|done].
  - intros (v & r & Hin & Hr & Hw). apply list_elem_of_lookup in Hin as (k & Hk).
    destruct (Forall2_lookup_l _ _ _ _ _ Hl Hk) as (nw & Ek & Hv). unfold validated_value in Hv. cbn [fst snd] in Hv.
    rewrite Hr, Hw in Hv. injection Hv as <-. by eapply list_elem_of_lookup_2.
Qed.

Lemma configured_rule d p c n v : new_configuration (StrategyConfiguration d p) = Ok c -> (n, v) ∈ p ->
  exists r w, find_rule n (df_parameters d) = Some r /\ validate r v = Ok w.
Proof.
  intros H Hin. destruct (new_configuration_inv _ _ H) as (_ & _ & _ & l & Hl & _). cbn [cg_definition cg_values] in Hl.
  apply list_elem_of_lookup in Hin as (k & Hk). destruct (Forall2_lookup_l _ _ _ _ _ Hl Hk) as (nw & _ & Hv).
  destruct (validated_value_ok _ _ _ Hv) as (r & Hr & Hw & _). by exists r, (snd nw).
Qed.

Lemma validate_same r v v' w w' : validate r v = Ok w -> validate r v' = Ok w' -> w = w' <-> same_number v v'.
Proof.
  intros H H'. destruct (validate_inv _ _ _ H) as (d & Hd & ->), (validate_inv _ _ _ H') as (d' & Hd' & ->).
  by apply (canonical_form_same v v' (pr_kind r)).
Qed.

Definition same_assignment (p p' : list (string * param_value)) : Prop :=
  forall n v v', (n, v) ∈ p -> (n, v') ∈ p' -> same_number v v'.

Lemma same_number_sym v v' : same_number v v' -> same_number v' v.
Proof. intros (k & d & d' & H & H' & E). exists k, d', d. by split; [|split]. Qed.

Lemma configured_sub d p p' c c' : new_configuration (StrategyConfiguration d p) = Ok c -> new_configuration (StrategyConfiguration d p') = Ok c' ->
  same_assignment p p' -> forall x, x ∈ cg_values c -> x ∈ cg_values c'.
Proof.
  intros H H' Hs [n w] Hin. apply (configured_values _ _ _ _ _ H) in Hin as (v & r & Hv & Hr & Hw).
  destruct (new_configuration_inv _ _ H) as (_ & _ & Hn & _), (new_configuration_inv _ _ H') as (_ & _ & Hn' & _).
  cbn [cg_values cg_definition] in Hn, Hn'. assert (n ∈ map fst p') as Hp.
  { apply Hn', Hn. apply (list_elem_of_fmap_2 fst _ _ Hv). }
  apply list_elem_of_fmap in Hp as ([m v'] & Em & Hv'). cbn in Em. subst m.
  destruct (configured_rule _ _ _ _ _ H' Hv') as (r' & w' & Hr' & Hw'). rewrite Hr in Hr'. injection Hr' as <-.
  apply (configured_values _ _ _ _ _ H'). exists v', r. split; [done|]. split; [done|]. rewrite Hw'. f_equal. symmetry.
  apply (validate_same _ _ _ _ _ Hw Hw'). by eapply Hs.
Qed.

(** One definition: the same configuration exactly when the assignments give
    each parameter the same number. *)
Lemma configured_same d p p' c c' : constructed d ->
  new_configuration (StrategyConfiguration d p) = Ok c -> new_configuration (StrategyConfiguration d p') = Ok c' ->
  c = c' <-> same_assignment p p'.
Proof.
  intros Hd H H'. split.
  - intros <- n v v' Hv Hv'. destruct (configured_rule _ _ _ _ _ H Hv) as (r & w & Hr & Hw).
    destruct (configured_rule _ _ _ _ _ H' Hv') as (r' & w' & Hr' & Hw'). rewrite Hr in Hr'. injection Hr' as <-.
    apply (validate_same _ _ _ _ _ Hw Hw'). destruct (new_configuration_typed (StrategyConfiguration d p) c Hd H) as [Hdc Hnc _].
    assert (NoDup (map fst (cg_values c))) as Hnd by (rewrite Hnc; by apply constructed_names).
    assert ((n, w) ∈ cg_values c) as I1 by (apply (configured_values _ _ _ _ _ H); by exists v, r).
    assert ((n, w') ∈ cg_values c) as I2 by (apply (configured_values _ _ _ _ _ H'); by exists v', r).
    by injection (keyed_unique _ _ _ Hnd I1 I2 eq_refl).
  - intros Hs. destruct (new_configuration_inv _ _ H) as (E & _), (new_configuration_inv _ _ H') as (E' & _).
    destruct (new_configuration_typed (StrategyConfiguration d p) c Hd H) as [_ Hn _], (new_configuration_typed (StrategyConfiguration d p') c' Hd H') as [_ Hn' _].
    destruct (constructed_names _ Hd) as [Hnd _]. cbn in E, E'. rewrite E in Hn. rewrite E' in Hn'.
    destruct c as [dc vc], c' as [dc' vc']. cbn in *. subst dc dc'. f_equal.
    apply keyed_perm_eq; [by rewrite Hn|by rewrite Hn|].
    apply NoDup_Permutation; [by apply (NoDup_fmap_1 fst); setoid_rewrite Hn|by apply (NoDup_fmap_1 fst); setoid_rewrite Hn'|].
    intros x. split; [apply (configured_sub _ _ _ _ _ H H' Hs)|apply (configured_sub _ _ _ _ _ H' H)].
    intros n v v' Hv Hv'. apply same_number_sym. by eapply Hs.
Qed.

(** ** The digest of a configuration *)

Lemma param_json_inj v v' : jnorm (param_json v) = jnorm (param_json v') -> v = v'.
Proof. destruct v, v'; cbn; congruence. Qed.

Lemma rule_json_inj r r' : jnorm (rule_json r) = jnorm (rule_json r') -> r = r'.
Proof.
  intros H. unfold rule_json in H. json_fields H. destruct r, r'. cbn in *.
  repeat match goal with E : jnorm (param_json _) = _ |- _ => apply param_json_inj in E end. by subst.
Qed.

Lemma JArr_map_inj {A} (f : A -> json) l l' : (forall x y, jnorm (f x) = jnorm (f y) -> x = y) ->
  jnorm (JArr (map f l)) = jnorm (JArr (map f l')) -> l = l'.
Proof.
  intros Hf H. apply JArr_inj in H. revert l' H. induction l as [|x l IH]; intros [|y l'] H; try done; inversion H as [|? ? ? ? Hxy Ht]; subst; [].
  f_equal; [by apply Hf|by apply IH].
Qed.

Definition value_json (nv : string * param_value) : string * json := (fst nv, param_json (snd nv)).
Lemma value_json_names l : map fst (map value_json l) = map fst l.
Proof. rewrite map_map. by apply map_ext. Qed.

Lemma payload_inj c c' : well_typed c -> well_typed c' -> jnorm (JObj (configuration_payload c)) = jnorm (JObj (configuration_payload c')) -> c = c'.
Proof.
  intros [Hd Hn _] [Hd' Hn' _] H. unfold configuration_payload in H. json_fields H.
  match goal with E : jnorm (JArr _) = _ |- _ => apply (JArr_map_inj rule_json _ _ rule_json_inj) in E; rename E into Er end.
  assert (map fst (cg_values c) = map fst (cg_values c')) as En by by rewrite Hn, Hn', Er.
  match goal with E : jnorm (JObj (map _ (cg_values c))) = _ |- _ =>
    apply (jobj_inj (map value_json (cg_values c)) (map value_json (cg_values c'))) in E; [rename E into Ev|..] end.
  2: { rewrite value_json_names, Hn. by apply constructed_names. }
  2: { by rewrite !value_json_names. }
  assert (cg_values c = cg_values c') as E.
  { clear - Ev En. revert Ev En. generalize (cg_values c'). induction (cg_values c) as [|[n v] l IH]; intros [|[n' v'] l'] Ev En; try done.
    cbn in En. injection En as -> En. apply Forall2_cons_1 in Ev as [Ev Et]. apply param_json_inj in Ev. cbn in Ev. subst.
    by rewrite (IH l'). }
  destruct c as [[[a b] q] u], c' as [[[a' b'] q'] u']. cbn in *. by subst.
Qed.

(** The text a configuration is identified by. *)
Definition configuration_text (c : strategy_configuration) : text := json_dumps (JObj (configuration_payload c)) ++ [chr 10].

Lemma configuration_sha256_ok c : well_typed c ->
  configuration_sha256 c = Ok (sha256_hex (configuration_text c)).
Proof. intros H. unfold configuration_sha256, configuration_json. by rewrite (well_typed_again _ H). Qed.

Lemma configuration_sha256_binds c c' h : well_typed c -> well_typed c' -> configuration_sha256 c = Ok h -> configuration_sha256 c' = Ok h ->
  c = c' \/ collision [configuration_text c; configuration_text c'].
Proof.
  intros Hc Hc' H H'. rewrite (configuration_sha256_ok _ Hc) in H. rewrite (configuration_sha256_ok _ Hc'), <- H in H'.
  apply Ok_inj in H'. destruct (sha256_hex_binds [configuration_text c; configuration_text c'] (configuration_text c') (configuration_text c) ltac:(in_list) ltac:(in_list) H') as [E|]; [left|by right].
  symmetry. apply (payload_inj _ _ Hc' Hc). unfold configuration_text in E.
  apply json_dumps_inj. by apply app_inj_tail in E as [E _].
Qed.

(** A value inside the bounds of its rule. *)
Definition within (r : param_rule) (v : param_value) : Prop :=
  exists d low high, _number v (pr_kind r) = Ok d /\ _number (pr_minimum r) (pr_kind r) = Ok low /\ _number (pr_maximum r) (pr_kind r) = Ok high
  /\ (dval low <= dval d <= dval high)%Q.

Lemma validate_canonical r v w : validate r v = Ok w -> canonical_spelling w /\ forall w', canonical_spelling w' -> same_number w w' -> w' = w.
Proof.
  intros H. destruct (validate_inv _ _ _ (validate_again _ _ _ H)) as (d & Hd & Ew). symmetry in Ew.
  split; [by apply (canonical_form_spelling _ _ _ Hd)|]. intros w' Hc (k & d0 & d' & N & N' & E).
  assert (canonical_form w d0 = canonical_form w' d') as Es by (apply (canonical_form_same _ _ k); [done|done|by exists k, d0, d']).
  rewrite (proj2 (canonical_form_spelling _ _ _ N') Hc) in Es. rewrite <- Es. destruct (number_inv _ _ _ Hd) as [(_ & n & -> & ->)|(_ & s & -> & D & _)]; [done|].
  destruct (number_inv _ _ _ N) as [(_ & m & X & _)|(_ & t & [= <-] & D' & _)]; [done|]. rewrite D in D'. apply Ok_inj in D'. subst d0. exact Ew.
Qed.

Lemma validate_within r v w : validate r v = Ok w -> within r w /\ same_number v w.
Proof.
  intros H. pose proof (validate_again _ _ _ H) as H2. pose proof (validate_same _ _ _ _ _ H H2) as [Hs _].
  split; [|by apply Hs]. unfold validate in H2. res_inv. rewrite negb_false_iff, andb_true_iff, !dleb_spec in Hc.
  by exists a, a0, a1.
Qed.

(** C29. Whatever configure returns is a normal form of its type: the registered
    definition of exactly that identity, one value per declared rule and no
    other, in the order of the names, every value inside the bounds of its rule
    and denoting the number the request assigned, in the canonical spelling of that
    number (an integer, or a decimal text whose fractional part, if any, does not end
    in a zero; no other such spelling denotes it), so that constructing the configuration again (which every later use does) changes
    nothing and every digest of it succeeds. *)
Theorem configuration_well_formed registry i p c : registry_ok registry -> configure registry i p = Ok c ->
  cg_definition c ∈ registry /\ df_identity (cg_definition c) = i
  /\ map fst (cg_values c) = map pr_name (df_parameters (cg_definition c)) /\ NoDup (map fst (cg_values c))
  /\ sorted_by_name (cg_values c)
  /\ (forall n w, (n, w) ∈ cg_values c -> exists r v, r ∈ df_parameters (cg_definition c) /\ pr_name r = n /\ within r w
        /\ (n, v) ∈ p /\ same_number v w /\ canonical_spelling w /\ forall w', canonical_spelling w' -> same_number w w' -> w' = w)
  /\ new_configuration c = Ok c /\ exists h, configuration_sha256 c = Ok h.
Proof.
  intros Hreg H. destruct (configure_inv _ _ _ _ Hreg H) as (d & Hin & Hi & Hd & Hn).
  pose proof (new_configuration_typed (StrategyConfiguration d p) c Hd Hn) as Hw.
  destruct (new_configuration_inv _ _ Hn) as (E & _ & _ & l & _ & El). cbn [cg_definition] in E. pose proof (constructed_names _ Hd) as [Hnd _].
  split; [by rewrite E|]. split; [by rewrite E|]. split; [apply Hw|]. split; [rewrite (wt_names _ Hw), E; exact Hnd|].
  split; [rewrite El; apply sort_items_sorted|]. split; [|split; [by apply well_typed_again|eexists; by apply configuration_sha256_ok]].
  intros n w Hnw. apply (configured_values _ _ _ _ _ Hn) in Hnw as (v & r & Hv & Hr & Hvw).
  apply find_rule_name in Hr as [Hr1 Hr2]. destruct (validate_within _ _ _ Hvw) as [H1 H2], (validate_canonical _ _ _ Hvw) as [H3 H4]. exists r, v. rewrite E. by repeat (split; [done|]).
Qed.

Definition trend_values : list (string * param_value) := [
  ("atr_period", PInt 14); ("primary_sma_period", PInt 20); ("pullback_lookback", PInt 3); ("reward_risk", PText "2");
  ("stop_atr_fraction", PText "0.25")]%string.
Definition TREND_REQUEST : list (string * param_value) := [
  ("stop_atr_fraction", PText "0.250"); ("atr_period", PInt 14); ("reward_risk", PText "2.0"); ("pullback_lookback", PInt 3);
  ("primary_sma_period", PInt 20)]%string.

Lemma trend_registry_ok : registry_ok [TREND_DEFINITION].
Proof. split; [vm_compute; reflexivity|]. repeat constructor; vm_compute; reflexivity. Qed.

Lemma configuration_well_formed_witness :
  exists r v, r ∈ df_parameters TREND_DEFINITION /\ pr_name r = "stop_atr_fraction"%string /\ within r (PText "0.25")
    /\ ("stop_atr_fraction"%string, v) ∈ TREND_REQUEST /\ same_number v (PText "0.25") /\ canonical_spelling (PText "0.25")
    /\ forall w', canonical_spelling w' -> same_number (PText "0.25") w' -> w' = PText "0.25".
Proof.
  pose proof (configuration_well_formed [TREND_DEFINITION] TREND_IDENTITY TREND_REQUEST (StrategyConfiguration TREND_DEFINITION trend_values)
    trend_registry_ok ltac:(vm_compute; reflexivity)) as (_ & _ & _ & _ & _ & H & _).
  apply (H "stop_atr_fraction"%string). cbn [cg_values]. unfold trend_values. in_list.
Defined.

(** The digest of a configuration identifies it: two configurations, of the
    same or of different registries, have one digest exactly when they have the
    same definition (identity, version and every rule) and their requests
    assigned the same number to every parameter, however each was written;
    with anything else that has the same digest the two texts collide. *)
Theorem configuration_digest_identifies registry i p c registry' i' p' c' :
  registry_ok registry -> registry_ok registry' -> configure registry i p = Ok c -> configure registry' i' p' = Ok c' ->
  exists h h', configuration_sha256 c = Ok h /\ configuration_sha256 c' = Ok h'
  /\ (cg_definition c = cg_definition c' -> same_assignment p p' -> h = h')
  /\ (h = h' -> (cg_definition c = cg_definition c' /\ same_assignment p p') \/ collision [configuration_text c; configuration_text c']).
Proof.
  intros Hreg Hreg' H H'. destruct (configure_inv _ _ _ _ Hreg H) as (d & _ & _ & Hd & Hn).
  destruct (configure_inv _ _ _ _ Hreg' H') as (d' & _ & _ & Hd' & Hn').
  pose proof (new_configuration_typed (StrategyConfiguration d p) c Hd Hn) as Hw.
  pose proof (new_configuration_typed (StrategyConfiguration d' p') c' Hd' Hn') as Hw'.
  destruct (new_configuration_inv _ _ Hn) as (E & _), (new_configuration_inv _ _ Hn') as (E' & _). cbn [cg_definition] in E, E'.
  pose proof (configuration_sha256_ok _ Hw) as Hh. pose proof (configuration_sha256_ok _ Hw') as Hh'.
  do 2 eexists. split; [exact Hh|]. split; [exact Hh'|]. rewrite E, E'. split.
  - intros <- Hs. apply (configured_same _ _ _ _ _ Hd Hn Hn') in Hs as ->. reflexivity.
  - intros Eh. rewrite <- Eh in Hh'. destruct (configuration_sha256_binds _ _ _ Hw Hw' Hh Hh') as [->|]; [left|by right].
    rewrite E' in E. subst d'. split; [done|]. by apply (configured_same _ _ _ _ _ Hd Hn Hn').
Qed.

Definition REWARD_DEFINITION : strategy_definition := StrategyDefinition TREND_IDENTITY [ParameterRule "reward_risk" "decimal" (PText "1") (PText "10")].
Definition reward (s : string) : list (string * param_value) := [("reward_risk"%string, PText s)].

Lemma reward_registry_ok : registry_ok [REWARD_DEFINITION].
Proof. split; [vm_compute; reflexivity|]. repeat constructor; vm_compute; reflexivity. Qed.

Lemma configuration_digest_identifies_witness :
  exists h, configuration_sha256 (StrategyConfiguration REWARD_DEFINITION (reward "2.5")) = Ok h.
Proof.
  destruct (configuration_digest_identifies [REWARD_DEFINITION] TREND_IDENTITY (reward "2.5") (StrategyConfiguration REWARD_DEFINITION (reward "2.5"))
    [REWARD_DEFINITION] TREND_IDENTITY (reward "2.50") (StrategyConfiguration REWARD_DEFINITION (reward "2.5")) reward_registry_ok reward_registry_ok
    ltac:(vm_compute; reflexivity) ltac:(vm_compute; reflexivity)) as (h & h' & H & H' & Hs & _).
  exists h. exact H.
Defined.
