(* ===== verification/SignalAdapter.v ===== *)
(** * The research signal adapter (yatl/strategy/adapter.py)

    The paper-only bridge from strategy decisions to the fill engine: one
    candidate, one symbol, a fixed research quantity. *)
From S2P Require Import Prelude PyDecimal PyText Market BacktestConfig MarketView Fills Costs StrategyContracts Features Regime Trend Breakout.

Definition FIXED_RESEARCH_QUANTITY : string := "0.001".
Definition SUPPORTED_IDENTITIES : list strategy_identity := [TREND_IDENTITY; BREAKOUT_IDENTITY].

Record signal_step : Type := AdapterStep {
  st_decision : strategy_decision;
  st_intent : paper_intent;
  st_fills : list fill_reference;
}.

(** The dictionary of expected intents. *)
Definition expected_intent (a : strategy_action) : intent_action :=
  match a with SNoTrade => HOLD | SEnterLong => ENTER_LONG | SExitLong => EXIT_LONG end.

Definition signal_step_post_init (s : signal_step) : result unit :=
  raise_if (2 <? length (st_fills s))%nat || negb (pi_decision_time_ms (st_intent s) =? sd_decision_time_ms (st_decision s))
    with SignalAdapterError "Adapter step identity is invalid" ;;
  raise_if negb (bool_decide (pi_action (st_intent s) = expected_intent (sd_action (st_decision s))))
    with SignalAdapterError "Decision and paper intent actions differ" ;;
  raise_if existsb (fun f => negb (String.eqb (fr_symbol f) (sd_symbol (st_decision s)))
                             || negb (fr_decision_time_ms f =? sd_decision_time_ms (st_decision s))) (st_fills s)
    with SignalAdapterError "Adapter fill identity is invalid" ;;
  Ok tt.

(** [ResearchSignalAdapter]: the identity and the symbol are fixed, the rest changes. *)
Record signal_adapter : Type := ResearchSignalAdapter {
  sg_identity : strategy_identity;
  sg_symbol : string;
  sg_engine : engine_state;
  sg_active_setup : option long_setup;
  sg_last_sequence : option Z;
  sg_last_time : option Z;
}.

Definition new_signal_adapter (i : strategy_identity) (symbol : string) : result signal_adapter :=
  raise_if negb (bool_decide (i ∈ SUPPORTED_IDENTITIES)) with SignalAdapterError "Adapter strategy identity is not supported" ;;
  raise_if negb (str_in symbol SYMBOLS) with SignalAdapterError "Adapter symbol is not approved" ;;
  let* engine := new_engine symbol in
  Ok (ResearchSignalAdapter i symbol engine None None None).

Definition sg_has_position (a : signal_adapter) : bool := negb (opt_is_none (sg_active_setup a)).

(** What [except (BacktestContractError, StrategyContractError, TypeError, ValueError)] catches. *)
Definition REPLACE_ERRORS : list exn_class :=
  [BacktestContractError; StrategyContractError; TypeError; ValueError; CandleValidationError; BacktestConfigError].

(** [dataclasses.replace] runs the constructor again on the same fields. *)
Definition signal_reconstruct (d : strategy_decision) : result unit :=
  do* identity_post_init (identity (sd_context d)) ;;
  do* snapshot_post_init (sc_snapshot (sd_context d)) ;;
  do* context_post_init (sd_context d) ;;
  decision_post_init d.

Definition before (t : Z) (o : option Z) : bool := match o with Some u => t <=? u | None => false end.

Definition signal_validate (a : signal_adapter) (ev : decision_event) (d : strategy_decision) : result unit :=
  raise_if negb (bool_decide (identity (sd_context d) = sg_identity a)) || negb (String.eqb (sd_symbol d) (sg_symbol a))
           || negb (String.eqb (ms_symbol (ev_snapshot ev)) (sg_symbol a))
           || negb (sd_decision_time_ms d =? ev_decision_time_ms ev)
           || negb (bool_decide (sc_snapshot (sd_context d) = ev_snapshot ev))
    with SignalAdapterError "Event, decision or fill identity is inconsistent" ;;
  do* rcatch (signal_reconstruct d) REPLACE_ERRORS (Raise SignalAdapterError "Strategy decision failed reconstruction") ;;
  let expected_sequence := match sg_last_sequence a with None => 0 | Some n => n + 1 end in
  raise_if negb (ev_sequence ev =? expected_sequence) || before (ev_decision_time_ms ev) (sg_last_time a)
    with SignalAdapterError "Duplicate or out-of-order decision" ;;
  Ok tt.

Definition signal_intent (a : signal_adapter) (d : strategy_decision) : result paper_intent :=
  let t := sd_decision_time_ms d in
  if sg_has_position a then
    match sd_action d with
    | SExitLong => new_intent (PaperIntent EXIT_LONG t None None None)
    | _ =>
        if bool_decide (sd_action d = SNoTrade) && bool_decide (sd_reason d = HOLD_POSITION)
        then new_intent (PaperIntent HOLD t None None None)
        else Err (Raise SignalAdapterError "Open strategy state requires HOLD or EXIT_LONG")
    end
  else
    match sd_action d with
    | SEnterLong =>
        match sd_setup d with
        | Some setup =>
            new_intent (PaperIntent ENTER_LONG t (Some FIXED_RESEARCH_QUANTITY) (Some (invalidation_price setup)) (Some (setup_target_price setup)))
        | None => Err (Raise AttributeError "invalidation_price")
        end
    | _ =>
        if bool_decide (sd_action d = SNoTrade) && negb (bool_decide (sd_reason d = HOLD_POSITION))
        then new_intent (PaperIntent HOLD t None None None)
        else Err (Raise SignalAdapterError "Flat strategy state cannot hold or exit a position")
    end.

Definition set_engine (e : engine_state) (a : signal_adapter) : signal_adapter :=
  ResearchSignalAdapter (sg_identity a) (sg_symbol a) e (sg_active_setup a) (sg_last_sequence a) (sg_last_time a).
Definition set_active (s : option long_setup) (a : signal_adapter) : signal_adapter :=
  ResearchSignalAdapter (sg_identity a) (sg_symbol a) (sg_engine a) s (sg_last_sequence a) (sg_last_time a).
Definition set_last (sequence time : Z) (a : signal_adapter) : signal_adapter :=
  ResearchSignalAdapter (sg_identity a) (sg_symbol a) (sg_engine a) (sg_active_setup a) (Some sequence) (Some time).

(** The engine is an object of its own, mutated in place. *)
Definition signal_engine (ev : decision_event) (i : paper_intent) (bar : candle) : stm signal_adapter (list fill_reference) :=
  fun a => let '(e, out) := process (sg_symbol a) ev i bar (sg_engine a) in
           (set_engine e a, rcatch out [FillModelError] (Raise SignalAdapterError "P2 rejected the strategy paper intent")).

(** [ResearchSignalAdapter.process] *)
Definition signal_process (ev : decision_event) (d : strategy_decision) (bar : candle) : stm signal_adapter signal_step :=
  let! a := sget in
  do! slift (signal_validate a ev d) ;;
  let! i := slift (signal_intent a d) in
  let! fills := signal_engine ev i bar in
  let step := AdapterStep d i fills in
  do! slift (signal_step_post_init step) ;;
  let! b := sget in
  let b := if bool_decide (pi_action i = ENTER_LONG) && has_position (sg_engine b) then set_active (sd_setup d) b
           else if negb (has_position (sg_engine b)) then set_active None b else b in
  do! sput b ;;
  sraise_if negb (Bool.eqb (sg_has_position b) (has_position (sg_engine b)))
    with SignalAdapterError "Strategy and fill-engine position states diverged" ;;
  do! sput (set_last (ev_sequence ev) (ev_decision_time_ms ev) b) ;;
  sret step.

(** * Properties *)

(** A decision built by the constructors of all its parts. *)
Record signal_valid (d : strategy_decision) : Prop := {
  sv_context : context_valid (sd_context d);
  sv_decision : decision_post_init d = Ok tt;
  sv_setup : match sd_setup d with Some s => setup_valid s | None => True end;
}.

(** The engine's bracket is the remembered setup, with the research quantity. *)
Record signal_inv (a : signal_adapter) : Prop := {
  sgi_symbol : str_in (sg_symbol a) SYMBOLS = true;
  sgi_engine : engine_inv (sg_engine a);
  sgi_active : match sg_engine a with
               | None => sg_active_setup a = None
               | Some p => exists s, sg_active_setup a = Some s /\ p = OpenPosition FIXED_RESEARCH_QUANTITY (invalidation_price s) (setup_target_price s)
               end;
}.

(** What an accepted step did. *)
Record signal_accepted (a : signal_adapter) (ev : decision_event) (d : strategy_decision) (bar : candle) (s : signal_step) (b : signal_adapter) : Prop := {
  ga_decision : st_decision s = d;
  ga_action : pi_action (st_intent s) = expected_intent (sd_action d);
  ga_identity : identity (sd_context d) = sg_identity a /\ sd_symbol d = sg_symbol a /\ sc_snapshot (sd_context d) = ev_snapshot ev
    /\ sd_decision_time_ms d = ev_decision_time_ms ev;
  ga_lifecycle : lifecycle (sg_symbol a) ev bar (sg_engine a) (st_intent s) (sg_engine b) (st_fills s);
  ga_valid : Forall reference_valid (st_fills s);
  ga_levels : sd_action d = SEnterLong -> exists setup, sd_setup d = Some setup
    /\ pi_quantity (st_intent s) = Some FIXED_RESEARCH_QUANTITY
    /\ pi_stop_price (st_intent s) = Some (invalidation_price setup) /\ pi_target_price (st_intent s) = Some (setup_target_price setup);
  ga_fixed : sg_identity b = sg_identity a /\ sg_symbol b = sg_symbol a;
  ga_order : ev_sequence ev = (match sg_last_sequence a with Some n => n + 1 | None => 0 end)
    /\ (forall t, sg_last_time a = Some t -> t < ev_decision_time_ms ev)
    /\ sg_last_sequence b = Some (ev_sequence ev) /\ sg_last_time b = Some (ev_decision_time_ms ev);
}.

Lemma signal_reconstruct_valid d : signal_valid d -> signal_reconstruct d = Ok tt.
Proof. intros [(H1 & H2 & H3) Hd _]. unfold snapshot_valid in H2. unfold signal_reconstruct. by rewrite H1, H2, H3, Hd. Qed.

Lemma signal_validate_spec a ev d : signal_valid d ->
  match signal_validate a ev d with
  | Ok _ => (identity (sd_context d) = sg_identity a /\ sd_symbol d = sg_symbol a /\ sc_snapshot (sd_context d) = ev_snapshot ev)
      /\ sd_decision_time_ms d = ev_decision_time_ms ev /\ ms_symbol (ev_snapshot ev) = sg_symbol a
      /\ ev_sequence ev = (match sg_last_sequence a with Some n => n + 1 | None => 0 end)
      /\ (forall t, sg_last_time a = Some t -> t < ev_decision_time_ms ev)
  | Err e => exn_cls e = SignalAdapterError
  end.
Proof.
  intros Hd. unfold signal_validate. destruct (_ || _ || _ || _ || _) eqn:E1; [done|]. rewrite (signal_reconstruct_valid d Hd). cbn [rcatch rbind].
  rewrite !orb_false_iff in E1. destruct E1 as [[[[E1 E2] E3] E4] E5]. destruct (_ || _) eqn:E6; [done|]. apply orb_false_iff in E6 as [E6 E7].
  apply negb_false_iff, bool_decide_eq_true in E1, E5. apply negb_false_iff, String.eqb_eq in E2, E3. apply negb_false_iff, Z.eqb_eq in E4, E6.
  split; [done|]. do 3 (split; [done|]). intros t Et. rewrite Et in E7. unfold before in E7. lia.
Qed.

Record signal_intent_facts (a : signal_adapter) (d : strategy_decision) (i : paper_intent) : Prop := {
  sf_valid : intent_valid i;
  sf_time : pi_decision_time_ms i = sd_decision_time_ms d;
  sf_action : pi_action i = expected_intent (sd_action d);
  sf_position : sd_action d = SEnterLong -> sg_active_setup a = None;
  sf_levels : sd_action d = SEnterLong -> exists setup, sd_setup d = Some setup /\ pi_quantity i = Some FIXED_RESEARCH_QUANTITY
    /\ pi_stop_price i = Some (invalidation_price setup) /\ pi_target_price i = Some (setup_target_price setup);
}.

Lemma research_quantity_denotes : exists d, denotes FIXED_RESEARCH_QUANTITY d /\ (0 < dval d)%Q.
Proof. exists (Dec false 1 (-3)). apply (proj1 (_positive_spec FIXED_RESEARCH_QUANTITY "quantity" (Dec false 1 (-3)))). reflexivity. Qed.

Lemma entry_has_setup d : decision_post_init d = Ok tt -> sd_action d = SEnterLong -> exists s, sd_setup d = Some s.
Proof. intros Hd A. unfold decision_post_init in Hd. rewrite A in Hd. destruct (sd_setup d) as [s|]; [by exists s|done]. Qed.

(** A constructed decision always yields a constructed intent or the adapter's own error. *)
Lemma signal_intent_spec a d : signal_valid d ->
  match signal_intent a d with
  | Ok i => signal_intent_facts a d i
  | Err e => exn_cls e = SignalAdapterError
  end.
Proof.
  intros [Hc Hd Hs]. destruct (decision_time_aligned _ Hc) as [T1 T2]. fold (sd_decision_time_ms d) in T1, T2.
  unfold signal_intent, new_intent. pose proof (plain_intent_valid HOLD _ ltac:(done) T1 T2) as VH.
  pose proof (plain_intent_valid EXIT_LONG _ ltac:(done) T1 T2) as VX. rewrite VH, VX. cbn [rbind]. unfold sg_has_position.
  assert (forall act, intent_valid (PaperIntent act (sd_decision_time_ms d) None None None) -> act = expected_intent (sd_action d) ->
    sd_action d <> SEnterLong -> signal_intent_facts a d (PaperIntent act (sd_decision_time_ms d) None None None)) as Hplain by by constructor.
  destruct (sg_active_setup a) as [s|] eqn:Ea; cbn [opt_is_none negb]; destruct (sd_action d) eqn:A; try (rewrite bool_decide_false by discriminate; reflexivity); try (destruct (_ && _); [|reflexivity]);
    try (apply Hplain; [first [exact VH|exact VX]|reflexivity|discriminate]).
  destruct (entry_has_setup d Hd A) as [setup Es]. rewrite Es in Hs |- *. destruct research_quantity_denotes as (q & Hq & Pq).
  pose proof (entry_intent_valid _ _ setup q T1 T2 Hq Pq Hs) as V. rewrite V. cbn [rbind].
  constructor; [exact V|done|by rewrite A|done|]. intros _. by exists setup.
Qed.

Lemma lifecycle_identity sym ev bar st i st' fills f : lifecycle sym ev bar st i st' fills -> f ∈ fills ->
  fr_symbol f = sym /\ fr_decision_time_ms f = ev_decision_time_ms ev.
Proof.
  intros Hl Hf. destruct Hl; repeat (apply elem_of_cons in Hf as [-> | Hf]); try done; by apply elem_of_nil in Hf.
Qed.

Lemma signal_step_accepted a ev d i bar e fills : signal_intent_facts a d i -> sd_symbol d = sg_symbol a ->
  sd_decision_time_ms d = ev_decision_time_ms ev -> lifecycle (sg_symbol a) ev bar (sg_engine a) i e fills ->
  signal_step_post_init (AdapterStep d i fills) = Ok tt.
Proof.
  intros [_ Ht Hact _ _] Hs Hev Hl. unfold signal_step_post_init. cbn [st_fills st_intent st_decision].
  assert ((2 <? length fills)%nat = false) as -> by by destruct Hl. rewrite Ht, Z.eqb_refl, bool_decide_true by done. cbn [orb negb].
  assert (existsb (fun f => negb (String.eqb (fr_symbol f) (sd_symbol d)) || negb (fr_decision_time_ms f =? sd_decision_time_ms d)) fills = false) as ->; [|done].
  destruct (existsb _ fills) eqn:E; [|done]. apply existsb_exists in E as (f & Hf & E). apply list_elem_of_In in Hf.
  destruct (lifecycle_identity _ _ _ _ _ _ _ f Hl Hf) as [F1 F2]. by rewrite F1, F2, Hs, Hev, String.eqb_refl, Z.eqb_refl in E.
Qed.

Lemma signal_process_spec a ev d bar b out : signal_inv a -> signal_valid d -> event_valid ev -> candle_valid bar ->
  signal_process ev d bar a = (b, out) ->
  match out with
  | Ok s => signal_accepted a ev d bar s b /\ signal_inv b
  | Err e => exn_cls e = SignalAdapterError /\ b = a
  end.
Proof.
  intros [Isym Ieng Imem] Hd Hev Hbar H. unfold signal_process, sbind, sget, slift, sput, sret in H.
  pose proof (signal_validate_spec a ev d Hd) as Hv. destruct (signal_validate a ev d) as [u|e]; [|injection H as <- <-; done].
  destruct Hv as (Vi & Vt & Vs & Vq & Vo). pose proof (signal_intent_spec a d Hd) as Hi.
  destruct (signal_intent a d) as [i|e]; [|injection H as <- <-; done]. pose proof Hi as [Hval Htime Hact Hflat Hlev].
  unfold signal_engine in H. destruct (process (sg_symbol a) ev i bar (sg_engine a)) as [e1 out1] eqn:Ep.
  pose proof (process_spec (sg_symbol a) ev i bar (sg_engine a) e1 out1 ltac:(by split) Ieng Ep) as Hp.
  destruct out1 as [fills|x].
  2: { destruct Hp as [Hx ->]. cbn [rcatch] in H. rewrite bool_decide_true in H by (rewrite Hx; in_list). injection H as <- <-.
       split; [done|]. by destruct a. }
  destruct Hp as (Hl & Hinv & Hfills). cbn [rcatch] in H.
  rewrite (signal_step_accepted a ev d i bar e1 fills Hi (proj1 (proj2 Vi)) Vt Hl) in H.
  cbn [set_engine sg_engine] in H. set (act := if bool_decide _ && _ then _ else _) in H.
  assert (sg_engine act = e1 /\ sg_identity act = sg_identity a /\ sg_symbol act = sg_symbol a
          /\ match e1 with
             | Some p => exists s, sg_active_setup act = Some s /\ p = OpenPosition FIXED_RESEARCH_QUANTITY (invalidation_price s) (setup_target_price s)
             | None => sg_active_setup act = None
             end) as (A1 & A2 & A3 & A4).
  { unfold act. destruct e1 as [p|]; cbn [has_position opt_is_none negb andb]; [|rewrite andb_false_r; done].
    rewrite andb_true_r. case_bool_decide as Ea; (do 3 (split; [done|])); cbn [set_active set_engine sg_active_setup].
    - assert (sd_action d = SEnterLong) as A by (rewrite Hact in Ea; by destruct (sd_action d)).
      destruct (Hlev A) as (setup & Es & Eq & Est & Etg). exists setup. split; [done|]. inversion Hl; subst; try congruence. destruct p; cbn in *; congruence.
    - inversion Hl; subst; try congruence. match goal with E : Some p = sg_engine a |- _ => rewrite <- E in Imem; exact Imem end. }
  clearbody act. assert (Bool.eqb (sg_has_position act) (has_position (sg_engine act)) = true) as Eb.
  { unfold sg_has_position. rewrite A1. destruct e1 as [p|]; [destruct A4 as (s & -> & _)|rewrite A4]; done. }
  rewrite Eb in H. cbn [negb] in H. injection H as <- <-. split.
  - constructor; cbn [st_decision st_intent st_fills set_last sg_engine sg_identity sg_symbol sg_last_sequence sg_last_time]; try done; [split_and!; apply Vi || exact Vt|by rewrite A1].
  - constructor; cbn [set_last sg_engine sg_symbol sg_active_setup]; [by rewrite A3|by rewrite A1|by rewrite A1].
Qed.

(** ** Whole sessions *)

(** [process] on each input in turn, the caller continuing after a SignalAdapterError. *)
Fixpoint signal_session (inputs : list (decision_event * strategy_decision * candle)) (a : signal_adapter) : signal_adapter * list signal_step :=
  match inputs with
  | [] => (a, [])
  | (ev, d, bar) :: rest =>
      let '(a1, out) := signal_process ev d bar a in
      let '(a2, more) := signal_session rest a1 in
      (a2, match out with Ok s => s :: more | Err _ => more end)
  end.

Definition signal_input (x : decision_event * strategy_decision * candle) : Prop :=
  event_valid (fst (fst x)) /\ signal_valid (snd (fst x)) /\ candle_valid (snd x).
Definition signal_fills (steps : list signal_step) : list fill_reference := concat (map st_fills steps).
Definition step_time (s : signal_step) : Z := sd_decision_time_ms (st_decision s).

(** A step of the session answered an input of its own candidate and symbol, in
    the event's own snapshot, and every fill of it is of the research quantity. *)
Record research_step (inputs : list (decision_event * strategy_decision * candle)) (i : strategy_identity) (sym : string) (s : signal_step) : Prop := {
  rs_input : exists ev bar, (ev, st_decision s, bar) ∈ inputs /\ sc_snapshot (sd_context (st_decision s)) = ev_snapshot ev;
  rs_identity : identity (sd_context (st_decision s)) = i /\ sd_symbol (st_decision s) = sym;
  rs_fills : forall f, f ∈ st_fills s -> fr_quantity f = FIXED_RESEARCH_QUANTITY
    /\ (fr_action f = ENTER_LONG -> sd_action (st_decision s) = SEnterLong);
}.

Lemma research_fills a ev d bar s b f : signal_inv a -> signal_accepted a ev d bar s b -> f ∈ st_fills s ->
  fr_quantity f = FIXED_RESEARCH_QUANTITY /\ (fr_action f = ENTER_LONG -> sd_action d = SEnterLong).
Proof.
  intros [_ _ Ha] H Hf. pose proof (ga_lifecycle _ _ _ _ _ _ H) as Hl. pose proof (ga_action _ _ _ _ _ _ H) as Hact.
  pose proof (ga_levels _ _ _ _ _ _ H) as Hlev.
  inversion Hl as [i Hi E1 E2 E3|i p Hi Hn E1 E2|i p price reason Hi Hs E1|i p Hi E1|i p Hi Hq Hs Ht Hp E1|i p price reason Hi Hq Hs Ht Hp E1];
    match goal with E : _ = st_fills s |- _ => rewrite <- E in Hf end;
    rewrite Hi in Hact; try (by apply elem_of_nil in Hf).
  1, 2: apply list_elem_of_singleton in Hf as ->; rewrite <- E1 in Ha; destruct Ha as (x & _ & ->); split; [reflexivity|discriminate].
  all: assert (sd_action d = SEnterLong) as A by (by destruct (sd_action d)); destruct (Hlev A) as (x & _ & Hx & _); rewrite Hq in Hx; injection Hx as Ex;
    repeat (apply elem_of_cons in Hf as [-> | Hf]; [by split|]); by apply elem_of_nil in Hf.
Qed.

Lemma research_weaken inputs x i sym l : Forall (research_step inputs i sym) l -> Forall (research_step (x :: inputs) i sym) l.
Proof.
  intros Hl. eapply Forall_impl; [exact Hl|]. intros s [(ev & bar & Hx & Hs) H2 H3]. constructor; [|done|done].
  exists ev, bar. split; [by apply list_elem_of_further|done].
Qed.

Lemma signal_session_safe inputs a b steps : Forall signal_input inputs -> signal_inv a -> signal_session inputs a = (b, steps) ->
  trade_log (quantity <$> sg_engine a) (signal_fills steps) = Some (quantity <$> sg_engine b)
  /\ signal_inv b /\ Forall (research_step inputs (sg_identity a) (sg_symbol a)) steps
  /\ (forall t, sg_last_time a = Some t -> Forall (fun s => t < step_time s) steps)
  /\ StronglySorted (fun s s' => step_time s < step_time s') steps.
Proof.
  revert a b steps. induction inputs as [|[[ev d] bar] rest IH]; intros a b steps Hin Ha; simpl.
  - intros [= <- <-]. split_and!; try done; by constructor.
  - inversion_clear Hin as [|? ? (Hev & Hd & Hbar) Hrest]. cbn [fst snd] in *.
    destruct (signal_process ev d bar a) as [a1 out] eqn:E, (signal_session rest a1) as [a2 more] eqn:Em. intros [= <- <-].
    pose proof (signal_process_spec a ev d bar a1 out Ha Hd Hev Hbar E) as Hs. destruct out as [s|e].
    2: { destruct Hs as [_ ->]. destruct (IH a a2 more Hrest Ha Em) as (H1 & H2 & H3 & H4). split_and!; [done|done|by apply research_weaken|apply H4|apply H4]. }
    destruct Hs as [Hacc Ha1]. destruct (IH a1 a2 more Hrest Ha1 Em) as (H1 & H2 & H3 & H4 & H5).
    destruct (ga_order _ _ _ _ _ _ Hacc) as (_ & Ho & _ & Hlast). pose proof (ga_decision _ _ _ _ _ _ Hacc) as Ed.
    destruct (ga_fixed _ _ _ _ _ _ Hacc) as [F1 F2]. rewrite F1, F2 in H3.
    assert (step_time s = ev_decision_time_ms ev) as Et.
    { unfold step_time. rewrite Ed. apply (ga_identity _ _ _ _ _ _ Hacc). }
    specialize (H4 _ Hlast). rewrite <- Et in H4, Ho. split_and!; [|done| | |by constructor].
    + unfold signal_fills. cbn [map concat]. rewrite (trade_log_app _ _ _ _ (lifecycle_log _ _ _ _ _ _ _ (ga_lifecycle _ _ _ _ _ _ Hacc))). exact H1.
    + constructor; [|by apply research_weaken]. destruct (ga_identity _ _ _ _ _ _ Hacc) as (I1 & I2 & I3 & _). constructor; rewrite Ed.
      * exists ev, bar. split; [by apply list_elem_of_here|done].
      * done.
      * intros f Hf. exact (research_fills a ev d bar s a1 f Ha Hacc Hf).
    + intros t Hlt. constructor; [by apply Ho|]. eapply Forall_impl; [exact H4|]. intros s' Hs'. pose proof (Ho t Hlt). cbn in Hs'. lia.
Qed.

(** * Claims *)

(** The research bridge trades one fixed quantity, in order.  Over any
    session of a fresh adapter with constructed decisions, failing steps
    included (a refused step is a SignalAdapterError that changes nothing), the
    fills form a legal Spot trade log that ends holding the engine's position;
    every step answers an input of the adapter's own candidate and symbol,
    decided on the event's own snapshot; every fill, entry or exit, is of exactly
    the fixed research quantity, and entries are made by enter decisions only;
    and the decisions processed are strictly increasing in time. *)
Theorem research_session_safe i sym a inputs b steps (Hnew : new_signal_adapter i sym = Ok a) (Hin : Forall signal_input inputs)
    (Hrun : signal_session inputs a = (b, steps)) :
  trade_log None (signal_fills steps) = Some (quantity <$> sg_engine b)
  /\ signal_inv b /\ Forall (research_step inputs i sym) steps
  /\ StronglySorted (fun s s' => step_time s < step_time s') steps.
Proof.
  assert (signal_inv a /\ sg_engine a = None /\ sg_identity a = i /\ sg_symbol a = sym) as (Ha & He & Ei & Es).
  { unfold new_signal_adapter in Hnew. destruct (negb _) in Hnew; [done|]. destruct (negb _) eqn:E in Hnew; [done|].
    unfold new_engine in Hnew. rewrite E in Hnew. injection Hnew as <-. by apply negb_false_iff in E. }
  destruct (signal_session_safe inputs a b steps Hin Ha Hrun) as (H1 & H2 & H3 & _ & H5). rewrite He in H1. rewrite Ei, Es in H3. done.
Qed.

Definition pullback_decision : strategy_decision :=
  Eval vm_compute in match evaluate_trend_pullback pullback_context false None with
                     | Ok d => d | Err _ => StrategyDecision pullback_context SNoTrade SETUP_ABSENT None end.
Definition pullback_input : decision_event * strategy_decision * candle :=
  (DecisionEvent 0 sample_time sample_time (sc_snapshot pullback_context), pullback_decision,
   Candle DATA_SOURCE "BTCUSDT" "1h" sample_time (sample_time + HOUR_MS - 1) "1020" "1030" "1000" "1025" "50" "1000" 5 true).
Definition fresh_signal_adapter : signal_adapter := ResearchSignalAdapter TREND_IDENTITY "BTCUSDT" None None None None.

Lemma pullback_input_valid : Forall signal_input [pullback_input].
Proof.
  constructor; [|constructor]. split; [vm_compute; reflexivity|]. split; [|vm_compute; reflexivity].
  constructor; vm_compute; [split; [|split]|..]; reflexivity.
Qed.

Lemma research_session_safe_witness :
  Forall (research_step [pullback_input] TREND_IDENTITY "BTCUSDT") (snd (signal_session [pullback_input] fresh_signal_adapter)).
Proof.
  exact (proj1 (proj2 (proj2 (research_session_safe TREND_IDENTITY "BTCUSDT" fresh_signal_adapter [pullback_input] _ _
    eq_refl pullback_input_valid (surjective_pairing _))))).
Defined.

(** The bridge does open a position for the sample decision. *)
Example pullback_enters : length (signal_fills (snd (signal_session [pullback_input] fresh_signal_adapter))) = 1%nat.
Proof. vm_compute. reflexivity. Qed.
