(* ===== verification/ExactDec.v ===== *)
(** * Exact decimal values

    [exactly i f d v]: the decimal [d] denotes the rational [v] with at most [i]
    digits before the point and [f] after it.  Inside 256 digits the context
    operations keep such values exact, and their exponents are those of the
    exact operations; the texts of the results pass the decimal patterns
    exactly when the digits fit. *)
From Stdlib Require Import Qround.
From S2P Require Import Prelude PyDecimal PyText Market Costs Features.

Definition exactly (i f : Z) (d : dec) (v : Q) : Prop := fits i f d /\ (dval d == v)%Q.

#[export] Instance exactly_proper i f d : Proper (Qeq ==> iff) (exactly i f d).
Proof. intros v w H. unfold exactly. by rewrite H. Qed.

Lemma exactly_rep i f d v : exactly i f d v -> rep i f v.
Proof. intros [H <-]. by apply rep_dval. Qed.

Lemma exactly_self i f d : fits i f d -> exactly i f d (dval d).
Proof. by split. Qed.

Lemma exactly_Z n i : 0 <= i -> Z.abs n < 10 ^ i -> exactly i 0 (dec_of_Z n) (inject_Z n).
Proof.
  intros Hi Hn. split; [|apply dval_dec_of_Z]. split; [simpl; lia|].
  change (Z.of_N (Z.abs_N n) * 10 ^ (0 + 0) < 10 ^ (i + 0)). rewrite N2Z.inj_abs_N, !Z.add_0_r, Z.mul_1_r. done.
Qed.

Section Ops.
Context {i1 f1 i2 f2 : Z} {a b : dec} {v w : Q}.
Hypothesis Ha : exactly i1 f1 a v.
Hypothesis Hb : exactly i2 f2 b w.

Lemma exactly_add : Z.max i1 i2 + 1 + Z.max f1 f2 <= 256 ->
  exactly (Z.max i1 i2 + 1) (Z.max f1 f2) (dadd FP a b) (v + w) /\ dexp (dadd FP a b) = Z.min (dexp a) (dexp b).
Proof using All.
  intros Hp. destruct Ha as [Fa Va], Hb as [Fb Vb].
  rewrite (dadd_eq FP i1 f1 i2 f2 a b) by done. split; [|done]. split; [by apply fits_add|].
  by rewrite dval_add_exact, Va, Vb.
Qed.

Lemma exactly_sub : Z.max i1 i2 + 1 + Z.max f1 f2 <= 256 ->
  exactly (Z.max i1 i2 + 1) (Z.max f1 f2) (dsub FP a b) (v - w) /\ dexp (dsub FP a b) = Z.min (dexp a) (dexp b).
Proof using All.
  intros Hp. destruct Ha as [Fa Va], Hb as [Fb Vb]. unfold dsub.
  rewrite (dadd_eq FP i1 f1 i2 f2 a (dcopy_negate b)) by done. split; [|done]. split; [by apply fits_add|].
  rewrite dval_add_exact, dval_copy_negate, Va, Vb. reflexivity.
Qed.

Lemma exactly_mul : i1 + i2 + (f1 + f2) <= 256 ->
  exactly (i1 + i2) (f1 + f2) (dmul FP a b) (v * w) /\ dexp (dmul FP a b) = dexp a + dexp b.
Proof using All.
  intros Hp. destruct Ha as [Fa Va], Hb as [Fb Vb]. rewrite (dmul_eq FP i1 f1 i2 f2 a b) by done.
  split; [|done]. split; [by apply fits_mul|]. by rewrite dval_mul_exact, Va, Vb.
Qed.
End Ops.

Lemma exactly_bound i f i' d v : exactly i f d v -> 0 <= i' + f -> (Qabs v < q10 i')%Q -> exactly i' f d v.
Proof. intros [[He H] V] H0 Hv. split; [|done]. apply fits_of_val; [done|done|]. by rewrite V. Qed.

Lemma exactly_weaken i f i' f' d v : exactly i f d v -> i <= i' -> f <= f' -> exactly i' f' d v.
Proof. intros [H V] Hi Hf. split; [|done]. eapply fits_weaken; [exact H|done|done|by eapply fits_nonneg]. Qed.

Lemma exactly_neg i f d v : 1 <= i + f <= 256 -> exactly i f d v -> exactly i f (dminus FP d) (- v) /\ dexp (dminus FP d) = dexp d.
Proof.
  intros Hp [H V]. rewrite (dminus_eq FP i f d ltac:(done) H ltac:(change (Z.of_N FP) with 256; lia)).
  destruct (N.eqb_spec (dcoef d) 0) as [E|E]; (split; [|done]); (split; [done|]).
  - assert (dval d == 0)%Q as E0 by by apply dval_zero_iff. rewrite dval_copy_abs, <- V, E0. reflexivity.
  - by rewrite dval_copy_negate, V.
Qed.

(** ** Texts *)

(** The numbers whose text passes the unsigned pattern. *)
Lemma unsigned_text_iff d : dexp d <= 0 ->
  decimal_pattern (format_f d) = true <-> dneg d = false /\ -40 <= dexp d /\ fits 40 40 d.
Proof.
  intros He. split.
  - intros H. destruct (decimal_pattern_spec _ H) as (d' & E & (Hn & Hx & Hf) & _).
    rewrite Decimal_format in E by done. injection E as <-. split; [done|]. split; [lia|done].
  - intros (Hn & Hx & Hf). apply format_pattern; [done|lia|done].
Qed.

Lemma unsigned_text_denotes d : dneg d = false -> -40 <= dexp d <= 0 -> fits 40 40 d -> denotes (format_f d) d.
Proof. intros Hn He Hf. split; [apply Decimal_format; lia|done]. Qed.

Lemma exactly_small d v : dexp d <= 0 -> -40 <= dexp d -> (dval d == v)%Q -> (0 <= v)%Q -> (v < q10 40)%Q -> fits 40 40 d.
Proof. intros He Hx Hv H0 H1. apply fits_of_val; [lia|lia|]. rewrite Hv. by rewrite Qabs_pos. Qed.

Lemma denotes_inj s d d' : denotes s d -> Decimal s = Ok d' -> d' = d.
Proof. intros [E _] E'. congruence. Qed.

Lemma denotes_exactly s d : denotes s d -> exactly 40 40 d (dval d) /\ -40 <= dexp d <= 0 /\ dneg d = false /\ (0 <= dval d)%Q.
Proof. intros (_ & (Hn & He & Hf) & _). split; [by split|]. split; [done|]. split; [done|]. by apply plain_nonneg. Qed.

Lemma dneg_false_pos d : (0 < dval d)%Q -> dneg d = false.
Proof.
  destruct d as [[] c e]; [|done]. intros H. exfalso. rewrite dval_sign in H. cbn [qsign] in H.
  assert (0 <= inject_Z (Z.of_N c) * q10 e)%Q; [|lra]. apply Qmult_le_0_compat; [|by apply Qlt_le_weak].
  change 0%Q with (inject_Z 0). rewrite <- Zle_Qle. lia.
Qed.

(** Signed texts: the same digits with an optional minus. *)
Lemma signed_text_denotes d : -40 <= dexp d <= 0 -> fits 40 40 d -> signed_pattern (format_f d) = true.
Proof.
  destruct d as [s c e]. simpl. intros He Hf. unfold signed_pattern, format_f. rewrite txt_str, format_text_sign. cbn [dneg dcoef dexp].
  assert (unsigned_text (unsigned_body c e) = true) as Hu.
  { pose proof (format_pattern (Dec false c e) eq_refl He Hf) as H. unfold decimal_pattern, format_f in H.
    by rewrite txt_str, format_text_sign in H. }
  destruct s; cbn [app]; [exact Hu|].
  destruct (unsigned_text_head _ Hu) as (x & l & E & Hx). rewrite E in Hu |- *. unfold signed_text.
  by rewrite digit_not_minus.
Qed.

(** The text of a number, whatever its exponent, reads back as an equal number. *)
Lemma format_reads d : exists d', Decimal (format_f d) = Ok d' /\ format_f d' = format_f d /\ dneg d' = dneg d
  /\ (dval d' == dval d)%Q /\ dexp d' = Z.min 0 (dexp d).
Proof.
  destruct (Z.le_gt_cases (dexp d) 0) as [He|He].
  - exists d. rewrite Decimal_format by done. repeat split. lia.
  - destruct d as [s c e]. cbn [dexp] in He. exists (Dec s (c * 10 ^ Z.to_N e) 0).
    assert (format_f (Dec s (c * 10 ^ Z.to_N e) 0) = format_f (Dec s c e)) as E.
    { unfold format_f. by rewrite !format_text_sign; cbn [dneg dcoef dexp]; rewrite (body_positive c e) by lia. }
    rewrite <- E, Decimal_format by done. repeat split; [|simpl; lia].
    rewrite !dval_sign, inject_N_mul_pow, Z2N.id by lia. change (q10 0) with 1%Q. ring.
Qed.

Lemma format_reads_exactly i f d v : exactly i f d v -> 0 <= f -> exists d', Decimal (format_f d) = Ok d' /\ exactly i f d' v /\ format_f d' = format_f d.
Proof.
  intros [Hf Hv] H0. destruct (format_reads d) as (d' & E & Et & En & Ev & Ee). exists d'. split; [done|]. split; [|done].
  split; [|by rewrite Ev]. pose proof (fits_nonneg _ _ _ Hf). pose proof (fits_abs_val _ _ _ Hf) as Hb. destruct Hf as [He _].
  apply fits_of_val; [lia|done|]. by rewrite Ev.
Qed.

(** ** Floors *)

Lemma dfloor_spec d : (dval (dfloor d) == inject_Z (Qfloor (dval d)))%Q /\ 0 <= dexp (dfloor d).
Proof.
  unfold dfloor. destruct (Z.leb_spec 0 (dexp d)) as [He|He].
  - split; [|done]. unfold dval. rewrite q10_Z by done. rewrite <- inject_Z_mult, Qfloor_Z. reflexivity.
  - set (k := (10 ^ Z.to_N (- dexp d))%N). assert (Z.of_N k = 10 ^ (- dexp d)) as Hk.
    { unfold k. rewrite N2Z.inj_pow, Z2N.id by lia. done. }
    pose proof (pow10_pos (- dexp d) ltac:(lia)) as Hp.
    assert (Qfloor (dval d) = sval d / 10 ^ (- dexp d)) as ->.
    { assert (dval d == sval d # Z.to_pos (10 ^ (- dexp d)))%Q as ->.
      { rewrite (Qmake_Qdiv (sval d)), Z2Pos.id by done. unfold dval. replace (dexp d) with (- (- dexp d)) at 1 by lia.
        rewrite <- q10_Z by lia. unfold q10. rewrite Qpower_opp. reflexivity. }
      unfold Qfloor. by rewrite Z2Pos.id. }
    assert (forall s c, dval (Dec s c 0) == inject_Z (if s then - Z.of_N c else Z.of_N c))%Q as Hv.
    { intros s c. unfold dval, sval. cbn [dneg dcoef dexp]. change (q10 0) with 1%Q. ring. }
    unfold sval. rewrite <- Hk in Hp |- *. pose proof (N2Z.is_nonneg (dcoef d)).
    pose proof (f_equal Z.of_N (N.div_mod (dcoef d) k ltac:(lia))) as Hd. rewrite N2Z.inj_add, N2Z.inj_mul, N2Z.inj_div in Hd.
    clearbody k. destruct (dneg d); cbn [andb]; [destruct (N.eqb_spec (dcoef d mod k) 0) as [Em|Em]; cbn [negb]|]; (split; [|done]); rewrite Hv; f_equiv; f_equal.
    + rewrite N2Z.inj_div. apply Z.div_unique_exact; [lia|]. rewrite Em in Hd. rewrite Hd at 1. cbn. ring.
    + rewrite N2Z.inj_add, N2Z.inj_div. apply (Z.div_unique _ _ _ (Z.of_N k - Z.of_N (dcoef d mod k))).
      * left. pose proof (N.mod_lt (dcoef d) k ltac:(lia)) as Hm. remember (dcoef d mod k)%N as m. clear -Hm Em. lia.
      * rewrite Hd at 1. ring.
    + by rewrite N2Z.inj_div.
Qed.

Lemma Qfloor_unique x n : (inject_Z n <= x)%Q -> (x < inject_Z (n + 1))%Q -> Qfloor x = n.
Proof.
  intros H1 H2. pose proof (Qfloor_le x) as H3. pose proof (Qlt_floor x) as H4.
  assert (n < Qfloor x + 1) by (rewrite Zlt_Qlt; eapply Qle_lt_trans; [exact H1|exact H4]).
  assert (Qfloor x < n + 1) by (rewrite Zlt_Qlt; eapply Qle_lt_trans; [exact H3|exact H2]). lia.
Qed.

(** A text that passes the pattern reads back within 40 digits on each side. *)
Definition plain (d : dec) : bool := decimal_pattern (format_f d).

Lemma plain_reads i f d v : exactly i f d v -> plain d = true ->
  exists d', denotes (format_f d) d' /\ exactly 40 40 d' v /\ dexp d' = Z.min 0 (dexp d).
Proof.
  intros [_ Hv] Hp. destruct (format_reads d) as (d' & E & Et & _ & Ev & Ee). exists d'.
  unfold plain in Hp. rewrite <- Et in Hp. apply unsigned_text_iff in Hp; [|lia]. destruct Hp as (Hn & Hx & Hf).
  split; [|split; [|done]]; [|split; [done|by rewrite Ev]].
  split; [done|]. split; [|done]. split; [done|]. split; [lia|done].
Qed.

(** Equal sign, exponent and value are the same number. *)
Lemma dec_same d d' : dneg d = dneg d' -> dexp d = dexp d' -> (dval d == dval d')%Q -> d = d'.
Proof.
  destruct d as [s c e], d' as [s' c' e']. cbn [dneg dexp]. intros <- <-. unfold dval. cbn [dexp]. intros H.
  apply Qmult_inj_r in H; [|apply q10_nonzero]. apply (proj1 (inject_Z_injective _ _)) in H. unfold sval in H. cbn [dneg dcoef] in H.
  f_equal. destruct s; cbn iota in H; lia.
Qed.

(** Signs of non-negative results. *)
Lemma dneg_false_minus i f d : 1 <= i + f <= 256 -> fits i f d -> (0 <= dval (dminus FP d))%Q -> dneg (dminus FP d) = false.
Proof.
  intros Hp Hf H. destruct (Qle_lt_or_eq _ _ H) as [Hlt|Heq]; [by apply dneg_false_pos|].
  rewrite (dminus_eq FP i f d ltac:(done) Hf ltac:(change (Z.of_N FP) with 256; lia)) in *.
  destruct (N.eqb_spec (dcoef d) 0) as [E|E]; [done|]. exfalso. apply E, dval_zero_iff. rewrite dval_copy_negate in Heq. lra.
Qed.

Lemma dneg_false_sub i1 f1 i2 f2 a b : fits i1 f1 a -> fits i2 f2 b -> Z.max i1 i2 + 1 + Z.max f1 f2 <= 256 -> dneg a = false ->
  (0 <= dval (dsub FP a b))%Q -> dneg (dsub FP a b) = false.
Proof.
  intros Ha Hb Hp Hn H. destruct (Qle_lt_or_eq _ _ H) as [Hlt|Heq]; [by apply dneg_false_pos|].
  unfold dsub in *. rewrite (dadd_eq FP i1 f1 i2 f2 a (dcopy_negate b)) in * by done.
  assert (dval (dadd_exact a (dcopy_negate b)) == 0)%Q as H0 by by rewrite <- Heq. apply dval_zero_iff in H0.
  unfold dadd_exact, of_sval in *. rewrite Hn in *. cbn [andb] in *. cbv zeta in *. destruct (_ =? 0) eqn:E; [done|]. cbn [dcoef dneg] in *.
  apply Z.eqb_neq in E. lia.
Qed.
