(* ===== verification/Evaluate.v ===== *)
(** * The evidence protocol (yatl/strategy/evaluate.py)

    The frozen evaluation plan, the evidence of one symbol's run, and the gates
    that label a candidate.  Constructors that normalize their texts return the
    normalized record. *)
From S2P Require Import Prelude PyDecimal PyText Digest Market BacktestConfig MarketView Fills Costs StrategyContracts Features Regime Trend Breakout Registry ExactDec.

Definition PROTOCOL_VERSION : string := "P3_EVAL_V1".
Definition EVALUATION_DAY_MS : Z := 86400000.
Definition MIN_EVALUATION_DAYS : Z := 180.
Definition MIN_TRADES_PER_SYMBOL : Z := 30.
Definition MIN_TOTAL_TRADES : Z := 60.
Definition SEGMENT_COUNT : nat := 3.
Definition MAX_DRAWDOWN : dec := Dec false 25 (-2).
Definition MAX_SEGMENT_LOSS : dec := Dec false 10 (-2).

Definition config_sha256 (c : result strategy_configuration) : option string :=
  match (let* c := c in configuration_sha256 c) with Ok h => Some h | Err _ => None end.
(** [LOCKED_CONFIGURATIONS.get(identity)] *)
Definition LOCKED_CONFIGURATIONS (i : strategy_identity) : option string :=
  if bool_decide (i = TREND_IDENTITY) then config_sha256 TREND_CONFIGURATION
  else if bool_decide (i = BREAKOUT_IDENTITY) then config_sha256 BREAKOUT_CONFIGURATION
  else None.

Inductive evidence_label : Type := INSUFFICIENT_EVIDENCE | EV_REJECTED | QUALIFIED_FOR_P4_RESEARCH.
Inductive evidence_reason : Type :=
| EVALUATION_WINDOW_TOO_SHORT | MINIMUM_TRADES_NOT_MET | SOFTWARE_EVIDENCE_FAILED | NO_TRADE_BASELINE_NOT_BEATEN | BUY_HOLD_NOT_BEATEN
| DRAWDOWN_GATE_FAILED | SEGMENT_STABILITY_FAILED | ALL_GATES_PASSED.
#[global] Instance evidence_label_eq_dec : EqDecision evidence_label.
Proof. solve_decision. Defined.
#[global] Instance evidence_reason_eq_dec : EqDecision evidence_reason.
Proof. solve_decision. Defined.

Definition label_value (l : evidence_label) : string :=
  match l with
  | INSUFFICIENT_EVIDENCE => "INSUFFICIENT_EVIDENCE" | EV_REJECTED => "REJECTED" | QUALIFIED_FOR_P4_RESEARCH => "QUALIFIED_FOR_P4_RESEARCH"
  end.
Definition evidence_reason_value (r : evidence_reason) : string :=
  match r with
  | EVALUATION_WINDOW_TOO_SHORT => "EVALUATION_WINDOW_TOO_SHORT" | MINIMUM_TRADES_NOT_MET => "MINIMUM_TRADES_NOT_MET"
  | SOFTWARE_EVIDENCE_FAILED => "SOFTWARE_EVIDENCE_FAILED" | NO_TRADE_BASELINE_NOT_BEATEN => "NO_TRADE_BASELINE_NOT_BEATEN"
  | BUY_HOLD_NOT_BEATEN => "BUY_HOLD_NOT_BEATEN" | DRAWDOWN_GATE_FAILED => "DRAWDOWN_GATE_FAILED"
  | SEGMENT_STABILITY_FAILED => "SEGMENT_STABILITY_FAILED" | ALL_GATES_PASSED => "ALL_GATES_PASSED"
  end.

Definition _sha256 (value field : string) : result string :=
  raise_if negb (sha256_pattern value) with EvaluationError (String.append field " must be a lowercase SHA-256") ;;
  Ok value.

Definition _number (value field : string) (nonnegative unit : bool) : result dec :=
  raise_if negb (signed_pattern value) with EvaluationError (String.append field " must be a plain decimal string") ;;
  let* number := Decimal value in
  raise_if (nonnegative && dltb number dec0) || (unit && negb (dleb dec0 number && dleb number dec1))
    with EvaluationError (String.append field " is outside the allowed range") ;;
  Ok number.

Definition _plain (d : dec) : string := if deqb d dec0 then "0" else plain_text d.

(** ** The input digest *)

Definition candle_key (c : candle) : string * Z := (interval c, open_time_ms c).
(** Tuples are ordered by their first components, then their second. *)
Definition candle_leb (a b : candle) : bool :=
  if String.eqb (interval a) (interval b) then open_time_ms a <=? open_time_ms b else String.leb (interval a) (interval b).

Definition visible_before (candles : list candle) (evaluation_end_ms : Z) : list candle :=
  List.filter (fun c => close_time_ms c <? evaluation_end_ms) candles.

Definition evaluation_input_sha256 (candles : list candle) (sym : string) (evaluation_end_ms : Z) : result string :=
  raise_if bool_decide (candles = []) || (1000000 <? Z.of_nat (length candles)) || negb (str_in sym SYMBOLS) || (evaluation_end_ms <=? 0)
           || existsb (fun c => negb (String.eqb (source c) DATA_SOURCE) || negb (String.eqb (symbol c) sym)) candles
    with EvaluationError "Evaluation input identity is invalid" ;;
  let visible := visible_before candles evaluation_end_ms in
  raise_if bool_decide (visible = []) || existsb (fun c => negb (is_closed c)) visible || negb (bool_decide (NoDup (map candle_key visible)))
    with EvaluationError "Visible evaluation input is incomplete or duplicated" ;;
  Ok (digest (JArr (map candle_record (isort candle_leb visible)))).

(** ** The plan *)

Record evaluation_plan : Type := EvaluationPlan {
  ep_identity : strategy_identity;
  ep_configuration_sha256 : string;
  training_start_ms : Z;
  training_end_ms : Z;
  evaluation_start_ms : Z;
  evaluation_end_ms : Z;
  ep_symbols : list string;
  ep_segment_count : Z;
  ep_protocol_version : string;
}.
#[global] Instance evaluation_plan_eq_dec : EqDecision evaluation_plan.
Proof. solve_decision. Defined.

Definition plan_post_init (p : evaluation_plan) : result unit :=
  let invalid := Raise EvaluationError "Evaluation plan is not a valid frozen protocol" in
  do* rcatch (identity_post_init (ep_identity p)) [StrategyContractError; TypeError; ValueError]
        (Raise EvaluationError "Evaluation strategy identity is invalid") ;;
  match LOCKED_CONFIGURATIONS (ep_identity p) with
  | None => Err invalid
  | Some expected =>
      let* h := _sha256 (ep_configuration_sha256 p) "configuration_sha256" in
      let times := [training_start_ms p; training_end_ms p; evaluation_start_ms p; evaluation_end_ms p] in
      if negb (String.eqb h expected) || existsb (fun t => t <=? 0) times || existsb (fun t => negb (t mod EVALUATION_DAY_MS =? 0)) times
         || negb (training_start_ms p <? training_end_ms p) || (evaluation_start_ms p <? training_end_ms p)
         || (evaluation_end_ms p <=? evaluation_start_ms p) || negb (bool_decide (ep_symbols p = SYMBOLS))
         || negb (ep_segment_count p =? Z.of_nat SEGMENT_COUNT) || negb (String.eqb (ep_protocol_version p) PROTOCOL_VERSION)
      then Err invalid else Ok tt
  end.

Definition plan_record (p : evaluation_plan) : json := JObj [
  ("protocol_version", JStr (ep_protocol_version p)); ("strategy_id", JStr (strategy_id (ep_identity p)));
  ("strategy_version", JStr (version (ep_identity p))); ("configuration_sha256", JStr (ep_configuration_sha256 p));
  ("training_start_ms", JInt (training_start_ms p)); ("training_end_ms", JInt (training_end_ms p));
  ("evaluation_start_ms", JInt (evaluation_start_ms p)); ("evaluation_end_ms", JInt (evaluation_end_ms p));
  ("symbols", JArr (map JStr (ep_symbols p))); ("segment_count", JInt (ep_segment_count p)); ("paper_only", JBool true);
  ("live_master_lock", JStr "OFF")]%string.
Definition plan_sha256 (p : evaluation_plan) : string := digest (plan_record p).
Definition evaluation_days (p : evaluation_plan) : Z := (evaluation_end_ms p - evaluation_start_ms p) / EVALUATION_DAY_MS.

(** ** The evidence of one symbol *)

Record symbol_evidence : Type := SymbolEvidence {
  se_symbol : string;
  se_plan_sha256 : string;
  se_configuration_sha256 : string;
  se_evaluation_start_ms : Z;
  se_evaluation_end_ms : Z;
  dataset_sha256 : string;
  se_trade_count : Z;
  total_return : string;
  maximum_drawdown : string;
  total_cost_quote : string;
  buy_hold_return : string;
  buy_hold_maximum_drawdown : string;
  segment_returns : list string;
  replay_equal : bool;
  point_in_time_verified : bool;
  future_isolation_verified : bool;
}.
#[global] Instance symbol_evidence_eq_dec : EqDecision symbol_evidence.
Proof. solve_decision. Defined.

Definition normal_number (value field : string) (nonnegative unit : bool) : result string :=
  let* d := _number value field nonnegative unit in Ok (_plain d).

Definition new_evidence (e : symbol_evidence) : result symbol_evidence :=
  raise_if negb (str_in (se_symbol e) SYMBOLS) || (se_evaluation_end_ms e <=? se_evaluation_start_ms e)
           || negb ((0 <=? se_trade_count e) && (se_trade_count e <=? 1000000)) || negb (length (segment_returns e) =? SEGMENT_COUNT)%nat
    with EvaluationError "Symbol evidence identity is invalid" ;;
  do* _sha256 (se_plan_sha256 e) "plan_sha256" ;;
  do* _sha256 (se_configuration_sha256 e) "configuration_sha256" ;;
  do* _sha256 (dataset_sha256 e) "dataset_sha256" ;;
  let* total := normal_number (total_return e) "total_return" false false in
  let* drawdown := normal_number (maximum_drawdown e) "maximum_drawdown" false true in
  let* cost := normal_number (total_cost_quote e) "total_cost_quote" true false in
  let* hold := normal_number (buy_hold_return e) "buy_hold_return" false false in
  let* hold_drawdown := normal_number (buy_hold_maximum_drawdown e) "buy_hold_maximum_drawdown" false true in
  let* segments := rmap (fun v => normal_number v "segment_return" false false) (segment_returns e) in
  Ok (SymbolEvidence (se_symbol e) (se_plan_sha256 e) (se_configuration_sha256 e) (se_evaluation_start_ms e) (se_evaluation_end_ms e)
        (dataset_sha256 e) (se_trade_count e) total drawdown cost hold hold_drawdown segments (replay_equal e) (point_in_time_verified e)
        (future_isolation_verified e)).

Definition evidence_record (e : symbol_evidence) : json := JObj [
  ("symbol", JStr (se_symbol e)); ("plan_sha256", JStr (se_plan_sha256 e)); ("configuration_sha256", JStr (se_configuration_sha256 e));
  ("evaluation_start_ms", JInt (se_evaluation_start_ms e)); ("evaluation_end_ms", JInt (se_evaluation_end_ms e));
  ("dataset_sha256", JStr (dataset_sha256 e)); ("trade_count", JInt (se_trade_count e)); ("total_return", JStr (total_return e));
  ("maximum_drawdown", JStr (maximum_drawdown e)); ("total_cost_quote", JStr (total_cost_quote e)); ("buy_hold_return", JStr (buy_hold_return e));
  ("buy_hold_maximum_drawdown", JStr (buy_hold_maximum_drawdown e)); ("segment_returns", JArr (map JStr (segment_returns e)));
  ("replay_equal", JBool (replay_equal e)); ("point_in_time_verified", JBool (point_in_time_verified e));
  ("future_isolation_verified", JBool (future_isolation_verified e))]%string.
Definition evidence_sha256 (e : symbol_evidence) : string := digest (evidence_record e).

(** ** The assessment *)

Record assessment : Type := Assessment {
  as_runs : list symbol_evidence;
  as_label : evidence_label;
  as_reasons : list evidence_reason;
  as_total_trades : Z;
  as_mean_return : dec;
  as_mean_buy_hold : dec;
  as_total_cost : dec;
}.

(** [sorted(runs, key=lambda run: run.symbol)] *)
Definition by_symbol (runs : list symbol_evidence) : list symbol_evidence := isort (fun a b => String.leb (se_symbol a) (se_symbol b)) runs.

Definition matches_plan (p : evaluation_plan) (e : symbol_evidence) : bool :=
  String.eqb (se_plan_sha256 e) (plan_sha256 p) && String.eqb (se_configuration_sha256 e) (ep_configuration_sha256 p)
  && (se_evaluation_start_ms e =? evaluation_start_ms p) && (se_evaluation_end_ms e =? evaluation_end_ms p).

(** [any(...)] over a generator whose test may raise: it stops at the first run
    that satisfies the test. *)
Fixpoint rany (f : symbol_evidence -> result bool) (l : list symbol_evidence) : result bool :=
  match l with
  | [] => Ok false
  | e :: rest => let* b := f e in if b then Ok true else rany f rest
  end.

Definition mean (total : dec) (l : list symbol_evidence) : result dec := ddiv DECIMAL_PRECISION total (dec_of_Z (Z.of_nat (length l))).

Definition returns_number (e : symbol_evidence) : result dec := _number (total_return e) "total_return" false false.
Definition hold_number (e : symbol_evidence) : result dec := _number (buy_hold_return e) "buy_hold_return" false false.
Definition cost_number (e : symbol_evidence) : result dec := _number (total_cost_quote e) "total_cost_quote" true false.
Definition segment_numbers (e : symbol_evidence) : result (list dec) := rmap (fun v => _number v "segment_return" false false) (segment_returns e).

Definition no_gain (e : symbol_evidence) : result bool := let* r := returns_number e in Ok (dleb r dec0).
Definition below_hold (e : symbol_evidence) : result bool := let* r := returns_number e in let* h := hold_number e in Ok (dleb r h).
Definition drawdown_failed (e : symbol_evidence) : result bool :=
  let* d := _number (maximum_drawdown e) "maximum_drawdown" false true in
  let* h := _number (buy_hold_maximum_drawdown e) "buy_hold_maximum_drawdown" false true in
  Ok (dltb (dmin MAX_DRAWDOWN h) d).
Definition segments_failed (e : symbol_evidence) : result bool :=
  let* l := segment_numbers e in
  if (length (List.filter (fun d => dltb dec0 d) l) <? 2)%nat then Ok true else
  let* low := dmin_list l in
  Ok (dltb low (dminus default_prec MAX_SEGMENT_LOSS)).

Definition when (b : bool) (r : evidence_reason) : list evidence_reason := if b then [r] else [].

Definition _assessment (p : evaluation_plan) (runs : list symbol_evidence) : result assessment :=
  raise_if negb (length runs =? length SYMBOLS)%nat with EvaluationError "Evaluation requires one immutable run per symbol" ;;
  do* plan_post_init p ;;
  let* runs := rmap new_evidence runs in
  let ordered := by_symbol runs in
  raise_if negb (bool_decide (map se_symbol ordered = isort String.leb SYMBOLS))
    with EvaluationError "Evaluation symbol evidence is incomplete or duplicated" ;;
  raise_if existsb (fun e => negb (matches_plan p e)) ordered with EvaluationError "Evidence does not match the frozen evaluation plan" ;;
  let total_trades := fold_left Z.add (map se_trade_count ordered) 0 in
  let* returns := rmap returns_number ordered in
  let* mean_return := mean (dsum DECIMAL_PRECISION dec0 returns) ordered in
  let* holds := rmap hold_number ordered in
  let* mean_buy_hold := mean (dsum DECIMAL_PRECISION dec0 holds) ordered in
  let* costs := rmap cost_number ordered in
  let total_cost := dsum DECIMAL_PRECISION dec0 costs in
  let outcome l reasons := Assessment ordered l reasons total_trades mean_return mean_buy_hold total_cost in
  let insufficient := when (evaluation_days p <? MIN_EVALUATION_DAYS) EVALUATION_WINDOW_TOO_SHORT
    ++ when ((total_trades <? MIN_TOTAL_TRADES) || existsb (fun e => se_trade_count e <? MIN_TRADES_PER_SYMBOL) ordered) MINIMUM_TRADES_NOT_MET in
  match insufficient with
  | _ :: _ => Ok (outcome INSUFFICIENT_EVIDENCE insufficient)
  | [] =>
      let software := existsb (fun e => negb (replay_equal e && point_in_time_verified e && future_isolation_verified e)) ordered in
      let* gain := rany no_gain ordered in
      let* hold := rany below_hold ordered in
      let* drawdown := rany drawdown_failed ordered in
      let* segments := rany segments_failed ordered in
      let rejected := when software SOFTWARE_EVIDENCE_FAILED ++ when gain NO_TRADE_BASELINE_NOT_BEATEN ++ when hold BUY_HOLD_NOT_BEATEN
        ++ when drawdown DRAWDOWN_GATE_FAILED ++ when segments SEGMENT_STABILITY_FAILED in
      match rejected with
      | _ :: _ => Ok (outcome EV_REJECTED rejected)
      | [] => Ok (outcome QUALIFIED_FOR_P4_RESEARCH [ALL_GATES_PASSED])
      end
  end.

Record evaluation_report : Type := EvaluationReport {
  er_plan : evaluation_plan;
  er_values : assessment;
}.

(** Equality of the tuples compares the decimals as numbers. *)
Definition assessment_eqb (a b : assessment) : bool :=
  bool_decide (as_runs a = as_runs b) && bool_decide (as_label a = as_label b) && bool_decide (as_reasons a = as_reasons b)
  && (as_total_trades a =? as_total_trades b) && deqb (as_mean_return a) (as_mean_return b) && deqb (as_mean_buy_hold a) (as_mean_buy_hold b)
  && deqb (as_total_cost a) (as_total_cost b).

Definition evaluation_report_post_init (r : evaluation_report) : result unit :=
  let* expected := _assessment (er_plan r) (as_runs (er_values r)) in
  raise_if negb (assessment_eqb (er_values r) expected) with EvaluationError "Evaluation report is inconsistent" ;;
  Ok tt.

Definition report_record (r : evaluation_report) : json := JObj [
  ("schema_version", JInt 1); ("plan", plan_record (er_plan r)); ("plan_sha256", JStr (plan_sha256 (er_plan r)));
  ("runs", JArr (map evidence_record (as_runs (er_values r)))); ("label", JStr (label_value (as_label (er_values r))));
  ("reasons", JArr (map JStr (map evidence_reason_value (as_reasons (er_values r)))));
  ("pooled", JObj [("total_trades", JInt (as_total_trades (er_values r))); ("mean_total_return", JStr (_plain (as_mean_return (er_values r))));
                   ("mean_buy_hold_return", JStr (_plain (as_mean_buy_hold (er_values r))));
                   ("total_cost_quote", JStr (_plain (as_total_cost (er_values r)))); ("no_trade_return", JStr "0")]);
  ("qualification_is_not_trading_approval", JBool true)]%string.
Definition evaluation_report_sha256 (r : evaluation_report) : string := digest (report_record r).

Definition assess_evidence (p : evaluation_plan) (runs : list symbol_evidence) : result evaluation_report :=
  let* values := _assessment p runs in
  let r := EvaluationReport p values in
  do* evaluation_report_post_init r ;; Ok r.

(** * Properties *)

(** ** Numbers *)

(** The number a text denotes. *)
Definition num (s : string) : Q := match Decimal s with Ok d => dval d | Err _ => 0%Q end.

Lemma evidence_number_inv v f n u d : _number v f n u = Ok d -> Decimal v = Ok d /\ plain_range (dneg d) d /\ format_f d = v
  /\ (n = true -> (0 <= dval d)%Q) /\ (u = true -> (0 <= dval d <= 1)%Q).
Proof.
  unfold _number. intros H. apply raise_if_ok in H as [Hp H]. apply negb_false_iff in Hp. destruct (signed_pattern_spec _ Hp) as (d' & Ed & Hr & Hf).
  rewrite Ed in H |- *. cbn [rbind] in H. apply raise_if_ok in H as [Hc H]. apply Ok_inj in H. subst d'. do 3 (split; [done|]).
  apply orb_false_iff in Hc as [Hc Hu]. split; intros ->; cbn [andb] in *.
  - by apply dltb_false in Hc.
  - apply negb_false_iff, andb_true_iff in Hu. rewrite !dleb_spec in Hu. by rewrite dval_0, dval_1 in Hu.
Qed.

Lemma plain_normal d : plain_range (dneg d) d -> exists d', _plain d = format_f d' /\ plain_range (dneg d') d' /\ (dval d' == dval d)%Q /\ _plain d' = _plain d.
Proof.
  intros (_ & He & Hf). unfold _plain. destruct (deqb d dec0) eqn:E0.
  - exists dec0. apply deqb_spec in E0. split; [reflexivity|]. split; [repeat split; simpl; lia|]. split; [by rewrite E0|]. reflexivity.
  - destruct (plain_text_spec d) as (d' & Ep & Hn & V & He'). exists d'. split; [exact Ep|]. split; [|split; [exact V|]].
    + split; [done|]. split; [lia|]. apply fits_of_val; [lia|lia|]. rewrite V. by apply (fits_abs_val 40 40).
    + rewrite (deqb_value d' d dec0 dec0 V ltac:(reflexivity)), E0. apply plain_text_value; [by rewrite Hn|exact V].
Qed.

Lemma range_pattern d : plain_range (dneg d) d -> signed_pattern (format_f d) = true.
Proof. intros (_ & He & Hf). apply signed_text_denotes; [lia|done]. Qed.

Lemma number_format d f n u : plain_range (dneg d) d -> (n = true -> (0 <= dval d)%Q) -> (u = true -> (0 <= dval d <= 1)%Q) ->
  _number (format_f d) f n u = Ok d.
Proof.
  intros Hr Hn Hu. unfold _number. rewrite (range_pattern d Hr). cbn [negb]. rewrite Decimal_format by (destruct Hr as (_ & He & _); lia). cbn [rbind].
  assert ((n && dltb d dec0) || (u && negb (dleb dec0 d && dleb d dec1)) = false) as ->; [|done]. apply orb_false_iff. split.
  - destruct n; [|done]. cbn [andb]. apply dltb_false. rewrite dval_0. by apply Hn.
  - destruct u; [|done]. cbn [andb]. apply negb_false_iff, andb_true_iff. rewrite !dleb_spec, dval_0, dval_1. by apply Hu.
Qed.

(** Constructing evidence again from its normal texts changes nothing. *)
Lemma normal_again v f n u w : normal_number v f n u = Ok w -> normal_number w f n u = Ok w.
Proof.
  unfold normal_number. intros H. apply rbind_ok in H as (d & Hd & H). apply Ok_inj in H. subst w.
  destruct (evidence_number_inv _ _ _ _ _ Hd) as (_ & Hr & _ & Hn & Hu). destruct (plain_normal d Hr) as (d' & Ep & Hr' & V & Ep').
  rewrite Ep. rewrite (number_format d' f n u Hr'); [|intros E; rewrite V; by apply Hn|intros E; rewrite V; by apply Hu]. cbn [rbind]. by rewrite Ep', Ep.
Qed.

Lemma normals_again f l l' : rmap (fun v => normal_number v f false false) l = Ok l' -> rmap (fun v => normal_number v f false false) l' = Ok l'.
Proof.
  rewrite !rmap_ok. induction 1 as [|v w l l' H _ IH]; [constructor|]. constructor; [by eapply normal_again|done].
Qed.

Lemma evidence_normal e0 e : new_evidence e0 = Ok e -> new_evidence e = Ok e.
Proof.
  intros H. unfold new_evidence in H. apply raise_if_ok in H as [Hc H].
  apply rbind_ok in H as (? & H1 & H). apply rbind_ok in H as (? & H2 & H). apply rbind_ok in H as (? & H3 & H).
  apply rbind_ok in H as (t & Ht & H). apply rbind_ok in H as (d & Hd & H). apply rbind_ok in H as (c & Hcost & H).
  apply rbind_ok in H as (h & Hh & H). apply rbind_ok in H as (hd & Hhd & H). apply rbind_ok in H as (s & Hs & H). apply Ok_inj in H. subst e.
  unfold new_evidence. cbn [se_symbol se_plan_sha256 se_configuration_sha256 se_evaluation_start_ms se_evaluation_end_ms dataset_sha256 se_trade_count
    total_return maximum_drawdown total_cost_quote buy_hold_return buy_hold_maximum_drawdown segment_returns replay_equal point_in_time_verified
    future_isolation_verified].
  assert (length s = length (segment_returns e0)) as -> by (apply rmap_ok in Hs; symmetry; by eapply Forall2_length). rewrite Hc, H1, H2, H3. cbn [rbind].
  rewrite (normal_again _ _ _ _ _ Ht), (normal_again _ _ _ _ _ Hd), (normal_again _ _ _ _ _ Hcost), (normal_again _ _ _ _ _ Hh), (normal_again _ _ _ _ _ Hhd).
  cbn [rbind]. rewrite (normals_again _ _ _ Hs). reflexivity.
Qed.

(** ** The gates over the rationals *)

(** What the texts of constructed evidence denote. *)
Record evidence_numbers (e : symbol_evidence) : Prop := {
  en_return : exists d, returns_number e = Ok d /\ num (total_return e) = dval d /\ rep 40 40 (dval d);
  en_hold : exists d, hold_number e = Ok d /\ num (buy_hold_return e) = dval d /\ rep 40 40 (dval d);
  en_cost : exists d, cost_number e = Ok d /\ num (total_cost_quote e) = dval d /\ rep 40 40 (dval d);
  en_drawdown : exists d h, _number (maximum_drawdown e) "maximum_drawdown" false true = Ok d
    /\ _number (buy_hold_maximum_drawdown e) "buy_hold_maximum_drawdown" false true = Ok h
    /\ num (maximum_drawdown e) = dval d /\ num (buy_hold_maximum_drawdown e) = dval h;
  en_segments : exists l, segment_numbers e = Ok l /\ map num (segment_returns e) = map dval l /\ length l = SEGMENT_COUNT;
}.

Lemma normal_read v f n u w : normal_number v f n u = Ok w -> exists d, _number v f n u = Ok d /\ num v = dval d /\ rep 40 40 (dval d).
Proof.
  unfold normal_number. intros H. apply rbind_ok in H as (d & Hd & _). exists d. split; [done|].
  destruct (evidence_number_inv _ _ _ _ _ Hd) as (E & (_ & _ & Hf) & _). split; [unfold num; by rewrite E|by apply rep_dval].
Qed.

Lemma evidence_facts e : new_evidence e = Ok e -> evidence_numbers e.
Proof.
  intros H. unfold new_evidence in H. apply raise_if_ok in H as [Hc H].
  apply rbind_ok in H as (? & _ & H). apply rbind_ok in H as (? & _ & H). apply rbind_ok in H as (? & _ & H).
  apply rbind_ok in H as (t & Ht & H). apply rbind_ok in H as (d & Hd & H). apply rbind_ok in H as (c & Hcost & H).
  apply rbind_ok in H as (h & Hh & H). apply rbind_ok in H as (hd & Hhd & H). apply rbind_ok in H as (s & Hs & _).
  constructor.
  - exact (normal_read _ _ _ _ _ Ht).
  - exact (normal_read _ _ _ _ _ Hh).
  - exact (normal_read _ _ _ _ _ Hcost).
  - destruct (normal_read _ _ _ _ _ Hd) as (d1 & H1 & H2 & _), (normal_read _ _ _ _ _ Hhd) as (d2 & H3 & H4 & _). by exists d1, d2.
  - apply orb_false_iff in Hc as [_ Hlen]. apply negb_false_iff, Nat.eqb_eq in Hlen. rewrite <- Hlen. unfold segment_numbers. clear - Hs.
    apply rmap_ok in Hs. induction Hs as [|v w l l' Hv _ (ds & IH1 & IH2 & IH3)]; [by exists []|].
    destruct (normal_read _ _ _ _ _ Hv) as (d0 & H1 & H2 & _). exists (d0 :: ds). cbn [rmap map length]. rewrite H1, IH1, H2, IH2, IH3. done.
Qed.

Definition beats_no_trade (e : symbol_evidence) : Prop := (0 < num (total_return e))%Q.
Definition beats_buy_hold (e : symbol_evidence) : Prop := (num (buy_hold_return e) < num (total_return e))%Q.
Definition drawdown_within (e : symbol_evidence) : Prop :=
  (num (maximum_drawdown e) <= 1 # 4)%Q /\ (num (maximum_drawdown e) <= num (buy_hold_maximum_drawdown e))%Q.
(** At least two of the three segments gain, and none loses more than a tenth. *)
Definition segments_stable (e : symbol_evidence) : Prop :=
  (2 <= length (List.filter (fun q => negb (Qle_bool q 0)) (map num (segment_returns e))))%nat
  /\ forall q, q ∈ map num (segment_returns e) -> (- (1 # 10) <= q)%Q.
Definition software_verified (e : symbol_evidence) : Prop := replay_equal e = true /\ point_in_time_verified e = true /\ future_isolation_verified e = true.

Lemma no_gain_spec e : evidence_numbers e -> exists b, no_gain e = Ok b /\ (b = false <-> beats_no_trade e).
Proof.
  intros [(d & E & V & _) _ _ _ _]. unfold no_gain, beats_no_trade. rewrite E, V. cbn [rbind]. eexists. split; [reflexivity|].
  by rewrite dleb_false, dval_0.
Qed.

Lemma below_hold_spec e : evidence_numbers e -> exists b, below_hold e = Ok b /\ (b = false <-> beats_buy_hold e).
Proof.
  intros [(d & E & V & _) (h & Eh & Vh & _) _ _ _]. unfold below_hold, beats_buy_hold. rewrite E, V, Eh, Vh. cbn [rbind]. eexists.
  split; [reflexivity|]. by rewrite dleb_false.
Qed.

Lemma max_drawdown_value : (dval MAX_DRAWDOWN == 1 # 4)%Q.
Proof. reflexivity. Qed.

Lemma drawdown_spec e : evidence_numbers e -> exists b, drawdown_failed e = Ok b /\ (b = false <-> drawdown_within e).
Proof.
  intros [_ _ _ (d & h & Ed & Eh & Vd & Vh) _]. unfold drawdown_failed, drawdown_within. rewrite Ed, Eh, Vd, Vh. cbn [rbind]. eexists.
  split; [reflexivity|]. rewrite dltb_false. pose proof (dmin_spec MAX_DRAWDOWN h) as [H1 H2]. rewrite <- max_drawdown_value. split.
  - intros H. split; eapply Qle_trans; [exact H|exact H1|exact H|exact H2].
  - intros [H3 H4]. unfold dmin. by destruct (dltb h MAX_DRAWDOWN).
Qed.

Lemma gains_count l : length (List.filter (fun d => dltb dec0 d) l) = length (List.filter (fun q => negb (Qle_bool q 0)) (map dval l)).
Proof.
  induction l as [|d l IH]; [done|]. cbn [map List.filter].
  assert (dltb dec0 d = negb (Qle_bool (dval d) 0)) as ->; [|destruct (negb _); cbn [length]; by rewrite IH].
  destruct (dltb dec0 d) eqn:E; symmetry.
  - apply dltb_spec in E. rewrite dval_0 in E. apply negb_true_iff, not_true_iff_false. rewrite Qle_bool_iff. lra.
  - apply dltb_false in E. rewrite dval_0 in E. apply negb_false_iff. by apply Qle_bool_iff.
Qed.

Lemma max_loss_value : (dval (dminus default_prec MAX_SEGMENT_LOSS) == - (1 # 10))%Q.
Proof. reflexivity. Qed.

Lemma segments_spec e : evidence_numbers e -> exists b, segments_failed e = Ok b /\ (b = false <-> segments_stable e).
Proof.
  intros [_ _ _ _ (l & El & Vl & Hlen)]. unfold segments_failed, segments_stable. rewrite El, Vl. cbn [rbind]. rewrite gains_count.
  destruct (Nat.ltb_spec (length (List.filter (fun q => negb (Qle_bool q 0)) (map dval l))) 2) as [Hlt|Hge].
  - exists true. split; [done|]. split; [done|]. intros [H _]. lia.
  - destruct (dmin_list_spec l) as (low & Emin & Hin & Hall); [by destruct l|]. rewrite Emin. cbn [rbind]. eexists. split; [reflexivity|].
    rewrite dltb_false, max_loss_value. split.
    + intros H. split; [done|]. intros q Hq. apply list_elem_of_fmap in Hq as (d & -> & Hd). rewrite Forall_forall in Hall.
      eapply Qle_trans; [exact H|]. by apply Hall.
    + intros [_ H]. apply H. by apply list_elem_of_fmap_2.
Qed.

(** ** The assessment *)

Definition each (P : symbol_evidence -> Prop) (l : list symbol_evidence) : Prop := forall e, e ∈ l -> P e.

Lemma rany_spec f (P : symbol_evidence -> Prop) l : (forall e, e ∈ l -> exists b, f e = Ok b /\ (b = false <-> P e)) ->
  exists b, rany f l = Ok b /\ (b = false <-> each P l).
Proof.
  induction l as [|e l IH]; intros H.
  - exists false. split; [done|]. split; [|done]. intros _ e He. by apply elem_of_nil in He.
  - destruct (H e) as (b & Eb & Hb); [apply list_elem_of_here|]. destruct IH as (bs & Ebs & Hbs); [intros x Hx; by apply H, list_elem_of_further|].
    cbn [rany]. rewrite Eb. cbn [rbind]. destruct b.
    + exists true. split; [done|]. split; [done|]. intros Hall. apply Hb, Hall, list_elem_of_here.
    + exists bs. split; [done|]. rewrite Hbs. split.
      * intros Hall x Hx. apply elem_of_cons in Hx as [->|Hx]; [by apply Hb|by apply Hall].
      * intros Hall x Hx. by apply Hall, list_elem_of_further.
Qed.

Lemma existsb_none f (P : symbol_evidence -> Prop) l : (forall e, f e = false <-> P e) -> existsb f l = false <-> each P l.
Proof.
  intros H. rewrite <- not_true_iff_false, existsb_exists. split.
  - intros Hn e He. apply H, not_true_iff_false. intros Hf. apply Hn. exists e. by rewrite <- list_elem_of_In.
  - intros Hall (e & He & Hf). apply list_elem_of_In in He. apply Hall, H in He. congruence.
Qed.

Lemma half_exact v d two : rep 42 40 v -> (dval d == v)%Q -> (dval two == 2)%Q -> exists m, ddiv DECIMAL_PRECISION d two = Ok m /\ (dval m == v / 2)%Q.
Proof.
  intros Hr Hd H2. destruct (ddiv_total DECIMAL_PRECISION d two) as (m & E); [rewrite H2; discriminate|]. exists m. split; [done|].
  assert (rep 42 41 (dval d / dval two)) as Hq.
  { assert (dval d / dval two == v * inject_Z 5 / q10 1)%Q as ->.
    { rewrite Hd, H2. change (q10 1) with (10 # 1)%Q. change (inject_Z 5) with (5 # 1)%Q. field. }
    apply (rep_div10 1 43 40); [done|]. apply (rep_mult 42 40 1 0); [done|]. apply rep_Z; lia. }
  rewrite (ddiv_val (p:=DECIMAL_PRECISION) (i:=42) (f:=41) ltac:(done) ltac:(done) m E Hq), Hd, H2. reflexivity.
Qed.

Lemma sum_two a b : rep 40 40 (dval a) -> rep 40 40 (dval b) ->
  (dval (dsum DECIMAL_PRECISION dec0 [a; b]) == dval a + dval b)%Q /\ rep 42 40 (dval a + dval b).
Proof.
  intros Ha Hb. assert (rep 41 40 (dval a + dval b)) as Hr by exact (rep_plus 40 40 40 40 _ _ Ha Hb).
  split; [|eapply rep_weaken; [exact Hr|lia|lia]]. unfold dsum. cbn [fold_left].
  assert (dval (dadd DECIMAL_PRECISION dec0 a) == dval a)%Q as E.
  { rewrite (dadd_val (i:=40) (f:=40)); [rewrite dval_0; ring|done|done|]. rewrite dval_0, Qplus_0_l. exact Ha. }
  rewrite (dadd_val (i:=41) (f:=40)); [by rewrite E|done|done|]. rewrite E. exact Hr.
Qed.

Definition mean_of (value : symbol_evidence -> Q) (l : list symbol_evidence) : Q := (fold_right (fun e s => value e + s) 0 l / 2)%Q.

(** The pooled statistics of two runs are exact. *)
Lemma pooled_pair f (value : symbol_evidence -> string) a b :
  (exists d, f a = Ok d /\ num (value a) = dval d /\ rep 40 40 (dval d)) -> (exists d, f b = Ok d /\ num (value b) = dval d /\ rep 40 40 (dval d)) ->
  exists ds m, rmap f [a; b] = Ok ds /\ mean (dsum DECIMAL_PRECISION dec0 ds) [a; b] = Ok m
    /\ (dval m == mean_of (fun e => num (value e)) [a; b])%Q /\ (dval (dsum DECIMAL_PRECISION dec0 ds) == num (value a) + num (value b))%Q.
Proof.
  intros (x & Ex & Vx & Rx) (y & Ey & Vy & Ry). destruct (sum_two x y Rx Ry) as [Hs Hr].
  destruct (half_exact _ _ (dec_of_Z (Z.of_nat (length [a; b]))) Hr Hs) as (m & Em & Hm); [reflexivity|].
  exists [x; y], m. cbn [rmap]. rewrite Ex, Ey. split; [done|]. split; [exact Em|]. rewrite Vx, Vy. split; [|exact Hs].
  rewrite Hm. unfold mean_of. cbn [fold_right]. rewrite Vx, Vy. field.
Qed.

Definition too_short (p : evaluation_plan) : Prop := evaluation_days p < MIN_EVALUATION_DAYS.
Definition total_of (l : list symbol_evidence) : Z := fold_right (fun e s => se_trade_count e + s) 0 l.
Definition too_few (l : list symbol_evidence) : Prop := total_of l < MIN_TOTAL_TRADES \/ ~ each (fun e => MIN_TRADES_PER_SYMBOL <= se_trade_count e) l.

(** What the protocol means: the label and its reasons, over the rationals. *)
Record assessed (p : evaluation_plan) (runs : list symbol_evidence) (a : assessment) : Prop := {
  ad_runs : as_runs a ≡ₚ runs /\ map se_symbol (as_runs a) = SYMBOLS;
  ad_pooled : as_total_trades a = total_of runs /\ (dval (as_mean_return a) == mean_of (fun e => num (total_return e)) (as_runs a))%Q
    /\ (dval (as_mean_buy_hold a) == mean_of (fun e => num (buy_hold_return e)) (as_runs a))%Q
    /\ (dval (as_total_cost a) == 2 * mean_of (fun e => num (total_cost_quote e)) (as_runs a))%Q;
  ad_insufficient : as_label a = INSUFFICIENT_EVIDENCE <-> too_short p \/ too_few runs;
  ad_insufficient_reasons : as_label a = INSUFFICIENT_EVIDENCE -> forall r, r ∈ as_reasons a <->
    (r = EVALUATION_WINDOW_TOO_SHORT /\ too_short p) \/ (r = MINIMUM_TRADES_NOT_MET /\ too_few runs);
  ad_qualified : as_label a = QUALIFIED_FOR_P4_RESEARCH <-> ~ too_short p /\ ~ too_few runs /\ each software_verified runs
    /\ each beats_no_trade runs /\ each beats_buy_hold runs /\ each drawdown_within runs /\ each segments_stable runs;
  ad_qualified_reasons : as_label a = QUALIFIED_FOR_P4_RESEARCH -> as_reasons a = [ALL_GATES_PASSED];
  ad_rejected_reasons : as_label a = EV_REJECTED -> forall r, r ∈ as_reasons a <->
    (r = SOFTWARE_EVIDENCE_FAILED /\ ~ each software_verified runs) \/ (r = NO_TRADE_BASELINE_NOT_BEATEN /\ ~ each beats_no_trade runs)
    \/ (r = BUY_HOLD_NOT_BEATEN /\ ~ each beats_buy_hold runs) \/ (r = DRAWDOWN_GATE_FAILED /\ ~ each drawdown_within runs)
    \/ (r = SEGMENT_STABILITY_FAILED /\ ~ each segments_stable runs);
}.

(** The runs a plan can assess: constructed evidence of every symbol, for this plan. *)
Record assessable (p : evaluation_plan) (runs : list symbol_evidence) : Prop := {
  al_plan : plan_post_init p = Ok tt;
  al_constructed : Forall (fun e => new_evidence e = Ok e) runs;
  al_symbols : map se_symbol runs ≡ₚ SYMBOLS;
  al_match : Forall (fun e => matches_plan p e = true) runs;
}.

Lemma in_when b r (x : evidence_reason) (P : Prop) : (b = false <-> P) -> x ∈ when b r <-> x = r /\ ~ P.
Proof.
  intros H. unfold when. destruct b; [rewrite list_elem_of_singleton|rewrite elem_of_nil].
  - split; [|tauto]. intros ->. split; [done|]. intros HP. by apply H in HP.
  - split; [done|]. intros [_ HP]. by apply HP, H.
Qed.

(** ** Order of the runs *)

#[global] Instance each_perm P : Proper ((≡ₚ) ==> iff) (each P).
Proof. intros l l' H. unfold each. by setoid_rewrite H. Qed.

#[global] Instance total_of_perm : Proper ((≡ₚ) ==> eq) total_of.
Proof. intros l l' H. unfold total_of. induction H; cbn [fold_right]; lia. Qed.

Lemma total_of_sum l : fold_left Z.add (map se_trade_count l) 0 = total_of l.
Proof.
  assert (forall z, fold_left Z.add (map se_trade_count l) z = z + total_of l) as H; [|by rewrite H]. unfold total_of.
  induction l as [|e l IH]; intros z; cbn [map fold_left fold_right]; [lia|]. rewrite IH. lia.
Qed.

Lemma by_symbol_perm l : by_symbol l ≡ₚ l.
Proof. apply isort_perm. Qed.

Lemma sorted_symbols : isort String.leb SYMBOLS = SYMBOLS.
Proof. vm_compute. reflexivity. Qed.

Lemma by_symbol_symbols l : map se_symbol (by_symbol l) = isort String.leb (map se_symbol l).
Proof. symmetry. apply isort_map. reflexivity. Qed.

Lemma isort_str_leb l l' : l ≡ₚ l' -> isort String.leb l = isort String.leb l'.
Proof.
  intros H. apply isort_canonical; [|exact str_le_trans|intros x y _ _; apply (anti_symm str_le)|done].
  intros x y. apply String.leb_total.
Qed.

Lemma by_symbol_pair p runs : assessable p runs -> exists b e, by_symbol runs = [b; e] /\ map se_symbol [b; e] = SYMBOLS.
Proof.
  intros [_ _ Hs _]. pose proof (by_symbol_symbols runs) as E. rewrite (isort_str_leb _ _ Hs), sorted_symbols in E.
  destruct (by_symbol runs) as [|b [|e [|x l]]]; try discriminate E. by exists b, e.
Qed.

Lemma sorted_pair b e : map se_symbol [b; e] = SYMBOLS -> by_symbol [b; e] = [b; e].
Proof. intros H. cbn [map] in H. injection H as Hb He. unfold by_symbol, isort. cbn [fold_right insert_sorted]. by rewrite Hb, He. Qed.

(** ** The outcome *)

(** The checks on the identity of the evidence leave its ordered runs. *)
Lemma assessable_ordered p runs : assessable p runs ->
  length runs = length SYMBOLS /\ rmap new_evidence runs = Ok runs /\ map se_symbol (by_symbol runs) = isort String.leb SYMBOLS
  /\ existsb (fun e => negb (matches_plan p e)) (by_symbol runs) = false /\ each evidence_numbers (by_symbol runs).
Proof.
  intros [_ Hc Hs Hm]. split; [by rewrite <- Hs, length_map|]. split; [by apply rmap_fixed|]. split; [by rewrite by_symbol_symbols; apply isort_str_leb|].
  split.
  - apply not_true_iff_false. rewrite existsb_exists. intros (e & He & Hf). apply list_elem_of_In in He. rewrite by_symbol_perm in He.
    rewrite Forall_forall in Hm. by rewrite (Hm e He) in Hf.
  - apply (each_perm _ _ _ (by_symbol_perm runs)). intros e He. apply evidence_facts. rewrite Forall_forall in Hc. by apply Hc.
Qed.

Lemma assessment_again p runs : assessable p runs -> _assessment p (by_symbol runs) = _assessment p runs.
Proof.
  intros Ha. destruct (by_symbol_pair _ _ Ha) as (b & e & E & Es). destruct (assessable_ordered _ _ Ha) as (Hl & Hr & _).
  pose proof (al_constructed _ _ Ha) as Hc. unfold _assessment. rewrite Hl, Hr. rewrite <- (by_symbol_perm runs) in Hc.
  rewrite (rmap_fixed _ _ Hc), (Permutation_length (by_symbol_perm runs)), Hl. rewrite E, (al_plan _ _ Ha). cbn [rbind].
  rewrite E, (sorted_pair b e Es). reflexivity.
Qed.

(** Both runs of the reasons: what is in the list, and when it is empty. *)
Lemma when_nil b r : when b r = [] <-> b = false.
Proof. by destruct b. Qed.

Lemma insufficient_spec p l b : b = existsb (fun e => se_trade_count e <? MIN_TRADES_PER_SYMBOL) l ->
  ((evaluation_days p <? MIN_EVALUATION_DAYS) = false <-> ~ too_short p) /\
  ((total_of l <? MIN_TOTAL_TRADES) || b = false <-> ~ too_few l).
Proof.
  intros ->. unfold too_short, too_few. split; [rewrite Z.ltb_ge; lia|].
  rewrite orb_false_iff, Z.ltb_ge, (existsb_none _ (fun e => MIN_TRADES_PER_SYMBOL <= se_trade_count e)) by (intros; apply Z.ltb_ge).
  split; [intros [H1 H2] [H|H]; [lia|by apply H]|]. intros H. split; [lia|]. intros e He. apply dec_stable. intros Hn. apply H. right. intros Hall. by apply Hn, Hall.
Qed.

#[global] Instance each_min_dec (l : list symbol_evidence) : Decision (each (fun e => MIN_TRADES_PER_SYMBOL <= se_trade_count e) l).
Proof.
  destruct (decide (Forall (fun e => MIN_TRADES_PER_SYMBOL <= se_trade_count e) l)) as [H|H]; rewrite Forall_forall in H; by constructor.
Qed.
#[global] Instance too_few_dec l : Decision (too_few l).
Proof. unfold too_few. apply _. Qed.
#[global] Instance too_short_dec p : Decision (too_short p).
Proof. unfold too_short. apply _. Qed.

Lemma too_few_perm l l' : l ≡ₚ l' -> too_few l <-> too_few l'.
Proof.
  intros H. unfold too_few. by rewrite H.
Qed.

Lemma software_spec e : negb (replay_equal e && point_in_time_verified e && future_isolation_verified e) = false <-> software_verified e.
Proof. unfold software_verified. rewrite negb_false_iff, !andb_true_iff. tauto. Qed.

(** Nine reasons in two lists: which label they give and what it says of the
    conditions behind them. *)
Section Decided.
Context (s f g0 g1 g2 g3 g4 : bool) (S F P0 P1 P2 P3 P4 : Prop).
Context (Hs : s = false <-> ~ S) (Hf : f = false <-> ~ F) (H0 : g0 = false <-> P0) (H1 : g1 = false <-> P1) (H2 : g2 = false <-> P2)
  (H3 : g3 = false <-> P3) (H4 : g4 = false <-> P4) (DS : Decision S) (DF : Decision F).
Let ins := when s EVALUATION_WINDOW_TOO_SHORT ++ when f MINIMUM_TRADES_NOT_MET.
Let rej := when g0 SOFTWARE_EVIDENCE_FAILED ++ when g1 NO_TRADE_BASELINE_NOT_BEATEN ++ when g2 BUY_HOLD_NOT_BEATEN ++ when g3 DRAWDOWN_GATE_FAILED
  ++ when g4 SEGMENT_STABILITY_FAILED.

Lemma decided : exists label reasons,
  (forall outcome : evidence_label -> list evidence_reason -> assessment,
     match ins with
     | _ :: _ => Ok (outcome INSUFFICIENT_EVIDENCE ins)
     | [] => match rej with _ :: _ => Ok (outcome EV_REJECTED rej) | [] => Ok (outcome QUALIFIED_FOR_P4_RESEARCH [ALL_GATES_PASSED]) end
     end = Ok (outcome label reasons))
  /\ (label = INSUFFICIENT_EVIDENCE <-> S \/ F)
  /\ (label = INSUFFICIENT_EVIDENCE -> forall r, r ∈ reasons <-> (r = EVALUATION_WINDOW_TOO_SHORT /\ S) \/ (r = MINIMUM_TRADES_NOT_MET /\ F))
  /\ (label = QUALIFIED_FOR_P4_RESEARCH <-> ~ S /\ ~ F /\ P0 /\ P1 /\ P2 /\ P3 /\ P4)
  /\ (label = QUALIFIED_FOR_P4_RESEARCH -> reasons = [ALL_GATES_PASSED])
  /\ (label = EV_REJECTED -> forall r, r ∈ reasons <-> (r = SOFTWARE_EVIDENCE_FAILED /\ ~ P0) \/ (r = NO_TRADE_BASELINE_NOT_BEATEN /\ ~ P1)
      \/ (r = BUY_HOLD_NOT_BEATEN /\ ~ P2) \/ (r = DRAWDOWN_GATE_FAILED /\ ~ P3) \/ (r = SEGMENT_STABILITY_FAILED /\ ~ P4)).
Proof using All.
  assert (forall r, r ∈ ins <-> (r = EVALUATION_WINDOW_TOO_SHORT /\ S) \/ (r = MINIMUM_TRADES_NOT_MET /\ F)) as Hins.
  { intros r. unfold ins. rewrite elem_of_app, (in_when _ _ _ _ Hs), (in_when _ _ _ _ Hf). destruct (decide S), (decide F); tauto. }
  assert (forall r, r ∈ rej <-> (r = SOFTWARE_EVIDENCE_FAILED /\ ~ P0) \/ (r = NO_TRADE_BASELINE_NOT_BEATEN /\ ~ P1)
      \/ (r = BUY_HOLD_NOT_BEATEN /\ ~ P2) \/ (r = DRAWDOWN_GATE_FAILED /\ ~ P3) \/ (r = SEGMENT_STABILITY_FAILED /\ ~ P4)) as Hrej.
  { intros r. unfold rej. rewrite !elem_of_app, (in_when _ _ _ _ H0), (in_when _ _ _ _ H1), (in_when _ _ _ _ H2), (in_when _ _ _ _ H3),
      (in_when _ _ _ _ H4). tauto. }
  assert (ins = [] <-> ~ (S \/ F)) as Ein by (unfold ins; rewrite app_nil, !when_nil; tauto).
  assert (rej = [] <-> P0 /\ P1 /\ P2 /\ P3 /\ P4) as Erej by (unfold rej; rewrite !app_nil, !when_nil; tauto).
  clearbody ins rej. destruct ins as [|i il].
  - assert (~ (S \/ F)) as Hno by by apply Ein. destruct rej as [|x xl].
    + do 2 eexists. split; [intros outcome; reflexivity|]. assert (P0 /\ P1 /\ P2 /\ P3 /\ P4) as Hall by by apply Erej.
      repeat split; try done; tauto.
    + assert (~ (P0 /\ P1 /\ P2 /\ P3 /\ P4)) as Hno2 by (intros Hall; apply Erej in Hall; discriminate Hall).
      do 2 eexists. split; [intros outcome; reflexivity|]. split; [split; [done|tauto]|]. split; [done|]. split; [split; [done|tauto]|].
      split; [done|]. intros _. exact Hrej.
  - assert (S \/ F) as Hyes by (destruct (decide S); [by left|]; destruct (decide F); [by right|]; exfalso; assert (i :: il = []) by (apply Ein; tauto); done).
    do 2 eexists. split; [intros outcome; reflexivity|]. split; [done|]. split; [by intros _|]. split; [split; [done|tauto]|]. by split.
Qed.
End Decided.

(** The outcome of an assessable list of runs. *)
Theorem assessment_outcome p runs : assessable p runs -> exists a, _assessment p runs = Ok a /\ as_runs a = by_symbol runs /\ assessed p runs a.
Proof.
  intros Ha. destruct (assessable_ordered _ _ Ha) as (Hl & Hr & Hs & Hm & Hn). destruct (by_symbol_pair _ _ Ha) as (b & e & E & Es).
  pose proof (by_symbol_perm runs) as Hp. unfold _assessment. rewrite (al_plan _ _ Ha), Hl, Hr. cbn [rbind]. rewrite Nat.eqb_refl. cbn [negb].
  rewrite bool_decide_true by exact Hs. cbn [negb]. rewrite Hm, total_of_sum.
  pose proof (Hn b ltac:(rewrite E; in_list)) as Nb. pose proof (Hn e ltac:(rewrite E; in_list)) as Ne.
  destruct (pooled_pair _ _ b e (en_return _ Nb) (en_return _ Ne)) as (rs & mr & E1 & E2 & V1 & _).
  destruct (pooled_pair _ _ b e (en_hold _ Nb) (en_hold _ Ne)) as (hs & mh & E3 & E4 & V2 & _).
  destruct (pooled_pair _ _ b e (en_cost _ Nb) (en_cost _ Ne)) as (cs & mc & E5 & _ & _ & V3).
  destruct (rany_spec no_gain beats_no_trade (by_symbol runs)) as (g1 & G1 & S1); [intros x Hx; apply no_gain_spec, Hn, Hx|].
  destruct (rany_spec below_hold beats_buy_hold (by_symbol runs)) as (g2 & G2 & S2); [intros x Hx; apply below_hold_spec, Hn, Hx|].
  destruct (rany_spec drawdown_failed drawdown_within (by_symbol runs)) as (g3 & G3 & S3); [intros x Hx; apply drawdown_spec, Hn, Hx|].
  destruct (rany_spec segments_failed segments_stable (by_symbol runs)) as (g4 & G4 & S4); [intros x Hx; apply segments_spec, Hn, Hx|].
  pose proof (existsb_none (fun e => negb (replay_equal e && point_in_time_verified e && future_isolation_verified e)) software_verified
    (by_symbol runs) software_spec) as S0.
  destruct (insufficient_spec p (by_symbol runs) _ eq_refl) as [I1 I2].
  rewrite (each_perm _ _ _ Hp) in S0. rewrite (each_perm _ _ _ Hp) in S1. rewrite (each_perm _ _ _ Hp) in S2.
  rewrite (each_perm _ _ _ Hp) in S3. rewrite (each_perm _ _ _ Hp) in S4. rewrite (too_few_perm _ _ Hp) in I2.
  destruct (decided _ _ _ _ _ _ _ _ _ _ _ _ _ _ I1 I2 S0 S1 S2 S3 S4 _ _) as (label & reasons & Hout & Q1 & Q2 & Q3 & Q4 & Q5).
  rewrite E in *. rewrite E1. cbn [rbind]. rewrite E2. cbn [rbind]. rewrite E3. cbn [rbind]. rewrite E4. cbn [rbind]. rewrite E5. cbn [rbind].
  rewrite G1, G2, G3, G4. cbn [rbind]. cbv zeta.
  specialize (Hout (fun l r => Assessment [b; e] l r (total_of [b; e]) mr mh (dsum DECIMAL_PRECISION dec0 cs))). cbv beta in Hout.
  eexists. split; [exact Hout|]. split; [reflexivity|]. constructor; cbn [as_runs as_label as_reasons as_total_trades as_mean_return as_mean_buy_hold as_total_cost]; try done.
  - split; [by rewrite Hp|]. split; [exact V1|]. split; [exact V2|]. rewrite V3. unfold mean_of. cbn [fold_right]. field.
Qed.

(** The same outcome, number by number, is accepted by the report's own check. *)
Lemma assessment_eqb_refl a : assessment_eqb a a = true.
Proof.
  unfold assessment_eqb. rewrite !bool_decide_true by done. rewrite Z.eqb_refl, !andb_true_r. cbn [andb].
  assert (forall d, deqb d d = true) as H by (intros d; by apply deqb_spec). by rewrite !H.
Qed.

Definition runs_match (p : evaluation_plan) (runs : list symbol_evidence) : Prop :=
  map se_symbol runs ≡ₚ SYMBOLS /\ Forall (fun e => matches_plan p e = true) runs.

(** C32. The evidence protocol is exact.  For a plan and runs as their constructors
    made them, the assessment succeeds exactly when there is one run per
    configured symbol, in any order, all for this plan, and otherwise raises
    EvaluationError.  It then labels the candidate by the numbers its texts
    denote: insufficient when the window or the trade counts are too small,
    qualified exactly when in every run the software checks hold, the return is
    positive and above buy-and-hold, the drawdown within both limits, and two of
    three segments gain with none losing over a tenth, rejected otherwise; the
    reasons name exactly the conditions that failed, and the pooled means and
    cost are exact. *)
Theorem evidence_gates_exact p runs : plan_post_init p = Ok tt -> Forall (fun e => exists e0, new_evidence e0 = Ok e) runs ->
  (runs_match p runs -> exists a, assess_evidence p runs = Ok (EvaluationReport p a) /\ assessed p runs a)
  /\ (~ runs_match p runs -> exists m, assess_evidence p runs = Err (Raise EvaluationError m)).
Proof.
  intros Hp Hc. assert (Forall (fun e => new_evidence e = Ok e) runs) as Hn.
  { eapply Forall_impl; [exact Hc|]. intros e [e0 He]. by eapply evidence_normal. }
  split.
  - intros [Hs Hm]. assert (assessable p runs) as Ha by by constructor. destruct (assessment_outcome _ _ Ha) as (a & E & Er & Ho). exists a. split; [|done].
    unfold assess_evidence. rewrite E. cbn [rbind]. unfold evaluation_report_post_init. cbn [er_plan er_values].
    rewrite Er, (assessment_again _ _ Ha), E. cbn [rbind]. by rewrite assessment_eqb_refl.
  - intros Hno. unfold assess_evidence, _assessment. destruct (length runs =? length SYMBOLS)%nat; [|by eexists]. cbn [negb].
    rewrite Hp, (rmap_fixed _ _ Hn). cbn [rbind]. case_bool_decide as Es; cbn [negb]; [|by eexists].
    destruct (existsb (fun e => negb (matches_plan p e)) (by_symbol runs)) eqn:Em; [by eexists|]. exfalso. apply Hno. split.
    + rewrite <- (by_symbol_perm runs), Es. apply isort_perm.
    + rewrite <- (by_symbol_perm runs). rewrite Forall_forall. intros e He. apply not_false_iff_true. intros Hf.
      apply not_true_iff_false in Em. apply Em. rewrite existsb_exists. exists e. rewrite <- list_elem_of_In. by rewrite Hf.
Qed.

Lemma trend_configured : TREND_CONFIGURATION = Ok (StrategyConfiguration TREND_DEFINITION trend_values).
Proof. vm_compute. reflexivity. Qed.

Lemma trend_locked : exists h, LOCKED_CONFIGURATIONS TREND_IDENTITY = Some h /\ sha256_pattern h = true.
Proof.
  unfold LOCKED_CONFIGURATIONS. rewrite bool_decide_true by reflexivity. unfold config_sha256. rewrite trend_configured. cbn [rbind].
  rewrite configuration_sha256_ok.
  - eexists. split; [reflexivity|apply sha256_hex_pattern].
  - apply (new_configuration_typed (StrategyConfiguration TREND_DEFINITION trend_values)); [|vm_compute; reflexivity].
    destruct trend_registry_ok as [_ Hall]. by apply (Forall_inv Hall).
Qed.

(** The plan of half a year for the trend candidate. *)
Definition trend_plan (h : string) : evaluation_plan :=
  EvaluationPlan TREND_IDENTITY h 86400000 172800000 172800000 15724800000 SYMBOLS 3 PROTOCOL_VERSION.

Lemma trend_plan_valid h : LOCKED_CONFIGURATIONS TREND_IDENTITY = Some h -> sha256_pattern h = true -> plan_post_init (trend_plan h) = Ok tt.
Proof.
  intros Hl Hh. unfold plan_post_init. cbn [trend_plan ep_identity]. rewrite Hl. unfold _sha256. cbn [trend_plan ep_configuration_sha256].
  rewrite Hh. cbn [negb rbind]. rewrite String.eqb_refl. reflexivity.
Qed.

Definition half_year (p : evaluation_plan) (sym total drawdown : string) : symbol_evidence :=
  SymbolEvidence sym (plan_sha256 p) (ep_configuration_sha256 p) (evaluation_start_ms p) (evaluation_end_ms p) (plan_sha256 p) 30 total drawdown "12.5"
    "0.05" "0.3" ["0.02"; "-0.01"; "0.11"] true true true.

Lemma half_year_constructed h sym total drawdown : sha256_pattern h = true -> str_in sym SYMBOLS = true ->
  normal_number total "total_return" false false = Ok total -> normal_number drawdown "maximum_drawdown" false true = Ok drawdown ->
  new_evidence (half_year (trend_plan h) sym total drawdown) = Ok (half_year (trend_plan h) sym total drawdown).
Proof.
  intros Hh Hs Ht Hd. unfold new_evidence, half_year.
  cbn [se_symbol se_plan_sha256 se_configuration_sha256 se_evaluation_start_ms se_evaluation_end_ms dataset_sha256 se_trade_count
    total_return maximum_drawdown total_cost_quote buy_hold_return buy_hold_maximum_drawdown segment_returns replay_equal point_in_time_verified
    future_isolation_verified]. rewrite Hs. unfold _sha256, plan_sha256. rewrite digest_pattern. cbn [trend_plan ep_configuration_sha256].
  rewrite Hh, Ht, Hd. reflexivity.
Qed.

Lemma evidence_gates_exact_witness : exists h a,
  assess_evidence (trend_plan h) [half_year (trend_plan h) "ETHUSDT" "0.1" "0.2"; half_year (trend_plan h) "BTCUSDT" "0.06" "0.31"]
    = Ok (EvaluationReport (trend_plan h) a) /\ (as_label a = EV_REJECTED -> DRAWDOWN_GATE_FAILED ∈ as_reasons a).
Proof.
  destruct trend_locked as (h & Hl & Hh). exists h.
  destruct (evidence_gates_exact (trend_plan h) [half_year (trend_plan h) "ETHUSDT" "0.1" "0.2"; half_year (trend_plan h) "BTCUSDT" "0.06" "0.31"]) as [H _].
  - exact (trend_plan_valid h Hl Hh).
  - repeat constructor; eexists; apply half_year_constructed; try exact Hh; reflexivity.
  - destruct H as (a & E & Ha).
    + split; [apply Permutation_swap|]. repeat constructor; unfold matches_plan, half_year; cbn [se_plan_sha256 se_configuration_sha256
        se_evaluation_start_ms se_evaluation_end_ms]; by rewrite !String.eqb_refl, !Z.eqb_refl.
    + exists a. split; [exact E|]. intros Hr. apply (ad_rejected_reasons _ _ _ Ha Hr). right. right. right. left. split; [reflexivity|].
      intros Hall. destruct (Hall (half_year (trend_plan h) "BTCUSDT" "0.06" "0.31") ltac:(in_list)) as [Hq _]. revert Hq. cbn [half_year maximum_drawdown].
      unfold Qle. vm_compute. intros Hq. by apply Hq.
Defined.

(** ** The input digest *)

Lemma candle_leb_total a b : candle_leb a b = true \/ candle_leb b a = true.
Proof.
  unfold candle_leb. rewrite (String.eqb_sym (interval b)). destruct (String.eqb (interval a) (interval b)); [rewrite !Z.leb_le; lia|apply String.leb_total].
Qed.

Lemma candle_leb_spec a b : candle_leb a b = true <->
  (interval a = interval b /\ open_time_ms a <= open_time_ms b) \/ (interval a <> interval b /\ str_le (interval a) (interval b)).
Proof.
  unfold candle_leb. destruct (String.eqb_spec (interval a) (interval b)) as [E|E].
  - rewrite Z.leb_le. tauto.
  - unfold str_le. tauto.
Qed.

Lemma candle_leb_trans a b c : candle_leb a b = true -> candle_leb b c = true -> candle_leb a c = true.
Proof.
  rewrite !candle_leb_spec. intros [[E1 H1]|[N1 H1]] [[E2 H2]|[N2 H2]].
  - left. split; [congruence|lia].
  - right. by rewrite E1.
  - right. by rewrite <- E2.
  - right. split; [|by etransitivity]. intros E. apply N1. apply (anti_symm str_le); [done|]. by rewrite E.
Qed.

Lemma candle_leb_tie a b : candle_leb a b = true -> candle_leb b a = true -> candle_key a = candle_key b.
Proof.
  rewrite !candle_leb_spec. unfold candle_key. intros [[E1 H1]|[N1 H1]] [[E2 H2]|[N2 H2]]; try congruence.
  - f_equal; [done|lia].
  - exfalso. apply N1. by apply (anti_symm str_le).
Qed.

Lemma sorted_candles l l' : NoDup (map candle_key l) -> l ≡ₚ l' -> isort candle_leb l = isort candle_leb l'.
Proof.
  intros Hn. apply isort_canonical; [exact candle_leb_total|exact candle_leb_trans|].
  intros x y Hx Hy H1 H2. apply (key_unique candle_key l); [done..|]. by apply candle_leb_tie.
Qed.

Lemma input_digest_inv candles sym cutoff h : evaluation_input_sha256 candles sym cutoff = Ok h ->
  h = digest (JArr (map candle_record (isort candle_leb (visible_before candles cutoff))))
  /\ NoDup (map candle_key (visible_before candles cutoff))
  /\ forall c, c ∈ visible_before candles cutoff <->
       c ∈ candles /\ close_time_ms c < cutoff /\ is_closed c = true /\ source c = DATA_SOURCE /\ symbol c = sym.
Proof.
  unfold evaluation_input_sha256. intros H. apply raise_if_ok in H as [Hc H]. apply raise_if_ok in H as [Hv H]. apply Ok_inj in H. split; [done|].
  apply orb_false_iff in Hv as [Hv Hn]. apply orb_false_iff in Hv as [_ Hv]. apply negb_false_iff, bool_decide_eq_true in Hn. split; [done|].
  apply orb_false_iff in Hc as [_ Hc]. apply not_true_iff_false in Hv, Hc. rewrite existsb_exists in Hv, Hc.
  intros c. unfold visible_before at 1. rewrite list_elem_of_In, filter_In, <- list_elem_of_In, Z.ltb_lt. split; [|tauto].
  intros [Hin Ht]. split; [done|]. split; [done|]. split.
  - apply not_false_iff_true. intros E. apply Hv. exists c. rewrite E. split; [|done]. unfold visible_before.
    rewrite filter_In, <- list_elem_of_In, Z.ltb_lt. done.
  - destruct (String.eqb_spec (source c) DATA_SOURCE) as [E1|E1]; [destruct (String.eqb_spec (symbol c) sym) as [E2|E2]; [done|]|];
      exfalso; apply Hc; exists c; (split; [by apply list_elem_of_In|]).
    + by rewrite (proj2 (String.eqb_neq _ _) E2), orb_true_r.
    + by rewrite (proj2 (String.eqb_neq _ _) E1).
Qed.

(** The text hashed for an evaluation input. *)
Definition evaluation_text (candles : list candle) (cutoff : Z) : text := json_dumps (JArr (map candle_record (isort candle_leb (visible_before candles cutoff)))).

(** The digest of the evaluation input is a function of the data visible
    before the cutoff and identifies it.  Two accepted inputs have one digest when
    they hold the same visible candles, in whatever order and whatever they hold
    from the cutoff on; of any other pair of inputs with the same digest the two texts
    collide.  What is hashed is closed, of the one source and symbol, and has
    one candle per interval and opening time. *)
Theorem input_digest_identifies candles sym cutoff h candles' sym' cutoff' h' :
  evaluation_input_sha256 candles sym cutoff = Ok h -> evaluation_input_sha256 candles' sym' cutoff' = Ok h' ->
  (visible_before candles cutoff ≡ₚ visible_before candles' cutoff' -> h = h')
  /\ (h = h' -> visible_before candles cutoff ≡ₚ visible_before candles' cutoff'
        \/ collision [evaluation_text candles cutoff; evaluation_text candles' cutoff'])
  /\ NoDup (map candle_key (visible_before candles cutoff))
  /\ forall c, c ∈ visible_before candles cutoff <-> c ∈ candles /\ close_time_ms c < cutoff /\ is_closed c = true /\ source c = DATA_SOURCE /\ symbol c = sym.
Proof.
  intros H H'. apply input_digest_inv in H as (-> & Hn & Hv). apply input_digest_inv in H' as (-> & _ & _). split; [|split; [|by split]].
  - intros Hp. by rewrite (sorted_candles _ _ Hn Hp).
  - intros Eh. destruct (digest_binds [evaluation_text candles cutoff; evaluation_text candles' cutoff'] (JArr (map candle_record (isort candle_leb (visible_before candles cutoff))))
      (JArr (map candle_record (isort candle_leb (visible_before candles' cutoff')))) ltac:(apply list_elem_of_here) ltac:(apply list_elem_of_further, list_elem_of_here) Eh)
      as [E|]; [left|by right]. apply (JArr_map_inj _ _ _ candle_record_inj) in E.
    by rewrite <- (isort_perm candle_leb (visible_before candles cutoff)), E, isort_perm.
Qed.

Definition hour_candle (n : Z) (price : string) : candle :=
  Candle DATA_SOURCE "BTCUSDT" "1h" (n * 3600000) ((n + 1) * 3600000 - 1) price price price price "1" "1" 1 true.

Lemma input_digest_identifies_witness :
  exists h, evaluation_input_sha256 [hour_candle 2 "7"; hour_candle 1 "5"; hour_candle 9 "8"] "BTCUSDT" 10800000 = Ok h
    /\ evaluation_input_sha256 [hour_candle 1 "5"; hour_candle 2 "7"; hour_candle 8 "1"] "BTCUSDT" 10800000 = Ok h.
Proof.
  pose proof (input_digest_identifies [hour_candle 2 "7"; hour_candle 1 "5"; hour_candle 9 "8"] "BTCUSDT" 10800000
    (digest (JArr (map candle_record [hour_candle 1 "5"; hour_candle 2 "7"])))
    [hour_candle 1 "5"; hour_candle 2 "7"; hour_candle 8 "1"] "BTCUSDT" 10800000
    (digest (JArr (map candle_record [hour_candle 1 "5"; hour_candle 2 "7"]))) ltac:(reflexivity) ltac:(reflexivity)) as (_ & _ & _ & H).
  eexists. split; reflexivity.
Defined.
