(* ===== verification/Artifacts.v ===== *)
(** * Run manifests (yatl/backtest/artifacts.py)

    The canonical manifest of a finished paper run: configuration, data
    identity, completed trades reconciled with the metrics, the equity curve and
    the metrics as texts, with the digests that bind them.  Every string in a
    manifest is ASCII, so [ensure_ascii] makes no difference to its JSON. *)
From S2P Require Import Prelude PyDecimal PyText Digest Market BacktestConfig MarketView Fills Costs Ledger StrategyContracts ExactDec Metrics.

Definition ARTIFACT_KIND : string := "YATL_SPOT_PAPER_BACKTEST".
Definition ENGINE_VERSION : string := "P2.2".
Definition MAX_ARTIFACT_BYTES : Z := 2 * 1024 * 1024.

Definition _spec (s : backtest_spec) : json := JObj [
  ("symbol", JStr (bs_symbol s)); ("start_time_ms", JInt (start_time_ms s)); ("end_time_ms", JInt (end_time_ms s));
  ("initial_cash", JStr (initial_cash s)); ("fee_bps", JStr (fee_bps s)); ("slippage_bps", JStr (slippage_bps s)); ("seed", JInt (seed s));
  ("paper_only", JBool (paper_only s)); ("live_master_lock", JStr (live_master_lock s)); ("spot_only", JBool (spot_only s));
  ("allow_short", JBool (allow_short s)); ("allow_leverage", JBool (allow_leverage s));
  ("execution_price_policy", JStr (execution_price_policy s))]%string.

(** One interval of the dataset: its checks and its record. *)
Definition interval_inconsistent (spec : backtest_spec) (name : string) (candles : list candle) : bool :=
  let opens := map open_time_ms candles in
  bool_decide (candles = [])
  || existsb (fun c => negb (String.eqb (symbol c) (bs_symbol spec)) || negb (String.eqb (interval c) name) || negb (is_closed c)) candles
  || negb (bool_decide (opens = isort Z.leb opens)) || negb (bool_decide (NoDup opens)).

Definition interval_record (spec : backtest_spec) (name : string) (candles : list candle) : result (string * json) :=
  raise_if interval_inconsistent spec name candles with ArtifactError "Accepted dataset identity is inconsistent" ;;
  match candles, last candles with
  | first :: _, Some final =>
      Ok (name, JObj [("rows", JInt (Z.of_nat (length candles))); ("first_open_time_ms", JInt (open_time_ms first));
                      ("last_open_time_ms", JInt (open_time_ms final)); ("sha256", JStr (digest (JArr (map candle_record candles))))]%string)
  | _, _ => Err (Raise IndexError "tuple index out of range")
  end.

Definition _data (ds : accepted_dataset) : result json :=
  raise_if manifest_generated_at_ms ds <=? 0 with ArtifactError "Accepted dataset timestamp is invalid" ;;
  let* intervals := rmap (fun nc => interval_record (ds_spec ds) (fst nc) (snd nc))
                      [("1h", ds_primary ds); ("15m", ds_context ds); ("4h", ds_regime ds)]%string in
  Ok (JObj [("source", JStr "BINANCE_SPOT_PUBLIC_CLOSED_OHLCV"); ("symbol", JStr (bs_symbol (ds_spec ds)));
            ("manifest_generated_at_ms", JInt (manifest_generated_at_ms ds)); ("intervals", JObj intervals)]%string).

Definition _fill_input (f : costed_fill) : json :=
  let r := cf_reference f in JObj [
  ("action", JStr (intent_action_value (fr_action r))); ("decision_time_ms", JInt (fr_decision_time_ms r)); ("fill_time_ms", JInt (fill_time_ms r));
  ("quantity", JStr (fr_quantity r)); ("reference_price", JStr (reference_price r)); ("reason", JStr (fill_reason_value (fr_reason r)))]%string.

(** ** Completed trades *)

Record trade : Type := Trade {
  entry_time_ms : Z;
  exit_time_ms : Z;
  tr_quantity : string;
  entry_reference_price : string;
  entry_execution_price : string;
  exit_reference_price : string;
  exit_execution_price : string;
  exit_reason : string;
  tr_gross_pnl_quote : string;
  tr_net_pnl_quote : string;
  tr_fee_quote : string;
  tr_slippage_quote : string;
}.

Definition trade_record (t : trade) : json := JObj [
  ("entry_time_ms", JInt (entry_time_ms t)); ("exit_time_ms", JInt (exit_time_ms t)); ("quantity", JStr (tr_quantity t));
  ("entry_reference_price", JStr (entry_reference_price t)); ("entry_execution_price", JStr (entry_execution_price t));
  ("exit_reference_price", JStr (exit_reference_price t)); ("exit_execution_price", JStr (exit_execution_price t));
  ("exit_reason", JStr (exit_reason t)); ("gross_pnl_quote", JStr (tr_gross_pnl_quote t)); ("net_pnl_quote", JStr (tr_net_pnl_quote t));
  ("fee_quote", JStr (tr_fee_quote t)); ("slippage_quote", JStr (tr_slippage_quote t))]%string.

(** The trade an exit completes. *)
Definition completed (entry fill : costed_fill) : result trade :=
  let re := cf_reference entry in
  let rx := cf_reference fill in
  let* exit_price := Decimal (reference_price rx) in
  let* entry_price := Decimal (reference_price re) in
  let* q := Decimal (fr_quantity re) in
  let gross_pnl := dmul MP (dsub MP exit_price entry_price) q in
  let net_pnl := dadd MP (cash_delta (cf_values entry)) (cash_delta (cf_values fill)) in
  Ok (Trade (fill_time_ms re) (fill_time_ms rx) (fr_quantity re) (reference_price re) (format_f (execution_price (cf_values entry)))
        (reference_price rx) (format_f (execution_price (cf_values fill))) (fill_reason_value (fr_reason rx)) (format_f gross_pnl) (format_f net_pnl)
        (format_f (dadd MP (fee_quote (cf_values entry)) (fee_quote (cf_values fill))))
        (format_f (dadd MP (slippage_quote (cf_values entry)) (slippage_quote (cf_values fill))))).

(** The loop over the fills, with the open entry. *)
Fixpoint trades_loop (symbol : string) (entry : option costed_fill) (fills : list costed_fill) : result (option costed_fill * list trade) :=
  match fills with
  | [] => Ok (entry, [])
  | f :: rest =>
      raise_if negb (String.eqb (fr_symbol (cf_reference f)) symbol) with ArtifactError "Artifact fill symbol is inconsistent" ;;
      if is_entry (cf_reference f) then
        raise_if negb (opt_is_none entry) with ArtifactError "Artifact contains overlapping entries" ;;
        trades_loop symbol (Some f) rest
      else
        match entry with
        | None => Err (Raise ArtifactError "Artifact trade lifecycle is inconsistent")
        | Some e =>
            raise_if negb (String.eqb (fr_quantity (cf_reference e)) (fr_quantity (cf_reference f)))
                     || (fill_time_ms (cf_reference f) <? fill_time_ms (cf_reference e))
              with ArtifactError "Artifact trade lifecycle is inconsistent" ;;
            let* t := completed e f in
            let* more := trades_loop symbol None rest in
            Ok (fst more, t :: snd more)
        end
  end.

(** [sum((Decimal(item[key]) for item in trades), Decimal(0))] *)
Definition trade_sum (key : trade -> string) (trades : list trade) : result dec :=
  let* l := rmap (fun t => Decimal (key t)) trades in Ok (dsum MP dec0 l).

Definition point_symbol (r : performance_report) : string :=
  match pr_points r with p :: _ => ps_symbol (portfolio p) | [] => "" end.

Definition _trades (fills : list costed_fill) (r : performance_report) : result (list trade) :=
  let* out := trades_loop (point_symbol r) None fills in
  let trades := snd out in
  raise_if negb (opt_is_none (fst out)) || negb (Z.of_nat (length trades) =? mv_trade_count (pr_values r))
    with ArtifactError "Artifact must contain only completed reported trades" ;;
  let* gross_pnl := trade_sum tr_gross_pnl_quote trades in
  let* net_pnl := trade_sum tr_net_pnl_quote trades in
  let* fees := trade_sum tr_fee_quote trades in
  let* slippage := trade_sum tr_slippage_quote trades in
  raise_if negb (deqb gross_pnl (gross_pnl_quote (pr_values r))) || negb (deqb net_pnl (net_pnl_quote (pr_values r)))
           || negb (deqb fees (mv_total_fee_quote (pr_values r))) || negb (deqb slippage (mv_total_slippage_quote (pr_values r)))
    with ArtifactError "Artifact trades do not reconcile with performance metrics" ;;
  Ok trades.

(** ** The manifest *)

Definition JOptDec (o : option dec) : json := match o with Some d => JStr (format_f d) | None => JNull end.

Definition _metrics (v : metric_values) : json := JObj [
  ("initial_equity_quote", JStr (format_f (initial_equity_quote v))); ("final_equity_quote", JStr (format_f (final_equity_quote v)));
  ("total_return", JStr (format_f (mv_total_return v))); ("trade_count", JInt (mv_trade_count v)); ("winning_trades", JInt (winning_trades v));
  ("losing_trades", JInt (losing_trades v)); ("breakeven_trades", JInt (breakeven_trades v)); ("win_rate", JOptDec (win_rate v));
  ("gross_pnl_quote", JStr (format_f (gross_pnl_quote v))); ("net_pnl_quote", JStr (format_f (net_pnl_quote v)));
  ("total_fee_quote", JStr (format_f (mv_total_fee_quote v))); ("total_slippage_quote", JStr (format_f (mv_total_slippage_quote v)));
  ("total_cost_quote", JStr (format_f (mv_total_cost_quote v))); ("maximum_drawdown_quote", JStr (format_f (maximum_drawdown_quote v)));
  ("maximum_drawdown", JStr (format_f (mv_maximum_drawdown v))); ("mean_period_return", JOptDec (mean_period_return v));
  ("sample_period_volatility", JOptDec (sample_period_volatility v)); ("downside_deviation", JOptDec (downside_deviation v));
  ("mean_over_volatility", JOptDec (mean_over_volatility v)); ("mean_over_downside", JOptDec (mean_over_downside v))]%string.

(** [min(equities)] and [max(equities)] of a non-empty curve. *)
Definition extreme (better : dec -> dec -> dec) (l : list dec) : dec :=
  match l with d :: rest => fold_left better rest d | [] => dec0 end.

Definition in_range (spec : backtest_spec) (t : Z) : bool := (start_time_ms spec <=? t) && (t <? end_time_ms spec).

(** [build_run_manifest]; the manifest is the list of its entries, the result digest last. *)
Definition build_run_manifest (ds : accepted_dataset) (fills : list costed_fill) (r : performance_report) : result (list (string * json)) :=
  match pr_points r, last (pr_points r) with
  | first :: _, Some final =>
      raise_if negb (String.eqb (bs_symbol (ds_spec ds)) (ps_symbol (portfolio first))) with ArtifactError "Artifact inputs are inconsistent" ;;
      raise_if (ep_time_ms first <? start_time_ms (ds_spec ds)) || (end_time_ms (ds_spec ds) <=? ep_time_ms final)
               || existsb (fun f => negb (in_range (ds_spec ds) (fill_time_ms (cf_reference f)))) fills
        with ArtifactError "Artifact lifecycle is outside the configured range" ;;
      let config := _spec (ds_spec ds) in
      let* data := _data ds in
      let* trades := _trades fills r in
      let input_material := JObj [("configuration", config); ("data", data); ("fill_inputs", JArr (map _fill_input fills))]%string in
      let equities := map (fun p => equity_quote (portfolio p)) (pr_points r) in
      let manifest := [
        ("schema_version", JInt 2); ("artifact_kind", JStr ARTIFACT_KIND); ("engine_version", JStr ENGINE_VERSION);
        ("input_sha256", JStr (digest input_material)); ("configuration", config); ("data", data); ("trades", JArr (map trade_record trades));
        ("equity_curve", JObj [
           ("points", JInt (Z.of_nat (length (pr_points r)))); ("start_time_ms", JInt (ep_time_ms first)); ("end_time_ms", JInt (ep_time_ms final));
           ("initial_equity_quote", JStr (format_f (initial_equity_quote (pr_values r))));
           ("final_equity_quote", JStr (format_f (final_equity_quote (pr_values r))));
           ("minimum_equity_quote", JStr (format_f (extreme dmin equities))); ("maximum_equity_quote", JStr (format_f (extreme dmax equities)))]);
        ("metrics", _metrics (pr_values r))]%string in
      Ok (manifest ++ [("result_sha256"%string, JStr (digest (JObj manifest)))])
  | _, _ => Err (Raise IndexError "tuple index out of range")
  end.

(** [str.lower] on ASCII text, and [item in text]. *)
Definition lower_chr (c : ascii) : ascii := if ((65 <=? ord c) && (ord c <=? 90))%N then chr (ord c + 32) else c.
Fixpoint starts_with (needle text : text) : bool :=
  match needle, text with
  | [], _ => true
  | c :: needle, d :: text => Ascii.eqb c d && starts_with needle text
  | _ :: _, [] => false
  end.
Fixpoint occurs_in (needle text : text) : bool :=
  starts_with needle text || match text with [] => false | _ :: text => occurs_in needle text end.

Definition quoted (s : string) : text := quote :: txt s ++ [quote].
Definition forbidden : list text :=
  map quoted ["api_key"; "api_secret"; "password"; "credential"; "database_path"; "manifest_path"]%string
  ++ [backslash :: backslash :: txt "users" ++ [backslash; backslash]; txt "/users/"].

(** [artifact_json] of a manifest [build_run_manifest] made, whose identity holds by construction. *)
Definition artifact_json (manifest : list (string * json)) : result text :=
  let encoded := json_dumps (JObj manifest) ++ [chr 10] in
  raise_if existsb (fun item => occurs_in item (map lower_chr encoded)) forbidden with ArtifactError "Run manifest contains forbidden sensitive material" ;;
  raise_if MAX_ARTIFACT_BYTES <? Z.of_nat (length encoded) with ArtifactError "Run manifest is too large" ;;
  Ok encoded.
