(* ===== verification/Runs.v ===== *)
(** * Candidate runs (yatl/strategy/runs.py)

    One offline run of a candidate over a sealed dataset: the clock, the
    candidate, the signal adapter, the cost model and the ledger in one loop, the
    equity curve it samples, the baselines, and the checks the matrix makes on
    every run before it assesses the evidence. *)
From S2P Require Import Prelude PyDecimal PyText Digest Market BacktestConfig MarketView Fills Costs Ledger StrategyContracts Features Regime Trend Breakout Registry SignalAdapter ExactDec Evaluate Metrics Artifacts.

Definition TRAINING_START_MS : Z := 1786406400000.
Definition EVALUATION_START_MS : Z := 1787184000000.
Definition EVALUATION_END_MS : Z := 1788912000000.

(** [_plain]: at most forty decimal places, half-even. *)
Definition _plain (d : dec) : result string :=
  let* d := if dexp d <? -40 then dquantize DECIMAL_PRECISION (-40) d else Ok d in
  if deqb d dec0 then Ok "0"%string else Ok (plain_text d).

Definition _exact_difference (left right : dec) : dec := dsub DECIMAL_PRECISION left right.

Definition evaluator : Type := strategy_context -> bool -> option long_setup -> result strategy_decision.

(** The configuration digests are those of the registered configurations, whose construction is a [result]. *)
Record candidate : Type := Candidate { cd_identity : strategy_identity; cd_sha256 : option string; cd_evaluator : evaluator }.

Definition CANDIDATES : list candidate := [
  Candidate TREND_IDENTITY (config_sha256 TREND_CONFIGURATION) evaluate_trend_pullback;
  Candidate BREAKOUT_IDENTITY (config_sha256 BREAKOUT_CONFIGURATION) evaluate_breakout].

Definition _candidate (i : strategy_identity) : result candidate :=
  match List.find (fun item => bool_decide (cd_identity item = i)) CANDIDATES with
  | Some item => Ok item
  | None => Err (Raise CandidateRunError "Candidate identity is not pre-registered")
  end.

Definition evaluation_plan_of (i : strategy_identity) : result evaluation_plan :=
  let* c := _candidate i in
  match cd_sha256 c with
  | None => Err (Raise RegistryError "Registered configuration is invalid")
  | Some h =>
      let p := EvaluationPlan (cd_identity c) h TRAINING_START_MS EVALUATION_START_MS EVALUATION_START_MS EVALUATION_END_MS SYMBOLS (Z.of_nat SEGMENT_COUNT)
                 PROTOCOL_VERSION in
      do* plan_post_init p ;; Ok p
  end.

Definition _sealed (ds : accepted_dataset) : result accepted_dataset :=
  let visible := visible (end_time_ms (ds_spec ds)) in
  let r := AcceptedBacktestDataset (ds_spec ds) (manifest_generated_at_ms ds) (visible (ds_primary ds)) (visible (ds_context ds)) (visible (ds_regime ds)) in
  raise_if bool_decide (ds_primary r = []) || bool_decide (ds_context r = []) || bool_decide (ds_regime r = [])
    with CandidateRunError "Sealed candidate input is incomplete" ;;
  Ok r.

Definition _events (ds : accepted_dataset) : result (list decision_event) :=
  let* events := rcatch (clock_events ds) [BacktestClockError] (Raise CandidateRunError "Candidate event clock failed safely") in
  raise_if (length events <? 2)%nat with CandidateRunError "Candidate evaluation window is too short" ;;
  Ok events.

(** [{item.open_time_ms: item for item in primary}.get(t)]: the last one wins. *)
Definition by_open (primary : list candle) (t : Z) : option candle := List.find (fun c => open_time_ms c =? t) (rev primary).

(** ** The loop *)

Record decision_trace : Type := DecisionTrace {
  dt_sequence : Z;
  dt_time : Z;
  dt_action : strategy_action;
  dt_reason : decision_reason;
  dt_context_sha256 : string;
  dt_fills : list fill_reference;
}.

Record run_state : Type := RunState {
  rn_adapter : signal_adapter;
  rn_ledger : ledger;
  rn_fills : list costed_fill;
  rn_trace : list decision_trace;
  rn_points : list equity_point;
}.

(** A call on a mutable object that ends the run when it raises. *)
Definition ending {S A} (m : stm S A) (s : S) : result (S * A) :=
  let '(s', out) := m s in let* a := out in Ok (s', a).

Definition next_open (primary : list candle) (ev : decision_event) (missing : exn) : result candle :=
  match by_open primary (eligible_fill_open_time_ms ev) with
  | Some c => if is_closed c then Ok c else Err missing
  | None => Err missing
  end.

Definition sees_future (ev : decision_event) : bool :=
  let s := ev_snapshot ev in existsb (fun c => ev_decision_time_ms ev <=? close_time_ms c) (primary s ++ context s ++ regime s).

(** What a decision does with the adapter, before any cost. *)
Definition decide_step (i : strategy_identity) (f : evaluator) (primary : list candle) (ev : decision_event) (a : signal_adapter)
    : result (signal_adapter * (candle * (strategy_decision * signal_step))) :=
  let* c := next_open primary ev (Raise CandidateRunError "Candidate next-open candle is unavailable") in
  let ctx := new_context_default i (ev_snapshot ev) in
  do* context_post_init ctx ;;
  raise_if sees_future ev with CandidateRunError "Candidate snapshot contains future data" ;;
  let* d := f ctx (sg_has_position a) (sg_active_setup a) in
  let* step := ending (signal_process ev d c) a in
  Ok (fst step, (c, (d, snd step))).

(** The costed fills of a step, applied to the ledger. *)
Definition settle (spec : backtest_spec) (fills : list fill_reference) (l : ledger) : result (ledger * list costed_fill) :=
  let* costed := rmap (fun r => apply_costs r spec) fills in
  match costed with
  | [] => Ok (l, [])
  | _ => let* out := ending (apply_many spec costed) l in Ok (fst out, costed)
  end.

Definition sample (spec : backtest_spec) (l : ledger) (t : Z) (mark : string) : result equity_point :=
  let* s := snapshot spec l mark in new_point (EquityPoint t s).

Definition candidate_step (i : strategy_identity) (f : evaluator) (ds : accepted_dataset) (first : bool) (ev : decision_event) (s : run_state)
    : result run_state :=
  let* out := decide_step i f (ds_primary ds) ev (rn_adapter s) in
  let '(a, (c, (d, step))) := out in
  let* settled := settle (ds_spec ds) (st_fills step) (rn_ledger s) in
  let trace := DecisionTrace (ev_sequence ev) (ev_decision_time_ms ev) (sd_action d) (sd_reason d) (context_sha256 (sd_context d))
                 (map cf_reference (snd settled)) in
  let* points := if first then Ok [] else let* p := sample (ds_spec ds) (fst settled) (ev_decision_time_ms ev) (open c) in Ok [p] in
  Ok (RunState a (fst settled) (rn_fills s ++ snd settled) (rn_trace s ++ [trace]) (rn_points s ++ points)).

Fixpoint candidate_loop (i : strategy_identity) (f : evaluator) (ds : accepted_dataset) (first : bool) (events : list decision_event) (s : run_state)
    : result run_state :=
  match events with
  | [] => Ok s
  | ev :: rest => let* s := candidate_step i f ds first ev s in candidate_loop i f ds false rest s
  end.

(** ** The trace *)

Definition _fill_record (r : fill_reference) : json := JObj [
  ("action", JStr (intent_action_value (fr_action r))); ("decision_time_ms", JInt (fr_decision_time_ms r)); ("fill_time_ms", JInt (fill_time_ms r));
  ("quantity", JStr (fr_quantity r)); ("reference_price", JStr (reference_price r)); ("reason", JStr (fill_reason_value (fr_reason r)))]%string.

Definition trace_record (t : decision_trace) : json := JObj [
  ("sequence", JInt (dt_sequence t)); ("decision_time_ms", JInt (dt_time t)); ("action", JStr (action_value (dt_action t)));
  ("reason", JStr (reason_value (dt_reason t))); ("context_sha256", JStr (dt_context_sha256 t)); ("fills", JArr (map _fill_record (dt_fills t)))]%string.

Definition trace_json (i : strategy_identity) (symbol : string) (trace : list decision_trace) : text :=
  json_dumps (JObj [
    ("schema_version", JInt 1); ("artifact_kind", JStr "YATL_P3_DECISION_TRACE"); ("strategy_id", JStr (strategy_id i));
    ("strategy_version", JStr (version i)); ("symbol", JStr symbol); ("evaluation_start_ms", JInt EVALUATION_START_MS);
    ("evaluation_end_ms", JInt EVALUATION_END_MS); ("paper_only", JBool true); ("live_master_lock", JStr "OFF");
    ("decisions", JArr (map trace_record trace))]%string) ++ [chr 10].

(** ** One run *)

Record run_outcome : Type := RunOutcome {
  ro_report : performance_report;
  ro_artifact : text;
  ro_trace : text;
  ro_fills : list costed_fill;
}.

(** The run up to its end: the sealed data, the events and the final state of the loop. *)
Definition run_loop (ds : accepted_dataset) (i : strategy_identity) : result (accepted_dataset * run_state) :=
  let* sealed := _sealed ds in
  let* c := _candidate i in
  let* events := _events sealed in
  raise_if negb (bool_decide (NoDup (map open_time_ms (ds_primary sealed)))) with CandidateRunError "Candidate primary candles are duplicated" ;;
  let* a := new_signal_adapter i (bs_symbol (ds_spec sealed)) in
  let* l := new_ledger (ds_spec sealed) in
  match events with
  | [] => Err (Raise IndexError "tuple index out of range")
  | ev :: _ =>
      let* mark := latest_primary (ev_snapshot ev) in
      let* p := sample (ds_spec sealed) l (ev_decision_time_ms ev) (close mark) in
      let* s := candidate_loop i (cd_evaluator c) sealed true events (RunState a l [] [] [p]) in
      Ok (sealed, s)
  end.

Definition _candidate_execution (ds : accepted_dataset) (i : strategy_identity) : result run_outcome :=
  let* out := run_loop ds i in
  let '(sealed, s) := out in
  raise_if sg_has_position (rn_adapter s) || ledger_has_position (rn_ledger s)
    with CandidateRunError "Candidate ended with unresolved paper exposure" ;;
  let* report := calculate_metrics (rn_points s) in
  let* manifest := build_run_manifest sealed (rn_fills s) report in
  let* encoded := artifact_json manifest in
  Ok (RunOutcome report encoded (trace_json i (bs_symbol (ds_spec sealed)) (rn_trace s)) (rn_fills s)).

(** ** The baselines *)

Inductive baseline : Type := NO_TRADE_BASELINE | BUY_AND_HOLD.

Record baseline_state : Type := BaselineState { bl_ledger : ledger; bl_fills : list costed_fill; bl_points : list equity_point }.

(** The reference a baseline fills at an event. *)
Definition baseline_reference (b : baseline) (symbol : string) (first final : bool) (ev : decision_event) (c : candle) : option fill_reference :=
  match b with
  | NO_TRADE_BASELINE => None
  | BUY_AND_HOLD =>
      if first then Some (FillReference ENTER_LONG symbol (ev_decision_time_ms ev) (eligible_fill_open_time_ms ev) FIXED_RESEARCH_QUANTITY (open c)
                            NEXT_PRIMARY_OPEN)
      else if final then Some (FillReference EXIT_LONG symbol (ev_decision_time_ms ev) (eligible_fill_open_time_ms ev) FIXED_RESEARCH_QUANTITY
                                 (open c) SCRIPTED_EXIT)
      else None
  end.

Definition baseline_step (b : baseline) (ds : accepted_dataset) (first final : bool) (ev : decision_event) (s : baseline_state) : result baseline_state :=
  let* c := next_open (ds_primary ds) ev (Raise CandidateRunError "Baseline next-open candle is unavailable") in
  let* settled :=
    match baseline_reference b (bs_symbol (ds_spec ds)) first final ev c with
    | None => Ok (bl_ledger s, [])
    | Some r =>
        do* reference_post_init r ;;
        let* fill := apply_costs r (ds_spec ds) in
        let* out := ending (apply (ds_spec ds) fill) (bl_ledger s) in
        Ok (fst out, [fill])
    end in
  let* points := if first then Ok [] else let* p := sample (ds_spec ds) (fst settled) (ev_decision_time_ms ev) (open c) in Ok [p] in
  Ok (BaselineState (fst settled) (bl_fills s ++ snd settled) (bl_points s ++ points)).

Fixpoint baseline_loop (b : baseline) (ds : accepted_dataset) (first : bool) (events : list decision_event) (s : baseline_state)
    : result baseline_state :=
  match events with
  | [] => Ok s
  | ev :: rest => let* s := baseline_step b ds first (bool_decide (rest = [])) ev s in baseline_loop b ds false rest s
  end.

Definition _baseline_execution (ds : accepted_dataset) (b : baseline) : result (performance_report * text) :=
  let* sealed := _sealed ds in
  let* events := _events sealed in
  let* l := new_ledger (ds_spec sealed) in
  match events with
  | [] => Err (Raise IndexError "tuple index out of range")
  | ev :: _ =>
      let* mark := latest_primary (ev_snapshot ev) in
      let* p := sample (ds_spec sealed) l (ev_decision_time_ms ev) (close mark) in
      let* s := baseline_loop b sealed true events (BaselineState l [] [p]) in
      raise_if ledger_has_position (bl_ledger s) with CandidateRunError "Baseline ended with unresolved paper exposure" ;;
      let* report := calculate_metrics (bl_points s) in
      let* manifest := build_run_manifest sealed (bl_fills s) report in
      let* encoded := artifact_json manifest in
      Ok (report, encoded)
  end.

(** ** Segments and the future-isolation probe *)

Definition segment_return (points : list equity_point) (ends : nat * nat) : result string :=
  raise_if Nat.eqb (fst ends) (snd ends) with CandidateRunError "Evaluation segment has no observations" ;;
  match points !! fst ends, points !! snd ends with
  | Some p, Some q =>
      let* ratio := ddiv DECIMAL_PRECISION (equity_quote (portfolio q)) (equity_quote (portfolio p)) in
      _plain (dsub DECIMAL_PRECISION ratio dec1)
  | _, _ => Err (Raise IndexError "tuple index out of range")
  end.

Definition _segment_returns (r : performance_report) : result (list string) :=
  let transitions := (length (pr_points r) - 1)%nat in
  let a := (transitions / 3)%nat in
  let b := (2 * transitions / 3)%nat in
  rmap (segment_return (pr_points r)) [(0%nat, a); (a, b); (b, transitions)].

(** [replace(item, trade_count=item.trade_count + 1)] on the first candle from the
    cutoff on, over the three sequences in turn; the flag is the [nonlocal] one. *)
Definition counted_once_more (c : candle) : candle :=
  Candle (source c) (symbol c) (interval c) (open_time_ms c) (close_time_ms c) (open c) (high c) (low c) (close c) (base_volume c) (quote_volume c)
    (trade_count c + 1) (is_closed c).

Fixpoint mutate (changed : bool) (l : list candle) : result (bool * list candle) :=
  match l with
  | [] => Ok (changed, [])
  | c :: rest =>
      let hit := negb changed && (EVALUATION_END_MS <=? open_time_ms c) in
      let* c := if hit then new_candle (counted_once_more c) else Ok c in
      let* out := mutate (changed || hit) rest in
      Ok (fst out, c :: snd out)
  end.

Definition _future_mutation (ds : accepted_dataset) : result accepted_dataset :=
  let* p := mutate false (ds_primary ds) in
  let* c := mutate (fst p) (ds_context ds) in
  let* r := mutate (fst c) (ds_regime ds) in
  raise_if negb (fst r) with CandidateRunError "Accepted dataset lacks future-isolation material" ;;
  Ok (AcceptedBacktestDataset (ds_spec ds) (manifest_generated_at_ms ds) (snd p) (snd c) (snd r)).

(** ** Dataclass equality of a run's outcome *)

Definition snapshot_eqb (s t : portfolio_snapshot) : bool :=
  String.eqb (ps_symbol s) (ps_symbol t) && deqb (ps_cash s) (ps_cash t) && deqb (ps_asset_quantity s) (ps_asset_quantity t)
  && deqb (ps_cost_basis_quote s) (ps_cost_basis_quote t) && deqb (liquidation_value_quote s) (liquidation_value_quote t)
  && deqb (ps_realized_pnl_quote s) (ps_realized_pnl_quote t) && deqb (unrealized_pnl_quote s) (unrealized_pnl_quote t)
  && deqb (equity_quote s) (equity_quote t) && deqb (ps_total_fee_quote s) (ps_total_fee_quote t)
  && deqb (ps_total_slippage_quote s) (ps_total_slippage_quote t) && (ps_closed_trades s =? ps_closed_trades t).
Definition point_eqb (p q : equity_point) : bool := (ep_time_ms p =? ep_time_ms q) && snapshot_eqb (portfolio p) (portfolio q).

Fixpoint list_eqb {A} (eqb : A -> A -> bool) (l l' : list A) : bool :=
  match l, l' with
  | [], [] => true
  | x :: l, y :: l' => eqb x y && list_eqb eqb l l'
  | _, _ => false
  end.

Definition outcome_eqb (r s : run_outcome) : bool :=
  list_eqb point_eqb (pr_points (ro_report r)) (pr_points (ro_report s)) && metrics_eqb (pr_values (ro_report r)) (pr_values (ro_report s))
  && bool_decide (ro_artifact r = ro_artifact s) && bool_decide (ro_trace r = ro_trace s) && list_eqb costed_eqb (ro_fills r) (ro_fills s).

(** ** One symbol of the matrix *)

Definition zero_cost (s : backtest_spec) : backtest_spec :=
  BacktestSpec (bs_symbol s) (start_time_ms s) (end_time_ms s) (initial_cash s) "0" "0" (seed s) (paper_only s) (live_master_lock s) (spot_only s)
    (allow_short s) (allow_leverage s) (execution_price_policy s).

Definition with_spec (s : backtest_spec) (ds : accepted_dataset) : accepted_dataset :=
  AcceptedBacktestDataset s (manifest_generated_at_ms ds) (ds_primary ds) (ds_context ds) (ds_regime ds).

Record symbol_result : Type := CandidateSymbolResult {
  sr_identity : strategy_identity;
  sr_configuration_sha256 : string;
  sr_symbol : string;
  sr_dataset_sha256 : string;
  sr_run : run_outcome;
  sr_zero : run_outcome;
  sr_no_trade : performance_report * text;
  sr_buy_hold : performance_report * text;
  cost_drag_quote : dec;
}.

(** The comparisons between the costed run and the run without costs; the result is the cost drag. *)
Definition compare_runs (run zero : run_outcome) : result dec :=
  let values := pr_values (ro_report run) in
  raise_if negb (bool_decide (ro_trace run = ro_trace zero))
           || negb (bool_decide (map cf_reference (ro_fills run) = map cf_reference (ro_fills zero)))
    with CandidateRunError "Costs changed candidate decisions or references" ;;
  let drag := _exact_difference (net_pnl_quote (pr_values (ro_report zero))) (net_pnl_quote values) in
  raise_if negb (mv_trade_count values =? 0) && dleb drag dec0 with CandidateRunError "Candidate trading costs did not reduce paper results" ;;
  raise_if (mv_trade_count values =? 0) && negb (deqb drag dec0) with CandidateRunError "No-trade candidate produced nonzero cost drag" ;;
  raise_if negb (deqb drag (mv_total_cost_quote values)) with CandidateRunError "Candidate cost drag differs from reported fill costs" ;;
  Ok drag.

Definition symbol_result_post_init (r : symbol_result) : result unit :=
  raise_if negb (str_in (sr_symbol r) SYMBOLS) with CandidateRunError "Candidate symbol result is invalid" ;;
  let* c := _candidate (sr_identity r) in
  raise_if negb (bool_decide (Some (sr_configuration_sha256 r) = cd_sha256 c))
           || negb (sha256_pattern (sr_dataset_sha256 r)) || dltb (cost_drag_quote r) dec0
    with CandidateRunError "Candidate symbol result is invalid" ;;
  Ok tt.

Definition evidence_of (p : evaluation_plan) (r : symbol_result) : result symbol_evidence :=
  let v := pr_values (ro_report (sr_run r)) in
  let hold := pr_values (fst (sr_buy_hold r)) in
  let* total := _plain (mv_total_return v) in
  let* drawdown := _plain (mv_maximum_drawdown v) in
  let* cost := _plain (mv_total_cost_quote v) in
  let* hold_return := _plain (mv_total_return hold) in
  let* hold_drawdown := _plain (mv_maximum_drawdown hold) in
  let* segments := _segment_returns (ro_report (sr_run r)) in
  new_evidence (SymbolEvidence (sr_symbol r) (plan_sha256 p) (sr_configuration_sha256 r) EVALUATION_START_MS EVALUATION_END_MS (sr_dataset_sha256 r)
    (mv_trade_count v) total drawdown cost hold_return hold_drawdown segments true true true).

(** What the matrix records once its comparisons are made. *)
Definition symbol_record (p : evaluation_plan) (i : strategy_identity) (symbol : string) (ds : accepted_dataset) (run zero : run_outcome)
    (no_trade buy_hold : performance_report * text) (drag : dec) : result (symbol_result * symbol_evidence) :=
  let* sealed := _sealed ds in
  let* data_sha := evaluation_input_sha256 (ds_primary sealed ++ ds_context sealed ++ ds_regime sealed) symbol EVALUATION_END_MS in
  let r := CandidateSymbolResult i (ep_configuration_sha256 p) symbol data_sha run zero no_trade buy_hold drag in
  do* symbol_result_post_init r ;;
  let* e := evidence_of p r in
  Ok (r, e).

(** The body of the matrix for one candidate and one symbol. *)
Definition symbol_run (p : evaluation_plan) (i : strategy_identity) (symbol : string) (ds : accepted_dataset)
    (no_trade buy_hold : performance_report * text) : result (symbol_result * symbol_evidence) :=
  let* run := _candidate_execution ds i in
  let* repeated := _candidate_execution ds i in
  raise_if negb (outcome_eqb run repeated) with CandidateRunError "Candidate replay is not byte-identical" ;;
  do* spec_post_init (zero_cost (ds_spec ds)) ;;
  let* zero := _candidate_execution (with_spec (zero_cost (ds_spec ds)) ds) i in
  let* drag := compare_runs run zero in
  let* changed := _future_mutation ds in
  let* future := _candidate_execution changed i in
  raise_if negb (outcome_eqb run future) with CandidateRunError "Future data changed sealed candidate evidence" ;;
  symbol_record p i symbol ds run zero no_trade buy_hold drag.

(** * Properties *)

(** ** The references of a step *)

Lemma ending_ok {S A} (m : stm S A) s s' a : ending m s = Ok (s', a) <-> m s = (s', Ok a).
Proof. unfold ending. destruct (m s) as [s1 [b|e]]; cbn [rbind]; naive_solver. Qed.

Lemma built_reference sym act ev q price reason r : _reference sym act ev q price reason = Ok r -> reference_valid r.
Proof. unfold _reference, new_reference. intros H. res_inv. subst. by destruct a. Qed.

Lemma protective_reference sym ev bar st st' o : _protective_exit sym ev bar st = (st', Ok o) -> Forall reference_valid (opt_list o).
Proof.
  unfold _protective_exit, sbind, sget, slift, sput, sret. destruct st as [p|]; [|intros [= _ <-]; constructor].
  destruct (protective_level p bar) as [[[price reason]|]|e]; [|intros [= _ <-]; constructor|done].
  destruct (_reference _ _ _ _ _ _) as [r|e] eqn:E; [|done]. intros [= _ <-]. constructor; [by apply built_reference in E|constructor].
Qed.

(** Whatever the fill engine returns was built by the constructor. *)
Lemma process_references sym ev i bar st st' fills : process sym ev i bar st = (st', Ok fills) -> Forall reference_valid fills.
Proof.
  unfold process. destruct (_ || _); [done|]. intros H. apply srollback_ok in H. unfold process_body in H.
  apply sbind_ok in H as (s1 & l & Hl & H). apply sbind_ok in H as (s2 & over & Ho & H). destruct over; [done|]. injection H as _ <-.
  destruct (pi_action i).
  - apply sbind_ok in Hl as (s3 & o & Hp & Hl). injection Hl as _ <-. by apply protective_reference in Hp.
  - unfold enter_steps in Hl. stm_inv. subst. destruct (pi_quantity i) as [q|], (pi_stop_price i) as [s|], (pi_target_price i) as [t|]; try done.
    stm_inv. subst. constructor; [|by eapply protective_reference]. match goal with E : _reference _ _ _ _ _ _ = _ |- _ => by apply built_reference in E end.
  - unfold exit_steps, sbind, sget in Hl. destruct st as [p|]; [|done]. unfold slift, sput, sret in Hl.
    destruct (_reference _ _ _ _ _ _) as [r|e] eqn:E; [|done]. injection Hl as _ <-. constructor; [by apply built_reference in E|constructor].
Qed.

Lemma step_references ev d bar a b s : signal_process ev d bar a = (b, Ok s) ->
  Forall reference_valid (st_fills s) /\ (length (st_fills s) <= 2)%nat.
Proof.
  unfold signal_process. intros H. apply sbind_ok in H as (a1 & a2 & E & H). injection E as <- <-.
  apply sbind_ok in H as (a3 & [] & _ & H). apply sbind_ok in H as (a4 & i & _ & H). apply sbind_ok in H as (a5 & fills & Hf & H).
  apply sbind_ok in H as (a6 & [] & Hs & H). unfold slift in Hs. injection Hs as <- Hs.
  apply sbind_ok in H as (a7 & a8 & E & H). injection E as <- <-. apply sbind_ok in H as (a9 & [] & _ & H).
  destruct (negb _) in H; [done|]. apply sbind_ok in H as (a10 & [] & _ & H). injection H as _ <-. cbn [st_fills]. split.
  - unfold signal_engine in Hf. destruct (process _ _ _ _ _) as [e out] eqn:E. injection Hf as _ Hf. apply rcatch_ok in Hf. subst out.
    by apply process_references in E.
  - unfold signal_step_post_init in Hs. cbn [st_fills] in Hs. res_inv. apply orb_false_iff in Hc as [Hc _]. apply Nat.ltb_ge in Hc. exact Hc.
Qed.

(** ** Settling *)

(** A fill is the costing of a built reference. *)
Definition costing (spec : backtest_spec) (f : costed_fill) : Prop := reference_valid (cf_reference f) /\ apply_costs (cf_reference f) spec = Ok f.

Lemma costed_reference r spec f : apply_costs r spec = Ok f -> cf_reference f = r /\ costed_post_init f = Ok tt /\ fr_symbol r = bs_symbol spec.
Proof.
  unfold apply_costs, new_costed. intros H. res_inv. subst. apply negb_false_iff, String.eqb_eq in Hc. by destruct a2.
Qed.

Lemma costing_valid spec f : costing spec f -> costed_valid f.
Proof. intros [Hr Hc]. split; [done|]. by destruct (costed_reference _ _ _ Hc) as (_ & H & _). Qed.

Lemma costed_references fills spec costed : Forall reference_valid fills -> rmap (fun r => apply_costs r spec) fills = Ok costed ->
  map cf_reference costed = fills /\ Forall (costing spec) costed.
Proof.
  intros Hv H. apply rmap_ok in H. induction H as [|r f rs fs Hf _ IH]; [by split; [|constructor]|]. apply Forall_cons in Hv as [Hr Hv].
  destruct (IH Hv) as [<- Hc]. pose proof (costed_reference _ _ _ Hf) as (E & _). split; [cbn [map]; by rewrite E|]. constructor; [|done]. rewrite <- E in Hr, Hf. by split.
Qed.

Lemma settle_ok spec fills l l' costed : spec_valid spec -> Forall reference_valid fills -> settle spec fills l = Ok (l', costed) ->
  map cf_reference costed = fills /\ Forall (costing spec) costed /\ _applied l' = rev costed ++ _applied l /\ (reachable spec l -> reachable spec l').
Proof.
  intros Hs Hv H. unfold settle in H. apply rbind_ok in H as (c & Hc & H). destruct (costed_references fills spec c Hv Hc) as [Hm Hf].
  assert (costed = c /\ (c = [] /\ l' = l \/ apply_many spec c l = (l', Ok tt))) as [-> Hl].
  { destruct c as [|x c]; [injection H as <- <-; by split; [|left]|]. apply rbind_ok in H as ([l1 []] & H1 & H). injection H as <- <-.
    split; [done|]. right. by apply ending_ok. }
  split; [done|]. split; [done|]. destruct Hl as [[-> ->]|Hl]; [done|]. split.
  - apply apply_many_cases in Hl as [[_ Hl]|(e & He & _)]; [by apply apply_all_applied in Hl|done|done].
  - intros Hr. eapply reach_many; [exact Hr| |exact Hl]. eapply Forall_impl; [exact Hf|]. intros f. apply costing_valid.
Qed.

(** ** The loop *)

(** Everything one accepted step did. *)
Record stepped (i : strategy_identity) (f : evaluator) (ds : accepted_dataset) (first : bool) (ev : decision_event) (s t : run_state) : Prop := {
  sp_parts : exists c d step l costed points,
    decide_step i f (ds_primary ds) ev (rn_adapter s) = Ok (rn_adapter t, (c, (d, step)))
    /\ settle (ds_spec ds) (st_fills step) (rn_ledger s) = Ok (l, costed)
    /\ (if first then points = [] else exists p, sample (ds_spec ds) l (ev_decision_time_ms ev) (open c) = Ok p /\ points = [p])
    /\ rn_ledger t = l /\ rn_fills t = rn_fills s ++ costed /\ rn_points t = rn_points s ++ points
    /\ rn_trace t = rn_trace s ++ [DecisionTrace (ev_sequence ev) (ev_decision_time_ms ev) (sd_action d) (sd_reason d)
                                    (context_sha256 (sd_context d)) (map cf_reference costed)];
}.

Lemma step_parts i f ds first ev s t : candidate_step i f ds first ev s = Ok t -> stepped i f ds first ev s t.
Proof.
  unfold candidate_step. intros H. apply rbind_ok in H as ([a [c [d step]]] & Hd & H). apply rbind_ok in H as ([l costed] & Hs & H).
  apply rbind_ok in H as (points & Hp & H). apply Ok_inj in H. subst t. constructor. exists c, d, step, l, costed, points. cbn [fst snd rn_adapter rn_ledger rn_fills rn_points rn_trace] in *.
  split_and!; try done. destruct first; [by apply Ok_inj in Hp|]. apply rbind_ok in Hp as (p & Ep & Hp). apply Ok_inj in Hp. by exists p.
Qed.

Lemma decided_process i f primary ev a b c d step : decide_step i f primary ev a = Ok (b, (c, (d, step))) -> signal_process ev d c a = (b, Ok step).
Proof.
  unfold decide_step. intros H. apply rbind_ok in H as (c1 & _ & H). apply rbind_ok in H as ([] & _ & H). apply raise_if_ok in H as [_ H].
  apply rbind_ok in H as (d1 & _ & H). apply rbind_ok in H as ([b1 s1] & He & H). apply Ok_inj in H. apply ending_ok in He. cbn [fst snd] in H.
  assert (b = b1 /\ step = s1 /\ c = c1 /\ d = d1) as (-> & -> & -> & ->) by (split_and!; congruence). exact He.
Qed.

Lemma decided_fills i f primary ev a b c d step : decide_step i f primary ev a = Ok (b, (c, (d, step))) ->
  Forall reference_valid (st_fills step) /\ (length (st_fills step) <= 2)%nat.
Proof. intros H. apply decided_process in H. by eapply step_references. Qed.

(** The ledger holds exactly the costed fills of the run. *)
Record run_inv (spec : backtest_spec) (s : run_state) : Prop := {
  ri_reachable : reachable spec (rn_ledger s);
  ri_applied : _applied (rn_ledger s) = rev (rn_fills s);
  ri_costing : Forall (costing spec) (rn_fills s);
}.

(** The last point of the curve values the ledger. *)
Definition sampled (spec : backtest_spec) (s : run_state) : Prop :=
  exists p mark, last (rn_points s) = Some p /\ snapshot spec (rn_ledger s) mark = Ok (portfolio p).

Section Loop.
Context (i : strategy_identity) (f : evaluator) (ds : accepted_dataset).
Hypothesis Hspec : spec_valid (ds_spec ds).

Lemma step_inv first ev s t : run_inv (ds_spec ds) s -> candidate_step i f ds first ev s = Ok t ->
  run_inv (ds_spec ds) t /\ (length (rn_fills t) <= length (rn_fills s) + 2)%nat /\ (exists more, rn_points t = rn_points s ++ more)
  /\ (first = false -> sampled (ds_spec ds) t).
Proof using Hspec.
  intros [Hr Ha Hc] H. destruct (step_parts _ _ _ _ _ _ _ H) as [(c & d & step & l & costed & points & Hd & Hs & Hp & E1 & E2 & E3 & _)].
  destruct (decided_fills _ _ _ _ _ _ _ _ _ Hd) as [Hv Hn]. destruct (settle_ok _ _ _ _ _ Hspec Hv Hs) as (Hm & Hf & Hap & Hre).
  split; [constructor; rewrite ?E1, ?E2; [by apply Hre|by rewrite Hap, rev_app_distr, Ha|by apply Forall_app]|].
  split; [rewrite E2, length_app; rewrite <- Hm, length_map in Hn; lia|]. split; [by exists points|]. intros ->.
  destruct Hp as (p & Hp & ->). exists p, (open c). rewrite E3, last_snoc. split; [done|]. unfold sample, new_point in Hp.
  apply rbind_ok in Hp as (q & Hq & Hp). apply raise_if_ok in Hp as [_ Hp]. apply Ok_inj in Hp. subst p. by rewrite E1.
Qed.

Lemma loop_inv first events s t : run_inv (ds_spec ds) s -> candidate_loop i f ds first events s = Ok t ->
  run_inv (ds_spec ds) t /\ (length (rn_fills t) <= length (rn_fills s) + 2 * length events)%nat /\ (exists more, rn_points t = rn_points s ++ more)
  /\ (first = false -> events = [] -> sampled (ds_spec ds) s -> sampled (ds_spec ds) t)
  /\ ((if first then 1 else 0) < length events -> sampled (ds_spec ds) t)%nat.
Proof using Hspec.
  revert first s. induction events as [|ev rest IH]; intros first s Hi H; cbn [candidate_loop] in H.
  - apply Ok_inj in H. subst t. split; [done|]. split; [lia|]. split; [exists []; by rewrite app_nil_r|]. split; [done|]. destruct first; simpl; lia.
  - apply rbind_ok in H as (s1 & H1 & H). destruct (step_inv _ _ _ _ Hi H1) as (I1 & N1 & [m1 P1] & S1).
    destruct (IH false s1 I1 H) as (I2 & N2 & [m2 P2] & S2 & S3). split; [done|]. split; [simpl; lia|].
    split; [exists (m1 ++ m2); by rewrite P2, P1, app_assoc|]. split; [done|]. intros Hlen.
    destruct rest as [|x rest]; [|apply S3; simpl; lia]. apply S2; [done..|]. apply S1. destruct first; [simpl in Hlen; lia|done].
Qed.
End Loop.

(** ** Costs do not decide *)

Record same_decisions (s t : run_state) : Prop := {
  sm_adapter : rn_adapter s = rn_adapter t;
  sm_trace : rn_trace s = rn_trace t;
  sm_references : map cf_reference (rn_fills s) = map cf_reference (rn_fills t);
}.

Section Costs.
Context (i : strategy_identity) (f : evaluator) (ds ds' : accepted_dataset).
Hypothesis Hspec : spec_valid (ds_spec ds).
Hypothesis Hspec' : spec_valid (ds_spec ds').
Hypothesis Hprimary : ds_primary ds = ds_primary ds'.

(** One step of two runs that differ in their costs only. *)
Lemma step_same first ev s s' t t' : same_decisions s s' -> candidate_step i f ds first ev s = Ok t -> candidate_step i f ds' first ev s' = Ok t' ->
  same_decisions t t'.
Proof using All.
  intros [A1 A2 A3] H H'. destruct (step_parts _ _ _ _ _ _ _ H) as [(c & d & step & l & costed & points & Hd & Hs & _ & _ & E2 & _ & E4)].
  destruct (step_parts _ _ _ _ _ _ _ H') as [(c' & d' & step' & l' & costed' & points' & Hd' & Hs' & _ & _ & E2' & _ & E4')].
  rewrite <- Hprimary, <- A1, Hd in Hd'. apply Ok_inj in Hd'. destruct (decided_fills _ _ _ _ _ _ _ _ _ Hd) as [Hv _].
  assert (step' = step /\ d' = d /\ rn_adapter t' = rn_adapter t) as (-> & -> & Ea) by (split_and!; congruence).
  destruct (settle_ok _ _ _ _ _ Hspec Hv Hs) as [Hm _]. destruct (settle_ok _ _ _ _ _ Hspec' Hv Hs') as [Hm' _].
  constructor; [by rewrite Ea|by rewrite E4, E4', Hm, Hm', A2|by rewrite E2, E2', !map_app, Hm, Hm', A3].
Qed.

Lemma loop_same first events s s' t t' : same_decisions s s' -> candidate_loop i f ds first events s = Ok t ->
  candidate_loop i f ds' first events s' = Ok t' -> same_decisions t t'.
Proof using All.
  revert first s s'. induction events as [|ev rest IH]; intros first s s' Hs H H'; cbn [candidate_loop] in H, H'.
  - apply Ok_inj in H, H'. by subst.
  - apply rbind_ok in H as (s1 & H1 & H), H' as (s1' & H1' & H'). eapply IH; [|exact H|exact H']. exact (step_same _ _ _ _ _ _ Hs H1 H1').
Qed.
End Costs.

(** ** Runs to their end *)

Lemma sealed_spec ds ds' : _sealed ds = Ok ds' -> ds_spec ds' = ds_spec ds
  /\ ds_primary ds' = visible (end_time_ms (ds_spec ds)) (ds_primary ds).
Proof. unfold _sealed. intros H. apply raise_if_ok in H as [_ H]. apply Ok_inj in H. by subst. Qed.

Lemma events_bound ds events : spec_valid (ds_spec ds) -> _events ds = Ok events ->
  (2 <= length events)%nat /\ Z.of_nat (length events) <= MAX_PRIMARY_CANDLES.
Proof.
  intros Hs H. unfold _events in H. apply rbind_ok in H as (evs & He & H). apply raise_if_ok in H as [Hn H]. apply Ok_inj in H. subst evs.
  apply Nat.ltb_ge in Hn. split; [done|]. apply rcatch_ok in He. unfold clock_events in He. apply rmap_ok, Forall2_length in He.
  rewrite length_combine, length_seq, Nat.min_id in He. rewrite <- He. apply spec_valid_facts in Hs as [_ Hb [A1 A2] Hc _ _].
  unfold py_range. rewrite length_map, length_seq. change HOUR_MS with 3600000 in *. unfold MAX_PRIMARY_CANDLES in *.
  Z.to_euclidean_division_equations. lia.
Qed.

(** What a loop that came to its end left behind. *)
Record run_end (ds : accepted_dataset) (sealed : accepted_dataset) (s : run_state) : Prop := {
  re_sealed : _sealed ds = Ok sealed;
  re_inv : run_inv (ds_spec ds) s;
  re_fills : Z.of_nat (length (rn_fills s)) <= 200000;
  re_start : exists l0 p0 mark more, new_ledger (ds_spec ds) = Ok l0 /\ snapshot (ds_spec ds) l0 mark = Ok (portfolio p0)
    /\ rn_points s = p0 :: more;
  re_sampled : sampled (ds_spec ds) s;
}.

Lemma run_loop_end ds i sealed s : spec_valid (ds_spec ds) -> run_loop ds i = Ok (sealed, s) -> run_end ds sealed s.
Proof.
  intros Hs H. unfold run_loop in H. apply rbind_ok in H as (sd & Hsd & H). apply rbind_ok in H as (c & _ & H). apply rbind_ok in H as (events & He & H).
  apply raise_if_ok in H as [_ H]. apply rbind_ok in H as (a & _ & H). apply rbind_ok in H as (l & Hl & H). destruct (sealed_spec _ _ Hsd) as [Es _].
  pose proof He as Hb. apply events_bound in Hb as [B1 B2]; [|by rewrite Es]. destruct events as [|ev rest]; [done|].
  apply rbind_ok in H as (mark & _ & H). apply rbind_ok in H as (p & Hp & H). apply rbind_ok in H as (s1 & H1 & H). apply Ok_inj in H.
  assert (sd = sealed /\ s1 = s) as [-> ->] by (split; congruence). rewrite <- Es in Hs.
  assert (run_inv (ds_spec sealed) (RunState a l [] [] [p])) as Hi.
  { constructor; cbn [rn_ledger rn_fills]; [by apply reach_new| |constructor]. unfold new_ledger in Hl. apply rbind_ok in Hl as (c0 & _ & Hl). apply Ok_inj in Hl. by subst. }
  destruct (loop_inv _ _ _ Hs _ _ _ _ Hi H1) as (I & N & [more P] & _ & S). rewrite Es in *. cbn [rn_fills rn_points length app] in *.
  constructor; [done|exact I| | |apply S; lia].
  - unfold MAX_PRIMARY_CANDLES in B2. simpl length in B2. lia.
  - unfold sample, new_point in Hp. apply rbind_ok in Hp as (q & Hq & Hp). apply raise_if_ok in Hp as [_ Hp]. apply Ok_inj in Hp.
    exists l, p, (close mark), more. split; [done|]. split; [|done]. by subst p.
Qed.

(** A snapshot of a flat ledger is its cash. *)
Lemma flat_snapshot spec l mark s : snapshot spec l mark = Ok s -> ledger_has_position l = false ->
  equity_quote s = dadd DECIMAL_PRECISION (cash l) dec0 /\ ps_total_fee_quote s = total_fee_quote l
  /\ ps_total_slippage_quote s = total_slippage_quote l /\ ps_closed_trades s = closed_trades l.
Proof.
  unfold snapshot, liquidation. intros H Hp. apply rbind_ok in H as (d & _ & H). rewrite Hp in H. apply rbind_ok in H as (liq & Hl & H).
  apply Ok_inj in Hl. subst liq. apply rbind_ok in H as ([] & _ & H). apply Ok_inj in H. by subst s.
Qed.

(** The numbers of a finished run, from its applied fills. *)
Record run_numbers (s : run_state) (v : metric_values) : Prop := {
  nu_net : (dval (net_pnl_quote v) == total cash_delta (_applied (rn_ledger s)))%Q;
  nu_rep : rep 88 168 (total cash_delta (_applied (rn_ledger s)));
  nu_fee : (dval (mv_total_fee_quote v) == total fee_quote (_applied (rn_ledger s)))%Q;
  nu_slippage : (dval (mv_total_slippage_quote v) == total slippage_quote (_applied (rn_ledger s)))%Q;
  nu_cost : (dval (mv_total_cost_quote v) == total fee_quote (_applied (rn_ledger s)) + total slippage_quote (_applied (rn_ledger s)))%Q;
  nu_gross : faithful MP (dval (net_pnl_quote v) + dval (mv_total_cost_quote v)) (gross_pnl_quote v);
  nu_trades : mv_trade_count v = exits (_applied (rn_ledger s));
  nu_flat : exits (_applied (rn_ledger s)) = 0 -> _applied (rn_ledger s) = [];
}.

Lemma flat_history fills : Forall fill_facts fills -> alternating fills -> (position_asset fills == 0)%Q -> exits fills = 0 -> fills = [].
Proof.
  intros Hf _ Hp He. destruct Hf as [|f fs [_ _ _ _ _ _ Hent _] _]; [done|]. exfalso. cbn [exits fold_right position_asset] in He, Hp.
  pose proof (exits_nonneg fs) as Hn. unfold exits in Hn. destruct (is_entry (cf_reference f)); [|lia]. destruct (Hent eq_refl). lra.
Qed.

Lemma sum_of_costs_rep fills : Forall fill_facts fills -> Z.of_nat (length fills) <= 200000 ->
  rep 88 168 (total fee_quote fills + total slippage_quote fills).
Proof.
  intros Hf Hn. destruct (facts_totals _ Hf) as (_ & F1 & F2).
  assert (Z.of_nat (length fills) <= FILL_BOUND) as Hb by (unfold FILL_BOUND; lia).
  eapply (rep_bound 89 168); [eapply (rep_plus 88 168 88 168); by apply total_rep|done|].
  pose proof (total_bound _ _ F1) as B1. pose proof (total_bound _ _ F2) as B2.
  pose proof (Qabs_triangle (total fee_quote fills) (total slippage_quote fills)) as B3.
  rewrite Zle_Qle in Hn. apply (Qmult_le_compat_r _ _ (q10 82)) in Hn; [|by apply Qlt_le_weak].
  eapply Qle_lt_trans; [exact B3|]. eapply Qle_lt_trans; [apply Qplus_le_compat; [exact B1|exact B2]|].
  eapply Qle_lt_trans; [apply Qplus_le_compat; exact Hn|]. reflexivity.
Qed.

Lemma fresh_flat spec l : new_ledger spec = Ok l -> ledger_has_position l = false /\ cash_decimal spec = Ok (cash l).
Proof. unfold new_ledger. intros H. apply rbind_ok in H as (c & Hc & H). apply Ok_inj in H. by subst l. Qed.

Lemma run_numbers_ok ds sealed s r : spec_valid (ds_spec ds) -> run_end ds sealed s -> ledger_has_position (rn_ledger s) = false ->
  calculate_metrics (rn_points s) = Ok r -> run_numbers s (pr_values r).
Proof.
  intros Hs [_ [Hr Ha Hc] Hn (l0 & p0 & mark0 & more & El0 & Ep0 & Epts) (p & mark & Elast & Ep)] Hflat Hm.
  apply metrics_ok in Hm as [_ Hf]. destruct (mf_ends _ _ Hf) as (start & Es & Ei & Ef & Efee & Eslip & Etr).
  rewrite Epts in Es, Elast, Ef, Efee, Eslip, Etr. cbn [tail] in Es. injection Es as <-. rewrite last_of_cons in Elast. injection Elast as Elast.
  unfold final_point in *. cbn [tail] in *. rewrite Elast in *.
  destruct (fresh_flat _ _ El0) as [F0 C0]. destruct (flat_snapshot _ _ _ _ Ep0 F0) as (Q0 & _). destruct (flat_snapshot _ _ _ _ Ep Hflat) as (Q1 & Q2 & Q3 & Q4).
  assert (Z.of_nat (length (_applied (rn_ledger s))) <= FILL_BOUND) as Hb by (rewrite Ha, length_rev; unfold FILL_BOUND; lia).
  destruct (reachable_books _ _ Hs C0 _ Hr Hb) as [Hinv _]. pose proof (balance_rep _ _ Hs C0 _ (li_fills _ _ Hinv) Hb) as Rb.
  destruct (facts_totals _ (li_fills _ _ Hinv)) as (Fc & _ & _). pose proof (total_rep _ _ Fc Hb) as Rc.
  destruct (initial_cash_rep _ _ Hs C0) as [R0 _].
  assert (dval (initial_equity_quote (pr_values r)) == dval (cash l0))%Q as Vi.
  { rewrite Ei, Q0, (dadd_val (i:=16) (f:=168)); rewrite ?dval_0, ?Qplus_0_r; [reflexivity|done|done|exact R0]. }
  assert (dval (final_equity_quote (pr_values r)) == dval (cash l0) + total cash_delta (_applied (rn_ledger s)))%Q as Vf.
  { rewrite Ef, Q1, (dadd_val (i:=88) (f:=168)); rewrite ?dval_0, ?Qplus_0_r, ?(li_cash _ _ Hinv); [reflexivity|done|done|exact Rb]. }
  destruct (mf_pnl _ _ Hf) as (Pn & _ & Pc & Pg). constructor.
  - assert (dval (cash l0) + total cash_delta (_applied (rn_ledger s)) - dval (cash l0) == total cash_delta (_applied (rn_ledger s)))%Q as E by ring.
    rewrite Vi, Vf, E in Pn. exact (faithful_rep 88 168 _ MP _ Rc ltac:(done) Pn).
  - exact Rc.
  - by rewrite Efee, Q2, (li_fees _ _ Hinv).
  - by rewrite Eslip, Q3, (li_slippage _ _ Hinv).
  - rewrite Efee, Eslip, Q2, Q3, (li_fees _ _ Hinv), (li_slippage _ _ Hinv) in Pc. refine (faithful_rep 88 168 _ MP _ _ ltac:(done) Pc).
    apply sum_of_costs_rep; [apply (li_fills _ _ Hinv)|rewrite Ha, length_rev; exact Hn].
  - exact Pg.
  - by rewrite Etr, Q4, (li_closed _ _ Hinv).
  - apply flat_history; [apply (li_fills _ _ Hinv)|apply (li_alternating _ _ Hinv)|]. rewrite <- (li_asset _ _ Hinv).
    unfold ledger_has_position in Hflat. apply dltb_false in Hflat. rewrite dval_0 in Hflat. apply Qle_antisym; [done|].
    rewrite (li_asset _ _ Hinv). apply (position_signs _ (li_fills _ _ Hinv)).
Qed.

(** ** The cost drag *)

Lemma zero_cost_valid spec : spec_valid spec -> spec_valid (zero_cost spec).
Proof.
  unfold spec_valid, spec_post_init, zero_cost. intros H. res_inv.
  cbn [bs_symbol start_time_ms end_time_ms initial_cash fee_bps slippage_bps seed paper_only live_master_lock spot_only allow_short allow_leverage execution_price_policy].
  rewrite Hc, Hc0, Hr, Hc1, Hc2. reflexivity.
Qed.

(** A fill and the same reference without costs differ in cash by exactly the costs. *)
Lemma fill_drag spec f f0 : spec_valid spec -> costing spec f -> costing (zero_cost spec) f0 -> cf_reference f0 = cf_reference f ->
  (dval (cash_delta (cf_values f0)) - dval (cash_delta (cf_values f)) == dval (fee_quote (cf_values f)) + dval (slippage_quote (cf_values f)))%Q.
Proof.
  intros Hs [Hr Hc] [Hr0 Hc0] E. pose proof (zero_cost_valid _ Hs) as Hz.
  destruct (costed_reference _ _ _ Hc) as (_ & _ & Sym). rewrite E in Hc0.
  destruct (apply_costs_exact _ _ Hr Hs Sym) as (q & p & fe & sl & x & Ex & _ & _ & _ & _ & Hq & Hp & _ & _ & _ & _ & [_ _ Vf Vs Vc _]).
  destruct (apply_costs_exact _ _ Hr Hz Sym) as (q0 & p0 & fe0 & sl0 & x0 & Ex0 & _ & _ & _ & _ & Hq0 & Hp0 & Ef0 & Es0 & _ & _ & [_ _ _ _ Vc0 _]).
  rewrite Hc in Ex. rewrite Hc0 in Ex0. apply Ok_inj in Ex, Ex0. subst x x0.
  rewrite (positive_amount_fun _ _ _ Hq0 Hq), (positive_amount_fun _ _ _ Hp0 Hp) in Vc0.
  change (fee_bps_decimal (zero_cost spec)) with (Ok dec0) in Ef0. change (slippage_bps_decimal (zero_cost spec)) with (Ok dec0) in Es0.
  apply Ok_inj in Ef0, Es0. subst fe0 sl0. assert (bps (dval dec0) == 0)%Q as B0 by reflexivity.
  rewrite Vc0, Vc, Vf, Vs, !cash_identity. unfold fee_value, slippage_value, gross_value, exec_value. rewrite B0. ring.
Qed.

Lemma total_drag spec fills fills0 : spec_valid spec -> Forall (costing spec) fills -> Forall (costing (zero_cost spec)) fills0 ->
  map cf_reference fills = map cf_reference fills0 ->
  (total cash_delta fills0 - total cash_delta fills == total fee_quote fills + total slippage_quote fills)%Q.
Proof.
  intros Hs Hf. revert fills0. induction Hf as [|f fs Hf _ IH]; intros [|f0 fs0] H0 E; try done. injection E as E1 E2. apply Forall_cons in H0 as [H0 Hr].
  pose proof (fill_drag _ _ _ Hs Hf H0 (eq_sym E1)). specialize (IH fs0 Hr E2). cbn [total fold_right]. unfold total in IH. lra.
Qed.

(** Every fill is charged when the specification charges anything. *)
Definition charging (spec : backtest_spec) : Prop := exists fee slip, fee_bps_decimal spec = Ok fee /\ slippage_bps_decimal spec = Ok slip
  /\ (0 < dval fee + dval slip)%Q.

Lemma fill_charged spec f : spec_valid spec -> charging spec -> costing spec f ->
  (0 < dval (fee_quote (cf_values f)) + dval (slippage_quote (cf_values f)))%Q.
Proof.
  intros Hs (fee & slip & Ef & Es & Hpos) [Hr Hc]. destruct (costed_reference _ _ _ Hc) as (_ & _ & Sym).
  destruct (apply_costs_exact _ _ Hr Hs Sym) as (q & p & fe & sl & x & Ex & _ & _ & _ & _ & [_ Hq] & [_ Hp] & Ef' & Es' & Rf & Rs & [_ _ Vf Vs _ _]).
  rewrite Hc in Ex. rewrite Ef in Ef'. rewrite Es in Es'. apply Ok_inj in Ex, Ef', Es'. subst x fe sl. rewrite Vf, Vs.
  destruct (bps_rep _ Rf) as [_ Bf], (bps_rep _ Rs) as [_ Bs].
  pose proof (gross_pos (is_entry (cf_reference f)) _ _ _ Bs Hq Hp) as Pg. unfold fee_value, slippage_value.
  pose proof (Qmult_lt_0_compat _ _ Hq Hp) as Pqp. destruct Bf as [Bf _], Bs as [Bs _].
  assert (forall v, (0 < v)%Q -> (0 < bps v)%Q) as Pos by (intros v Hv; unfold bps; apply Qlt_shift_div_l; lra).
  destruct (Qlt_le_dec 0 (dval fee)) as [Pf|Nf].
  - pose proof (Qmult_lt_0_compat _ _ Pg (Pos _ Pf)). pose proof (Qmult_le_0_compat _ _ (Qlt_le_weak _ _ Pqp) Bs). lra.
  - assert (0 < dval slip)%Q as Ps by lra. pose proof (Qmult_lt_0_compat _ _ Pqp (Pos _ Ps)). pose proof (Qmult_le_0_compat _ _ (Qlt_le_weak _ _ Pg) Bf). lra.
Qed.

Lemma total_charged spec fills : spec_valid spec -> charging spec -> Forall (costing spec) fills ->
  (0 <= total fee_quote fills + total slippage_quote fills)%Q /\ (fills <> [] -> (0 < total fee_quote fills + total slippage_quote fills)%Q).
Proof.
  intros Hs Hch Hf. induction Hf as [|f fs Hf _ [IH _]]; [split; [|done]; unfold total; simpl; lra|]. pose proof (fill_charged _ _ Hs Hch Hf).
  cbn [total fold_right]. unfold total in IH. split; [|intros _]; lra.
Qed.

(** ** The future *)

(** No event of the clock shows a candle that closes later. *)
Lemma events_see_past ds events : _events ds = Ok events -> Forall (fun ev => sees_future ev = false) events.
Proof.
  unfold _events. intros H. apply rbind_ok in H as (evs & He & H). apply raise_if_ok in H as [_ H]. apply Ok_inj in H. subst evs.
  apply rcatch_ok in He. unfold clock_events in He. apply rmap_ok in He. induction He as [|[n t] ev l evs Hev _ IH]; constructor; [|done].
  cbn [fst snd] in Hev. apply rbind_ok in Hev as (s & Hs & Hev). apply rcatch_ok in Hs. unfold new_event in Hev. apply rbind_ok in Hev as ([] & _ & Hev).
  apply Ok_inj in Hev. subst ev. unfold snapshot_at in Hs. apply raise_if_ok in Hs as [_ Hs]. apply rcatch_ok in Hs. unfold new_snapshot in Hs.
  apply rbind_ok in Hs as ([] & _ & Hs). apply Ok_inj in Hs. subst s. unfold sees_future. cbn [ev_snapshot ev_decision_time_ms primary context regime].
  destruct (existsb _ _) eqn:E; [|done]. exfalso. apply existsb_exists in E as (c & Hc & E). rewrite <- !list_elem_of_In, !elem_of_app in Hc.
  unfold visible in Hc. rewrite !list_elem_of_filter in Hc. lia.
Qed.

Lemma mutate_unseen t changed l out : mutate changed l = Ok out -> t <= EVALUATION_END_MS -> visible t (snd out) = visible t l.
Proof.
  intros H Ht. revert changed out H. induction l as [|c rest IH]; intros changed out H; cbn [mutate] in H; [apply Ok_inj in H; by subst|].
  set (hit := negb changed && _) in H. apply rbind_ok in H as (c1 & Hc & H). apply rbind_ok in H as (more & Hm & H). apply Ok_inj in H. subst out.
  cbn [snd]. rewrite !visible_cons, (IH _ _ Hm). destruct hit eqn:E; [|apply Ok_inj in Hc; by subst].
  apply andb_true_iff in E as [_ E]. apply Z.leb_le in E. unfold new_candle in Hc. apply rbind_ok in Hc as ([] & Hv & Hc). apply Ok_inj in Hc. subst c1.
  destruct (candle_valid_facts _ Hv) as [_ _ (d & Hd & _ & Hclose) _ _ _ _]. apply interval_ms_pos in Hd. cbn [counted_once_more open_time_ms close_time_ms] in *.
  by rewrite !decide_False by lia.
Qed.

(** ** A run and the same run without costs *)

Abbreviation free ds := (with_spec (zero_cost (ds_spec ds)) ds).

Lemma sealed_free ds : _sealed (free ds) = let* d := _sealed ds in Ok (free d).
Proof. unfold _sealed. cbn [with_spec ds_spec zero_cost end_time_ms ds_primary ds_context ds_regime manifest_generated_at_ms]. by destruct (_ || _). Qed.

Lemma events_free ds : _events (free ds) = _events ds.
Proof. reflexivity. Qed.

Lemma run_loop_same ds i sealed sealed0 s s0 : spec_valid (ds_spec ds) -> run_loop ds i = Ok (sealed, s) -> run_loop (free ds) i = Ok (sealed0, s0) ->
  same_decisions s s0 /\ bs_symbol (ds_spec sealed) = bs_symbol (ds_spec sealed0).
Proof.
  intros Hs H H0. unfold run_loop in H, H0. rewrite sealed_free in H0. apply rbind_ok in H as (sd & Hsd & H). rewrite Hsd in H0. cbn [rbind] in H0.
  destruct (sealed_spec _ _ Hsd) as [Es _]. rewrite events_free in H0. apply rbind_ok in H as (c & Hc & H). rewrite Hc in H0. cbn [rbind] in H0.
  apply rbind_ok in H as (events & He & H). rewrite He in H0. cbn [rbind] in H0. apply raise_if_ok in H as [Hn H]. apply raise_if_ok in H0 as [_ H0].
  apply rbind_ok in H as (a & Ha & H). change (bs_symbol (ds_spec (free sd))) with (bs_symbol (ds_spec sd)) in H0. rewrite Ha in H0. cbn [rbind] in H0.
  apply rbind_ok in H as (l & _ & H), H0 as (l0 & _ & H0). destruct events as [|ev rest]; [done|].
  apply rbind_ok in H as (mark & _ & H), H0 as (mark0 & _ & H0). apply rbind_ok in H as (p & _ & H), H0 as (p0 & _ & H0).
  apply rbind_ok in H as (t & Ht & H), H0 as (t0 & Ht0 & H0). apply Ok_inj in H, H0.
  assert (sd = sealed /\ t = s /\ free sd = sealed0 /\ t0 = s0) as (-> & -> & <- & ->) by (split_and!; congruence). split; [|done]. rewrite <- Es in Hs.
  eapply (loop_same i (cd_evaluator c) sealed (free sealed) Hs (zero_cost_valid _ Hs) eq_refl _ _ _ _ _ _ _ Ht Ht0). Unshelve. by constructor.
Qed.

Record execution_parts (ds : accepted_dataset) (i : strategy_identity) (run : run_outcome) (s : run_state) : Prop := {
  xp_loop : exists sealed, run_loop ds i = Ok (sealed, s) /\ ro_trace run = trace_json i (bs_symbol (ds_spec sealed)) (rn_trace s)
    /\ run_end ds sealed s;
  xp_flat : sg_has_position (rn_adapter s) = false /\ ledger_has_position (rn_ledger s) = false;
  xp_report : calculate_metrics (rn_points s) = Ok (ro_report run);
  xp_fills : ro_fills run = rn_fills s;
}.

Lemma execution_ok ds i run : spec_valid (ds_spec ds) -> _candidate_execution ds i = Ok run -> exists s, execution_parts ds i run s.
Proof.
  intros Hs H. unfold _candidate_execution in H. apply rbind_ok in H as ([sealed s] & Hl & H). apply raise_if_ok in H as [Hf H].
  apply orb_false_iff in Hf. apply rbind_ok in H as (r & Hr & H). apply rbind_ok in H as (m & _ & H). apply rbind_ok in H as (e & _ & H).
  apply Ok_inj in H. subst run. exists s. constructor; cbn [ro_trace ro_report ro_fills]; try done. exists sealed. by pose proof (run_loop_end _ _ _ _ Hs Hl).
Qed.

(** ** Equality of outcomes is reflexive *)

Lemma deqb_refl d : deqb d d = true.
Proof. by apply deqb_spec. Qed.
Lemma list_eqb_refl {A} (eqb : A -> A -> bool) l : (forall x, eqb x x = true) -> list_eqb eqb l l = true.
Proof. intros H. induction l as [|x l IH]; [done|]. cbn [list_eqb]. by rewrite H, IH. Qed.
Lemma costed_eqb_refl f : costed_eqb f f = true.
Proof. unfold costed_eqb, values_eqb. rewrite bool_decide_true by done. by rewrite !deqb_refl. Qed.
Lemma point_eqb_refl p : point_eqb p p = true.
Proof. unfold point_eqb, snapshot_eqb. rewrite !Z.eqb_refl, !deqb_refl, String.eqb_refl. done. Qed.
Lemma outcome_eqb_refl r : outcome_eqb r r = true.
Proof.
  unfold outcome_eqb. rewrite !bool_decide_true by done. rewrite (list_eqb_refl point_eqb _ point_eqb_refl), (list_eqb_refl costed_eqb _ costed_eqb_refl), metrics_eqb_refl.
  done.
Qed.

Lemma total_app sel l l' : (total sel (l ++ l') == total sel l + total sel l')%Q.
Proof. induction l as [|f l IH]; cbn [app total fold_right]; unfold total in *; [ring|]. rewrite IH. ring. Qed.

Lemma total_rev sel fills : (total sel (rev fills) == total sel fills)%Q.
Proof.
  induction fills as [|f fs IH]; [reflexivity|]. cbn [rev]. rewrite total_app, IH. cbn [total fold_right]. unfold total. ring.
Qed.

Lemma initial_cash_known spec : spec_valid spec -> exists c, cash_decimal spec = Ok c.
Proof. intros H. apply spec_valid_facts in H as [_ _ _ _ (c & _ & _ & H & _) _]. by exists c. Qed.

Definition costs_of (fills : list costed_fill) : Q := (total fee_quote fills + total slippage_quote fills)%Q.

Lemma compare_runs_ok ds i run zero : spec_valid (ds_spec ds) -> charging (ds_spec ds) -> _candidate_execution ds i = Ok run ->
  _candidate_execution (free ds) i = Ok zero ->
  exists drag, compare_runs run zero = Ok drag /\ (dval drag == costs_of (ro_fills run))%Q
    /\ (dval drag == dval (net_pnl_quote (pr_values (ro_report zero))) - dval (net_pnl_quote (pr_values (ro_report run))))%Q
    /\ ((0 < dval drag)%Q <-> 0 < mv_trade_count (pr_values (ro_report run))) /\ (0 <= dval drag)%Q.
Proof.
  intros Hs Hch H H0. destruct (execution_ok _ _ _ Hs H) as (s & [(sealed & Hl & Ht & He) [_ Hfl] Hm Hf]).
  destruct (execution_ok (free ds) _ _ (zero_cost_valid _ Hs) H0) as (s0 & [(sealed0 & Hl0 & Ht0 & He0) [_ Hfl0] Hm0 Hf0]).
  destruct (run_loop_same _ _ _ _ _ _ Hs Hl Hl0) as [[_ S2 S3] Esym].
  pose proof (run_numbers_ok _ _ _ _ Hs He Hfl Hm) as [Nn Nr _ _ Nc _ Nt Nf].
  pose proof (run_numbers_ok (free ds) _ _ _ (zero_cost_valid _ Hs) He0 Hfl0 Hm0) as [Nn0 _ _ _ _ _ _ _].
  pose proof (re_inv _ _ _ He) as [_ Ea Hc]. pose proof (re_inv _ _ _ He0) as [_ Ea0 Hc0]. pose proof (re_fills _ _ _ He) as Hn.
  rewrite Ea in *. rewrite Ea0 in *. rewrite total_rev in Nn, Nn0. rewrite !total_rev in Nc.
  pose proof (total_drag _ _ _ Hs Hc Hc0 S3) as Ed. destruct (total_charged _ _ Hs Hch Hc) as [C0 C1]. fold (costs_of (rn_fills s)) in Nc, Ed, C0, C1.
  destruct (initial_cash_known _ Hs) as [cash0 Hcash]. destruct (reachable_books _ _ Hs Hcash (rn_ledger s) (ri_reachable _ _ (re_inv _ _ _ He))) as [Hinv _].
  { rewrite (ri_applied _ _ (re_inv _ _ _ He)), length_rev. unfold FILL_BOUND. lia. }
  assert (rep 88 168 (costs_of (rn_fills s))) as Rc.
  { apply sum_of_costs_rep; [|done]. pose proof (li_fills _ _ Hinv) as Hff. rewrite (ri_applied _ _ (re_inv _ _ _ He)) in Hff. by apply Forall_rev in Hff; rewrite rev_involutive in Hff. }
  set (v := pr_values (ro_report run)) in *. set (v0 := pr_values (ro_report zero)) in *.
  assert (dval (_exact_difference (net_pnl_quote v0) (net_pnl_quote v)) == costs_of (rn_fills s))%Q as Vd.
  { unfold _exact_difference. rewrite (dsub_val (i:=88) (f:=168)); rewrite ?Nn, ?Nn0, ?Ed; [reflexivity|done|done|exact Rc]. }
  assert (exits (rev (rn_fills s)) = 0 -> (costs_of (rn_fills s) == 0)%Q) as Z0.
  { intros E. apply Nf in E. apply (f_equal (@rev _)) in E. rewrite rev_involutive in E. by rewrite E. }
  assert (exits (rev (rn_fills s)) <> 0 -> (0 < costs_of (rn_fills s))%Q) as Z1.
  { intros E. apply C1. intros E'. by rewrite E' in E. }
  pose proof (exits_nonneg (rev (rn_fills s))) as Ex. exists (_exact_difference (net_pnl_quote v0) (net_pnl_quote v)).
  rewrite Hf. split; [|split; [exact Vd|split; [by rewrite Vd, Nn, Nn0, Ed|split; [|by rewrite Vd]]]].
  - unfold compare_runs. fold v v0. rewrite Hf, Hf0, Ht, Ht0, Esym, S2. rewrite !bool_decide_true by done. cbn [negb orb].
    destruct (mv_trade_count v =? 0) eqn:E; cbn [negb andb].
    + apply Z.eqb_eq in E. rewrite Nt in E. rewrite (proj2 (deqb_spec _ dec0)) by (rewrite Vd, dval_0; by apply Z0). cbn [negb].
      by rewrite (proj2 (deqb_spec _ _)) by by rewrite Vd, Nc.
    + apply Z.eqb_neq in E. rewrite Nt in E. rewrite (proj2 (dleb_false _ dec0)) by (rewrite Vd, dval_0; by apply Z1).
      by rewrite (proj2 (deqb_spec _ _)) by by rewrite Vd, Nc.
  - rewrite Vd, Nt. destruct (Z.eq_dec (exits (rev (rn_fills s))) 0) as [E|E]; [rewrite E, (Z0 E)|specialize (Z1 E)]; split; intros; try done; lia.
Qed.

(** The same data before the end of the range. *)
Record same_past (ds ds' : accepted_dataset) : Prop := {
  sa_spec : ds_spec ds' = ds_spec ds;
  sa_generated : manifest_generated_at_ms ds' = manifest_generated_at_ms ds;
  sa_primary : visible (end_time_ms (ds_spec ds)) (ds_primary ds') = visible (end_time_ms (ds_spec ds)) (ds_primary ds);
  sa_context : visible (end_time_ms (ds_spec ds)) (ds_context ds') = visible (end_time_ms (ds_spec ds)) (ds_context ds);
  sa_regime : visible (end_time_ms (ds_spec ds)) (ds_regime ds') = visible (end_time_ms (ds_spec ds)) (ds_regime ds);
}.

Lemma same_past_sealed ds ds' : same_past ds ds' -> _sealed ds' = _sealed ds.
Proof. intros [E1 E2 E3 E4 E5]. unfold _sealed. by rewrite E1, E2, E3, E4, E5. Qed.

Lemma sealed_runs ds ds' i : _sealed ds' = _sealed ds -> _candidate_execution ds' i = _candidate_execution ds i
  /\ forall b, _baseline_execution ds' b = _baseline_execution ds b.
Proof. intros E. unfold _candidate_execution, run_loop, _baseline_execution. by rewrite E. Qed.

Lemma mutation_past ds ds' : end_time_ms (ds_spec ds) <= EVALUATION_END_MS -> _future_mutation ds = Ok ds' -> same_past ds ds'.
Proof.
  unfold _future_mutation. intros He H. apply rbind_ok in H as (p & Hp & H). apply rbind_ok in H as (c & Hc & H). apply rbind_ok in H as (r & Hr & H).
  apply raise_if_ok in H as [_ H]. apply Ok_inj in H. subst ds'. constructor; cbn [ds_spec ds_primary ds_context ds_regime manifest_generated_at_ms]; [done|done|..].
  - exact (mutate_unseen _ _ _ _ Hp He).
  - exact (mutate_unseen _ _ _ _ Hc He).
  - exact (mutate_unseen _ _ _ _ Hr He).
Qed.

(** C26. A run cannot see the future.  Two datasets that agree on the candles closed
    before the end of the range give the same candidate run and the same
    baselines, byte for byte or error for error, whatever they hold later; the
    matrix's own probe, one more trade on the first candle at or after the
    evaluation end, is such a change; and no event of the sealed clock shows a
    candle that closes at or after its decision time, so the run's own
    future-data guard never fires. *)
Theorem future_never_seen ds i (Hend : end_time_ms (ds_spec ds) <= EVALUATION_END_MS) :
  (forall ds', same_past ds ds' -> _candidate_execution ds' i = _candidate_execution ds i /\ forall b, _baseline_execution ds' b = _baseline_execution ds b)
  /\ (forall ds', _future_mutation ds = Ok ds' -> same_past ds ds' /\ _candidate_execution ds' i = _candidate_execution ds i)
  /\ forall sealed events, _sealed ds = Ok sealed -> _events sealed = Ok events -> Forall (fun ev => sees_future ev = false) events.
Proof.
  assert (forall ds', same_past ds ds' -> _candidate_execution ds' i = _candidate_execution ds i /\ forall b, _baseline_execution ds' b = _baseline_execution ds b)
    as Hsame by (intros ds' H; by apply sealed_runs, same_past_sealed).
  split; [exact Hsame|]. split; [|intros sealed events _; apply events_see_past]. intros ds' H. pose proof (mutation_past _ _ Hend H) as Hp.
  split; [exact Hp|]. exact (proj1 (Hsame ds' Hp)).
Qed.

(** C25. Costs only subtract, and exactly.  When a candidate's run and its run
    without costs both finish, the two made the same decisions and the same
    reference fills; the difference of their net results is exactly the sum of the
    fees and slippages of the fills, positive when something was traded and
    zero otherwise, and the comparison accepts it.  With the future probe, which
    reproduces the run, none of the matrix's comparisons can then refuse: one
    symbol of the matrix comes down to recording the two runs with this drag. *)
Theorem costs_only_subtract ds i run zero (Hspec : spec_valid (ds_spec ds)) (Hcharging : charging (ds_spec ds))
    (Hend : end_time_ms (ds_spec ds) <= EVALUATION_END_MS) :
  _candidate_execution ds i = Ok run -> _candidate_execution (with_spec (zero_cost (ds_spec ds)) ds) i = Ok zero ->
  ro_trace zero = ro_trace run /\ map cf_reference (ro_fills zero) = map cf_reference (ro_fills run)
  /\ exists drag, compare_runs run zero = Ok drag /\ (dval drag == costs_of (ro_fills run))%Q
     /\ (dval drag == dval (net_pnl_quote (pr_values (ro_report zero))) - dval (net_pnl_quote (pr_values (ro_report run))))%Q
     /\ ((0 < dval drag)%Q <-> 0 < mv_trade_count (pr_values (ro_report run))) /\ (0 <= dval drag)%Q
     /\ forall ds' p sym no_trade buy_hold, _future_mutation ds = Ok ds' ->
        symbol_run p i sym ds no_trade buy_hold = symbol_record p i sym ds run zero no_trade buy_hold drag.
Proof.
  intros H H0. destruct (compare_runs_ok ds i run zero Hspec Hcharging H H0) as (drag & Hd & V1 & V2 & V3 & V4).
  assert (ro_trace run = ro_trace zero /\ map cf_reference (ro_fills run) = map cf_reference (ro_fills zero)) as [T1 T2].
  { unfold compare_runs in Hd. apply raise_if_ok in Hd as [Hd _]. rewrite orb_false_iff, !negb_false_iff, !bool_decide_eq_true in Hd. exact Hd. }
  split; [by symmetry|]. split; [by symmetry|]. exists drag. split_and!; try done. intros ds' p sym no_trade buy_hold Hds. unfold symbol_run. rewrite H. cbn [rbind].
  rewrite outcome_eqb_refl. cbn [negb]. pose proof (zero_cost_valid _ Hspec) as Hz. unfold spec_valid in Hz. rewrite Hz. cbn [rbind]. rewrite H0. cbn [rbind].
  rewrite Hd. cbn [rbind]. rewrite Hds. cbn [rbind]. rewrite (proj1 (sealed_runs ds ds' i (same_past_sealed _ _ (mutation_past _ _ Hend Hds)))), H. cbn [rbind].
  by rewrite outcome_eqb_refl.
Qed.

(** ** A short run at the end of the evaluation window *)

Definition plain_candle (ivl : string) (d t : Z) : candle :=
  Candle DATA_SOURCE "BTCUSDT" ivl t (t + d - 1) "100" "100" "100" "100" "9" "900" 3 true.
Definition plain_series (ivl : string) (d first : Z) (n : nat) : list candle :=
  map (fun k => plain_candle ivl d (first + Z.of_nat k * d)) (seq 0 n).

(** The last two hours of the window, and one candle after it. *)
Definition short_dataset : accepted_dataset :=
  AcceptedBacktestDataset (default_spec "BTCUSDT" (EVALUATION_END_MS - 2 * HOUR_MS) EVALUATION_END_MS) 1
    (plain_series "1h" HOUR_MS (EVALUATION_END_MS - 3 * HOUR_MS) 4)
    (plain_series "15m" (15 * 60000) (EVALUATION_END_MS - 2 * HOUR_MS - 15 * 60000) 9)
    (plain_series "4h" (4 * HOUR_MS) (EVALUATION_END_MS - 8 * HOUR_MS) 1).

Lemma short_runs_ok : is_ok (_candidate_execution short_dataset TREND_IDENTITY) = true
  /\ is_ok (_candidate_execution (with_spec (zero_cost (ds_spec short_dataset)) short_dataset) TREND_IDENTITY) = true.
Proof. split; vm_compute; reflexivity. Qed.

Lemma short_charging : charging (ds_spec short_dataset).
Proof. exists (dec_of_Z 10), (dec_of_Z 5). by split_and!. Qed.

Lemma future_never_seen_witness : exists ds', ds' <> short_dataset /\ _candidate_execution ds' TREND_IDENTITY = _candidate_execution short_dataset TREND_IDENTITY.
Proof.
  destruct (future_never_seen short_dataset TREND_IDENTITY ltac:(vm_compute; discriminate)) as (_ & H & _).
  destruct (_future_mutation short_dataset) as [ds'|e] eqn:E; [|exfalso; vm_compute in E; discriminate E].
  exists ds'. split; [|exact (proj2 (H ds' eq_refl))]. intros ->. vm_compute in E. discriminate E.
Defined.

Lemma costs_only_subtract_witness : exists run zero drag,
  _candidate_execution short_dataset TREND_IDENTITY = Ok run /\ compare_runs run zero = Ok drag /\ (dval drag == costs_of (ro_fills run))%Q.
Proof.
  destruct (is_ok_inv _ (proj1 short_runs_ok)) as [run Hrun], (is_ok_inv _ (proj2 short_runs_ok)) as [zero Hzero].
  destruct (costs_only_subtract short_dataset TREND_IDENTITY run zero ltac:(vm_compute; reflexivity) short_charging
              ltac:(vm_compute; discriminate) Hrun Hzero) as (_ & _ & drag & Hd & Hv & _).
  exists run, zero, drag. exact (conj Hrun (conj Hd Hv)).
Defined.
