(* ===== verification/Reports.v ===== *)
(** * Reports of finished runs (yatl/strategy/runs.py over backtest/metrics.py and artifacts.py)

    Why a run that reaches its end has metrics and a manifest: the ledgers of a
    run grow by at most one completed trade per bar, the points of its curve show
    those ledgers, and its fills pair into trades whose texts sum to the report.
    The definitions are those of Runs, Metrics and Artifacts. *)
From S2P Require Import Prelude PyDecimal PyText Digest Market BacktestConfig MarketView Fills Costs Ledger Metrics StrategyContracts Features Regime Trend Breakout Registry SignalAdapter ExactDec Evaluate Artifacts Runs.

(** ** Ledgers that grow *)

(** There is cash or a position. *)
Definition solvent (l : ledger) : Prop := (0 < dval (cash l))%Q \/ (0 < position_asset (_applied l))%Q.

Section Ledgers.
Context (spec : backtest_spec) (c : dec).
Hypothesis Hspec : spec_valid spec.
Hypothesis Hcash : cash_decimal spec = Ok c.

Lemma apply_solvent f l l' : books_ok c l -> costed_valid f -> Z.of_nat (length (_applied l)) < FILL_BOUND ->
  _apply spec f l = (l', Ok tt) -> solvent l'.
Proof using All.
  intros Hb Hv Hn E. destruct (apply_step spec c Hspec Hcash f l l' (proj1 Hb) Hv Hn E) as [Hinv Ea].
  pose proof (li_fills _ _ Hinv) as Hf. rewrite Ea in Hf. apply Forall_cons in Hf as [Hff _]. unfold solvent. rewrite Ea. cbn [position_asset].
  destruct (is_entry (cf_reference f)) eqn:Ee; [right; by apply (ff_entry _ Hff)|left].
  rewrite (li_cash _ _ Hinv), Ea. cbn [total fold_right]. pose proof (li_cash _ _ (proj1 Hb)) as Hc. unfold total in Hc.
  pose proof (li_cash_nonneg _ _ (proj1 Hb)). destruct (ff_exit _ Hff Ee). lra.
Qed.

Lemma apply_all_solvent fills l l' : books_ok c l -> solvent l -> Forall costed_valid fills -> Z.of_nat (length (_applied l')) <= FILL_BOUND ->
  apply_all spec fills l = (l', Ok tt) -> solvent l'.
Proof using All.
  intros Hb Hs Hv. revert l Hb Hs. induction Hv as [|f fs Hf _ IH]; intros l Hb Hs Hn E; simpl in E; stm_inv; subst; [done|]. destruct v.
  pose proof (apply_all_applied _ _ _ _ E) as Ea. rewrite (apply_applied _ _ _ _ Hm) in Ea. pose proof Hn as Hn'. rewrite Ea, length_app in Hn'. simpl in Hn'.
  destruct (apply_books spec c Hspec Hcash f l st Hb Hf ltac:(lia) Hm) as [Hb' _].
  eapply (IH st); [done|exact (apply_solvent f l st Hb Hf ltac:(lia) Hm)|done|done].
Qed.

Lemma reachable_solvent l : reachable spec l -> Z.of_nat (length (_applied l)) <= FILL_BOUND -> solvent l.
Proof using All.
  induction 1 as [l E|l f l' out Hr IH Hv E|l fs l' out Hr IH Hv E]; intros Hn.
  - left. destruct (fresh_flat _ _ E) as [_ Ec]. rewrite Hcash in Ec. apply Ok_inj in Ec. rewrite <- Ec. apply (initial_cash_rep spec c Hspec Hcash).
  - apply (apply_cases spec Hspec) in E as [(_ & E)|(e & _ & _ & ->)]; [|by apply IH]. pose proof (apply_applied _ _ _ _ E) as Ea. rewrite Ea in Hn. simpl in Hn.
    eapply apply_solvent; [apply (reachable_books spec c Hspec Hcash l Hr)|exact Hv| |exact E]; lia.
  - apply (apply_many_cases spec Hspec) in E as [(_ & E)|(e & _ & _ & ->)]; [|by apply IH]. pose proof (apply_all_applied _ _ _ _ E) as Ea.
    pose proof Hn as Hn'. rewrite Ea, length_app in Hn'. eapply (apply_all_solvent fs l); [apply (reachable_books spec c Hspec Hcash l Hr); lia|apply IH; lia|done|done|done].
Qed.

(** What a point of the curve shows of its ledger. *)
Record shows (l : ledger) (s : portfolio_snapshot) : Prop := {
  sh_symbol : ps_symbol s = bs_symbol spec;
  sh_equity : (0 < dval (equity_quote s))%Q;
  sh_asset : ps_asset_quantity s = asset_quantity l;
  sh_realized : ps_realized_pnl_quote s = realized_pnl_quote l;
  sh_fees : ps_total_fee_quote s = total_fee_quote l;
  sh_slippage : ps_total_slippage_quote s = total_slippage_quote l;
  sh_trades : ps_closed_trades s = closed_trades l;
}.

Lemma liquidation_value_pos fee slip asset v : rate_value fee -> rate_value slip -> (0 < asset)%Q -> (0 < v)%Q -> (0 < liquidation_value fee slip asset v)%Q.
Proof using.
  intros Rf Rs Ha Hv. destruct (one_minus_rate _ Rf) as [_ Bf], (one_minus_rate _ Rs) as [_ Bs]. unfold liquidation_value.
  repeat apply Qmult_lt_0_compat; lra.
Qed.

Lemma snapshot_shows l mark s : reachable spec l -> Z.of_nat (length (_applied l)) <= FILL_BOUND -> snapshot spec l mark = Ok s -> shows l s.
Proof using All.
  intros Hr Hn H. destruct (reachable_books spec c Hspec Hcash l Hr Hn) as [Hinv _]. pose proof (reachable_solvent l Hr Hn) as Hsol.
  unfold snapshot in H. apply rbind_ok in H as (d & Hm & H). apply rbind_ok in H as (liq & El & H). apply rbind_ok in H as ([] & _ & H). apply Ok_inj in H. subst s.
  constructor; try done. cbn [equity_quote]. destruct (spec_rates _ Hspec) as (fee & slip & Ef & Es & Rf & Rs).
  pose proof (mark_ok _ _ Hm) as ((_ & Hpl & _) & Bd).
  destruct (liquidation_exact spec c l d fee slip Hinv (plain_rep _ _ Hpl) Bd Ef Es Rf Rs) as (liq' & El' & Vl & Rl & Bl & _).
  rewrite El in El'. apply Ok_inj in El'. subst liq'. destruct (snapshot_values spec c Hspec Hcash l d liq Hinv Hn El Rl) as [_ ->].
  pose proof (li_cash_nonneg _ _ Hinv). destruct Hsol as [Hs|Hs]; [lra|]. pose proof (liquidation_value_pos _ _ _ _ Rf Rs Hs Bd). lra.
Qed.

Lemma alternating_app new old : alternating (new ++ old) -> alternating old.
Proof using. induction new as [|f new IH]; [done|]. cbn [app alternating]. intros [H _]. by apply IH. Qed.

Lemma exits_app new old : exits (new ++ old) = exits new + exits old.
Proof using. induction new as [|f new IH]; [done|]. unfold exits in *. cbn [app fold_right]. rewrite IH. lia. Qed.

(** Without an exit the history grows by one entry at most. *)
Lemma no_exit_growth new old : Forall fill_facts (new ++ old) -> alternating (new ++ old) -> exits new = 0 ->
  new = [] \/ exists f, new = [f] /\ is_entry (cf_reference f) = true /\ (position_asset old == 0)%Q.
Proof using.
  intros Hf Ha He. destruct new as [|f [|g new]]; [by left|right; exists f|exfalso].
  - cbn [exits fold_right app alternating] in He, Ha. destruct (is_entry (cf_reference f)) eqn:Ee; [|lia]. split; [done|]. split; [done|apply Ha].
  - cbn [exits fold_right app alternating position_asset] in He, Ha. pose proof (exits_nonneg new) as Hn. unfold exits in Hn.
    destruct (is_entry (cf_reference f)) eqn:Ef; [|destruct (is_entry (cf_reference g)); lia]. destruct Ha as [_ Ha].
    destruct (is_entry (cf_reference g)) eqn:Eg; [|lia]. cbn [app] in Hf. apply Forall_cons in Hf as [_ Hf]. apply Forall_cons in Hf as [Hg _].
    destruct (ff_entry _ Hg Eg). lra.
Qed.

(** Two fills hold at most one exit. *)
Lemma two_fills_exit new old : Forall fill_facts (new ++ old) -> alternating (new ++ old) -> (length new <= 2)%nat -> exits new <= 1.
Proof using.
  intros Hf Ha Hn. destruct new as [|f [|g [|x new]]]; [done|cbn; destruct (is_entry _); lia| |simpl in Hn; lia].
  destruct (is_entry (cf_reference f)) eqn:Ef, (is_entry (cf_reference g)) eqn:Eg; try (cbn; rewrite ?Ef, ?Eg; lia). exfalso.
  cbn [app alternating position_asset] in Ha. rewrite Ef, Eg in Ha. destruct Ha as [_ Ha]. cbn [app] in Hf. apply Forall_cons in Hf as [Hff _].
  destruct (ff_exit _ Hff Ef). lra.
Qed.

Lemma total_grows sel new old : Forall (fun f => (0 <= dval (sel (cf_values f)))%Q) new -> (total sel old <= total sel (new ++ old))%Q.
Proof using. intros Hs. induction Hs as [|f fs Hx _ IH]; [apply Qle_refl|]. unfold total in *. cbn [app fold_right]. lra. Qed.

Lemma grown_trades new l l' : ledger_inv (dval c) l -> ledger_inv (dval c) l' -> _applied l' = new ++ _applied l ->
  closed_trades l' = closed_trades l + exits new
  /\ (dval (total_fee_quote l) <= dval (total_fee_quote l'))%Q /\ (dval (total_slippage_quote l) <= dval (total_slippage_quote l'))%Q
  /\ (exits new = 0 -> (dval (realized_pnl_quote l') == dval (realized_pnl_quote l))%Q).
Proof using.
  intros I I' Ea. pose proof (li_fills _ _ I') as Hf. pose proof (li_alternating _ _ I') as Halt. rewrite Ea in Hf, Halt.
  assert (Forall fill_facts new) as Hnew by (by apply Forall_app in Hf as [? _]).
  rewrite (li_closed _ _ I'), (li_closed _ _ I), (li_fees _ _ I'), (li_fees _ _ I), (li_slippage _ _ I'), (li_slippage _ _ I), Ea, exits_app.
  split; [lia|]. split; [apply total_grows; (eapply Forall_impl; [exact Hnew|]); intros f Hx; apply Hx|].
  split; [apply total_grows; (eapply Forall_impl; [exact Hnew|]); intros f Hx; apply Hx|]. intros E0.
  rewrite (li_realized _ _ I'), (li_realized _ _ I), (li_cash _ _ I'), (li_cash _ _ I), (li_basis _ _ I'), (li_basis _ _ I), Ea.
  destruct (no_exit_growth _ _ Hf Halt E0) as [->|(f & -> & Ee & E)]; [reflexivity|].
  pose proof (proj2 (proj2 (position_signs _ (li_fills _ _ I))) E) as Eb. unfold total. cbn [app fold_right position_basis]. rewrite Ee, Eb. ring.
Qed.

(** Two points of the curve, the second of a grown ledger. *)
Lemma grown_step_ok new l l' p q : ledger_inv (dval c) l -> ledger_inv (dval c) l' -> _applied l' = new ++ _applied l ->
  shows l (portfolio p) -> shows l' (portfolio q) -> ep_time_ms p < ep_time_ms q ->
  step_ok (bs_symbol spec) p q <-> exits new <= 1.
Proof using.
  intros I I' Ea S S' Ht. destruct (grown_trades new l l' I I' Ea) as (G1 & G2 & G3 & G4). pose proof (exits_nonneg new). split.
  - intros [_ _ _ _ _ Htr]. rewrite (sh_trades _ _ S), (sh_trades _ _ S') in Htr. destruct Htr as [[Htr _]|Htr]; lia.
  - intros He. constructor; rewrite ?(sh_fees _ _ S), ?(sh_fees _ _ S'), ?(sh_slippage _ _ S), ?(sh_slippage _ _ S'), ?(sh_trades _ _ S),
      ?(sh_trades _ _ S'), ?(sh_realized _ _ S), ?(sh_realized _ _ S'); try done; [apply S'|apply S'|].
    destruct (Z.eq_dec (exits new) 0) as [E0|E0]; [left|right; lia]. split; [lia|by apply G4].
Qed.
End Ledgers.

(** ** The curve of a loop *)

Fixpoint steps_ok (symbol : string) (p : equity_point) (points : list equity_point) : Prop :=
  match points with
  | [] => True
  | q :: rest => step_ok symbol p q /\ steps_ok symbol q rest
  end.

Lemma lifecycle_split symbol p points :
  lifecycle_ok symbol p points <-> steps_ok symbol p points /\ (dval (ps_asset_quantity (portfolio (List.last points p))) == 0)%Q.
Proof.
  revert p. induction points as [|q rest IH]; intros p; [by split; [|intros []]|]. cbn [lifecycle_ok steps_ok]. rewrite IH.
  destruct rest as [|x rest]; [cbn [List.last]; tauto|]. rewrite (last_default x rest q p). change (List.last (q :: x :: rest) p) with (List.last (x :: rest) p). tauto.
Qed.

Definition exit_count (refs : list fill_reference) : Z := Z.of_nat (length (List.filter (fun r => negb (is_entry r)) refs)).

Lemma exits_count fills : exits fills = exit_count (map cf_reference fills).
Proof. unfold exits, exit_count. induction fills as [|f fs IH]; [done|]. cbn [fold_right map List.filter]. rewrite IH. destruct (is_entry (cf_reference f)); cbn [negb length]; lia. Qed.

Lemma exits_rev fills : exits (rev fills) = exits fills.
Proof. induction fills as [|f fs IH]; [done|]. cbn [rev]. rewrite exits_app, IH. unfold exits. cbn [fold_right]. lia. Qed.

Section Curve.
Context (i : strategy_identity) (f : evaluator) (ds : accepted_dataset) (c : dec).
Hypothesis Hspec : spec_valid (ds_spec ds).
Hypothesis Hcash : cash_decimal (ds_spec ds) = Ok c.

Definition within (s : run_state) : Prop := Z.of_nat (length (rn_fills s)) <= FILL_BOUND.

Lemma run_books s : run_inv (ds_spec ds) s -> within s -> ledger_inv (dval c) (rn_ledger s).
Proof using Hspec Hcash.
  intros [Hr Ha _] Hn. apply (reachable_books (ds_spec ds) c Hspec Hcash); [done|]. by rewrite Ha, length_rev.
Qed.

Lemma run_shows s mark p : run_inv (ds_spec ds) s -> within s -> snapshot (ds_spec ds) (rn_ledger s) mark = Ok p -> shows (ds_spec ds) (rn_ledger s) p.
Proof using Hspec Hcash.
  intros [Hr Ha _] Hn. apply (snapshot_shows (ds_spec ds) c Hspec Hcash); [done|]. by rewrite Ha, length_rev.
Qed.

(** A step grows the ledger by its fills, two at most, and samples it when it is not the first. *)
Lemma step_grows first ev s t : run_inv (ds_spec ds) s -> within t -> candidate_step i f ds first ev s = Ok t ->
  run_inv (ds_spec ds) t /\ (exists costed tr, rn_fills t = rn_fills s ++ costed /\ rn_trace t = rn_trace s ++ [tr] /\ dt_fills tr = map cf_reference costed
    /\ _applied (rn_ledger t) = rev costed ++ _applied (rn_ledger s) /\ 0 <= exits costed <= 1)
  /\ (if first then rn_points t = rn_points s
      else exists p, rn_points t = rn_points s ++ [p] /\ ep_time_ms p = ev_decision_time_ms ev /\ shows (ds_spec ds) (rn_ledger t) (portfolio p)).
Proof using Hspec Hcash.
  intros Hi Hn H. destruct (step_inv i f ds Hspec _ _ _ _ Hi H) as (Ht & _ & _ & _).
  destruct (step_parts _ _ _ _ _ _ _ H) as [(c1 & d & step & l & costed & points & Hd & Hs & Hp & E1 & E2 & E3 & E4)].
  destruct (decided_fills _ _ _ _ _ _ _ _ _ Hd) as [Hv Hlen]. destruct (settle_ok _ _ _ _ _ Hspec Hv Hs) as (Hm & Hf & Hap & _). rewrite <- E1 in Hap.
  split; [done|]. split.
  - exists costed, (DecisionTrace (ev_sequence ev) (ev_decision_time_ms ev) (sd_action d) (sd_reason d) (context_sha256 (sd_context d)) (map cf_reference costed)).
    pose proof (run_books t Ht Hn) as I. pose proof (li_fills _ _ I) as F. pose proof (li_alternating _ _ I) as A. rewrite Hap in F, A.
    split_and!; try done; [apply exits_nonneg|]. rewrite <- exits_rev. apply (two_fills_exit _ _ F A). rewrite length_rev. by rewrite <- Hm, length_map in Hlen.
  - destruct first; [by rewrite E3, Hp, app_nil_r|]. destruct Hp as (p & Hp & ->). exists p. split; [done|]. unfold sample, new_point in Hp.
    apply rbind_ok in Hp as (q & Hq & Hp). apply raise_if_ok in Hp as [_ Hp]. apply Ok_inj in Hp. subst p. split; [done|]. rewrite <- E1 in Hq.
    exact (run_shows t _ _ Ht Hn Hq).
Qed.

Lemma loop_fills first events s t : run_inv (ds_spec ds) s -> candidate_loop i f ds first events s = Ok t -> run_inv (ds_spec ds) t /\
  (length (rn_fills s) <= length (rn_fills t))%nat /\ exists more, rn_trace t = rn_trace s ++ more.
Proof using Hspec.
  revert first s. induction events as [|ev rest IH]; intros first s Hi H; cbn [candidate_loop] in H.
  - apply Ok_inj in H. subst t. split; [done|]. split; [done|]. exists []. by rewrite app_nil_r.
  - apply rbind_ok in H as (s1 & H1 & H). destruct (step_inv i f ds Hspec _ _ _ _ Hi H1) as (I1 & _).
    destruct (step_parts _ _ _ _ _ _ _ H1) as [(c1 & d & step & l & costed & points & _ & _ & _ & _ & E2 & _ & E4)].
    destruct (IH false s1 I1 H) as (I2 & N2 & more & T2). split; [done|]. rewrite E2, length_app in N2. split; [lia|]. rewrite T2, E4, <- app_assoc. by eexists.
Qed.

(** The points after the first: each follows its predecessor legally. *)
Lemma loop_curve events s t p : run_inv (ds_spec ds) s -> within t -> shows (ds_spec ds) (rn_ledger s) (portfolio p) ->
  StronglySorted Z.lt (ep_time_ms p :: map ev_decision_time_ms events) -> candidate_loop i f ds false events s = Ok t ->
  exists more, rn_points t = rn_points s ++ more /\ steps_ok (bs_symbol (ds_spec ds)) p more
    /\ shows (ds_spec ds) (rn_ledger t) (portfolio (List.last more p)) /\ map ep_time_ms more = map ev_decision_time_ms events.
Proof using Hspec Hcash.
  revert s p. induction events as [|ev rest IH]; intros s p Hi Hn Hp Hsort H; cbn [candidate_loop] in H.
  - apply Ok_inj in H. subst t. exists []. split; [by rewrite app_nil_r|]. done.
  - apply rbind_ok in H as (s1 & H1 & H). destruct (step_inv i f ds Hspec _ _ _ _ Hi H1) as (I1 & _). destruct (loop_fills _ _ _ _ I1 H) as (_ & N1 & _).
    assert (within s1) as Hn1 by (unfold within in *; lia).
    destruct (step_grows false ev s s1 Hi Hn1 H1) as (_ & (costed & tr & F1 & _ & _ & Hap & He) & q & P1 & T1 & S1).
    cbn [map] in Hsort. apply StronglySorted_inv in Hsort as [Hsort Hlt]. apply Forall_cons in Hlt as [Hlt _].
    destruct (IH s1 q I1 Hn S1 ltac:(by rewrite T1) H) as (more & Pm & Sm & Lm & Tm). exists (q :: more).
    assert (within s) as Hn0 by (unfold within in *; rewrite F1, length_app in Hn1; lia).
    split; [by rewrite Pm, P1, <- app_assoc|]. split; [split; [|exact Sm]|split].
    + apply (grown_step_ok _ _ (rev costed) _ _ p q (run_books s Hi Hn0) (run_books s1 I1 Hn1) Hap Hp S1 ltac:(lia)). rewrite exits_rev. lia.
    + destruct more as [|x more]; [done|]. change (List.last (q :: x :: more) p) with (List.last (x :: more) p). by rewrite (last_default x more p q).
    + cbn [map]. by rewrite T1, Tm.
Qed.
End Curve.

(** The fills of the first two bars, which the curve samples only once, and their exits. *)
Definition early_exits (s : run_state) : Z := exit_count (concat (map dt_fills (take 2 (rn_trace s)))).

Lemma exit_count_app l l' : exit_count (l ++ l') = exit_count l + exit_count l'.
Proof. unfold exit_count. rewrite List.filter_app, length_app. lia. Qed.

Lemma first_curve i f ds c e1 e2 rest s t p : spec_valid (ds_spec ds) -> cash_decimal (ds_spec ds) = Ok c -> run_inv (ds_spec ds) s -> within t ->
  rn_trace s = [] -> shows (ds_spec ds) (rn_ledger s) (portfolio p) -> ep_time_ms p = ev_decision_time_ms e1 ->
  StronglySorted Z.lt (map ev_decision_time_ms (e1 :: e2 :: rest)) -> candidate_loop i f ds true (e1 :: e2 :: rest) s = Ok t ->
  exists more, rn_points t = rn_points s ++ more /\ (steps_ok (bs_symbol (ds_spec ds)) p more <-> early_exits t <= 1)
    /\ shows (ds_spec ds) (rn_ledger t) (portfolio (List.last more p)) /\ map ep_time_ms more = map ev_decision_time_ms (e2 :: rest).
Proof.
  intros Hs Hc Hi Hn Htr Hp Htime Hsort H. cbn [candidate_loop] in H. apply rbind_ok in H as (s1 & H1 & H). apply rbind_ok in H as (s2 & H2 & H).
  destruct (step_inv i f ds Hs _ _ _ _ Hi H1) as (I1 & _). destruct (step_inv i f ds Hs _ _ _ _ I1 H2) as (I2 & _).
  destruct (loop_fills i f ds Hs _ _ _ _ I2 H) as (_ & N2 & more_tr & T2). assert (within s2) as Hn2 by (unfold within in *; lia).
  destruct (step_grows i f ds c Hs Hc false e2 s1 s2 I1 Hn2 H2) as (_ & (costed2 & tr2 & F2 & TR2 & DT2 & Ap2 & E2) & q & P2 & Q2 & S2).
  assert (within s1) as Hn1 by (unfold within in *; rewrite F2, length_app in Hn2; lia).
  destruct (step_grows i f ds c Hs Hc true e1 s s1 Hi Hn1 H1) as (_ & (costed1 & tr1 & F1 & TR1 & DT1 & Ap1 & E1) & P1).
  assert (within s) as Hn0 by (unfold within in *; rewrite F1, length_app in Hn1; lia).
  cbn [map] in Hsort. apply StronglySorted_inv in Hsort as [Hsort Hlt]. apply Forall_cons in Hlt as [Hlt _].
  destruct (loop_curve i f ds c Hs Hc rest s2 t q I2 Hn S2 ltac:(by rewrite Q2) H) as (more & Pm & Sm & Lm & Tm). exists (q :: more).
  split; [by rewrite Pm, P2, P1, <- app_assoc|]. split; [|split; [|cbn [map]; by rewrite Q2, Tm]].
  - assert (early_exits t = exits (rev costed2 ++ rev costed1)) as ->.
    { unfold early_exits. rewrite T2, TR2, TR1, Htr. cbn [app take map concat]. rewrite DT1, DT2, app_nil_r, exit_count_app, <- !exits_count, exits_app, !exits_rev. lia. }
    cbn [steps_ok]. rewrite <- (grown_step_ok (ds_spec ds) c (rev costed2 ++ rev costed1) _ _ p q (run_books ds c Hs Hc s Hi Hn0) (run_books ds c Hs Hc s2 I2 Hn2)
      ltac:(by rewrite Ap2, Ap1, app_assoc) Hp S2 ltac:(lia)). tauto.
  - destruct more as [|x more]; [done|]. change (List.last (q :: x :: more) p) with (List.last (x :: more) p). by rewrite (last_default x more p q).
Qed.

(** ** The log of a loop *)

Lemma protective_log sym ev bar st st' o : _protective_exit sym ev bar st = (st', Ok o) ->
  trade_log (quantity <$> st) (opt_list o) = Some (quantity <$> st') /\ Forall (fun f => fill_time_ms f = eligible_fill_open_time_ms ev) (opt_list o).
Proof.
  unfold _protective_exit, sbind, sget, slift, sput, sret. destruct st as [p|]; [|intros [= <- <-]; by split].
  destruct (protective_level p bar) as [[[price reason]|]|e]; [|intros [= <- <-]; by split|done].
  unfold _reference, new_reference. destruct (reference_post_init _) as [[]|e]; [|done]. cbn [rbind]. intros [= <- <-]. split; [|by repeat constructor].
  cbn. by rewrite String.eqb_refl.
Qed.

(** The fills of the engine continue its trade log, whatever its inputs. *)
Lemma process_log sym ev i bar st st' fills : process sym ev i bar st = (st', Ok fills) ->
  trade_log (quantity <$> st) fills = Some (quantity <$> st') /\ Forall (fun f => fill_time_ms f = eligible_fill_open_time_ms ev) fills.
Proof.
  unfold process. destruct (_ || _); [done|]. intros H. apply srollback_ok in H. unfold process_body in H.
  apply sbind_ok in H as (s1 & l & Hl & H). unfold slift in H. apply sbind_ok in H as (s2 & over & Ho & H). injection Ho as <- _.
  destruct over; [done|]. injection H as <- <-. destruct (pi_action i).
  - apply sbind_ok in Hl as (s3 & o & Hp & Hl). injection Hl as <- <-. exact (protective_log _ _ _ _ _ _ Hp).
  - unfold enter_steps in Hl. apply sbind_ok in Hl as (s3 & o & Hp & Hl). injection Hp as <- <-. destruct st as [p|]; [done|]. cbn [has_position opt_is_none negb] in Hl.
    apply sbind_ok in Hl as (s4 & opened & E4 & Hl). injection E4 as <- _.
    destruct (pi_quantity i) as [q|], (pi_stop_price i) as [s|], (pi_target_price i) as [t|]; try done.
    apply sbind_ok in Hl as (s5 & stop & E5 & Hl). injection E5 as <- _. apply sbind_ok in Hl as (s6 & target & E6 & Hl). injection E6 as <- _.
    destruct (negb _) in Hl; [done|]. apply sbind_ok in Hl as (s7 & [] & E7 & Hl). injection E7 as <-. apply sbind_ok in Hl as (s8 & r & E8 & Hl).
    unfold slift in E8. injection E8 as <- Er. apply sbind_ok in Hl as (s9 & o & E9 & Hl). injection Hl as <- <-.
    unfold _reference, new_reference in Er. apply rbind_ok in Er as ([] & _ & Er). apply Ok_inj in Er. subst r.
    destruct (protective_log _ _ _ _ _ _ E9) as [L F]. split; [exact L|by constructor].
  - unfold exit_steps, sbind, sget in Hl. destruct st as [p|]; [|done]. unfold slift, sput, sret, _reference, new_reference in Hl.
    destruct (reference_post_init _) as [[]|e]; [|done]. cbn [rbind] in Hl. injection Hl as <- <-. split; [|by repeat constructor]. cbn. by rewrite String.eqb_refl.
Qed.

Lemma adapter_log ev d bar a b s : signal_process ev d bar a = (b, Ok s) ->
  trade_log (quantity <$> sg_engine a) (st_fills s) = Some (quantity <$> sg_engine b)
  /\ sg_has_position b = has_position (sg_engine b) /\ Forall (fun f => fill_time_ms f = eligible_fill_open_time_ms ev) (st_fills s).
Proof.
  unfold signal_process. intros H. apply sbind_ok in H as (a1 & a2 & E & H). injection E as <- <-. unfold slift in H.
  apply sbind_ok in H as (a3 & [] & E & H). injection E as <- _. apply sbind_ok in H as (a4 & i & E & H). injection E as <- _.
  apply sbind_ok in H as (a5 & fills & Hf & H). apply sbind_ok in H as (a6 & [] & E & H). injection E as <- _.
  apply sbind_ok in H as (a7 & a8 & E & H). injection E as <- <-. apply sbind_ok in H as (a9 & [] & E & H). injection E as <-.
  destruct (Bool.eqb _ _) eqn:Eb in H; [|done]. cbn [negb] in H. apply sbind_ok in H as (a10 & [] & E & H). injection E as <-. injection H as <- <-.
  unfold signal_engine in Hf. destruct (process _ _ _ _ _) as [e out] eqn:Ep. injection Hf as <- Hf. apply rcatch_ok in Hf. subst out.
  apply process_log in Ep as [L F]. cbn [st_fills]. match goal with |- context [set_last _ _ ?y] => set (x := y) in * end.
  assert (sg_engine x = e) as Ex by (unfold x; repeat case_match; reflexivity).
  change (sg_engine (set_last _ _ x)) with (sg_engine x). change (sg_has_position (set_last _ _ x)) with (sg_has_position x).
  split; [by rewrite Ex|]. split; [by apply eqb_prop|exact F].
Qed.

(** The log of a run ends with the adapter's position, and its fills are at the opens the events name. *)
Record run_log (s : run_state) : Prop := {
  lg_log : trade_log None (map cf_reference (rn_fills s)) = Some (quantity <$> sg_engine (rn_adapter s));
  lg_position : sg_has_position (rn_adapter s) = has_position (sg_engine (rn_adapter s));
}.

Lemma loop_log i f ds first events s t (P : Z -> Prop) : spec_valid (ds_spec ds) -> run_log s ->
  Forall (fun x => P (fill_time_ms (cf_reference x))) (rn_fills s) -> Forall (fun ev => P (eligible_fill_open_time_ms ev)) events ->
  candidate_loop i f ds first events s = Ok t -> run_log t /\ Forall (fun x => P (fill_time_ms (cf_reference x))) (rn_fills t).
Proof.
  intros Hspec. revert first s. induction events as [|ev rest IH]; intros first s Hl Hp Hev H; cbn [candidate_loop] in H; [apply Ok_inj in H; by subst|].
  apply Forall_cons in Hev as [Hev Hrest]. apply rbind_ok in H as (s1 & H1 & H).
  destruct (step_parts _ _ _ _ _ _ _ H1) as [(c & d & step & l & costed & points & Hd & Hs & _ & _ & E2 & _)].
  destruct (decided_fills _ _ _ _ _ _ _ _ _ Hd) as [Hv _]. destruct (settle_ok _ _ _ _ _ Hspec Hv Hs) as (Hm & _).
  apply decided_process, adapter_log in Hd as (L & Hpos & F). apply (IH false s1); [|rewrite E2; apply Forall_app; split; [done|]|done|done].
  - constructor; [|exact Hpos]. rewrite E2, map_app, Hm. rewrite (trade_log_app _ _ _ _ (lg_log _ Hl)). exact L.
  - rewrite <- Hm in F. apply Forall_map in F. eapply Forall_impl; [exact F|]. intros x Hx. cbn in Hx. by rewrite Hx.
Qed.

(** ** Completed trades *)

Definition gross_part (v : cost_values) : dec := dadd_exact (cash_delta v) (dadd_exact (fee_quote v) (slippage_quote v)).

Lemma gross_total fills : (total gross_part fills == total cash_delta fills + (total fee_quote fills + total slippage_quote fills))%Q.
Proof.
  induction fills as [|f fs IH]; [reflexivity|]. unfold total in *. cbn [fold_right]. rewrite IH. unfold gross_part. rewrite !dval_add_exact. ring.
Qed.

(** The amounts of a fill, and its frictionless cash. *)
Lemma costing_amounts spec f : spec_valid spec -> costing spec f -> exists q p, Decimal (fr_quantity (cf_reference f)) = Ok q
  /\ Decimal (reference_price (cf_reference f)) = Ok p /\ rep 40 40 (dval q) /\ rep 40 40 (dval p)
  /\ (dval (gross_part (cf_values f)) == - side (is_entry (cf_reference f)) * (dval q * dval p))%Q /\ fill_facts f.
Proof.
  intros Hs [Hr Hc]. destruct (costed_reference _ _ _ Hc) as (_ & _ & Sym).
  destruct (apply_costs_exact _ _ Hr Hs Sym) as (q & p & fe & sl & x & Ex & Hv & _ & Efe & Esl & ((Eq & Hq & _) & _) & ((Ep & Hp & _) & _) & _ & _ & Rf & Rs & [_ _ Vf Vs Vc _]).
  rewrite Hc in Ex. apply Ok_inj in Ex. subst x. exists q, p. split; [done|]. split; [done|]. split; [by eapply plain_rep|]. split; [by eapply plain_rep|].
  split; [|apply costed_facts; [done|by rewrite Efe|by rewrite Esl]]. unfold gross_part. rewrite !dval_add_exact, Vf, Vs, Vc, cash_identity. ring.
Qed.

(** A text of a trade that reads as the sum of its two fills. *)
Definition reads_pair (sel : cost_values -> dec) (text : string) (e f : costed_fill) : Prop :=
  exists d, Decimal text = Ok d /\ (dval d == dval (sel (cf_values e)) + dval (sel (cf_values f)))%Q.

Lemma sum_reads sel (a : dec) e f : (dval a == dval (sel (cf_values e)) + dval (sel (cf_values f)))%Q -> reads_pair sel (format_f a) e f.
Proof. intros H. destruct (format_reads a) as (d & E & _ & _ & V & _). exists d. split; [done|]. by rewrite V. Qed.

Record trade_facts (t : trade) (e f : costed_fill) : Prop := {
  tf_gross : reads_pair gross_part (tr_gross_pnl_quote t) e f;
  tf_net : reads_pair cash_delta (tr_net_pnl_quote t) e f;
  tf_fee : reads_pair fee_quote (tr_fee_quote t) e f;
  tf_slippage : reads_pair slippage_quote (tr_slippage_quote t) e f;
}.

Lemma pair_rep v w : rep 82 168 v -> rep 82 168 w -> rep 83 168 (v + w).
Proof. apply (rep_plus 82 168 82 168). Qed.

Lemma completed_ok spec e f : spec_valid spec -> costing spec e -> costing spec f -> is_entry (cf_reference e) = true -> is_entry (cf_reference f) = false ->
  fr_quantity (cf_reference e) = fr_quantity (cf_reference f) -> exists t, completed e f = Ok t /\ trade_facts t e f.
Proof.
  intros Hs He Hf Ee Ef Eq. destruct (costing_amounts _ _ Hs He) as (q & pe & Dq & Dpe & Rq & Rpe & Ge & Fe).
  destruct (costing_amounts _ _ Hs Hf) as (q' & pf & Dq' & Dpf & _ & Rpf & Gf & Ff). rewrite <- Eq, Dq in Dq'. apply Ok_inj in Dq'. subst q'.
  rewrite Ee in Ge. rewrite Ef in Gf. unfold completed. rewrite Dpf, Dpe, Dq. cbn [rbind]. eexists. split; [reflexivity|].
  assert (forall sel, rep 82 168 (dval (sel (cf_values e))) -> rep 82 168 (dval (sel (cf_values f))) ->
    (dval (dadd MP (sel (cf_values e)) (sel (cf_values f))) == dval (sel (cf_values e)) + dval (sel (cf_values f)))%Q) as Add.
  { intros sel R1 R2. apply (dadd_val (i:=83) (f:=168)); [done|done|by apply pair_rep]. }
  constructor; cbn [tr_gross_pnl_quote tr_net_pnl_quote tr_fee_quote tr_slippage_quote].
  - apply sum_reads. rewrite Ge, Gf. change (side true) with 1%Q. change (side false) with (-1)%Q.
    assert (dval (dsub MP pf pe) == dval pf - dval pe)%Q as Vs by (apply (dsub_val (i:=41) (f:=40)); [done|done|by apply (rep_minus 40 40 40 40)]).
    rewrite (dmul_val (i:=81) (f:=80)); rewrite ?Vs; [ring|done|done|]. apply (rep_mult 41 40 40 40); [by apply (rep_minus 40 40 40 40)|done].
  - apply sum_reads, (Add cash_delta); [apply Fe|apply Ff].
  - apply sum_reads, (Add fee_quote); [apply Fe|apply Ff].
  - apply sum_reads, (Add slippage_quote); [apply Fe|apply Ff].
Qed.

(** The texts under a key sum up, exactly, to the total of the fills. *)
Definition sums (key : trade -> string) (sel : cost_values -> dec) (trades : list trade) (fills : list costed_fill) : Prop :=
  forall acc before, Forall (fun f => rep 82 168 (dval (sel (cf_values f)))) (before ++ fills) -> Z.of_nat (length (before ++ fills)) <= FILL_BOUND ->
    (dval acc == total sel before)%Q ->
    exists l, rmap (fun t => Decimal (key t)) trades = Ok l /\ (dval (dsum MP acc l) == total sel (before ++ fills))%Q.

Lemma sums_nil key sel : sums key sel [] [].
Proof. intros acc before _ _ E. exists []. split; [done|]. by rewrite app_nil_r. Qed.

Lemma sums_cons key sel t trades e f fills : reads_pair sel (key t) e f -> sums key sel trades fills -> sums key sel (t :: trades) (e :: f :: fills).
Proof.
  intros (d & Ed & Vd) IH acc before Hr Hn Ea. change (e :: f :: fills) with ([e; f] ++ fills) in *. rewrite app_assoc in *.
  assert (dval (dadd MP acc d) == total sel (before ++ [e; f]))%Q as Va.
  { assert (dval acc + dval d == total sel (before ++ [e; f]))%Q as E by (rewrite Ea, Vd, total_app; unfold total; cbn [fold_right]; ring).
    rewrite (dadd_val (i:=88) (f:=168)); [exact E|done|done|]. rewrite E. apply total_rep; [by apply Forall_app in Hr as [? _]|].
    rewrite length_app in Hn. lia. }
  destruct (IH (dadd MP acc d) (before ++ [e; f]) Hr Hn Va) as (l & El & Vl). exists (d :: l). cbn [rmap]. rewrite Ed, El. by split.
Qed.

Record trades_facts (trades : list trade) (fills : list costed_fill) : Prop := {
  ts_count : Z.of_nat (length trades) = exits fills;
  ts_gross : sums tr_gross_pnl_quote gross_part trades fills;
  ts_net : sums tr_net_pnl_quote cash_delta trades fills;
  ts_fee : sums tr_fee_quote fee_quote trades fills;
  ts_slippage : sums tr_slippage_quote slippage_quote trades fills;
}.

(** Neighbours of a list in order. *)
Definition adjacent (fills : list costed_fill) : Prop :=
  forall a x y b, fills = a ++ x :: y :: b -> fill_time_ms (cf_reference x) <= fill_time_ms (cf_reference y).

Lemma history_adjacent fills : history_ok (rev fills) -> adjacent fills.
Proof.
  intros H a x y b ->. rewrite rev_app_distr in H. cbn [rev] in H. rewrite <- !app_assoc in H. cbn [app] in H. revert H. generalize (rev b). intros l.
  induction l as [|z l IH]; cbn [app history_ok]; [intros (_ & _ & H & _); exact H|]. intros (_ & _ & _ & H). by apply IH.
Qed.

(** A complete log pairs every entry with the exit after it. *)
Lemma log_pairs refs : trade_log None refs = Some None -> refs = [] \/ exists e f rest, refs = e :: f :: rest
  /\ is_entry e = true /\ is_entry f = false /\ fr_quantity e = fr_quantity f /\ trade_log None rest = Some None.
Proof.
  unfold is_entry. destruct refs as [|e [|f rest]]; [by left|cbn; by destruct (fr_action e)|]. cbn [trade_log]. intros H. right. exists e, f, rest.
  destruct (fr_action e); try done. destruct (fr_action f); try done. destruct (String.eqb_spec (fr_quantity f) (fr_quantity e)) as [E|E]; [|done].
  by split_and!.
Qed.

Lemma trades_loop_ok spec fills : spec_valid spec -> Forall (costing spec) fills -> trade_log None (map cf_reference fills) = Some None -> adjacent fills ->
  exists trades, trades_loop (bs_symbol spec) None fills = Ok (None, trades) /\ trades_facts trades fills.
Proof.
  intros Hs. remember (length fills) as n eqn:En. revert fills En. induction (lt_wf n) as [n _ IH]. intros fills -> Hc Hl Ha.
  apply log_pairs in Hl as [E|(re & rf & rest & E & Ee & Ef & Eq & Hl)].
  - destruct fills; [|done]. exists []. split; [done|]. constructor; [done|apply sums_nil..].
  - destruct fills as [|e [|f fills]]; try done. cbn [map] in E. injection E as <- <- <-. apply Forall_cons in Hc as [He Hc]. apply Forall_cons in Hc as [Hf Hc].
    destruct (IH (length fills) ltac:(simpl; lia) fills eq_refl Hc Hl) as (trades & Et & [T1 T2 T3 T4 T5]).
    { intros a x y b ->. by apply (Ha (e :: f :: a) x y b). }
    destruct (completed_ok _ _ _ Hs He Hf Ee Ef Eq) as (t & Ec & [F1 F2 F3 F4]). exists (t :: trades). split.
    + destruct (costed_reference _ _ _ (proj2 He)) as (_ & _ & S1), (costed_reference _ _ _ (proj2 Hf)) as (_ & _ & S2).
      cbn [trades_loop]. rewrite S1, S2, String.eqb_refl, Ee, Ef, Eq, String.eqb_refl. cbn [negb opt_is_none orb].
      specialize (Ha [] e f fills eq_refl). replace (_ <? _) with false by lia. rewrite Ec, Et. reflexivity.
    + constructor; [|by apply sums_cons..]. rewrite exits_count in T1 |- *. cbn [map length]. unfold exit_count in *. cbn [List.filter]. rewrite Ee, Ef.
      cbn [negb length]. lia.
Qed.

Lemma gross_reps spec fills : spec_valid spec -> Forall (costing spec) fills -> Forall (fun f => rep 82 168 (dval (gross_part (cf_values f)))) fills.
Proof.
  intros Hs Hc. eapply Forall_impl; [exact Hc|]. intros f Hf. cbn. destruct (costing_amounts _ _ Hs Hf) as (q & p & _ & _ & Rq & Rp & -> & _).
  apply (rep_weaken 80 80); [|done|done]. pose proof (rep_mult 40 40 40 40 _ _ Rq Rp) as R.
  assert (- side (is_entry (cf_reference f)) * (dval q * dval p) == - (side (is_entry (cf_reference f)) * (dval q * dval p)))%Q as -> by ring.
  apply rep_opp. by apply side_mult_rep.
Qed.

(** The trades of a finished run reconcile with its metrics. *)
Lemma trades_reconcile spec s r : spec_valid spec -> Forall (costing spec) (rn_fills s) -> trade_log None (map cf_reference (rn_fills s)) = Some None ->
  history_ok (rev (rn_fills s)) -> Z.of_nat (length (rn_fills s)) <= FILL_BOUND -> _applied (rn_ledger s) = rev (rn_fills s) ->
  point_symbol r = bs_symbol spec -> run_numbers s (pr_values r) -> exists trades, _trades (rn_fills s) r = Ok trades.
Proof.
  intros Hs Hc Hl Hh Hn Ha Hsym [N1 N2 N3 N4 N5 N6 N7 N8]. rewrite Ha in *. rewrite ?total_rev in *.
  destruct (trades_loop_ok spec _ Hs Hc Hl (history_adjacent _ Hh)) as (trades & Et & [T1 T2 T3 T4 T5]). exists trades. unfold _trades. rewrite Hsym, Et. cbn [rbind snd fst].
  rewrite T1, N7, exits_rev, Z.eqb_refl. cbn [opt_is_none negb orb].
  assert (Forall fill_facts (rn_fills s)) as Hf.
  { eapply Forall_impl; [exact Hc|]. intros f Hx. by destruct (costing_amounts _ _ Hs Hx) as (q & p & _ & _ & _ & _ & _ & H). }
  destruct (facts_totals _ Hf) as (R1 & R2 & R3). pose proof (gross_reps _ _ Hs Hc) as R4.
  assert (forall key sel v, sums key sel trades (rn_fills s) -> Forall (fun f => rep 82 168 (dval (sel (cf_values f)))) (rn_fills s) ->
    (dval v == total sel (rn_fills s))%Q -> exists d, trade_sum key trades = Ok d /\ deqb d v = true) as Sum.
  { intros key sel v Hk Hr Hv. destruct (Hk dec0 [] Hr Hn) as (l & El & Vl); [by rewrite dval_0|]. exists (dsum MP dec0 l). unfold trade_sum. rewrite El.
    split; [done|]. apply deqb_spec. by rewrite Vl, Hv. }
  assert (dval (gross_pnl_quote (pr_values r)) == total gross_part (rn_fills s))%Q as Vg.
  { rewrite N1, N5, <- gross_total in N6. exact (faithful_rep 88 168 _ MP _ (total_rep _ _ R4 Hn) ltac:(done) N6). }
  destruct (Sum _ _ _ T2 R4 Vg) as (d1 & -> & B1). cbn [rbind]. destruct (Sum _ _ _ T3 R1 N1) as (d2 & -> & B2). cbn [rbind].
  destruct (Sum _ _ _ T4 R2 N3) as (d3 & -> & B3). cbn [rbind]. destruct (Sum _ _ _ T5 R3 N4) as (d4 & -> & B4). cbn [rbind].
  by rewrite B1, B2, B3, B4.
Qed.

(** ** The run as a whole *)

Lemma range_sorted a b d : 0 < d -> StronglySorted Z.lt (py_range a b d).
Proof.
  intros Hd. unfold py_range. generalize 0%nat at 1, (Z.to_nat ((b - a + d - 1) / d)). intros k n. revert k.
  induction n as [|n IH]; intros k; cbn [seq map]; constructor; [apply IH|]. rewrite Forall_map, Forall_forall. intros j Hj.
  apply list_elem_of_In, in_seq in Hj. nia.
Qed.

(** The events of a clock tick through the whole range. *)
Lemma events_times ds events : _events ds = Ok events ->
  map ev_decision_time_ms events = py_range (start_time_ms (ds_spec ds)) (end_time_ms (ds_spec ds)) HOUR_MS
  /\ Forall (fun ev => eligible_fill_open_time_ms ev = ev_decision_time_ms ev) events.
Proof.
  unfold _events. intros H. apply rbind_ok in H as (evs & He & H). apply raise_if_ok in H as [_ H]. apply Ok_inj in H. subst evs.
  apply rcatch_ok in He. unfold clock_events in He. apply rmap_ok in He. set (times := py_range _ _ _) in *.
  assert (map snd (combine (seq 0 (length times)) times) = times) as Esnd.
  { clear He. clearbody times. generalize 0%nat. induction times as [|t l IH]; intros k; [done|]. simpl. f_equal. apply IH. }
  rewrite <- Esnd. clear Esnd. induction He as [|[n t] ev l evs Hev _ [IH1 IH2]]; [by split|].
  cbn [fst snd] in Hev. apply rbind_ok in Hev as (s & Hs & Hev). unfold new_event in Hev. apply rbind_ok in Hev as ([] & _ & Hev). apply Ok_inj in Hev.
  subst ev. cbn [map snd ev_decision_time_ms]. by rewrite IH1; split; [|constructor].
Qed.

(** The parts of a run that reached its end. *)
Lemma run_loop_parts ds i sealed s : spec_valid (ds_spec ds) -> run_loop ds i = Ok (sealed, s) ->
  exists f e1 e2 rest a l p mark, ds_spec sealed = ds_spec ds /\ _events sealed = Ok (e1 :: e2 :: rest) /\ sg_engine a = None /\ sg_active_setup a = None
    /\ new_ledger (ds_spec ds) = Ok l /\ snapshot (ds_spec ds) l mark = Ok (portfolio p) /\ ep_time_ms p = ev_decision_time_ms e1
    /\ candidate_loop i f sealed true (e1 :: e2 :: rest) (RunState a l [] [] [p]) = Ok s.
Proof.
  intros Hs H. unfold run_loop in H. apply rbind_ok in H as (sd & Hsd & H). apply rbind_ok in H as (c & _ & H). apply rbind_ok in H as (events & He & H).
  apply raise_if_ok in H as [_ H]. apply rbind_ok in H as (a & Ha & H). apply rbind_ok in H as (l & Hl & H). destruct (sealed_spec _ _ Hsd) as [Es _].
  pose proof He as Hb. apply events_bound in Hb as [B1 _]; [|by rewrite Es]. destruct events as [|e1 [|e2 rest]]; [done|simpl in B1; lia|].
  apply rbind_ok in H as (mark & _ & H). apply rbind_ok in H as (p & Hp & H). apply rbind_ok in H as (s1 & H1 & H). apply Ok_inj in H.
  assert (sd = sealed /\ s1 = s) as [-> ->] by (split; congruence). rewrite Es in *. unfold sample, new_point in Hp.
  apply rbind_ok in Hp as (q & Hq & Hp). apply raise_if_ok in Hp as [_ Hp]. apply Ok_inj in Hp. subst p.
  exists (cd_evaluator c), e1, e2, rest, a, l, (EquityPoint (ev_decision_time_ms e1) q), (close mark). unfold new_signal_adapter, new_engine in Ha.
  apply raise_if_ok in Ha as [_ Ha]. apply raise_if_ok in Ha as [_ Ha]. apply rbind_ok in Ha as (e & E & Ha). apply raise_if_ok in E as [_ E]. apply Ok_inj in E, Ha.
  subst e a. by split_and!.
Qed.

Lemma log_last h l f h' : trade_log h (l ++ [f]) = Some h' -> is_entry f = negb (opt_is_none h').
Proof.
  revert h. induction l as [|g l IH]; intros h; cbn [app trade_log].
  - unfold is_entry. destruct (fr_action f), h as [q|]; try done; [by intros [= <-]|]. destruct (String.eqb _ _); [by intros [= <-]|done].
  - destruct (fr_action g), h as [q|]; try done; [apply IH|]. destruct (String.eqb _ _); [apply IH|done].
Qed.

(** The adapter and the ledger agree on the position. *)
Lemma positions_agree spec c s : spec_valid spec -> cash_decimal spec = Ok c -> run_inv spec s -> Z.of_nat (length (rn_fills s)) <= FILL_BOUND -> run_log s ->
  sg_has_position (rn_adapter s) = ledger_has_position (rn_ledger s).
Proof.
  intros Hs Hc [Hr Ha Hf] Hn [Hl Hp]. destruct (reachable_books spec c Hs Hc _ Hr) as [Hinv _]; [by rewrite Ha, length_rev|].
  rewrite Hp. pose proof (has_position_spec c _ Hinv) as Hpos. rewrite Ha in Hpos. pose proof (li_fills _ _ Hinv) as Hff. rewrite Ha in Hff.
  assert ((0 < position_asset (rev (rn_fills s)))%Q <-> has_position (sg_engine (rn_adapter s)) = true) as E.
  { destruct (rn_fills s) as [|x l _] using rev_ind.
    - cbn in Hl. injection Hl as Hl. destruct (sg_engine _); [done|]. split; [intros H; exfalso; exact (Qlt_irrefl 0 H)|done].
    - rewrite map_app in Hl. cbn [map] in Hl. apply log_last in Hl. rewrite rev_app_distr in Hff |- *. cbn [rev app position_asset] in *.
      assert (has_position (sg_engine (rn_adapter s)) = is_entry (cf_reference x)) as -> by (rewrite Hl; by destruct (sg_engine _)).
      apply Forall_cons in Hff as [Hx _]. destruct (is_entry _) eqn:Ee; [split; [done|intros _; by apply (ff_entry _ Hx)]|].
      split; [intros H; exfalso; exact (Qlt_irrefl 0 H)|done]. }
  apply eq_true_iff_eq. by rewrite <- E.
Qed.

Lemma metrics_verdict points : match calculate_metrics points with Ok r => curve_ok points | Err e => exn_cls e = MetricsError /\ ~ curve_ok points end.
Proof.
  unfold calculate_metrics. pose proof (validate_curve_spec points) as Hv. destruct (_validate_curve points) as [[start final]|x] eqn:E.
  - destruct Hv as [Hok _]. destruct (calculate_ok points Hok) as (v & Ev & _). rewrite Ev. cbn [rbind]. unfold report_post_init.
    cbn [pr_points pr_values]. rewrite Ev. cbn [rbind]. by rewrite metrics_eqb_refl.
  - unfold _calculate. by rewrite E.
Qed.

Lemma fresh_start spec c l mark p : spec_valid spec -> cash_decimal spec = Ok c -> new_ledger spec = Ok l -> snapshot spec l mark = Ok p -> clean_start p.
Proof.
  intros Hs Hc Hl Hp. assert (reachable spec l) as Hr by by apply reach_new. unfold new_ledger in Hl. rewrite Hc in Hl. cbn [rbind] in Hl. apply Ok_inj in Hl. subst l.
  pose proof (snapshot_shows spec c Hs Hc _ mark p Hr ltac:(done) Hp) as [_ S2 S3 S4 S5 S6 S7]. by constructor; rewrite ?S3, ?S4, ?S5, ?S6, ?S7.
Qed.

(** A finished curve passes exactly when the first two bars closed one trade at most. *)
Lemma curve_verdict symbol p more : clean_start (portfolio p) -> ps_symbol (portfolio p) = symbol ->
  curve_ok (p :: more) <-> steps_ok symbol p more /\ (dval (ps_asset_quantity (portfolio (List.last more p))) == 0)%Q.
Proof. intros Hs <-. cbn [curve_ok]. rewrite lifecycle_split. tauto. Qed.

(** What the end of a run makes of its curve and its manifest. *)
Record reportable (ds sealed : accepted_dataset) (s : run_state) : Prop := {
  rp_positions : sg_has_position (rn_adapter s) = ledger_has_position (rn_ledger s);
  rp_curve : ledger_has_position (rn_ledger s) = false -> curve_ok (rn_points s) <-> early_exits s <= 1;
  rp_log : ledger_has_position (rn_ledger s) = false -> trade_log None (map cf_reference (rn_fills s)) = Some None;
  rp_fills : Forall (fun f => start_time_ms (ds_spec ds) <= fill_time_ms (cf_reference f) < end_time_ms (ds_spec ds)) (rn_fills s);
  rp_first : exists p more, rn_points s = p :: more /\ ps_symbol (portfolio p) = bs_symbol (ds_spec ds)
    /\ Forall (fun t => start_time_ms (ds_spec ds) <= t < end_time_ms (ds_spec ds)) (map ep_time_ms (p :: more));
}.

Lemma run_reportable ds i sealed s : spec_valid (ds_spec ds) -> run_loop ds i = Ok (sealed, s) -> reportable ds sealed s.
Proof.
  intros Hs H. pose proof (run_loop_end _ _ _ _ Hs H) as [_ Hi Hn _ _].
  destruct (run_loop_parts _ _ _ _ Hs H) as (f & e1 & e2 & rest & a & l & p & mark & Es & He & Hen & Hact & Hl & Hp & Htime & Hloop).
  destruct (initial_cash_known _ Hs) as [c Hc]. destruct (events_times _ _ He) as [Ht Hel]. rewrite Es in Ht.
  pose proof (fresh_start _ _ _ _ _ Hs Hc Hl Hp) as Hclean.
  assert (Forall (fun t => start_time_ms (ds_spec ds) <= t < end_time_ms (ds_spec ds)) (map ev_decision_time_ms (e1 :: e2 :: rest))) as Hrange.
  { rewrite Ht, Forall_forall. intros t Hx. apply py_range_elem in Hx; [lia|done]. }
  assert (within s) as Hw by (unfold within, FILL_BOUND; lia).
  assert (run_inv (ds_spec ds) (RunState a l [] [] [p])) as Hi0.
  { constructor; cbn [rn_ledger rn_fills]; [by apply reach_new| |constructor]. unfold new_ledger in Hl. rewrite Hc in Hl. apply Ok_inj in Hl. by subst l. }
  assert (shows (ds_spec ds) l (portfolio p)) as Hsh.
  { pose proof (run_shows sealed c ltac:(by rewrite Es) ltac:(by rewrite Es) (RunState a l [] [] [p]) mark (portfolio p)) as S. rewrite Es in S.
    apply S; [exact Hi0|done|exact Hp]. }
  pose proof (range_sorted (start_time_ms (ds_spec ds)) (end_time_ms (ds_spec ds)) HOUR_MS ltac:(done)) as Hsort. rewrite <- Ht in Hsort.
  pose proof (first_curve i f sealed c e1 e2 rest (RunState a l [] [] [p]) s p ltac:(by rewrite Es) ltac:(by rewrite Es)) as Hcurve. rewrite Es in Hcurve.
  destruct (Hcurve Hi0 Hw eq_refl Hsh Htime Hsort Hloop) as (more & Pm & Sm & Lm & Tm). cbn [rn_points app] in Pm.
  assert (run_log (RunState a l [] [] [p])) as Hlog0.
  { constructor; cbn [rn_adapter rn_fills map]; [by rewrite Hen|]. unfold sg_has_position. by rewrite Hen, Hact. }
  destruct (loop_log i f sealed true _ _ s (fun t => start_time_ms (ds_spec ds) <= t < end_time_ms (ds_spec ds)) ltac:(by rewrite Es) Hlog0 ltac:(constructor)
    ltac:(rewrite Forall_map in Hrange; rewrite Forall_forall in Hrange, Hel |- *; intros ev Hx; rewrite (Hel ev Hx); exact (Hrange ev Hx)) Hloop) as [Hlog Hft].
  pose proof (positions_agree (ds_spec ds) c s Hs Hc Hi Hw Hlog) as Hpos. constructor; [exact Hpos| | |exact Hft|].
  - intros Hflat. rewrite Pm, (curve_verdict (bs_symbol (ds_spec ds)) p more Hclean (sh_symbol _ _ _ Hsh)), (sh_asset _ _ _ Lm), Sm.
    assert (ledger_inv (dval c) (rn_ledger s)) as Hinv.
    { apply (run_books sealed c); rewrite ?Es; [exact Hs|exact Hc|exact Hi|exact Hw]. }
    assert (dval (asset_quantity (rn_ledger s)) == 0)%Q as Z0; [|tauto]. unfold ledger_has_position in Hflat. apply dltb_false in Hflat. rewrite dval_0 in Hflat.
    apply Qle_antisym; [done|]. rewrite (li_asset _ _ Hinv). apply (position_signs _ (li_fills _ _ Hinv)).
  - intros Hflat. rewrite (lg_log _ Hlog). rewrite Hflat, (lg_position _ Hlog) in Hpos. destruct (sg_engine (rn_adapter s)); [discriminate Hpos|reflexivity].
  - exists p, more. split; [exact Pm|]. split; [apply Hsh|]. cbn [map]. rewrite Htime, Tm. exact Hrange.
Qed.

(** C24. A run that reaches its end reports.  After the last event of any run the
    adapter and the ledger agree on the position.  When it is flat, the metrics
    accept the curve exactly when the first two bars closed one trade at most
    (the curve is sampled before the first bar and then after the second), and
    whenever they do, the trades pair up, sum exactly to the reported gross
    and net results and costs, lie in the range, and the manifest is built;
    otherwise the run ends with a MetricsError. *)
Theorem finished_runs_report ds i sealed s data (Hspec : spec_valid (ds_spec ds)) (Hrun : run_loop ds i = Ok (sealed, s)) (Hdata : _data sealed = Ok data) :
  sg_has_position (rn_adapter s) = ledger_has_position (rn_ledger s)
  /\ (sg_has_position (rn_adapter s) = false ->
      match calculate_metrics (rn_points s) with
      | Ok r => early_exits s <= 1 /\ exists manifest, build_run_manifest sealed (rn_fills s) r = Ok manifest
      | Err e => exn_cls e = MetricsError /\ 1 < early_exits s
      end).
Proof.
  destruct (run_reportable _ _ _ _ Hspec Hrun) as [Hpos Hcurve Hlog Hft (p & more & Pm & Hsym & Hrange)]. split; [exact Hpos|]. intros Hflat. rewrite Hpos in Hflat.
  specialize (Hcurve Hflat). specialize (Hlog Hflat). pose proof (metrics_verdict (rn_points s)) as Hv.
  destruct (calculate_metrics (rn_points s)) as [r|e] eqn:Em; [|split; [apply Hv|]; destruct Hv as [_ Hv]; rewrite Hcurve in Hv; lia].
  split; [by apply Hcurve|]. destruct (metrics_ok _ _ Em) as [Epts _]. pose proof (run_loop_end _ _ _ _ Hspec Hrun) as Hend.
  pose proof (run_numbers_ok _ _ _ _ Hspec Hend Hflat Em) as Hnum. destruct Hend as [Hsealed [Hr Ha Hc] Hn _ _]. destruct (initial_cash_known _ Hspec) as [c Hcash].
  assert (Z.of_nat (length (rn_fills s)) <= FILL_BOUND) as Hb by (unfold FILL_BOUND; lia).
  destruct (reachable_books _ c Hspec Hcash _ Hr) as [_ Hh]; [by rewrite Ha, length_rev|]. rewrite Ha in Hh.
  assert (point_symbol r = bs_symbol (ds_spec ds)) as Hps by (unfold point_symbol; by rewrite Epts, Pm).
  destruct (trades_reconcile _ _ _ Hspec Hc Hlog Hh Hb Ha Hps Hnum) as (trades & Et).
  destruct (sealed_spec _ _ Hsealed) as [Es _]. unfold build_run_manifest. rewrite Epts, Pm, last_of_cons, Es, Hsym, String.eqb_refl. cbn [negb].
  assert ((ep_time_ms p <? start_time_ms (ds_spec ds)) || (end_time_ms (ds_spec ds) <=? ep_time_ms (List.last more p))
    || existsb (fun f => negb (in_range (ds_spec ds) (fill_time_ms (cf_reference f)))) (rn_fills s) = false) as ->.
  { rewrite Forall_map in Hrange. assert (List.last more p ∈ p :: more) as Hin.
    { apply list_elem_of_lookup_2 with (length more). pose proof (last_of_cons p more) as L. rewrite last_lookup in L. exact L. }
    pose proof Hrange as Hr2. rewrite Forall_forall in Hr2. apply Hr2 in Hin. apply Forall_cons in Hrange as [Hp0 _]. cbn in Hp0, Hin. rewrite !orb_false_iff. split_and!; [lia|lia|].
    destruct (existsb _ _) eqn:E; [|done]. apply existsb_exists in E as (f & Hf & E). apply list_elem_of_In in Hf. rewrite Forall_forall in Hft. apply Hft in Hf.
    unfold in_range in E. apply negb_true_iff, andb_false_iff in E. lia. }
  rewrite Hdata. cbn [rbind]. rewrite Et. cbn [rbind]. by eexists.
Qed.


Definition short_end_ok : bool :=
  match run_loop short_dataset TREND_IDENTITY with
  | Ok (d, s) => is_ok (_data d) && negb (sg_has_position (rn_adapter s)) && is_ok (calculate_metrics (rn_points s))
  | Err _ => false
  end.

Lemma short_end : short_end_ok = true.
Proof. vm_compute. reflexivity. Qed.

Lemma finished_runs_report_witness : exists sealed s r manifest, run_loop short_dataset TREND_IDENTITY = Ok (sealed, s)
  /\ calculate_metrics (rn_points s) = Ok r /\ build_run_manifest sealed (rn_fills s) r = Ok manifest.
Proof.
  pose proof short_end as H. unfold short_end_ok in H. destruct (run_loop short_dataset TREND_IDENTITY) as [[sealed s]|e] eqn:Hrun; [|discriminate H].
  apply andb_true_iff in H as [H H3]. apply andb_true_iff in H as [H1 H2]. destruct (is_ok_inv _ H1) as [data Hdata]. apply negb_true_iff in H2.
  destruct (finished_runs_report short_dataset TREND_IDENTITY sealed s data ltac:(vm_compute; reflexivity) Hrun Hdata) as [_ H]. specialize (H H2).
  destruct (calculate_metrics (rn_points s)) as [r|e] eqn:Em; [|discriminate H3]. destruct H as (_ & manifest & Hm).
  exists sealed, s, r, manifest. exact (conj eq_refl (conj Em Hm)).
Defined.
