(* ===== verification/RiskContracts.v ===== *)
(** * Risk contracts (yatl/risk/contracts.py)

    The frozen policy, the point-in-time portfolio facts, the request that binds
    them to a strategy decision, and the risk decision, with every constructor
    check and the request digest. *)
From S2P Require Import Prelude PyDecimal PyText Digest Market BacktestConfig MarketView StrategyContracts.

Definition POLICY_ID : string := "P4_RISK_V1".

(** [_decimal] here and [_number] in the other risk modules: plain text,
    optionally signed, optionally positive, with the module's own exception. *)
Definition plain_number (cls : exn_class) (value field_name : string) (positive signed : bool) : result dec :=
  raise_if negb (if signed then signed_pattern value else decimal_pattern value)
    with cls (String.append field_name " must be a plain decimal string") ;;
  let* number := rcatch (Decimal value) [ArithmeticTrap] (Raise cls (String.append field_name " is invalid")) in
  raise_if positive && dleb number dec0
    with cls (String.append field_name " is outside the allowed range") ;;
  Ok number.
Definition risk_decimal := plain_number RiskContractError.

Record risk_policy : Type := RiskPolicy {
  policy_id : string;
  risk_per_trade_fraction : string;
  max_position_fraction : string;
  max_gross_exposure_fraction : string;
  max_session_loss_fraction : string;
  max_drawdown_fraction : string;
  max_consecutive_losses : Z;
  max_open_positions : Z;
  rp_paper_only : bool;
  rp_live_master_lock : string;
  rp_spot_only : bool;
  rp_long_only : bool;
  rp_allow_leverage : bool;
  rp_allow_withdrawal : bool;
  rp_allow_order_endpoint : bool;
  rp_allow_ai_direct_execution : bool;
}.

#[global] Instance risk_policy_eq_dec : EqDecision risk_policy.
Proof. solve_decision. Defined.

Definition frozen_policy : risk_policy :=
  RiskPolicy POLICY_ID "0.01" "0.25" "0.25" "0.02" "0.10" 3 1 true "OFF" true true false false false false.

Definition policy_post_init (p : risk_policy) : result unit :=
  let fixed :=
    String.eqb (policy_id p) POLICY_ID && String.eqb (risk_per_trade_fraction p) "0.01"
    && String.eqb (max_position_fraction p) "0.25" && String.eqb (max_gross_exposure_fraction p) "0.25"
    && String.eqb (max_session_loss_fraction p) "0.02" && String.eqb (max_drawdown_fraction p) "0.10"
    && (max_consecutive_losses p =? 3) && (max_open_positions p =? 1)
    && rp_paper_only p && String.eqb (rp_live_master_lock p) "OFF" && rp_spot_only p && rp_long_only p
    && negb (rp_allow_leverage p) && negb (rp_allow_withdrawal p) && negb (rp_allow_order_endpoint p)
    && negb (rp_allow_ai_direct_execution p) in
  raise_if negb fixed with RiskContractError "Risk policy differs from the frozen P4 policy" ;;
  Ok tt.

Record portfolio_risk_state : Type := PortfolioRiskState {
  prs_symbol : string;
  prs_decision_time_ms : Z;
  prs_equity_quote : string;
  prs_cash_quote : string;
  prs_position_quantity : string;
  prs_mark_price : string;
  prs_peak_equity_quote : string;
  prs_session_realized_pnl_quote : string;
  prs_consecutive_losses : Z;
  prs_open_positions : Z;
  kill_switch_active : bool;
}.

#[global] Instance portfolio_risk_state_eq_dec : EqDecision portfolio_risk_state.
Proof. solve_decision. Defined.

Definition risk_state_post_init (s : portfolio_risk_state) : result unit :=
  raise_if negb (str_in (prs_symbol s) SYMBOLS) with RiskContractError "Risk state symbol is not approved" ;;
  raise_if (prs_decision_time_ms s <? 0) || negb (prs_decision_time_ms s mod HOUR_MS =? 0)
    with RiskContractError "Risk state time must be an aligned 1h boundary" ;;
  let* equity := risk_decimal (prs_equity_quote s) "equity_quote" true false in
  do* risk_decimal (prs_cash_quote s) "cash_quote" false false ;;
  let* quantity := risk_decimal (prs_position_quantity s) "position_quantity" false false in
  do* risk_decimal (prs_mark_price s) "mark_price" true false ;;
  let* peak := risk_decimal (prs_peak_equity_quote s) "peak_equity_quote" true false in
  do* risk_decimal (prs_session_realized_pnl_quote s) "session_realized_pnl_quote" false true ;;
  raise_if dltb peak equity with RiskContractError "peak_equity_quote cannot be below current equity" ;;
  raise_if negb ((0 <=? prs_consecutive_losses s) && (prs_consecutive_losses s <=? 1000000))
           || negb ((0 <=? prs_open_positions s) && (prs_open_positions s <=? 1000000))
    with RiskContractError "Risk state counters are invalid" ;;
  raise_if xorb (deqb quantity dec0) (prs_open_positions s =? 0)
    with RiskContractError "Position quantity and open-position count disagree" ;;
  Ok tt.
Definition new_risk_state (s : portfolio_risk_state) : result portfolio_risk_state := do* risk_state_post_init s ;; Ok s.

(** [EvidenceLabel] (yatl/strategy/evaluate.py) *)
Inductive evidence_label : Type := INSUFFICIENT_EVIDENCE | EV_REJECTED | QUALIFIED_FOR_P4_RESEARCH.
#[global] Instance evidence_label_eq_dec : EqDecision evidence_label.
Proof. solve_decision. Defined.
Definition evidence_value (e : evidence_label) : string :=
  match e with
  | INSUFFICIENT_EVIDENCE => "INSUFFICIENT_EVIDENCE" | EV_REJECTED => "REJECTED"
  | QUALIFIED_FOR_P4_RESEARCH => "QUALIFIED_FOR_P4_RESEARCH"
  end.

Record risk_request : Type := RiskRequest {
  rq_decision : strategy_decision;
  rq_evidence : evidence_label;
  rq_portfolio : portfolio_risk_state;
  rq_policy : risk_policy;
}.

#[global] Instance risk_request_eq_dec : EqDecision risk_request.
Proof. solve_decision. Defined.

Definition request_post_init (r : risk_request) : result unit :=
  raise_if negb (String.eqb (sd_symbol (rq_decision r)) (prs_symbol (rq_portfolio r)))
           || negb (sd_decision_time_ms (rq_decision r) =? prs_decision_time_ms (rq_portfolio r))
    with RiskContractError "Strategy decision and portfolio state do not match" ;;
  raise_if bool_decide (sd_action (rq_decision r) = SEnterLong) && negb (prs_open_positions (rq_portfolio r) =? 0)
    with RiskContractError "Entry request cannot overlap an open position" ;;
  raise_if bool_decide (sd_action (rq_decision r) = SExitLong) && (prs_open_positions (rq_portfolio r) =? 0)
    with RiskContractError "Exit request requires an open position" ;;
  Ok tt.
Definition new_request (r : risk_request) : result risk_request := do* request_post_init r ;; Ok r.

Definition setup_payload (s : option long_setup) : json :=
  match s with
  | None => JNull
  | Some s => JObj [("reference_price", JStr (setup_reference_price s));
                    ("invalidation_price", JStr (invalidation_price s));
                    ("target_price", JStr (setup_target_price s))]%string
  end.

(** [{name: getattr(self.portfolio, name) ...}] *)
Definition portfolio_payload (s : portfolio_risk_state) : json := JObj [
  ("symbol", JStr (prs_symbol s)); ("decision_time_ms", JInt (prs_decision_time_ms s));
  ("equity_quote", JStr (prs_equity_quote s)); ("cash_quote", JStr (prs_cash_quote s));
  ("position_quantity", JStr (prs_position_quantity s)); ("mark_price", JStr (prs_mark_price s));
  ("peak_equity_quote", JStr (prs_peak_equity_quote s));
  ("session_realized_pnl_quote", JStr (prs_session_realized_pnl_quote s));
  ("consecutive_losses", JInt (prs_consecutive_losses s)); ("open_positions", JInt (prs_open_positions s));
  ("kill_switch_active", JBool (kill_switch_active s))]%string.
Definition policy_payload (p : risk_policy) : json := JObj [
  ("policy_id", JStr (policy_id p)); ("risk_per_trade_fraction", JStr (risk_per_trade_fraction p));
  ("max_position_fraction", JStr (max_position_fraction p));
  ("max_gross_exposure_fraction", JStr (max_gross_exposure_fraction p));
  ("max_session_loss_fraction", JStr (max_session_loss_fraction p));
  ("max_drawdown_fraction", JStr (max_drawdown_fraction p));
  ("max_consecutive_losses", JInt (max_consecutive_losses p)); ("max_open_positions", JInt (max_open_positions p));
  ("paper_only", JBool (rp_paper_only p)); ("live_master_lock", JStr (rp_live_master_lock p));
  ("spot_only", JBool (rp_spot_only p)); ("long_only", JBool (rp_long_only p));
  ("allow_leverage", JBool (rp_allow_leverage p)); ("allow_withdrawal", JBool (rp_allow_withdrawal p));
  ("allow_order_endpoint", JBool (rp_allow_order_endpoint p));
  ("allow_ai_direct_execution", JBool (rp_allow_ai_direct_execution p))]%string.

Definition request_payload (r : risk_request) : json :=
  let d := rq_decision r in JObj [
  ("schema_version", JInt 1);
  ("strategy", JObj [
    ("id", JStr (strategy_id (identity (sd_context d)))); ("version", JStr (version (identity (sd_context d))));
    ("action", JStr (action_value (sd_action d))); ("reason", JStr (reason_value (sd_reason d)));
    ("context_sha256", JStr (context_sha256 (sd_context d))); ("setup", setup_payload (sd_setup d))]);
  ("evidence_label", JStr (evidence_value (rq_evidence r)));
  ("portfolio", portfolio_payload (rq_portfolio r));
  ("policy", policy_payload (rq_policy r))]%string.
Definition request_sha256 (r : risk_request) : string := digest (request_payload r).

Inductive risk_disposition : Type := NO_ACTION | REJECT | APPROVE_PAPER.
Inductive risk_reason : Type :=
| NO_STRATEGY_ACTION | PENDING_RISK_EVALUATION | EVIDENCE_NOT_QUALIFIED | RISK_CHECKS_PASSED
| EXIT_REDUCES_RISK | KILL_SWITCH_ACTIVE.
#[global] Instance risk_disposition_eq_dec : EqDecision risk_disposition.
Proof. solve_decision. Defined.
#[global] Instance risk_reason_eq_dec : EqDecision risk_reason.
Proof. solve_decision. Defined.

Record risk_decision : Type := RiskDecision {
  rd_request : risk_request;
  disposition : risk_disposition;
  rd_reason : risk_reason;
  approved_quantity : option string;
}.

#[global] Instance risk_decision_eq_dec : EqDecision risk_decision.
Proof. solve_decision. Defined.

Definition risk_decision_post_init (d : risk_decision) : result unit :=
  let action := sd_action (rq_decision (rd_request d)) in
  let portfolio := rq_portfolio (rd_request d) in
  let* quantity := match approved_quantity d with
                   | None => Ok None
                   | Some q => let* n := risk_decimal q "approved_quantity" true false in Ok (Some n)
                   end in
  let* valid :=
    match disposition d with
    | NO_ACTION => Ok (bool_decide (action = SNoTrade) && bool_decide (rd_reason d = NO_STRATEGY_ACTION) && opt_is_none quantity)
    | REJECT =>
        Ok (bool_decide (action = SEnterLong)
            && bool_decide (rd_reason d ∈ [PENDING_RISK_EVALUATION; EVIDENCE_NOT_QUALIFIED; KILL_SWITCH_ACTIVE])
            && opt_is_none quantity)
    | APPROVE_PAPER =>
        if bool_decide (action = SEnterLong) then
          Ok (bool_decide (rd_reason d = RISK_CHECKS_PASSED) && negb (opt_is_none quantity)
              && bool_decide (rq_evidence (rd_request d) = QUALIFIED_FOR_P4_RESEARCH) && negb (kill_switch_active portfolio))
        else if bool_decide (action = SExitLong) && bool_decide (rd_reason d = EXIT_REDUCES_RISK) then
          let* held := Decimal (prs_position_quantity portfolio) in
          Ok (match quantity with Some q => deqb q held | None => false end)
        else Ok false
    end in
  raise_if negb valid with RiskContractError "Risk disposition, reason and quantity are inconsistent" ;;
  Ok tt.
Definition new_risk_decision (d : risk_decision) : result risk_decision := do* risk_decision_post_init d ;; Ok d.

(** * Properties *)

Definition risk_state_valid (s : portfolio_risk_state) : Prop := risk_state_post_init s = Ok tt.

(** A request built through the constructors of all its parts. *)
Record request_valid (r : risk_request) : Prop := {
  rv_context : context_valid (sd_context (rq_decision r));
  rv_decision : decision_post_init (rq_decision r) = Ok tt;
  rv_setup : match sd_setup (rq_decision r) with Some s => setup_valid s | None => True end;
  rv_portfolio : risk_state_valid (rq_portfolio r);
  rv_policy : policy_post_init (rq_policy r) = Ok tt;
  rv_request : request_post_init r = Ok tt;
}.

(** There is one policy. *)
Lemma policy_frozen p : policy_post_init p = Ok tt -> p = frozen_policy.
Proof.
  unfold policy_post_init, frozen_policy. destruct p. simpl. intros H. res_inv. bool_prop.
  repeat match goal with Hx : _ /\ _ |- _ => destruct Hx end. by subst.
Qed.

(** What an accepted text denotes. *)
Lemma plain_number_unsigned cls value field positive d : plain_number cls value field positive false = Ok d
  <-> denotes value d /\ (positive = true -> (0 < dval d)%Q).
Proof.
  unfold plain_number. split.
  - intros H. res_inv. subst. apply negb_false_iff in Hc. destruct (decimal_pattern_spec _ Hc) as (d' & E & Hp & Hf).
    rewrite E in Hr. injection Hr as ->. split; [done|]. intros ->. simpl in Hc0. apply dleb_false in Hc0. by rewrite dval_0 in Hc0.
  - intros [(E & Hp & Hf) Hpos].
    assert (decimal_pattern value = true) as -> by (rewrite <- Hf; destruct Hp as (? & ? & ?); by apply format_pattern).
    rewrite E. simpl. destruct positive; [|done]. simpl. specialize (Hpos eq_refl).
    destruct (dleb d dec0) eqn:El; [|done]. apply dleb_spec in El. rewrite dval_0 in El. lra.
Qed.

Definition denotes_signed (s : string) (d : dec) : Prop :=
  signed_pattern s = true /\ Decimal s = Ok d /\ plain_range (dneg d) d /\ format_f d = s.

Lemma plain_number_signed cls value field d : plain_number cls value field false true = Ok d <-> denotes_signed value d.
Proof.
  unfold plain_number, denotes_signed. split.
  - intros H. res_inv. subst. apply negb_false_iff in Hc. destruct (signed_pattern_spec _ Hc) as (d' & E & Hp & Hf).
    rewrite E in Hr. by injection Hr as ->.
  - intros (-> & E & _). rewrite E. done.
Qed.

(** Only the module's exception escapes. *)
Lemma plain_number_error cls value field positive signed e :
  plain_number cls value field positive signed = Err e -> exn_cls e = cls.
Proof.
  unfold plain_number. destruct (negb _) eqn:Ep; [naive_solver|]. apply negb_false_iff in Ep.
  destruct (Decimal value) as [d|e'] eqn:Ed; simpl; [destruct (_ && _); naive_solver|].
  assert (exists d, Decimal value = Ok d) as [d E]; [|congruence].
  destruct signed; [destruct (signed_pattern_spec _ Ep) as (d & E & _)|destruct (decimal_pattern_spec _ Ep) as (d & E & _)]; eauto.
Qed.

(** The facts of a constructed portfolio state. *)
Record risk_state_facts (s : portfolio_risk_state) : Prop := {
  rsf_symbol : prs_symbol s ∈ SYMBOLS;
  rsf_values : exists e c q m p, denotes (prs_equity_quote s) e /\ denotes (prs_cash_quote s) c
    /\ denotes (prs_position_quantity s) q /\ denotes (prs_mark_price s) m /\ denotes (prs_peak_equity_quote s) p
    /\ (0 < dval e)%Q /\ (0 < dval m)%Q /\ (dval e <= dval p)%Q
    /\ ((dval q == 0)%Q <-> prs_open_positions s = 0);
}.

Lemma risk_state_valid_facts s : risk_state_valid s -> risk_state_facts s.
Proof.
  unfold risk_state_valid, risk_state_post_init. intros H. res_inv. apply negb_false_iff, str_in_spec in Hc.
  apply plain_number_unsigned in Hr as [? ?], Hr0 as [? ?], Hr1 as [? ?], Hr2 as [? ?], Hr3 as [? ?].
  apply dltb_false in Hc1. constructor; [done|]. exists a, a0, a1, a2, a3. do 5 (split; [done|]).
  split; [auto|]. split; [auto|]. split; [done|].
  rewrite <- Z.eqb_eq. apply xorb_eq in Hc3. rewrite <- Hc3, deqb_spec, dval_0. done.
Qed.

(** ** What a request digest binds *)

Lemma action_value_inj a b : action_value a = action_value b -> a = b.
Proof. by destruct a, b. Qed.
Lemma reason_value_inj a b : reason_value a = reason_value b -> a = b.
Proof. by destruct a, b. Qed.
Lemma evidence_value_inj a b : evidence_value a = evidence_value b -> a = b.
Proof. by destruct a, b. Qed.
Lemma setup_payload_inj s s' : jnorm (setup_payload s) = jnorm (setup_payload s') -> s = s'.
Proof. destruct s as [[]|], s' as [[]|]; cbn; intros H; try done. injection H as ? ? ?. by subst. Qed.
Lemma portfolio_payload_inj s s' : jnorm (portfolio_payload s) = jnorm (portfolio_payload s') -> s = s'.
Proof. destruct s, s'. cbn. intros H. injection H as ?. by subst. Qed.
Lemma policy_payload_inj s s' : jnorm (policy_payload s) = jnorm (policy_payload s') -> s = s'.
Proof. destruct s, s'. cbn. intros H. injection H as ?. by subst. Qed.

Ltac value_inj :=
  repeat match goal with
  | H : action_value _ = action_value _ |- _ => apply action_value_inj in H
  | H : reason_value _ = reason_value _ |- _ => apply reason_value_inj in H
  | H : evidence_value _ = evidence_value _ |- _ => apply evidence_value_inj in H
  | H : jnorm (setup_payload _) = jnorm (setup_payload _) |- _ => apply setup_payload_inj in H
  | H : jnorm (portfolio_payload _) = jnorm (portfolio_payload _) |- _ => apply portfolio_payload_inj in H
  | H : jnorm (policy_payload _) = jnorm (policy_payload _) |- _ => apply policy_payload_inj in H
  end.

(** The texts hashed for a request's digest. *)
Definition hashed_request (r : risk_request) : list text := [json_dumps (request_payload r); json_dumps (context_payload (sd_context (rq_decision r)))].

Lemma request_payload_inj T r r' : among (hashed_request r) T -> among (hashed_request r') T -> jnorm (request_payload r) = jnorm (request_payload r') ->
  r = r' \/ collision T.
Proof.
  intros HT HT'. unfold request_payload. intros H. json_fields H. json_fields Hj0. value_inj.
  match goal with H : context_sha256 _ = context_sha256 _ |- _ =>
    apply context_sha256_binding in H; destruct H as [Ec|Hcol];
      [|right; eexists _, _; split; [|split; [|exact Hcol]]; eapply among_head, among_tail; eassumption] end.
  left. destruct r as [[] ? ? ?], r' as [[] ? ? ?]. simpl in *. congruence.
Qed.

Lemma request_sha256_binds T r r' : among (hashed_request r) T -> among (hashed_request r') T -> request_sha256 r = request_sha256 r' -> r = r' \/ collision T.
Proof.
  intros HT HT' H. destruct (digest_binds T _ _ (among_head _ _ _ HT) (among_head _ _ _ HT') H) as [E|E]; [by apply (request_payload_inj T)|by right].
Qed.
