(* ===== verification/HashChain.v ===== *)
(** * Hash-chained states

    The interface the state machines of the risk engine share: every state
    carries the digest of the event that produced it and of its predecessor.
    What the interface promises to its clients is proved once: the digest of a
    reached state binds the whole sequence of events, up to a collision of two of the
    texts hashed on the way. *)
From S2P Require Import Prelude PyText Digest.

(** What a component has to show: its step records both digests in the new
    state, and its digests bind their arguments up to a collision of the texts they hash. *)
Class HashChain (E S : Type) := {
  hc_step : option S -> E -> result S;
  hc_event_ok : E -> Prop;
  hc_state_ok : S -> Prop;
  hc_state_digest : S -> string;
  hc_event_digest : E -> string;
  hc_hashed_state : S -> list text;
  hc_hashed_event : E -> list text;
  hc_previous : S -> option string;
  hc_event : S -> string;
  hc_preserved : forall p e s, (forall q, p = Some q -> hc_state_ok q) -> hc_event_ok e -> hc_step p e = Ok s -> hc_state_ok s;
  hc_records : forall p e s, (forall q, p = Some q -> hc_state_ok q) -> hc_event_ok e -> hc_step p e = Ok s ->
    hc_previous s = option_map hc_state_digest p /\ hc_event s = hc_event_digest e;
  hc_state_binds : forall T s s', among (hc_hashed_state s) T -> among (hc_hashed_state s') T -> hc_state_digest s = hc_state_digest s' -> s = s' \/ collision T;
  hc_event_binds : forall T e e', among (hc_hashed_event e) T -> among (hc_hashed_event e') T -> hc_event_ok e -> hc_event_ok e' ->
    hc_event_digest e = hc_event_digest e' -> e = e' \/ collision T;
}.

Section Chain.
Context {E S : Type} {H : HashChain E S}.

(** The states reached by a sequence of accepted events. *)
Inductive chained : list E -> S -> Prop :=
| chained_first e s : hc_event_ok e -> hc_step None e = Ok s -> chained [e] s
| chained_next es p e s : chained es p -> hc_event_ok e -> hc_step (Some p) e = Ok s -> chained (es ++ [e]) s.

Lemma chained_ok es s : chained es s -> hc_state_ok s.
Proof.
  induction 1 as [e s He Hs|es p e s Hc IH He Hs]; (eapply hc_preserved; [|exact He|exact Hs]); [done|].
  by intros q [= <-].
Qed.

(** The texts hashed along a sequence of events: of every event, and of the state
    it gives. *)
Fixpoint hashed_along (p : option S) (es : list E) : list text :=
  match es with
  | [] => []
  | e :: es =>
      hc_hashed_event e ++ match hc_step p e with Ok s => hc_hashed_state s ++ hashed_along (Some s) es | Err _ => [] end
  end.

Fixpoint steps (p : option S) (es : list E) : result (option S) :=
  match es with [] => Ok p | e :: es => let* s := hc_step p e in steps (Some s) es end.

Lemma steps_app p es es' : steps p (es ++ es') = let* q := steps p es in steps q es'.
Proof. revert p. induction es as [|e es IH]; intros p; [done|]. cbn [app steps]. destruct (hc_step p e) as [s|x]; [apply IH|done]. Qed.

Lemma chained_steps es s : chained es s -> steps None es = Ok (Some s).
Proof.
  induction 1 as [e s _ Hs|es p e s _ IH _ Hs]; [cbn [steps]; by rewrite Hs|]. rewrite steps_app, IH. cbn [rbind steps]. by rewrite Hs.
Qed.

Lemma hashed_app p es es' q : steps p es = Ok q -> hashed_along p (es ++ es') = hashed_along p es ++ hashed_along q es'.
Proof.
  revert p. induction es as [|e es IH]; intros p Ha; cbn [app hashed_along steps] in *; [apply Ok_inj in Ha; by subst q|].
  destruct (hc_step p e) as [s|]; [|done]. cbn [rbind] in Ha. rewrite (IH _ Ha). by rewrite <- !app_assoc.
Qed.

(** What a history hashes: its prefix, its last event and its last state. *)
Lemma hashed_snoc es p e s T : chained es p -> hc_step (Some p) e = Ok s -> among (hashed_along None (es ++ [e])) T ->
  among (hashed_along None es) T /\ among (hc_hashed_event e) T /\ among (hc_hashed_state s) T.
Proof.
  intros Hc Hs Ha. rewrite (hashed_app _ _ [e] _ (chained_steps _ _ Hc)) in Ha. cbn [hashed_along] in Ha. rewrite Hs, app_nil_r in Ha.
  apply among_app in Ha as [H1 Ha]. apply among_app in Ha as [H2 H3]. by split_and!.
Qed.

Lemma hashed_last es s T : chained es s -> among (hashed_along None es) T -> among (hc_hashed_state s) T.
Proof.
  intros [e s' _ Hs|es' p e s' Hc _ Hs] Ha.
  - cbn [hashed_along] in Ha. rewrite Hs, app_nil_r in Ha. by apply among_app in Ha as [_ Ha].
  - by apply (hashed_snoc _ _ _ _ _ Hc Hs) in Ha as (_ & _ & Ha).
Qed.

Lemma hashed_first e s T : hc_step None e = Ok s -> among (hashed_along None [e]) T -> among (hc_hashed_event e) T.
Proof. intros Hs Ha. cbn [hashed_along] in Ha. by apply among_app in Ha as [Ha _]. Qed.

Lemma chained_unique T es s : chained es s -> among (hashed_along None es) T -> forall es', chained es' s -> among (hashed_along None es') T ->
  es = es' \/ collision T.
Proof.
  induction 1 as [e s He Hs|es p e s Hc IH He Hs]; intros HT es' Hc' HT'.
  - destruct (hc_records None e s ltac:(done) He Hs) as [Hp Hv]. destruct Hc' as [e' s He' Hs'|es1 p' e' s Hc1 He' Hs'].
    + destruct (hc_records None e' s ltac:(done) He' Hs') as [_ Hv'].
      destruct (hc_event_binds T e e') as [->|]; [by eapply hashed_first|by eapply hashed_first|done|done|congruence|by left|by right].
    + destruct (hc_records (Some p') e' s) as [Hp' _]; [intros q [= <-]; by eapply chained_ok|done|done|]. by rewrite Hp in Hp'.
  - destruct (hc_records (Some p) e s) as [Hp Hv]; [intros q [= <-]; by eapply chained_ok|done|done|].
    destruct (hashed_snoc _ _ _ _ _ Hc Hs HT) as (T1 & T2 & _). destruct Hc' as [e' s He' Hs'|es1 p' e' s Hc1 He' Hs'].
    + destruct (hc_records None e' s ltac:(done) He' Hs') as [Hp' _]. by rewrite Hp in Hp'.
    + destruct (hc_records (Some p') e' s) as [Hp' Hv']; [intros q [= <-]; by eapply chained_ok|done|done|].
      destruct (hashed_snoc _ _ _ _ _ Hc1 Hs' HT') as (T1' & T2' & _).
      destruct (hc_event_binds T e e' T2 T2' He He') as [->|]; [congruence| |by right].
      rewrite Hp in Hp'. cbn [option_map] in Hp'. injection Hp' as Hp'.
      destruct (hc_state_binds T p p') as [->|]; [by eapply hashed_last|by eapply hashed_last|exact Hp'| |by right].
      destruct (IH T1 es1 Hc1 T1') as [->|]; [by left|by right].
Qed.

(** Equal digests of two reached states: the same events, the same state. *)
Lemma digest_binds_chain es es' s s' : chained es s -> chained es' s' -> hc_state_digest s = hc_state_digest s' ->
  (es = es' /\ s = s') \/ collision (hashed_along None es ++ hashed_along None es').
Proof.
  intros Hc Hc' Hd. set (T := hashed_along None es ++ hashed_along None es').
  destruct (hc_state_binds T s s') as [->|]; [by eapply hashed_last, among_left|by eapply hashed_last, among_right|exact Hd| |by right].
  destruct (chained_unique T es s' Hc (among_left _ _) es' Hc' (among_right _ _)) as [->|]; [by left|by right].
Qed.

(** Running a whole sequence. *)
Definition run_events (es : list E) : result (option S) :=
  fold_left (fun acc e => let* p := acc in let* s := hc_step p e in Ok (Some s)) es (Ok None).

Lemma chained_run es s : Forall hc_event_ok es -> run_events es = Ok (Some s) -> chained es s.
Proof.
  revert s. induction es as [|e es IH] using rev_ind; intros s Hv Hr; [done|]. apply Forall_app in Hv as [Hv He].
  apply Forall_inv in He. unfold run_events in Hr, IH. rewrite fold_left_app in Hr. cbn [fold_left] in Hr.
  destruct (fold_left _ es _) as [[p|]|x] eqn:Ef; cbn [rbind] in Hr; [| |done].
  - destruct (hc_step (Some p) e) as [s1|] eqn:Es; cbn [rbind] in Hr; [|done]. injection Hr as <-. eapply chained_next; [by apply IH|done|done].
  - destruct (hc_step None e) as [s1|] eqn:Es; cbn [rbind] in Hr; [|done]. injection Hr as <-.
    destruct es as [|e' es _] using rev_ind; [by apply chained_first|]. exfalso. rewrite fold_left_app in Ef. cbn [fold_left] in Ef.
    destruct (fold_left _ es _) as [q|]; cbn [rbind] in Ef; [|done]. destruct (hc_step q e'); cbn [rbind] in Ef; done.
Qed.
End Chain.
