(* ===== verification/RiskState.v ===== *)
(** * Portfolio and session state (yatl/risk/state.py)

    Ordered observations, the hash-chained managed state they produce, and its
    projection into the risk contracts. *)
From Stdlib Require Import Qminmax.
From S2P Require Import Prelude PyDecimal PyText Digest HashChain Market BacktestConfig Costs Features StrategyContracts ExactDec RiskContracts.

Definition UTC_DAY_MILLISECONDS : Z := 86400000.

Inductive close_outcome : Type := NO_CLOSE | WIN | LOSS | BREAKEVEN.
#[global] Instance close_outcome_eq_dec : EqDecision close_outcome.
Proof. solve_decision. Defined.
Definition outcome_value (o : close_outcome) : string :=
  match o with NO_CLOSE => "NO_CLOSE" | WIN => "WIN" | LOSS => "LOSS" | BREAKEVEN => "BREAKEVEN" end.

Definition state_number := plain_number RiskStateError.

Record observation : Type := PortfolioObservation {
  ob_symbol : string;
  ob_sequence : Z;
  ob_decision_time_ms : Z;
  ob_equity_quote : string;
  ob_cash_quote : string;
  ob_position_quantity : string;
  ob_mark_price : string;
  realized_pnl_delta_quote : string;
  ob_close_outcome : close_outcome;
  start_new_session : bool;
}.
#[global] Instance observation_eq_dec : EqDecision observation.
Proof. solve_decision. Defined.

Definition signs_match (o : close_outcome) (pnl : dec) : bool :=
  match o with
  | NO_CLOSE => deqb pnl dec0 | WIN => dltb dec0 pnl | LOSS => dltb pnl dec0 | BREAKEVEN => deqb pnl dec0
  end.

Definition observation_post_init (o : observation) : result unit :=
  raise_if negb (str_in (ob_symbol o) SYMBOLS) with RiskStateError "Observation symbol is not approved" ;;
  raise_if negb ((0 <=? ob_sequence o) && (ob_sequence o <=? 1000000000)) with RiskStateError "Observation sequence is invalid" ;;
  raise_if (ob_decision_time_ms o <? 0) || negb (ob_decision_time_ms o mod HOUR_MS =? 0)
    with RiskStateError "Observation time must be an aligned 1h boundary" ;;
  do* state_number (ob_equity_quote o) "equity_quote" true false ;;
  do* state_number (ob_cash_quote o) "cash_quote" false false ;;
  do* state_number (ob_position_quantity o) "position_quantity" false false ;;
  do* state_number (ob_mark_price o) "mark_price" true false ;;
  let* pnl := state_number (realized_pnl_delta_quote o) "realized_pnl_delta_quote" false true in
  raise_if negb (signs_match (ob_close_outcome o) pnl) with RiskStateError "Close outcome and realized PnL disagree" ;;
  Ok tt.

Definition observation_payload (o : observation) : json := JObj [
  ("schema_version", JInt 1); ("symbol", JStr (ob_symbol o)); ("sequence", JInt (ob_sequence o));
  ("decision_time_ms", JInt (ob_decision_time_ms o)); ("equity_quote", JStr (ob_equity_quote o));
  ("cash_quote", JStr (ob_cash_quote o)); ("position_quantity", JStr (ob_position_quantity o));
  ("mark_price", JStr (ob_mark_price o)); ("realized_pnl_delta_quote", JStr (realized_pnl_delta_quote o));
  ("close_outcome", JStr (outcome_value (ob_close_outcome o)));
  ("start_new_session", JBool (start_new_session o))]%string.
Definition observation_sha256 (o : observation) : string := digest (observation_payload o).

Record managed_state : Type := ManagedPortfolioState {
  mps_symbol : string;
  mps_sequence : Z;
  mps_decision_time_ms : Z;
  session_start_time_ms : Z;
  session_start_equity_quote : string;
  mps_equity_quote : string;
  mps_cash_quote : string;
  mps_position_quantity : string;
  mps_mark_price : string;
  mps_peak_equity_quote : string;
  mps_session_realized_pnl_quote : string;
  mps_consecutive_losses : Z;
  mps_open_positions : Z;
  gross_exposure_quote : string;
  mps_previous_sha256 : option string;
  mps_observation_sha256 : string;
}.
#[global] Instance managed_state_eq_dec : EqDecision managed_state.
Proof. solve_decision. Defined.

Definition aligned_time (t : Z) : bool := (0 <=? t) && (t mod HOUR_MS =? 0).
Definition valid_digest (h : option string) : bool := match h with Some h => sha256_pattern h | None => false end.

Definition managed_post_init (s : managed_state) : result unit :=
  raise_if negb (str_in (mps_symbol s) SYMBOLS) with RiskStateError "Managed-state symbol is not approved" ;;
  raise_if negb ((0 <=? mps_sequence s) && (mps_sequence s <=? 1000000000)) with RiskStateError "Managed-state sequence is invalid" ;;
  raise_if negb (aligned_time (mps_decision_time_ms s)) with RiskStateError "decision_time_ms must be an aligned 1h boundary" ;;
  raise_if negb (aligned_time (session_start_time_ms s)) with RiskStateError "session_start_time_ms must be an aligned 1h boundary" ;;
  raise_if mps_decision_time_ms s <? session_start_time_ms s with RiskStateError "Session cannot start after the managed state" ;;
  let* session_start := state_number (session_start_equity_quote s) "session_start_equity_quote" true false in
  let* equity := state_number (mps_equity_quote s) "equity_quote" true false in
  do* state_number (mps_cash_quote s) "cash_quote" false false ;;
  let* quantity := state_number (mps_position_quantity s) "position_quantity" false false in
  let* mark := state_number (mps_mark_price s) "mark_price" true false in
  let* peak := state_number (mps_peak_equity_quote s) "peak_equity_quote" true false in
  do* state_number (mps_session_realized_pnl_quote s) "session_realized_pnl_quote" false true ;;
  let* exposure := state_number (gross_exposure_quote s) "gross_exposure_quote" false false in
  raise_if dleb session_start dec0 || dltb peak equity with RiskStateError "Managed-state equity values are inconsistent" ;;
  raise_if negb ((0 <=? mps_consecutive_losses s) && (mps_consecutive_losses s <=? 1000000))
           || negb ((mps_open_positions s =? 0) || (mps_open_positions s =? 1))
    with RiskStateError "Managed-state counters are invalid" ;;
  raise_if xorb (deqb quantity dec0) (mps_open_positions s =? 0)
    with RiskStateError "Position quantity and open-position count disagree" ;;
  raise_if negb (String.eqb (gross_exposure_quote s) (format_f (dmul FP quantity mark)))
           || negb (deqb exposure (dmul FP quantity mark))
    with RiskStateError "Gross exposure is noncanonical or inconsistent" ;;
  raise_if (mps_sequence s =? 0) && negb (opt_is_none (mps_previous_sha256 s))
    with RiskStateError "Initial state cannot have a predecessor" ;;
  raise_if negb (mps_sequence s =? 0) && negb (valid_digest (mps_previous_sha256 s))
    with RiskStateError "Managed state is missing its predecessor digest" ;;
  raise_if negb (sha256_pattern (mps_observation_sha256 s)) with RiskStateError "Managed state observation digest is invalid" ;;
  Ok tt.
Definition new_managed (s : managed_state) : result managed_state := do* managed_post_init s ;; Ok s.

Definition state_payload (s : managed_state) : json := JObj [
  ("schema_version", JInt 1); ("symbol", JStr (mps_symbol s)); ("sequence", JInt (mps_sequence s));
  ("decision_time_ms", JInt (mps_decision_time_ms s)); ("session_start_time_ms", JInt (session_start_time_ms s));
  ("session_start_equity_quote", JStr (session_start_equity_quote s)); ("equity_quote", JStr (mps_equity_quote s));
  ("cash_quote", JStr (mps_cash_quote s)); ("position_quantity", JStr (mps_position_quantity s));
  ("mark_price", JStr (mps_mark_price s)); ("peak_equity_quote", JStr (mps_peak_equity_quote s));
  ("session_realized_pnl_quote", JStr (mps_session_realized_pnl_quote s));
  ("consecutive_losses", JInt (mps_consecutive_losses s)); ("open_positions", JInt (mps_open_positions s));
  ("gross_exposure_quote", JStr (gross_exposure_quote s));
  ("previous_state_sha256", JOptStr (mps_previous_sha256 s));
  ("observation_sha256", JStr (mps_observation_sha256 s))]%string.
Definition state_sha256 (s : managed_state) : string := digest (state_payload s).

Definition to_risk_state (s : managed_state) (kill_switch : bool) : result portfolio_risk_state :=
  new_risk_state (PortfolioRiskState (mps_symbol s) (mps_decision_time_ms s) (mps_equity_quote s) (mps_cash_quote s)
    (mps_position_quantity s) (mps_mark_price s) (mps_peak_equity_quote s) (mps_session_realized_pnl_quote s)
    (mps_consecutive_losses s) (mps_open_positions s) kill_switch).

(** What [_next_state] derives from the predecessor before it builds the state. *)
Record derived : Type := Derived {
  dv_session_start_time : Z;
  dv_session_start_equity : dec;
  dv_session_pnl : dec;
  dv_peak : dec;
  dv_consecutive_losses : Z;
  dv_previous_sha : option string;
}.

Definition initial_derived (o : observation) (equity quantity : dec) : result derived :=
  raise_if negb (ob_sequence o =? 0) || negb (start_new_session o)
    with RiskStateError "Initial state requires sequence zero and a session start" ;;
  raise_if negb (bool_decide (ob_close_outcome o = NO_CLOSE)) || negb (deqb quantity dec0)
    with RiskStateError "Initial state must be flat with no close outcome" ;;
  Ok (Derived (ob_decision_time_ms o) equity dec0 equity 0 None).

Definition next_losses (o : close_outcome) (losses : Z) : Z :=
  match o with LOSS => losses + 1 | WIN | BREAKEVEN => 0 | NO_CLOSE => losses end.

Definition following_derived (previous : managed_state) (o : observation) (pnl_delta equity quantity : dec) : result derived :=
  raise_if negb (String.eqb (ob_symbol o) (mps_symbol previous)) with RiskStateError "State symbol cannot change" ;;
  raise_if negb (ob_sequence o =? mps_sequence previous + 1) with RiskStateError "State sequence is duplicate or missing" ;;
  raise_if ob_decision_time_ms o <=? mps_decision_time_ms previous with RiskStateError "State observation is stale or out of order" ;;
  let* prior_quantity := Decimal (mps_position_quantity previous) in
  raise_if bool_decide (ob_close_outcome o = NO_CLOSE) && (dltb dec0 prior_quantity && negb (deqb quantity prior_quantity))
    with RiskStateError "An open position changed without a close outcome" ;;
  raise_if negb (bool_decide (ob_close_outcome o = NO_CLOSE)) && (dleb prior_quantity dec0 || negb (deqb quantity dec0))
    with RiskStateError "A close outcome must close the complete open position" ;;
  let* session :=
    if start_new_session o then
      raise_if negb (ob_decision_time_ms o mod UTC_DAY_MILLISECONDS =? 0)
        with RiskStateError "A new session must start at 00:00 UTC" ;;
      raise_if negb (bool_decide (ob_close_outcome o = NO_CLOSE))
        with RiskStateError "Session reset and close outcome require separate observations" ;;
      Ok (ob_decision_time_ms o, equity, dec0)
    else
      let* start_equity := Decimal (session_start_equity_quote previous) in
      let* pnl := Decimal (mps_session_realized_pnl_quote previous) in
      Ok (session_start_time_ms previous, start_equity, dadd FP pnl pnl_delta) in
  let* previous_peak := Decimal (mps_peak_equity_quote previous) in
  Ok (Derived (fst (fst session)) (snd (fst session)) (snd session) (dmax previous_peak equity)
        (next_losses (ob_close_outcome o) (mps_consecutive_losses previous)) (Some (state_sha256 previous))).

Definition _next_state (previous : option managed_state) (o : observation) : result managed_state :=
  let* pnl_delta := Decimal (realized_pnl_delta_quote o) in
  let* equity := Decimal (ob_equity_quote o) in
  let* quantity := Decimal (ob_position_quantity o) in
  let* mark := Decimal (ob_mark_price o) in
  let* d := match previous with
            | None => initial_derived o equity quantity
            | Some p => following_derived p o pnl_delta equity quantity
            end in
  let gross_exposure := dmul FP quantity mark in
  let* cash := Decimal (ob_cash_quote o) in
  new_managed (ManagedPortfolioState (ob_symbol o) (ob_sequence o) (ob_decision_time_ms o) (dv_session_start_time d)
    (format_f (dv_session_start_equity d)) (format_f equity) (format_f cash) (format_f quantity) (format_f mark)
    (format_f (dv_peak d)) (format_f (dv_session_pnl d)) (dv_consecutive_losses d) (if deqb quantity dec0 then 0 else 1)
    (format_f gross_exposure) (dv_previous_sha d) (observation_sha256 o)).

Record state_transition : Type := PortfolioStateTransition {
  st_previous : option managed_state;
  st_observation : observation;
  st_current : managed_state;
}.
Definition transition_post_init (t : state_transition) : result unit :=
  let* expected := _next_state (st_previous t) (st_observation t) in
  raise_if negb (bool_decide (st_current t = expected)) with RiskStateError "Current managed state does not match its transition" ;;
  Ok tt.

Definition apply_portfolio_observation (previous : option managed_state) (o : observation) : result state_transition :=
  let* current := _next_state previous o in
  let t := PortfolioStateTransition previous o current in
  do* transition_post_init t ;; Ok t.

(** * Properties *)

Definition observation_valid (o : observation) : Prop := observation_post_init o = Ok tt.
Definition managed_valid (s : managed_state) : Prop := managed_post_init s = Ok tt.

(** The number a text denotes. *)
Definition qtext (s : string) : Q := match Decimal s with Ok d => dval d | Err _ => 0%Q end.

Lemma qtext_denotes s d : denotes s d -> qtext s = dval d.
Proof. intros [E _]. unfold qtext. by rewrite E. Qed.
Lemma qtext_signed s d : denotes_signed s d -> qtext s = dval d.
Proof. intros (_ & E & _). unfold qtext. by rewrite E. Qed.
Lemma qtext_format d : dexp d <= 0 -> qtext (format_f d) = dval d.
Proof. intros H. unfold qtext. by rewrite Decimal_format. Qed.

Lemma state_unsigned value field positive d : state_number value field positive false = Ok d
  <-> denotes value d /\ (positive = true -> (0 < dval d)%Q).
Proof. apply plain_number_unsigned. Qed.
Lemma state_signed value field d : state_number value field false true = Ok d <-> denotes_signed value d.
Proof. apply plain_number_signed. Qed.

(** [state_facts] reads the number checks of a constructor. *)
Ltac state_facts :=
  repeat match goal with
  | H : state_number _ _ _ false = Ok _ |- _ => apply state_unsigned in H; destruct H
  | H : state_number _ _ false true = Ok _ |- _ => apply state_signed in H
  end;
  repeat match goal with H : true = true -> _ |- _ => specialize (H eq_refl) end.

Record observation_facts (o : observation) : Prop := {
  of_symbol : ob_symbol o ∈ SYMBOLS;
  of_sequence : 0 <= ob_sequence o <= 1000000000;
  of_time : 0 <= ob_decision_time_ms o /\ ob_decision_time_ms o mod HOUR_MS = 0;
  of_values : exists e c q m p, denotes (ob_equity_quote o) e /\ denotes (ob_cash_quote o) c
    /\ denotes (ob_position_quantity o) q /\ denotes (ob_mark_price o) m /\ denotes_signed (realized_pnl_delta_quote o) p
    /\ (0 < dval e)%Q /\ (0 < dval m)%Q /\ signs_match (ob_close_outcome o) p = true;
}.

Lemma observation_valid_facts o : observation_valid o -> observation_facts o.
Proof.
  unfold observation_valid, observation_post_init. intros H. res_inv. state_facts.
  apply negb_false_iff, str_in_spec in Hc. apply negb_false_iff in Hc0, Hc2. bool_prop.
  constructor; [done|lia|lia|]. exists a, a0, a1, a2, a3. done.
Qed.

Lemma denotes_text s d : denotes s d -> format_f d = s.
Proof. by intros (_ & _ & ?). Qed.

(** ** One step *)

Record step_facts (previous : managed_state) (o : observation) (s : managed_state) : Prop := {
  sf_symbol : ob_symbol o = mps_symbol previous;
  sf_sequence : ob_sequence o = mps_sequence previous + 1;
  sf_time : mps_decision_time_ms previous < ob_decision_time_ms o;
  sf_position : if decide (ob_close_outcome o = NO_CLOSE)
    then (0 < qtext (mps_position_quantity previous))%Q -> (qtext (ob_position_quantity o) == qtext (mps_position_quantity previous))%Q
    else (0 < qtext (mps_position_quantity previous))%Q /\ (qtext (ob_position_quantity o) == 0)%Q;
  sf_session : if start_new_session o
    then ob_decision_time_ms o mod UTC_DAY_MILLISECONDS = 0 /\ ob_close_outcome o = NO_CLOSE
         /\ session_start_time_ms s = ob_decision_time_ms o /\ session_start_equity_quote s = ob_equity_quote o
         /\ (qtext (mps_session_realized_pnl_quote s) == 0)%Q
    else session_start_time_ms s = session_start_time_ms previous
         /\ session_start_equity_quote s = session_start_equity_quote previous
         /\ (qtext (mps_session_realized_pnl_quote s)
             == qtext (mps_session_realized_pnl_quote previous) + qtext (realized_pnl_delta_quote o))%Q;
  sf_peak : (qtext (mps_peak_equity_quote s) == Qmax (qtext (mps_peak_equity_quote previous)) (qtext (ob_equity_quote o)))%Q;
  sf_losses : mps_consecutive_losses s = next_losses (ob_close_outcome o) (mps_consecutive_losses previous);
  sf_previous : mps_previous_sha256 s = Some (state_sha256 previous);
}.

#[export] Instance Qeq_decision (a b : Q) : Decision (a == b)%Q := Qeq_dec a b.

(** What every state copies from its observation. *)
Record copies (o : observation) (s : managed_state) : Prop := {
  cp_symbol : mps_symbol s = ob_symbol o;
  cp_sequence : mps_sequence s = ob_sequence o;
  cp_time : mps_decision_time_ms s = ob_decision_time_ms o;
  cp_equity : mps_equity_quote s = ob_equity_quote o;
  cp_cash : mps_cash_quote s = ob_cash_quote o;
  cp_quantity : mps_position_quantity s = ob_position_quantity o;
  cp_mark : mps_mark_price s = ob_mark_price o;
  cp_open : mps_open_positions s = if decide (qtext (ob_position_quantity o) == 0)%Q then 0 else 1;
  cp_gross : (qtext (gross_exposure_quote s) == qtext (ob_position_quantity o) * qtext (ob_mark_price o))%Q;
  cp_digest : mps_observation_sha256 s = observation_sha256 o;
}.

Record managed_facts (s : managed_state) : Prop := {
  mf_sequence : 0 <= mps_sequence s <= 1000000000;
  mf_losses : 0 <= mps_consecutive_losses s <= 1000000;
  mf_values : exists b e c q m p r g, denotes (session_start_equity_quote s) b /\ denotes (mps_equity_quote s) e
    /\ denotes (mps_cash_quote s) c /\ denotes (mps_position_quantity s) q /\ denotes (mps_mark_price s) m
    /\ denotes (mps_peak_equity_quote s) p /\ denotes_signed (mps_session_realized_pnl_quote s) r /\ denotes (gross_exposure_quote s) g
    /\ (0 < dval b)%Q /\ (0 < dval e)%Q /\ (0 < dval m)%Q /\ (dval e <= dval p)%Q;
}.

Lemma managed_valid_facts s : managed_valid s -> managed_facts s.
Proof.
  unfold managed_valid, managed_post_init. intros H. res_inv. state_facts. bool_prop.
  destruct Hc4 as [_ Hc4]. destruct Hc5 as [Hc5 _].
  constructor; [lia|lia|]. exists a, a0, a1, a2, a3, a4, a5, a6. done.
Qed.

Lemma denotes_dexp s d : denotes s d -> dexp d <= 0.
Proof. intros (_ & (_ & H & _) & _). lia. Qed.

Lemma gross_exact q m sq sm : denotes sq q -> denotes sm m ->
  (dval (dmul FP q m) == dval q * dval m)%Q /\ dexp (dmul FP q m) <= 0.
Proof.
  intros Hq Hm. destruct (denotes_exactly _ _ Hq) as (Eq & Xq & _), (denotes_exactly _ _ Hm) as (Em & Xm & _).
  destruct (exactly_mul Eq Em ltac:(done)) as [[_ V] X]. split; [done|lia].
Qed.

(** The construction at the end of [_next_state]. *)
Lemma next_state_copies prev o s : observation_valid o -> _next_state prev o = Ok s -> managed_valid s /\ copies o s.
Proof.
  intros Ho H. destruct (observation_valid_facts o Ho) as [_ _ _ (e & c & q & m & p & He & Hc & Hq & Hm & _)].
  unfold _next_state in H. res_inv. subst. unfold new_managed in H. res_inv. subst.
  assert (a0 = e) as -> by (destruct He as [E _]; congruence). assert (a1 = q) as -> by (destruct Hq as [E _]; congruence).
  assert (a2 = m) as -> by (destruct Hm as [E _]; congruence). assert (a4 = c) as -> by (destruct Hc as [E _]; congruence).
  match goal with Hx : managed_post_init ?s = Ok ?u |- _ => assert (managed_valid s) as Hv by (unfold managed_valid; rewrite Hx; by destruct u) end.
  split; [exact Hv|]. destruct (gross_exact q m _ _ Hq Hm) as [Vg Xg].
  constructor; cbn; try done; try (by apply denotes_text).
  - rewrite (qtext_denotes _ _ Hq). destruct (decide _) as [E|E]; [by rewrite (proj2 (deqb_spec q dec0)) by (by rewrite dval_0)|].
    destruct (deqb q dec0) eqn:Ed; [|done]. apply deqb_spec in Ed. by rewrite dval_0 in Ed.
  - rewrite qtext_format by done. by rewrite (qtext_denotes _ _ Hq), (qtext_denotes _ _ Hm).
Qed.

Lemma dval_dmax a b : (dval (dmax a b) == Qmax (dval a) (dval b))%Q.
Proof.
  unfold dmax. destruct (dltb a b) eqn:E; [apply dltb_spec in E|apply dltb_false in E].
  - symmetry. apply Q.max_r. lra.
  - symmetry. by apply Q.max_l.
Qed.
Lemma dexp_dmax a b : dexp a <= 0 -> dexp b <= 0 -> dexp (dmax a b) <= 0.
Proof. unfold dmax. by destruct (dltb a b). Qed.

Lemma deqb_qtext s q : denotes s q -> deqb q dec0 = true <-> (qtext s == 0)%Q.
Proof. intros H. by rewrite deqb_spec, dval_0, (qtext_denotes _ _ H). Qed.

(** Signed texts are exact values. *)
Lemma signed_exactly s d : denotes_signed s d -> exactly 40 40 d (dval d) /\ dexp d <= 0.
Proof. intros (_ & _ & (_ & Hx & Hf) & _). split; [by split|lia]. Qed.

Lemma next_state_step p o s : managed_valid p -> observation_valid o -> _next_state (Some p) o = Ok s -> step_facts p o s.
Proof.
  intros Hp Ho H. destruct (observation_valid_facts o Ho) as [_ _ _ (e & c & q & m & r & He & Hc & Hq & Hm & Hr & _)].
  destruct (managed_valid_facts p Hp) as [_ _ (b' & e' & c' & q' & m' & pk & r' & g' & Hb' & _ & _ & Hq' & _ & Hpk & Hr' & _)].
  unfold _next_state in H. rewrite (proj1 (proj2 Hr)), (proj1 He), (proj1 Hq), (proj1 Hm), (proj1 Hc) in H. cbn [rbind] in H.
  destruct (following_derived p o r e q) as [d|] eqn:Ed; [|done]. cbn [rbind] in H. unfold new_managed in H. res_inv. subst s. clear Hr0.
  unfold following_derived in Ed. rewrite (proj1 Hq'), (proj1 Hpk) in Ed. res_inv. bool_prop. subst a0 a2 d.
  pose proof (denotes_dexp _ _ Hpk) as Xpk. pose proof (denotes_dexp _ _ He) as Xe.
  constructor; cbn [mps_peak_equity_quote mps_consecutive_losses mps_previous_sha256 session_start_time_ms session_start_equity_quote
    mps_session_realized_pnl_quote dv_session_start_time dv_session_start_equity dv_session_pnl dv_peak dv_consecutive_losses dv_previous_sha];
    try done.
  - rewrite (qtext_denotes _ _ Hq), (qtext_denotes _ _ Hq'). case_decide as Ho'.
    + intros Hpos. rewrite bool_decide_true in Hc3 by done. simpl in Hc3.
      assert (dltb dec0 q' = true) as E by (apply dltb_spec; by rewrite dval_0). rewrite E in Hc3. simpl in Hc3.
      by apply negb_false_iff, deqb_spec in Hc3.
    + rewrite bool_decide_false in Hc4 by done. simpl in Hc4. apply orb_false_iff in Hc4 as [E1 E2].
      apply dleb_false in E1. rewrite dval_0 in E1. apply negb_false_iff, deqb_spec in E2. by rewrite dval_0 in E2.
  - destruct (start_new_session o).
    + res_inv. subst a1. cbn [fst snd]. bool_prop. apply bool_decide_eq_true in Hc6. rewrite (denotes_text _ _ He).
      rewrite qtext_format by done. by rewrite dval_0.
    + rewrite (proj1 Hb'), (proj1 (proj2 Hr')) in Hr0. cbn [rbind] in Hr0. res_inv. subst a1. cbn [fst snd]. rewrite (denotes_text _ _ Hb').
      destruct (signed_exactly _ _ Hr) as [Er Xr], (signed_exactly _ _ Hr') as [Er' Xr'].
      destruct (exactly_add Er' Er ltac:(done)) as [[_ V] X]. split; [done|]. split; [done|].
      by rewrite qtext_format, V, (qtext_signed _ _ Hr), (qtext_signed _ _ Hr') by lia.
  - rewrite qtext_format by by apply dexp_dmax. by rewrite dval_dmax, (qtext_denotes _ _ Hpk), (qtext_denotes _ _ He).
Qed.

Lemma next_state_initial o s : observation_valid o -> _next_state None o = Ok s ->
  ob_sequence o = 0 /\ start_new_session o = true /\ ob_close_outcome o = NO_CLOSE /\ (qtext (ob_position_quantity o) == 0)%Q
  /\ session_start_time_ms s = ob_decision_time_ms o /\ session_start_equity_quote s = ob_equity_quote o
  /\ (qtext (mps_session_realized_pnl_quote s) == 0)%Q /\ mps_peak_equity_quote s = ob_equity_quote o
  /\ mps_consecutive_losses s = 0 /\ mps_previous_sha256 s = None.
Proof.
  intros Ho H. destruct (observation_valid_facts o Ho) as [_ _ _ (e & c & q & m & r & He & Hc & Hq & Hm & Hr & _)].
  unfold _next_state in H. rewrite (proj1 (proj2 Hr)), (proj1 He), (proj1 Hq), (proj1 Hm), (proj1 Hc) in H. cbn [rbind] in H.
  unfold initial_derived in H. destruct (negb (ob_sequence o =? 0) || _) eqn:E1; [done|]. destruct (negb (bool_decide _) || _) eqn:E2; [done|].
  cbn [rbind] in H. unfold new_managed in H. res_inv. subst s. clear Hr0. bool_prop. destruct E1 as [-> ->], E2 as [E2 E3].
  apply bool_decide_eq_true in E2. rewrite dval_0, <- (qtext_denotes _ _ Hq) in E3.
  cbn [session_start_time_ms session_start_equity_quote mps_session_realized_pnl_quote mps_peak_equity_quote mps_consecutive_losses
    mps_previous_sha256 dv_session_start_time dv_session_start_equity dv_session_pnl dv_peak dv_consecutive_losses dv_previous_sha].
  rewrite (denotes_text _ _ He), qtext_format by done. by rewrite dval_0.
Qed.

(** ** Histories *)

Lemma apply_ok previous o t : apply_portfolio_observation previous o = Ok t
  <-> exists s, _next_state previous o = Ok s /\ t = PortfolioStateTransition previous o s.
Proof.
  unfold apply_portfolio_observation, transition_post_init. cbn [st_previous st_observation st_current]. split.
  - intros H. res_inv. subst. by exists a.
  - intros (s & E & ->). rewrite E. cbn [rbind]. by rewrite bool_decide_true.
Qed.

(** ** The digest chain *)

Lemma outcome_value_inj a b : outcome_value a = outcome_value b -> a = b.
Proof. by destruct a, b. Qed.

Definition hashed_observation (o : observation) : list text := [json_dumps (observation_payload o)].
Definition hashed_managed (s : managed_state) : list text := [json_dumps (state_payload s)].

Lemma observation_binds T o o' : among (hashed_observation o) T -> among (hashed_observation o') T -> observation_sha256 o = observation_sha256 o' ->
  o = o' \/ collision T.
Proof.
  intros HT HT' H. destruct (digest_binds T _ _ (among_head _ _ _ HT) (among_head _ _ _ HT') H) as [E|E]; [|by right]. left. clear H. unfold observation_payload in E. json_fields E.
  match goal with Hx : outcome_value _ = outcome_value _ |- _ => apply outcome_value_inj in Hx end.
  destruct o, o'. simpl in *. congruence.
Qed.

Lemma state_binds T s s' : among (hashed_managed s) T -> among (hashed_managed s') T -> state_sha256 s = state_sha256 s' -> s = s' \/ collision T.
Proof.
  intros HT HT' H. destruct (digest_binds T _ _ (among_head _ _ _ HT) (among_head _ _ _ HT') H) as [E|E]; [|by right]. left. clear H. unfold state_payload in E. json_fields E.
  destruct s, s'. simpl in *. subst. reflexivity.
Qed.

(** The states form a hash chain of their observations. *)
Definition observe (p : option managed_state) (o : observation) : result managed_state :=
  let* t := apply_portfolio_observation p o in Ok (st_current t).

Lemma observe_next p o s : observe p o = Ok s <-> _next_state p o = Ok s.
Proof.
  unfold observe. split.
  - intros H. apply rbind_ok in H as (t & Ht & [= <-]). by apply apply_ok in Ht as (s' & E & ->).
  - intros E. by rewrite (proj2 (apply_ok p o _) (ex_intro _ s (conj E eq_refl))).
Qed.

Lemma observe_preserves p o s : (forall q, p = Some q -> managed_valid q) -> observation_valid o -> observe p o = Ok s -> managed_valid s.
Proof. intros _ Ho H. apply observe_next in H. by eapply next_state_copies. Qed.

Lemma observe_records p o s : (forall q, p = Some q -> managed_valid q) -> observation_valid o -> observe p o = Ok s ->
  mps_previous_sha256 s = option_map state_sha256 p /\ mps_observation_sha256 s = observation_sha256 o.
Proof.
  intros Hp Ho H. apply observe_next in H. destruct (next_state_copies _ _ _ Ho H) as [_ Hcp]. split; [|apply (cp_digest _ _ Hcp)].
  destruct p as [p|]; [by apply (sf_previous _ _ _ (next_state_step _ _ _ (Hp p eq_refl) Ho H))|by apply (next_state_initial _ _ Ho H)].
Qed.

#[export] Instance managed_chain : HashChain observation managed_state := {
  hc_step := observe; hc_event_ok := observation_valid; hc_state_ok := managed_valid;
  hc_state_digest := state_sha256; hc_event_digest := observation_sha256;
  hc_previous := mps_previous_sha256; hc_event := mps_observation_sha256;
  hc_preserved := observe_preserves; hc_records := observe_records;
  hc_hashed_state := hashed_managed; hc_hashed_event := hashed_observation;
  hc_state_binds := state_binds; hc_event_binds := fun T o o' HT HT' _ _ => observation_binds T o o' HT HT';
}.

(** The states reached by applying observations one after the other. *)
Abbreviation history := (@chained observation managed_state managed_chain).

(** The specification: what the observations alone say. *)
Definition settles (o : observation) : Prop := ob_close_outcome o = WIN \/ ob_close_outcome o = BREAKEVEN.
Definition is_loss (o : observation) : bool := match ob_close_outcome o with LOSS => true | _ => false end.
(** The losses since the last trade that closed with a gain or even, or since the
    beginning when there was none. *)
Definition losses_since (os : list observation) (n : Z) : Prop :=
  exists settled streak, os = settled ++ streak /\ (settled = [] \/ exists o, last settled = Some o /\ settles o)
    /\ Forall (fun o => ~ settles o) streak /\ n = Z.of_nat (length (List.filter is_loss streak)).
Definition session_pnl_of (os : list observation) : Q :=
  fold_left (fun acc o => if start_new_session o then 0%Q else (acc + qtext (realized_pnl_delta_quote o))%Q) os 0%Q.
Definition peak_of (os : list observation) : Q := fold_left (fun m o => Qmax m (qtext (ob_equity_quote o))) os 0%Q.
Definition session_of (os : list observation) : option (Z * string) :=
  fold_left (fun acc o => if start_new_session o then Some (ob_decision_time_ms o, ob_equity_quote o) else acc) os None.

Record summarizes (os : list observation) (s : managed_state) : Prop := {
  sm_copies : exists o, last os = Some o /\ copies o s;
  sm_sequence : mps_sequence s = Z.of_nat (length os) - 1;
  sm_symbol : Forall (fun o => ob_symbol o = mps_symbol s) os;
  sm_order : StronglySorted (fun o o' => ob_decision_time_ms o < ob_decision_time_ms o') os;
  sm_losses : losses_since os (mps_consecutive_losses s);
  sm_pnl : (qtext (mps_session_realized_pnl_quote s) == session_pnl_of os)%Q;
  sm_peak : (qtext (mps_peak_equity_quote s) == peak_of os)%Q;
  sm_session : session_of os = Some (session_start_time_ms s, session_start_equity_quote s);
}.

Lemma qtext_equity_pos o : observation_valid o -> (0 < qtext (ob_equity_quote o))%Q.
Proof.
  intros H. destruct (observation_valid_facts o H) as [_ _ _ (e & c & q & m & r & He & _ & _ & _ & _ & Pe & _)].
  by rewrite (qtext_denotes _ _ He).
Qed.


Lemma losses_initial o : ob_close_outcome o = NO_CLOSE -> losses_since [o] 0.
Proof.
  intros H. exists [], [o]. split; [done|]. split; [by left|]. split; [constructor; [intros [X|X]; congruence|constructor]|].
  cbn [List.filter]. unfold is_loss. by rewrite H.
Qed.

Lemma losses_next os o n : losses_since os n -> losses_since (os ++ [o]) (next_losses (ob_close_outcome o) n).
Proof.
  intros (settled & streak & -> & Hs & Hf & ->). unfold next_losses. destruct (decide (settles o)) as [Ho|Ho].
  - exists ((settled ++ streak) ++ [o]), []. split; [by rewrite app_nil_r|]. split; [right; exists o; by rewrite last_snoc|]. split; [constructor|].
    by destruct Ho as [-> | ->].
  - exists settled, (streak ++ [o]). rewrite app_assoc. split; [done|]. split; [done|]. split; [apply Forall_app; split; [done|by constructor]|].
    rewrite List.filter_app, length_app. cbn [List.filter]. assert (is_loss o = match ob_close_outcome o with LOSS => true | _ => false end) as -> by done.
    unfold settles in Ho. destruct (ob_close_outcome o); cbn [length]; [lia|exfalso; tauto|lia|exfalso; tauto].
Qed.

Lemma losses_unsettled os n : losses_since os n -> Forall (fun o => ~ settles o) os -> n = Z.of_nat (length (List.filter is_loss os)).
Proof.
  intros (settled & streak & -> & Hs & _ & ->) H. apply Forall_app in H as [H _]. destruct Hs as [->|(o & Ho & Hset)]; [done|].
  exfalso. apply last_Some_elem_of in Ho. rewrite Forall_forall in H. by apply (H o).
Qed.

Lemma history_summary os s : history os s -> summarizes os s.
Proof.
  induction 1 as [o s Ho H|os p o s Hh IH Ho H]; pose proof (proj1 (observe_next _ _ _) H) as E; clear H;
    destruct (next_state_copies _ _ _ Ho E) as [Hs Hcp].
  - destruct (next_state_initial _ _ Ho E) as (I1 & I2 & I3 & I4 & I5 & I6 & I7 & I8 & I9 & I10).
    constructor; unfold session_pnl_of, peak_of, session_of; cbn [fold_left].
    + exists o. done.
    + rewrite (cp_sequence _ _ Hcp), I1. done.
    + constructor; [by rewrite (cp_symbol _ _ Hcp)|constructor].
    + repeat constructor.
    + rewrite I9. by apply losses_initial.
    + by rewrite I2.
    + rewrite I8. symmetry. apply Q.max_r. apply Qlt_le_weak. by apply qtext_equity_pos.
    + by rewrite I2, I5, I6.
  - pose proof (next_state_step _ _ _ (chained_ok _ _ Hh) Ho E) as [S1 S2 S3 S4 S5 S6 S7 S8].
    destruct IH as [(o' & Hl & Hcp') H2 H3 H4 H5 H6 H7 H8].
    assert (Transitive (fun o o' : observation => ob_decision_time_ms o < ob_decision_time_ms o')) as Htr by (intros ? ? ?; lia).
    constructor; unfold session_pnl_of, peak_of, session_of; rewrite ?fold_left_app; cbn [fold_left].
    + exists o. by rewrite last_snoc.
    + rewrite (cp_sequence _ _ Hcp), S2, H2, length_app. simpl. lia.
    + apply Forall_app. split; [|by repeat constructor; rewrite (cp_symbol _ _ Hcp)].
      eapply Forall_impl; [exact H3|]. intros x Hx. simpl in Hx. by rewrite (cp_symbol _ _ Hcp), S1.
    + apply strongly_sorted_snoc; [done|]. apply (strongly_sorted_last (fun o o' : observation => ob_decision_time_ms o < ob_decision_time_ms o') os o' o); [done|done|done|]. rewrite <- (cp_time _ _ Hcp'). done.
    + rewrite S7. by apply losses_next.
    + fold (session_pnl_of os). destruct (start_new_session o); [apply S5|]. destruct S5 as (_ & _ & S5). by rewrite S5, H6.
    + fold (peak_of os). by rewrite S6, H7.
    + fold (session_of os). destruct (start_new_session o); [destruct S5 as (_ & _ & -> & -> & _); done|].
      destruct S5 as (-> & -> & _). done.
Qed.

(** * Claims *)

Definition sample_open : observation :=
  PortfolioObservation "BTCUSDT" 0 86400000 "1000" "1000" "0" "100" "0" NO_CLOSE true.
Definition sample_entry : observation :=
  PortfolioObservation "BTCUSDT" 1 90000000 "1010.5" "500" "5.105" "100" "0" NO_CLOSE false.
Definition sample_exit : observation :=
  PortfolioObservation "BTCUSDT" 2 93600000 "990" "990" "0" "96" "-10.00" LOSS false.

(** C15. The managed state is a refinement of its observation history: whatever
    ordered observations [apply_portfolio_observation] accepted one after the
    other, the state it ends in repeats the last observation's account facts,
    its counter of consecutive losses is the number of losing trades since the last
    one that closed with a gain or even (since the beginning when there is none), its
    realized profit of the session, peak equity and session start are the folds of
    the specification over the whole history (every one exact, none rounded), its sequence number counts the
    observations, and the history is one symbol's, strictly ordered in time. *)
Theorem managed_state_refines os s (H : history os s) : summarizes os s.
Proof. exact (history_summary os s H). Qed.

(** The digest chain commits to the whole history: two accepted histories
    whose final states carry the same SHA-256 digest are the same sequence of
    observations and end in the same state, unless two of the texts hashed for them
    collide. *)
Theorem state_digest_binds_history os os' s s' (H : history os s) (H' : history os' s')
    (Hd : state_sha256 s = state_sha256 s') : (os = os' /\ s = s') \/ collision (hashed_along None os ++ hashed_along None os').
Proof. exact (digest_binds_chain os os' s s' H H' Hd). Qed.

Lemma sample_history : exists s, history [sample_open; sample_entry; sample_exit] s.
Proof.
  destruct (run_events [sample_open; sample_entry; sample_exit]) as [[s|]|] eqn:E;
    [|exfalso; revert E; vm_compute; discriminate|exfalso; revert E; vm_compute; discriminate].
  exists s. apply chained_run; [repeat constructor; vm_compute; reflexivity|exact E].
Qed.

Lemma managed_state_refines_witness : exists s, history [sample_open; sample_entry; sample_exit] s
  /\ summarizes [sample_open; sample_entry; sample_exit] s /\ mps_consecutive_losses s = 1.
Proof.
  destruct sample_history as [s H]. pose proof (managed_state_refines _ s H) as R. exists s.
  split; [exact H|]. split; [exact R|]. rewrite (losses_unsettled _ _ (sm_losses _ _ R)); [reflexivity|].
  repeat (constructor; [intros [X|X]; discriminate X|]). constructor.
Defined.

Lemma state_digest_binds_history_witness : exists s, history [sample_open; sample_entry; sample_exit] s
  /\ (([sample_open; sample_entry; sample_exit] = [sample_open; sample_entry; sample_exit] /\ s = s)
      \/ collision (hashed_along None [sample_open; sample_entry; sample_exit] ++ hashed_along None [sample_open; sample_entry; sample_exit])).
Proof.
  destruct sample_history as [s H]. exists s. split; [exact H|].
  exact (state_digest_binds_history _ _ s s H H eq_refl).
Defined.
