(* ===== verification/Sizing.v ===== *)
(** * Position sizing (yatl/risk/sizing.py)

    The largest stepped quantity whose cost-adjusted stop loss stays within the
    policy's loss budget, and the result record that recomputes it. *)
From Stdlib Require Import Qround.
From S2P Require Import Prelude PyDecimal PyText Digest Market BacktestConfig MarketView Costs StrategyContracts Features Regime Trend ExactDec RiskContracts.

Definition FEE_BPS : dec := dec_of_Z 10.
Definition SLIPPAGE_BPS : dec := dec_of_Z 5.
Definition QUANTITY_STEP : dec := Dec false 1 (-6).

Record size_values : Type := SizeValues {
  sv_quantity : dec;
  sv_risk_budget_quote : dec;
  sv_entry_execution_price : dec;
  sv_stop_execution_price : dec;
  sv_loss_per_unit_quote : dec;
  sv_planned_loss_quote : dec;
  sv_fee_quote : dec;
  sv_slippage_quote : dec;
}.

Definition size_eligible (r : risk_request) : bool :=
  bool_decide (sd_action (rq_decision r) = SEnterLong) && negb (opt_is_none (sd_setup (rq_decision r)))
  && bool_decide (rq_evidence r = QUALIFIED_FOR_P4_RESEARCH) && negb (kill_switch_active (rq_portfolio r))
  && (prs_open_positions (rq_portfolio r) =? 0).

(** The quantity in whole steps and what it costs. *)
Definition stepped_values (risk_budget entry_execution stop_execution fee_per_unit slippage_per_unit loss_per_unit : dec)
    : result size_values :=
  let* units := ddiv FP risk_budget loss_per_unit in
  let* stepped := ddiv FP units QUANTITY_STEP in
  let steps := dfloor stepped in
  let quantity := dmul FP steps QUANTITY_STEP in
  raise_if dleb quantity dec0 with RiskSizingError "Risk budget is below the minimum quantity step" ;;
  let planned_loss := dmul FP quantity loss_per_unit in
  let total_fee := dmul FP quantity fee_per_unit in
  let total_slippage := dmul FP quantity slippage_per_unit in
  raise_if dltb risk_budget planned_loss with RiskSizingError "Rounded quantity exceeds the loss budget" ;;
  Ok (SizeValues quantity risk_budget entry_execution stop_execution loss_per_unit planned_loss total_fee total_slippage).

Definition _entry_values (r : risk_request) : result size_values :=
  match sd_setup (rq_decision r), size_eligible r with
  | Some setup, true =>
      let* equity := Decimal (prs_equity_quote (rq_portfolio r)) in
      let* entry := Decimal (setup_reference_price setup) in
      let* stop := Decimal (invalidation_price setup) in
      let* risk_fraction := Decimal (risk_per_trade_fraction (rq_policy r)) in
      let* fee_rate := ddiv FP FEE_BPS BASIS_POINTS in
      let* slippage_rate := ddiv FP SLIPPAGE_BPS BASIS_POINTS in
      let risk_budget := dmul FP equity risk_fraction in
      let entry_execution := dmul FP entry (dadd FP dec1 slippage_rate) in
      let stop_execution := dmul FP stop (dsub FP dec1 slippage_rate) in
      raise_if dleb stop_execution dec0 || dleb entry_execution stop_execution
        with RiskSizingError "Cost-adjusted entry and stop are invalid" ;;
      let fee_per_unit := dmul FP (dadd FP entry_execution stop_execution) fee_rate in
      let slippage_per_unit := dmul FP (dadd FP entry stop) slippage_rate in
      let loss_per_unit := dadd FP (dsub FP entry_execution stop_execution) fee_per_unit in
      raise_if dleb risk_budget dec0 || dleb loss_per_unit dec0
        with RiskSizingError "Risk budget or loss per unit is invalid" ;;
      stepped_values risk_budget entry_execution stop_execution fee_per_unit slippage_per_unit loss_per_unit
  | _, _ => Err (Raise RiskSizingError "Entry request is not eligible for sizing")
  end.

Record position_size : Type := PositionSize {
  ps_request : risk_request;
  ps_quantity : string;
  ps_risk_budget_quote : string;
  ps_entry_execution_price : string;
  ps_stop_execution_price : string;
  ps_loss_per_unit_quote : string;
  ps_planned_loss_quote : string;
  ps_fee_quote : string;
  ps_slippage_quote : string;
}.
#[global] Instance position_size_eq_dec : EqDecision position_size.
Proof. solve_decision. Defined.

(** A canonical text: of the pattern, and the expected one. *)
Definition canonical (value : string) (expected : dec) : bool :=
  decimal_pattern value && String.eqb value (format_f expected).

Definition size_post_init (p : position_size) : result unit :=
  let* expected := _entry_values (ps_request p) in
  raise_if negb (canonical (ps_quantity p) (sv_quantity expected)
                 && canonical (ps_risk_budget_quote p) (sv_risk_budget_quote expected)
                 && canonical (ps_entry_execution_price p) (sv_entry_execution_price expected)
                 && canonical (ps_stop_execution_price p) (sv_stop_execution_price expected)
                 && canonical (ps_loss_per_unit_quote p) (sv_loss_per_unit_quote expected)
                 && canonical (ps_planned_loss_quote p) (sv_planned_loss_quote expected)
                 && canonical (ps_fee_quote p) (sv_fee_quote expected)
                 && canonical (ps_slippage_quote p) (sv_slippage_quote expected))
    with RiskSizingError "Position-size result is noncanonical or inconsistent" ;;
  let* planned := Decimal (ps_planned_loss_quote p) in
  let* budget := Decimal (ps_risk_budget_quote p) in
  raise_if dltb budget planned with RiskSizingError "Position-size result exceeds its loss budget" ;;
  let* quantity := Decimal (ps_quantity p) in
  let* loss_per_unit := Decimal (ps_loss_per_unit_quote p) in
  let next_loss := dmul FP (dadd FP quantity QUANTITY_STEP) loss_per_unit in
  raise_if dleb next_loss budget with RiskSizingError "Position size was not rounded to the maximum safe step" ;;
  Ok tt.
Definition new_size (p : position_size) : result position_size := do* size_post_init p ;; Ok p.

Definition size_texts (r : risk_request) (v : size_values) : position_size :=
  PositionSize r (format_f (sv_quantity v)) (format_f (sv_risk_budget_quote v)) (format_f (sv_entry_execution_price v))
    (format_f (sv_stop_execution_price v)) (format_f (sv_loss_per_unit_quote v)) (format_f (sv_planned_loss_quote v))
    (format_f (sv_fee_quote v)) (format_f (sv_slippage_quote v)).

Definition size_entry (r : risk_request) : result position_size :=
  let* values := _entry_values r in new_size (size_texts r values).

(** * Properties *)

Definition size_is_valid (p : position_size) : Prop := size_post_init p = Ok tt.

(** ** The specification over the rationals *)

Definition million : Q := 1000000%Q.

Section Spec.
Variables equity entry stop : Q.
Definition budget_value : Q := (equity / 100)%Q.
Definition entry_exec : Q := (entry * (10005 # 10000))%Q.
Definition stop_exec : Q := (stop * (9995 # 10000))%Q.
Definition unit_fee : Q := ((entry_exec + stop_exec) / 1000)%Q.
Definition unit_slippage : Q := ((entry + stop) * (5 # 10000))%Q.
Definition unit_loss : Q := (entry_exec - stop_exec + unit_fee)%Q.
Definition step_count : Z := Qfloor (budget_value / unit_loss * million).
Definition step_quantity : Q := (inject_Z step_count / million)%Q.
End Spec.

Record sized (equity entry stop : Q) (v : size_values) : Prop := {
  sq_quantity : exactly 94 6 (sv_quantity v) (step_quantity equity entry stop);
  sq_budget : exactly 40 42 (sv_risk_budget_quote v) (budget_value equity);
  sq_entry : exactly 41 44 (sv_entry_execution_price v) (entry_exec entry);
  sq_stop : exactly 41 44 (sv_stop_execution_price v) (stop_exec stop);
  sq_loss : exactly 43 47 (sv_loss_per_unit_quote v) (unit_loss entry stop);
  sq_planned : exactly 40 53 (sv_planned_loss_quote v) (step_quantity equity entry stop * unit_loss entry stop);
  sq_fee : exactly 136 53 (sv_fee_quote v) (step_quantity equity entry stop * unit_fee entry stop);
  sq_slippage : exactly 135 50 (sv_slippage_quote v) (step_quantity equity entry stop * unit_slippage entry stop);
  sq_planned_exp : dexp (sv_planned_loss_quote v) = dexp (sv_quantity v) + dexp (sv_loss_per_unit_quote v);
}.

Lemma million_step x : (x / dval QUANTITY_STEP == x * million)%Q.
Proof. unfold QUANTITY_STEP, dval, sval, million. cbn [dneg dcoef dexp]. change (q10 (-6)) with (/ 1000000)%Q. field. Qed.

Lemma rep_step n i : 0 <= i -> Z.abs n < 10 ^ i -> rep i 6 (inject_Z n / million).
Proof.
  intros Hi Hn. apply (rep_weaken (i - 6) 6); [|lia|lia]. apply (rep_div10 6 i 0); [lia|]. by apply rep_Z.
Qed.

Lemma over_million n : (inject_Z n / million == inject_Z n * (1 # 1000000))%Q.
Proof. unfold million. field. Qed.
Lemma step_le n x : (inject_Z n / million <= x)%Q -> (inject_Z n <= x * million)%Q.
Proof. rewrite over_million. unfold million. intros H. lra. Qed.
Lemma le_step n x : (inject_Z n <= x * million)%Q -> (inject_Z n / million <= x)%Q.
Proof. rewrite over_million. unfold million. intros H. lra. Qed.
Lemma lt_step n B L : (0 < L)%Q -> (B / L * million < inject_Z n)%Q -> (B < inject_Z n / million * L)%Q.
Proof.
  rewrite over_million. unfold million. intros HL H.
  assert (B / L < inject_Z n * (1 # 1000000))%Q as H' by (remember (B / L)%Q as x; clear Heqx; lra).
  apply (Qmult_lt_compat_r _ _ L) in H'; [|done]. eapply Qle_lt_trans; [|exact H']. apply Qle_lteq. right. field. lra.
Qed.

Lemma Qfloor_nonneg x : (0 <= x)%Q -> 0 <= Qfloor x.
Proof. intros H. change 0 with (Qfloor 0). by apply Qfloor_resp_le. Qed.

Lemma quotient_bound B L : rep 40 42 B -> rep 43 47 L -> (0 < B)%Q -> (0 < L)%Q -> 0 <= Qfloor (B / L * million) < 10 ^ 94.
Proof.
  intros Rb Rl HB HL. pose proof (rep_gap _ _ _ Rl HL) as Hg. pose proof (rep_lt _ _ _ Rb) as Hb. rewrite Qabs_pos in Hb by lra.
  assert (0 <= B / L)%Q as Hn by (apply Qlt_le_weak; by apply Qlt_shift_div_l; rewrite ?Qmult_0_l).
  assert (B / L <= q10 87)%Q as Hq.
  { apply Qle_shift_div_r; [done|]. apply (Qle_trans _ (q10 87 * q10 (-47))).
    - rewrite <- q10_plus. by apply Qlt_le_weak.
    - apply Qmult_le_l; [apply q10_pos|done]. }
  assert (B / L * million <= q10 93)%Q as Hm.
  { change (q10 93) with (q10 (87 + 6)). rewrite q10_plus. by apply Qmult_le_compat_r. }
  split.
  - change 0 with (Qfloor 0). apply Qfloor_resp_le. unfold million. lra.
  - rewrite Zlt_Qlt. eapply Qle_lt_trans; [apply Qfloor_le|]. eapply Qle_lt_trans; [exact Hm|]. vm_compute. reflexivity.
Qed.

(** The steps of the code, a floor of a twice rounded quotient, are the exact floor. *)
Lemma floor_steps b l units stepped B L : exactly 40 42 b B -> exactly 43 47 l L -> (0 < B)%Q -> (0 < L)%Q ->
  ddiv FP b l = Ok units -> ddiv FP units QUANTITY_STEP = Ok stepped ->
  (dval (dfloor stepped) == inject_Z (Qfloor (B / L * million)))%Q /\ 0 <= dexp (dfloor stepped)
  /\ 0 <= Qfloor (B / L * million) < 10 ^ 94.
Proof.
  intros Eb El HB HL H1 H2. pose proof (exactly_rep _ _ _ _ Eb) as Rb. pose proof (exactly_rep _ _ _ _ El) as Rl.
  pose proof (ddiv_faithful FP _ _ _ ltac:(done) H1) as F1. pose proof (ddiv_faithful FP _ _ _ ltac:(done) H2) as F2.
  rewrite (proj2 Eb), (proj2 El) in F1. rewrite million_step in F2. change (Z.of_N FP) with 256 in *.
  set (k := Qfloor (B / L * million)). pose proof (quotient_bound B L Rb Rl HB HL) as Hk. fold k in Hk.
  pose proof (Qfloor_le (B / L * million)) as Lo. pose proof (Qlt_floor (B / L * million)) as Hi. fold k in Lo, Hi.
  destruct (dfloor_spec stepped) as [Ef Ee]. split; [|done]. rewrite Ef. enough (Qfloor (dval stepped) = k) as -> by done. apply Qfloor_unique.
  - apply (faithful_lower 95 0 _ FP _ _ (rep_Z k 95 ltac:(lia) ltac:(lia)) ltac:(done) F2).
    assert (inject_Z k / million <= dval units)%Q as Hu; [|by apply step_le].
    apply (faithful_lower 95 6 _ FP _ _ (rep_step k 95 ltac:(lia) ltac:(lia)) ltac:(done) F1). by apply le_step.
  - pose proof (rep_step (k + 1) 95 ltac:(lia) ltac:(lia)) as Rw.
    destruct (div_step (p:=FP) (f:=53) (iw:=95) (fw:=6) (j:=43) ltac:(done) ltac:(done) ltac:(done) ltac:(done) ltac:(done) Rw) as [_ Rd].
    assert (rep 140 53 (inject_Z (k + 1) / million * L - B)) as Rg.
    { eapply rep_weaken; [apply rep_minus; [apply rep_mult; [exact Rw|exact Rl]|exact Rb]|lia|lia]. }
    assert (0 < L < q10 43)%Q as HLb.
    { split; [done|]. pose proof (rep_lt _ _ _ Rl) as Hl. rewrite Qabs_pos in Hl by lra. exact Hl. }
    assert (B < inject_Z (k + 1) / million * L)%Q as Hlt by by apply lt_step.
    pose proof (div_gap (p:=FP) (f:=53) (iw:=95) (fw:=6) (j:=43) ltac:(done) HLb _ (rep_gap _ _ _ Rg ltac:(lra))) as Hg.
    assert (B / L <= inject_Z (k + 1) / million - q10 (- (53 + 43)))%Q as Hle.
    { apply (Qle_trans _ (inject_Z (k + 1) / million - (inject_Z (k + 1) / million * L - B) / L)); [|lra].
      apply Qle_lteq. right. unfold million. field. lra. }
    pose proof (faithful_upper _ _ _ FP _ _ Rd ltac:(done) F1 Hle) as Hu.
    assert (dval units * million <= inject_Z (k + 1) - q10 (-90))%Q as Hs.
    { assert (inject_Z (k + 1) - q10 (-90) == (inject_Z (k + 1) / million - q10 (- (53 + 43))) * million)%Q as ->.
      { unfold million. change (q10 (-90)) with (q10 (- (53 + 43) + 6)). rewrite q10_plus. change (q10 6) with (inject_Z 1000000). field. }
      by apply Qmult_le_compat_r. }
    assert (rep 96 90 (inject_Z (k + 1) - q10 (-90))) as Rs.
    { eapply rep_weaken; [apply rep_minus; [apply (rep_Z (k + 1) 95); lia|apply (rep_q10 1 90 (-90)); lia]|lia|lia]. }
    pose proof (faithful_upper _ _ _ FP _ _ Rs ltac:(done) F2 Hs) as Hf. pose proof (q10_pos (-90)). lra.
Qed.

(** The largest multiple of the step whose loss is within the budget. *)
Lemma step_within e n s : (0 < budget_value e)%Q -> (0 < unit_loss n s)%Q ->
  (step_quantity e n s * unit_loss n s <= budget_value e)%Q
  /\ (budget_value e < (step_quantity e n s + (1 # 1000000)) * unit_loss n s)%Q.
Proof.
  intros HB HL. unfold step_quantity, step_count. set (B := budget_value e) in *. set (L := unit_loss n s) in *. split.
  - assert (inject_Z (Qfloor (B / L * million)) / million <= B / L)%Q as H by (apply le_step, Qfloor_le).
    apply (Qmult_le_compat_r _ _ L) in H; [|by apply Qlt_le_weak]. eapply Qle_trans; [exact H|]. apply Qle_lteq. right. field. lra.
  - assert (B < inject_Z (Qfloor (B / L * million) + 1) / million * L)%Q as H by (apply lt_step; [done|apply Qlt_floor]).
    eapply Qlt_le_trans; [exact H|]. apply Qle_lteq. right. rewrite inject_Z_plus. unfold million. field.
Qed.

(** ** The computed values *)

Lemma exactly_const i f d v : - f <= dexp d -> Z.of_N (dcoef d) * 10 ^ (dexp d + f) < 10 ^ (i + f) -> (dval d == v)%Q -> exactly i f d v.
Proof. done. Qed.

Lemma exactly_integer d n i : (dval d == inject_Z n)%Q -> 0 <= dexp d -> 0 <= i -> Z.abs n < 10 ^ i -> exactly i 0 d (inject_Z n).
Proof.
  intros V Hd Hi Hn. split; [|done]. apply fits_of_val; [lia|lia|]. rewrite V.
  change (Qabs (inject_Z n)) with (inject_Z (Z.abs n)). rewrite q10_Z by done. by rewrite <- Zlt_Qlt.
Qed.
Lemma rep_lt_le i f v w : (0 <= v)%Q -> (v <= w)%Q -> rep i f w -> (Qabs v < q10 i)%Q.
Proof.
  intros H0 H R. pose proof (rep_lt _ _ _ R) as Hw. rewrite Qabs_pos by done. eapply Qle_lt_trans; [exact H|].
  rewrite Qabs_pos in Hw; [exact Hw|]. by apply Qle_trans with v.
Qed.
Lemma not_positive i f d v : exactly i f d v -> (0 < v)%Q -> dleb d dec0 = false.
Proof. intros [_ E] H. apply dleb_false. by rewrite E, dval_0. Qed.
Lemma not_less i f i' f' d d' v w : exactly i f d v -> exactly i' f' d' w -> (v < w)%Q -> dleb d' d = false.
Proof. intros [_ E] [_ E'] H. apply dleb_false. by rewrite E, E'. Qed.

Section Stepped.
Context {e n s : Q} {b en es fee slip l : dec}.
Abbreviation B := (budget_value e).
Abbreviation L := (unit_loss n s).
Abbreviation k := (step_count e n s).
Hypothesis XB : exactly 40 42 b B.
Hypothesis XEn : exactly 41 44 en (entry_exec n).
Hypothesis XEs : exactly 41 44 es (stop_exec s).
Hypothesis XL : exactly 43 47 l L.
Hypothesis XF : exactly 42 47 fee (unit_fee n s).
Hypothesis XSl : exactly 41 44 slip (unit_slippage n s).
Hypothesis PB : (0 < B)%Q.
Hypothesis PL : (0 < L)%Q.

Lemma stepped_values_exact :
  (k = 0 -> stepped_values b en es fee slip l = Err (Raise RiskSizingError "Risk budget is below the minimum quantity step"))
  /\ (0 < k -> exists v, stepped_values b en es fee slip l = Ok v /\ sized e n s v /\ dexp (sv_loss_per_unit_quote v) = dexp l).
Proof using All.
  unfold stepped_values. destruct (ddiv_total FP b l) as [units E1]; [rewrite (proj2 XL); lra|]. destruct (ddiv_total FP units QUANTITY_STEP) as [stepped E2]; [done|].
  rewrite E1. cbn [rbind]. rewrite E2. cbn [rbind].
  destruct (floor_steps b l units stepped B L XB XL PB PL E1 E2) as (Vs & Es & Kb). fold k in Vs, Kb.
  set (steps := dfloor stepped) in *. clearbody steps. destruct (step_within e n s PB PL) as [W1 W2].
  assert (exactly 94 0 steps (inject_Z k)) as XK by (apply (exactly_integer steps k 94 Vs Es); lia).
  destruct (exactly_mul XK (exactly_const 0 6 QUANTITY_STEP (1 # 1000000) ltac:(done) ltac:(done) ltac:(reflexivity)) ltac:(done)) as [XQ _].
  rewrite <- over_million in XQ. change (inject_Z k / million)%Q with (step_quantity e n s) in XQ.
  set (q := dmul FP steps QUANTITY_STEP) in *. clearbody q. split; intros Hk.
  - assert (dleb q dec0 = true) as ->; [|done]. apply dleb_spec. rewrite (proj2 XQ), dval_0. unfold step_quantity. by rewrite Hk.
  - assert (0 < step_quantity e n s)%Q as Pq.
    { unfold step_quantity. rewrite over_million. assert (0 < inject_Z k)%Q by (change 0%Q with (inject_Z 0); by rewrite <- Zlt_Qlt). lra. }
    rewrite (not_positive _ _ _ _ XQ) by done. destruct (exactly_mul XQ XL ltac:(done)) as [XP EP].
    destruct (exactly_mul XQ XF ltac:(done)) as [XT _]. destruct (exactly_mul XQ XSl ltac:(done)) as [XV _].
    assert (dltb b (dmul FP q l) = false) as -> by (apply dltb_false; by rewrite (proj2 XP), (proj2 XB)).
    eexists. split; [reflexivity|]. split; [|done].
    constructor; cbn [sv_quantity sv_risk_budget_quote sv_entry_execution_price sv_stop_execution_price sv_loss_per_unit_quote
      sv_planned_loss_quote sv_fee_quote sv_slippage_quote]; [exact XQ|exact XB|exact XEn|exact XEs|exact XL| |exact XT|exact XV|exact EP].
    eapply exactly_bound; [exact XP|lia|]. apply (rep_lt_le 40 42 _ B); [|exact W1|exact (exactly_rep _ _ _ _ XB)].
    apply Qmult_le_0_compat; by apply Qlt_le_weak.
Qed.
End Stepped.

Lemma risk_fraction_value : Decimal (risk_per_trade_fraction frozen_policy) = Ok (Dec false 1 (-2)).
Proof. reflexivity. Qed.
Lemma fee_rate_value : ddiv FP FEE_BPS BASIS_POINTS = Ok (Dec false 1 (-3)).
Proof. vm_compute. reflexivity. Qed.
Lemma slippage_rate_value : ddiv FP SLIPPAGE_BPS BASIS_POINTS = Ok (Dec false 5 (-4)).
Proof. vm_compute. reflexivity. Qed.
Lemma entry_factor : dadd FP dec1 (Dec false 5 (-4)) = Dec false 10005 (-4).
Proof. vm_compute. reflexivity. Qed.
Lemma stop_factor : dsub FP dec1 (Dec false 5 (-4)) = Dec false 9995 (-4).
Proof. vm_compute. reflexivity. Qed.

Section Values.
Context {r : risk_request} {setup : long_setup} {e n s : dec}.
Hypothesis Hel : size_eligible r = true.
Hypothesis Hset : sd_setup (rq_decision r) = Some setup.
Hypothesis Hpol : rq_policy r = frozen_policy.
Hypothesis He : denotes (prs_equity_quote (rq_portfolio r)) e.
Hypothesis Hn : denotes (setup_reference_price setup) n.
Hypothesis Hs : denotes (invalidation_price setup) s.
Hypothesis Pe : (0 < dval e)%Q.
Hypothesis Ps : (0 < dval s)%Q.
Hypothesis Psn : (dval s < dval n)%Q.

Abbreviation B := (budget_value (dval e)).
Abbreviation L := (unit_loss (dval n) (dval s)).
Abbreviation k := (step_count (dval e) (dval n) (dval s)).

Lemma value_facts : (0 < B)%Q /\ (0 < stop_exec (dval s))%Q /\ (stop_exec (dval s) < entry_exec (dval n))%Q
  /\ (0 < unit_fee (dval n) (dval s))%Q /\ (0 < L)%Q.
Proof using Pe Ps Psn.
  assert (B == dval e * (1 # 100))%Q as -> by (unfold budget_value; field).
  assert (unit_fee (dval n) (dval s) == (entry_exec (dval n) + stop_exec (dval s)) * (1 # 1000))%Q as Hf by (unfold unit_fee; field).
  unfold unit_loss. rewrite Hf. unfold entry_exec, stop_exec. clear -Pe Ps Psn. lra.
Qed.

Lemma entry_values_reduced : _entry_values r =
  let b := dmul FP e (Dec false 1 (-2)) in
  let en := dmul FP n (Dec false 10005 (-4)) in
  let es := dmul FP s (Dec false 9995 (-4)) in
  let fee := dmul FP (dadd FP en es) (Dec false 1 (-3)) in
  let l := dadd FP (dsub FP en es) fee in
  raise_if dleb es dec0 || dleb en es with RiskSizingError "Cost-adjusted entry and stop are invalid" ;;
  raise_if dleb b dec0 || dleb l dec0 with RiskSizingError "Risk budget or loss per unit is invalid" ;;
  stepped_values b en es fee (dmul FP (dadd FP n s) (Dec false 5 (-4))) l.
Proof using Hel Hset Hpol He Hn Hs.
  unfold _entry_values. rewrite Hset, Hel, (proj1 He), (proj1 Hn), (proj1 Hs), Hpol, risk_fraction_value, fee_rate_value, slippage_rate_value.
  cbn [rbind]. by rewrite entry_factor, stop_factor.
Qed.

Lemma entry_values_exact :
  (k = 0 -> _entry_values r = Err (Raise RiskSizingError "Risk budget is below the minimum quantity step"))
  /\ (0 < k -> exists v, _entry_values r = Ok v /\ sized (dval e) (dval n) (dval s) v
        /\ dexp (sv_loss_per_unit_quote v) = Z.min (dexp n) (dexp s) - 7).
Proof using All.
  destruct value_facts as (PB & Pst & Pse & PF & PL).
  destruct (denotes_exactly _ _ He) as (Xe & _), (denotes_exactly _ _ Hn) as (Xn & _), (denotes_exactly _ _ Hs) as (Xs & _).
  destruct (exactly_mul Xe (exactly_const 0 2 (Dec false 1 (-2)) (1 # 100) ltac:(done) ltac:(done) ltac:(reflexivity)) ltac:(done)) as [XB _].
  destruct (exactly_mul Xn (exactly_const 1 4 (Dec false 10005 (-4)) (10005 # 10000) ltac:(done) ltac:(done) ltac:(reflexivity)) ltac:(done)) as [XEn EEn].
  destruct (exactly_mul Xs (exactly_const 1 4 (Dec false 9995 (-4)) (9995 # 10000) ltac:(done) ltac:(done) ltac:(reflexivity)) ltac:(done)) as [XEs EEs].
  rewrite entry_values_reduced. cbv zeta.
  change (dval e * (1 # 100))%Q with B in XB. change (dval n * (10005 # 10000))%Q with (entry_exec (dval n)) in XEn.
  change (dval s * (9995 # 10000))%Q with (stop_exec (dval s)) in XEs.
  set (b := dmul FP e _) in *. set (en := dmul FP n _) in *. set (es := dmul FP s _) in *. clearbody b en es.
  destruct (exactly_add XEn XEs ltac:(done)) as [XSum ESum].
  destruct (exactly_mul XSum (exactly_const 0 3 (Dec false 1 (-3)) (1 # 1000) ltac:(done) ltac:(done) ltac:(reflexivity)) ltac:(done)) as [XF EF].
  destruct (exactly_sub XEn XEs ltac:(done)) as [XD ED]. destruct (exactly_add XD XF ltac:(done)) as [XL EL].
  destruct (exactly_add Xn Xs ltac:(done)) as [XS _].
  destruct (exactly_mul XS (exactly_const 0 4 (Dec false 5 (-4)) (5 # 10000) ltac:(done) ltac:(done) ltac:(reflexivity)) ltac:(done)) as [XSl _].
  change ((entry_exec (dval n) + stop_exec (dval s)) * (1 # 1000))%Q with (unit_fee (dval n) (dval s)) in XF, XL.
  change ((dval n + dval s) * (5 # 10000))%Q with (unit_slippage (dval n) (dval s)) in XSl.
  change (entry_exec (dval n) - stop_exec (dval s) + unit_fee (dval n) (dval s))%Q with L in XL.
  set (fee := dmul FP (dadd FP en es) _) in *. set (slip := dmul FP (dadd FP n s) _) in *. set (l := dadd FP (dsub FP en es) fee) in *.
  rewrite (not_positive _ _ _ _ XEs), (not_less _ _ _ _ _ _ _ _ XEs XEn), (not_positive _ _ _ _ XB), (not_positive _ _ _ _ XL) by done.
  cbn [orb]. cbv match.
  destruct (stepped_values_exact (es:=es) XB XEn XEs XL XF XSl PB PL) as [H1 H2]. split; [exact H1|].
  intros Hk. destruct (H2 Hk) as (v & E & Hv & El). exists v. split; [exact E|]. split; [exact Hv|].
  rewrite El, EL, ED, EF, ESum, EEn, EEs. cbn [dexp]. lia.
Qed.

End Values.

(** ** The sizing result *)

Definition texts_plain (v : size_values) : bool :=
  plain (sv_quantity v) && plain (sv_risk_budget_quote v) && plain (sv_entry_execution_price v) && plain (sv_stop_execution_price v)
  && plain (sv_loss_per_unit_quote v) && plain (sv_planned_loss_quote v) && plain (sv_fee_quote v) && plain (sv_slippage_quote v).

Lemma canonical_text d : canonical (format_f d) d = plain d.
Proof. unfold canonical. by rewrite (proj2 (String.eqb_eq _ _)), andb_true_r. Qed.

Lemma canonical_spec value d : canonical value d = true <-> value = format_f d /\ plain d = true.
Proof.
  unfold canonical, plain. rewrite andb_true_iff, String.eqb_eq. split; [intros [? ->]; done|intros [-> ?]; done].
Qed.

Lemma size_entry_texts r v e n s : _entry_values r = Ok v -> sized e n s v -> (0 < budget_value e)%Q -> (0 < unit_loss n s)%Q ->
  size_entry r = if texts_plain v then Ok (size_texts r v)
                 else Err (Raise RiskSizingError "Position-size result is noncanonical or inconsistent").
Proof.
  intros E Hv PB PL. destruct (step_within e n s PB PL) as [W1 W2].
  unfold size_entry, new_size, size_post_init. rewrite E. cbn [rbind ps_request size_texts]. rewrite E. cbn [rbind].
  cbn [size_texts ps_quantity ps_risk_budget_quote ps_entry_execution_price ps_stop_execution_price ps_loss_per_unit_quote
    ps_planned_loss_quote ps_fee_quote ps_slippage_quote]. rewrite !canonical_text. fold (texts_plain v).
  destruct (texts_plain v); [|done]. cbn [negb].
  destruct (format_reads_exactly _ _ _ _ (sq_planned _ _ _ _ Hv) ltac:(done)) as (p & Ep & Xp & _).
  destruct (format_reads_exactly _ _ _ _ (sq_budget _ _ _ _ Hv) ltac:(done)) as (b & Eb & Xb & _).
  destruct (format_reads_exactly _ _ _ _ (sq_quantity _ _ _ _ Hv) ltac:(done)) as (q & Eq & Xq & _).
  destruct (format_reads_exactly _ _ _ _ (sq_loss _ _ _ _ Hv) ltac:(done)) as (l & El & Xl & _).
  rewrite Ep, Eb, Eq, El. cbn [rbind].
  assert (dltb b p = false) as -> by (apply dltb_false; by rewrite (proj2 Xp), (proj2 Xb)).
  destruct (exactly_add Xq (exactly_const 0 6 QUANTITY_STEP (1 # 1000000) ltac:(done) ltac:(done) ltac:(reflexivity)) ltac:(done)) as [Xn _].
  destruct (exactly_mul Xn Xl ltac:(done)) as [Xnl _].
  assert (dleb (dmul FP (dadd FP q QUANTITY_STEP) l) b = false) as -> by (apply dleb_false; by rewrite (proj2 Xnl), (proj2 Xb)).
  done.
Qed.

(** The facts of an eligible request. *)
Record eligible_facts (r : risk_request) (e n s : dec) : Prop := {
  ef_policy : rq_policy r = frozen_policy;
  ef_equity : denotes (prs_equity_quote (rq_portfolio r)) e;
  ef_setup : exists setup, sd_setup (rq_decision r) = Some setup /\ denotes (setup_reference_price setup) n /\ denotes (invalidation_price setup) s;
  ef_order : (0 < dval e)%Q /\ (0 < dval s)%Q /\ (dval s < dval n)%Q;
}.

Lemma eligible_spec r : request_valid r -> size_eligible r = true -> exists e n s, eligible_facts r e n s.
Proof.
  intros Hv Hel. destruct (risk_state_valid_facts _ (rv_portfolio _ Hv)) as [_ (e & c & q & m & p & He & _ & _ & _ & _ & Pe & _)].
  pose proof (rv_setup _ Hv) as Hs. unfold size_eligible in Hel. bool_prop. destruct Hel as ((((_ & Hso) & _) & _) & _).
  destruct (sd_setup (rq_decision r)) as [setup|] eqn:Es; [|done]. apply setup_valid_spec in Hs as (n & s & t & Hn & Hs & _ & P1 & P2 & _).
  exists e, n, s. split; [apply policy_frozen, Hv|done|by exists setup|done].
Qed.

Lemma size_entry_cases r e n s : size_eligible r = true -> eligible_facts r e n s ->
  let k := step_count (dval e) (dval n) (dval s) in
  (k = 0 /\ is_ok (_entry_values r) = false
   /\ size_entry r = Err (Raise RiskSizingError "Risk budget is below the minimum quantity step"))
  \/ (0 < k /\ exists v, _entry_values r = Ok v /\ sized (dval e) (dval n) (dval s) v
      /\ dexp (sv_loss_per_unit_quote v) = Z.min (dexp n) (dexp s) - 7
      /\ size_entry r = if texts_plain v then Ok (size_texts r v)
                        else Err (Raise RiskSizingError "Position-size result is noncanonical or inconsistent")).
Proof.
  intros Hel [Hp He (setup & Es & Hn & Hs) (Pe & Ps & Psn)] k.
  destruct (entry_values_exact Hel Es Hp He Hn Hs Pe Ps Psn) as [H0 H1]. fold k in H0, H1.
  destruct (value_facts Pe Ps Psn) as (PB & _ & _ & _ & PL).
  assert (0 <= k) as Hk.
  { apply Qfloor_nonneg. apply Qmult_le_0_compat; [|done]. apply Qle_shift_div_l; [done|]. rewrite Qmult_0_l. by apply Qlt_le_weak. }
  destruct (Z.eq_dec k 0) as [E|E].
  - left. split; [done|]. unfold size_entry. by rewrite (H0 E).
  - right. split; [lia|]. destruct (H1 ltac:(lia)) as (v & Ev & Hv & El). exists v. do 3 (split; [done|]). by eapply size_entry_texts.
Qed.

(** The values behind a constructed result. *)
Lemma size_valid_inv p : request_valid (ps_request p) -> size_is_valid p -> exists e n s v,
  size_eligible (ps_request p) = true /\ eligible_facts (ps_request p) e n s /\ 0 < step_count (dval e) (dval n) (dval s)
  /\ sized (dval e) (dval n) (dval s) v /\ texts_plain v = true /\ p = size_texts (ps_request p) v
  /\ dexp (sv_loss_per_unit_quote v) = Z.min (dexp n) (dexp s) - 7.
Proof.
  intros Hr Hv. unfold size_is_valid, size_post_init in Hv. destruct (_entry_values (ps_request p)) as [v|] eqn:Ev; [|done].
  cbn [rbind] in Hv. destruct (size_eligible (ps_request p)) eqn:Hel.
  2: { unfold _entry_values in Ev. rewrite Hel in Ev. by destruct (sd_setup _). }
  destruct (eligible_spec _ Hr Hel) as (e & n & s & Hf). exists e, n, s, v.
  destruct (size_entry_cases _ e n s Hel Hf) as [(_ & E & _)|(Hk & v' & Ev' & Hs & El & _)]; [by rewrite Ev in E|].
  rewrite Ev in Ev'. injection Ev' as <-. destruct (negb _) eqn:Ec in Hv; [done|]. clear Hv.
  split; [done|]. split; [done|]. split; [done|]. split; [done|]. apply negb_false_iff in Ec. clear Ev Hel Hr Hf.
  destruct p as [r q b en es l pl f sl]. cbn [ps_request ps_quantity ps_risk_budget_quote ps_entry_execution_price ps_stop_execution_price
    ps_loss_per_unit_quote ps_planned_loss_quote ps_fee_quote ps_slippage_quote] in *.
  rewrite !andb_true_iff, !canonical_spec in Ec. decompose [and] Ec. subst. unfold texts_plain. by rewrite !andb_true_iff.
Qed.

(** ** A number too long for its text *)

Lemma plain_digits d : dexp d < -40 -> plain d = false.
Proof.
  intros H. destruct (plain d) eqn:E; [|done]. apply unsigned_text_iff in E; [|lia]. lia.
Qed.

Lemma long_loss_unsized r e n s : size_eligible r = true -> eligible_facts r e n s -> Z.min (dexp n) (dexp s) < -33 ->
  is_ok (size_entry r) = false.
Proof.
  intros Hel Hf Hd. destruct (size_entry_cases r e n s Hel Hf) as [(_ & _ & E)|(_ & v & _ & _ & El & E)]; [by rewrite E|].
  assert (texts_plain v = false) as Et; [|by rewrite E, Et]. unfold texts_plain.
  rewrite (plain_digits (sv_loss_per_unit_quote v)) by lia. by rewrite !andb_false_r.
Qed.

(** * Claims *)

Definition sample_portfolio (symbol : string) (t : Z) (equity : string) : portfolio_risk_state :=
  PortfolioRiskState symbol t equity equity "0" "100" equity "0" 0 0 false.
Definition sample_request (c : strategy_context) (s : long_setup) (equity : string) : risk_request :=
  RiskRequest (StrategyDecision c SEnterLong TREND_PULLBACK_ENTRY (Some s)) QUALIFIED_FOR_P4_RESEARCH
    (sample_portfolio (sc_symbol c) (sc_decision_time_ms c) equity) frozen_policy.

Definition sample_entry_request : risk_request :=
  sample_request pullback_context (LongSetup "1020" "957.32" "1145.36") "10000".
Definition sized_sample : position_size :=
  Eval vm_compute in match size_entry sample_entry_request with Ok p => p | Err _ => size_texts sample_entry_request
    (SizeValues dec0 dec0 dec0 dec0 dec0 dec0 dec0 dec0) end.

Example sample_size : size_entry sample_entry_request = Ok sized_sample
  /\ (ps_quantity sized_sample, ps_risk_budget_quote sized_sample, ps_loss_per_unit_quote sized_sample, ps_planned_loss_quote sized_sample)
     = ("1.523321", "100.00", "65.646011340", "99.999947640460140")%string.
Proof. split; [vm_compute; reflexivity|reflexivity]. Qed.

(** C16. Sizing is the exact maximum.  For every valid request, an ineligible one
    (not an entry, evidence not qualified, kill switch active, position open) is
    refused; for an eligible one, with the loss per unit and the 1% budget taken
    as exact rationals, the code's twice rounded and floored quotient is the
    largest number of whole 0.000001 steps whose loss is within the budget: the
    planned loss never exceeds the budget and one more step would.  No step at
    all is an error, and so are values whose text is not a plain decimal of 40
    digits on each side; otherwise the result carries exactly these values, its
    self-checks never firing. *)
Theorem size_entry_exact r (H : request_valid r) :
  (size_eligible r = false -> size_entry r = Err (Raise RiskSizingError "Entry request is not eligible for sizing"))
  /\ (size_eligible r = true -> exists e n s, eligible_facts r e n s /\
        let q := step_quantity (dval e) (dval n) (dval s) in
        let L := unit_loss (dval n) (dval s) in
        (q * L <= budget_value (dval e) < (q + (1 # 1000000)) * L)%Q
        /\ ((step_count (dval e) (dval n) (dval s) = 0
             /\ size_entry r = Err (Raise RiskSizingError "Risk budget is below the minimum quantity step"))
            \/ (0 < step_count (dval e) (dval n) (dval s) /\ exists v, sized (dval e) (dval n) (dval s) v
                /\ size_entry r = if texts_plain v then Ok (size_texts r v)
                     else Err (Raise RiskSizingError "Position-size result is noncanonical or inconsistent")))).
Proof.
  split.
  - intros E. unfold size_entry, _entry_values. rewrite E. by destruct (sd_setup (rq_decision r)).
  - intros Hel. destruct (eligible_spec r H Hel) as (e & n & s & Hf). exists e, n, s. split; [done|].
    destruct (ef_order _ _ _ _ Hf) as (Pe & Ps & Psn). destruct (value_facts Pe Ps Psn) as (PB & _ & _ & _ & PL).
    split; [exact (step_within _ _ _ PB PL)|].
    destruct (size_entry_cases r e n s Hel Hf) as [(Hk & _ & E)|(Hk & v & _ & Hv & _ & E)]; [by left|].
    right. split; [done|]. by exists v.
Qed.

(** A setup whose reference or invalidation price has more than 33 decimals
    cannot be sized at any equity, although the setup contract and the strategies
    allow 40 decimals: the loss per unit has seven more, so its text is refused
    by the result's constructor. *)
Theorem long_prices_unsizable r setup n s (H : request_valid r) (Hs : sd_setup (rq_decision r) = Some setup)
    (Hn : Decimal (setup_reference_price setup) = Ok n) (Hi : Decimal (invalidation_price setup) = Ok s)
    (Hd : Z.min (dexp n) (dexp s) < -33) :
  exists m, size_entry r = Err (Raise RiskSizingError m).
Proof.
  destruct (size_eligible r) eqn:Hel.
  - destruct (eligible_spec r H Hel) as (e & n' & s' & Hf). pose proof (ef_setup _ _ _ _ Hf) as (setup' & Es & Xn & Xs).
    rewrite Hs in Es. injection Es as <-. pose proof (denotes_inj _ _ _ Xn Hn) as En. pose proof (denotes_inj _ _ _ Xs Hi) as Ei.
    subst n' s'. pose proof (long_loss_unsized r e n s Hel Hf Hd) as Hno.
    destruct (size_entry_cases r e n s Hel Hf) as [(_ & _ & E)|(_ & v & _ & _ & _ & E)]; [by eexists|].
    rewrite E in Hno |- *. destruct (texts_plain v); [done|]. by eexists.
  - eexists. unfold size_entry, _entry_values. rewrite Hel. by destruct (sd_setup (rq_decision r)).
Qed.

Lemma sample_request_valid s equity : setup_valid s -> risk_state_post_init (sample_portfolio "BTCUSDT" sample_time equity) = Ok tt ->
  request_valid (sample_request pullback_context s equity).
Proof.
  intros Hs Hp. split; [|reflexivity|exact Hs|exact Hp|reflexivity|reflexivity].
  split; [|split]; vm_compute; reflexivity.
Qed.

Lemma sample_entry_valid : request_valid sample_entry_request.
Proof. apply sample_request_valid; vm_compute; reflexivity. Qed.

Lemma size_entry_exact_witness : exists e n s v, eligible_facts sample_entry_request e n s
  /\ sized (dval e) (dval n) (dval s) v /\ size_entry sample_entry_request = Ok (size_texts sample_entry_request v).
Proof.
  destruct (proj2 (size_entry_exact sample_entry_request sample_entry_valid) ltac:(vm_compute; reflexivity))
    as (e & n & s & Hf & _ & [[_ E]|(_ & v & Hv & E)]); pose proof (proj1 sample_size) as Es.
  - exfalso. congruence.
  - exists e, n, s, v. split; [exact Hf|]. split; [exact Hv|]. destruct (texts_plain v); [exact E|exfalso; congruence].
Defined.

Definition forty_decimals : long_setup :=
  LongSetup "1020" "957.3214285714285714285714285714285714285714" "1145.3571428571428571428571428571428571428572".

Lemma long_prices_unsizable_witness : exists d m,
  evaluate_trend_pullback pullback_context false None = Ok d /\ sd_setup d = Some forty_decimals
  /\ size_entry (sample_request pullback_context forty_decimals "10000") = Err (Raise RiskSizingError m).
Proof.
  pose proof sample_trend_entry as Et. destruct (evaluate_trend_pullback pullback_context false None) as [d|]; [|discriminate Et].
  destruct (long_prices_unsizable (sample_request pullback_context forty_decimals "10000") forty_decimals
    (Dec false 1020 0) (Dec false 9573214285714285714285714285714285714285714 (-40))) as [m Em].
  - apply sample_request_valid; vm_compute; reflexivity.
  - reflexivity.
  - vm_compute. reflexivity.
  - vm_compute. reflexivity.
  - vm_compute. reflexivity.
  - exists d, m. split; [reflexivity|]. split; [|exact Em]. injection Et as _ Es. exact Es.
Defined.
