(* ===== verification/Limits.v ===== *)
(** * Entry limits (yatl/risk/limits.py)

    Cash, notional and gross-exposure caps on a sized entry. *)
From S2P Require Import Prelude PyDecimal PyText Digest Market BacktestConfig MarketView Costs StrategyContracts Features Regime Trend ExactDec RiskContracts Sizing.

Inductive limit_status : Type := LIMIT_PASS | LIMIT_REJECT.
Inductive limit_reason : Type := WITHIN_LIMITS | CASH_INSUFFICIENT | NOTIONAL_OR_EXPOSURE_LIMIT.
#[global] Instance limit_status_eq_dec : EqDecision limit_status.
Proof. solve_decision. Defined.
#[global] Instance limit_reason_eq_dec : EqDecision limit_reason.
Proof. solve_decision. Defined.
Definition limit_status_value (s : limit_status) : string := match s with LIMIT_PASS => "PASS" | LIMIT_REJECT => "REJECT" end.
Definition limit_reason_value (r : limit_reason) : string :=
  match r with
  | WITHIN_LIMITS => "WITHIN_LIMITS" | CASH_INSUFFICIENT => "CASH_INSUFFICIENT"
  | NOTIONAL_OR_EXPOSURE_LIMIT => "NOTIONAL_OR_EXPOSURE_LIMIT"
  end.

Record limit_values : Type := LimitValues {
  lv_status : limit_status;
  lv_reason : limit_reason;
  lv_entry_notional_quote : dec;
  lv_entry_fee_quote : dec;
  lv_cash_required_quote : dec;
  lv_position_limit_quote : dec;
  lv_gross_exposure_before_quote : dec;
  lv_gross_exposure_after_quote : dec;
  lv_gross_exposure_limit_quote : dec;
}.

Definition _limit_values (p : position_size) : result limit_values :=
  let state := rq_portfolio (ps_request p) in
  let policy := rq_policy (ps_request p) in
  let* flat := if negb (prs_open_positions state =? 0) then Ok false
               else let* held := Decimal (prs_position_quantity state) in Ok (deqb held dec0) in
  raise_if negb flat with RiskLimitError "Entry limit assessment requires a flat portfolio" ;;
  let* quantity := Decimal (ps_quantity p) in
  let* entry_execution := Decimal (ps_entry_execution_price p) in
  let* equity := Decimal (prs_equity_quote state) in
  let* cash := Decimal (prs_cash_quote state) in
  let entry_notional := dmul FP quantity entry_execution in
  let* entry_fee := ddiv FP (dmul FP entry_notional FEE_BPS) BASIS_POINTS in
  let cash_required := dadd FP entry_notional entry_fee in
  let* position_fraction := Decimal (max_position_fraction policy) in
  let position_limit := dmul FP equity position_fraction in
  let* held := Decimal (prs_position_quantity state) in
  let* mark := Decimal (prs_mark_price state) in
  let gross_before := dmul FP held mark in
  let gross_after := dadd FP gross_before entry_notional in
  let* gross_fraction := Decimal (max_gross_exposure_fraction policy) in
  let gross_limit := dmul FP equity gross_fraction in
  let outcome :=
    if dltb position_limit entry_notional || dltb gross_limit gross_after then (LIMIT_REJECT, NOTIONAL_OR_EXPOSURE_LIMIT)
    else if dltb cash cash_required then (LIMIT_REJECT, CASH_INSUFFICIENT)
    else (LIMIT_PASS, WITHIN_LIMITS) in
  Ok (LimitValues (fst outcome) (snd outcome) entry_notional entry_fee cash_required position_limit gross_before
        gross_after gross_limit).

Record limit_assessment : Type := EntryLimitAssessment {
  la_position_size : position_size;
  la_status : limit_status;
  la_reason : limit_reason;
  la_entry_notional_quote : string;
  la_entry_fee_quote : string;
  la_cash_required_quote : string;
  la_position_limit_quote : string;
  la_gross_exposure_before_quote : string;
  la_gross_exposure_after_quote : string;
  la_gross_exposure_limit_quote : string;
}.
#[global] Instance limit_assessment_eq_dec : EqDecision limit_assessment.
Proof. solve_decision. Defined.

Definition limit_post_init (a : limit_assessment) : result unit :=
  let* expected := _limit_values (la_position_size a) in
  raise_if negb (bool_decide (la_status a = lv_status expected)) || negb (bool_decide (la_reason a = lv_reason expected))
    with RiskLimitError "Limit status or reason is inconsistent" ;;
  raise_if negb (canonical (la_entry_notional_quote a) (lv_entry_notional_quote expected)
                 && canonical (la_entry_fee_quote a) (lv_entry_fee_quote expected)
                 && canonical (la_cash_required_quote a) (lv_cash_required_quote expected)
                 && canonical (la_position_limit_quote a) (lv_position_limit_quote expected)
                 && canonical (la_gross_exposure_before_quote a) (lv_gross_exposure_before_quote expected)
                 && canonical (la_gross_exposure_after_quote a) (lv_gross_exposure_after_quote expected)
                 && canonical (la_gross_exposure_limit_quote a) (lv_gross_exposure_limit_quote expected))
    with RiskLimitError "Limit assessment is noncanonical or inconsistent" ;;
  Ok tt.
Definition new_limit_assessment (a : limit_assessment) : result limit_assessment := do* limit_post_init a ;; Ok a.

Definition limit_texts (p : position_size) (v : limit_values) : limit_assessment :=
  EntryLimitAssessment p (lv_status v) (lv_reason v) (format_f (lv_entry_notional_quote v)) (format_f (lv_entry_fee_quote v))
    (format_f (lv_cash_required_quote v)) (format_f (lv_position_limit_quote v)) (format_f (lv_gross_exposure_before_quote v))
    (format_f (lv_gross_exposure_after_quote v)) (format_f (lv_gross_exposure_limit_quote v)).

Definition assess_entry_limits (p : position_size) : result limit_assessment :=
  let* values := _limit_values p in new_limit_assessment (limit_texts p values).

(** * Properties *)

Definition limit_is_valid (a : limit_assessment) : Prop := limit_post_init a = Ok tt.

(** ** The sized entry behind a result *)

Record sized_entry (p : position_size) (e c n s : dec) (v : size_values) : Prop := {
  se_eligible : size_eligible (ps_request p) = true;
  se_facts : eligible_facts (ps_request p) e n s;
  se_cash : denotes (prs_cash_quote (rq_portfolio (ps_request p))) c;
  se_steps : 0 < step_count (dval e) (dval n) (dval s);
  se_sized : sized (dval e) (dval n) (dval s) v;
  se_plain : texts_plain v = true;
  se_texts : p = size_texts (ps_request p) v;
  se_loss_exp : dexp (sv_loss_per_unit_quote v) = Z.min (dexp n) (dexp s) - 7;
}.

Lemma sized_entry_of p : request_valid (ps_request p) -> size_is_valid p -> exists e c n s v, sized_entry p e c n s v.
Proof.
  intros Hr Hv. destruct (size_valid_inv p Hr Hv) as (e & n & s & v & Hel & Hf & Hk & Hs & Hp & Ht & Hl).
  destruct (risk_state_valid_facts _ (rv_portfolio _ Hr)) as [_ (_ & c & _ & _ & _ & _ & Hc & _)].
  exists e, c, n, s, v. done.
Qed.

(** ** The specification over the rationals *)

Section Spec.
Variables e c n s : Q.
Definition notional : Q := (step_quantity e n s * entry_exec n)%Q.
Definition limit_outcome : limit_reason :=
  if Qlt_le_dec (e * (1 # 4)) notional then NOTIONAL_OR_EXPOSURE_LIMIT
  else if Qlt_le_dec c (notional * (1001 # 1000)) then CASH_INSUFFICIENT
  else WITHIN_LIMITS.
End Spec.

Record limited (e c n s : Q) (w : limit_values) : Prop := {
  lm_reason : lv_reason w = limit_outcome e c n s;
  lm_status : lv_status w = LIMIT_PASS <-> lv_reason w = WITHIN_LIMITS;
  lm_notional : (dval (lv_entry_notional_quote w) == notional e n s)%Q;
  lm_fee : (dval (lv_entry_fee_quote w) == notional e n s / 1000)%Q;
  lm_cash : (dval (lv_cash_required_quote w) == notional e n s * (1001 # 1000))%Q;
  lm_position_limit : (dval (lv_position_limit_quote w) == e * (1 # 4))%Q;
  lm_before : (dval (lv_gross_exposure_before_quote w) == 0)%Q;
  lm_after : (dval (lv_gross_exposure_after_quote w) == notional e n s)%Q;
  lm_gross_limit : (dval (lv_gross_exposure_limit_quote w) == e * (1 # 4))%Q;
}.

Lemma fee_quotient i f d v : exactly i f d v -> i + f <= 240 -> 1 <= i -> 0 <= f -> exists x,
  ddiv FP (dmul FP d FEE_BPS) BASIS_POINTS = Ok x /\ (dval x == v / 1000)%Q.
Proof.
  intros X Hif Hi Hf.
  destruct (exactly_mul X (exactly_const 2 0 FEE_BPS 10 ltac:(done) ltac:(done) ltac:(reflexivity)) ltac:(lia)) as [X10 _].
  destruct (ddiv_total FP (dmul FP d FEE_BPS) BASIS_POINTS ltac:(done)) as [x E]. exists x. split; [exact E|].
  assert (dval (dmul FP d FEE_BPS) / dval BASIS_POINTS == v / 1000)%Q as Hv.
  { rewrite (proj2 X10). change (dval BASIS_POINTS) with (10000 * 1)%Q. field. }
  rewrite <- Hv. refine (ddiv_val (i:=i + 2 - 4) (f:=f + 0 + 4) _ _ x E _); [change (Z.of_N FP) with 256; lia|done|].
  change (dval BASIS_POINTS) with (10000 * 1)%Q. assert (10000 * 1 == q10 4)%Q as -> by reflexivity.
  apply rep_div10; [done|]. exact (exactly_rep _ _ _ _ (exactly_self _ _ _ (proj1 X10))).
Qed.

Lemma cash_value d fee N : exactly 80 80 d N -> (dval fee == N / 1000)%Q -> (dval (dadd FP d fee) == N * (1001 # 1000))%Q.
Proof.
  intros X Vf. assert (dval d + dval fee == N * (1001 # 1000))%Q as Hs by (rewrite (proj2 X), Vf; field).
  rewrite <- Hs. apply (dadd_val (i:=81) (f:=83)); [done|done|]. rewrite (proj2 X), Vf.
  pose proof (exactly_rep _ _ _ _ X) as R. pose proof (rep_div10 3 80 80 N ltac:(done) R) as R'.
  exact (rep_plus 80 80 (80 - 3) (80 + 3) N (N / q10 3) R R').
Qed.

Lemma limit_decision pl nt gl ga cash cr e c n s : (dval pl == e * (1 # 4))%Q -> (dval nt == notional e n s)%Q ->
  (dval gl == e * (1 # 4))%Q -> (dval ga == notional e n s)%Q -> (dval cr == notional e n s * (1001 # 1000))%Q -> dval cash = c ->
  snd (if dltb pl nt || dltb gl ga then (LIMIT_REJECT, NOTIONAL_OR_EXPOSURE_LIMIT)
       else if dltb cash cr then (LIMIT_REJECT, CASH_INSUFFICIENT) else (LIMIT_PASS, WITHIN_LIMITS)) = limit_outcome e c n s.
Proof.
  intros V1 V2 V3 V4 V5 <-. unfold limit_outcome. destruct (Qlt_le_dec _ _) as [H|H].
  - assert (dltb pl nt = true) as -> by (apply dltb_spec; by rewrite V1, V2). done.
  - assert (dltb pl nt = false) as -> by (apply dltb_false; by rewrite V1, V2).
    assert (dltb gl ga = false) as -> by (apply dltb_false; by rewrite V3, V4). cbn [orb].
    destruct (Qlt_le_dec (dval cash) _) as [H'|H'].
    + assert (dltb cash cr = true) as -> by (apply dltb_spec; by rewrite V5). done.
    + assert (dltb cash cr = false) as -> by (apply dltb_false; by rewrite V5). done.
Qed.

Lemma position_fraction_value : Decimal (max_position_fraction frozen_policy) = Ok (Dec false 25 (-2)).
Proof. reflexivity. Qed.
Lemma gross_fraction_value : Decimal (max_gross_exposure_fraction frozen_policy) = Ok (Dec false 25 (-2)).
Proof. reflexivity. Qed.

Lemma limit_values_exact p e c n s v : request_valid (ps_request p) -> sized_entry p e c n s v ->
  exists w, _limit_values p = Ok w /\ limited (dval e) (dval c) (dval n) (dval s) w.
Proof.
  intros Hr [Hel Hf Hc _ Hs Hp Ht _]. pose proof (ef_policy _ _ _ _ Hf) as Hpol. pose proof (ef_equity _ _ _ _ Hf) as He.
  destruct (risk_state_valid_facts _ (rv_portfolio _ Hr)) as [_ (e' & c' & h & m & pk & _ & _ & Hh & Hm & _ & _ & _ & _ & Hflat)].
  unfold texts_plain in Hp. rewrite !andb_true_iff in Hp. decompose [and] Hp. clear Hp.
  destruct (plain_reads _ _ _ _ (sq_quantity _ _ _ _ Hs) ltac:(done)) as (q & Hq & Xq & _).
  destruct (plain_reads _ _ _ _ (sq_entry _ _ _ _ Hs) ltac:(done)) as (en & Hen & Xen & _).
  destruct (denotes_exactly _ _ He) as (Xe & _), (denotes_exactly _ _ Hc) as (Xc & _), (denotes_exactly _ _ Hh) as (Xh & _),
    (denotes_exactly _ _ Hm) as (Xm & _).
  assert (prs_open_positions (rq_portfolio (ps_request p)) = 0) as Hopen.
  { unfold size_eligible in Hel. rewrite !andb_true_iff, Z.eqb_eq in Hel. apply Hel. }
  pose proof (proj2 Hflat Hopen) as Vh. rewrite Vh in Xh. clear Hflat.
  destruct (exactly_mul Xq Xen ltac:(done)) as [XN _]. destruct (fee_quotient _ _ _ _ XN ltac:(done) ltac:(done) ltac:(done)) as (fee & Efee & Vfee).
  destruct (exactly_mul Xe (exactly_const 0 2 (Dec false 25 (-2)) (1 # 4) ltac:(done) ltac:(done) ltac:(reflexivity)) ltac:(done)) as [XL _].
  destruct (exactly_mul Xh Xm ltac:(done)) as [XB _]. destruct (exactly_add XB XN ltac:(done)) as [XA _].
  assert (0 * dval m == 0)%Q as Z0 by ring. rewrite Z0 in XB, XA. clear Z0. rewrite Qplus_0_l in XA.
  fold (notional (dval e) (dval n) (dval s)) in XN, XA, Vfee.
  set (N := notional (dval e) (dval n) (dval s)) in *.
  assert (dval (dadd FP (dmul FP q en) fee) == N * (1001 # 1000))%Q as VC by (apply (cash_value _ _ _ XN Vfee)).
  unfold _limit_values. rewrite Hopen, (proj1 Hh). cbn [Z.eqb negb rbind].
  rewrite (proj2 (deqb_spec h dec0)) by by rewrite Vh, dval_0. cbn [negb].
  pose proof (f_equal ps_quantity Ht) as Tq. pose proof (f_equal ps_entry_execution_price Ht) as Te.
  cbn [ps_quantity ps_entry_execution_price size_texts] in Tq, Te. rewrite Tq, Te, (proj1 Hq), (proj1 Hen), (proj1 He), (proj1 Hc).
  cbn [rbind]. rewrite Efee. cbn [rbind]. rewrite (proj1 Hm), Hpol, position_fraction_value, gross_fraction_value. cbn [rbind].
  eexists. split; [reflexivity|]. constructor; cbn [lv_reason lv_status lv_entry_notional_quote lv_entry_fee_quote lv_cash_required_quote
    lv_position_limit_quote lv_gross_exposure_before_quote lv_gross_exposure_after_quote lv_gross_exposure_limit_quote];
    [| |apply XN|exact Vfee|exact VC|apply XL|apply XB|apply XA|apply XL].
  - apply limit_decision; [apply XL|apply XN|apply XL|apply XA|exact VC|done].
  - destruct (dltb _ _ || dltb _ _); [done|]. by destruct (dltb _ _).
Qed.

(** ** The assessment *)

Definition limit_plain (w : limit_values) : bool :=
  plain (lv_entry_notional_quote w) && plain (lv_entry_fee_quote w) && plain (lv_cash_required_quote w)
  && plain (lv_position_limit_quote w) && plain (lv_gross_exposure_before_quote w) && plain (lv_gross_exposure_after_quote w)
  && plain (lv_gross_exposure_limit_quote w).

Lemma assess_entry_limits_texts p w : _limit_values p = Ok w ->
  assess_entry_limits p = if limit_plain w then Ok (limit_texts p w)
                          else Err (Raise RiskLimitError "Limit assessment is noncanonical or inconsistent").
Proof.
  intros E. unfold assess_entry_limits, new_limit_assessment, limit_post_init. rewrite E. cbn [rbind].
  cbn [limit_texts la_position_size la_status la_reason la_entry_notional_quote la_entry_fee_quote la_cash_required_quote
    la_position_limit_quote la_gross_exposure_before_quote la_gross_exposure_after_quote la_gross_exposure_limit_quote].
  rewrite E. cbn [rbind]. rewrite !bool_decide_true by done. cbn [negb orb]. rewrite !canonical_text. fold (limit_plain w).
  by destruct (limit_plain w).
Qed.

Lemma limit_valid_inv a w : _limit_values (la_position_size a) = Ok w -> limit_is_valid a ->
  a = limit_texts (la_position_size a) w /\ limit_plain w = true.
Proof.
  unfold limit_is_valid, limit_post_init. intros -> H. cbn [rbind] in H. destruct (_ || _) eqn:E1 in H; [done|].
  destruct (negb _) eqn:Ec in H; [done|]. clear H. apply orb_false_iff in E1 as [E1 E2].
  apply negb_false_iff, bool_decide_eq_true in E1, E2. apply negb_false_iff in Ec.
  destruct a as [p st rs nt fee cr pl gb ga gl]. cbn [la_position_size la_status la_reason la_entry_notional_quote la_entry_fee_quote
    la_cash_required_quote la_position_limit_quote la_gross_exposure_before_quote la_gross_exposure_after_quote la_gross_exposure_limit_quote] in *.
  rewrite !andb_true_iff, !canonical_spec in Ec. decompose [and] Ec. subst. unfold limit_plain. by rewrite !andb_true_iff.
Qed.

(** * Claims *)

Example sample_limits :
  match assess_entry_limits sized_sample with
  | Ok a => Some (la_status a, la_entry_notional_quote a, la_entry_fee_quote a, la_cash_required_quote a) | Err _ => None end
  = Some (LIMIT_PASS, "1554.5643137100", "1.55456431371", "1556.11887802371")%string.
Proof. vm_compute. reflexivity. Qed.

(** The entry limits decide over exact rationals: for a constructed position
    size of a valid request the portfolio is flat, the notional is quantity times
    execution price, and the assessment rejects for exposure exactly when it
    exceeds a quarter of the equity, else for cash exactly when the notional and
    its fee exceed the cash, else passes; a value whose text is not plain is a
    RiskLimitError, never a pass. *)
Theorem entry_limits_exact p (Hr : request_valid (ps_request p)) (Hp : size_is_valid p) :
  exists e c n s v w, sized_entry p e c n s v /\ limited (dval e) (dval c) (dval n) (dval s) w
    /\ assess_entry_limits p = if limit_plain w then Ok (limit_texts p w)
                               else Err (Raise RiskLimitError "Limit assessment is noncanonical or inconsistent").
Proof.
  destruct (sized_entry_of p Hr Hp) as (e & c & n & s & v & Hs). destruct (limit_values_exact p e c n s v Hr Hs) as (w & E & Hw).
  exists e, c, n, s, v, w. split; [done|]. split; [done|]. by apply assess_entry_limits_texts.
Qed.

Lemma sized_sample_valid : request_valid (ps_request sized_sample) /\ size_is_valid sized_sample.
Proof. split; [exact sample_entry_valid|vm_compute; reflexivity]. Qed.

Lemma entry_limits_exact_witness : exists a, assess_entry_limits sized_sample = Ok a /\ la_status a = LIMIT_PASS.
Proof.
  destruct (entry_limits_exact sized_sample (proj1 sized_sample_valid) (proj2 sized_sample_valid)) as (e & c & n & s & v & w & _ & _ & E).
  destruct (assess_entry_limits sized_sample) as [a|] eqn:Ea; [|exfalso; revert Ea; vm_compute; discriminate].
  exists a. split; [reflexivity|]. revert Ea. vm_compute. intros [= <-]. reflexivity.
Defined.
