(* ===== verification/Protective.v ===== *)
(** * The protective gate (yatl/risk/protective.py)

    Stop, post-cost reward and worst loss of a sized, limit-checked entry. *)
From S2P Require Import Prelude PyDecimal PyText Digest Market BacktestConfig MarketView Costs StrategyContracts Features Regime Trend ExactDec RiskContracts Sizing Limits.

Inductive protective_status : Type := GATE_PASS | GATE_REJECT.
Inductive protective_reason : Type :=
| PROTECTIVE_GATE_PASSED | PRIOR_LIMIT_REJECTED | INVALID_PROTECTIVE_LEVELS | NON_POSITIVE_POST_COST_REWARD
| PLANNED_LOSS_EXCEEDS_BUDGET.
#[global] Instance protective_status_eq_dec : EqDecision protective_status.
Proof. solve_decision. Defined.
#[global] Instance protective_reason_eq_dec : EqDecision protective_reason.
Proof. solve_decision. Defined.
Definition protective_status_value (s : protective_status) : string :=
  match s with GATE_PASS => "PASS" | GATE_REJECT => "REJECT" end.
Definition protective_reason_value (r : protective_reason) : string :=
  match r with
  | PROTECTIVE_GATE_PASSED => "PROTECTIVE_GATE_PASSED" | PRIOR_LIMIT_REJECTED => "PRIOR_LIMIT_REJECTED"
  | INVALID_PROTECTIVE_LEVELS => "INVALID_PROTECTIVE_LEVELS"
  | NON_POSITIVE_POST_COST_REWARD => "NON_POSITIVE_POST_COST_REWARD"
  | PLANNED_LOSS_EXCEEDS_BUDGET => "PLANNED_LOSS_EXCEEDS_BUDGET"
  end.

Record gate_values : Type := GateValues {
  gv_status : protective_status;
  gv_reason : protective_reason;
  gv_quantity : dec;
  gv_reference_entry_price : dec;
  gv_reference_stop_price : dec;
  gv_reference_target_price : dec;
  gv_entry_execution_price : dec;
  gv_stop_execution_price : dec;
  gv_target_execution_price : dec;
  gv_entry_fee_quote : dec;
  gv_stop_fee_quote : dec;
  gv_target_fee_quote : dec;
  gv_worst_loss_quote : dec;
  gv_risk_budget_quote : dec;
  gv_net_reward_quote : dec;
}.

Definition _gate_values (a : limit_assessment) : result gate_values :=
  let size := la_position_size a in
  match sd_setup (rq_decision (ps_request size)) with
  | None => Err (Raise ProtectiveGateError "Protective gate requires an entry setup")
  | Some setup =>
      let* quantity := Decimal (ps_quantity size) in
      let* entry_reference := Decimal (setup_reference_price setup) in
      let* stop_reference := Decimal (invalidation_price setup) in
      let* target_reference := Decimal (setup_target_price setup) in
      let* fee_rate := ddiv FP FEE_BPS BASIS_POINTS in
      let* slippage_rate := ddiv FP SLIPPAGE_BPS BASIS_POINTS in
      let entry_execution := dmul FP entry_reference (dadd FP dec1 slippage_rate) in
      let stop_execution := dmul FP stop_reference (dsub FP dec1 slippage_rate) in
      let target_execution := dmul FP target_reference (dsub FP dec1 slippage_rate) in
      let entry_fee := dmul FP (dmul FP quantity entry_execution) fee_rate in
      let stop_fee := dmul FP (dmul FP quantity stop_execution) fee_rate in
      let target_fee := dmul FP (dmul FP quantity target_execution) fee_rate in
      let worst_loss := dadd FP (dadd FP (dmul FP quantity (dsub FP entry_execution stop_execution)) entry_fee) stop_fee in
      let net_reward := dsub FP (dsub FP (dmul FP quantity (dsub FP target_execution entry_execution)) entry_fee) target_fee in
      let* risk_budget := Decimal (ps_risk_budget_quote size) in
      let levels_valid :=
        dltb stop_reference entry_reference && dltb entry_reference target_reference
        && dltb dec0 stop_execution && dltb stop_execution entry_execution in
      let outcome :=
        if negb (bool_decide (la_status a = LIMIT_PASS)) then (GATE_REJECT, PRIOR_LIMIT_REJECTED)
        else if negb levels_valid then (GATE_REJECT, INVALID_PROTECTIVE_LEVELS)
        else if dltb risk_budget worst_loss then (GATE_REJECT, PLANNED_LOSS_EXCEEDS_BUDGET)
        else if dleb net_reward dec0 then (GATE_REJECT, NON_POSITIVE_POST_COST_REWARD)
        else (GATE_PASS, PROTECTIVE_GATE_PASSED) in
      Ok (GateValues (fst outcome) (snd outcome) quantity entry_reference stop_reference target_reference entry_execution
            stop_execution target_execution entry_fee stop_fee target_fee worst_loss risk_budget net_reward)
  end.

Record protective_assessment : Type := ProtectiveAssessment {
  pa_limit : limit_assessment;
  pa_status : protective_status;
  pa_reason : protective_reason;
  pa_quantity : string;
  pa_reference_entry_price : string;
  pa_reference_stop_price : string;
  pa_reference_target_price : string;
  pa_entry_execution_price : string;
  pa_stop_execution_price : string;
  pa_target_execution_price : string;
  pa_entry_fee_quote : string;
  pa_stop_fee_quote : string;
  pa_target_fee_quote : string;
  pa_worst_loss_quote : string;
  pa_risk_budget_quote : string;
  pa_net_reward_quote : string;
}.
#[global] Instance protective_assessment_eq_dec : EqDecision protective_assessment.
Proof. solve_decision. Defined.

Definition canonical_signed (value : string) (expected : dec) : bool :=
  signed_pattern value && String.eqb value (format_f expected).

Definition gate_post_init (a : protective_assessment) : result unit :=
  let* expected := _gate_values (pa_limit a) in
  raise_if negb (bool_decide (pa_status a = gv_status expected)) || negb (bool_decide (pa_reason a = gv_reason expected))
    with ProtectiveGateError "Protective status or reason is inconsistent" ;;
  raise_if negb (canonical (pa_quantity a) (gv_quantity expected)
                 && canonical (pa_reference_entry_price a) (gv_reference_entry_price expected)
                 && canonical (pa_reference_stop_price a) (gv_reference_stop_price expected)
                 && canonical (pa_reference_target_price a) (gv_reference_target_price expected)
                 && canonical (pa_entry_execution_price a) (gv_entry_execution_price expected)
                 && canonical (pa_stop_execution_price a) (gv_stop_execution_price expected)
                 && canonical (pa_target_execution_price a) (gv_target_execution_price expected)
                 && canonical (pa_entry_fee_quote a) (gv_entry_fee_quote expected)
                 && canonical (pa_stop_fee_quote a) (gv_stop_fee_quote expected)
                 && canonical (pa_target_fee_quote a) (gv_target_fee_quote expected)
                 && canonical (pa_worst_loss_quote a) (gv_worst_loss_quote expected)
                 && canonical (pa_risk_budget_quote a) (gv_risk_budget_quote expected)
                 && canonical_signed (pa_net_reward_quote a) (gv_net_reward_quote expected))
    with ProtectiveGateError "Protective assessment is noncanonical or inconsistent" ;;
  raise_if negb (String.eqb (pa_worst_loss_quote a) (ps_planned_loss_quote (la_position_size (pa_limit a))))
    with ProtectiveGateError "Worst loss does not match accepted sizing" ;;
  Ok tt.
Definition new_gate (a : protective_assessment) : result protective_assessment := do* gate_post_init a ;; Ok a.

Definition gate_request (a : protective_assessment) : risk_request := ps_request (la_position_size (pa_limit a)).

Definition gate_payload (a : protective_assessment) : json := JObj [
  ("schema_version", JInt 1); ("request_sha256", JStr (request_sha256 (gate_request a)));
  ("limit_status", JStr (limit_status_value (la_status (pa_limit a))));
  ("limit_reason", JStr (limit_reason_value (la_reason (pa_limit a))));
  ("status", JStr (protective_status_value (pa_status a))); ("reason", JStr (protective_reason_value (pa_reason a)));
  ("quantity", JStr (pa_quantity a)); ("reference_entry_price", JStr (pa_reference_entry_price a));
  ("reference_stop_price", JStr (pa_reference_stop_price a)); ("reference_target_price", JStr (pa_reference_target_price a));
  ("entry_execution_price", JStr (pa_entry_execution_price a)); ("stop_execution_price", JStr (pa_stop_execution_price a));
  ("target_execution_price", JStr (pa_target_execution_price a)); ("entry_fee_quote", JStr (pa_entry_fee_quote a));
  ("stop_fee_quote", JStr (pa_stop_fee_quote a)); ("target_fee_quote", JStr (pa_target_fee_quote a));
  ("worst_loss_quote", JStr (pa_worst_loss_quote a)); ("risk_budget_quote", JStr (pa_risk_budget_quote a));
  ("net_reward_quote", JStr (pa_net_reward_quote a))]%string.
Definition gate_sha256 (a : protective_assessment) : string := digest (gate_payload a).

Definition gate_texts (a : limit_assessment) (v : gate_values) : protective_assessment :=
  ProtectiveAssessment a (gv_status v) (gv_reason v) (format_f (gv_quantity v)) (format_f (gv_reference_entry_price v))
    (format_f (gv_reference_stop_price v)) (format_f (gv_reference_target_price v)) (format_f (gv_entry_execution_price v))
    (format_f (gv_stop_execution_price v)) (format_f (gv_target_execution_price v)) (format_f (gv_entry_fee_quote v))
    (format_f (gv_stop_fee_quote v)) (format_f (gv_target_fee_quote v)) (format_f (gv_worst_loss_quote v))
    (format_f (gv_risk_budget_quote v)) (format_f (gv_net_reward_quote v)).

Definition assess_protective_entry (a : limit_assessment) : result protective_assessment :=
  let* values := _gate_values a in new_gate (gate_texts a values).

(** * Properties *)

Definition gate_is_valid (a : protective_assessment) : Prop := gate_post_init a = Ok tt.

(** ** The specification over the rationals *)

Section Spec.
Variables e c n s t : Q.
Definition target_exec : Q := (t * (9995 # 10000))%Q.
Definition net_reward_value : Q :=
  (step_quantity e n s * (target_exec * (999 # 1000) - entry_exec n * (1001 # 1000)))%Q.
Definition gate_outcome : protective_reason :=
  match limit_outcome e c n s with
  | WITHIN_LIMITS => if Qlt_le_dec 0 net_reward_value then PROTECTIVE_GATE_PASSED else NON_POSITIVE_POST_COST_REWARD
  | _ => PRIOR_LIMIT_REJECTED
  end.
End Spec.

Record gated (e c n s t : Q) (v : size_values) (w : gate_values) : Prop := {
  gt_reason : gv_reason w = gate_outcome e c n s t;
  gt_status : gv_status w = GATE_PASS <-> gv_reason w = PROTECTIVE_GATE_PASSED;
  gt_quantity : (dval (gv_quantity w) == step_quantity e n s)%Q;
  gt_entry : (dval (gv_entry_execution_price w) == entry_exec n)%Q;
  gt_stop : (dval (gv_stop_execution_price w) == stop_exec s)%Q;
  gt_target : (dval (gv_target_execution_price w) == target_exec t)%Q;
  gt_worst : (dval (gv_worst_loss_quote w) == step_quantity e n s * unit_loss n s)%Q;
  gt_worst_text : String.eqb (format_f (gv_worst_loss_quote w)) (format_f (sv_planned_loss_quote v)) = (dexp (sv_quantity v) <=? 0);
  gt_budget : (dval (gv_risk_budget_quote w) == budget_value e)%Q;
  gt_reward : (dval (gv_net_reward_quote w) == net_reward_value e n s t)%Q;
}.

(** The two ways of adding up the worst loss print the same text exactly when the
    quantity has no positive exponent. *)
Lemma worst_text w p q v : (0 < v)%Q -> (dval w == v)%Q -> (dval p == v)%Q -> dexp w < 0 -> dexp w = Z.min 0 q + dexp p - q ->
  String.eqb (format_f w) (format_f p) = (q <=? 0).
Proof.
  intros Hv Vw Vp Hw Hx. destruct (Z.leb_spec q 0) as [Hq|Hq].
  - apply String.eqb_eq. f_equal. apply dec_same; [|lia|by rewrite Vw, Vp].
    rewrite !dneg_false_pos; [done|by rewrite Vp|by rewrite Vw].
  - apply String.eqb_neq. intros E. destruct (format_reads p) as (p' & Ep & _ & _ & _ & Xp).
    rewrite <- E, Decimal_format in Ep by lia. injection Ep as <-. lia.
Qed.

Lemma Qmult_lt_0 x y : (0 < x)%Q -> (0 < y)%Q -> (0 < x * y)%Q.
Proof. intros Hx Hy. apply (Qmult_lt_compat_r 0 x y Hy) in Hx. by rewrite Qmult_0_l in Hx. Qed.

Lemma step_pos e n s : 0 < step_count e n s -> (0 < step_quantity e n s)%Q.
Proof.
  intros Hk. unfold step_quantity. rewrite over_million.
  assert (0 < inject_Z (step_count e n s))%Q by (change 0%Q with (inject_Z 0); by rewrite <- Zlt_Qlt). by apply Qmult_lt_0.
Qed.

Section Gate.
Context {a : limit_assessment} {e c n s t : dec} {v : size_values} {lw : limit_values} {setup : long_setup}.
Abbreviation r := (ps_request (la_position_size a)).
Hypothesis Hs : sized_entry (la_position_size a) e c n s v.
Hypothesis Hset : sd_setup (rq_decision r) = Some setup.
Hypothesis Hn : denotes (setup_reference_price setup) n.
Hypothesis Hi : denotes (invalidation_price setup) s.
Hypothesis Ht : denotes (setup_target_price setup) t.
Hypothesis Hnt : (dval n < dval t)%Q.
Hypothesis Hl : limited (dval e) (dval c) (dval n) (dval s) lw.
Hypothesis Ha : la_status a = lv_status lw.

Abbreviation Qty := (step_quantity (dval e) (dval n) (dval s)).
Abbreviation EE := (entry_exec (dval n)).
Abbreviation SE := (stop_exec (dval s)).
Abbreviation TE := (target_exec (dval t)).

(** Execution prices and fees, exactly. *)
Lemma fee_exact q i f x X : exactly 40 40 q Qty -> exactly i f x X -> i + f <= 160 ->
  exactly (40 + i) (40 + f + 3) (dmul FP (dmul FP q x) (Dec false 1 (-3))) (Qty * X * (1 # 1000))
  /\ dexp (dmul FP (dmul FP q x) (Dec false 1 (-3))) = dexp q + dexp x - 3.
Proof using.
  intros Xq Xx Hp. destruct (exactly_mul Xq Xx ltac:(lia)) as [Xm Em].
  destruct (exactly_mul Xm (exactly_const 0 3 (Dec false 1 (-3)) (1 # 1000) ltac:(done) ltac:(done) ltac:(reflexivity)) ltac:(lia)) as [Xf Ef].
  split; [eapply exactly_weaken; [exact Xf|lia|lia]|]. rewrite Ef, Em. simpl. lia.
Qed.

Lemma gate_decision reward : (dval reward == net_reward_value (dval e) (dval n) (dval s) (dval t))%Q ->
  snd (if negb (bool_decide (la_status a = LIMIT_PASS)) then (GATE_REJECT, PRIOR_LIMIT_REJECTED)
       else if dleb reward dec0 then (GATE_REJECT, NON_POSITIVE_POST_COST_REWARD) else (GATE_PASS, PROTECTIVE_GATE_PASSED))
  = gate_outcome (dval e) (dval c) (dval n) (dval s) (dval t).
Proof using Hl Ha.
  intros V. unfold gate_outcome. rewrite <- (lm_reason _ _ _ _ _ Hl). pose proof (lm_status _ _ _ _ _ Hl) as Hst. rewrite <- Ha in Hst.
  case_bool_decide as E; cbn [negb].
  - rewrite (proj1 Hst E). destruct (Qlt_le_dec _ _) as [H|H].
    + by rewrite (proj2 (dleb_false reward dec0)) by by rewrite V, dval_0.
    + by rewrite (proj2 (dleb_spec reward dec0)) by by rewrite V, dval_0.
  - destruct (lv_reason lw); [|done|done]. exfalso. apply E, Hst. done.
Qed.

Lemma gate_values_exact : exists w, _gate_values a = Ok w /\ gated (dval e) (dval c) (dval n) (dval s) (dval t) v w.
Proof using All.
  destruct Hs as [Hel Hf Hc Hk Hsz Hp Htx Hlx]. destruct (ef_order _ _ _ _ Hf) as (Pe & Ps & Psn).
  destruct (value_facts Pe Ps Psn) as (PB & Pst & Pse & PF & PL). destruct (step_within _ _ _ PB PL) as [W1 _].
  unfold texts_plain in Hp. rewrite !andb_true_iff in Hp. decompose [and] Hp. clear Hp.
  destruct (plain_reads _ _ _ _ (sq_quantity _ _ _ _ Hsz) ltac:(done)) as (q & Hq & Xq & Eq).
  destruct (plain_reads _ _ _ _ (sq_budget _ _ _ _ Hsz) ltac:(done)) as (b & Hb & Xb & _).
  pose proof (f_equal ps_quantity Htx) as Tq. pose proof (f_equal ps_risk_budget_quote Htx) as Tb.
  cbn [ps_quantity ps_risk_budget_quote size_texts] in Tq, Tb.
  destruct (denotes_exactly _ _ Hn) as (Xn & En & _), (denotes_exactly _ _ Hi) as (Xs & Es & _), (denotes_exactly _ _ Ht) as (Xt & _).
  destruct (exactly_mul Xn (exactly_const 1 4 (Dec false 10005 (-4)) (10005 # 10000) ltac:(done) ltac:(done) ltac:(reflexivity)) ltac:(done)) as [XEn EEn].
  destruct (exactly_mul Xs (exactly_const 1 4 (Dec false 9995 (-4)) (9995 # 10000) ltac:(done) ltac:(done) ltac:(reflexivity)) ltac:(done)) as [XEs EEs].
  destruct (exactly_mul Xt (exactly_const 1 4 (Dec false 9995 (-4)) (9995 # 10000) ltac:(done) ltac:(done) ltac:(reflexivity)) ltac:(done)) as [XEt _].
  fold EE in XEn. fold SE in XEs. fold TE in XEt.
  unfold _gate_values. rewrite Hset, Tq, Tb, (proj1 Hq), (proj1 Hn), (proj1 Hi), (proj1 Ht), fee_rate_value, slippage_rate_value. cbn [rbind].
  rewrite entry_factor, stop_factor, (proj1 Hb). cbn [rbind].
  set (en := dmul FP n _) in *. set (es := dmul FP s _) in *. set (et := dmul FP t _) in *. clearbody en es et.
  destruct (fee_exact q _ _ en _ Xq XEn ltac:(done)) as [XFe EFe], (fee_exact q _ _ es _ Xq XEs ltac:(done)) as [XFs EFs],
    (fee_exact q _ _ et _ Xq XEt ltac:(done)) as [XFt _].
  destruct (exactly_sub XEn XEs ltac:(done)) as [XD ED]. destruct (exactly_mul Xq XD ltac:(done)) as [XQD EQD].
  destruct (exactly_add XQD XFe ltac:(done)) as [XW1 EW1]. destruct (exactly_add XW1 XFs ltac:(done)) as [XW EW].
  destruct (exactly_sub XEt XEn ltac:(done)) as [XG _]. destruct (exactly_mul Xq XG ltac:(done)) as [XQG _].
  destruct (exactly_sub XQG XFe ltac:(done)) as [XR1 _]. destruct (exactly_sub XR1 XFt ltac:(done)) as [XR _].
  assert (Qty * (EE - SE) + Qty * EE * (1 # 1000) + Qty * SE * (1 # 1000) == Qty * unit_loss (dval n) (dval s))%Q as Vw
    by (unfold unit_loss, unit_fee; field).
  assert (Qty * (TE - EE) - Qty * EE * (1 # 1000) - Qty * TE * (1 # 1000) == net_reward_value (dval e) (dval n) (dval s) (dval t))%Q as Vr
    by (unfold net_reward_value; ring).
  rewrite Vw in XW. rewrite Vr in XR. clear Vw Vr.
  set (worst := dadd FP (dadd FP (dmul FP q (dsub FP en es)) _) _) in *. set (reward := dsub FP (dsub FP (dmul FP q (dsub FP et en)) _) _) in *.
  eexists. split; [reflexivity|]. constructor; cbn [gv_reason gv_status gv_quantity gv_entry_execution_price gv_stop_execution_price
    gv_target_execution_price gv_worst_loss_quote gv_risk_budget_quote gv_net_reward_quote];
    [| |apply Xq|apply XEn|apply XEs|apply XEt|apply XW| |apply Xb|apply XR].
  - rewrite (proj2 (dltb_spec s n)), (proj2 (dltb_spec n t)), (proj2 (dltb_spec dec0 es)), (proj2 (dltb_spec es en))
      by (rewrite ?(proj2 XEs), ?(proj2 XEn), ?dval_0; done). cbn [andb negb].
    rewrite (proj2 (dltb_false b worst)) by by rewrite (proj2 XW), (proj2 Xb).
    apply gate_decision; apply XR.
  - destruct (negb (bool_decide _)); [done|]. destruct (negb _); [done|]. destruct (dltb _ _); [done|]. by destruct (dleb _ _).
  - apply (worst_text _ _ _ (Qty * unit_loss (dval n) (dval s))%Q).
    + apply Qmult_lt_0; [by apply step_pos|done].
    + apply XW.
    + apply (sq_planned _ _ _ _ Hsz).
    + rewrite EW, EW1, EFe, EFs, EQD, ED, EEn, EEs. cbn [dexp]. lia.
    + rewrite EW, EW1, EFe, EFs, EQD, ED, EEn, EEs, (sq_planned_exp _ _ _ _ Hsz), Hlx, <- Eq. cbn [dexp]. lia.
Qed.
End Gate.

(** ** The assessment *)

Definition gate_plain (w : gate_values) : bool :=
  plain (gv_quantity w) && plain (gv_reference_entry_price w) && plain (gv_reference_stop_price w)
  && plain (gv_reference_target_price w) && plain (gv_entry_execution_price w) && plain (gv_stop_execution_price w)
  && plain (gv_target_execution_price w) && plain (gv_entry_fee_quote w) && plain (gv_stop_fee_quote w)
  && plain (gv_target_fee_quote w) && plain (gv_worst_loss_quote w) && plain (gv_risk_budget_quote w)
  && signed_pattern (format_f (gv_net_reward_quote w)).

Lemma canonical_signed_text d : canonical_signed (format_f d) d = signed_pattern (format_f d).
Proof. unfold canonical_signed. by rewrite (proj2 (String.eqb_eq _ _)), andb_true_r. Qed.

Lemma assess_protective_texts a w : _gate_values a = Ok w ->
  assess_protective_entry a =
    if gate_plain w then
      if String.eqb (format_f (gv_worst_loss_quote w)) (ps_planned_loss_quote (la_position_size a)) then Ok (gate_texts a w)
      else Err (Raise ProtectiveGateError "Worst loss does not match accepted sizing")
    else Err (Raise ProtectiveGateError "Protective assessment is noncanonical or inconsistent").
Proof.
  intros E. unfold assess_protective_entry, new_gate, gate_post_init. rewrite E. cbn [rbind].
  cbn [gate_texts pa_limit pa_status pa_reason pa_quantity pa_reference_entry_price pa_reference_stop_price
    pa_reference_target_price pa_entry_execution_price pa_stop_execution_price pa_target_execution_price pa_entry_fee_quote
    pa_stop_fee_quote pa_target_fee_quote pa_worst_loss_quote pa_risk_budget_quote pa_net_reward_quote].
  rewrite E. cbn [rbind]. rewrite !bool_decide_true by done. cbn [negb orb]. rewrite !canonical_text, canonical_signed_text.
  fold (gate_plain w). destruct (gate_plain w); [|done]. cbn [negb]. by destruct (String.eqb _ _).
Qed.

(** The facts of a constructed limit assessment. *)
Lemma limit_sized a : request_valid (ps_request (la_position_size a)) -> size_is_valid (la_position_size a) -> limit_is_valid a ->
  exists e c n s v lw, sized_entry (la_position_size a) e c n s v /\ limited (dval e) (dval c) (dval n) (dval s) lw
    /\ a = limit_texts (la_position_size a) lw.
Proof.
  intros Hr Hp Ha. destruct (sized_entry_of _ Hr Hp) as (e & c & n & s & v & Hs).
  destruct (limit_values_exact _ e c n s v Hr Hs) as (lw & E & Hw). destruct (limit_valid_inv a lw E Ha) as [Ht _].
  by exists e, c, n, s, v, lw.
Qed.

Lemma gate_exact a : request_valid (ps_request (la_position_size a)) -> size_is_valid (la_position_size a) -> limit_is_valid a ->
  exists e c n s t v w, sized_entry (la_position_size a) e c n s v
    /\ (exists setup, sd_setup (rq_decision (ps_request (la_position_size a))) = Some setup /\ denotes (setup_target_price setup) t)
    /\ _gate_values a = Ok w /\ gated (dval e) (dval c) (dval n) (dval s) (dval t) v w
    /\ assess_protective_entry a =
       if gate_plain w then
         if dexp (sv_quantity v) <=? 0 then Ok (gate_texts a w)
         else Err (Raise ProtectiveGateError "Worst loss does not match accepted sizing")
       else Err (Raise ProtectiveGateError "Protective assessment is noncanonical or inconsistent").
Proof.
  intros Hr Hp Ha. destruct (limit_sized a Hr Hp Ha) as (e & c & n & s & v & lw & Hs & Hl & Ht).
  destruct (ef_setup _ _ _ _ (se_facts _ _ _ _ _ _ Hs)) as (setup & Es & Hn & Hi).
  pose proof (rv_setup _ Hr) as Hset. rewrite Es in Hset. apply setup_valid_spec in Hset as (n' & s' & t & Hn' & _ & Htg & _ & _ & Hnt).
  pose proof (denotes_inj _ _ _ Hn (proj1 Hn')) as ->.
  destruct (gate_values_exact (a:=a) (lw:=lw) Hs Es Hn Hi Htg Hnt Hl (f_equal la_status Ht)) as (w & Ew & Hw).
  exists e, c, n, s, t, v, w. split; [done|]. split; [by exists setup|]. split; [done|]. split; [done|].
  rewrite (assess_protective_texts a w Ew). pose proof (f_equal ps_planned_loss_quote (se_texts _ _ _ _ _ _ Hs)) as Tp.
  cbn [ps_planned_loss_quote size_texts] in Tp. by rewrite Tp, (gt_worst_text _ _ _ _ _ _ _ Hw).
Qed.

(** * Claims *)

Definition limited_sample : limit_assessment :=
  Eval vm_compute in match assess_entry_limits sized_sample with Ok a => a | Err _ => limit_texts sized_sample
    (LimitValues LIMIT_REJECT WITHIN_LIMITS dec0 dec0 dec0 dec0 dec0 dec0 dec0) end.

Example sample_gate :
  match assess_protective_entry limited_sample with
  | Ok a => Some (pa_status a, pa_worst_loss_quote a, pa_net_reward_quote a) | Err _ => None end
  = Some (GATE_PASS, "99.999947640460140", "186.015808500920280")%string.
Proof. vm_compute. reflexivity. Qed.

(** C17. The protective gate over exact rationals: for a limit assessment of a
    sized entry of a valid request, the worst loss is the planned loss, the
    levels are always valid and the loss within the budget, and the gate passes
    exactly when the limits passed and the target's proceeds after fees exceed
    the entry's cost after fees; it rejects for the limit first, else for the
    reward.  The constructor accepts the result exactly when its texts are plain
    and the quantity has no positive decimal exponent. *)
Theorem protective_gate_exact a (Hr : request_valid (ps_request (la_position_size a)))
    (Hp : size_is_valid (la_position_size a)) (Ha : limit_is_valid a) :
  exists e c n s t v w, sized_entry (la_position_size a) e c n s v
    /\ (exists setup, sd_setup (rq_decision (ps_request (la_position_size a))) = Some setup /\ denotes (setup_target_price setup) t)
    /\ gated (dval e) (dval c) (dval n) (dval s) (dval t) v w
    /\ assess_protective_entry a =
       if gate_plain w then
         if dexp (sv_quantity v) <=? 0 then Ok (gate_texts a w)
         else Err (Raise ProtectiveGateError "Worst loss does not match accepted sizing")
       else Err (Raise ProtectiveGateError "Protective assessment is noncanonical or inconsistent").
Proof.
  destruct (gate_exact a Hr Hp Ha) as (e & c & n & s & t & v & w & Hs & Ht & _ & Hw & E). by exists e, c, n, s, t, v, w.
Qed.

Lemma limited_sample_valid : limit_is_valid limited_sample.
Proof. vm_compute. reflexivity. Qed.

Lemma protective_gate_exact_witness : exists g, assess_protective_entry limited_sample = Ok g /\ pa_status g = GATE_PASS.
Proof.
  destruct (protective_gate_exact limited_sample (proj1 sized_sample_valid) (proj2 sized_sample_valid) limited_sample_valid)
    as (e & c & n & s & t & v & w & _ & _ & _ & E).
  destruct (assess_protective_entry limited_sample) as [g|] eqn:Eg; [|exfalso; revert Eg; vm_compute; discriminate].
  exists g. split; [reflexivity|]. revert Eg. vm_compute. intros [= <-]. reflexivity.
Defined.

Definition round_request : risk_request := sample_request pullback_context (LongSetup "2" "1" "4") "10045005".
Definition round_size : position_size :=
  Eval vm_compute in match size_entry round_request with Ok p => p | Err _ => sized_sample end.
Definition round_limits : limit_assessment :=
  Eval vm_compute in match assess_entry_limits round_size with Ok a => a | Err _ => limited_sample end.

(** A round quantity is refused.  Equity 10045005 with entry 2, invalidation 1
    and target 4 is sized to 100000 units (a decimal with exponent 5) and passes
    the limits, but the gate adds up the same worst loss with trailing zeros, and
    the text comparison with the sizing raises. *)
Theorem round_quantity_refused :
  size_entry round_request = Ok round_size /\ ps_quantity round_size = "100000"%string
  /\ assess_entry_limits round_size = Ok round_limits /\ la_status round_limits = LIMIT_PASS
  /\ assess_protective_entry round_limits = Err (Raise ProtectiveGateError "Worst loss does not match accepted sizing").
Proof. repeat split; vm_compute; reflexivity. Qed.
