(* ===== verification/Circuit.v ===== *)
(** * Circuit breakers (yatl/risk/circuit.py)

    Session loss, drawdown and loss streak of a managed state against the frozen
    limits, bound to the request they were assessed for. *)
From S2P Require Import Prelude PyDecimal PyText Digest Market BacktestConfig MarketView Costs StrategyContracts Features ExactDec RiskContracts HashChain RiskState.
From S2P Require Import Regime Trend Sizing.

Inductive circuit_breaker : Type := SESSION_LOSS_LIMIT | DRAWDOWN_LIMIT | CONSECUTIVE_LOSS_LIMIT.
Inductive circuit_disposition : Type := CLEAR | BLOCK_ENTRY | ALLOW_RISK_REDUCING_EXIT | CIRCUIT_NO_ACTION.
Inductive circuit_reason : Type :=
| CR_WITHIN_LIMITS | CR_SESSION_LOSS_LIMIT | CR_DRAWDOWN_LIMIT | CR_CONSECUTIVE_LOSS_LIMIT | CR_MULTIPLE_LIMITS
| CR_EXIT_REDUCES_RISK | CR_NO_STRATEGY_ACTION.
#[global] Instance circuit_breaker_eq_dec : EqDecision circuit_breaker.
Proof. solve_decision. Defined.
#[global] Instance circuit_disposition_eq_dec : EqDecision circuit_disposition.
Proof. solve_decision. Defined.
#[global] Instance circuit_reason_eq_dec : EqDecision circuit_reason.
Proof. solve_decision. Defined.
Definition breaker_value (b : circuit_breaker) : string :=
  match b with
  | SESSION_LOSS_LIMIT => "SESSION_LOSS_LIMIT" | DRAWDOWN_LIMIT => "DRAWDOWN_LIMIT"
  | CONSECUTIVE_LOSS_LIMIT => "CONSECUTIVE_LOSS_LIMIT"
  end.
Definition circuit_disposition_value (d : circuit_disposition) : string :=
  match d with
  | CLEAR => "CLEAR" | BLOCK_ENTRY => "BLOCK_ENTRY" | ALLOW_RISK_REDUCING_EXIT => "ALLOW_RISK_REDUCING_EXIT"
  | CIRCUIT_NO_ACTION => "NO_ACTION"
  end.
Definition circuit_reason_value (r : circuit_reason) : string :=
  match r with
  | CR_WITHIN_LIMITS => "WITHIN_LIMITS" | CR_SESSION_LOSS_LIMIT => "SESSION_LOSS_LIMIT" | CR_DRAWDOWN_LIMIT => "DRAWDOWN_LIMIT"
  | CR_CONSECUTIVE_LOSS_LIMIT => "CONSECUTIVE_LOSS_LIMIT" | CR_MULTIPLE_LIMITS => "MULTIPLE_LIMITS"
  | CR_EXIT_REDUCES_RISK => "EXIT_REDUCES_RISK" | CR_NO_STRATEGY_ACTION => "NO_STRATEGY_ACTION"
  end.
Definition _SINGLE_REASON (b : circuit_breaker) : circuit_reason :=
  match b with
  | SESSION_LOSS_LIMIT => CR_SESSION_LOSS_LIMIT | DRAWDOWN_LIMIT => CR_DRAWDOWN_LIMIT
  | CONSECUTIVE_LOSS_LIMIT => CR_CONSECUTIVE_LOSS_LIMIT
  end.

Record circuit_values : Type := CircuitValues {
  cv_disposition : circuit_disposition;
  cv_reason : circuit_reason;
  cv_triggered : list circuit_breaker;
  cv_session_loss : dec;
  cv_session_limit : dec;
  cv_drawdown : dec;
  cv_drawdown_limit : dec;
  cv_consecutive_losses : Z;
  cv_consecutive_limit : Z;
}.

Definition _circuit_values (r : risk_request) (m : managed_state) : result circuit_values :=
  let* projected := to_risk_state m (kill_switch_active (rq_portfolio r)) in
  raise_if negb (bool_decide (rq_portfolio r = projected))
    with CircuitBreakerError "Risk request does not match managed portfolio state" ;;
  let* session_pnl := Decimal (mps_session_realized_pnl_quote m) in
  let session_loss := dmax (dminus FP session_pnl) dec0 in
  let* session_start := Decimal (session_start_equity_quote m) in
  let* session_fraction := Decimal (max_session_loss_fraction (rq_policy r)) in
  let session_limit := dmul FP session_start session_fraction in
  let* peak := Decimal (mps_peak_equity_quote m) in
  let* equity := Decimal (mps_equity_quote m) in
  let drawdown := dsub FP peak equity in
  let* drawdown_fraction := Decimal (max_drawdown_fraction (rq_policy r)) in
  let drawdown_limit := dmul FP peak drawdown_fraction in
  let triggered :=
    (if dleb session_limit session_loss then [SESSION_LOSS_LIMIT] else [])
    ++ (if dleb drawdown_limit drawdown then [DRAWDOWN_LIMIT] else [])
    ++ (if max_consecutive_losses (rq_policy r) <=? mps_consecutive_losses m then [CONSECUTIVE_LOSS_LIMIT] else []) in
  let outcome :=
    match sd_action (rq_decision r) with
    | SNoTrade => (CIRCUIT_NO_ACTION, CR_NO_STRATEGY_ACTION)
    | SExitLong => (ALLOW_RISK_REDUCING_EXIT, CR_EXIT_REDUCES_RISK)
    | SEnterLong =>
        match triggered with
        | [] => (CLEAR, CR_WITHIN_LIMITS)
        | [b] => (BLOCK_ENTRY, _SINGLE_REASON b)
        | _ => (BLOCK_ENTRY, CR_MULTIPLE_LIMITS)
        end
    end in
  Ok (CircuitValues (fst outcome) (snd outcome) triggered session_loss session_limit drawdown drawdown_limit
        (mps_consecutive_losses m) (max_consecutive_losses (rq_policy r))).

Record circuit_assessment : Type := CircuitAssessment {
  ca_request : risk_request;
  ca_managed : managed_state;
  ca_disposition : circuit_disposition;
  ca_reason : circuit_reason;
  ca_triggered : list circuit_breaker;
  ca_session_loss_quote : string;
  ca_session_loss_limit_quote : string;
  ca_drawdown_quote : string;
  ca_drawdown_limit_quote : string;
  ca_consecutive_losses : Z;
  ca_consecutive_loss_limit : Z;
}.
#[global] Instance circuit_assessment_eq_dec : EqDecision circuit_assessment.
Proof. solve_decision. Defined.

Definition circuit_post_init (a : circuit_assessment) : result unit :=
  let* expected := _circuit_values (ca_request a) (ca_managed a) in
  raise_if negb (bool_decide (ca_disposition a = cv_disposition expected)) || negb (bool_decide (ca_reason a = cv_reason expected))
           || negb (bool_decide (ca_triggered a = cv_triggered expected))
    with CircuitBreakerError "Circuit disposition or reason is inconsistent" ;;
  raise_if negb (canonical (ca_session_loss_quote a) (cv_session_loss expected)
                 && canonical (ca_session_loss_limit_quote a) (cv_session_limit expected)
                 && canonical (ca_drawdown_quote a) (cv_drawdown expected)
                 && canonical (ca_drawdown_limit_quote a) (cv_drawdown_limit expected))
    with CircuitBreakerError "Circuit assessment is noncanonical or inconsistent" ;;
  raise_if negb (ca_consecutive_losses a =? cv_consecutive_losses expected)
           || negb (ca_consecutive_loss_limit a =? cv_consecutive_limit expected)
    with CircuitBreakerError "Circuit counters are inconsistent" ;;
  Ok tt.
Definition new_circuit (a : circuit_assessment) : result circuit_assessment := do* circuit_post_init a ;; Ok a.

Definition circuit_payload (a : circuit_assessment) : json := JObj [
  ("schema_version", JInt 1); ("request_sha256", JStr (request_sha256 (ca_request a)));
  ("state_sha256", JStr (state_sha256 (ca_managed a)));
  ("disposition", JStr (circuit_disposition_value (ca_disposition a))); ("reason", JStr (circuit_reason_value (ca_reason a)));
  ("triggered_breakers", JArr (map JStr (map breaker_value (ca_triggered a))));
  ("session_loss_quote", JStr (ca_session_loss_quote a)); ("session_loss_limit_quote", JStr (ca_session_loss_limit_quote a));
  ("drawdown_quote", JStr (ca_drawdown_quote a)); ("drawdown_limit_quote", JStr (ca_drawdown_limit_quote a));
  ("consecutive_losses", JInt (ca_consecutive_losses a)); ("consecutive_loss_limit", JInt (ca_consecutive_loss_limit a))]%string.
Definition circuit_sha256 (a : circuit_assessment) : string := digest (circuit_payload a).

Definition circuit_texts (r : risk_request) (m : managed_state) (v : circuit_values) : circuit_assessment :=
  CircuitAssessment r m (cv_disposition v) (cv_reason v) (cv_triggered v) (format_f (cv_session_loss v))
    (format_f (cv_session_limit v)) (format_f (cv_drawdown v)) (format_f (cv_drawdown_limit v)) (cv_consecutive_losses v)
    (cv_consecutive_limit v).

Definition assess_circuit_breakers (r : risk_request) (m : managed_state) : result circuit_assessment :=
  let* values := _circuit_values r m in new_circuit (circuit_texts r m values).

(** * Properties *)

Definition circuit_is_valid (a : circuit_assessment) : Prop := circuit_post_init a = Ok tt.

(** ** Projection *)

Definition projection (m : managed_state) (kill_switch : bool) : portfolio_risk_state :=
  PortfolioRiskState (mps_symbol m) (mps_decision_time_ms m) (mps_equity_quote m) (mps_cash_quote m)
    (mps_position_quantity m) (mps_mark_price m) (mps_peak_equity_quote m) (mps_session_realized_pnl_quote m)
    (mps_consecutive_losses m) (mps_open_positions m) kill_switch.

Lemma to_risk_state_total m k : managed_valid m -> to_risk_state m k = Ok (projection m k).
Proof.
  intros H. unfold to_risk_state, new_risk_state. fold (projection m k).
  assert (risk_state_post_init (projection m k) = Ok tt) as ->; [|done].
  unfold managed_valid, managed_post_init in H. res_inv. state_facts. unfold aligned_time in *. bool_prop.
  unfold risk_state_post_init, risk_decimal. cbn [projection prs_symbol prs_decision_time_ms prs_equity_quote prs_cash_quote prs_position_quantity
    prs_mark_price prs_peak_equity_quote prs_session_realized_pnl_quote prs_consecutive_losses prs_open_positions].
  repeat match goal with
  | Hd : denotes ?s ?d, Hp : (0 < dval ?d)%Q |- context [plain_number RiskContractError ?s ?f true false] =>
      rewrite (proj2 (plain_number_unsigned RiskContractError s f true d)) by (split; [exact Hd|intros _; exact Hp]); cbn [rbind]
  | Hd : denotes ?s ?d |- context [plain_number RiskContractError ?s ?f false false] =>
      rewrite (proj2 (plain_number_unsigned RiskContractError s f false d)) by (split; [exact Hd|done]); cbn [rbind]
  | Hd : denotes_signed ?s ?d |- context [plain_number RiskContractError ?s ?f false true] =>
      rewrite (proj2 (plain_number_signed RiskContractError s f d)) by exact Hd; cbn [rbind]
  end.
  rewrite Hc, Hc6. cbn [negb]. destruct Hc1 as [T1 T2], Hc5 as [L1 L2], Hc4 as [_ P1].
  rewrite (proj2 (Z.ltb_ge _ _) T1), (proj2 (Z.eqb_eq _ _) T2), (proj2 (dltb_false a4 a0) P1). cbn [orb negb].
  replace ((0 <=? mps_consecutive_losses m) && (mps_consecutive_losses m <=? 1000000)) with true by lia.
  replace ((0 <=? mps_open_positions m) && (mps_open_positions m <=? 1000000)) with true by lia. done.
Qed.

(** ** The specification over the rationals *)

Definition breaker_active (m : managed_state) (b : circuit_breaker) : Prop :=
  match b with
  | SESSION_LOSS_LIMIT => (qtext (session_start_equity_quote m) * (2 # 100) <= - qtext (mps_session_realized_pnl_quote m))%Q
  | DRAWDOWN_LIMIT => (qtext (mps_peak_equity_quote m) * (1 # 10) <= qtext (mps_peak_equity_quote m) - qtext (mps_equity_quote m))%Q
  | CONSECUTIVE_LOSS_LIMIT => 3 <= mps_consecutive_losses m
  end.

(** The decimals of a text. *)
Definition decimals (s : string) : Z := match Decimal s with Ok d => - dexp d | Err _ => 0 end.

(** The limits have two more decimals than the amounts they are fractions of. *)
Definition circuit_fits (m : managed_state) : bool :=
  (decimals (session_start_equity_quote m) <=? 38) && (decimals (mps_peak_equity_quote m) <=? 38).

Definition circuit_outcome (action : strategy_action) (triggered : list circuit_breaker) : circuit_disposition :=
  match action with
  | SNoTrade => CIRCUIT_NO_ACTION
  | SExitLong => ALLOW_RISK_REDUCING_EXIT
  | SEnterLong => if bool_decide (triggered = []) then CLEAR else BLOCK_ENTRY
  end.

Record circuit_spec (r : risk_request) (m : managed_state) (v : circuit_values) : Prop := {
  cs_triggered : forall b, b ∈ cv_triggered v <-> breaker_active m b;
  cs_disposition : cv_disposition v = circuit_outcome (sd_action (rq_decision r)) (cv_triggered v);
  cs_counts : cv_consecutive_losses v = mps_consecutive_losses m /\ cv_consecutive_limit v = 3;
}.

Lemma in_optional {A} (c : bool) (x y : A) : x ∈ (if c then [y] else []) <-> c = true /\ x = y.
Proof. destruct c; [rewrite list_elem_of_singleton; tauto|]. split; [by intros ?%elem_of_nil|by intros [? _]]. Qed.

Lemma triggered_spec (c1 c2 c3 : bool) b :
  b ∈ (if c1 then [SESSION_LOSS_LIMIT] else []) ++ (if c2 then [DRAWDOWN_LIMIT] else []) ++ (if c3 then [CONSECUTIVE_LOSS_LIMIT] else [])
  <-> match b with SESSION_LOSS_LIMIT => c1 | DRAWDOWN_LIMIT => c2 | CONSECUTIVE_LOSS_LIMIT => c3 end = true.
Proof. rewrite !elem_of_app, !in_optional. destruct b; naive_solver. Qed.

Section Circuit.
Context {r : risk_request} {m : managed_state}.
Hypothesis Hpol : rq_policy r = frozen_policy.
Hypothesis Hm : managed_valid m.
Hypothesis Heq : rq_portfolio r = projection m (kill_switch_active (rq_portfolio r)).

Lemma session_fraction_value : Decimal (max_session_loss_fraction frozen_policy) = Ok (Dec false 2 (-2)).
Proof using. reflexivity. Qed.
Lemma drawdown_fraction_value : Decimal (max_drawdown_fraction frozen_policy) = Ok (Dec false 10 (-2)).
Proof using. reflexivity. Qed.

(** A limit's text passes the pattern unless it has more than 40 decimals. *)
Lemma limit_plain_iff s d x e v : denotes s d -> exactly 40 e x v -> (0 < v)%Q -> dexp x = dexp d - 2 ->
  plain x = (decimals s <=? 38).
Proof using.
  intros Hd [Hx Hv] H0 He. assert (dneg x = false) as Hn by (apply dneg_false_pos; by rewrite Hv). unfold decimals. rewrite (proj1 Hd). destruct (denotes_exactly _ _ Hd) as (_ & Xd & _).
  apply Bool.eq_true_iff_eq. rewrite Z.leb_le. unfold plain. rewrite unsigned_text_iff by lia. split; [lia|].
  intros H. split; [done|]. split; [lia|]. apply fits_of_val; [lia|lia|]. exact (fits_abs_val _ _ _ Hx).
Qed.

Lemma dmax_negated pnl : fits 40 40 pnl -> -40 <= dexp pnl <= 0 ->
  let x := dmax (dminus FP pnl) dec0 in
  plain x = true /\ (forall l, 0 < l -> (l <= dval x <-> l <= - dval pnl))%Q.
Proof using.
  intros Hf He x. destruct (exactly_neg 40 40 pnl (dval pnl) ltac:(done) (exactly_self _ _ _ Hf)) as [[Hf' Hv] He'].
  unfold x, dmax. destruct (dltb (dminus FP pnl) dec0) eqn:Ed.
  - split; [reflexivity|]. apply dltb_spec in Ed. rewrite Hv, dval_0 in Ed. intros l Hl. rewrite dval_0. split; intros; lra.
  - apply dltb_false in Ed. rewrite dval_0 in Ed. split; [|intros l Hl; by rewrite Hv].
    apply unsigned_text_iff; [lia|]. split; [|split; [lia|done]]. apply (dneg_false_minus 40 40); [done|done|exact Ed].
Qed.

Lemma circuit_values_exact : exists v, _circuit_values r m = Ok v /\ circuit_spec r m v
  /\ plain (cv_session_loss v) && plain (cv_session_limit v) && plain (cv_drawdown v) && plain (cv_drawdown_limit v) = circuit_fits m.
Proof using All.
  destruct (managed_valid_facts m Hm) as [_ _ (b & e & _ & _ & _ & pk & pnl & _ & Hb & He & _ & _ & _ & Hpk & Hpnl & _ & Pb & Pe & _ & Ppk)].
  destruct (denotes_exactly _ _ Hb) as (Xb & _), (denotes_exactly _ _ He) as (Xe & Ee & _), (denotes_exactly _ _ Hpk) as (Xp & Ep & Np & P0).
  destruct Hpnl as (_ & Dpnl & (_ & Epnl & Fpnl) & _).
  destruct (dmax_negated pnl Fpnl Epnl) as [Pl Vl].
  destruct (exactly_mul Xb (exactly_const 0 2 (Dec false 2 (-2)) (2 # 100) ltac:(done) ltac:(done) ltac:(reflexivity)) ltac:(done)) as [XS ES].
  destruct (exactly_mul Xp (exactly_const 0 2 (Dec false 10 (-2)) (1 # 10) ltac:(done) ltac:(done) ltac:(reflexivity)) ltac:(done)) as [XL EL].
  destruct (exactly_sub Xp Xe ltac:(done)) as [XD ED].
  assert (dneg (dsub FP pk e) = false) as ND.
  { apply (dneg_false_sub 40 40 40 40); [apply Xp|apply Xe|done|done|rewrite (proj2 XD); lra]. }
  unfold _circuit_values. rewrite (to_risk_state_total m _ Hm). cbn [rbind]. rewrite bool_decide_true by exact Heq. cbn [negb].
  rewrite Dpnl, (proj1 Hb), (proj1 Hpk), (proj1 He), Hpol, session_fraction_value, drawdown_fraction_value. cbn [rbind].
  eexists. split; [reflexivity|]. split; [constructor|]; cbn [cv_triggered cv_disposition cv_consecutive_losses cv_consecutive_limit
    cv_session_loss cv_session_limit cv_drawdown cv_drawdown_limit].
  - intros x. rewrite triggered_spec. unfold breaker_active. rewrite (qtext_denotes _ _ Hb), (qtext_denotes _ _ Hpk), (qtext_denotes _ _ He).
    destruct x.
    + rewrite dleb_spec, (proj2 XS), Vl by lra. unfold qtext. by rewrite Dpnl.
    + by rewrite dleb_spec, (proj2 XD), (proj2 XL).
    + by rewrite Z.leb_le.
  - unfold circuit_outcome. destruct (sd_action (rq_decision r)); [done| |done].
    destruct (_ ++ _) as [|x [|y l]]; [by rewrite bool_decide_true|by rewrite bool_decide_false|by rewrite bool_decide_false].
  - done.
  - rewrite Pl, (limit_plain_iff _ b _ _ _ Hb XS ltac:(lra) ES), (limit_plain_iff _ pk _ _ _ Hpk XL ltac:(lra) EL).
    assert (plain (dsub FP pk e) = true) as ->; [|by rewrite andb_true_r]. apply unsigned_text_iff; [rewrite ED; lia|]. split; [done|]. split; [rewrite ED; lia|].
    apply fits_of_val; [rewrite ED; lia|lia|]. rewrite (proj2 XD).
    destruct (denotes_exactly _ _ He) as (_ & _ & _ & E0). apply (rep_lt_le 40 40 _ (dval pk)); [lra|lra|exact (exactly_rep _ _ _ _ Xp)].
Qed.
End Circuit.

(** ** The assessment *)

Lemma assess_circuit_texts r m v : _circuit_values r m = Ok v ->
  plain (cv_session_loss v) && plain (cv_session_limit v) && plain (cv_drawdown v) && plain (cv_drawdown_limit v) = circuit_fits m ->
  assess_circuit_breakers r m = if circuit_fits m then Ok (circuit_texts r m v)
                                else Err (Raise CircuitBreakerError "Circuit assessment is noncanonical or inconsistent").
Proof.
  intros E Hp. unfold assess_circuit_breakers, new_circuit, circuit_post_init. rewrite E. cbn [rbind].
  cbn [circuit_texts ca_request ca_managed ca_disposition ca_reason ca_triggered ca_session_loss_quote ca_session_loss_limit_quote
    ca_drawdown_quote ca_drawdown_limit_quote ca_consecutive_losses ca_consecutive_loss_limit].
  rewrite E. cbn [rbind]. rewrite !bool_decide_true by done. cbn [negb orb]. rewrite !canonical_text, Hp, !Z.eqb_refl.
  by destruct (circuit_fits m).
Qed.

(** A constructed assessment carries what the computation gives. *)
Lemma circuit_valid_inv a : circuit_is_valid a -> exists v, _circuit_values (ca_request a) (ca_managed a) = Ok v
  /\ a = circuit_texts (ca_request a) (ca_managed a) v.
Proof.
  unfold circuit_is_valid, circuit_post_init. destruct (_circuit_values _ _) as [v|] eqn:Ev; [|done]. cbn [rbind]. intros H.
  exists v. split; [done|]. destruct (_ || _ || _) eqn:E1 in H; [done|]. destruct (negb _) eqn:E2 in H; [done|].
  destruct (_ || _) eqn:E3 in H; [done|]. clear H Ev. apply orb_false_iff in E1 as [E1 A3], E3 as [A4 A5]. apply orb_false_iff in E1 as [A1 A2]. 
  apply negb_false_iff, bool_decide_eq_true in A1, A2, A3. apply negb_false_iff, Z.eqb_eq in A4, A5. apply negb_false_iff in E2.
  rewrite !andb_true_iff, !canonical_spec in E2. destruct a as [r m d rs tr sl sll dd ddl cl cll].
  cbn [ca_request ca_managed ca_disposition ca_reason ca_triggered ca_session_loss_quote ca_session_loss_limit_quote
    ca_drawdown_quote ca_drawdown_limit_quote ca_consecutive_losses ca_consecutive_loss_limit] in *.
  decompose [and] E2. by subst.
Qed.

(** ** The digest *)

Lemma circuit_disposition_inj a b : circuit_disposition_value a = circuit_disposition_value b -> a = b.
Proof. by destruct a, b. Qed.
Lemma circuit_reason_inj a b : circuit_reason_value a = circuit_reason_value b -> a = b.
Proof. by destruct a, b. Qed.
Lemma breaker_values_inj l l' : map breaker_value l = map breaker_value l' -> l = l'.
Proof.
  assert (Inj (=) (=) breaker_value) as Hinj by (by intros [] []). apply (inj (fmap breaker_value)).
Qed.

(** The texts hashed for an assessment's digest. *)
Definition hashed_circuit (a : circuit_assessment) : list text := json_dumps (circuit_payload a) :: hashed_request (ca_request a) ++ hashed_managed (ca_managed a).

Lemma circuit_binds T a a' : among (hashed_circuit a) T -> among (hashed_circuit a') T -> circuit_sha256 a = circuit_sha256 a' -> a = a' \/ collision T.
Proof.
  intros HT HT' H. apply among_cons in HT as [Ht HT], HT' as [Ht' HT']. apply among_app in HT as [Hq Hm], HT' as [Hq' Hm'].
  destruct (digest_binds T _ _ Ht Ht' H) as [E|E]; [|by right]. clear H. unfold circuit_payload in E. json_fields E.
  repeat match goal with
  | H : request_sha256 _ = request_sha256 _ |- _ => apply (request_sha256_binds T) in H; [|done..]; destruct H as [H|H]; [|by right]
  | H : state_sha256 _ = state_sha256 _ |- _ => apply (state_binds T) in H; [|done..]; destruct H as [H|H]; [|by right]
  | H : circuit_disposition_value _ = circuit_disposition_value _ |- _ => apply circuit_disposition_inj in H
  | H : circuit_reason_value _ = circuit_reason_value _ |- _ => apply circuit_reason_inj in H
  | H : map breaker_value _ = map breaker_value _ |- _ => apply breaker_values_inj in H
  end.
  left. destruct a, a'. cbn [ca_request ca_managed ca_disposition ca_reason ca_triggered ca_session_loss_quote
    ca_session_loss_limit_quote ca_drawdown_quote ca_drawdown_limit_quote ca_consecutive_losses ca_consecutive_loss_limit] in *.
  subst. reflexivity.
Qed.

(** * Claims *)

(** C18. The breakers are exact, and never stop an exit.  For a valid request and
    managed state, a request whose portfolio is not the state's projection is a
    CircuitBreakerError.  Otherwise the breakers found are exactly those whose
    condition holds over the rationals (session loss at or over 2% of the
    session's starting equity, drawdown at or over a tenth of the peak, three or
    more consecutive losses); an entry is CLEAR exactly when there is none and
    BLOCK_ENTRY otherwise, an exit is always allowed.  The assessment is built
    exactly when the starting and the peak equity have at most 38 decimals. *)
Theorem circuit_exact r m (Hr : request_valid r) (Hm : managed_valid m) :
  (rq_portfolio r <> projection m (kill_switch_active (rq_portfolio r)) ->
     assess_circuit_breakers r m = Err (Raise CircuitBreakerError "Risk request does not match managed portfolio state"))
  /\ (rq_portfolio r = projection m (kill_switch_active (rq_portfolio r)) ->
      exists v, circuit_spec r m v
        /\ assess_circuit_breakers r m =
             if circuit_fits m then Ok (circuit_texts r m v)
             else Err (Raise CircuitBreakerError "Circuit assessment is noncanonical or inconsistent")).
Proof.
  split; intros Heq.
  - unfold assess_circuit_breakers, _circuit_values. rewrite (to_risk_state_total m _ Hm). cbn [rbind]. by rewrite bool_decide_false.
  - destruct (circuit_values_exact (policy_frozen _ (rv_policy _ Hr)) Hm Heq) as (v & E & Hv & Hp). exists v. split; [done|].
    by apply assess_circuit_texts.
Qed.

Definition losing_state : managed_state :=
  ManagedPortfolioState "BTCUSDT" 4 sample_time 0 "1000" "960" "960" "0" "100" "1050" "-20" 3 0 "0"
    (Some (digest (JStr "p"))) (digest (JStr "o")).
Definition losing_request : risk_request :=
  RiskRequest (rq_decision (sample_request pullback_context (LongSetup "1020" "957.32" "1145.36") "960"))
    QUALIFIED_FOR_P4_RESEARCH (projection losing_state true) frozen_policy.

Lemma circuit_exact_witness : exists a, assess_circuit_breakers losing_request losing_state = Ok a
  /\ ca_triggered a = [SESSION_LOSS_LIMIT; CONSECUTIVE_LOSS_LIMIT].
Proof.
  assert (request_valid losing_request) as Hr.
  { split; [split; [|split]; vm_compute; reflexivity|reflexivity|vm_compute; reflexivity..]. }
  destruct (proj2 (circuit_exact losing_request losing_state Hr ltac:(vm_compute; reflexivity)) eq_refl) as (v & _ & E).
  destruct (assess_circuit_breakers losing_request losing_state) as [a|] eqn:Ea; [|exfalso; revert Ea; vm_compute; discriminate].
  exists a. split; [reflexivity|]. revert Ea. vm_compute. intros [= <-]. reflexivity.
Defined.
