(* ===== verification/KillSwitch.v ===== *)
(** * The paper kill switch (yatl/risk/kill_switch.py)

    A fail-closed, latched, hash-chained state machine over circuit evidence. *)
From S2P Require Import Prelude PyDecimal PyText Digest HashChain Market BacktestConfig MarketView Costs StrategyContracts RiskContracts RiskState Regime Trend Sizing Circuit.

Inductive kill_mode : Type := INACTIVE | TRIGGERED.
Inductive kill_reason : Type :=
| FAIL_CLOSED_STARTUP | CIRCUIT_BREAKER_TRIGGERED | LATCHED_UNTIL_MANUAL_RESET | CIRCUIT_CLEAR | KR_MANUAL_RESET.
Inductive kill_event_type : Type := STARTUP | CIRCUIT_OBSERVATION | MANUAL_RESET.
#[global] Instance kill_mode_eq_dec : EqDecision kill_mode.
Proof. solve_decision. Defined.
#[global] Instance kill_reason_eq_dec : EqDecision kill_reason.
Proof. solve_decision. Defined.
#[global] Instance kill_event_type_eq_dec : EqDecision kill_event_type.
Proof. solve_decision. Defined.
Definition kill_mode_value (m : kill_mode) : string := match m with INACTIVE => "INACTIVE" | TRIGGERED => "TRIGGERED" end.
Definition kill_reason_value (r : kill_reason) : string :=
  match r with
  | FAIL_CLOSED_STARTUP => "FAIL_CLOSED_STARTUP" | CIRCUIT_BREAKER_TRIGGERED => "CIRCUIT_BREAKER_TRIGGERED"
  | LATCHED_UNTIL_MANUAL_RESET => "LATCHED_UNTIL_MANUAL_RESET" | CIRCUIT_CLEAR => "CIRCUIT_CLEAR"
  | KR_MANUAL_RESET => "MANUAL_RESET"
  end.
Definition event_type_value (t : kill_event_type) : string :=
  match t with STARTUP => "STARTUP" | CIRCUIT_OBSERVATION => "CIRCUIT_OBSERVATION" | MANUAL_RESET => "MANUAL_RESET" end.

Definition _BREAKER_ORDER : list circuit_breaker := [SESSION_LOSS_LIMIT; DRAWDOWN_LIMIT; CONSECUTIVE_LOSS_LIMIT].

Record kill_event : Type := KillSwitchEvent {
  ke_sequence : Z;
  ke_event_time_ms : Z;
  ke_event_type : kill_event_type;
  ke_circuit : option circuit_assessment;
  manual_confirmation : bool;
}.
#[global] Instance kill_event_eq_dec : EqDecision kill_event.
Proof. solve_decision. Defined.

Definition kill_event_post_init (e : kill_event) : result unit :=
  raise_if negb ((0 <=? ke_sequence e) && (ke_sequence e <=? 1000000000)) with KillSwitchError "Kill Switch event sequence is invalid" ;;
  raise_if ke_event_time_ms e <? 0 with KillSwitchError "Kill Switch event time is invalid" ;;
  let valid :=
    match ke_event_type e with
    | STARTUP => (ke_sequence e =? 0) && opt_is_none (ke_circuit e) && negb (manual_confirmation e)
    | CIRCUIT_OBSERVATION => negb (opt_is_none (ke_circuit e)) && negb (manual_confirmation e)
    | MANUAL_RESET => negb (opt_is_none (ke_circuit e)) && manual_confirmation e
    end in
  raise_if negb valid with KillSwitchError "Kill Switch event fields are inconsistent" ;;
  raise_if match ke_circuit e with Some a => ke_event_time_ms e <? mps_decision_time_ms (ca_managed a) | None => false end
    with KillSwitchError "Kill Switch event cannot use future circuit state" ;;
  Ok tt.

Definition kill_event_payload (e : kill_event) : json := JObj [
  ("schema_version", JInt 1); ("sequence", JInt (ke_sequence e)); ("event_time_ms", JInt (ke_event_time_ms e));
  ("event_type", JStr (event_type_value (ke_event_type e)));
  ("circuit_sha256", JOptStr (option_map circuit_sha256 (ke_circuit e)));
  ("manual_confirmation", JBool (manual_confirmation e))]%string.
Definition kill_event_sha256 (e : kill_event) : string := digest (kill_event_payload e).

Record kill_state : Type := KillSwitchState {
  ks_mode : kill_mode;
  ks_reason : kill_reason;
  ks_sequence : Z;
  ks_event_time_ms : Z;
  ks_triggered_breakers : list circuit_breaker;
  last_circuit_time_ms : option Z;
  last_circuit_sha256 : option string;
  ks_previous_sha256 : option string;
  ks_event_sha256 : string;
}.
#[global] Instance kill_state_eq_dec : EqDecision kill_state.
Proof. solve_decision. Defined.

Definition in_breakers (b : circuit_breaker) (l : list circuit_breaker) : bool := bool_decide (b ∈ l).
Definition ordered_breakers (l : list circuit_breaker) : list circuit_breaker := List.filter (fun b => in_breakers b l) _BREAKER_ORDER.

Definition kill_state_post_init (s : kill_state) : result unit :=
  raise_if negb ((0 <=? ks_sequence s) && (ks_sequence s <=? 1000000000)) with KillSwitchError "Kill Switch state sequence is invalid" ;;
  raise_if ks_event_time_ms s <? 0 with KillSwitchError "Kill Switch state time is invalid" ;;
  raise_if negb (bool_decide (ks_triggered_breakers s = ordered_breakers (ks_triggered_breakers s)))
    with KillSwitchError "Triggered breaker reasons are invalid or unordered" ;;
  let none_triggered := bool_decide (ks_triggered_breakers s = []) in
  let valid :=
    match ks_mode s, ks_reason s with
    | INACTIVE, (CIRCUIT_CLEAR | KR_MANUAL_RESET) => none_triggered
    | INACTIVE, _ => false
    | TRIGGERED, FAIL_CLOSED_STARTUP => (ks_sequence s =? 0) && none_triggered
    | TRIGGERED, CIRCUIT_BREAKER_TRIGGERED => negb none_triggered
    | TRIGGERED, LATCHED_UNTIL_MANUAL_RESET => true
    | TRIGGERED, _ => false
    end in
  raise_if negb valid with KillSwitchError "Kill Switch mode and reason are inconsistent" ;;
  raise_if xorb (opt_is_none (last_circuit_time_ms s)) (opt_is_none (last_circuit_sha256 s))
    with KillSwitchError "Last circuit time and digest must appear together" ;;
  raise_if match last_circuit_time_ms s with
           | Some t => (t <? 0) || (ks_event_time_ms s <? t) || negb (valid_digest (last_circuit_sha256 s))
           | None => false
           end
    with KillSwitchError "Last circuit evidence is invalid" ;;
  do* (if ks_sequence s =? 0 then
         raise_if negb (bool_decide (ks_mode s = TRIGGERED)) || negb (bool_decide (ks_reason s = FAIL_CLOSED_STARTUP))
                  || negb (opt_is_none (ks_previous_sha256 s)) || negb (opt_is_none (last_circuit_time_ms s)) || negb none_triggered
           with KillSwitchError "Initial Kill Switch state must fail closed" ;;
         Ok tt
       else
         raise_if negb (valid_digest (ks_previous_sha256 s)) with KillSwitchError "Kill Switch state is missing predecessor digest" ;;
         raise_if opt_is_none (last_circuit_time_ms s) with KillSwitchError "Advanced Kill Switch state requires circuit evidence" ;;
         Ok tt) ;;
  raise_if negb (sha256_pattern (ks_event_sha256 s)) with KillSwitchError "Kill Switch state event digest is invalid" ;;
  Ok tt.
Definition new_kill_state (s : kill_state) : result kill_state := do* kill_state_post_init s ;; Ok s.

Definition active (s : kill_state) : bool := bool_decide (ks_mode s = TRIGGERED).

Definition kill_state_payload (s : kill_state) : json := JObj [
  ("schema_version", JInt 1); ("mode", JStr (kill_mode_value (ks_mode s))); ("reason", JStr (kill_reason_value (ks_reason s)));
  ("sequence", JInt (ks_sequence s)); ("event_time_ms", JInt (ks_event_time_ms s));
  ("triggered_breakers", JArr (map JStr (map breaker_value (ks_triggered_breakers s))));
  ("last_circuit_time_ms", JOptInt (last_circuit_time_ms s)); ("last_circuit_sha256", JOptStr (last_circuit_sha256 s));
  ("previous_state_sha256", JOptStr (ks_previous_sha256 s)); ("event_sha256", JStr (ks_event_sha256 s))]%string.
Definition kill_state_sha256 (s : kill_state) : string := digest (kill_state_payload s).

Definition _merge_breakers (existing observed : list circuit_breaker) : list circuit_breaker :=
  List.filter (fun b => in_breakers b existing || in_breakers b observed) _BREAKER_ORDER.

(** [event.circuit_assessment.managed_state]: reading an attribute of [None]. *)
Definition event_circuit (e : kill_event) : result circuit_assessment :=
  match ke_circuit e with Some a => Ok a | None => Err (Raise AttributeError "managed_state") end.

Definition _next_kill_state (previous : option kill_state) (e : kill_event) : result kill_state :=
  match previous with
  | None =>
      raise_if negb (bool_decide (ke_event_type e = STARTUP)) with KillSwitchError "Kill Switch must begin with fail-closed startup" ;;
      new_kill_state (KillSwitchState TRIGGERED FAIL_CLOSED_STARTUP (ke_sequence e) (ke_event_time_ms e) [] None None None (kill_event_sha256 e))
  | Some p =>
      raise_if bool_decide (ke_event_type e = STARTUP) with KillSwitchError "Startup event cannot be repeated" ;;
      raise_if negb (ke_sequence e =? ks_sequence p + 1) with KillSwitchError "Kill Switch event sequence is duplicate or missing" ;;
      raise_if ke_event_time_ms e <=? ks_event_time_ms p with KillSwitchError "Kill Switch event time is stale or out of order" ;;
      let* assessment := event_circuit e in
      let circuit_time := mps_decision_time_ms (ca_managed assessment) in
      raise_if match last_circuit_time_ms p with Some t => circuit_time <=? t | None => false end
        with KillSwitchError "Circuit evidence is stale or already consumed" ;;
      let no_breakers := bool_decide (ca_triggered assessment = []) in
      let* outcome :=
        if bool_decide (ke_event_type e = MANUAL_RESET) then
          raise_if negb (active p) with KillSwitchError "Only a triggered Kill Switch can be reset" ;;
          raise_if negb no_breakers with KillSwitchError "Manual reset requires current clear circuit evidence" ;;
          Ok (INACTIVE, KR_MANUAL_RESET, [])
        else if negb no_breakers then
          Ok (TRIGGERED, CIRCUIT_BREAKER_TRIGGERED, _merge_breakers (ks_triggered_breakers p) (ca_triggered assessment))
        else if active p then Ok (TRIGGERED, LATCHED_UNTIL_MANUAL_RESET, ks_triggered_breakers p)
        else Ok (INACTIVE, CIRCUIT_CLEAR, []) in
      new_kill_state (KillSwitchState (fst (fst outcome)) (snd (fst outcome)) (ke_sequence e) (ke_event_time_ms e) (snd outcome)
        (Some circuit_time) (Some (circuit_sha256 assessment)) (Some (kill_state_sha256 p)) (kill_event_sha256 e))
  end.

Record kill_transition : Type := KillSwitchTransition {
  kt_previous : option kill_state;
  kt_event : kill_event;
  kt_current : kill_state;
}.
Definition kill_transition_post_init (t : kill_transition) : result unit :=
  let* expected := _next_kill_state (kt_previous t) (kt_event t) in
  raise_if negb (bool_decide (kt_current t = expected)) with KillSwitchError "Current Kill Switch state does not match transition" ;;
  Ok tt.

Definition apply_kill_switch_event (previous : option kill_state) (e : kill_event) : result kill_transition :=
  let* current := _next_kill_state previous e in
  let t := KillSwitchTransition previous e current in
  do* kill_transition_post_init t ;; Ok t.

(** * Properties *)

(** An event, and the evidence it carries, built through the constructors. *)
Definition kill_event_valid (e : kill_event) : Prop :=
  kill_event_post_init e = Ok tt
  /\ forall a, ke_circuit e = Some a -> managed_valid (ca_managed a) /\ circuit_is_valid a.
Definition kill_state_valid (s : kill_state) : Prop := kill_state_post_init s = Ok tt.

(** ** Events and states *)

Lemma managed_time m : managed_valid m -> 0 <= mps_decision_time_ms m.
Proof. unfold managed_valid, managed_post_init, aligned_time. intros H. res_inv. bool_prop. lia. Qed.

Record event_facts (e : kill_event) : Prop := {
  evf_sequence : 0 <= ke_sequence e <= 1000000000;
  evf_time : 0 <= ke_event_time_ms e;
  evf_startup : ke_event_type e = STARTUP -> ke_sequence e = 0 /\ ke_circuit e = None;
  evf_circuit : ke_event_type e <> STARTUP -> exists a, ke_circuit e = Some a
    /\ 0 <= mps_decision_time_ms (ca_managed a) <= ke_event_time_ms e;
}.

Lemma kill_event_facts e : kill_event_valid e -> event_facts e.
Proof.
  unfold kill_event_valid, kill_event_post_init. destruct e as [q t ty c m]. cbn [ke_sequence ke_event_time_ms ke_event_type ke_circuit manual_confirmation].
  intros [H Ha]. res_inv. bool_prop. constructor; cbn [ke_sequence ke_event_time_ms ke_event_type ke_circuit]; [lia|lia| |].
  - intros ->. bool_prop. destruct Hc1 as [[H1 H2] _]. by destruct c.
  - intros Hty. destruct ty, c as [a|]; try done; try (by destruct Hc1); exists a; pose proof (managed_time _ (proj1 (Ha a eq_refl))); (split; [done|lia]).
Qed.

Lemma ordered_merge l l' : _merge_breakers l l' = ordered_breakers (_merge_breakers l l').
Proof.
  unfold ordered_breakers, _merge_breakers. apply filter_ext_in. intros b Hb. unfold in_breakers.
  apply Bool.eq_true_iff_eq. rewrite bool_decide_eq_true, (list_elem_of_In (List.filter _ _) b), filter_In. tauto.
Qed.

Lemma merge_spec l l' b : b ∈ _merge_breakers l l' <-> b ∈ l \/ b ∈ l'.
Proof.
  unfold _merge_breakers. rewrite list_elem_of_In, filter_In, orb_true_iff. unfold in_breakers. rewrite !bool_decide_eq_true.
  assert (In b _BREAKER_ORDER) by (destruct b; simpl; tauto). tauto.
Qed.

Record state_facts (s : kill_state) : Prop := {
  stf_sequence : 0 <= ks_sequence s;
  stf_ordered : ks_triggered_breakers s = ordered_breakers (ks_triggered_breakers s);
  stf_inactive : active s = false -> ks_triggered_breakers s = [];
}.

Lemma kill_state_facts s : kill_state_valid s -> state_facts s.
Proof.
  unfold kill_state_valid, kill_state_post_init. intros H. res_inv. clear H Hr. constructor.
  - bool_prop. lia.
  - apply negb_false_iff, bool_decide_eq_true in Hc1. done.
  - unfold active. intros Ha. apply bool_decide_eq_false in Ha. apply negb_false_iff in Hc2. destruct (ks_mode s); [|done].
    destruct (ks_reason s); try done; by apply bool_decide_eq_true in Hc2.
Qed.

(** ** One step *)

Definition startup_state (e : kill_event) : kill_state :=
  KillSwitchState TRIGGERED FAIL_CLOSED_STARTUP (ke_sequence e) (ke_event_time_ms e) [] None None None (kill_event_sha256 e).

Lemma kill_first e s : kill_event_valid e -> _next_kill_state None e = Ok s <-> ke_event_type e = STARTUP /\ s = startup_state e.
Proof.
  intros He. destruct (kill_event_facts e He) as [Hq Ht Hs _]. unfold _next_kill_state. destruct (bool_decide_reflect (ke_event_type e = STARTUP)) as [E|E]; cbn [negb].
  - destruct (Hs E) as [Hq0 _]. fold (startup_state e). unfold new_kill_state.
    assert (kill_state_post_init (startup_state e) = Ok tt) as ->.
    { unfold kill_state_post_init, startup_state. cbn [ks_sequence ks_event_time_ms ks_triggered_breakers ks_mode ks_reason last_circuit_time_ms
        last_circuit_sha256 ks_previous_sha256 ks_event_sha256]. rewrite Hq0. unfold kill_event_sha256. rewrite digest_pattern.
      replace (ke_event_time_ms e <? 0) with false by lia. reflexivity. }
    cbn [rbind]. split; [intros [= <-]; done|intros [_ ->]; done].
  - split; [done|intros [? _]; done].
Qed.

Record accepts (p : kill_state) (e : kill_event) (a : circuit_assessment) : Prop := {
  ac_type : ke_event_type e <> STARTUP;
  ac_circuit : ke_circuit e = Some a;
  ac_sequence : ke_sequence e = ks_sequence p + 1;
  ac_time : ks_event_time_ms p < ke_event_time_ms e;
  ac_fresh : forall t, last_circuit_time_ms p = Some t -> t < mps_decision_time_ms (ca_managed a);
  ac_reset : ke_event_type e = MANUAL_RESET -> active p = true /\ ca_triggered a = [];
}.

Definition kill_outcome (p : kill_state) (e : kill_event) (a : circuit_assessment) : kill_mode * kill_reason * list circuit_breaker :=
  if bool_decide (ke_event_type e = MANUAL_RESET) then (INACTIVE, KR_MANUAL_RESET, [])
  else if negb (bool_decide (ca_triggered a = [])) then
    (TRIGGERED, CIRCUIT_BREAKER_TRIGGERED, _merge_breakers (ks_triggered_breakers p) (ca_triggered a))
  else if active p then (TRIGGERED, LATCHED_UNTIL_MANUAL_RESET, ks_triggered_breakers p)
  else (INACTIVE, CIRCUIT_CLEAR, []).

Definition advanced_state (p : kill_state) (e : kill_event) (a : circuit_assessment) : kill_state :=
  let o := kill_outcome p e a in
  KillSwitchState (fst (fst o)) (snd (fst o)) (ke_sequence e) (ke_event_time_ms e) (snd o)
    (Some (mps_decision_time_ms (ca_managed a))) (Some (circuit_sha256 a)) (Some (kill_state_sha256 p)) (kill_event_sha256 e).

Lemma advanced_valid p e a : kill_state_valid p -> kill_event_valid e -> accepts p e a -> kill_state_post_init (advanced_state p e a) = Ok tt.
Proof.
  intros Hp He Ha. destruct (kill_event_facts e He) as [Hq Ht _ Hc]. destruct (kill_state_facts p Hp) as [Hqp Hord _].
  destruct Ha as [Hty Hca Hseq Htime _ _]. destruct (Hc Hty) as (a' & E & Hle). rewrite Hca in E. injection E as <-.
  unfold kill_state_post_init, advanced_state. cbn [ks_sequence ks_event_time_ms ks_triggered_breakers ks_mode ks_reason last_circuit_time_ms
    last_circuit_sha256 ks_previous_sha256 ks_event_sha256 opt_is_none valid_digest].
  unfold kill_event_sha256, kill_state_sha256, circuit_sha256. rewrite !digest_pattern.
  set (t := mps_decision_time_ms (ca_managed a)) in *. clearbody t.
  replace ((0 <=? ke_sequence e) && (ke_sequence e <=? 1000000000)) with true by lia.
  replace (ke_event_time_ms e <? 0) with false by lia. replace (ke_sequence e =? 0) with false by lia.
  replace (t <? 0) with false by lia. replace (ke_event_time_ms e <? t) with false by lia. cbn [negb orb xorb].
  unfold kill_outcome. destruct (bool_decide (ke_event_type e = MANUAL_RESET)); [done|].
  destruct (bool_decide_reflect (ca_triggered a = [])) as [Et|Et]; cbn [negb].
  - destruct (active p); cbn [fst snd]; [|done]. rewrite bool_decide_true by done. done.
  - cbn [fst snd]. rewrite bool_decide_true by apply ordered_merge. rewrite bool_decide_false; [done|].
    intros Em. destruct (ca_triggered a) as [|b l] eqn:El; [done|]. assert (b ∈ @nil circuit_breaker) as Hb; [|by apply elem_of_nil in Hb].
    rewrite <- Em. apply merge_spec. right. left.
Qed.

Lemma kill_next p e s : kill_state_valid p -> kill_event_valid e ->
  _next_kill_state (Some p) e = Ok s <-> exists a, accepts p e a /\ s = advanced_state p e a.
Proof.
  intros Hp He. unfold _next_kill_state, event_circuit. split.
  - intros H. destruct (bool_decide_reflect (ke_event_type e = STARTUP)) as [E|E]; [done|].
    destruct (negb (_ =? _)) eqn:E1 in H; [done|]. destruct (_ <=? _) eqn:E2 in H; [done|].
    destruct (ke_circuit e) as [a|] eqn:Ea; [|done]. cbn [rbind] in H. destruct (match last_circuit_time_ms p with Some _ => _ | None => _ end) eqn:E3 in H; [done|].
    apply rbind_ok in H as (o & Ho & H). exists a.
    assert (accepts p e a /\ o = kill_outcome p e a) as [Hacc ->].
    { unfold kill_outcome. split; [constructor; [done|done|lia|lia| |]|].
      - intros t Et. rewrite Et in E3. lia.
      - intros Em. rewrite bool_decide_true in Ho by done. destruct (active p); [|done]. cbn [negb] in Ho. split; [done|].
        destruct (bool_decide_reflect (ca_triggered a = [])); done.
      - revert Ho. destruct (bool_decide (ke_event_type e = MANUAL_RESET)).
        + destruct (active p); [|done]. destruct (bool_decide (ca_triggered a = [])); cbn [negb]; [congruence|done].
        + destruct (bool_decide (ca_triggered a = [])); cbn [negb]; [destruct (active p); congruence|congruence]. }
    split; [done|]. unfold new_kill_state in H. fold (advanced_state p e a) in H. rewrite (advanced_valid p e a Hp He Hacc) in H. by injection H as <-.
  - intros (a & Hacc & ->). pose proof (advanced_valid p e a Hp He Hacc) as Hv. destruct Hacc as [Hty Hca Hseq Htime Hfr Hre].
    rewrite bool_decide_false, Hca by done. cbn [rbind]. rewrite Hseq, Z.eqb_refl. replace (ke_event_time_ms e <=? ks_event_time_ms p) with false by lia.
    cbn [negb]. assert (match last_circuit_time_ms p with Some t => mps_decision_time_ms (ca_managed a) <=? t | None => false end = false) as ->.
    { destruct (last_circuit_time_ms p) as [t|]; [|done]. specialize (Hfr t eq_refl). lia. }
    assert ((if bool_decide (ke_event_type e = MANUAL_RESET)
             then raise_if negb (active p) with KillSwitchError "Only a triggered Kill Switch can be reset" ;;
                  raise_if negb (bool_decide (ca_triggered a = [])) with KillSwitchError "Manual reset requires current clear circuit evidence" ;;
                  Ok (INACTIVE, KR_MANUAL_RESET, [])
             else if negb (bool_decide (ca_triggered a = [])) then
               Ok (TRIGGERED, CIRCUIT_BREAKER_TRIGGERED, _merge_breakers (ks_triggered_breakers p) (ca_triggered a))
             else if active p then Ok (TRIGGERED, LATCHED_UNTIL_MANUAL_RESET, ks_triggered_breakers p)
             else Ok (INACTIVE, CIRCUIT_CLEAR, [])) = Ok (kill_outcome p e a)) as ->.
    { unfold kill_outcome. destruct (bool_decide_reflect (ke_event_type e = MANUAL_RESET)) as [Em|Em].
      - destruct (Hre Em) as [-> ->]. done.
      - destruct (negb _); [done|]. by destruct (active p). }
    cbn [rbind]. rewrite <- Hseq. unfold new_kill_state. fold (advanced_state p e a). by rewrite Hv.
Qed.

(** ** The chain *)

Lemma kill_mode_inj a b : kill_mode_value a = kill_mode_value b -> a = b.
Proof. by destruct a, b. Qed.
Lemma kill_reason_inj a b : kill_reason_value a = kill_reason_value b -> a = b.
Proof. by destruct a, b. Qed.
Lemma event_type_inj a b : event_type_value a = event_type_value b -> a = b.
Proof. by destruct a, b. Qed.

Definition hashed_kill_state (s : kill_state) : list text := [json_dumps (kill_state_payload s)].
Definition hashed_kill_event (e : kill_event) : list text :=
  json_dumps (kill_event_payload e) :: match ke_circuit e with Some a => hashed_circuit a | None => [] end.

Lemma kill_state_binds T s s' : among (hashed_kill_state s) T -> among (hashed_kill_state s') T -> kill_state_sha256 s = kill_state_sha256 s' -> s = s' \/ collision T.
Proof.
  intros HT HT' H. destruct (digest_binds T _ _ (among_head _ _ _ HT) (among_head _ _ _ HT') H) as [E|E]; [|by right]. left. clear H. unfold kill_state_payload in E. json_fields E.
  repeat match goal with
  | H : kill_mode_value _ = kill_mode_value _ |- _ => apply kill_mode_inj in H
  | H : kill_reason_value _ = kill_reason_value _ |- _ => apply kill_reason_inj in H
  | H : map breaker_value _ = map breaker_value _ |- _ => apply breaker_values_inj in H
  end.
  destruct s, s'. cbn [ks_mode ks_reason ks_sequence ks_event_time_ms ks_triggered_breakers last_circuit_time_ms last_circuit_sha256
    ks_previous_sha256 ks_event_sha256] in *. subst. reflexivity.
Qed.

Lemma kill_event_binds T e e' : among (hashed_kill_event e) T -> among (hashed_kill_event e') T -> kill_event_sha256 e = kill_event_sha256 e' -> e = e' \/ collision T.
Proof.
  intros HT HT' H. apply among_cons in HT as [Ht HT], HT' as [Ht' HT']. destruct (digest_binds T _ _ Ht Ht' H) as [E|E]; [|by right]. clear H. unfold kill_event_payload in E. json_fields E.
  assert (ke_circuit e = ke_circuit e' \/ collision T) as [Hc|Hc]; [|left|by right].
  { match goal with H : option_map circuit_sha256 _ = option_map circuit_sha256 _ |- _ => revert H end.
    destruct (ke_circuit e) as [a|], (ke_circuit e') as [a'|]; cbn [option_map]; intros Hc; [|by exfalso; clear -Hc; discriminate Hc..|by left].
    assert (circuit_sha256 a = circuit_sha256 a') as Hs by (revert Hc; generalize (circuit_sha256 a), (circuit_sha256 a'); congruence).
    destruct (circuit_binds T a a' HT HT' Hs) as [->|]; [by left|by right]. }
  match goal with H : option_map _ _ = option_map _ _ |- _ => clear H end.
  match goal with H : event_type_value _ = event_type_value _ |- _ => apply event_type_inj in H end.
  destruct e, e'. cbn [ke_sequence ke_event_time_ms ke_event_type ke_circuit manual_confirmation] in *. subst. reflexivity.
Qed.

Definition kill_apply (p : option kill_state) (e : kill_event) : result kill_state :=
  let* t := apply_kill_switch_event p e in Ok (kt_current t).

Lemma kill_apply_next p e s : kill_apply p e = Ok s <-> _next_kill_state p e = Ok s.
Proof.
  unfold kill_apply, apply_kill_switch_event, kill_transition_post_init. cbn [kt_previous kt_event kt_current].
  destruct (_next_kill_state p e) as [s1|x]; cbn [rbind]; [|done]. rewrite bool_decide_true by done. cbn [negb rbind kt_current]. done.
Qed.

Lemma kill_preserves p e s : (forall q, p = Some q -> kill_state_valid q) -> kill_event_valid e -> kill_apply p e = Ok s -> kill_state_valid s.
Proof.
  intros Hp He H. apply kill_apply_next in H. unfold _next_kill_state in H. destruct p as [p|].
  - pose proof (proj1 (kill_next p e s (Hp p eq_refl) He) H) as (a & Ha & ->). by apply advanced_valid; [apply Hp| |].
  - destruct (negb _); [done|]. unfold new_kill_state in H. res_inv. subst. by destruct a.
Qed.

Lemma kill_records p e s : (forall q, p = Some q -> kill_state_valid q) -> kill_event_valid e -> kill_apply p e = Ok s ->
  ks_previous_sha256 s = option_map kill_state_sha256 p /\ ks_event_sha256 s = kill_event_sha256 e.
Proof.
  intros Hp He H. apply kill_apply_next in H. destruct p as [p|].
  - by apply (kill_next p e s (Hp p eq_refl) He) in H as (a & _ & ->).
  - by apply (kill_first e s He) in H as [_ ->].
Qed.

#[export] Instance kill_chain : HashChain kill_event kill_state := {
  hc_step := kill_apply; hc_event_ok := kill_event_valid; hc_state_ok := kill_state_valid;
  hc_state_digest := kill_state_sha256; hc_event_digest := kill_event_sha256;
  hc_previous := ks_previous_sha256; hc_event := ks_event_sha256;
  hc_preserved := kill_preserves; hc_records := kill_records;
  hc_hashed_state := hashed_kill_state; hc_hashed_event := hashed_kill_event;
  hc_state_binds := kill_state_binds; hc_event_binds := fun T e e' HT HT' _ _ => kill_event_binds T e e' HT HT';
}.
Abbreviation killed := (@chained kill_event kill_state kill_chain).

(** ** The latch *)

(** An observation that found no breaker. *)
Definition clear_observation (e : kill_event) : Prop :=
  ke_event_type e = CIRCUIT_OBSERVATION /\ exists a, ke_circuit e = Some a /\ ca_triggered a = [].
(** A confirmed reset over clear evidence. *)
Definition clear_reset (e : kill_event) : Prop :=
  ke_event_type e = MANUAL_RESET /\ exists a, ke_circuit e = Some a /\ ca_triggered a = [].
(** Every event after the last reset found the circuit clear. *)
Definition released (es : list kill_event) : Prop :=
  exists pre e post, es = pre ++ e :: post /\ clear_reset e /\ Forall clear_observation post.

(** The breakers observed since the last reset. *)
Fixpoint observed_rev (es : list kill_event) (b : circuit_breaker) : Prop :=
  match es with
  | [] => False
  | e :: es =>
      match ke_event_type e with
      | MANUAL_RESET | STARTUP => False
      | CIRCUIT_OBSERVATION => (exists a, ke_circuit e = Some a /\ b ∈ ca_triggered a) \/ observed_rev es b
      end
  end.
Definition observed (es : list kill_event) : circuit_breaker -> Prop := observed_rev (rev es).

Definition evidence_times (es : list kill_event) : list Z :=
  omap (fun e => option_map (fun a => mps_decision_time_ms (ca_managed a)) (ke_circuit e)) es.

Lemma released_snoc es e : released (es ++ [e]) <-> clear_reset e \/ (clear_observation e /\ released es).
Proof.
  unfold released. split.
  - intros (pre & r & post & E & Hr & Hp). destruct post as [|y post _] using rev_ind.
    + apply app_inj_tail in E as [-> ->]. by left.
    + rewrite app_comm_cons, app_assoc in E. apply app_inj_tail in E as [-> ->]. apply Forall_app in Hp as [Hp Hy].
      apply Forall_inv in Hy. right. split; [done|]. by exists pre, r, post.
  - intros [Hr|[Ho (pre & r & post & -> & Hr & Hp)]]; [by exists es, e, []|].
    exists pre, r, (post ++ [e]). split; [by rewrite <- app_assoc|]. split; [done|]. apply Forall_app. by split; [|constructor].
Qed.

Record kill_summary (es : list kill_event) (s : kill_state) : Prop := {
  ksm_latch : active s = false <-> released es;
  ksm_breakers : forall b, b ∈ ks_triggered_breakers s <-> observed es b;
  ksm_sequence : ks_sequence s = Z.of_nat (length es) - 1;
  ksm_order : StronglySorted Z.lt (map ke_event_time_ms es) /\ last (map ke_event_time_ms es) = Some (ks_event_time_ms s);
  ksm_evidence : StronglySorted Z.lt (evidence_times es) /\ last (evidence_times es) = last_circuit_time_ms s;
}.

Lemma active_advanced p e a : accepts p e a -> active (advanced_state p e a) = false <->
  clear_reset e \/ (clear_observation e /\ active p = false).
Proof.
  intros [Hty Hca _ _ _ Hre]. unfold active at 1, advanced_state, kill_outcome, clear_reset, clear_observation. cbn [ks_mode].
  rewrite bool_decide_eq_false. destruct (bool_decide_reflect (ke_event_type e = MANUAL_RESET)) as [Em|Em].
  - cbn [fst]. split; [|done]. intros _. left. split; [done|]. exists a. by destruct (Hre Em).
  - assert (ke_event_type e = CIRCUIT_OBSERVATION) as Eo by (by destruct (ke_event_type e)).
    destruct (bool_decide_reflect (ca_triggered a = [])) as [Et|Et]; cbn [negb].
    + destruct (active p); cbn [fst].
      * split; [done|]. intros [[? _]|[_ ?]]; done.
      * split; [|done]. intros _. right. split; [|done]. split; [done|]. by exists a.
    + cbn [fst]. split; [done|]. intros [[? _]|[[_ (a' & E & E')] _]]; [done|]. rewrite Hca in E. by injection E as <-.
Qed.

Lemma breakers_advanced p e a b : kill_state_valid p -> accepts p e a -> b ∈ ks_triggered_breakers (advanced_state p e a) <->
  ke_event_type e = CIRCUIT_OBSERVATION /\ (b ∈ ca_triggered a \/ b ∈ ks_triggered_breakers p).
Proof.
  intros Hp [Hty Hca _ _ _ _]. destruct (kill_state_facts p Hp) as [_ _ Hin]. unfold advanced_state, kill_outcome. cbn [ks_triggered_breakers].
  destruct (bool_decide_reflect (ke_event_type e = MANUAL_RESET)) as [Em|Em].
  - cbn [snd]. rewrite elem_of_nil, Em. split; [done|by intros [? _]].
  - assert (ke_event_type e = CIRCUIT_OBSERVATION) as -> by (by destruct (ke_event_type e)).
    destruct (bool_decide_reflect (ca_triggered a = [])) as [->|Et]; cbn [negb].
    + destruct (active p); cbn [snd]; [|rewrite (Hin eq_refl)]; rewrite elem_of_nil; tauto.
    + cbn [snd]. rewrite merge_spec. tauto.
Qed.

Lemma omap_snoc {A B} (f : A -> option B) l x : omap f (l ++ [x]) = omap f l ++ match f x with Some y => [y] | None => [] end.
Proof. induction l as [|y l IH]; cbn [omap list_omap app]; [by destruct (f x)|]. rewrite IH. by destruct (f y). Qed.

Lemma killed_summary es s : killed es s -> kill_summary es s.
Proof.
  induction 1 as [e s He H|es p e s Hc IH He H]; pose proof (proj1 (kill_apply_next _ _ _) H) as Hn; clear H.
  - apply (kill_first e s He) in Hn as [Et ->]. destruct (evf_startup _ (kill_event_facts e He) Et) as [Eq Ec].
    constructor; cbn [startup_state ks_triggered_breakers ks_sequence ks_event_time_ms last_circuit_time_ms].
    + split; [done|]. intros H. apply (released_snoc []) in H as [[H _]|[[H _] _]]; congruence.
    + intros b. unfold observed. cbn [rev app observed_rev]. rewrite Et, elem_of_nil. done.
    + rewrite Eq. done.
    + split; [repeat constructor|done].
    + unfold evidence_times. cbn [omap list_omap]. rewrite Ec. cbn [option_map]. split; [constructor|done].
  - pose proof (chained_ok _ _ Hc) as Hp. apply (kill_next p e s Hp He) in Hn as (a & Ha & ->).
    destruct IH as [I1 I2 I3 [I4 I5] [I6 I7]]. pose proof Ha as [Hty Hca Hseq Htime Hfr _].
    constructor.
    + rewrite (active_advanced p e a Ha), released_snoc, I1. done.
    + intros b. rewrite (breakers_advanced p e a b Hp Ha), I2. unfold observed. rewrite rev_app_distr. cbn [rev app observed_rev].
      destruct (ke_event_type e); [tauto| |split; [by intros [? _]|done]].
      split; [intros [_ [Hb|Hb]]; [left; by exists a|by right]|]. intros [(a' & E & Hb)|Hb]; [|by split; [done|right]].
      rewrite Hca in E. injection E as <-. split; [done|by left].
    + cbn [advanced_state ks_sequence]. rewrite Hseq, I3, length_app. cbn [length]. lia.
    + rewrite map_app. cbn [map advanced_state ks_event_time_ms]. rewrite last_snoc. split; [|done]. by eapply sorted_next.
    + unfold evidence_times in *. rewrite omap_snoc, Hca. cbn [option_map advanced_state last_circuit_time_ms]. rewrite last_snoc. split; [|done].
      destruct (last_circuit_time_ms p) as [t|] eqn:Et; [by eapply sorted_next; [|exact I7|apply Hfr]|].
      apply last_None in I7. rewrite I7. cbn [app]. repeat constructor.
Qed.

(** A refused step raises the module's own exception. *)
Lemma kill_error p e x : (forall q, p = Some q -> kill_state_valid q) -> kill_event_valid e ->
  kill_apply p e = Err x -> exn_cls x = KillSwitchError.
Proof.
  intros Hp He H. assert (_next_kill_state p e = Err x) as Hx.
  { unfold kill_apply, apply_kill_switch_event, kill_transition_post_init in H. cbn [kt_previous kt_event kt_current] in H.
    destruct (_next_kill_state p e) as [s|y]; cbn [rbind] in H; [|exact H]. by rewrite bool_decide_true in H. }
  clear H. destruct p as [p|].
  - destruct (kill_event_facts e He) as [_ _ _ Hc]. pose proof (fun s => proj2 (kill_next p e s (Hp p eq_refl) He)) as Hok.
    unfold _next_kill_state, event_circuit in Hx, Hok. destruct (bool_decide_reflect (ke_event_type e = STARTUP)) as [Et|Et]; [by injection Hx as <-|].
    destruct (Hc Et) as (a & Ea & _). rewrite Ea in Hx, Hok. cbn [rbind] in Hx, Hok.
    destruct (negb (_ =? _)) eqn:E1 in Hx; [by injection Hx as <-|]. destruct (_ <=? _) eqn:E2 in Hx; [by injection Hx as <-|].
    destruct (match last_circuit_time_ms p with Some _ => _ | None => _ end) eqn:E3 in Hx; [by injection Hx as <-|].
    rewrite E1, E2, E3 in Hok. destruct (if bool_decide _ then _ else _) as [o|y] eqn:Eo in Hx, Hok.
    + exfalso. cbn [rbind] in Hx, Hok. specialize (Hok (advanced_state p e a)). rewrite Hx in Hok. discriminate Hok.
      exists a. split; [|done]. constructor; [done|done|lia|lia| |].
      * intros t El. rewrite El in E3. lia.
      * intros Em. rewrite bool_decide_true in Eo by done. destruct (active p); [|done]. split; [done|].
        by destruct (bool_decide_reflect (ca_triggered a = [])).
    + cbn [rbind] in Hx. injection Hx as <-. revert Eo. clear. destruct (bool_decide (ke_event_type e = MANUAL_RESET)).
      * destruct (active p); cbn [negb]; [|by intros [= <-]]. destruct (bool_decide (ca_triggered a = [])); cbn [negb]; [done|by intros [= <-]].
      * destruct (bool_decide (ca_triggered a = [])); cbn [negb]; [by destruct (active p)|done].
  - unfold _next_kill_state in Hx. destruct (negb _) eqn:E; [by injection Hx as <-|]. apply negb_false_iff, bool_decide_eq_true in E.
    pose proof (proj2 (kill_first e (startup_state e) He) (conj E eq_refl)) as Hok. unfold _next_kill_state in Hok.
    rewrite bool_decide_true in Hok by done. cbn [negb] in Hok. congruence.
Qed.

(** * Claims *)

(** C19. The latch.  Whatever events the kill switch accepted, it is released
    exactly when some event was a confirmed manual reset over clear circuit
    evidence and every event after it observed a clear circuit: it starts
    triggered, no passage of time or clear observation releases it, and any
    breaker seen triggers it again.  It remembers exactly the breakers observed
    since the last reset; its sequence counts the events, whose times are
    strictly increasing, and no circuit evidence is used twice or out of order. *)
Theorem kill_switch_latches es s (H : killed es s) : kill_summary es s.
Proof. exact (killed_summary es s H). Qed.

(** Every step of the kill switch, errors included.  From a valid state a
    valid event is accepted exactly when it is no second startup, continues the
    sequence at a later time with circuit evidence newer than any consumed, and,
    when it is a reset, the switch is triggered and the evidence clear; the new
    state is then the specified one.  From nothing only a startup is accepted,
    and yields the triggered state.  Every other event is a KillSwitchError. *)
Theorem kill_switch_steps e (He : kill_event_valid e) :
  (forall s, kill_apply None e = Ok s <-> ke_event_type e = STARTUP /\ s = startup_state e)
  /\ (forall p s, kill_state_valid p -> (kill_apply (Some p) e = Ok s <-> exists a, accepts p e a /\ s = advanced_state p e a))
  /\ (forall p x, (forall q, p = Some q -> kill_state_valid q) -> kill_apply p e = Err x -> exn_cls x = KillSwitchError).
Proof.
  split; [|split].
  - intros s. by rewrite kill_apply_next, kill_first.
  - intros p s Hp. by rewrite kill_apply_next, kill_next.
  - intros p x Hp. by apply kill_error.
Qed.

(** A startup, an observed loss streak, a clear observation, a reset. *)
Definition sample_circuit (n : Z) (t : Z) : circuit_assessment :=
  let m := ManagedPortfolioState "BTCUSDT" 4 t 0 "1000" "1000" "1000" "0" "100" "1050" "0" n 0 "0"
             (Some (digest (JStr "p"))) (digest (JStr "o")) in
  let c := new_context_default TREND_IDENTITY (MarketSnapshot "BTCUSDT" t [] [] []) in
  let r := RiskRequest (StrategyDecision c SNoTrade REGIME_BLOCKED None) INSUFFICIENT_EVIDENCE (projection m true) frozen_policy in
  match _circuit_values r m with
  | Ok v => circuit_texts r m v
  | Err _ => circuit_texts r m (CircuitValues CLEAR CR_WITHIN_LIMITS [] dec0 dec0 dec0 dec0 0 0)
  end.
Definition sample_kill_events : list kill_event := [
  KillSwitchEvent 0 5 STARTUP None false;
  KillSwitchEvent 1 HOUR_MS CIRCUIT_OBSERVATION (Some (sample_circuit 3 HOUR_MS)) false;
  KillSwitchEvent 2 (2 * HOUR_MS) CIRCUIT_OBSERVATION (Some (sample_circuit 0 (2 * HOUR_MS))) false;
  KillSwitchEvent 3 (3 * HOUR_MS) MANUAL_RESET (Some (sample_circuit 0 (3 * HOUR_MS))) true].

Definition kill_event_check (e : kill_event) : bool :=
  is_ok (kill_event_post_init e)
  && match ke_circuit e with Some a => is_ok (managed_post_init (ca_managed a)) && is_ok (circuit_post_init a) | None => true end.

Lemma is_ok_tt (m : result unit) : is_ok m = true -> m = Ok tt.
Proof. by destruct m as [[]|]. Qed.

Lemma kill_events_checked es : forallb kill_event_check es = true -> Forall kill_event_valid es.
Proof.
  intros H. apply forallb_Forall in H. eapply Forall_impl; [exact H|]. intros e He. unfold kill_event_check in He.
  apply andb_true_iff in He as [H1 H2]. split; [by apply is_ok_tt|]. intros a Ha. rewrite Ha in H2. apply andb_true_iff in H2 as [H2 H3].
  split; by apply is_ok_tt.
Qed.

Lemma sample_kill_valid : Forall kill_event_valid sample_kill_events.
Proof. apply kill_events_checked. vm_compute. reflexivity. Qed.

(** The states of the sample, one accepted event after the other. *)
Lemma sample_killed : exists s, killed sample_kill_events s.
Proof.
  pose proof sample_kill_valid as Hv. unfold sample_kill_events in *.
  apply Forall_cons in Hv as [H0 Hv]. apply Forall_cons in Hv as [H1 Hv]. apply Forall_cons in Hv as [H2 Hv]. apply Forall_inv in Hv as H3.
  match goal with |- exists s, killed [?a; ?b; ?c; ?d] s =>
    pose (e0 := a); pose (e1 := b); pose (e2 := c); pose (e3 := d); change (exists s, killed ((([e0] ++ [e1]) ++ [e2]) ++ [e3]) s) end.
  pose proof (chained_first e0 (startup_state e0) H0 (proj2 (kill_apply_next _ _ _) (proj2 (kill_first e0 _ H0) (conj eq_refl eq_refl)))) as K0.
  pose (a1 := sample_circuit 3 HOUR_MS). pose (a2 := sample_circuit 0 (2 * HOUR_MS)). pose (a3 := sample_circuit 0 (3 * HOUR_MS)).
  pose (s1 := advanced_state (startup_state e0) e1 a1). pose (s2 := advanced_state s1 e2 a2). pose (s3 := advanced_state s2 e3 a3).
  assert (accepts (startup_state e0) e1 a1) as A1 by (split; [done|done|done|done|intros t Ht; discriminate Ht|done]).
  assert (killed ([e0] ++ [e1]) s1) as K1.
  { eapply chained_next; [exact K0|exact H1|]. apply kill_apply_next, kill_next; [exact (chained_ok _ _ K0)|exact H1|by exists a1]. }
  assert (accepts s1 e2 a2) as A2.
  { split; [done|done|done|done|intros t Ht; injection Ht as <-; reflexivity|done]. }
  assert (killed (([e0] ++ [e1]) ++ [e2]) s2) as K2.
  { eapply chained_next; [exact K1|exact H2|]. apply kill_apply_next, kill_next; [exact (chained_ok _ _ K1)|exact H2|by exists a2]. }
  assert (accepts s2 e3 a3) as A3.
  { split; [done|done|done|done|intros t Ht; injection Ht as <-; reflexivity|]. intros _. split; vm_compute; reflexivity. }
  exists s3. eapply chained_next; [exact K2|exact H3|]. apply kill_apply_next, kill_next; [exact (chained_ok _ _ K2)|exact H3|by exists a3].
Qed.

Lemma kill_switch_latches_witness : exists s, killed sample_kill_events s /\ kill_summary sample_kill_events s /\ active s = false.
Proof.
  destruct sample_killed as [s H]. exists s. split; [exact H|]. pose proof (kill_switch_latches _ _ H) as K. split; [exact K|].
  apply (ksm_latch _ _ K).
  exists (take 3 sample_kill_events), (KillSwitchEvent 3 (3 * HOUR_MS) MANUAL_RESET (Some (sample_circuit 0 (3 * HOUR_MS))) true), [].
  split; [reflexivity|]. split; [|constructor]. split; [reflexivity|]. eexists. split; [reflexivity|]. vm_compute. reflexivity.
Defined.

Lemma kill_switch_steps_witness :
  kill_apply None (KillSwitchEvent 0 5 STARTUP None false) = Ok (startup_state (KillSwitchEvent 0 5 STARTUP None false)).
Proof.
  apply (proj1 (kill_switch_steps (KillSwitchEvent 0 5 STARTUP None false) (Forall_inv sample_kill_valid))).
  split; reflexivity.
Defined.
