(* ===== verification/RiskAdapter.v ===== *)
(** * The guarded paper bridge (yatl/risk/adapter.py)

    Complete P4 authorizations and the stateful gateway that turns them into
    steps of the paper fill engine. *)
From S2P Require Import Prelude PyDecimal PyText Digest HashChain Market BacktestConfig MarketView Fills Costs StrategyContracts Features Regime Trend Breakout ExactDec RiskContracts RiskState Sizing Limits Protective Circuit KillSwitch.

Definition SUPPORTED_IDENTITIES : list strategy_identity := [TREND_IDENTITY; BREAKOUT_IDENTITY].

(** [_decision_for]: what the evidence allows. *)
Definition _decision_for (r : risk_request) (m : managed_state) (k : kill_state) (c : circuit_assessment)
    (p : option protective_assessment) : result risk_decision :=
  raise_if negb (bool_decide (ca_request c = r)) || negb (bool_decide (ca_managed c = m))
    with RiskAdapterError "Circuit evidence does not match the risk request" ;;
  raise_if negb (Bool.eqb (kill_switch_active (rq_portfolio r)) (active k))
    with RiskAdapterError "Risk request and Kill Switch state disagree" ;;
  raise_if match p with Some a => negb (bool_decide (gate_request a = r)) | None => false end
    with RiskAdapterError "Protective evidence does not match the request" ;;
  match sd_action (rq_decision r) with
  | SEnterLong =>
      raise_if negb (bool_decide (last_circuit_sha256 k = Some (circuit_sha256 c)))
               || negb (bool_decide (last_circuit_time_ms k = Some (mps_decision_time_ms m)))
        with RiskAdapterError "Entry requires the latest consumed circuit evidence" ;;
      raise_if negb (bool_decide (ca_triggered c = [])) && negb (active k)
        with RiskAdapterError "Active circuit breakers are not latched" ;;
      if active k then new_risk_decision (RiskDecision r REJECT KILL_SWITCH_ACTIVE None)
      else if negb (bool_decide (rq_evidence r = QUALIFIED_FOR_P4_RESEARCH))
      then new_risk_decision (RiskDecision r REJECT EVIDENCE_NOT_QUALIFIED None)
      else
        match p with
        | Some a =>
            if negb (bool_decide (ca_triggered c = [])) || negb (bool_decide (pa_status a = GATE_PASS))
            then new_risk_decision (RiskDecision r REJECT PENDING_RISK_EVALUATION None)
            else new_risk_decision (RiskDecision r APPROVE_PAPER RISK_CHECKS_PASSED (Some (pa_quantity a)))
        | None => new_risk_decision (RiskDecision r REJECT PENDING_RISK_EVALUATION None)
        end
  | SExitLong =>
      raise_if negb (opt_is_none p) with RiskAdapterError "Non-entry authorization cannot carry protective evidence" ;;
      new_risk_decision (RiskDecision r APPROVE_PAPER EXIT_REDUCES_RISK (Some (prs_position_quantity (rq_portfolio r))))
  | SNoTrade =>
      raise_if negb (opt_is_none p) with RiskAdapterError "Non-entry authorization cannot carry protective evidence" ;;
      new_risk_decision (RiskDecision r NO_ACTION NO_STRATEGY_ACTION None)
  end.

Record authorization : Type := RiskAuthorization {
  au_request : risk_request;
  au_managed : managed_state;
  au_kill : kill_state;
  au_circuit : circuit_assessment;
  au_protective : option protective_assessment;
  au_decision : risk_decision;
}.

Definition authorization_post_init (a : authorization) : result unit :=
  let* expected := _decision_for (au_request a) (au_managed a) (au_kill a) (au_circuit a) (au_protective a) in
  raise_if negb (bool_decide (au_decision a = expected)) || negb (bool_decide (rd_request (au_decision a) = au_request a))
    with RiskAdapterError "Risk authorization decision is inconsistent" ;;
  Ok tt.
Definition new_authorization (a : authorization) : result authorization := do* authorization_post_init a ;; Ok a.

Definition disposition_value (d : risk_disposition) : string :=
  match d with NO_ACTION => "NO_ACTION" | REJECT => "REJECT" | APPROVE_PAPER => "APPROVE_PAPER" end.
Definition risk_reason_value (r : risk_reason) : string :=
  match r with
  | NO_STRATEGY_ACTION => "NO_STRATEGY_ACTION" | PENDING_RISK_EVALUATION => "PENDING_RISK_EVALUATION"
  | EVIDENCE_NOT_QUALIFIED => "EVIDENCE_NOT_QUALIFIED" | RISK_CHECKS_PASSED => "RISK_CHECKS_PASSED"
  | EXIT_REDUCES_RISK => "EXIT_REDUCES_RISK" | KILL_SWITCH_ACTIVE => "KILL_SWITCH_ACTIVE"
  end.

Definition authorization_payload (a : authorization) : json := JObj [
  ("schema_version", JInt 1); ("request_sha256", JStr (request_sha256 (au_request a)));
  ("managed_state_sha256", JStr (state_sha256 (au_managed a)));
  ("kill_switch_state_sha256", JStr (kill_state_sha256 (au_kill a)));
  ("circuit_sha256", JStr (circuit_sha256 (au_circuit a)));
  ("protective_sha256", JOptStr (option_map gate_sha256 (au_protective a)));
  ("disposition", JStr (disposition_value (disposition (au_decision a))));
  ("reason", JStr (risk_reason_value (rd_reason (au_decision a))));
  ("approved_quantity", JOptStr (approved_quantity (au_decision a)))]%string.
Definition authorization_sha256 (a : authorization) : string := digest (authorization_payload a).

Definition authorize_paper_request (r : risk_request) (m : managed_state) (k : kill_state) (c : circuit_assessment)
    (p : option protective_assessment) : result authorization :=
  let* decision := _decision_for r m k c p in
  new_authorization (RiskAuthorization r m k c p decision).

Inductive adapter_outcome : Type := ENTRY_APPROVED | ENTRY_BLOCKED | ADAPTER_NO_ACTION | EXIT_APPROVED.
#[global] Instance adapter_outcome_eq_dec : EqDecision adapter_outcome.
Proof. solve_decision. Defined.

Record adapter_step : Type := RiskAdapterStep {
  as_authorization : authorization;
  as_outcome : adapter_outcome;
  as_intent : paper_intent;
  as_fills : list fill_reference;
}.

(** The dictionary of expected outcomes. *)
Definition expected_outcome (action : strategy_action) (d : risk_disposition) : option (adapter_outcome * intent_action) :=
  match action, d with
  | SEnterLong, APPROVE_PAPER => Some (ENTRY_APPROVED, ENTER_LONG)
  | SEnterLong, REJECT => Some (ENTRY_BLOCKED, HOLD)
  | SNoTrade, NO_ACTION => Some (ADAPTER_NO_ACTION, HOLD)
  | SExitLong, APPROVE_PAPER => Some (EXIT_APPROVED, EXIT_LONG)
  | _, _ => None
  end.

Definition step_post_init (s : adapter_step) : result unit :=
  raise_if (2 <? length (as_fills s))%nat with RiskAdapterError "Risk adapter step identity is invalid" ;;
  let decision := au_decision (as_authorization s) in
  raise_if negb (bool_decide (expected_outcome (sd_action (rq_decision (rd_request decision))) (disposition decision)
                              = Some (as_outcome s, pi_action (as_intent s))))
    with RiskAdapterError "Authorization and Paper intent actions differ" ;;
  raise_if negb (pi_decision_time_ms (as_intent s) =? prs_decision_time_ms (rq_portfolio (rd_request decision)))
    with RiskAdapterError "Authorization and Paper intent times differ" ;;
  match as_outcome s with
  | ENTRY_APPROVED =>
      raise_if negb (bool_decide (pi_quantity (as_intent s) = approved_quantity decision))
        with RiskAdapterError "P2 entry quantity differs from P4 approval" ;;
      raise_if match as_fills s with
               | [] => true
               | f :: _ => negb (bool_decide (fr_action f = ENTER_LONG)) || negb (bool_decide (Some (fr_quantity f) = approved_quantity decision))
               end
        with RiskAdapterError "P2 entry fill differs from P4 approval" ;;
      Ok tt
  | ENTRY_BLOCKED =>
      raise_if negb (bool_decide (as_fills s = [])) with RiskAdapterError "Rejected entry produced a Paper fill" ;; Ok tt
  | _ => Ok tt
  end.
Definition new_step (s : adapter_step) : result adapter_step := do* step_post_init s ;; Ok s.

(** [RiskManagedPaperAdapter]: the identity and the symbol are fixed, the rest changes. *)
Record risk_adapter : Type := RiskManagedPaperAdapter {
  ra_identity : strategy_identity;
  ra_symbol : string;
  ra_engine : engine_state;
  ra_active_setup : option long_setup;
  ra_active_quantity : option string;
  ra_last_sequence : option Z;
  ra_last_time : option Z;
}.

Definition new_risk_adapter (i : strategy_identity) (symbol : string) : result risk_adapter :=
  raise_if negb (bool_decide (i ∈ SUPPORTED_IDENTITIES)) with RiskAdapterError "Risk adapter strategy identity is not supported" ;;
  raise_if negb (str_in symbol SYMBOLS) with RiskAdapterError "Risk adapter symbol is not approved" ;;
  let* engine := new_engine symbol in
  Ok (RiskManagedPaperAdapter i symbol engine None None None None).

Definition ra_has_position (a : risk_adapter) : bool := has_position (ra_engine a).

(** The classes [except (BacktestContractError, StrategyContractError, TypeError,
    ValueError)] catches among the modelled ones. *)
Definition RECONSTRUCTION_ERRORS : list exn_class := [
  BacktestContractError; StrategyContractError; TypeError; ValueError; CandleValidationError; BacktestConfigError;
  RiskContractError; RiskStateError; RiskSizingError; RiskLimitError; ProtectiveGateError; CircuitBreakerError;
  KillSwitchError; RiskAdapterError].

Definition reconstruct (au : authorization) : result unit :=
  let d := rq_decision (au_request au) in
  do* identity_post_init (identity (sd_context d)) ;;
  do* snapshot_post_init (sc_snapshot (sd_context d)) ;;
  do* context_post_init (sd_context d) ;;
  do* decision_post_init d ;;
  do* risk_decision_post_init (au_decision au) ;;
  authorization_post_init au.

Definition opt_le (t : Z) (o : option Z) : bool := match o with Some u => t <=? u | None => false end.

Definition _validate_step (a : risk_adapter) (ev : decision_event) (au : authorization) : result unit :=
  let d := rq_decision (au_request au) in
  raise_if negb (bool_decide (identity (sd_context d) = ra_identity a)) || negb (String.eqb (sd_symbol d) (ra_symbol a))
           || negb (String.eqb (ms_symbol (ev_snapshot ev)) (ra_symbol a))
           || negb (sd_decision_time_ms d =? ev_decision_time_ms ev)
           || negb (bool_decide (sc_snapshot (sd_context d) = ev_snapshot ev))
    with RiskAdapterError "Event and authorized strategy decision differ" ;;
  do* rcatch (reconstruct au) RECONSTRUCTION_ERRORS (Raise RiskAdapterError "P4 authorization failed reconstruction") ;;
  let expected_sequence := match ra_last_sequence a with Some s => s + 1 | None => 0 end in
  raise_if negb (ev_sequence ev =? expected_sequence) || opt_le (ev_decision_time_ms ev) (ra_last_time a)
    with RiskAdapterError "Duplicate or out-of-order authorized decision" ;;
  Ok tt.

Definition hold_intent (t : Z) : result paper_intent := new_intent (PaperIntent HOLD t None None None).

Definition _intent (a : risk_adapter) (au : authorization) : result (adapter_outcome * paper_intent) :=
  let rd := au_decision au in
  let d := rq_decision (au_request au) in
  let t := sd_decision_time_ms d in
  if ra_has_position a then
    match sd_action d with
    | SExitLong =>
        raise_if negb (bool_decide (disposition rd = APPROVE_PAPER)) with RiskAdapterError "Risk-reducing exit lacks P4 authorization" ;;
        raise_if negb (bool_decide (approved_quantity rd = ra_active_quantity a)) with RiskAdapterError "Exit portfolio quantity differs from P2 state" ;;
        let* i := new_intent (PaperIntent EXIT_LONG t None None None) in
        Ok (EXIT_APPROVED, i)
    | _ =>
        if bool_decide (sd_action d = SNoTrade) && bool_decide (sd_reason d = HOLD_POSITION) && bool_decide (disposition rd = NO_ACTION)
           && bool_decide (Some (prs_position_quantity (rq_portfolio (au_request au))) = ra_active_quantity a)
        then let* i := hold_intent t in Ok (ADAPTER_NO_ACTION, i)
        else Err (Raise RiskAdapterError "Open Paper state requires matching HOLD or EXIT")
    end
  else
    let flat_no_trade :=
      if bool_decide (sd_action d = SNoTrade) && negb (bool_decide (sd_reason d = HOLD_POSITION)) && bool_decide (disposition rd = NO_ACTION)
      then let* i := hold_intent t in Ok (ADAPTER_NO_ACTION, i)
      else Err (Raise RiskAdapterError "Flat Paper state cannot process this authorization") in
    match sd_action d, disposition rd with
    | SEnterLong, APPROVE_PAPER =>
        match sd_setup d with
        | Some setup =>
            let* i := new_intent (PaperIntent ENTER_LONG t (approved_quantity rd) (Some (invalidation_price setup)) (Some (setup_target_price setup))) in
            Ok (ENTRY_APPROVED, i)
        | None => Err (Raise AttributeError "invalidation_price")
        end
    | SEnterLong, REJECT => let* i := hold_intent t in Ok (ENTRY_BLOCKED, i)
    | _, _ => flat_no_trade
    end.

Definition with_engine (e : engine_state) (a : risk_adapter) : risk_adapter :=
  RiskManagedPaperAdapter (ra_identity a) (ra_symbol a) e (ra_active_setup a) (ra_active_quantity a) (ra_last_sequence a) (ra_last_time a).
Definition with_active (s : option long_setup) (q : option string) (a : risk_adapter) : risk_adapter :=
  RiskManagedPaperAdapter (ra_identity a) (ra_symbol a) (ra_engine a) s q (ra_last_sequence a) (ra_last_time a).
Definition with_last (sequence time : Z) (a : risk_adapter) : risk_adapter :=
  RiskManagedPaperAdapter (ra_identity a) (ra_symbol a) (ra_engine a) (ra_active_setup a) (ra_active_quantity a) (Some sequence) (Some time).

(** [try: self._fill_engine.process(...) except FillModelError: raise RiskAdapterError]:
    the engine is an object of its own, mutated in place. *)
Definition engine_process (ev : decision_event) (i : paper_intent) (bar : candle) : stm risk_adapter (list fill_reference) :=
  fun a => let '(e, out) := process (ra_symbol a) ev i bar (ra_engine a) in
           (with_engine e a, rcatch out [FillModelError] (Raise RiskAdapterError "P2 rejected the P4-authorized Paper intent")).

(** [RiskManagedPaperAdapter.process] *)
Definition ra_process (ev : decision_event) (au : authorization) (bar : candle) : stm risk_adapter adapter_step :=
  let! a := sget in
  do! slift (_validate_step a ev au) ;;
  let! oi := slift (_intent a au) in
  let! fills := engine_process ev (snd oi) bar in
  let step := RiskAdapterStep au (fst oi) (snd oi) fills in
  do! slift (step_post_init step) ;;
  let! b := sget in
  let b := if ra_has_position b then
             if bool_decide (fst oi = ENTRY_APPROVED) then with_active (sd_setup (rq_decision (au_request au))) (approved_quantity (au_decision au)) b
             else b
           else with_active None None b in
  do! sput b ;;
  sraise_if negb (Bool.eqb (ra_has_position b) (negb (opt_is_none (ra_active_quantity b))))
    with RiskAdapterError "P4 and P2 Paper position states diverged" ;;
  do! sput (with_last (ev_sequence ev) (ev_decision_time_ms ev) b) ;;
  sret step.

(** * Properties *)

(** ** The constructed gate behind an authorization *)

(** Everything a gate was built from, by the constructors. *)
Record gate_chain_valid (g : protective_assessment) : Prop := {
  gc_size : size_is_valid (la_position_size (pa_limit g));
  gc_limit : limit_is_valid (pa_limit g);
  gc_gate : gate_is_valid g;
}.

Lemma gate_valid_inv g w : _gate_values (pa_limit g) = Ok w -> gate_is_valid g ->
  pa_status g = gv_status w /\ pa_quantity g = format_f (gv_quantity w) /\ plain (gv_quantity w) = true.
Proof.
  unfold gate_is_valid, gate_post_init. intros -> H. cbn [rbind] in H. destruct (_ || _) eqn:E1 in H; [done|].
  destruct (negb (canonical (pa_quantity g) _ && _ && _ && _ && _ && _ && _ && _ && _ && _ && _ && _ && _)) eqn:E2 in H; [done|]. clear H.
  apply orb_false_iff in E1 as [E1 _]. apply negb_false_iff, bool_decide_eq_true in E1. apply negb_false_iff in E2.
  rewrite !andb_true_iff, !canonical_spec in E2. decompose [and] E2. done.
Qed.

(** What a passed gate establishes, over the rationals. *)
Record safe_entry (r : risk_request) (q : string) : Prop := {
  sf_values : exists e c n s t d,
    denotes (prs_equity_quote (rq_portfolio r)) e /\ denotes (prs_cash_quote (rq_portfolio r)) c
    /\ (exists setup, sd_setup (rq_decision r) = Some setup /\ denotes (setup_reference_price setup) n
          /\ denotes (invalidation_price setup) s /\ denotes (setup_target_price setup) t)
    /\ denotes q d /\ (0 < dval d)%Q /\ (dval d == step_quantity (dval e) (dval n) (dval s))%Q
    /\ (dval d * unit_loss (dval n) (dval s) <= dval e * (1 # 100))%Q
    /\ (dval d * entry_exec (dval n) <= dval e * (1 # 4))%Q
    /\ (dval d * entry_exec (dval n) * (1001 # 1000) <= dval c)%Q
    /\ (0 < net_reward_value (dval e) (dval n) (dval s) (dval t))%Q;
}.

Lemma passed_gate_safe g : request_valid (gate_request g) -> gate_chain_valid g -> pa_status g = GATE_PASS ->
  safe_entry (gate_request g) (pa_quantity g).
Proof.
  intros Hr [Hs Hl Hg] Hpass. unfold gate_request in *.
  destruct (gate_exact (pa_limit g) Hr Hs Hl) as (e & c & n & s & t & v & w & Hse & (setup & Eset & Ht) & Ew & Hw & _).
  destruct (gate_valid_inv g w Ew Hg) as (Est & Eq & Hplain). rewrite Hpass in Est. symmetry in Est.
  apply (gt_status _ _ _ _ _ _ _ Hw) in Est. rewrite (gt_reason _ _ _ _ _ _ _ Hw) in Est. unfold gate_outcome, limit_outcome in Est.
  destruct (Qlt_le_dec (dval e * (1 # 4)) _) as [|Hn]; [done|]. destruct (Qlt_le_dec (dval c) _) as [|Hcash]; [done|].
  destruct (Qlt_le_dec 0 _) as [Hrew|]; [|done].
  pose proof (se_facts _ _ _ _ _ _ Hse) as Hf. destruct (ef_order _ _ _ _ Hf) as (Pe & Ps & Psn).
  destruct (value_facts Pe Ps Psn) as (PB & _ & _ & _ & PL). destruct (step_within _ _ _ PB PL) as [W1 _].
  destruct (ef_setup _ _ _ _ Hf) as (setup' & Es & Hn' & Hi). rewrite Eset in Es. injection Es as <-.
  pose proof (step_pos _ _ _ (se_steps _ _ _ _ _ _ Hse)) as Hpos. pose proof (gt_quantity _ _ _ _ _ _ _ Hw) as Vq.
  destruct (format_reads (gv_quantity w)) as (d & Ed & Et & En & Ev & Ee).
  assert (denotes (pa_quantity g) d) as Hd.
  { rewrite Eq. unfold plain in Hplain. rewrite <- Et in Hplain |- *. apply unsigned_text_iff in Hplain as (N1 & N2 & N3); [|lia].
    apply unsigned_text_denotes; [done|lia|done]. }
  assert (dval d == step_quantity (dval e) (dval n) (dval s))%Q as Vd by by rewrite Ev.
  constructor. exists e, c, n, s, t, d. split; [apply (ef_equity _ _ _ _ Hf)|]. split; [apply (se_cash _ _ _ _ _ _ Hse)|].
  split; [by exists setup|]. split; [done|]. rewrite Vd. split; [done|]. split; [done|].
  split; [|split; [exact Hn|split; [exact Hcash|exact Hrew]]].
  eapply Qle_trans; [exact W1|]. unfold budget_value. apply Qle_lteq. right. field.
Qed.

(** ** Authorizations *)

(** The decision the evidence allows, case by case. *)
Inductive decides (r : risk_request) (k : kill_state) (c : circuit_assessment) : option protective_assessment -> risk_decision -> Prop :=
| dc_killed p : sd_action (rq_decision r) = SEnterLong -> active k = true -> decides r k c p (RiskDecision r REJECT KILL_SWITCH_ACTIVE None)
| dc_unqualified p : sd_action (rq_decision r) = SEnterLong -> active k = false -> rq_evidence r <> QUALIFIED_FOR_P4_RESEARCH ->
    decides r k c p (RiskDecision r REJECT EVIDENCE_NOT_QUALIFIED None)
| dc_pending p : sd_action (rq_decision r) = SEnterLong -> active k = false -> rq_evidence r = QUALIFIED_FOR_P4_RESEARCH ->
    (forall g, p = Some g -> pa_status g <> GATE_PASS) -> decides r k c p (RiskDecision r REJECT PENDING_RISK_EVALUATION None)
| dc_entry g : sd_action (rq_decision r) = SEnterLong -> active k = false -> rq_evidence r = QUALIFIED_FOR_P4_RESEARCH ->
    ca_triggered c = [] -> pa_status g = GATE_PASS ->
    decides r k c (Some g) (RiskDecision r APPROVE_PAPER RISK_CHECKS_PASSED (Some (pa_quantity g)))
| dc_exit : sd_action (rq_decision r) = SExitLong ->
    decides r k c None (RiskDecision r APPROVE_PAPER EXIT_REDUCES_RISK (Some (prs_position_quantity (rq_portfolio r))))
| dc_none : sd_action (rq_decision r) = SNoTrade -> decides r k c None (RiskDecision r NO_ACTION NO_STRATEGY_ACTION None).

(** The consistency the authorization requires of its inputs. *)
Record consistent (r : risk_request) (m : managed_state) (k : kill_state) (c : circuit_assessment) (p : option protective_assessment) : Prop := {
  cn_circuit : ca_request c = r /\ ca_managed c = m;
  cn_kill : kill_switch_active (rq_portfolio r) = active k;
  cn_gate : forall g, p = Some g -> gate_request g = r;
  cn_entry : sd_action (rq_decision r) = SEnterLong ->
    last_circuit_sha256 k = Some (circuit_sha256 c) /\ last_circuit_time_ms k = Some (mps_decision_time_ms m)
    /\ (active k = false -> ca_triggered c = []);
  cn_other : sd_action (rq_decision r) <> SEnterLong -> p = None;
}.

Lemma exit_quantity_positive r : request_valid r -> sd_action (rq_decision r) = SExitLong ->
  exists q, denotes (prs_position_quantity (rq_portfolio r)) q /\ (0 < dval q)%Q.
Proof.
  intros Hr Ha. destruct (risk_state_valid_facts _ (rv_portfolio _ Hr)) as [_ (e & c & q & m & p & _ & _ & Hq & _ & _ & _ & _ & _ & Hflat)].
  exists q. split; [done|]. destruct (denotes_exactly _ _ Hq) as (_ & _ & _ & H0).
  destruct (Qle_lt_or_eq _ _ H0) as [H|H]; [done|]. exfalso. symmetry in H. apply Hflat in H.
  pose proof (rv_request _ Hr) as Hreq. unfold request_post_init in Hreq. rewrite Ha, H in Hreq. cbn in Hreq. by destruct (_ || _) in Hreq.
Qed.

Lemma decides_valid r k c p d : request_valid r -> (forall g, p = Some g -> gate_request g = r /\ gate_chain_valid g) ->
  kill_switch_active (rq_portfolio r) = active k -> decides r k c p d -> risk_decision_post_init d = Ok tt /\ rd_request d = r.
Proof.
  intros Hr Hg Hk Hd. revert Hg. destruct Hd as [p' A _|p' A _ _|p' A _ _ _|g A K Q _ G|A|A]; intros Hg; (split; [|done]); unfold risk_decision_post_init;
    cbn [rd_request approved_quantity disposition rd_reason opt_is_none rbind]; rewrite ?A.
  - reflexivity.
  - reflexivity.
  - reflexivity.
  - destruct (Hg g eq_refl) as [Eg Hc]. rewrite <- Eg in Hr. destruct (passed_gate_safe g Hr Hc G) as [(e & n & s & t & x & d & _ & _ & _ & Hd & Pd & _)].
    unfold risk_decimal. rewrite (proj2 (plain_number_unsigned _ _ "approved_quantity" true d) (conj Hd (fun _ => Pd))). cbn [rbind opt_is_none].
    rewrite Q, Hk, K. reflexivity.
  - destruct (exit_quantity_positive r Hr A) as (q & Hq & Pq). unfold risk_decimal.
    rewrite (proj2 (plain_number_unsigned _ _ "approved_quantity" true q) (conj Hq (fun _ => Pq))). cbn [rbind].
    rewrite bool_decide_false, !bool_decide_true by done. cbn [andb]. rewrite (proj1 Hq). cbn [rbind].
    by rewrite (proj2 (deqb_spec q q)).
  - reflexivity.
Qed.

Section Authorize.
Context {r : risk_request} {m : managed_state} {k : kill_state} {c : circuit_assessment} {p : option protective_assessment}.
Hypothesis Hr : request_valid r.
Hypothesis Hg : forall g, p = Some g -> gate_chain_valid g.

Lemma new_decision_decides d : kill_switch_active (rq_portfolio r) = active k -> (forall g, p = Some g -> gate_request g = r) ->
  decides r k c p d -> new_risk_decision d = Ok d.
Proof using Hr Hg.
  intros Hk Hgr Hd. destruct (decides_valid r k c p d Hr (fun g E => conj (Hgr g E) (Hg g E)) Hk Hd) as [E _].
  unfold new_risk_decision. by rewrite E.
Qed.

Lemma decision_for_consistent : consistent r m k c p -> exists d, _decision_for r m k c p = Ok d /\ decides r k c p d.
Proof using Hr Hg.
  intros [[C1 C2] C3 C4 C5 C6]. unfold _decision_for. rewrite !bool_decide_true by done. cbn [negb orb].
  rewrite C3, Bool.eqb_reflx. cbn [negb].
  assert (match p with Some a => negb (bool_decide (gate_request a = r)) | None => false end = false) as ->.
  { destruct p as [g|]; [|done]. by rewrite bool_decide_true by by apply C4. }
  assert (forall d, decides r k c p d -> exists d', new_risk_decision d = Ok d' /\ decides r k c p d') as Hnew.
  { intros d Hd. exists d. split; [|done]. by apply new_decision_decides. }
  destruct (sd_action (rq_decision r)) eqn:A.
  - rewrite (C6 ltac:(done)) in *. cbn [opt_is_none negb]. apply Hnew. by apply dc_none.
  - destruct (C5 eq_refl) as (L1 & L2 & L3). rewrite !bool_decide_true by done. cbn [negb orb].
    destruct (active k) eqn:K; cbn [negb]; [rewrite andb_false_r; apply Hnew; by apply dc_killed|].
    rewrite (bool_decide_true _ (L3 eq_refl)). cbn [negb andb orb].
    destruct (bool_decide_reflect (rq_evidence r = QUALIFIED_FOR_P4_RESEARCH)) as [Q|Q]; cbn [negb]; [|apply Hnew; by apply dc_unqualified].
    destruct p as [g|]; [|apply Hnew; apply dc_pending; done].
    destruct (bool_decide_reflect (pa_status g = GATE_PASS)) as [G|G]; cbn [negb].
    + apply Hnew. apply dc_entry; [done|done|done|by apply L3|done].
    + apply Hnew. apply dc_pending; [done|done|done|]. by intros g' [= <-].
  - rewrite (C6 ltac:(done)) in *. cbn [opt_is_none negb]. apply Hnew. by apply dc_exit.
Qed.

Lemma decision_for_ok d : _decision_for r m k c p = Ok d -> consistent r m k c p.
Proof using.
  clear Hr Hg. unfold _decision_for. destruct (negb _ || negb _) eqn:E1; [done|]. apply orb_false_iff in E1 as [E1 E2].
  apply negb_false_iff, bool_decide_eq_true in E1, E2. destruct (negb (Bool.eqb _ _)) eqn:E3; [done|].
  apply negb_false_iff, Bool.eqb_prop in E3. destruct (match p with Some _ => _ | None => _ end) eqn:E4; [done|]. intros H.
  constructor; [done|done| | |].
  - intros g ->. by apply negb_false_iff, bool_decide_eq_true in E4.
  - intros A. rewrite A in H. destruct (negb _ || negb _) eqn:E5 in H; [done|]. apply orb_false_iff in E5 as [E5 E6].
    apply negb_false_iff, bool_decide_eq_true in E5, E6. split; [done|]. split; [done|]. intros K. rewrite K in H.
    destruct (negb (bool_decide (ca_triggered c = [])) && _) eqn:E7 in H; [done|]. rewrite andb_true_r in E7.
    by apply negb_false_iff, bool_decide_eq_true in E7.
  - intros A. destruct (sd_action (rq_decision r)); [|done|]; destruct p; done.
Qed.

(** What is refused is refused by the module's own exception. *)
Lemma decision_for_error e : _decision_for r m k c p = Err e -> exn_cls e = RiskAdapterError.
Proof using Hr Hg.
  intros H. destruct (exn_class_eq_dec (exn_cls e) RiskAdapterError) as [|Hne]; [done|exfalso].
  assert (consistent r m k c p) as Hc; [|destruct (decision_for_consistent Hc) as (d & E & _); congruence].
  unfold _decision_for in H. destruct (negb _ || negb _) eqn:E1 in H; [injection H as <-; done|]. apply orb_false_iff in E1 as [E1 E2].
  apply negb_false_iff, bool_decide_eq_true in E1, E2. destruct (negb (Bool.eqb _ _)) eqn:E3 in H; [injection H as <-; done|].
  apply negb_false_iff, Bool.eqb_prop in E3. destruct (match p with Some _ => _ | None => _ end) eqn:E4 in H; [injection H as <-; done|].
  constructor; [done|done| | |].
  - intros g ->. by apply negb_false_iff, bool_decide_eq_true in E4.
  - intros A. rewrite A in H. destruct (negb _ || negb _) eqn:E5 in H; [injection H as <-; done|]. apply orb_false_iff in E5 as [E5 E6].
    apply negb_false_iff, bool_decide_eq_true in E5, E6. split; [done|]. split; [done|]. intros K. rewrite K in H.
    destruct (negb (bool_decide (ca_triggered c = [])) && _) eqn:E7 in H; [injection H as <-; done|]. rewrite andb_true_r in E7.
    by apply negb_false_iff, bool_decide_eq_true in E7.
  - intros A. destruct (sd_action (rq_decision r)); [|done|]; destruct p; try done; injection H as <-; done.
Qed.
End Authorize.

Lemma authorize_spec r m k c p : request_valid r -> (forall g, p = Some g -> gate_chain_valid g) ->
  (consistent r m k c p /\ exists d, decides r k c p d /\ _decision_for r m k c p = Ok d
     /\ authorize_paper_request r m k c p = Ok (RiskAuthorization r m k c p d))
  \/ (~ consistent r m k c p /\ exists e, authorize_paper_request r m k c p = Err e /\ exn_cls e = RiskAdapterError).
Proof.
  intros Hr Hg. unfold authorize_paper_request. destruct (_decision_for r m k c p) as [d|e] eqn:E.
  - left. pose proof (decision_for_ok d E) as Hc. split; [done|]. destruct (decision_for_consistent Hr Hg Hc) as (d' & E' & Hd).
    rewrite E in E'. injection E' as <-. exists d. split; [done|]. split; [done|]. cbn [rbind]. unfold new_authorization, authorization_post_init.
    cbn [au_request au_managed au_kill au_circuit au_protective au_decision]. rewrite E. cbn [rbind]. rewrite bool_decide_true by done.
    destruct (decides_valid r k c p d Hr (fun g Eg => conj (cn_gate _ _ _ _ _ Hc g Eg) (Hg g Eg)) (cn_kill _ _ _ _ _ Hc) Hd) as [_ ->].
    rewrite bool_decide_true by done. done.
  - right. split; [|exists e; split; [done|exact (decision_for_error Hr Hg e E)]].
    intros Hc. destruct (decision_for_consistent Hr Hg Hc) as (d' & E' & _). congruence.
Qed.

(** No breaker of the managed state holds when its constructed assessment found none. *)
Lemma clear_circuit c : request_valid (ca_request c) -> managed_valid (ca_managed c) -> circuit_is_valid c -> ca_triggered c = [] ->
  forall b, ~ breaker_active (ca_managed c) b.
Proof.
  intros Hr Hm Hc Ht b. destruct (circuit_valid_inv c Hc) as (v & E & Ec).
  assert (rq_portfolio (ca_request c) = projection (ca_managed c) (kill_switch_active (rq_portfolio (ca_request c)))) as Hp.
  { unfold _circuit_values in E. rewrite (to_risk_state_total _ _ Hm) in E. cbn [rbind] in E.
    destruct (negb _) eqn:En in E; [done|]. by apply negb_false_iff, bool_decide_eq_true in En. }
  destruct (circuit_values_exact (policy_frozen _ (rv_policy _ Hr)) Hm Hp) as (v' & E' & Hv & _). rewrite E in E'. injection E' as <-.
  rewrite <- (cs_triggered _ _ _ Hv b). pose proof (f_equal ca_triggered Ec) as Et. cbn [circuit_texts ca_triggered] in Et.
  rewrite <- Et, Ht. apply not_elem_of_nil.
Qed.

(** An authorization built through the constructors of all its parts. *)
Record authorization_valid (a : authorization) : Prop := {
  av_request : request_valid (au_request a);
  av_gate : forall g, au_protective a = Some g -> gate_chain_valid g;
  av_self : authorization_post_init a = Ok tt;
}.

Lemma authorization_facts a : authorization_valid a ->
  consistent (au_request a) (au_managed a) (au_kill a) (au_circuit a) (au_protective a)
  /\ decides (au_request a) (au_kill a) (au_circuit a) (au_protective a) (au_decision a)
  /\ risk_decision_post_init (au_decision a) = Ok tt /\ rd_request (au_decision a) = au_request a.
Proof.
  intros [Hr Hg Hs]. unfold authorization_post_init in Hs. destruct (_decision_for _ _ _ _ _) as [d|] eqn:E; [|done]. cbn [rbind] in Hs.
  destruct (_ || _) eqn:E1 in Hs; [done|]. clear Hs. apply orb_false_iff in E1 as [E1 _]. apply negb_false_iff, bool_decide_eq_true in E1. subst d.
  pose proof (decision_for_ok _ E) as Hc. destruct (decision_for_consistent Hr Hg Hc) as (d & E' & Hd). rewrite E in E'. injection E' as <-.
  split; [done|]. split; [done|].
  exact (decides_valid _ _ _ _ _ Hr (fun g Eg => conj (cn_gate _ _ _ _ _ Hc g Eg) (Hg g Eg)) (cn_kill _ _ _ _ _ Hc) Hd).
Qed.

(** ** The gateway *)

(** The engine's bracket and the adapter's memory describe one position. *)
Definition adapter_inv (a : risk_adapter) : Prop :=
  str_in (ra_symbol a) SYMBOLS = true /\ engine_inv (ra_engine a)
  /\ match ra_engine a with
     | Some p => ra_active_quantity a = Some (quantity p)
                 /\ exists s, ra_active_setup a = Some s /\ stop_price p = invalidation_price s /\ target_price p = setup_target_price s
     | None => ra_active_quantity a = None /\ ra_active_setup a = None
     end.

Record accepted_step (a : risk_adapter) (ev : decision_event) (au : authorization) (bar : candle) (s : adapter_step) (b : risk_adapter) : Prop := {
  ap_authorization : as_authorization s = au;
  ap_expected : expected_outcome (sd_action (rq_decision (au_request au))) (disposition (au_decision au)) = Some (as_outcome s, pi_action (as_intent s));
  ap_lifecycle : lifecycle (ra_symbol a) ev bar (ra_engine a) (as_intent s) (ra_engine b) (as_fills s);
  ap_valid : Forall reference_valid (as_fills s);
  ap_identity : ra_identity b = ra_identity a /\ ra_symbol b = ra_symbol a;
  ap_quantity : as_outcome s = ENTRY_APPROVED -> pi_quantity (as_intent s) = approved_quantity (au_decision au);
  ap_order : ra_last_sequence b = Some (match ra_last_sequence a with Some n => n + 1 | None => 0 end)
    /\ ra_last_time b = Some (ev_decision_time_ms ev) /\ (forall t, ra_last_time a = Some t -> t < ev_decision_time_ms ev);
}.

Lemma reconstruct_valid au : authorization_valid au -> reconstruct au = Ok tt.
Proof.
  intros Ha. destruct (authorization_facts au Ha) as (_ & _ & Hd & _). destruct Ha as [Hr _ Hs].
  unfold reconstruct. destruct (rv_context _ Hr) as (H1 & H2 & H3). unfold snapshot_valid in H2. rewrite H1, H2, H3, (rv_decision _ Hr), Hd, Hs. done.
Qed.

Record intent_facts (a : risk_adapter) (au : authorization) (o : adapter_outcome) (i : paper_intent) : Prop := {
  if_valid : intent_valid i;
  if_time : pi_decision_time_ms i = sd_decision_time_ms (rq_decision (au_request au));
  if_expected : expected_outcome (sd_action (rq_decision (au_request au))) (disposition (au_decision au)) = Some (o, pi_action i);
  if_flat : o = ENTRY_APPROVED \/ o = ENTRY_BLOCKED -> ra_engine a = None;
  if_entry : o = ENTRY_APPROVED -> exists q s, approved_quantity (au_decision au) = Some q /\ pi_quantity i = Some q
    /\ sd_setup (rq_decision (au_request au)) = Some s
    /\ pi_stop_price i = Some (invalidation_price s) /\ pi_target_price i = Some (setup_target_price s);
  if_hold : o <> ENTRY_APPROVED -> pi_action i <> ENTER_LONG;
}.

Lemma hold_intent_ok t : 0 < t -> t mod HOUR_MS = 0 -> hold_intent t = Ok (PaperIntent HOLD t None None None).
Proof. intros H1 H2. unfold hold_intent, new_intent. by rewrite (plain_intent_valid HOLD t ltac:(done) H1 H2). Qed.

Lemma intent_spec a au : authorization_valid au ->
  match _intent a au with
  | Ok (o, i) => intent_facts a au o i
  | Err e => exn_cls e = RiskAdapterError
  end.
Proof.
  intros Ha. destruct (authorization_facts au Ha) as (Hc & Hd & _ & _). destruct Ha as [Hr Hg _].
  destruct (decision_time_aligned _ (rv_context _ Hr)) as [T1 T2]. fold (sd_decision_time_ms (rq_decision (au_request au))) in T1, T2.
  unfold _intent. set (t := sd_decision_time_ms (rq_decision (au_request au))) in *. rewrite (hold_intent_ok t T1 T2). cbn [rbind].
  pose proof (plain_intent_valid HOLD t ltac:(done) T1 T2) as VH.
  assert (forall o d, expected_outcome (sd_action (rq_decision (au_request au))) d = Some (o, HOLD) -> d = disposition (au_decision au) ->
    o <> ENTRY_APPROVED -> (o = ENTRY_BLOCKED -> ra_engine a = None) -> intent_facts a au o (PaperIntent HOLD t None None None)) as Hhold.
  { intros o d E -> Ho Hfl. constructor; try done. intros [-> | ->]; [done|by apply Hfl]. }
  unfold ra_has_position. destruct (ra_engine a) as [pos|] eqn:Ee; cbn [has_position opt_is_none negb].
  - destruct (sd_action (rq_decision (au_request au))) eqn:A.
    + destruct (_ && _ && _ && _) eqn:E; [|done]. rewrite !andb_true_iff in E. destruct E as [[[_ _] E] _]. apply bool_decide_eq_true in E.
      apply (Hhold _ NO_ACTION); [done|done|done|done].
    + done.
    + destruct (bool_decide_reflect (disposition (au_decision au) = APPROVE_PAPER)) as [D|D]; [|done]. cbn [negb].
      destruct (negb _); [done|]. unfold new_intent. rewrite (plain_intent_valid EXIT_LONG t ltac:(done) T1 T2). cbn [rbind].
      constructor; [exact (plain_intent_valid EXIT_LONG t ltac:(done) T1 T2)|done|by rewrite A, D|by intros [Hx|Hx]|done|done].
  - destruct (sd_action (rq_decision (au_request au))) eqn:A.
    + destruct (_ && _ && _) eqn:E; [|by destruct (disposition (au_decision au))]. rewrite !andb_true_iff in E. destruct E as [_ E].
      apply bool_decide_eq_true in E. apply (Hhold _ NO_ACTION); done.
    + destruct (disposition (au_decision au)) eqn:D; [done| |].
      * apply (Hhold _ REJECT); done.
      * destruct (sd_setup (rq_decision (au_request au))) as [setup|] eqn:Es.
        2: { exfalso. pose proof (rv_decision _ Hr) as Hdec. unfold decision_post_init in Hdec. rewrite A, Es in Hdec. done. }
        pose proof (rv_setup _ Hr) as Hset. rewrite Es in Hset.
        assert (exists g, au_protective au = Some g /\ approved_quantity (au_decision au) = Some (pa_quantity g) /\ pa_status g = GATE_PASS)
          as (g & Eg & Eq & G).
        { clear - Hd D A. destruct Hd; cbn [disposition] in D; try done; [by eexists|congruence]. }
        pose proof (cn_gate _ _ _ _ _ Hc g Eg) as Er. pose proof Hr as Hr'. rewrite <- Er in Hr'.
        destruct (passed_gate_safe g Hr' (Hg g Eg) G) as [(e & n & s & x & y & d & _ & _ & _ & Hq & Pq & _)].
        rewrite Eq. unfold new_intent. rewrite (entry_intent_valid t (pa_quantity g) setup d T1 T2 Hq Pq Hset). cbn [rbind].
        constructor; [exact (entry_intent_valid t (pa_quantity g) setup d T1 T2 Hq Pq Hset)|done|by rewrite A, D|done| |done].
        intros _. by exists (pa_quantity g), setup.
    + by destruct (disposition (au_decision au)).
Qed.

Lemma validate_spec a ev au : authorization_valid au -> event_valid ev ->
  match _validate_step a ev au with
  | Ok _ => sd_decision_time_ms (rq_decision (au_request au)) = ev_decision_time_ms ev /\ ms_symbol (ev_snapshot ev) = ra_symbol a
      /\ ev_sequence ev = (match ra_last_sequence a with Some n => n + 1 | None => 0 end)
      /\ (forall t, ra_last_time a = Some t -> t < ev_decision_time_ms ev)
  | Err e => exn_cls e = RiskAdapterError
  end.
Proof.
  intros Ha Hev. unfold _validate_step. destruct (_ || _ || _ || _ || _) eqn:E1; [done|]. rewrite (reconstruct_valid au Ha). cbn [rcatch rbind].
  rewrite !orb_false_iff in E1. destruct E1 as [[[[_ _] E3] E4] _]. destruct (_ || _) eqn:E2; [done|]. apply orb_false_iff in E2 as [E2 E5].
  split; [lia|]. split; [by apply negb_false_iff, String.eqb_eq in E3|]. split; [lia|].
  intros t Et. rewrite Et in E5. unfold opt_le in E5. lia.
Qed.

(** The fills of a lifecycle step fit the outcome, so the step record is accepted. *)
Lemma step_accepted a ev au bar o i e fills : authorization_valid au -> intent_facts a au o i ->
  lifecycle (ra_symbol a) ev bar (ra_engine a) i e fills -> step_post_init (RiskAdapterStep au o i fills) = Ok tt.
Proof.
  intros Ha [_ Ht Hexp Hflat Hentry Hhold] Hl. destruct (authorization_facts au Ha) as (_ & _ & _ & Hrd).
  pose proof (rv_request _ (av_request _ Ha)) as Hreq. unfold step_post_init. cbn [as_fills as_authorization as_outcome as_intent]. rewrite Hrd, Hexp.
  assert ((2 <? length fills)%nat = false) as -> by by destruct Hl. rewrite bool_decide_true by done. cbn [negb].
  assert (sd_decision_time_ms (rq_decision (au_request au)) = prs_decision_time_ms (rq_portfolio (au_request au))) as Et.
  { unfold request_post_init in Hreq. destruct (_ || _) eqn:E in Hreq; [done|]. apply orb_false_iff in E as [_ E]. lia. }
  rewrite Ht, Et, Z.eqb_refl. cbn [negb]. destruct o; [| |done|done].
  - destruct (Hentry eq_refl) as (q & s & Eq & Eqi & _). rewrite Eqi, Eq. rewrite bool_decide_true by done. cbn [negb].
    assert (pi_action i = ENTER_LONG) as Hact.
    { destruct (sd_action (rq_decision (au_request au))), (disposition (au_decision au)); try done. by injection Hexp as <-. }
    rewrite (Hflat (or_introl eq_refl)) in Hl. inversion Hl; subst; try congruence; cbn [entry_of fr_action fr_quantity];
      rewrite !bool_decide_true by (done || congruence); done.
  - rewrite (Hflat (or_intror eq_refl)) in Hl. assert (pi_action i = HOLD) as Hact.
    { destruct (sd_action (rq_decision (au_request au))), (disposition (au_decision au)); try done. by injection Hexp as <-. }
    inversion Hl; subst; try congruence. done.
Qed.

Lemma ra_process_spec a ev au bar b out : adapter_inv a -> authorization_valid au -> event_valid ev -> candle_valid bar ->
  ra_process ev au bar a = (b, out) ->
  match out with
  | Ok s => accepted_step a ev au bar s b /\ adapter_inv b
  | Err e => exn_cls e = RiskAdapterError /\ b = a
  end.
Proof.
  intros (Isym & Ieng & Imem) Ha Hev Hbar H. unfold ra_process, sbind, sget, slift, sput, sret in H.
  pose proof (validate_spec a ev au Ha Hev) as Hv. destruct (_validate_step a ev au) as [u|e]; [|injection H as <- <-; done].
  destruct Hv as (Vt & Vs & Vq & Vo). pose proof (intent_spec a au Ha) as Hi.
  destruct (_intent a au) as [[o i]|e]; [|injection H as <- <-; done]. cbn [fst snd] in H. pose proof Hi as [Hval Htime Hexp Hflat Hentry Hhold].
  unfold engine_process in H. destruct (process (ra_symbol a) ev i bar (ra_engine a)) as [e1 out1] eqn:Ep.
  pose proof (process_spec (ra_symbol a) ev i bar (ra_engine a) e1 out1 ltac:(by split) Ieng Ep) as Hp.
  destruct out1 as [fills|x].
  2: { destruct Hp as [Hx ->]. cbn [rcatch] in H. rewrite bool_decide_true in H by (rewrite Hx; in_list). injection H as <- <-.
       split; [done|]. by destruct a. }
  destruct Hp as (Hl & Hinv & Hfills). cbn [rcatch] in H. rewrite (step_accepted a ev au bar o i e1 fills Ha Hi Hl) in H.
  assert (ra_has_position (with_engine e1 a) = has_position e1) as Epos by done. rewrite Epos in H.
  set (act := if has_position e1 then _ else _) in H.
  assert (ra_engine act = e1 /\ ra_identity act = ra_identity a /\ ra_symbol act = ra_symbol a
          /\ ra_last_sequence act = ra_last_sequence a
          /\ match e1 with
             | Some p => ra_active_quantity act = Some (quantity p)
                 /\ exists s, ra_active_setup act = Some s /\ stop_price p = invalidation_price s /\ target_price p = setup_target_price s
             | None => ra_active_quantity act = None /\ ra_active_setup act = None
             end) as (A1 & A2 & A3 & A4 & A5).
  { unfold act. destruct e1 as [p|]; cbn [has_position opt_is_none negb]; [|done]. case_bool_decide as Eo; (split; [done|]; do 3 (split; [done|])); cbn.
    - destruct (Hentry Eo) as (q & s & Eq & Eqi & Es & Est & Etg). rewrite (Hflat (or_introl Eo)) in Hl. inversion Hl; subst; try congruence.
      split; [congruence|]. exists s. split; [done|]. split; congruence.
    - inversion Hl; subst; [|exfalso; by apply (Hhold Eo)]. match goal with H : _ = ra_engine a |- _ => rewrite <- H in Imem end. exact Imem. }
  clearbody act. assert (Bool.eqb (ra_has_position act) (negb (opt_is_none (ra_active_quantity act))) = true) as Eb.
  { unfold ra_has_position. rewrite A1. destruct e1 as [p|]; destruct A5 as [-> _]; done. }
  rewrite Eb in H. cbn [negb] in H. injection H as <- <-. split.
  - constructor; cbn [as_authorization as_outcome as_intent as_fills with_last ra_engine ra_identity ra_symbol ra_last_sequence ra_last_time];
      [done|done|by rewrite A1|done|done| |by rewrite Vq].
    intros Eo. destruct (Hentry Eo) as (q & s & Eq & Eqi & _). congruence.
  - unfold adapter_inv. cbn [with_last ra_engine ra_symbol ra_active_quantity ra_active_setup]. rewrite A1, A3. done.
Qed.

(** ** Whole sessions *)

(** Evidence built by its constructors, circuit assessment and managed state included. *)
Definition evidence_valid (au : authorization) : Prop :=
  authorization_valid au /\ managed_valid (au_managed au) /\ circuit_is_valid (au_circuit au).

(** What stands behind an entry of [q] units under an authorization. *)
Record approved_entry (au : authorization) (q : string) : Prop := {
  ae_decision : au_decision au = RiskDecision (au_request au) APPROVE_PAPER RISK_CHECKS_PASSED (Some q);
  ae_evidence : rq_evidence (au_request au) = QUALIFIED_FOR_P4_RESEARCH;
  ae_killed : active (au_kill au) = false /\ last_circuit_sha256 (au_kill au) = Some (circuit_sha256 (au_circuit au));
  ae_clear : forall b, ~ breaker_active (au_managed au) b;
  ae_safe : safe_entry (au_request au) q;
}.

Lemma approval_safe au q : evidence_valid au -> sd_action (rq_decision (au_request au)) = SEnterLong ->
  disposition (au_decision au) = APPROVE_PAPER -> approved_quantity (au_decision au) = Some q -> approved_entry au q.
Proof.
  intros (Ha & Hm & Hc) A D Q. destruct (authorization_facts au Ha) as (Hcons & Hd & _ & _). pose proof (av_gate _ Ha) as Hg.
  pose proof (av_request _ Ha) as Hr. pose proof (cn_gate _ _ _ _ _ Hcons) as Hgr.
  destruct (cn_entry _ _ _ _ _ Hcons A) as (L1 & _ & L3). destruct (cn_circuit _ _ _ _ _ Hcons) as [C1 C2].
  assert (exists g, au_protective au = Some g /\ rq_evidence (au_request au) = QUALIFIED_FOR_P4_RESEARCH /\ active (au_kill au) = false
    /\ ca_triggered (au_circuit au) = [] /\ pa_status g = GATE_PASS
    /\ au_decision au = RiskDecision (au_request au) APPROVE_PAPER RISK_CHECKS_PASSED (Some (pa_quantity g)))
    as (g & Ep & E & K & T & G & Ed).
  { clear - Hd A D. destruct Hd as [p A' _|p A' _ _|p A' _ _ _|g A' K E T G|A'|A']; cbn [disposition] in D; try done; [|congruence]. by exists g. }
  rewrite Ed in Q. injection Q as <-. pose proof (Hgr g Ep) as Eg. constructor; [done|done|done| |].
  - rewrite <- C2. apply clear_circuit; [by rewrite C1|by rewrite C2|done|done].
  - rewrite <- Eg in Hr |- *. by apply passed_gate_safe; [|apply Hg|].
Qed.

(** [process] on each input in turn, the caller continuing after a RiskAdapterError. *)
Fixpoint managed_session (inputs : list (decision_event * authorization * candle)) (a : risk_adapter) : risk_adapter * list adapter_step :=
  match inputs with
  | [] => (a, [])
  | (ev, au, bar) :: rest =>
      let '(a1, out) := ra_process ev au bar a in
      let '(a2, more) := managed_session rest a1 in
      (a2, match out with Ok s => s :: more | Err _ => more end)
  end.

Definition session_input (x : decision_event * authorization * candle) : Prop :=
  event_valid (fst (fst x)) /\ evidence_valid (snd (fst x)) /\ candle_valid (snd x).

Definition session_fills (steps : list adapter_step) : list fill_reference := concat (map as_fills steps).

(** A step of the session used one of the inputs, and its entries were approved in it. *)
Definition approved_step (inputs : list (decision_event * authorization * candle)) (s : adapter_step) : Prop :=
  exists ev bar, (ev, as_authorization s, bar) ∈ inputs
    /\ forall f, f ∈ as_fills s -> fr_action f = ENTER_LONG -> approved_entry (as_authorization s) (fr_quantity f).

Lemma entry_fill_approved a ev au bar s b f : evidence_valid au -> accepted_step a ev au bar s b -> f ∈ as_fills s ->
  fr_action f = ENTER_LONG -> approved_entry au (fr_quantity f).
Proof.
  intros He H Hf Hact. destruct H as [_ Hexp Hl _ _ Hq _].
  assert (pi_action (as_intent s) = ENTER_LONG /\ pi_quantity (as_intent s) = Some (fr_quantity f)) as [A Q].
  { inversion Hl as [i Hi Hx Hy Hz|i p Hi Hx Hy|i p price reason Hi Hx|i p Hi|i p Hi Hn Hs Ht|i p price reason Hi Hn Hs Ht];
      match goal with E : _ = as_fills s |- _ => rewrite <- E in Hf end.
    - by apply not_elem_of_nil in Hf.
    - by apply not_elem_of_nil in Hf.
    - apply list_elem_of_singleton in Hf as ->. discriminate Hact.
    - apply list_elem_of_singleton in Hf as ->. discriminate Hact.
    - apply list_elem_of_singleton in Hf as ->. by split.
    - apply elem_of_cons in Hf as [-> | Hf]; [by split|]. apply list_elem_of_singleton in Hf as ->. discriminate Hact. }
  rewrite A in Hexp. destruct (sd_action (rq_decision (au_request au))) eqn:Es, (disposition (au_decision au)) eqn:Ed; try discriminate Hexp.
  injection Hexp as Eo. apply approval_safe; [done|done|done|]. by rewrite <- Hq.
Qed.

Lemma session_safe inputs a b steps : Forall session_input inputs -> adapter_inv a -> managed_session inputs a = (b, steps) ->
  trade_log (quantity <$> ra_engine a) (session_fills steps) = Some (quantity <$> ra_engine b)
  /\ adapter_inv b /\ Forall (approved_step inputs) steps.
Proof.
  revert a b steps. induction inputs as [|[[ev au] bar] rest IH]; intros a b steps Hin Ha; simpl.
  - intros [= <- <-]. done.
  - inversion_clear Hin as [|? ? (Hev & He & Hbar) Hrest]. cbn [fst snd] in *.
    destruct (ra_process ev au bar a) as [a1 out] eqn:E, (managed_session rest a1) as [a2 more] eqn:Em. intros [= <- <-].
    pose proof (ra_process_spec a ev au bar a1 out Ha (proj1 He) Hev Hbar E) as Hs.
    assert (forall l', Forall (approved_step rest) l' -> Forall (approved_step ((ev, au, bar) :: rest)) l') as Hmore.
    { intros l' Hl. eapply Forall_impl; [exact Hl|]. intros s (ev' & bar' & Hx & Hy). exists ev', bar'. split; [by apply list_elem_of_further|done]. }
    destruct out as [s|e].
    + destruct Hs as [Hacc Ha1]. destruct (IH a1 a2 more Hrest Ha1 Em) as (Hlog & Hinv & Hsteps). split; [|split; [done|]].
      * unfold session_fills. cbn [map concat]. rewrite (trade_log_app _ _ _ _ (lifecycle_log _ _ _ _ _ _ _ (ap_lifecycle _ _ _ _ _ _ Hacc))). done.
      * constructor; [|by apply Hmore]. exists ev, bar. rewrite (ap_authorization _ _ _ _ _ _ Hacc). split; [by apply list_elem_of_here|].
        intros f. by apply (entry_fill_approved a ev au bar s a1 f).
    + destruct Hs as [_ ->]. destruct (IH a a2 more Hrest Ha Em) as (Hlog & Hinv & Hsteps). split; [done|]. split; [done|by apply Hmore].
Qed.

(** * Claims *)

(** Paper authorizations are sound and complete.  For a valid request and a
    constructed gate, an authorization is given exactly when the evidence is
    consistent (it is about this request and state, an entry has consumed the
    latest circuit evidence and no breaker is left unlatched, a non-entry has no
    gate); its decision is then the specified one, and an approved quantity is
    the gate's, or for an exit the whole position.  Everything else is a
    RiskAdapterError. *)
Theorem paper_authorization_sound r m k c p (Hr : request_valid r) (Hg : forall g, p = Some g -> gate_chain_valid g) :
  match authorize_paper_request r m k c p with
  | Ok au => consistent r m k c p /\ exists d, decides r k c p d /\ au = RiskAuthorization r m k c p d
  | Err e => ~ consistent r m k c p /\ exn_cls e = RiskAdapterError
  end.
Proof.
  destruct (authorize_spec r m k c p Hr Hg) as [(Hc & d & Hd & _ & ->)|(Hc & e & -> & He)]; [|done].
  split; [done|]. by exists d.
Qed.

(** C20. No unapproved paper trade.  Over any session of a fresh adapter with
    constructed evidence, failing steps included, the fills form a legal Spot
    trade log that ends holding the engine's position (a refused step is a
    RiskAdapterError that changes nothing), the adapter remembers that
    position's quantity and levels, and every entry fill bought exactly the
    quantity its own authorization approved, on qualified evidence, with the kill
    switch released over that very circuit evidence, no breaker's condition
    holding, and the quantity safe: whole steps, planned loss within 1% of the
    equity, exposure within a quarter, covered by cash, reward positive. *)
Theorem managed_session_safe i sym a inputs b steps (Hnew : new_risk_adapter i sym = Ok a) (Hin : Forall session_input inputs)
    (Hrun : managed_session inputs a = (b, steps)) :
  trade_log None (session_fills steps) = Some (quantity <$> ra_engine b)
  /\ adapter_inv b /\ Forall (approved_step inputs) steps.
Proof.
  assert (adapter_inv a /\ ra_engine a = None) as [Ha He].
  { unfold new_risk_adapter in Hnew. destruct (negb _) in Hnew; [done|]. destruct (negb _) eqn:E in Hnew; [done|].
    unfold new_engine in Hnew. rewrite E in Hnew. injection Hnew as <-. apply negb_false_iff in E. done. }
  pose proof (session_safe inputs a b steps Hin Ha Hrun) as H. by rewrite He in H.
Qed.

(** The sample request with its gate, a flat managed state, clear circuit
    evidence and a kill switch that was released over it. *)
Definition flat_state : managed_state :=
  ManagedPortfolioState "BTCUSDT" 4 sample_time 0 "10000" "10000" "10000" "0" "100" "10000" "0" 0 0 "0"
    (Some (digest (JStr "p"))) (digest (JStr "o")).
Definition flat_circuit : circuit_assessment :=
  CircuitAssessment sample_entry_request flat_state CLEAR CR_WITHIN_LIMITS [] "0" "200.00" "0" "1000.00" 0 3.
Definition released_kill : kill_state :=
  KillSwitchState INACTIVE CIRCUIT_CLEAR 2 sample_time [] (Some sample_time) (Some (circuit_sha256 flat_circuit))
    (Some (digest (JStr "p"))) (digest (JStr "o")).
Definition sample_assessment : protective_assessment :=
  Eval vm_compute in match assess_protective_entry limited_sample with
                     | Ok g => g
                     | Err _ => gate_texts limited_sample (GateValues GATE_REJECT PRIOR_LIMIT_REJECTED dec0 dec0 dec0 dec0 dec0 dec0 dec0 dec0 dec0 dec0 dec0 dec0 dec0)
                     end.

Lemma sample_assessment_valid : gate_chain_valid sample_assessment /\ gate_request sample_assessment = sample_entry_request
  /\ pa_status sample_assessment = GATE_PASS.
Proof.
  split; [|split; vm_compute; reflexivity].
  constructor; [exact (proj2 sized_sample_valid)|exact limited_sample_valid|]. unfold gate_is_valid. vm_compute. reflexivity.
Qed.

Lemma flat_circuit_valid : circuit_is_valid flat_circuit /\ managed_valid flat_state.
Proof. split; vm_compute; reflexivity. Qed.

Lemma sample_consistent : consistent sample_entry_request flat_state released_kill flat_circuit (Some sample_assessment).
Proof.
  split; [done|done| |done|].
  - intros g [= <-]. exact (proj1 (proj2 sample_assessment_valid)).
  - intros H. exfalso. by apply H.
Qed.

Definition sample_authorization : authorization :=
  RiskAuthorization sample_entry_request flat_state released_kill flat_circuit (Some sample_assessment)
    (RiskDecision sample_entry_request APPROVE_PAPER RISK_CHECKS_PASSED (Some (pa_quantity sample_assessment))).

Lemma sample_gate_valid g : Some sample_assessment = Some g -> gate_chain_valid g.
Proof. intros [= <-]. exact (proj1 sample_assessment_valid). Qed.

Lemma sample_decides d : decides sample_entry_request released_kill flat_circuit (Some sample_assessment) d ->
  d = au_decision sample_authorization.
Proof.
  intros H. remember (Some sample_assessment) as p eqn:Ep. destruct H as [q _ K|q _ _ Q|q _ _ _ G|g _ _ _ _ _|A|A]; try discriminate.
  - exfalso. by apply Q.
  - exfalso. by apply (G sample_assessment Ep (proj2 (proj2 sample_assessment_valid))).
  - by injection Ep as ->.
Qed.

Lemma sample_evidence : evidence_valid sample_authorization.
Proof.
  split; [|split; [exact (proj2 flat_circuit_valid)|exact (proj1 flat_circuit_valid)]].
  constructor; [exact sample_entry_valid|exact sample_gate_valid|].
  destruct (decision_for_consistent sample_entry_valid sample_gate_valid sample_consistent) as (d & E & Hd).
  unfold authorization_post_init. cbn [sample_authorization au_request au_managed au_kill au_circuit au_protective]. rewrite E. cbn [rbind].
  rewrite <- (sample_decides d Hd), bool_decide_true by done. by rewrite (sample_decides d Hd), bool_decide_true.
Qed.

Lemma paper_authorization_sound_witness :
  authorize_paper_request sample_entry_request flat_state released_kill flat_circuit (Some sample_assessment) = Ok sample_authorization.
Proof.
  pose proof (paper_authorization_sound sample_entry_request flat_state released_kill flat_circuit (Some sample_assessment)
                sample_entry_valid sample_gate_valid) as H.
  destruct (authorize_paper_request _ _ _ _ _) as [au|e].
  - destruct H as (_ & d & Hd & ->). by rewrite (sample_decides d Hd).
  - exfalso. apply (proj1 H). exact sample_consistent.
Defined.

Definition sample_gateway_input : decision_event * authorization * candle :=
  (DecisionEvent 0 sample_time sample_time (sc_snapshot pullback_context), sample_authorization,
   Candle DATA_SOURCE "BTCUSDT" "1h" sample_time (sample_time + HOUR_MS - 1) "1020" "1030" "1000" "1025" "50" "1000" 5 true).

Lemma sample_gateway_input_valid : session_input sample_gateway_input.
Proof. split; [vm_compute; reflexivity|]. split; [exact sample_evidence|vm_compute; reflexivity]. Qed.

Definition fresh_adapter : risk_adapter := RiskManagedPaperAdapter TREND_IDENTITY "BTCUSDT" None None None None None.

Lemma fresh_adapter_new : new_risk_adapter TREND_IDENTITY "BTCUSDT" = Ok fresh_adapter.
Proof. reflexivity. Qed.

Lemma sample_inputs_valid : Forall session_input [sample_gateway_input].
Proof. constructor; [exact sample_gateway_input_valid|constructor]. Qed.

Lemma managed_session_safe_witness :
  Forall (approved_step [sample_gateway_input]) (snd (managed_session [sample_gateway_input] fresh_adapter)).
Proof.
  exact (proj2 (proj2 (managed_session_safe TREND_IDENTITY "BTCUSDT" fresh_adapter [sample_gateway_input] _ _
    fresh_adapter_new sample_inputs_valid (surjective_pairing _)))).
Defined.
