(* ===== verification/Execution.v ===== *)
(** * Local paper execution decisions (yatl/execution/contracts.py)

    The frozen local-paper policy, the recovery readiness that startup
    reconciliation establishes, and the routing decision over a complete
    authorization. *)
From S2P Require Import Prelude PyDecimal PyText Digest HashChain Market BacktestConfig MarketView Fills Costs StrategyContracts Features Regime Trend Breakout ExactDec RiskContracts RiskState Sizing Limits Protective Circuit KillSwitch RiskAdapter.

Definition EXECUTION_POLICY_ID : string := "P5_LOCAL_PAPER_V1".

Inductive recovery_status : Type := RECOVERY_REQUIRED | READY.
Inductive recovery_reason : Type := RR_FAIL_CLOSED_STARTUP | RECONCILIATION_FAILED | RECONCILIATION_PASSED.
Inductive execution_disposition : Type := EX_NO_ACTION | BLOCKED | ACCEPT_LOCAL_PAPER.
Inductive execution_reason : Type :=
| EX_NO_STRATEGY_ACTION | RISK_NOT_APPROVED | RECOVERY_NOT_READY | LOCAL_PAPER_AUTHORIZED.
#[global] Instance recovery_status_eq_dec : EqDecision recovery_status.
Proof. solve_decision. Defined.
#[global] Instance recovery_reason_eq_dec : EqDecision recovery_reason.
Proof. solve_decision. Defined.
#[global] Instance execution_disposition_eq_dec : EqDecision execution_disposition.
Proof. solve_decision. Defined.
#[global] Instance execution_reason_eq_dec : EqDecision execution_reason.
Proof. solve_decision. Defined.

Definition recovery_status_value (s : recovery_status) : string :=
  match s with RECOVERY_REQUIRED => "RECOVERY_REQUIRED" | READY => "READY" end.
Definition recovery_reason_value (r : recovery_reason) : string :=
  match r with
  | RR_FAIL_CLOSED_STARTUP => "FAIL_CLOSED_STARTUP" | RECONCILIATION_FAILED => "RECONCILIATION_FAILED"
  | RECONCILIATION_PASSED => "RECONCILIATION_PASSED"
  end.
Definition execution_disposition_value (d : execution_disposition) : string :=
  match d with EX_NO_ACTION => "NO_ACTION" | BLOCKED => "BLOCKED" | ACCEPT_LOCAL_PAPER => "ACCEPT_LOCAL_PAPER" end.
Definition execution_reason_value (r : execution_reason) : string :=
  match r with
  | EX_NO_STRATEGY_ACTION => "NO_STRATEGY_ACTION" | RISK_NOT_APPROVED => "RISK_NOT_APPROVED"
  | RECOVERY_NOT_READY => "RECOVERY_NOT_READY" | LOCAL_PAPER_AUTHORIZED => "LOCAL_PAPER_AUTHORIZED"
  end.

Record execution_policy : Type := LocalPaperExecutionPolicy {
  policy_id : string;
  execution_mode : string;
  ep_paper_only : bool;
  ep_live_master_lock : string;
  ep_spot_only : bool;
  long_only : bool;
  allow_external_transport : bool;
  allow_credentials : bool;
  allow_order_endpoint : bool;
  ep_allow_leverage : bool;
  allow_withdrawal : bool;
  allow_ai_direct_execution : bool;
}.
#[global] Instance execution_policy_eq_dec : EqDecision execution_policy.
Proof. solve_decision. Defined.

(** The defaults of the dataclass. *)
Definition default_execution_policy : execution_policy :=
  LocalPaperExecutionPolicy EXECUTION_POLICY_ID "LOCAL_PAPER" true "OFF" true true false false false false false false.

Definition execution_policy_post_init (p : execution_policy) : result unit :=
  let fixed :=
    String.eqb (policy_id p) EXECUTION_POLICY_ID && String.eqb (execution_mode p) "LOCAL_PAPER" && ep_paper_only p
    && String.eqb (ep_live_master_lock p) "OFF" && ep_spot_only p && long_only p && negb (allow_external_transport p)
    && negb (allow_credentials p) && negb (allow_order_endpoint p) && negb (ep_allow_leverage p)
    && negb (allow_withdrawal p) && negb (allow_ai_direct_execution p) in
  raise_if negb fixed with ExecutionContractError "Execution policy differs from the frozen local Paper policy" ;;
  Ok tt.

Record readiness : Type := RecoveryReadiness {
  rd_status : recovery_status;
  rdn_reason : recovery_reason;
  reconciliation_sha256 : option string;
}.
#[global] Instance readiness_eq_dec : EqDecision readiness.
Proof. solve_decision. Defined.

(** The defaults of the dataclass: fail closed. *)
Definition default_readiness : readiness := RecoveryReadiness RECOVERY_REQUIRED RR_FAIL_CLOSED_STARTUP None.

Definition readiness_post_init (r : readiness) : result unit :=
  let digest_valid := valid_digest (reconciliation_sha256 r) in
  let valid :=
    match rd_status r, rdn_reason r with
    | RECOVERY_REQUIRED, RR_FAIL_CLOSED_STARTUP => opt_is_none (reconciliation_sha256 r)
    | RECOVERY_REQUIRED, RECONCILIATION_FAILED => digest_valid
    | READY, RECONCILIATION_PASSED => digest_valid
    | _, _ => false
    end in
  raise_if negb valid with ExecutionContractError "Recovery status, reason and reconciliation evidence disagree" ;;
  Ok tt.

Definition readiness_payload (r : readiness) : json := JObj [
  ("schema_version", JInt 1); ("status", JStr (recovery_status_value (rd_status r)));
  ("reason", JStr (recovery_reason_value (rdn_reason r)));
  ("reconciliation_sha256", JOptStr (reconciliation_sha256 r))]%string.
Definition readiness_sha256 (r : readiness) : string := digest (readiness_payload r).

(** [ValueError] and its subclasses among the modelled classes: what
    [except (RiskAdapterError, TypeError, ValueError)] catches. *)
Definition VALUE_ERRORS : list exn_class := [
  TypeError; ValueError; CandleValidationError; BacktestConfigError; BacktestContractError; QualityError; HealthError;
  RiskContractError; RiskStateError; RiskSizingError; RiskLimitError; ProtectiveGateError; CircuitBreakerError;
  KillSwitchError; RiskAdapterError; ExecutionContractError].

(** The reconstruction has the same fields, so it equals the original and has
    the same digest; only its constructor can fail. *)
Definition _validate_authorization (a : authorization) : result unit :=
  rcatch (authorization_post_init a) VALUE_ERRORS (Raise ExecutionContractError "P4 authorization failed deterministic reconstruction").

Definition _expected_execution (a : authorization) (r : readiness)
    : result (execution_disposition * execution_reason * intent_action * option string) :=
  let d := au_decision a in
  match disposition d with
  | NO_ACTION => Ok (EX_NO_ACTION, EX_NO_STRATEGY_ACTION, HOLD, None)
  | REJECT => Ok (BLOCKED, RISK_NOT_APPROVED, HOLD, None)
  | APPROVE_PAPER =>
      if negb (bool_decide (rd_status r = READY)) then Ok (BLOCKED, RECOVERY_NOT_READY, HOLD, None)
      else
        let action := match sd_action (rq_decision (rd_request d)) with
                      | SEnterLong => Some ENTER_LONG | SExitLong => Some EXIT_LONG | SNoTrade => None
                      end in
        match action, approved_quantity d with
        | Some act, Some q => Ok (ACCEPT_LOCAL_PAPER, LOCAL_PAPER_AUTHORIZED, act, Some q)
        | _, _ => Err (Raise ExecutionContractError "P4 approval has no valid local Paper action")
        end
  end.

Record execution_decision : Type := LocalPaperExecutionDecision {
  ed_authorization : authorization;
  ed_readiness : readiness;
  ed_disposition : execution_disposition;
  ed_reason : execution_reason;
  ed_action : intent_action;
  ed_quantity : option string;
  ed_policy : execution_policy;
}.

Definition execution_decision_post_init (d : execution_decision) : result unit :=
  do* _validate_authorization (ed_authorization d) ;;
  do* rcatch (do* readiness_post_init (ed_readiness d) ;; execution_policy_post_init (ed_policy d))
        (AttributeError :: VALUE_ERRORS) (Raise ExecutionContractError "Recovery readiness or local Paper policy failed reconstruction") ;;
  let* expected := _expected_execution (ed_authorization d) (ed_readiness d) in
  raise_if negb (bool_decide ((ed_disposition d, ed_reason d, ed_action d, ed_quantity d) = expected))
    with ExecutionContractError "Execution disposition, reason, action and quantity disagree" ;;
  Ok tt.
Definition new_execution_decision (d : execution_decision) : result execution_decision :=
  do* execution_decision_post_init d ;; Ok d.

Definition policy_json (p : execution_policy) : json := JObj [
  ("policy_id", JStr (policy_id p)); ("execution_mode", JStr (execution_mode p)); ("paper_only", JBool (ep_paper_only p));
  ("live_master_lock", JStr (ep_live_master_lock p)); ("spot_only", JBool (ep_spot_only p)); ("long_only", JBool (long_only p));
  ("allow_external_transport", JBool (allow_external_transport p)); ("allow_credentials", JBool (allow_credentials p));
  ("allow_order_endpoint", JBool (allow_order_endpoint p)); ("allow_leverage", JBool (ep_allow_leverage p));
  ("allow_withdrawal", JBool (allow_withdrawal p)); ("allow_ai_direct_execution", JBool (allow_ai_direct_execution p))]%string.

Definition execution_payload (d : execution_decision) : json := JObj [
  ("schema_version", JInt 1); ("authorization_sha256", JStr (authorization_sha256 (ed_authorization d)));
  ("readiness_sha256", JStr (readiness_sha256 (ed_readiness d))); ("policy", policy_json (ed_policy d));
  ("disposition", JStr (execution_disposition_value (ed_disposition d))); ("reason", JStr (execution_reason_value (ed_reason d)));
  ("action", JStr (intent_action_value (ed_action d))); ("approved_quantity", JOptStr (ed_quantity d))]%string.
Definition execution_sha256 (d : execution_decision) : string := digest (execution_payload d).

(** [readiness=None] and [policy=None] stand for the defaults. *)
Definition assess_local_paper_authorization (a : authorization) (r : option readiness) (p : option execution_policy)
    : result execution_decision :=
  do* _validate_authorization a ;;
  let r := match r with Some r => r | None => default_readiness end in
  let p := match p with Some p => p | None => default_execution_policy end in
  let* x := _expected_execution a r in
  let '(d, why, act, q) := x in
  new_execution_decision (LocalPaperExecutionDecision a r d why act q p).

(** * Properties *)

Definition readiness_valid (r : readiness) : Prop := readiness_post_init r = Ok tt.
Definition policy_valid (p : execution_policy) : Prop := execution_policy_post_init p = Ok tt.

(** There is one policy: local paper, everything else locked. *)
Lemma execution_policy_frozen p : policy_valid p -> p = default_execution_policy.
Proof.
  unfold policy_valid, execution_policy_post_init. destruct (negb _) eqn:E; [done|]. intros _. apply negb_false_iff in E.
  rewrite !andb_true_iff, !negb_true_iff in E. decompose [and] E. destruct p.
  cbn [policy_id execution_mode ep_paper_only ep_live_master_lock ep_spot_only long_only allow_external_transport allow_credentials
    allow_order_endpoint ep_allow_leverage allow_withdrawal allow_ai_direct_execution] in *.
  repeat match goal with H : String.eqb _ _ = true |- _ => apply String.eqb_eq in H end. by subst.
Qed.

Definition ready (r : readiness) : Prop := rd_status r = READY /\ exists h, reconciliation_sha256 r = Some h /\ sha256_pattern h = true.

Lemma ready_evidence r : readiness_valid r -> rd_status r = READY -> ready r.
Proof.
  unfold readiness_valid, readiness_post_init. intros H E. split; [done|]. rewrite E in H. destruct (rdn_reason r); try done.
  destruct (reconciliation_sha256 r) as [h|]; [|done]. exists h. split; [done|]. cbn [valid_digest] in H. by destruct (sha256_pattern h).
Qed.

(** The routing, over the authorization's decision and the readiness. *)
Inductive routed (a : authorization) (r : readiness) : execution_disposition -> execution_reason -> intent_action -> option string -> Prop :=
| rt_none : sd_action (rq_decision (au_request a)) = SNoTrade -> disposition (au_decision a) = NO_ACTION ->
    routed a r EX_NO_ACTION EX_NO_STRATEGY_ACTION HOLD None
| rt_rejected : sd_action (rq_decision (au_request a)) = SEnterLong -> disposition (au_decision a) = REJECT ->
    routed a r BLOCKED RISK_NOT_APPROVED HOLD None
| rt_unready : disposition (au_decision a) = APPROVE_PAPER -> rd_status r = RECOVERY_REQUIRED ->
    routed a r BLOCKED RECOVERY_NOT_READY HOLD None
| rt_entry q : sd_action (rq_decision (au_request a)) = SEnterLong -> disposition (au_decision a) = APPROVE_PAPER -> ready r ->
    approved_quantity (au_decision a) = Some q -> routed a r ACCEPT_LOCAL_PAPER LOCAL_PAPER_AUTHORIZED ENTER_LONG (Some q)
| rt_exit : sd_action (rq_decision (au_request a)) = SExitLong -> disposition (au_decision a) = APPROVE_PAPER -> ready r ->
    routed a r ACCEPT_LOCAL_PAPER LOCAL_PAPER_AUTHORIZED EXIT_LONG (Some (prs_position_quantity (rq_portfolio (au_request a)))).

Lemma expected_routed a r : authorization_valid a -> readiness_valid r ->
  exists d why act q, _expected_execution a r = Ok (d, why, act, q) /\ routed a r d why act q.
Proof.
  intros Ha Hr. destruct (authorization_facts a Ha) as (_ & Hd & _ & Hrq). unfold _expected_execution. rewrite Hrq.
  destruct (bool_decide_reflect (rd_status r = READY)) as [E|E].
  - pose proof (ready_evidence r Hr E) as Hrdy. inversion Hd as [p A K Hp Hx|p A K Q Hp Hx|p A K Q G Hp Hx|g A K Q T G Hp Hx|A Hp Hx|A Hp Hx];
      cbn [disposition approved_quantity negb]; rewrite ?A.
    1-3: do 4 eexists; split; [reflexivity|]; apply rt_rejected; [done|by rewrite <- Hx].
    + do 4 eexists. split; [reflexivity|]. apply rt_entry; [done|by rewrite <- Hx|done|by rewrite <- Hx].
    + do 4 eexists. split; [reflexivity|]. apply rt_exit; [done|by rewrite <- Hx|done].
    + do 4 eexists. split; [reflexivity|]. apply rt_none; [done|by rewrite <- Hx].
  - assert (rd_status r = RECOVERY_REQUIRED) as E' by by destruct (rd_status r).
    inversion Hd as [p A K Hp Hx|p A K Q Hp Hx|p A K Q G Hp Hx|g A K Q T G Hp Hx|A Hp Hx|A Hp Hx]; cbn [disposition approved_quantity negb].
    1-3: do 4 eexists; split; [reflexivity|]; apply rt_rejected; [done|by rewrite <- Hx].
    1-2: do 4 eexists; split; [reflexivity|]; apply rt_unready; [by rewrite <- Hx|done].
    do 4 eexists. split; [reflexivity|]. apply rt_none; [done|by rewrite <- Hx].
Qed.

Lemma validate_authorization_ok a : authorization_valid a -> _validate_authorization a = Ok tt.
Proof. intros H. unfold _validate_authorization. by rewrite (av_self _ H). Qed.

Lemma assess_routed a r p : authorization_valid a -> readiness_valid r -> policy_valid p ->
  exists d why act q, routed a r d why act q /\ _expected_execution a r = Ok (d, why, act, q)
    /\ execution_decision_post_init (LocalPaperExecutionDecision a r d why act q p) = Ok tt.
Proof.
  intros Ha Hr Hp. destruct (expected_routed a r Ha Hr) as (d & why & act & q & E & H). exists d, why, act, q. split; [done|]. split; [done|].
  unfold execution_decision_post_init. cbn [ed_authorization ed_readiness ed_policy ed_disposition ed_reason ed_action ed_quantity].
  rewrite (validate_authorization_ok a Ha), Hr. cbn [rbind]. rewrite Hp. cbn [rcatch rbind]. rewrite E. cbn [rbind].
  by rewrite bool_decide_true.
Qed.

(** A decision built by its constructor carries the routing, by the default policy. *)
Lemma decision_routed d : authorization_valid (ed_authorization d) -> execution_decision_post_init d = Ok tt ->
  readiness_valid (ed_readiness d) /\ ed_policy d = default_execution_policy
  /\ routed (ed_authorization d) (ed_readiness d) (ed_disposition d) (ed_reason d) (ed_action d) (ed_quantity d).
Proof.
  intros Ha H. unfold execution_decision_post_init in H. rewrite (validate_authorization_ok _ Ha) in H. cbn [rbind] in H.
  destruct (rcatch _ _ _) as [[]|] eqn:E in H; [|done]. cbn [rbind] in H. apply rcatch_ok in E.
  destruct (readiness_post_init (ed_readiness d)) as [[]|] eqn:Er; [|done]. cbn [rbind] in E. pose proof (execution_policy_frozen _ E) as Hp.
  split; [done|]. split; [done|]. destruct (expected_routed _ _ Ha Er) as (x & why & act & q & Ex & Hx). rewrite Ex in H. cbn [rbind] in H.
  destruct (bool_decide_reflect ((ed_disposition d, ed_reason d, ed_action d, ed_quantity d) = (x, why, act, q))) as [Eq|]; [|done].
  injection Eq as -> -> -> ->. done.
Qed.

(** * Claims *)

(** Routing of constructed authorizations is total and exact.  With any
    readiness and policy built by their constructors (or the defaults), the
    assessment never raises; it accepts for local paper exactly when the risk
    decision approved and reconciliation passed with a well-formed digest, the
    action and quantity being the approved entry's or, for an exit, the whole
    position's; without readiness, by default too, every approval is blocked; no
    other policy than the locked local-paper one exists. *)
Theorem execution_routing_exact a r p (Ha : authorization_valid a) (Hr : forall x, r = Some x -> readiness_valid x)
    (Hp : forall x, p = Some x -> policy_valid x) :
  exists d, assess_local_paper_authorization a r p = Ok d
    /\ ed_authorization d = a /\ ed_readiness d = default default_readiness r /\ ed_policy d = default_execution_policy
    /\ routed a (default default_readiness r) (ed_disposition d) (ed_reason d) (ed_action d) (ed_quantity d).
Proof.
  pose (r' := default default_readiness r). pose (p' := default default_execution_policy p).
  assert (readiness_valid r') as Hr' by (destruct r; [by apply Hr|reflexivity]).
  assert (policy_valid p') as Hp' by (destruct p; [by apply Hp|reflexivity]).
  destruct (assess_routed a r' p' Ha Hr' Hp') as (d & why & act & q & H & E & Ei).
  exists (LocalPaperExecutionDecision a r' d why act q p'). split; [|split; [done|split; [done|split; [by apply execution_policy_frozen|done]]]].
  unfold assess_local_paper_authorization. rewrite (validate_authorization_ok a Ha). cbn [rbind]. fold (default default_readiness r).
  change (match r with Some r => r | None => default_readiness end) with r'.
  change (match p with Some p => p | None => default_execution_policy end) with p'. rewrite E. cbn [rbind].
  unfold new_execution_decision. by rewrite Ei.
Qed.

Definition passed_readiness : readiness := RecoveryReadiness READY RECONCILIATION_PASSED (Some (digest (JStr "r"))).
Lemma passed_readiness_valid : readiness_valid passed_readiness.
Proof. unfold readiness_valid, readiness_post_init, passed_readiness. cbn [rd_status rdn_reason reconciliation_sha256 valid_digest]. by rewrite digest_pattern. Qed.

Lemma execution_routing_exact_witness : exists d,
  assess_local_paper_authorization sample_authorization (Some passed_readiness) None = Ok d /\ ed_disposition d = ACCEPT_LOCAL_PAPER.
Proof.
  assert (forall x, Some passed_readiness = Some x -> readiness_valid x) as Hr by (intros x [= <-]; exact passed_readiness_valid).
  destruct (execution_routing_exact sample_authorization (Some passed_readiness) None (proj1 sample_evidence) Hr ltac:(discriminate))
    as (d & E & _ & _ & _ & H).
  exists d. split; [exact E|]. inversion H as [A D|A D|D R|q A D R Q|A D R]; [exfalso; clear -D; discriminate D| | |reflexivity|reflexivity].
  - exfalso. clear -D. discriminate D.
  - exfalso. clear -R. discriminate R.
Defined.
