(* ===== verification/Journal.v ===== *)
(** * The intent journal (yatl/execution/journal.py)

    The SQLite table [local_paper_intents] as a finite map from its primary
    key to the row, with its UNIQUE constraints; [record] runs in one
    transaction.  Opening, migrating and closing the database are not
    modelled; reads and writes of the database do not fail. *)
From stdpp Require Import gmap sorting.
From S2P Require Import Prelude PyDecimal PyText Digest HashChain Market MarketView Fills StrategyContracts RiskContracts RiskState Sizing Protective Circuit KillSwitch RiskAdapter Execution.

Definition JOURNAL_SCHEMA_VERSION : Z := 1.
Definition INTENT_SCHEMA_VERSION : Z := 1.

Record intent_record : Type := LocalPaperIntentRecord {
  in_authorization_sha256 : string;
  in_effect_sha256 : string;
  in_decision_sha256 : string;
  in_readiness_sha256 : string;
  in_action : string;
  in_approved_quantity : string;
  in_policy_id : string;
  in_intent_sha256 : string;
}.
#[global] Instance intent_record_eq_dec : EqDecision intent_record.
Proof. solve_decision. Defined.

Definition intent_material (r : intent_record) : list (string * json) := [
  ("schema_version", JInt INTENT_SCHEMA_VERSION); ("authorization_sha256", JStr (in_authorization_sha256 r));
  ("effect_sha256", JStr (in_effect_sha256 r)); ("decision_sha256", JStr (in_decision_sha256 r));
  ("readiness_sha256", JStr (in_readiness_sha256 r)); ("action", JStr (in_action r));
  ("approved_quantity", JStr (in_approved_quantity r)); ("policy_id", JStr (in_policy_id r))]%string.

Definition _expected_sha256 (r : intent_record) : string := digest (JObj (intent_material r)).

Definition intent_as_record (r : intent_record) : json :=
  JObj (intent_material r ++ [("intent_sha256"%string, JStr (in_intent_sha256 r))]).

Definition intent_post_init (r : intent_record) : result unit :=
  let digests := [in_authorization_sha256 r; in_effect_sha256 r; in_decision_sha256 r; in_readiness_sha256 r; in_intent_sha256 r] in
  raise_if existsb (fun v => negb (sha256_pattern v)) digests with ExecutionJournalError "Stored intent digest is invalid" ;;
  raise_if negb (String.eqb (in_effect_sha256 r) (in_authorization_sha256 r))
    with ExecutionJournalError "Local Paper effect identity differs from its authorization" ;;
  raise_if negb (str_in (in_action r) ["ENTER_LONG"; "EXIT_LONG"]) || String.eqb (in_approved_quantity r) ""
           || negb (String.eqb (in_policy_id r) EXECUTION_POLICY_ID)
    with ExecutionJournalError "Stored intent fields are invalid" ;;
  raise_if negb (String.eqb (in_intent_sha256 r) (_expected_sha256 r))
    with ExecutionJournalError "Stored intent failed digest verification" ;;
  Ok tt.
Definition new_intent_record (r : intent_record) : result intent_record := do* intent_post_init r ;; Ok r.

(** [from_decision]: the digest is computed from the same material. *)
Definition from_decision (d : execution_decision) : result intent_record :=
  do* rcatch (execution_decision_post_init d) VALUE_ERRORS
        (Raise ExecutionJournalError "Local Paper decision failed deterministic reconstruction") ;;
  match ed_disposition d, ed_quantity d with
  | ACCEPT_LOCAL_PAPER, Some quantity =>
      let h := authorization_sha256 (ed_authorization d) in
      let draft := LocalPaperIntentRecord h h (execution_sha256 d) (readiness_sha256 (ed_readiness d))
                     (intent_action_value (ed_action d)) quantity (policy_id (ed_policy d)) "" in
      new_intent_record (LocalPaperIntentRecord h h (execution_sha256 d) (readiness_sha256 (ed_readiness d))
                     (intent_action_value (ed_action d)) quantity (policy_id (ed_policy d)) (_expected_sha256 draft))
  | _, _ => Err (Raise ExecutionJournalError "Only an accepted local Paper decision can enter the journal")
  end.

(** ** The table *)

Abbreviation intent_table := (gmap string intent_record).

(** Read back through the constructor. *)
Definition _row_to_record (row : option intent_record) : result (option intent_record) :=
  match row with
  | None => Ok None
  | Some r => let* r := rcatch (new_intent_record r) (ExecutionJournalError :: KeyError :: VALUE_ERRORS)
                          (Raise ExecutionJournalError "Stored intent violates the canonical contract") in Ok (Some r)
  end.

Definition _select (rows : intent_table) (h : string) : option intent_record := rows !! h.

(** [INSERT]: PRIMARY KEY (authorization_sha256), UNIQUE (effect_sha256), UNIQUE (intent_sha256). *)
Definition _insert (r : intent_record) : stm intent_table unit := fun rows =>
  if existsb (fun x => String.eqb (in_authorization_sha256 x) (in_authorization_sha256 r) || String.eqb (in_effect_sha256 x) (in_effect_sha256 r)
                       || String.eqb (in_intent_sha256 x) (in_intent_sha256 r)) (map snd (map_to_list rows))
  then (rows, Err (Raise IntegrityError "UNIQUE constraint failed"))
  else (<[in_authorization_sha256 r := r]> rows, Ok tt).

Definition scatch {S A} (m : stm S A) (cls : list exn_class) (e : exn) : stm S A :=
  fun s => let '(s', out) := m s in (s', rcatch out cls e).

(** [BEGIN IMMEDIATE ... commit], with the except clauses of [record]. *)
Definition journal_transaction {A} (m : stm intent_table A) : stm intent_table A :=
  scatch (srollback [ExecutionJournalError; IntentConflict; IntegrityError] m) [IntegrityError]
    (Raise IntentConflict "Intent identity conflicts with durable journal state").

Definition record (d : execution_decision) : stm intent_table intent_record :=
  let! r := slift (from_decision d) in
  journal_transaction (
    let! rows := sget in
    let! existing := slift (_row_to_record (_select rows (in_authorization_sha256 r))) in
    match existing with
    | None => do! _insert r ;; sret r
    | Some x => if decide (x = r) then sret x
                else sraise (Raise IntentConflict "Authorization identity conflicts with stored intent")
    end).

Definition get_intent (rows : intent_table) (h : string) : result (option intent_record) :=
  raise_if negb (sha256_pattern h) with ExecutionJournalError "Authorization digest is invalid" ;;
  _row_to_record (_select rows h).

Definition count_intents (rows : intent_table) : Z := Z.of_nat (size rows).

(** [ORDER BY authorization_sha256]: BINARY collation of ASCII text. *)
Definition string_le (a b : string) : Prop := String.leb a b = true.
#[global] Instance string_le_dec a b : Decision (string_le a b).
Proof. unfold string_le. apply _. Defined.

Definition row_le (x y : intent_record) : Prop := string_le (in_authorization_sha256 x) (in_authorization_sha256 y).
#[global] Instance row_le_dec x y : Decision (row_le x y).
Proof. unfold row_le. apply _. Defined.

Definition canonical_json (rows : intent_table) : result text :=
  let* records := rmap (fun x => let* o := _row_to_record (Some x) in
                                 match o with Some r => Ok (intent_as_record r) | None => Err (Raise AttributeError "as_record") end)
                    (merge_sort row_le (map snd (map_to_list rows))) in
  Ok (json_dumps (JObj [("schema_version"%string, JInt JOURNAL_SCHEMA_VERSION); ("intents"%string, JArr records)]) ++ [chr 10]).

(** * Properties *)

Definition intent_valid_record (r : intent_record) : Prop := intent_post_init r = Ok tt.

(** A decision built by its constructor over constructed evidence. *)
Definition decision_built (d : execution_decision) : Prop :=
  authorization_valid (ed_authorization d) /\ execution_decision_post_init d = Ok tt.

Definition accepted (d : execution_decision) : Prop := ed_disposition d = ACCEPT_LOCAL_PAPER.
#[global] Instance accepted_dec d : Decision (accepted d).
Proof. unfold accepted. apply _. Defined.

Definition authorization_key (d : execution_decision) : string := authorization_sha256 (ed_authorization d).

(** The intent an accepted decision stands for. *)
Definition intent_of (d : execution_decision) : intent_record :=
  let h := authorization_key d in
  let q := default ""%string (ed_quantity d) in
  let draft := LocalPaperIntentRecord h h (execution_sha256 d) (readiness_sha256 (ed_readiness d))
                 (intent_action_value (ed_action d)) q EXECUTION_POLICY_ID "" in
  LocalPaperIntentRecord h h (execution_sha256 d) (readiness_sha256 (ed_readiness d))
    (intent_action_value (ed_action d)) q EXECUTION_POLICY_ID (_expected_sha256 draft).

Lemma accepted_action d : decision_built d -> accepted d ->
  exists q, ed_quantity d = Some q /\ q <> ""%string /\ str_in (intent_action_value (ed_action d)) ["ENTER_LONG"; "EXIT_LONG"]%string = true.
Proof.
  intros [Ha Hd] Hacc. destruct (decision_routed d Ha Hd) as (_ & _ & H). rewrite Hacc in H.
  assert (forall q, approved_quantity (au_decision (ed_authorization d)) = Some q -> q <> ""%string) as Hq.
  { intros q Eq ->. destruct (authorization_facts _ Ha) as (_ & _ & Hv & _). unfold risk_decision_post_init in Hv. rewrite Eq in Hv.
    revert Hv. clear. destruct (rd_request (au_decision (ed_authorization d))). cbn. done. }
  inversion H as [A D|A D|D R|q A D R Q Hx Hy Hz Hw|A D R Hx Hy Hz Hw].
  - exists q. split; [done|]. split; [by apply Hq|reflexivity].
  - eexists. split; [done|]. split; [|reflexivity]. apply Hq. destruct (authorization_facts _ Ha) as (_ & Hdec & _). 
    clear - Hdec A D. destruct Hdec; cbn [disposition approved_quantity] in *; try done; congruence.
Qed.

Lemma intent_of_valid d : decision_built d -> accepted d -> intent_valid_record (intent_of d).
Proof.
  intros Hb Hacc. destruct (accepted_action d Hb Hacc) as (q & Eq & Hq & Hact).
  unfold intent_valid_record, intent_post_init, intent_of. rewrite Eq. cbn [default from_option in_authorization_sha256 in_effect_sha256 in_decision_sha256
    in_readiness_sha256 in_action in_approved_quantity in_policy_id in_intent_sha256 existsb id].
  unfold authorization_key, authorization_sha256, execution_sha256, readiness_sha256, _expected_sha256. rewrite !digest_pattern. cbn [negb orb].
  rewrite !String.eqb_refl, Hact. cbn [negb orb]. apply String.eqb_neq in Hq. rewrite Hq. cbn [orb].
  reflexivity.
Qed.

Lemma from_decision_spec d : decision_built d ->
  from_decision d = if decide (accepted d) then Ok (intent_of d)
                    else Err (Raise ExecutionJournalError "Only an accepted local Paper decision can enter the journal").
Proof.
  intros Hb. pose proof Hb as [Ha Hd]. unfold from_decision. rewrite Hd. cbn [rcatch rbind]. destruct (decide (accepted d)) as [Hacc|Hn].
  - rewrite Hacc. destruct (accepted_action d Hb Hacc) as (q & Eq & _). pose proof (intent_of_valid d Hb Hacc) as Hv.
    destruct (decision_routed d Ha Hd) as (_ & Hp & _). unfold intent_of in *. rewrite Eq in *. rewrite Hp. cbn [policy_id default_execution_policy].
    unfold new_intent_record. cbn [default from_option id] in *. fold (authorization_key d). unfold intent_valid_record in Hv. by rewrite Hv.
  - unfold accepted in Hn. destruct (ed_disposition d); done.
Qed.

(** The text an intent is identified by. *)
Definition intent_text (r : intent_record) : text := json_dumps (JObj (intent_material r)).

(** Two intents with one digest are equal, or their texts collide. *)
Lemma intent_binds T r r' : intent_text r ∈ T -> intent_text r' ∈ T -> intent_valid_record r -> intent_valid_record r' ->
  in_intent_sha256 r = in_intent_sha256 r' -> r = r' \/ collision T.
Proof.
  intros Ht Ht'. unfold intent_valid_record, intent_post_init. intros H H' Hi.
  assert (in_intent_sha256 r = _expected_sha256 r) as E by (res_inv; bool_prop; done).
  assert (in_intent_sha256 r' = _expected_sha256 r') as E' by (res_inv; bool_prop; done). clear H H'.
  assert (_expected_sha256 r = _expected_sha256 r') as Hd by congruence. unfold _expected_sha256 in Hd.
  destruct (digest_binds T _ _ Ht Ht' Hd) as [F|]; [|by right]. left. clear Hd E E'. unfold intent_material in F. json_fields F. destruct r, r'.
  cbn [in_authorization_sha256 in_effect_sha256 in_decision_sha256 in_readiness_sha256 in_action in_approved_quantity in_policy_id in_intent_sha256] in *.
  by subst.
Qed.

Definition journal_inv (rows : intent_table) : Prop :=
  forall h r, rows !! h = Some r -> in_authorization_sha256 r = h /\ intent_valid_record r.

Lemma row_to_record_valid rows h : journal_inv rows -> _row_to_record (rows !! h) = Ok (rows !! h).
Proof.
  intros Hi. destruct (rows !! h) as [r|] eqn:E; [|done]. destruct (Hi h r E) as [_ Hv]. cbn [_row_to_record]. unfold new_intent_record.
  by rewrite Hv.
Qed.

Lemma valid_effect r : intent_valid_record r -> in_effect_sha256 r = in_authorization_sha256 r.
Proof. unfold intent_valid_record, intent_post_init. intros H. res_inv. bool_prop. done. Qed.

(** The texts of the stored intents. *)
Definition journal_texts (rows : intent_table) : list text := map (fun kr => intent_text (snd kr)) (map_to_list rows).

Lemma journal_texts_among rows T : among (journal_texts rows) T <-> forall h r, rows !! h = Some r -> intent_text r ∈ T.
Proof.
  unfold journal_texts. rewrite among_map. split.
  - intros H h r E. apply (H (h, r)). by apply elem_of_map_to_list.
  - intros H [h r] E. apply (H h). by apply elem_of_map_to_list.
Qed.

(** An insertion under a fresh key violates no constraint unless two texts collide. *)
Lemma insert_fresh T rows r : among (journal_texts rows) T -> intent_text r ∈ T -> journal_inv rows -> intent_valid_record r -> rows !! in_authorization_sha256 r = None ->
  _insert r rows = (<[in_authorization_sha256 r := r]> rows, Ok tt)
  \/ (collision T /\ exists e, _insert r rows = (rows, Err e) /\ exn_cls e = IntegrityError).
Proof.
  intros HT Ht Hi Hr Hn. unfold _insert. destruct (existsb _ _) eqn:E; [|by left]. right. split; [|by eexists].
  apply existsb_exists in E as (x & Hx & E). apply in_map_iff in Hx as ((h & x') & <- & Hx). apply list_elem_of_In, elem_of_map_to_list in Hx.
  destruct (Hi h x' Hx) as [Hk Hv]. cbn [snd] in E. rewrite (valid_effect _ Hv), (valid_effect _ Hr), orb_diag in E. apply orb_true_iff in E as [E|E];
    apply String.eqb_eq in E.
  - exfalso. rewrite <- E, Hk in Hn. congruence.
  - destruct (intent_binds T x' r (proj1 (journal_texts_among _ _) HT _ _ Hx) Ht Hv Hr E) as [->|]; [|done]. exfalso. rewrite Hk in Hn. congruence.
Qed.

(** [record] on every branch. *)
(** The text [record] hashes. *)
Definition record_texts (d : execution_decision) : list text := if decide (accepted d) then [intent_text (intent_of d)] else [].

Lemma record_spec T d rows rows' out : among (journal_texts rows) T -> among (record_texts d) T -> decision_built d -> journal_inv rows -> record d rows = (rows', out) ->
  (~ accepted d /\ rows' = rows /\ exists e, out = Err e /\ exn_cls e = ExecutionJournalError)
  \/ (accepted d /\ (
       (rows !! authorization_key d = Some (intent_of d) /\ rows' = rows /\ out = Ok (intent_of d))
       \/ (exists r, rows !! authorization_key d = Some r /\ r <> intent_of d /\ rows' = rows /\ exists e, out = Err e /\ exn_cls e = IntentConflict)
       \/ (rows !! authorization_key d = None /\ rows' = <[authorization_key d := intent_of d]> rows /\ out = Ok (intent_of d))
       \/ (collision T /\ rows' = rows /\ exists e, out = Err e /\ exn_cls e = IntentConflict))).
Proof.
  intros HT Hd Hb Hi H. unfold record in H. unfold sbind at 1, slift at 1 in H. rewrite (from_decision_spec d Hb) in H.
  unfold record_texts in Hd. destruct (decide (accepted d)) as [Hacc|Hn]; [|injection H as <- <-; left; split; [done|split; [done|by eexists]]].
  right. split; [done|]. pose proof (intent_of_valid d Hb Hacc) as Hv. cbn beta iota in H.
  unfold journal_transaction, scatch, srollback in H. unfold sbind at 1, sget at 1 in H. unfold sbind at 1, slift at 1, _select in H.
  assert (in_authorization_sha256 (intent_of d) = authorization_key d) as Ek by done. rewrite Ek, (row_to_record_valid rows _ Hi) in H.
  destruct (rows !! authorization_key d) as [r|] eqn:Er.
  - destruct (decide (r = intent_of d)) as [->|Hne].
    + unfold sret in H. injection H as <- <-. left. split; [reflexivity|]. split; reflexivity.
    + unfold sraise in H. rewrite bool_decide_true in H by in_list. cbn [rcatch exn_cls] in H. rewrite bool_decide_false in H by (rewrite list_elem_of_singleton; done).
      injection H as <- <-. right. left. exists r. split; [reflexivity|]. split; [exact Hne|]. split; [reflexivity|]. eexists. split; reflexivity.
  - right. right. destruct (insert_fresh T rows (intent_of d) HT (among_head _ _ _ Hd) Hi Hv Er) as [E|(Hcol & e & E & He)]; unfold sbind, sret in H; rewrite E in H.
    + left. injection H as <- <-. split; [reflexivity|]. split; reflexivity.
    + right. rewrite bool_decide_true in H by (rewrite He; in_list). cbn [rcatch] in H. rewrite bool_decide_true in H by (rewrite He; in_list).
      injection H as <- <-. split; [exact Hcol|]. split; [reflexivity|]. eexists. split; reflexivity.
Qed.

(** What a call leaves in the table was there, or is the text it hashed. *)
Lemma record_texts_kept T d rows : among (journal_texts rows) T -> among (record_texts d) T -> decision_built d -> journal_inv rows ->
  among (journal_texts (fst (record d rows))) T.
Proof.
  intros HT Hd Hb Hi. destruct (record d rows) as [rows' out] eqn:E. cbn [fst].
  destruct (record_spec T d rows rows' out HT Hd Hb Hi E) as [(_ & -> & _)|(Hacc & [(_ & -> & _)|[(r & _ & _ & -> & _)|[(_ & -> & _)|(_ & -> & _)]]])]; [done..| |done].
  rewrite journal_texts_among in HT. apply journal_texts_among. intros h r Hr. apply lookup_insert_Some in Hr as [[_ <-]|[_ Hr]]; [|by eapply HT].
  unfold record_texts in Hd. rewrite decide_True in Hd by done. by apply among_head in Hd.
Qed.

(** ** Whole histories *)

(** The caller's sequence of [record] calls, failing ones included. *)
Definition run_records (ds : list execution_decision) (rows : intent_table) : intent_table :=
  fold_left (fun rows d => fst (record d rows)) ds rows.

(** What the journal means to hold: the first accepted decision of each authorization. *)
Definition first_accepted (ds : list execution_decision) (h : string) : option execution_decision :=
  find (fun d => bool_decide (accepted d) && String.eqb (authorization_key d) h) ds.

Definition journal_refines (ds : list execution_decision) (rows : intent_table) : Prop :=
  forall h, rows !! h = intent_of <$> first_accepted ds h.

Lemma find_snoc {A} (f : A -> bool) l x : find f (l ++ [x]) = match find f l with Some y => Some y | None => if f x then Some x else None end.
Proof. induction l as [|y l IH]; simpl; [done|]. by destruct (f y). Qed.

Lemma first_accepted_facts ds h d : first_accepted ds h = Some d -> d ∈ ds /\ accepted d /\ authorization_key d = h.
Proof.
  intros H. apply find_some in H as [Hin H]. apply andb_true_iff in H as [H1 H2]. apply bool_decide_eq_true in H1. apply String.eqb_eq in H2.
  split; [by apply list_elem_of_In|done].
Qed.

Lemma refines_inv ds rows : Forall decision_built ds -> journal_refines ds rows -> journal_inv rows.
Proof.
  intros Hb Hr h r E. rewrite Hr in E. destruct (first_accepted ds h) as [d|] eqn:Ef; [|done]. injection E as <-.
  destruct (first_accepted_facts ds h d Ef) as (Hin & Hacc & <-). split; [done|]. apply intent_of_valid; [|done].
  by apply (proj1 (Forall_forall _ _) Hb).
Qed.

(** One more call, on a table that refines the calls before it. *)
Lemma record_refines T ds d rows : among (journal_texts rows) T -> among (record_texts d) T -> Forall decision_built ds -> decision_built d -> journal_refines ds rows ->
  collision T \/ journal_refines (ds ++ [d]) (fst (record d rows)).
Proof.
  intros HT Hd Hbs Hb Hr. destruct (record d rows) as [rows' out] eqn:E. cbn [fst].
  pose proof (refines_inv ds rows Hbs Hr) as Hi.
  assert (forall h, first_accepted (ds ++ [d]) h = match first_accepted ds h with Some y => Some y
    | None => if bool_decide (accepted d) && String.eqb (authorization_key d) h then Some d else None end) as Hs by (intros h; unfold first_accepted; by rewrite find_snoc).
  destruct (record_spec T d rows rows' out HT Hd Hb Hi E) as [(Hn & -> & _)|(Hacc & [(Hx & -> & _)|[(r & Hx & _ & -> & _)|[(Hx & -> & _)|(Hc & _)]]])].
  - right. intros h. rewrite Hs, Hr, (bool_decide_false _ Hn). by destruct (first_accepted ds h).
  - right. intros h. rewrite Hs, Hr. destruct (first_accepted ds h) eqn:Ef; [done|]. destruct (String.eqb (authorization_key d) h) eqn:Eh; [|by rewrite andb_false_r].
    apply String.eqb_eq in Eh. subst h. by rewrite Hr, Ef in Hx.
  - right. intros h. rewrite Hs, Hr. destruct (first_accepted ds h) eqn:Ef; [done|]. destruct (String.eqb (authorization_key d) h) eqn:Eh; [|by rewrite andb_false_r].
    apply String.eqb_eq in Eh. subst h. by rewrite Hr, Ef in Hx.
  - right. intros h. rewrite Hs, (bool_decide_true _ Hacc). cbn [andb]. destruct (String.eqb (authorization_key d) h) eqn:Eh.
    + apply String.eqb_eq in Eh. subst h. rewrite lookup_insert. rewrite decide_True by done. rewrite Hr in Hx. by destruct (first_accepted ds _).
    + apply String.eqb_neq in Eh. rewrite lookup_insert_ne by done. rewrite Hr. by destruct (first_accepted ds h).
  - by left.
Qed.

Lemma run_records_snoc ds d rows : run_records (ds ++ [d]) rows = fst (record d (run_records ds rows)).
Proof. unfold run_records. by rewrite fold_left_app. Qed.

Lemma runs_refine T ds : among (concat (map record_texts ds)) T -> Forall decision_built ds ->
  collision T \/ (journal_refines ds (run_records ds ∅) /\ among (journal_texts (run_records ds ∅)) T).
Proof.
  induction ds as [|d ds IH] using rev_ind; intros HT Hb.
  { right. split; [intros h; apply lookup_empty|]. apply journal_texts_among. intros h r E. change ((∅ : intent_table) !! h = Some r) in E. by rewrite lookup_empty in E. }
  rewrite map_app, concat_app in HT. apply among_app in HT as [HT Hd]. cbn [map concat] in Hd. rewrite app_nil_r in Hd.
  apply Forall_app in Hb as [Hbs Hb]. apply Forall_inv in Hb. destruct (IH HT Hbs) as [Hc|[Hr Hj]]; [by left|]. rewrite run_records_snoc.
  destruct (record_refines T ds d _ Hj Hd Hbs Hb Hr) as [|Hr']; [by left|right]. split; [done|]. apply record_texts_kept; [done..|]. by eapply refines_inv.
Qed.

(** ** What an authorization digest binds *)

Lemma disposition_value_inj a b : disposition_value a = disposition_value b -> a = b.
Proof. by destruct a, b. Qed.
Lemma risk_reason_value_inj a b : risk_reason_value a = risk_reason_value b -> a = b.
Proof. by destruct a, b. Qed.

Record same_authorization (a a' : authorization) : Prop := {
  sa_request : au_request a = au_request a';
  sa_managed : au_managed a = au_managed a';
  sa_kill : au_kill a = au_kill a';
  sa_circuit : au_circuit a = au_circuit a';
  sa_decision : au_decision a = au_decision a';
}.

(** The texts hashed for an authorization's digest, but for its protective gate's. *)
Definition hashed_authorization (a : authorization) : list text :=
  json_dumps (authorization_payload a) :: hashed_request (au_request a) ++ hashed_managed (au_managed a) ++ hashed_kill_state (au_kill a) ++ hashed_circuit (au_circuit a).

Lemma authorization_binds T a a' : among (hashed_authorization a) T -> among (hashed_authorization a') T -> authorization_valid a -> authorization_valid a' ->
  authorization_sha256 a = authorization_sha256 a' -> same_authorization a a' \/ collision T.
Proof.
  unfold hashed_authorization. rewrite !among_cons, !among_app. intros (Ht & T1 & T2 & T3 & T4) (Ht' & T1' & T2' & T3' & T4') Ha Ha' H.
  destruct (digest_binds T _ _ Ht Ht' H) as [E|E]; [|by right]. clear H. unfold authorization_payload in E. json_fields E.
  repeat match goal with
  | H : request_sha256 _ = request_sha256 _ |- _ => apply (request_sha256_binds T) in H; [|done..]; destruct H as [H|H]; [|by right]
  | H : state_sha256 _ = state_sha256 _ |- _ => apply (state_binds T) in H; [|done..]; destruct H as [H|H]; [|by right]
  | H : kill_state_sha256 _ = kill_state_sha256 _ |- _ => apply (kill_state_binds T) in H; [|done..]; destruct H as [H|H]; [|by right]
  | H : circuit_sha256 _ = circuit_sha256 _ |- _ => apply (circuit_binds T) in H; [|done..]; destruct H as [H|H]; [|by right]
  | H : disposition_value _ = disposition_value _ |- _ => apply disposition_value_inj in H
  | H : risk_reason_value _ = risk_reason_value _ |- _ => apply risk_reason_value_inj in H
  | H : option_map _ _ = option_map _ _ |- _ => clear H
  end.
  left. constructor; [done..|].
  destruct (authorization_facts a Ha) as (_ & _ & _ & R), (authorization_facts a' Ha') as (_ & _ & _ & R'). clear Ha Ha'.
  destruct (au_decision a) as [r1 d1 w1 q1], (au_decision a') as [r2 d2 w2 q2]. cbn [rd_request disposition rd_reason approved_quantity] in *. congruence.
Qed.

(** * Claims *)

(** C21. The journal refines its specification: after any sequence of [record]
    calls on a new journal, refused ones included, the row under an authorization
    digest is exactly the intent of the first accepted decision recorded for it;
    nothing else is stored, nothing is overwritten, no other decision enters; unless
    two of the texts of the accepted decisions' own intents collide under SHA-256. *)
Theorem journal_first_wins ds (H : Forall decision_built ds) :
  collision (concat (map record_texts ds)) \/ forall h, run_records ds ∅ !! h = intent_of <$> first_accepted ds h.
Proof. destruct (runs_refine _ ds (among_refl _) H) as [|[Hr _]]; [by left|by right]. Qed.

(** Recording is idempotent and never silent.  On a well-formed journal, a
    call with a constructed decision returns exactly the decision's intent, stored
    under the authorization's digest, when that key is free or already holds it (a
    repeat then changes nothing and returns the same), raises IntentConflict with
    the journal unchanged when it holds another intent, and for a decision that was
    not accepted is an ExecutionJournalError with the journal unchanged; a
    returned intent is read back by [get]; unless two of the texts of the stored
    intents and of the decision's collide. *)
Theorem record_idempotent d rows rows' out (Hd : decision_built d) (Hi : journal_inv rows) (Hrun : record d rows = (rows', out)) :
  collision (journal_texts rows ++ record_texts d) \/
  match out with
  | Ok r => accepted d /\ r = intent_of d /\ rows' = <[authorization_key d := r]> rows
      /\ (rows !! authorization_key d = None \/ rows' = rows)
      /\ journal_inv rows' /\ get_intent rows' (authorization_key d) = Ok (Some r) /\ record d rows' = (rows', Ok r)
  | Err e => rows' = rows
      /\ ((exn_cls e = ExecutionJournalError /\ ~ accepted d)
          \/ (exn_cls e = IntentConflict /\ accepted d /\ exists r, rows !! authorization_key d = Some r /\ r <> intent_of d))
  end.
Proof.
  assert (forall rows1, journal_inv rows1 -> accepted d -> rows1 !! authorization_key d = Some (intent_of d) ->
    get_intent rows1 (authorization_key d) = Ok (Some (intent_of d)) /\ record d rows1 = (rows1, Ok (intent_of d))) as Hback.
  { intros rows1 Hi1 Hacc E. split.
    - unfold get_intent, authorization_key, authorization_sha256. rewrite digest_pattern. cbn [negb]. unfold _select.
      fold (authorization_sha256 (ed_authorization d)). fold (authorization_key d). by rewrite (row_to_record_valid rows1 _ Hi1), E.
    - destruct (record d rows1) as [rows2 out2] eqn:E2.
      destruct (record_spec (journal_texts rows1 ++ record_texts d) d rows1 rows2 out2 (among_left _ _) (among_right _ _) Hd Hi1 E2)
        as [(Hn & _)|(_ & [(_ & -> & ->)|[(r & Er & Hne & _)|[(Er & _)|(_ & -> & e & -> & _)]]])];
        [done|done|congruence|congruence|].
      exfalso. unfold record, sbind, slift, journal_transaction, scatch, srollback, sget, _select in E2. rewrite (from_decision_spec d Hd) in E2.
      destruct (decide (accepted d)); [|done]. change (in_authorization_sha256 (intent_of d)) with (authorization_key d) in E2.
      rewrite (row_to_record_valid rows1 _ Hi1), E in E2. destruct (decide (intent_of d = intent_of d)); [discriminate E2|done]. }
  destruct (record_spec _ d rows rows' out (among_left _ _) (among_right _ _) Hd Hi Hrun)
    as [(Hn & -> & e & -> & He)|(Hacc & [(E & -> & ->)|[(r & E & Hne & -> & e & -> & He)|[(E & -> & ->)|(Hc & _)]]])].
  - right. split; [done|]. by left.
  - right. split; [done|]. split; [done|]. rewrite insert_id by done. split; [done|]. split; [by right|]. split; [done|]. by apply Hback.
  - right. split; [done|]. right. split; [done|]. split; [done|]. by exists r.
  - right. split; [done|]. split; [done|]. split; [done|]. split; [by left|].
    assert (journal_inv (<[authorization_key d:=intent_of d]> rows)) as Hi'.
    { intros h r Hl. apply lookup_insert_Some in Hl as [[<- <-]|[_ Hl]]; [split; [done|by apply intent_of_valid]|by apply Hi]. }
    split; [done|]. apply Hback; [done|done|]. by rewrite lookup_insert_eq.
  - by left.
Qed.

Definition accepted_sample : execution_decision :=
  LocalPaperExecutionDecision sample_authorization passed_readiness ACCEPT_LOCAL_PAPER LOCAL_PAPER_AUTHORIZED ENTER_LONG
    (Some (pa_quantity sample_assessment)) default_execution_policy.

Lemma accepted_sample_built : decision_built accepted_sample.
Proof.
  split; [exact (proj1 sample_evidence)|]. unfold execution_decision_post_init.
  cbn [accepted_sample ed_authorization ed_readiness ed_policy ed_disposition ed_reason ed_action ed_quantity].
  rewrite (validate_authorization_ok _ (proj1 sample_evidence)), passed_readiness_valid. cbn [rbind].
  change (execution_policy_post_init default_execution_policy) with (Ok tt). reflexivity.
Qed.

Lemma sample_decisions_built : Forall decision_built [accepted_sample; accepted_sample].
Proof. constructor; [exact accepted_sample_built|]. constructor; [exact accepted_sample_built|constructor]. Qed.

(** One intent's text, however often recorded, does not collide with itself. *)
Lemma sample_texts_differ T : (forall x, x ∈ T -> x = intent_text (intent_of accepted_sample)) -> ~ collision T.
Proof. apply no_collision. Qed.

Lemma journal_first_wins_witness : run_records [accepted_sample; accepted_sample] ∅ !! authorization_key accepted_sample = Some (intent_of accepted_sample).
Proof.
  destruct (journal_first_wins [accepted_sample; accepted_sample] sample_decisions_built) as [Hc|H].
  - exfalso. revert Hc. apply sample_texts_differ. intros x Hx. cbn [map concat] in Hx. unfold record_texts in Hx.
    destruct (decide (accepted accepted_sample)); cbn [app] in Hx; [|apply elem_of_nil in Hx; destruct Hx].
    apply elem_of_cons in Hx as [Hx|Hx]; [exact Hx|]. apply list_elem_of_singleton in Hx. exact Hx.
  - rewrite (H (authorization_key accepted_sample)). unfold first_accepted. cbn [find]. rewrite String.eqb_refl. reflexivity.
Defined.

Lemma record_idempotent_witness : exists rows, record accepted_sample ∅ = (rows, Ok (intent_of accepted_sample))
  /\ record accepted_sample rows = (rows, Ok (intent_of accepted_sample)).
Proof.
  assert (journal_inv ∅) as Hi by (intros h r E; by rewrite lookup_empty in E).
  destruct (record accepted_sample ∅) as [rows out] eqn:E.
  destruct (record_idempotent accepted_sample ∅ rows out accepted_sample_built Hi E) as [Hc|H].
  { exfalso. revert Hc. apply sample_texts_differ. unfold journal_texts. rewrite map_to_list_empty. cbn [map app]. unfold record_texts.
    destruct (decide (accepted accepted_sample)); intros x Hx; [apply list_elem_of_singleton in Hx; exact Hx|apply elem_of_nil in Hx; destruct Hx]. }
  destruct out as [r|e].
  - destruct H as (_ & -> & _ & _ & _ & _ & H). exists rows. split; [reflexivity|exact H].
  - exfalso. destruct H as (_ & [(_ & Hn)|(_ & _ & r & Er & _)]); [by apply Hn|by rewrite lookup_empty in Er].
Defined.
