(* ===== verification/OrderState.v ===== *)
(** * The local paper order lifecycle (yatl/execution/state.py)

    Hash-chained order events and states, and the SQLite store of events and
    current states: finite maps from the primary keys to rows, with the UNIQUE
    and FOREIGN KEY constraints.  [apply] runs in one transaction.  Opening,
    migrating and closing the database are not modelled; its reads and writes
    do not fail. *)
From stdpp Require Import gmap sorting.
From S2P Require Import Prelude PyDecimal PyText Digest HashChain RiskState RiskAdapter Execution Journal.

Definition ORDER_SCHEMA_VERSION : Z := 1.

Inductive order_event_type : Type := CREATE | ACTIVATE | CANCEL.
Inductive order_status : Type := PENDING_LOCAL | ACTIVE_LOCAL | CANCELLED_LOCAL.
Inductive order_reason : Type := ACCEPTED_INTENT_RECORDED | LOCAL_ACTIVATION_CONFIRMED | LOCAL_CANCELLATION_CONFIRMED.
#[global] Instance order_event_type_eq_dec : EqDecision order_event_type.
Proof. solve_decision. Defined.
#[global] Instance order_status_eq_dec : EqDecision order_status.
Proof. solve_decision. Defined.
#[global] Instance order_reason_eq_dec : EqDecision order_reason.
Proof. solve_decision. Defined.

Definition order_type_value (t : order_event_type) : string :=
  match t with CREATE => "CREATE" | ACTIVATE => "ACTIVATE" | CANCEL => "CANCEL" end.
Definition order_status_value (s : order_status) : string :=
  match s with PENDING_LOCAL => "PENDING_LOCAL" | ACTIVE_LOCAL => "ACTIVE_LOCAL" | CANCELLED_LOCAL => "CANCELLED_LOCAL" end.
Definition order_reason_value (r : order_reason) : string :=
  match r with
  | ACCEPTED_INTENT_RECORDED => "ACCEPTED_INTENT_RECORDED" | LOCAL_ACTIVATION_CONFIRMED => "LOCAL_ACTIVATION_CONFIRMED"
  | LOCAL_CANCELLATION_CONFIRMED => "LOCAL_CANCELLATION_CONFIRMED"
  end.

(** [LocalOrderEventType(value)] and its like: the member with this value, else ValueError. *)
Definition enum_member {A} (value : A -> string) (members : list A) (v : string) : result A :=
  match find (fun x => String.eqb (value x) v) members with
  | Some x => Ok x
  | None => Err (Raise ValueError v)
  end.
Definition order_type_of : string -> result order_event_type := enum_member order_type_value [CREATE; ACTIVATE; CANCEL].
Definition order_status_of : string -> result order_status := enum_member order_status_value [PENDING_LOCAL; ACTIVE_LOCAL; CANCELLED_LOCAL].
Definition order_reason_of : string -> result order_reason :=
  enum_member order_reason_value [ACCEPTED_INTENT_RECORDED; LOCAL_ACTIVATION_CONFIRMED; LOCAL_CANCELLATION_CONFIRMED].

Definition _EVENT_REASONS (t : order_event_type) : order_reason :=
  match t with CREATE => ACCEPTED_INTENT_RECORDED | ACTIVATE => LOCAL_ACTIVATION_CONFIRMED | CANCEL => LOCAL_CANCELLATION_CONFIRMED end.
Definition _EVENT_STATUSES (t : order_event_type) : order_status :=
  match t with CREATE => PENDING_LOCAL | ACTIVATE => ACTIVE_LOCAL | CANCEL => CANCELLED_LOCAL end.
Definition _STATE_REASONS (s : order_status) : order_reason :=
  match s with
  | PENDING_LOCAL => ACCEPTED_INTENT_RECORDED | ACTIVE_LOCAL => LOCAL_ACTIVATION_CONFIRMED
  | CANCELLED_LOCAL => LOCAL_CANCELLATION_CONFIRMED
  end.

(** The reconstruction has the same fields, so only its constructor can fail. *)
Definition _validate_intent (i : intent_record) : result unit :=
  rcatch (intent_post_init i) (AttributeError :: ExecutionJournalError :: IntentConflict :: VALUE_ERRORS)
    (Raise LocalOrderError "Local Paper intent failed reconstruction").

Record order_event : Type := LocalPaperOrderEvent {
  oe_authorization_sha256 : string;
  oe_intent_sha256 : string;
  oe_sequence : Z;
  oe_event_time_ms : Z;
  oe_event_type : order_event_type;
  oe_reason : order_reason;
  oe_previous_event_sha256 : option string;
}.
#[global] Instance order_event_eq_dec : EqDecision order_event.
Proof. solve_decision. Defined.

Definition order_event_post_init (e : order_event) : result unit :=
  raise_if negb (sha256_pattern (oe_authorization_sha256 e)) || negb (sha256_pattern (oe_intent_sha256 e))
    with LocalOrderError "Local order identity digest is invalid" ;;
  raise_if negb ((0 <=? oe_sequence e) && (oe_sequence e <=? 1000000000)) with LocalOrderError "Local order event sequence is invalid" ;;
  raise_if oe_event_time_ms e <? 0 with LocalOrderError "Local order event time is invalid" ;;
  raise_if negb (bool_decide (oe_reason e = _EVENT_REASONS (oe_event_type e)))
    with LocalOrderError "Local order event type and reason disagree" ;;
  if oe_sequence e =? 0 then
    raise_if negb (opt_is_none (oe_previous_event_sha256 e)) with LocalOrderError "Initial local order event has a predecessor" ;;
    Ok tt
  else
    raise_if negb (valid_digest (oe_previous_event_sha256 e)) with LocalOrderError "Local order event is missing predecessor evidence" ;;
    Ok tt.
Definition new_order_event (e : order_event) : result order_event := do* order_event_post_init e ;; Ok e.

Definition order_event_material (e : order_event) : list (string * json) := [
  ("schema_version", JInt 1); ("authorization_sha256", JStr (oe_authorization_sha256 e)); ("intent_sha256", JStr (oe_intent_sha256 e));
  ("sequence", JInt (oe_sequence e)); ("event_time_ms", JInt (oe_event_time_ms e)); ("event_type", JStr (order_type_value (oe_event_type e)));
  ("reason", JStr (order_reason_value (oe_reason e))); ("previous_event_sha256", JOptStr (oe_previous_event_sha256 e))]%string.
Definition order_event_sha256 (e : order_event) : string := digest (JObj (order_event_material e)).
Definition order_event_as_record (e : order_event) : json :=
  JObj (order_event_material e ++ [("event_sha256"%string, JStr (order_event_sha256 e))]).

Record order_state : Type := LocalPaperOrderState {
  os_authorization_sha256 : string;
  os_intent_sha256 : string;
  os_sequence : Z;
  os_updated_time_ms : Z;
  os_status : order_status;
  os_reason : order_reason;
  os_previous_state_sha256 : option string;
  os_event_sha256 : string;
}.
#[global] Instance order_state_eq_dec : EqDecision order_state.
Proof. solve_decision. Defined.

Definition order_state_post_init (s : order_state) : result unit :=
  raise_if negb (sha256_pattern (os_authorization_sha256 s)) || negb (sha256_pattern (os_intent_sha256 s))
    with LocalOrderError "Local order state identity digest is invalid" ;;
  raise_if negb ((0 <=? os_sequence s) && (os_sequence s <=? 1000000000)) with LocalOrderError "Local order state sequence is invalid" ;;
  raise_if os_updated_time_ms s <? 0 with LocalOrderError "Local order state time is invalid" ;;
  raise_if negb (bool_decide (os_reason s = _STATE_REASONS (os_status s))) with LocalOrderError "Local order status and reason disagree" ;;
  do* (if os_sequence s =? 0 then
         raise_if negb (opt_is_none (os_previous_state_sha256 s)) with LocalOrderError "Initial local order state has a predecessor" ;;
         Ok tt
       else
         raise_if negb (valid_digest (os_previous_state_sha256 s)) with LocalOrderError "Local order state is missing predecessor evidence" ;;
         Ok tt) ;;
  raise_if negb (sha256_pattern (os_event_sha256 s)) with LocalOrderError "Local order state event digest is invalid" ;;
  Ok tt.
Definition new_order_state (s : order_state) : result order_state := do* order_state_post_init s ;; Ok s.

Definition order_state_material (s : order_state) : list (string * json) := [
  ("schema_version", JInt 1); ("authorization_sha256", JStr (os_authorization_sha256 s)); ("intent_sha256", JStr (os_intent_sha256 s));
  ("sequence", JInt (os_sequence s)); ("updated_time_ms", JInt (os_updated_time_ms s)); ("status", JStr (order_status_value (os_status s)));
  ("reason", JStr (order_reason_value (os_reason s))); ("previous_state_sha256", JOptStr (os_previous_state_sha256 s));
  ("event_sha256", JStr (os_event_sha256 s))]%string.
Definition order_state_sha256 (s : order_state) : string := digest (JObj (order_state_material s)).
Definition order_state_as_record (s : order_state) : json :=
  JObj (order_state_material s ++ [("state_sha256"%string, JStr (order_state_sha256 s))]).

Definition order_allowed (s : order_status) (t : order_event_type) : bool :=
  match s, t with PENDING_LOCAL, ACTIVATE | ACTIVE_LOCAL, CANCEL => true | _, _ => false end.

Definition _next_order_state (i : intent_record) (previous : option order_state) (e : order_event) : result order_state :=
  do* _validate_intent i ;;
  raise_if negb (String.eqb (oe_authorization_sha256 e) (in_authorization_sha256 i)) || negb (String.eqb (oe_intent_sha256 e) (in_intent_sha256 i))
    with LocalOrderTransitionError "Local order event and intent disagree" ;;
  let* previous_state_sha256 :=
    match previous with
    | None =>
        raise_if negb (oe_sequence e =? 0) || negb (bool_decide (oe_event_type e = CREATE))
          with LocalOrderTransitionError "Local order lifecycle must begin with sequence-zero CREATE" ;;
        Ok None
    | Some p =>
        do* rcatch (order_state_post_init p) (LocalOrderError :: LocalOrderTransitionError :: VALUE_ERRORS)
              (Raise LocalOrderTransitionError "Previous local order state failed reconstruction") ;;
        raise_if negb (String.eqb (os_authorization_sha256 p) (in_authorization_sha256 i))
                 || negb (String.eqb (os_intent_sha256 p) (in_intent_sha256 i))
          with LocalOrderTransitionError "Local order state and intent disagree" ;;
        raise_if negb (oe_sequence e =? os_sequence p + 1)
          with LocalOrderTransitionError "Local order event sequence is duplicate, skipped or out of order" ;;
        raise_if oe_event_time_ms e <=? os_updated_time_ms p with LocalOrderTransitionError "Local order event time is stale" ;;
        raise_if negb (bool_decide (oe_previous_event_sha256 e = Some (os_event_sha256 p)))
          with LocalOrderTransitionError "Local order event chain is broken" ;;
        raise_if negb (order_allowed (os_status p) (oe_event_type e)) with LocalOrderTransitionError "Local order transition is impossible" ;;
        Ok (Some (order_state_sha256 p))
    end in
  new_order_state (LocalPaperOrderState (oe_authorization_sha256 e) (oe_intent_sha256 e) (oe_sequence e) (oe_event_time_ms e)
    (_EVENT_STATUSES (oe_event_type e)) (oe_reason e) previous_state_sha256 (order_event_sha256 e)).

Record order_transition : Type := LocalPaperOrderTransition {
  ot_intent : intent_record;
  ot_previous : option order_state;
  ot_event : order_event;
  ot_current : order_state;
}.

Definition order_transition_post_init (t : order_transition) : result unit :=
  let* s := _next_order_state (ot_intent t) (ot_previous t) (ot_event t) in
  raise_if negb (bool_decide (ot_current t = s)) with LocalOrderTransitionError "Current local order state does not match transition" ;;
  Ok tt.

Definition apply_local_order_event (i : intent_record) (previous : option order_state) (e : order_event) : result order_transition :=
  let* current := _next_order_state i previous e in
  let t := LocalPaperOrderTransition i previous e current in
  do* order_transition_post_init t ;; Ok t.

Definition build_local_order_event (i : intent_record) (sequence event_time_ms : Z) (t : order_event_type) (previous : option order_state)
    : result order_event :=
  do* _validate_intent i ;;
  new_order_event (LocalPaperOrderEvent (in_authorization_sha256 i) (in_intent_sha256 i) sequence event_time_ms t (_EVENT_REASONS t)
    (match previous with None => None | Some p => Some (os_event_sha256 p) end)).

(** ** The store *)

Record event_row : Type := EventRow {
  er_authorization_sha256 : string;
  er_intent_sha256 : string;
  er_sequence : Z;
  er_event_time_ms : Z;
  er_event_type : string;
  er_reason : string;
  er_previous_event_sha256 : option string;
  er_event_sha256 : string;
}.
Record state_row : Type := StateRow {
  sr_authorization_sha256 : string;
  sr_intent_sha256 : string;
  sr_sequence : Z;
  sr_updated_time_ms : Z;
  sr_status : string;
  sr_reason : string;
  sr_previous_state_sha256 : option string;
  sr_event_sha256 : string;
  sr_state_sha256 : string;
}.

(** The tables of the execution database an order store reads and writes. *)
Record order_db : Type := OrderDb {
  od_intents : intent_table;
  od_events : gmap (string * Z) event_row;
  od_states : gmap string state_row;
}.

Definition _get_intent (db : order_db) (h : string) : result intent_record :=
  match od_intents db !! h with
  | None => Err (Raise LocalOrderTransitionError "Local order event has no recorded accepted intent")
  | Some r => rcatch (new_intent_record r) (ExecutionJournalError :: IntentConflict :: VALUE_ERRORS)
                (Raise LocalOrderError "Stored intent failed local order validation")
  end.

(** The event and the state a row describes. *)
Definition row_event (r : event_row) : result order_event :=
  let* t := order_type_of (er_event_type r) in
  let* why := order_reason_of (er_reason r) in
  new_order_event (LocalPaperOrderEvent (er_authorization_sha256 r) (er_intent_sha256 r) (er_sequence r)
    (er_event_time_ms r) t why (er_previous_event_sha256 r)).
Definition row_state (r : state_row) : result order_state :=
  let* t := order_status_of (sr_status r) in
  let* why := order_reason_of (sr_reason r) in
  new_order_state (LocalPaperOrderState (sr_authorization_sha256 r) (sr_intent_sha256 r) (sr_sequence r)
    (sr_updated_time_ms r) t why (sr_previous_state_sha256 r) (sr_event_sha256 r)).

Definition _event_from_row (r : event_row) : result order_event :=
  let* e := rcatch (row_event r) (KeyError :: LocalOrderError :: LocalOrderTransitionError :: VALUE_ERRORS)
              (Raise LocalOrderError "Stored local order event is invalid") in
  raise_if negb (String.eqb (order_event_sha256 e) (er_event_sha256 r)) with LocalOrderError "Stored local order event digest changed" ;;
  Ok e.

Definition _state_from_row (row : option state_row) : result (option order_state) :=
  match row with
  | None => Ok None
  | Some r =>
      let* s := rcatch (row_state r) (KeyError :: LocalOrderError :: LocalOrderTransitionError :: VALUE_ERRORS)
                  (Raise LocalOrderError "Stored local order state is invalid") in
      raise_if negb (String.eqb (order_state_sha256 s) (sr_state_sha256 r)) with LocalOrderError "Stored local order state digest changed" ;;
      Ok (Some s)
  end.

Definition _select_state (db : order_db) (h : string) : option state_row := od_states db !! h.

Definition event_values (e : order_event) : event_row :=
  EventRow (oe_authorization_sha256 e) (oe_intent_sha256 e) (oe_sequence e) (oe_event_time_ms e) (order_type_value (oe_event_type e))
    (order_reason_value (oe_reason e)) (oe_previous_event_sha256 e) (order_event_sha256 e).
Definition state_values (s : order_state) : state_row :=
  StateRow (os_authorization_sha256 s) (os_intent_sha256 s) (os_sequence s) (os_updated_time_ms s) (order_status_value (os_status s))
    (order_reason_value (os_reason s)) (os_previous_state_sha256 s) (os_event_sha256 s) (order_state_sha256 s).

Definition rows_of {K} `{Countable K} {A} (m : gmap K A) : list A := map snd (map_to_list m).

Definition constraint_failed : exn := Raise IntegrityError "constraint failed".

(** PRIMARY KEY (authorization_sha256, sequence), UNIQUE (event_sha256), FOREIGN
    KEY (authorization_sha256) into the intents. *)
Definition _insert_event (e : order_event) : stm order_db unit := fun db =>
  let r := event_values e in
  let k := (er_authorization_sha256 r, er_sequence r) in
  if negb (opt_is_none (od_events db !! k))
     || existsb (fun x => String.eqb (er_event_sha256 x) (er_event_sha256 r)) (rows_of (od_events db))
     || opt_is_none (od_intents db !! er_authorization_sha256 r)
  then (db, Err constraint_failed)
  else (OrderDb (od_intents db) (<[k := r]> (od_events db)) (od_states db), Ok tt).

(** UNIQUE (state_sha256), over the rows other than the one under [k]. *)
Definition state_taken (db : order_db) (k h : string) : bool :=
  existsb (fun x => negb (String.eqb (sr_authorization_sha256 x) k) && String.eqb (sr_state_sha256 x) h) (rows_of (od_states db)).

(** [INSERT] the first state, or [UPDATE ... WHERE authorization_sha256 = ? AND
    state_sha256 = ?] and count the changed rows. *)
Definition _write_state (previous : option order_state) (current : order_state) : stm order_db unit := fun db =>
  let r := state_values current in
  let k := sr_authorization_sha256 r in
  let written := OrderDb (od_intents db) (od_events db) (<[k := r]> (od_states db)) in
  match previous with
  | None =>
      if negb (opt_is_none (od_states db !! k)) || state_taken db k (sr_state_sha256 r) || opt_is_none (od_intents db !! k)
      then (db, Err constraint_failed) else (written, Ok tt)
  | Some p =>
      match od_states db !! k with
      | Some x =>
          if String.eqb (sr_state_sha256 x) (order_state_sha256 p) then
            if state_taken db k (sr_state_sha256 r) then (db, Err constraint_failed) else (written, Ok tt)
          else (db, Err (Raise LocalOrderTransitionError "Local order state changed concurrently"))
      | None => (db, Err (Raise LocalOrderTransitionError "Local order state changed concurrently"))
      end
  end.

Definition apply_body (e : order_event) : stm order_db order_transition :=
  let! db := sget in
  let! i := slift (_get_intent db (oe_authorization_sha256 e)) in
  let! previous := slift (_state_from_row (_select_state db (oe_authorization_sha256 e))) in
  let! t := slift (apply_local_order_event i previous e) in
  do! _insert_event e ;;
  do! _write_state previous (ot_current t) ;;
  sret t.

(** [BEGIN IMMEDIATE ... commit] with the except clauses of [apply]. *)
Definition apply (e : order_event) : stm order_db order_transition :=
  scatch (srollback [LocalOrderError; LocalOrderTransitionError; IntegrityError] (apply_body e)) [IntegrityError]
    (Raise LocalOrderTransitionError "Local order event is duplicate or conflicts with durable state").

(** [SELECT ... WHERE authorization_sha256 = ? ORDER BY sequence] *)
Definition event_rows (db : order_db) (h : string) : list event_row :=
  sort_by er_sequence (filter (fun r => er_authorization_sha256 r = h) (rows_of (od_events db))).

(** The replay loop of [_load_order]. *)
Fixpoint replay (i : intent_record) (rows : list event_row) (previous : option order_state) : result (list order_event * option order_state) :=
  match rows with
  | [] => Ok ([], previous)
  | r :: rest =>
      let* e := _event_from_row r in
      let* t := apply_local_order_event i previous e in
      let* x := replay i rest (Some (ot_current t)) in
      Ok (e :: fst x, snd x)
  end.

Definition _load_order (db : order_db) (h : string) : result (list order_event * option order_state) :=
  let* i := _get_intent db h in
  let* x := replay i (event_rows db h) None in
  let* stored := _state_from_row (_select_state db h) in
  raise_if negb (bool_decide (snd x = stored)) with LocalOrderError "Stored local order projection differs from replay" ;;
  Ok (fst x, stored).

Definition get_state (db : order_db) (h : string) : result (option order_state) :=
  raise_if negb (sha256_pattern h) with LocalOrderError "Authorization digest is invalid" ;;
  let* x := _load_order db h in Ok (snd x).
Definition order_events (db : order_db) (h : string) : result (list order_event) :=
  raise_if negb (sha256_pattern h) with LocalOrderError "Authorization digest is invalid" ;;
  let* x := _load_order db h in Ok (fst x).
Definition count_orders (db : order_db) : Z := Z.of_nat (size (od_states db)).

Definition state_key_le (x y : state_row) : Prop := string_le (sr_authorization_sha256 x) (sr_authorization_sha256 y).
#[global] Instance state_key_le_dec x y : Decision (state_key_le x y).
Proof. unfold state_key_le. apply _. Defined.

Definition orders_json (db : order_db) : result text :=
  let* orders := rmap (fun r => let* x := _load_order db (sr_authorization_sha256 r) in
      match snd x with
      | Some s => Ok (JObj [("authorization_sha256", JStr (sr_authorization_sha256 r)); ("events", JArr (map order_event_as_record (fst x)));
                            ("state", order_state_as_record s)]%string)
      | None => Err (Raise AttributeError "as_record")
      end) (merge_sort state_key_le (rows_of (od_states db))) in
  Ok (json_dumps (JObj [("schema_version"%string, JInt ORDER_SCHEMA_VERSION); ("orders"%string, JArr orders)]) ++ [chr 10]).

(** * Properties *)

Definition order_event_valid (e : order_event) : Prop := order_event_post_init e = Ok tt.
Definition order_state_valid (s : order_state) : Prop := order_state_post_init s = Ok tt.

(** ** Rows read back *)

Lemma order_type_roundtrip t : order_type_of (order_type_value t) = Ok t.
Proof. by destruct t. Qed.
Lemma order_status_roundtrip s : order_status_of (order_status_value s) = Ok s.
Proof. by destruct s. Qed.
Lemma order_reason_roundtrip r : order_reason_of (order_reason_value r) = Ok r.
Proof. by destruct r. Qed.

Lemma row_event_values e : order_event_valid e -> row_event (event_values e) = Ok e.
Proof.
  intros He. unfold row_event, event_values. cbn [er_event_type er_reason er_authorization_sha256 er_intent_sha256 er_sequence
    er_event_time_ms er_previous_event_sha256]. rewrite order_type_roundtrip. cbn [rbind]. rewrite order_reason_roundtrip.
  cbn [rbind]. assert (LocalPaperOrderEvent (oe_authorization_sha256 e) (oe_intent_sha256 e) (oe_sequence e) (oe_event_time_ms e) (oe_event_type e)
    (oe_reason e) (oe_previous_event_sha256 e) = e) as -> by by destruct e.
  unfold new_order_event. by rewrite He.
Qed.

Lemma row_state_values s : order_state_valid s -> row_state (state_values s) = Ok s.
Proof.
  intros Hs. unfold row_state, state_values. cbn [sr_status sr_reason sr_authorization_sha256 sr_intent_sha256 sr_sequence
    sr_updated_time_ms sr_previous_state_sha256 sr_event_sha256]. rewrite order_status_roundtrip. cbn [rbind].
  rewrite order_reason_roundtrip. cbn [rbind].
  assert (LocalPaperOrderState (os_authorization_sha256 s) (os_intent_sha256 s) (os_sequence s) (os_updated_time_ms s) (os_status s)
    (os_reason s) (os_previous_state_sha256 s) (os_event_sha256 s) = s) as -> by by destruct s.
  unfold new_order_state. by rewrite Hs.
Qed.

Lemma event_from_values e : order_event_valid e -> _event_from_row (event_values e) = Ok e.
Proof. intros He. unfold _event_from_row. rewrite (row_event_values e He). cbn [rcatch rbind event_values er_event_sha256]. by rewrite String.eqb_refl. Qed.

Lemma state_from_values s : order_state_valid s -> _state_from_row (Some (state_values s)) = Ok (Some s).
Proof. intros Hs. unfold _state_from_row. rewrite (row_state_values s Hs). cbn [rcatch rbind state_values sr_state_sha256]. by rewrite String.eqb_refl. Qed.

(** ** One step *)

Record about_intent (i : intent_record) (e : order_event) : Prop := {
  ab_authorization : oe_authorization_sha256 e = in_authorization_sha256 i;
  ab_intent : oe_intent_sha256 e = in_intent_sha256 i;
}.

Record order_follows (i : intent_record) (p : order_state) (e : order_event) : Prop := {
  of_intent : os_authorization_sha256 p = in_authorization_sha256 i /\ os_intent_sha256 p = in_intent_sha256 i;
  of_sequence : oe_sequence e = os_sequence p + 1;
  of_time : os_updated_time_ms p < oe_event_time_ms e;
  of_chain : oe_previous_event_sha256 e = Some (os_event_sha256 p);
  of_allowed : order_allowed (os_status p) (oe_event_type e) = true;
}.

Definition order_accepts (i : intent_record) (previous : option order_state) (e : order_event) : Prop :=
  about_intent i e /\ match previous with
                      | None => oe_sequence e = 0 /\ oe_event_type e = CREATE
                      | Some p => order_follows i p e
                      end.

Definition order_next (previous : option order_state) (e : order_event) : order_state :=
  LocalPaperOrderState (oe_authorization_sha256 e) (oe_intent_sha256 e) (oe_sequence e) (oe_event_time_ms e)
    (_EVENT_STATUSES (oe_event_type e)) (oe_reason e) (order_state_sha256 <$> previous) (order_event_sha256 e).

Lemma validate_intent_ok i : intent_valid_record i -> OrderState._validate_intent i = Ok tt.
Proof. intros H. unfold _validate_intent. by rewrite H. Qed.

Lemma order_next_valid i previous e : order_event_valid e -> (forall p, previous = Some p -> order_state_valid p) ->
  order_accepts i previous e -> order_state_valid (order_next previous e).
Proof.
  unfold order_event_valid, order_event_post_init. intros He Hp [_ Hacc]. unfold order_state_valid, order_state_post_init, order_next.
  cbn [os_authorization_sha256 os_intent_sha256 os_sequence os_updated_time_ms os_status os_reason os_previous_state_sha256 os_event_sha256].
  destruct (negb _ || negb _) in He |- *; [done|]. destruct (negb _) in He |- *; [done|]. destruct (_ <? 0) in He |- *; [done|].
  destruct (bool_decide_reflect (oe_reason e = _EVENT_REASONS (oe_event_type e))) as [Er|]; [|done]. cbn [negb] in He.
  assert (_STATE_REASONS (_EVENT_STATUSES (oe_event_type e)) = _EVENT_REASONS (oe_event_type e)) as -> by by destruct (oe_event_type e).
  rewrite bool_decide_true by done. cbn [negb]. unfold order_event_sha256. rewrite digest_pattern. cbn [negb].
  destruct previous as [p|]; cbn [fmap option_fmap option_map].
  - specialize (Hp p eq_refl). unfold order_state_valid, order_state_post_init in Hp. destruct (_ || _) in Hp; [done|].
    destruct (negb (_ && _)) eqn:Eq in Hp; [done|]. clear Hp. apply negb_false_iff, andb_true_iff in Eq as [Eq _].
    rewrite (of_sequence _ _ _ Hacc). replace (os_sequence p + 1 =? 0) with false by lia. cbn [valid_digest].
    unfold order_state_sha256. by rewrite digest_pattern.
  - destruct Hacc as [-> _]. done.
Qed.

Lemma order_step i previous e : intent_valid_record i -> order_event_valid e -> (forall p, previous = Some p -> order_state_valid p) ->
  (order_accepts i previous e /\ _next_order_state i previous e = Ok (order_next previous e))
  \/ (~ order_accepts i previous e /\ exists x, _next_order_state i previous e = Err x /\ exn_cls x = LocalOrderTransitionError).
Proof.
  intros Hi He Hp. unfold _next_order_state. rewrite (validate_intent_ok i Hi). cbn [rbind]. pose proof (order_next_valid i previous e He Hp) as Hnext.
  destruct (negb _ || negb _) eqn:E1.
  { right. split; [|by eexists]. intros [[A1 A2] _]. rewrite A1, A2, !String.eqb_refl in E1. done. }
  apply orb_false_iff in E1 as [A1 A2]. apply negb_false_iff, String.eqb_eq in A1, A2.
  destruct previous as [p|].
  - rewrite (Hp p eq_refl). cbn [rcatch rbind].
    destruct (negb _ || negb _) eqn:E2; [right; split; [|by eexists]; intros [_ [[B1 B2] _ _ _ _]]; rewrite B1, B2, !String.eqb_refl in E2; done|].
    apply orb_false_iff in E2 as [B1 B2]. apply negb_false_iff, String.eqb_eq in B1, B2.
    destruct (negb (_ =? _)) eqn:E3; [right; split; [|by eexists]; intros [_ [_ B3 _ _ _]]; lia|].
    destruct (_ <=? _) eqn:E4; [right; split; [|by eexists]; intros [_ [_ _ B4 _ _]]; lia|].
    destruct (bool_decide_reflect (oe_previous_event_sha256 e = Some (os_event_sha256 p))) as [E5|E5]; cbn [negb];
      [|right; split; [|by eexists]; intros [_ [_ _ _ B5 _]]; done].
    destruct (order_allowed (os_status p) (oe_event_type e)) eqn:E6; cbn [negb];
      [|right; split; [|by eexists]; intros [_ [_ _ _ _ B6]]; congruence].
    assert (order_accepts i (Some p) e) as Hacc by (split; [done|constructor; [done|lia|lia|done|done]]).
    left. split; [done|]. cbn [rbind]. unfold new_order_state. fold (order_next (Some p) e). by rewrite (Hnext Hacc).
  - destruct (negb _ || negb _) eqn:E2; cbn [rbind].
    { right. split; [|by eexists]. intros [_ [B1 B2]]. rewrite B1, B2 in E2. done. }
    apply orb_false_iff in E2 as [B1 B2]. apply negb_false_iff, bool_decide_eq_true in B2.
    assert (order_accepts i None e) as Hacc by (split; [done|split; [lia|done]]).
    left. split; [done|]. unfold new_order_state. fold (order_next None e). by rewrite (Hnext Hacc).
Qed.

(** ** The chain of an intent *)

Lemma order_type_value_inj a b : order_type_value a = order_type_value b -> a = b.
Proof. by destruct a, b. Qed.
Lemma order_status_value_inj a b : order_status_value a = order_status_value b -> a = b.
Proof. by destruct a, b. Qed.
Lemma order_reason_value_inj a b : order_reason_value a = order_reason_value b -> a = b.
Proof. by destruct a, b. Qed.

(** The texts events and states are identified by. *)
Definition order_event_text (e : order_event) : text := json_dumps (JObj (order_event_material e)).
Definition order_state_text (s : order_state) : text := json_dumps (JObj (order_state_material s)).

Lemma order_event_binds T e e' : order_event_text e ∈ T -> order_event_text e' ∈ T -> order_event_sha256 e = order_event_sha256 e' -> e = e' \/ collision T.
Proof.
  intros Ht Ht' H. destruct (digest_binds T _ _ Ht Ht' H) as [E|E]; [|by right]. left. clear H. unfold order_event_material in E. json_fields E.
  repeat match goal with
  | H : order_type_value _ = order_type_value _ |- _ => apply order_type_value_inj in H
  | H : order_reason_value _ = order_reason_value _ |- _ => apply order_reason_value_inj in H
  end.
  destruct e, e'. cbn [oe_authorization_sha256 oe_intent_sha256 oe_sequence oe_event_time_ms oe_event_type oe_reason oe_previous_event_sha256] in *.
  subst. reflexivity.
Qed.

Lemma order_state_binds T s s' : order_state_text s ∈ T -> order_state_text s' ∈ T -> order_state_sha256 s = order_state_sha256 s' -> s = s' \/ collision T.
Proof.
  intros Ht Ht' H. destruct (digest_binds T _ _ Ht Ht' H) as [E|E]; [|by right]. left. clear H. unfold order_state_material in E. json_fields E.
  repeat match goal with
  | H : order_status_value _ = order_status_value _ |- _ => apply order_status_value_inj in H
  | H : order_reason_value _ = order_reason_value _ |- _ => apply order_reason_value_inj in H
  end.
  destruct s, s'. cbn [os_authorization_sha256 os_intent_sha256 os_sequence os_updated_time_ms os_status os_reason os_previous_state_sha256 os_event_sha256] in *.
  subst. reflexivity.
Qed.

Lemma next_order_inv i p e s : _next_order_state i p e = Ok s -> order_state_valid s /\ s = order_next p e.
Proof.
  unfold _next_order_state, new_order_state. intros H. apply rbind_ok in H as ([] & _ & H). destruct (_ || _) in H; [done|].
  apply rbind_ok in H as (h & Hh & H). apply rbind_ok in H as ([] & Hv & H). injection H as <-. split; [done|].
  assert (h = (order_state_sha256 <$> p)) as ->; [|done]. destruct p as [p|].
  - apply rbind_ok in Hh as ([] & _ & Hh). repeat (destruct (_ : bool) in Hh; [done|]). by injection Hh as <-.
  - destruct (_ || _) in Hh; [done|]. by injection Hh as <-.
Qed.

Lemma next_order_preserved i p e s : (forall q, p = Some q -> order_state_valid q) -> order_event_valid e ->
  _next_order_state i p e = Ok s -> order_state_valid s.
Proof. intros _ _ H. by apply next_order_inv in H as [? _]. Qed.

Lemma next_order_records i p e s : (forall q, p = Some q -> order_state_valid q) -> order_event_valid e ->
  _next_order_state i p e = Ok s -> os_previous_state_sha256 s = option_map order_state_sha256 p /\ os_event_sha256 s = order_event_sha256 e.
Proof. intros _ _ H. apply next_order_inv in H as [_ ->]. by destruct p. Qed.

#[export] Instance order_chain (i : intent_record) : HashChain order_event order_state := {
  hc_step := _next_order_state i; hc_event_ok := order_event_valid; hc_state_ok := order_state_valid;
  hc_state_digest := order_state_sha256; hc_event_digest := order_event_sha256;
  hc_previous := os_previous_state_sha256; hc_event := os_event_sha256;
  hc_preserved := next_order_preserved i; hc_records := next_order_records i;
  hc_hashed_state := fun s => [order_state_text s]; hc_hashed_event := fun e => [order_event_text e];
  hc_state_binds := fun T s s' Hs Hs' => order_state_binds T s s' (among_head _ _ _ Hs) (among_head _ _ _ Hs');
  hc_event_binds := fun T e e' He He' _ _ => order_event_binds T e e' (among_head _ _ _ He) (among_head _ _ _ He');
}.

Definition order_history (i : intent_record) : list order_event -> order_state -> Prop := @chained _ _ (order_chain i).

(** The whole life of an order: at most these three events, in this order. *)
Definition order_life : list (order_event_type * order_status) :=
  [(CREATE, PENDING_LOCAL); (ACTIVATE, ACTIVE_LOCAL); (CANCEL, CANCELLED_LOCAL)].

Record order_summary (i : intent_record) (es : list order_event) (s : order_state) : Prop := {
  osm_life : exists k, (k < 3)%nat /\ length es = S k /\ map oe_event_type es = map fst (take (S k) order_life)
    /\ snd <$> order_life !! k = Some (os_status s);
  osm_intent : Forall (about_intent i) es /\ os_authorization_sha256 s = in_authorization_sha256 i /\ os_intent_sha256 s = in_intent_sha256 i;
  osm_sequence : map oe_sequence es = seqZ 0 (Z.of_nat (length es)) /\ os_sequence s = Z.of_nat (length es) - 1;
  osm_times : StronglySorted Z.lt (map oe_event_time_ms es) /\ last (map oe_event_time_ms es) = Some (os_updated_time_ms s);
  osm_last : order_event_sha256 <$> last es = Some (os_event_sha256 s);
}.

(** What the order accepts next. *)
Record order_next_event (i : intent_record) (es : list order_event) (s : order_state) (e : order_event) : Prop := {
  one_type : fst <$> order_life !! length es = Some (oe_event_type e);
  one_intent : about_intent i e;
  one_sequence : oe_sequence e = Z.of_nat (length es);
  one_time : os_updated_time_ms s < oe_event_time_ms e;
  one_chain : oe_previous_event_sha256 e = order_event_sha256 <$> last es;
}.

Lemma follows_next i es s e : order_summary i es s -> order_accepts i (Some s) e <-> order_next_event i es s e.
Proof.
  intros [(k & Hk & Hlen & Hty & Hst) (_ & Hau & Hin) [_ Hseq] _ Hlast]. split.
  - intros [Hab [_ F1 F2 F3 F4]]. constructor; [|done|lia|done|congruence]. rewrite Hlen.
    destruct k as [|[|[|k]]]; [..|lia]; injection Hst as Hst; rewrite <- Hst in F4; by destruct (oe_event_type e).
  - intros [N1 N2 N3 N4 N5]. split; [done|]. constructor; [done|lia|done|congruence|]. rewrite Hlen in N1.
    destruct k as [|[|[|k]]]; [..|lia]; injection Hst as Hst; rewrite <- Hst; try done; injection N1 as <-; done.
Qed.

Lemma order_history_summary i es s : intent_valid_record i -> order_history i es s -> order_summary i es s.
Proof.
  intros Hi. induction 1 as [e s He H|es p e s Hc IH He H]; cbn [hc_step hc_event_ok order_chain] in *.
  - destruct (order_step i None e Hi He ltac:(done)) as [[[Ha [Hq Ht]] E]|[_ (x & E & _)]]; [|congruence]. rewrite E in H. injection H as <-.
    constructor; cbn [order_next os_status os_authorization_sha256 os_intent_sha256 os_sequence os_updated_time_ms os_event_sha256 length map last fmap].
    + exists 0%nat. cbn. rewrite Ht. repeat split; lia.
    + destruct Ha as [A1 A2]. split; [by repeat constructor|done].
    + rewrite Hq. done.
    + split; [repeat constructor|done].
    + done.
  - destruct (order_step i (Some p) e Hi He) as [[Hacc E]|[_ (x & E & _)]]; [intros q [= <-]; exact (chained_ok (H:=order_chain i) _ _ Hc)| |congruence].
    rewrite E in H. injection H as <-. pose proof (proj1 (follows_next i es p e IH) Hacc) as [N1 N2 N3 N4 N5].
    destruct IH as [(k & Hk & Hlen & Hty & Hst) (Hab & _) [Hsq _] [Hts Htl] Hlast].
    constructor; cbn [order_next os_status os_authorization_sha256 os_intent_sha256 os_sequence os_updated_time_ms os_event_sha256];
      rewrite ?map_app, ?length_app, ?last_snoc; cbn [length map].
    + rewrite Hlen in N1. exists (S k). destruct k as [|[|[|k]]]; [| |discriminate N1|lia]; injection N1 as N1; rewrite <- N1;
        (split; [lia|]; split; [lia|]; split; [by rewrite Hty|done]).
    + destruct N2 as [A1 A2]. split; [|done]. apply Forall_app. split; [done|]. by repeat constructor.
    + rewrite Hsq, N3. split; [|lia]. rewrite Nat2Z.inj_add, seqZ_app by lia. done.
    + split; [by eapply sorted_next|by rewrite last_snoc].
    + done.
Qed.

Lemma history_events i es s : order_history i es s -> Forall order_event_valid es.
Proof. induction 1 as [e s He H|es p e s Hc IH He H]; [by repeat constructor|]. apply Forall_app. split; [done|]. by repeat constructor. Qed.

Lemma history_valid i es s : order_history i es s -> order_state_valid s.
Proof. exact (chained_ok (H:=order_chain i) es s). Qed.

Lemma history_sequence i es s k e : intent_valid_record i -> order_history i es s -> es !! k = Some e -> oe_sequence e = Z.of_nat k.
Proof.
  intros Hi Hh Hk. destruct (order_history_summary i es s Hi Hh) as [_ _ [Hsq _] _ _].
  assert (map oe_sequence es !! k = Some (oe_sequence e)) as H.
  { change (@map order_event Z) with (@fmap list _ order_event Z). by rewrite list_lookup_fmap, Hk. }
  rewrite Hsq in H. apply lookup_seqZ in H. lia.
Qed.

(** ** Replaying the stored rows *)

Lemma apply_local_ok i p e s : _next_order_state i p e = Ok s -> apply_local_order_event i p e = Ok (LocalPaperOrderTransition i p e s).
Proof.
  intros H. unfold apply_local_order_event, order_transition_post_init. rewrite H. cbn [rbind ot_intent ot_previous ot_event ot_current].
  rewrite H. cbn [rbind]. by rewrite bool_decide_true.
Qed.

Lemma apply_local_err i p e x : _next_order_state i p e = Err x -> apply_local_order_event i p e = Err x.
Proof. intros H. unfold apply_local_order_event. by rewrite H. Qed.

Lemma replay_app i rows rows' p es q : replay i rows p = Ok (es, q) ->
  replay i (rows ++ rows') p = (let* x := replay i rows' q in Ok (es ++ fst x, snd x)).
Proof.
  revert p es q. induction rows as [|r rows IH]; intros p es q H; cbn [replay app] in *.
  - injection H as <- <-. cbn [app]. by destruct (replay i rows' p) as [[]|].
  - apply rbind_ok in H as (e & He & H). apply rbind_ok in H as (t & Ht & H). apply rbind_ok in H as ([es1 q1] & Hr & H). injection H as <- <-.
    rewrite He. cbn [rbind]. rewrite Ht. cbn [rbind]. rewrite (IH _ _ _ Hr). cbn [fst snd]. by destruct (replay i rows' q1) as [[]|].
Qed.

Lemma replay_history i es s : order_history i es s -> replay i (map event_values es) None = Ok (es, Some s).
Proof.
  induction 1 as [e s He H|es p e s Hc IH He H]; cbn [hc_step hc_event_ok order_chain] in *.
  - cbn [map replay]. rewrite (event_from_values e He). cbn [rbind]. rewrite (apply_local_ok _ _ _ _ H). done.
  - rewrite map_app, (replay_app _ _ _ _ _ _ IH). cbn [map replay]. rewrite (event_from_values e He). cbn [rbind].
    rewrite (apply_local_ok _ _ _ _ H). done.
Qed.

(** ** The tables *)

(** What the store holds for one authorization: the rows of an accepted history. *)
Record order_log (db : order_db) (h : string) (es : list order_event) (st : option order_state) : Prop := {
  ol_history : match st with
               | None => es = []
               | Some s => exists i, od_intents db !! h = Some i /\ order_history i es s
               end;
  ol_state : od_states db !! h = state_values <$> st;
  ol_events : forall n, od_events db !! (h, n) = if 0 <=? n then event_values <$> es !! Z.to_nat n else None;
}.

Record order_db_inv (db : order_db) : Prop := {
  odi_intents : journal_inv (od_intents db);
  odi_logs : forall h, exists es st, order_log db h es st;
}.

Lemma log_event db h es st n r : order_db_inv db -> order_log db h es st -> od_events db !! (h, n) = Some r ->
  exists e, es !! Z.to_nat n = Some e /\ 0 <= n /\ r = event_values e /\ order_event_valid e
    /\ oe_authorization_sha256 e = h /\ oe_sequence e = n.
Proof.
  intros Hdb [Hh _ He] E. rewrite He in E. destruct (0 <=? n) eqn:En; [|done]. destruct (es !! Z.to_nat n) as [e|] eqn:Ee; [|done].
  injection E as <-. exists e. destruct st as [s|]; [|subst es; done]. destruct Hh as (i & Hi & Hh). destruct (odi_intents _ Hdb h i Hi) as [Ha Hv].
  split; [done|]. split; [lia|]. split; [done|]. pose proof (history_events i es s Hh) as Hval. rewrite Forall_lookup in Hval.
  split; [by eapply Hval|]. destruct (order_history_summary i es s Hv Hh) as [_ [Hab _] _ _ _]. rewrite Forall_lookup in Hab.
  destruct (Hab _ _ Ee) as [Hab1 _]. split; [congruence|]. rewrite (history_sequence i es s _ _ Hv Hh Ee). lia.
Qed.

Lemma stored_event db k r : order_db_inv db -> od_events db !! k = Some r ->
  exists e, r = event_values e /\ order_event_valid e /\ k = (oe_authorization_sha256 e, oe_sequence e).
Proof.
  intros Hdb E. destruct k as [h n]. destruct (odi_logs _ Hdb h) as (es & st & Hl).
  destruct (log_event db h es st n r Hdb Hl E) as (e & _ & _ & -> & Hv & <- & <-). by exists e.
Qed.

Lemma stored_state db h r : order_db_inv db -> od_states db !! h = Some r ->
  exists s, r = state_values s /\ order_state_valid s /\ os_authorization_sha256 s = h.
Proof.
  intros Hdb E. destruct (odi_logs _ Hdb h) as (es & st & [Hh Hs _]). rewrite Hs in E. destruct st as [s|]; [|done]. injection E as <-.
  destruct Hh as (i & Hi & Hh). destruct (odi_intents _ Hdb h i Hi) as [Ha Hv]. exists s. split; [done|]. split; [by eapply history_valid|].
  destruct (order_history_summary i es s Hv Hh) as [_ (_ & Hau & _) _ _ _]. congruence.
Qed.

Lemma rows_of_elem {K} `{Countable K} {A} (m : gmap K A) x : x ∈ rows_of m <-> exists k, m !! k = Some x.
Proof.
  unfold rows_of. rewrite list_elem_of_In, in_map_iff. setoid_rewrite <- list_elem_of_In. split.
  - intros ([k y] & <- & Hin). exists k. by apply elem_of_map_to_list in Hin.
  - intros (k & E). exists (k, x). split; [done|]. by apply elem_of_map_to_list.
Qed.

Lemma rows_of_NoDup {K} `{Countable K} {A} (m : gmap K A) (key : A -> K) : (forall k x, m !! k = Some x -> key x = k) -> NoDup (rows_of m).
Proof.
  intros Hkey. unfold rows_of. apply (NoDup_fmap_1 key). rewrite <- list_fmap_compose.
  assert ((key ∘ snd) <$> map_to_list m = fst <$> map_to_list m) as ->; [|apply NoDup_fst_map_to_list].
  apply list_fmap_ext. intros i [k x] E. cbn. apply Hkey. apply elem_of_map_to_list. by eapply list_elem_of_lookup_2.
Qed.

Lemma event_row_elem db h r : order_db_inv db -> r ∈ event_rows db h <-> exists n, od_events db !! (h, n) = Some r.
Proof.
  intros Hdb. unfold event_rows. rewrite sort_by_perm, list_elem_of_filter, rows_of_elem. split.
  - intros (Ha & [h' n] & E). destruct (stored_event db _ r Hdb E) as (e & -> & _ & Hk). cbn in Ha. injection Hk as -> ->. rewrite Ha in E.
    by eexists.
  - intros (n & E). destruct (stored_event db _ r Hdb E) as (e & -> & _ & Hk). injection Hk as -> ->. split; [done|by eexists].
Qed.

Lemma event_rows_NoDup db h : order_db_inv db -> NoDup (event_rows db h).
Proof.
  intros Hdb. unfold event_rows. rewrite sort_by_perm. apply NoDup_filter, (rows_of_NoDup _ (fun r => (er_authorization_sha256 r, er_sequence r))).
  intros k x E. by destruct (stored_event db k x Hdb E) as (e & -> & _ & ->).
Qed.

Lemma log_row db h es st k e : order_log db h es st -> es !! k = Some e -> od_events db !! (h, Z.of_nat k) = Some (event_values e).
Proof. intros Hl E. rewrite (ol_events _ _ _ _ Hl). rewrite (proj2 (Z.leb_le 0 (Z.of_nat k))) by apply Nat2Z.is_nonneg. by rewrite Nat2Z.id, E. Qed.

Lemma log_sequences db h es st : order_db_inv db -> order_log db h es st -> map oe_sequence es = seqZ 0 (Z.of_nat (length es)).
Proof.
  intros Hdb [Hh _ _]. destruct st as [s|]; [|by subst]. destruct Hh as (i & Hi & Hh). destruct (odi_intents _ Hdb h i Hi) as [_ Hv].
  by destruct (order_history_summary i es s Hv Hh) as [_ _ [? _] _ _].
Qed.

(** The query returns the rows of the history, in its order. *)
Lemma event_rows_log db h es st : order_db_inv db -> order_log db h es st -> event_rows db h = map event_values es.
Proof.
  intros Hdb Hl. pose proof (log_sequences db h es st Hdb Hl) as Hsq.
  assert (map er_sequence (map event_values es) = seqZ 0 (Z.of_nat (length (map event_values es)))) as Hss by by rewrite map_map, length_map.
  assert (forall r, r ∈ event_rows db h <-> r ∈ map event_values es) as Hmem.
  { intros r. rewrite (event_row_elem db h r Hdb), list_elem_of_In, in_map_iff. setoid_rewrite <- list_elem_of_In. split.
    - intros (n & E). destruct (log_event db h es st n r Hdb Hl E) as (e & Ee & _ & -> & _). exists e. split; [done|]. by eapply list_elem_of_lookup_2.
    - intros (e & <- & He). apply list_elem_of_lookup in He as (k & Ek). eexists. by apply (log_row db h es st k). }
  unfold event_rows. apply sort_by_numbered; [|intros r; rewrite <- Hmem; unfold event_rows; by rewrite sort_by_perm|done].
  pose proof (event_rows_NoDup db h Hdb) as Hnd. unfold event_rows in Hnd. by rewrite sort_by_perm in Hnd.
Qed.

Lemma get_intent_ok db h : order_db_inv db ->
  _get_intent db h = match od_intents db !! h with
                     | Some i => Ok i
                     | None => Err (Raise LocalOrderTransitionError "Local order event has no recorded accepted intent")
                     end.
Proof.
  intros Hdb. unfold _get_intent. destruct (od_intents db !! h) as [i|] eqn:E; [|done]. destruct (odi_intents _ Hdb h i E) as [_ Hv].
  unfold new_intent_record. by rewrite Hv.
Qed.

Lemma log_state_valid db h es s : order_log db h es (Some s) -> order_state_valid s.
Proof. intros [(i & _ & Hh) _ _]. by eapply history_valid. Qed.

Lemma state_read db h es st : order_log db h es st -> _state_from_row (_select_state db h) = Ok st.
Proof.
  intros Hl. unfold _select_state. rewrite (ol_state _ _ _ _ Hl). destruct st as [s|]; [|done]. apply state_from_values. by eapply log_state_valid.
Qed.

Lemma load_order_log db h es st i : order_db_inv db -> order_log db h es st -> od_intents db !! h = Some i -> _load_order db h = Ok (es, st).
Proof.
  intros Hdb Hl Hi. unfold _load_order. rewrite (get_intent_ok db h Hdb), Hi. cbn [rbind]. rewrite (event_rows_log db h es st Hdb Hl).
  assert (replay i (map event_values es) None = Ok (es, st)) as ->.
  { destruct Hl as [Hh _ _]. destruct st as [s|]; [|by subst]. destruct Hh as (i' & Hi' & Hh). rewrite Hi in Hi'. injection Hi' as <-.
    by apply replay_history. }
  cbn [rbind fst snd]. rewrite (state_read db h es st Hl). cbn [rbind]. by rewrite bool_decide_true.
Qed.

(** ** The texts of the tables *)

(** The text a stored row is identified by. *)
Definition event_row_text (r : event_row) : text := json_dumps (JObj [
  ("schema_version", JInt 1); ("authorization_sha256", JStr (er_authorization_sha256 r)); ("intent_sha256", JStr (er_intent_sha256 r));
  ("sequence", JInt (er_sequence r)); ("event_time_ms", JInt (er_event_time_ms r)); ("event_type", JStr (er_event_type r));
  ("reason", JStr (er_reason r)); ("previous_event_sha256", JOptStr (er_previous_event_sha256 r))]%string).
Definition state_row_text (r : state_row) : text := json_dumps (JObj [
  ("schema_version", JInt 1); ("authorization_sha256", JStr (sr_authorization_sha256 r)); ("intent_sha256", JStr (sr_intent_sha256 r));
  ("sequence", JInt (sr_sequence r)); ("updated_time_ms", JInt (sr_updated_time_ms r)); ("status", JStr (sr_status r));
  ("reason", JStr (sr_reason r)); ("previous_state_sha256", JOptStr (sr_previous_state_sha256 r)); ("event_sha256", JStr (sr_event_sha256 r))]%string).
Definition order_db_texts (db : order_db) : list text :=
  journal_texts (od_intents db) ++ map event_row_text (rows_of (od_events db)) ++ map state_row_text (rows_of (od_states db)).

(** The texts a call of [apply] hashes: the event's and, when the order can be read,
    that of the state it would reach. *)
Definition order_call_texts (e : order_event) (db : order_db) : list text :=
  order_event_text e :: match _state_from_row (_select_state db (oe_authorization_sha256 e)) with Ok st => [order_state_text (order_next st e)] | Err _ => [] end.

Lemma event_values_text e : event_row_text (event_values e) = order_event_text e.
Proof. reflexivity. Qed.
Lemma state_values_text s : state_row_text (state_values s) = order_state_text s.
Proof. reflexivity. Qed.

Record order_texts_in (db : order_db) (T : list text) : Prop := {
  oti_intents : among (journal_texts (od_intents db)) T;
  oti_events : forall k r, od_events db !! k = Some r -> event_row_text r ∈ T;
  oti_states : forall k r, od_states db !! k = Some r -> state_row_text r ∈ T;
}.

Lemma order_texts_among db T : among (order_db_texts db) T <-> order_texts_in db T.
Proof.
  unfold order_db_texts. rewrite !among_app, !among_map. split.
  - intros (H1 & H2 & H3). constructor; [done|intros k r E; apply H2, rows_of_elem; by exists k|intros k r E; apply H3, rows_of_elem; by exists k].
  - intros [H1 H2 H3]. split_and!; [done|intros r Hr; apply rows_of_elem in Hr as (k & E); by eapply H2|intros r Hr; apply rows_of_elem in Hr as (k & E); by eapply H3].
Qed.

(** ** [apply] *)

(** The event is new to the tables, unless two texts collide. *)
Lemma insert_event_ok T db h es st i e : order_texts_in db T -> order_event_text e ∈ T -> order_db_inv db -> order_log db h es st -> od_intents db !! h = Some i -> order_event_valid e ->
  oe_authorization_sha256 e = h -> oe_sequence e = Z.of_nat (length es) ->
  collision T \/ _insert_event e db = (OrderDb (od_intents db) (<[(h, Z.of_nat (length es)) := event_values e]> (od_events db)) (od_states db), Ok tt).
Proof.
  intros HT Ht Hdb Hl Hi He Ha Hq. unfold _insert_event. cbn [event_values er_authorization_sha256 er_sequence er_event_sha256].
  change (er_authorization_sha256 (event_values e)) with (oe_authorization_sha256 e). rewrite Ha, Hq, Hi.
  rewrite (ol_events _ _ _ _ Hl), Nat2Z.id. rewrite (proj2 (Z.leb_le 0 (Z.of_nat (length es)))) by apply Nat2Z.is_nonneg.
  rewrite (lookup_ge_None_2 es (length es)) by done. cbn [fmap option_fmap option_map opt_is_none negb orb].
  destruct (existsb _ _) eqn:E; [|by right]. left. apply existsb_exists in E as (x & Hx & E). apply list_elem_of_In, rows_of_elem in Hx as (k & Ek).
  destruct (stored_event db k x Hdb Ek) as (e' & -> & _ & Hk). apply String.eqb_eq in E. cbn [event_values er_event_sha256] in E.
  pose proof (oti_events _ _ HT _ _ Ek) as Ht'. rewrite event_values_text in Ht'.
  destruct (order_event_binds T e' e Ht' Ht E) as [->|]; [|done]. exfalso. rewrite Hk, Ha, Hq, (ol_events _ _ _ _ Hl), Nat2Z.id in Ek.
  rewrite (proj2 (Z.leb_le 0 (Z.of_nat (length es)))) in Ek by apply Nat2Z.is_nonneg. by rewrite (lookup_ge_None_2 es (length es)) in Ek.
Qed.

Lemma state_fresh T db h s : order_texts_in db T -> order_state_text s ∈ T -> order_db_inv db -> order_state_valid s -> os_authorization_sha256 s = h ->
  state_taken db h (order_state_sha256 s) = true -> collision T.
Proof.
  intros HT Ht Hdb Hs Ha E. apply existsb_exists in E as (x & Hx & E). apply list_elem_of_In, rows_of_elem in Hx as (k & Ek).
  destruct (stored_state db k x Hdb Ek) as (s' & -> & _ & Hk). apply andb_true_iff in E as [E1 E2]. apply negb_true_iff, String.eqb_neq in E1.
  apply String.eqb_eq in E2. cbn [state_values sr_authorization_sha256 sr_state_sha256] in E1, E2.
  pose proof (oti_states _ _ HT _ _ Ek) as Ht'. rewrite state_values_text in Ht'. destruct (order_state_binds T s' s Ht' Ht E2) as [->|]; [|done]. congruence.
Qed.

(** The first state is inserted, a later one replaces the state it follows. *)
Lemma write_state_ok T db db' h st s : order_texts_in db T -> order_state_text s ∈ T -> order_db_inv db -> od_states db !! h = state_values <$> st -> od_intents db !! h <> None ->
  order_state_valid s -> os_authorization_sha256 s = h -> od_states db' = od_states db -> od_intents db' = od_intents db ->
  collision T \/ _write_state st s db' = (OrderDb (od_intents db') (od_events db') (<[h := state_values s]> (od_states db')), Ok tt).
Proof.
  intros HT Ht Hdb Hst Hi Hs Ha Es Ei. unfold _write_state. change (sr_authorization_sha256 (state_values s)) with (os_authorization_sha256 s).
  change (sr_state_sha256 (state_values s)) with (order_state_sha256 s). rewrite Ha, Es, Ei, Hst.
  assert (state_taken db' h (order_state_sha256 s) = state_taken db h (order_state_sha256 s)) as -> by (unfold state_taken; by rewrite Es).
  destruct (state_taken db h (order_state_sha256 s)) eqn:Et; [left; by apply (state_fresh T db h s)|]. right.
  destruct st as [p|]; cbn [fmap option_fmap option_map].
  - cbn [state_values sr_state_sha256]. by rewrite String.eqb_refl.
  - cbn [opt_is_none negb orb]. by destruct (od_intents db !! h).
Qed.

(** The tables after an accepted event. *)
Definition advanced_db (db : order_db) (h : string) (es : list order_event) (e : order_event) (s : order_state) : order_db :=
  OrderDb (od_intents db) (<[(h, Z.of_nat (length es)) := event_values e]> (od_events db)) (<[h := state_values s]> (od_states db)).

Lemma advanced_log db h es st i e s : order_log db h es st -> od_intents db !! h = Some i -> order_history i (es ++ [e]) s ->
  order_log (advanced_db db h es e s) h (es ++ [e]) (Some s).
Proof.
  intros Hl Hi Hh. constructor; cbn [advanced_db od_intents od_events od_states].
  - by exists i.
  - by rewrite lookup_insert_eq.
  - intros n. destruct (decide (n = Z.of_nat (length es))) as [->|Hn].
    + rewrite lookup_insert_eq, Nat2Z.id, (proj2 (Z.leb_le 0 (Z.of_nat (length es)))) by apply Nat2Z.is_nonneg.
      by rewrite lookup_app_r, Nat.sub_diag by done.
    + rewrite lookup_insert_ne by congruence. rewrite (ol_events _ _ _ _ Hl). destruct (Z.leb_spec 0 n) as [Hp|]; [|done].
      destruct (decide (Z.to_nat n < length es)%nat) as [Hlt|Hge]; [by rewrite lookup_app_l|].
      rewrite (lookup_ge_None_2 es), (lookup_ge_None_2 (es ++ [e])) by (rewrite ?length_app; cbn; lia). done.
Qed.

Lemma advanced_other db h es e s h' es' st' : order_log db h' es' st' -> h' <> h -> order_log (advanced_db db h es e s) h' es' st'.
Proof.
  intros [H1 H2 H3] Hne. constructor; cbn [advanced_db od_intents od_events od_states]; [done|by rewrite lookup_insert_ne|].
  intros n. rewrite lookup_insert_ne by congruence. apply H3.
Qed.

Lemma advanced_inv db h es st i e s : order_db_inv db -> order_log db h es st -> od_intents db !! h = Some i -> order_history i (es ++ [e]) s ->
  order_db_inv (advanced_db db h es e s).
Proof.
  intros Hdb Hl Hi Hh. split; [exact (odi_intents _ Hdb)|]. intros h'. destruct (decide (h' = h)) as [->|Hne].
  - eexists _, _. by eapply advanced_log.
  - destruct (odi_logs _ Hdb h') as (es' & st' & Hl'). exists es', st'. by apply advanced_other.
Qed.

(** An accepted event continues the stored history. *)
Lemma history_extends db h es st i e : order_db_inv db -> order_log db h es st -> od_intents db !! h = Some i -> order_event_valid e ->
  order_accepts i st e -> order_history i (es ++ [e]) (order_next st e) /\ oe_sequence e = Z.of_nat (length es)
    /\ order_state_valid (order_next st e).
Proof.
  intros Hdb Hl Hi He Hacc. destruct (odi_intents _ Hdb h i Hi) as [_ Hv]. pose proof Hl as [Hh _ _].
  assert (forall p, st = Some p -> order_state_valid p) as Hst by (intros p ->; by eapply log_state_valid).
  destruct (order_step i st e Hv He Hst) as [[_ E]|[Hn _]]; [|done].
  assert (order_history i (es ++ [e]) (order_next st e)) as Hn.
  { destruct st as [p|]; [|subst es; by apply (chained_first (H:=order_chain i))]. destruct Hh as (i' & Hi' & Hh). rewrite Hi in Hi'. injection Hi' as <-.
    by apply (chained_next (H:=order_chain i) es p). }
  split; [done|]. split; [|by eapply history_valid]. apply (history_sequence i _ _ (length es) e Hv Hn).
  by rewrite lookup_app_r, Nat.sub_diag by done.
Qed.

Lemma apply_body_spec T db h es st i e : order_texts_in db T -> among (order_call_texts e db) T -> order_db_inv db -> order_log db h es st -> od_intents db !! h = Some i -> order_event_valid e ->
  oe_authorization_sha256 e = h ->
  (~ order_accepts i st e /\ exists x, apply_body e db = (db, Err x) /\ exn_cls x = LocalOrderTransitionError)
  \/ (order_accepts i st e /\ (collision T \/ apply_body e db = (advanced_db db h es e (order_next st e), Ok (LocalPaperOrderTransition i st e (order_next st e))))).
Proof.
  intros HT Hcall Hdb Hl Hi He Ha. pose proof (odi_intents _ Hdb h i Hi) as [_ Hv]. unfold order_call_texts in Hcall. rewrite Ha, (state_read db h es st Hl) in Hcall.
  apply among_cons in Hcall as [Ht Hn]. apply among_head in Hn. unfold apply_body, sbind, sget, slift, sret.
  rewrite Ha, (get_intent_ok db h Hdb), Hi, (state_read db h es st Hl).
  assert (forall p, st = Some p -> order_state_valid p) as Hst by (intros p ->; by eapply log_state_valid).
  destruct (order_step i st e Hv He Hst) as [[Hacc E]|[Hna (x & E & Hx)]].
  2: { left. split; [done|]. exists x. by rewrite (apply_local_err _ _ _ _ E). }
  right. split; [done|]. rewrite (apply_local_ok _ _ _ _ E).
  destruct (history_extends db h es st i e Hdb Hl Hi He Hacc) as (Hh & Hq & Hval).
  destruct (insert_event_ok T db h es st i e HT Ht Hdb Hl Hi He Ha Hq) as [|Ei]; [by left|]. rewrite Ei. cbn [ot_current].
  destruct (write_state_ok T db (OrderDb (od_intents db) (<[(h, Z.of_nat (length es)):=event_values e]> (od_events db)) (od_states db)) h st
              (order_next st e) HT Hn Hdb (ol_state _ _ _ _ Hl)) as [|Ew]; [by rewrite Hi|done|done|done|done|by left|].
  right. by rewrite Ew.
Qed.

(** What one call of [apply] does. *)
Record applied (db : order_db) (e : order_event) (t : order_transition) (db' : order_db) : Prop := {
  ap_logs : exists i es st, od_intents db !! oe_authorization_sha256 e = Some i /\ order_log db (oe_authorization_sha256 e) es st
    /\ order_accepts i st e /\ t = LocalPaperOrderTransition i st e (order_next st e)
    /\ order_log db' (oe_authorization_sha256 e) (es ++ [e]) (Some (order_next st e));
  ap_others : forall h es st, h <> oe_authorization_sha256 e -> order_log db h es st -> order_log db' h es st;
  ap_intents : od_intents db' = od_intents db;
  ap_inv : order_db_inv db';
}.

Record refused (db : order_db) (e : order_event) : Prop := {
  rf_reason : forall i es st, od_intents db !! oe_authorization_sha256 e = Some i -> order_log db (oe_authorization_sha256 e) es st ->
    ~ order_accepts i st e;
}.

Lemma log_unique db h es st es' st' : order_db_inv db -> order_log db h es st -> order_log db h es' st' -> es = es' /\ st = st'.
Proof.
  intros Hdb Hl Hl'. destruct (od_intents db !! h) as [i|] eqn:Hi.
  - pose proof (load_order_log db h es st i Hdb Hl Hi) as E. rewrite (load_order_log db h es' st' i Hdb Hl' Hi) in E. by injection E as -> ->.
  - destruct Hl as [H _ _], Hl' as [H' _ _]. destruct st as [s|]; [destruct H as (? & ? & _); congruence|].
    destruct st' as [s'|]; [destruct H' as (? & ? & _); congruence|]. by subst.
Qed.

Lemma advanced_texts T db h es st e s : order_texts_in db T -> order_event_text e ∈ T -> order_state_text s ∈ T -> order_log db h es st ->
  order_texts_in (advanced_db db h es e s) T.
Proof.
  intros [H1 H2 H3] He Hs _. constructor; cbn [advanced_db od_intents od_events od_states]; [done|..]; intros k r E; apply lookup_insert_Some in E as [[_ <-]|[_ E]];
    [done|by eapply H2|done|by eapply H3].
Qed.

Lemma apply_spec T db e db' out : order_texts_in db T -> among (order_call_texts e db) T -> order_db_inv db -> order_event_valid e -> apply e db = (db', out) ->
  collision T \/ match out with
               | Ok t => applied db e t db' /\ order_texts_in db' T
               | Err x => db' = db /\ exn_cls x = LocalOrderTransitionError /\ refused db e
               end.
Proof.
  intros HT Hcall Hdb He H. set (h := oe_authorization_sha256 e). destruct (odi_logs _ Hdb h) as (es & st & Hl).
  unfold apply, scatch, srollback in H. destruct (od_intents db !! h) as [i|] eqn:Hi.
  - destruct (apply_body_spec T db h es st i e HT Hcall Hdb Hl Hi He eq_refl) as [(Hn & x & E & Hx)|(Hacc & [|E])]; [|by left|]; rewrite E in H.
    + rewrite bool_decide_true in H by (rewrite Hx; in_list). cbn [rcatch] in H.
      rewrite bool_decide_false in H by (rewrite Hx, list_elem_of_singleton; done). injection H as <- <-. right. split; [done|]. split; [done|].
      constructor. intros i' es' st' Hi' Hl'. fold h in Hi', Hl'. rewrite Hi in Hi'. injection Hi' as <-. by destruct (log_unique db h es st es' st' Hdb Hl Hl') as [-> ->].
    + cbn [rcatch] in H. injection H as <- <-. right. destruct (history_extends db h es st i e Hdb Hl Hi He Hacc) as (Hh & _ & _).
      unfold order_call_texts in Hcall. fold h in Hcall. rewrite (state_read db h es st Hl) in Hcall. apply among_cons in Hcall as [Ht Hn]. apply among_head in Hn.
      split; [|by eapply advanced_texts]. constructor.
      * exists i, es, st. fold h. do 4 (split; [done|]). by eapply advanced_log.
      * intros h' es' st' Hne Hl'. by apply advanced_other.
      * done.
      * by eapply advanced_inv.
  - unfold apply_body, sbind, sget, slift in H. fold h in H. rewrite (get_intent_ok db h Hdb), Hi in H. cbn in H. injection H as <- <-.
    right. split; [done|]. split; [done|]. constructor. intros i' es' st' Hi'. fold h in Hi'. congruence.
Qed.

(** ** Whole histories of the database *)

(** The journal and the order store share one database. *)
Definition record_in (d : execution_decision) : stm order_db intent_record := fun db =>
  let '(rows, out) := record d (od_intents db) in (OrderDb rows (od_events db) (od_states db), out).

Inductive execution_call : Type := RecordIntent (d : execution_decision) | ApplyEvent (e : order_event).

Definition call_ok (c : execution_call) : Prop :=
  match c with RecordIntent d => decision_built d | ApplyEvent e => order_event_valid e end.

(** The database after a sequence of calls, refused ones included, and the events accepted. *)
Fixpoint run_execution (calls : list execution_call) (db : order_db) : order_db * list order_event :=
  match calls with
  | [] => (db, [])
  | RecordIntent d :: rest => run_execution rest (fst (record_in d db))
  | ApplyEvent e :: rest =>
      let '(db1, out) := apply e db in
      let '(db2, es) := run_execution rest db1 in
      (db2, match out with Ok _ => e :: es | Err _ => es end)
  end.

(** The texts hashed by a sequence of calls, call by call. *)
Fixpoint run_execution_texts (calls : list execution_call) (db : order_db) : list text :=
  match calls with
  | [] => []
  | RecordIntent d :: rest => record_texts d ++ run_execution_texts rest (fst (record_in d db))
  | ApplyEvent e :: rest => order_call_texts e db ++ run_execution_texts rest (fst (apply e db))
  end.

Definition empty_db : order_db := OrderDb ∅ ∅ ∅.

Lemma empty_db_inv : order_db_inv empty_db.
Proof.
  split; [intros h r E; cbn [empty_db od_intents] in E; by rewrite lookup_empty in E|].
  intros h. exists [], None. constructor; [done|done|]. intros n. cbn [empty_db od_events].
  rewrite lookup_empty, lookup_nil. by destruct (0 <=? n).
Qed.

Lemma empty_db_texts T : order_texts_in empty_db T.
Proof.
  constructor; cbn [empty_db od_intents od_events od_states]; [apply journal_texts_among; intros h r E|intros k r E..]; by rewrite lookup_empty in E.
Qed.

Lemma record_in_spec T d db : order_texts_in db T -> among (record_texts d) T -> order_db_inv db -> decision_built d ->
  collision T \/ (order_texts_in (fst (record_in d db)) T /\ order_db_inv (fst (record_in d db)) /\ (forall h es st, order_log db h es st -> order_log (fst (record_in d db)) h es st)
                /\ forall h i, od_intents db !! h = Some i -> od_intents (fst (record_in d db)) !! h = Some i).
Proof.
  intros HT Hcall Hdb Hd. unfold record_in. pose proof (record_texts_kept T d _ (oti_intents _ _ HT) Hcall Hd (odi_intents _ Hdb)) as Hkept.
  destruct (record d (od_intents db)) as [rows out] eqn:E. cbn [fst] in *.
  assert (collision T \/ (journal_inv rows /\ forall h i, od_intents db !! h = Some i -> rows !! h = Some i)) as [Hc|[Hj Hk]]; [|by left|].
  { destruct (record_spec T d _ rows out (oti_intents _ _ HT) Hcall Hd (odi_intents _ Hdb) E) as [(_ & -> & _)|(Hacc & [(_ & -> & _)|[(r & _ & _ & -> & _)|[(Hn & -> & _)|(Hc & _)]]])].
    1-3: right; split; [exact (odi_intents _ Hdb)|done].
    - right. split.
      + intros h r Hl. apply lookup_insert_Some in Hl as [[<- <-]|[_ Hl]]; [split; [done|by apply intent_of_valid]|by apply (odi_intents _ Hdb)].
      + intros h i Hi. destruct (decide (h = authorization_key d)) as [->|Hne]; [congruence|by rewrite lookup_insert_ne].
    - by left. }
  right. assert (forall h es st, order_log db h es st -> order_log (OrderDb rows (od_events db) (od_states db)) h es st) as Hlog.
  { intros h es st [H1 H2 H3]. constructor; [|done|done]. destruct st as [s|]; [|done]. destruct H1 as (i & Hi & Hh). exists i. split; [by apply Hk|done]. }
  split; [constructor; [done|apply HT|apply HT]|]. split; [split; [done|]|split; [done|done]]. intros h. destruct (odi_logs _ Hdb h) as (es & st & Hl). exists es, st. by apply Hlog.
Qed.

Definition about (h : string) (es : list order_event) : list order_event := filter (fun e => oe_authorization_sha256 e = h) es.

(** Whatever is called, the stored history of every authorization is extended by
    exactly its accepted events. *)
Lemma run_execution_logs T calls db db' es : order_texts_in db T -> among (run_execution_texts calls db) T -> Forall call_ok calls -> order_db_inv db -> run_execution calls db = (db', es) ->
  collision T \/ (order_db_inv db' /\ forall h es0 st0, order_log db h es0 st0 -> exists st, order_log db' h (es0 ++ about h es) st).
Proof.
  revert db db' es. induction calls as [|[d|e] calls IH]; intros db db' es HT Hts Hc Hdb H; cbn [run_execution run_execution_texts] in H, Hts;
    [|apply among_app in Hts as [Hcall Hts]..].
  - injection H as <- <-. right. split; [done|]. intros h es0 st0 Hl. exists st0. by rewrite app_nil_r.
  - inversion_clear Hc as [|? ? Hd Hrest]. destruct (record_in_spec T d db HT Hcall Hdb Hd) as [|(HT1 & Hinv & Hlogs & _)]; [by left|].
    destruct (IH _ _ _ HT1 Hts Hrest Hinv H) as [|[Hdb' Hl']]; [by left|]. right. split; [done|]. intros h es0 st0 Hl. by eapply Hl', Hlogs.
  - inversion_clear Hc as [|? ? He Hrest]. destruct (apply e db) as [db1 out] eqn:Ea. destruct (run_execution calls db1) as [db2 more] eqn:Er.
    injection H as <- <-. cbn [fst] in Hts. destruct (apply_spec T db e db1 out HT Hcall Hdb He Ea) as [|Hs]; [by left|]. destruct out as [t|x].
    + destruct Hs as [[(i & es1 & st1 & _ & Hl1 & _ & _ & Hnew) Hother _ Hinv] HT1]. destruct (IH _ _ _ HT1 Hts Hrest Hinv Er) as [|[Hdb' Hl']]; [by left|].
      right. split; [done|]. intros h es0 st0 Hl. unfold about. rewrite filter_cons. destruct (decide (oe_authorization_sha256 e = h)) as [Eh|Hne].
      * rewrite Eh in *. destruct (log_unique db h es0 st0 es1 st1 Hdb Hl Hl1) as [-> _]. destruct (Hl' _ _ _ Hnew) as (st & Hst). exists st.
        by rewrite <- app_assoc in Hst.
      * eapply Hl', Hother; [congruence|done].
    + destruct Hs as (-> & _ & _). destruct (IH _ _ _ HT Hts Hrest Hdb Er) as [|[Hdb' Hl']]; [by left|]. right. by split.
Qed.

(** * Claims *)

(** C22. The life of an order.  Whatever valid events are applied to an intent's
    order, the accepted ones are CREATE, then ACTIVATE, then CANCEL, a prefix of
    this sequence and nothing else (a pending order cannot be cancelled, a
    cancelled one accepts nothing), about this intent, numbered 0, 1, 2, at strictly
    increasing times, the state carrying the last event's digest and time; a further
    event is accepted exactly when it is the next of these, later, and chained to
    the last event's digest, and any other one is a LocalOrderTransitionError. *)
Theorem order_life_exact i es s e (Hi : intent_valid_record i) (Hh : order_history i es s) (He : order_event_valid e) :
  order_summary i es s
  /\ ((order_next_event i es s e /\ _next_order_state i (Some s) e = Ok (order_next (Some s) e))
      \/ (~ order_next_event i es s e /\ exists x, _next_order_state i (Some s) e = Err x /\ exn_cls x = LocalOrderTransitionError)).
Proof.
  pose proof (order_history_summary i es s Hi Hh) as Hs. split; [done|]. rewrite <- (follows_next i es s e Hs).
  apply order_step; [done|done|]. intros p [= <-]. exact (history_valid i es s Hh).
Qed.

(** The order store is its accepted history.  From an empty database, over any
    sequence of journal records and order events, refused ones included, reading an
    order whose intent is recorded never fails: the events returned are exactly
    those accepted for it, in order, the state is the one their replay reaches
    (none when there are none), and no stored row is ever reported as changed; unless
    two of the texts hashed by these calls collide under SHA-256. *)
Theorem order_store_replays calls db es (Hc : Forall call_ok calls) (Hrun : run_execution calls empty_db = (db, es)) :
  collision (run_execution_texts calls empty_db) \/ forall h i, od_intents db !! h = Some i ->
    order_events db h = Ok (about h es)
    /\ exists st, get_state db h = Ok st
       /\ match st with None => about h es = [] | Some s => order_history i (about h es) s end.
Proof.
  destruct (run_execution_logs _ calls empty_db db es (empty_db_texts _) (among_refl _) Hc empty_db_inv Hrun) as [|[Hdb Hl]]; [by left|]. right. intros h i Hi.
  destruct (odi_logs _ empty_db_inv h) as (es0 & st0 & Hl0). assert (es0 = []) as ->.
  { destruct Hl0 as [H _ _]. destruct st0 as [s|]; [|done]. destruct H as (j & Hj & _). cbn [empty_db od_intents] in Hj. by rewrite lookup_empty in Hj. }
  destruct (Hl h [] st0 Hl0) as (st & Hst). cbn [app] in Hst. pose proof (load_order_log db h _ st i Hdb Hst Hi) as E.
  assert (sha256_pattern h = true) as Hpat.
  { destruct (odi_intents _ Hdb h i Hi) as [<- Hv]. unfold intent_valid_record, intent_post_init in Hv. cbn [existsb] in Hv.
    by destruct (sha256_pattern (in_authorization_sha256 i)). }
  unfold order_events, get_state. rewrite Hpat, E. cbn [negb rbind fst snd]. split; [done|]. exists st. split; [done|].
  destruct Hst as [Hh _ _]. destruct st as [s|]; [|done]. destruct Hh as (j & Hj & Hh). rewrite Hi in Hj. by injection Hj as <-.
Qed.

Definition sample_intent : intent_record := intent_of accepted_sample.
Definition sample_create : order_event :=
  LocalPaperOrderEvent (authorization_key accepted_sample) (in_intent_sha256 sample_intent) 0 5 CREATE ACCEPTED_INTENT_RECORDED None.
Definition sample_activate : order_event :=
  LocalPaperOrderEvent (authorization_key accepted_sample) (in_intent_sha256 sample_intent) 1 6 ACTIVATE LOCAL_ACTIVATION_CONFIRMED
    (Some (order_event_sha256 sample_create)).

Lemma sample_intent_valid : intent_valid_record sample_intent.
Proof. apply intent_of_valid; [exact accepted_sample_built|reflexivity]. Qed.

Lemma sample_create_valid : order_event_valid sample_create.
Proof.
  unfold order_event_valid, order_event_post_init, sample_create, sample_intent, intent_of, authorization_key, authorization_sha256, _expected_sha256.
  cbn [oe_authorization_sha256 oe_intent_sha256 in_intent_sha256]. by rewrite !digest_pattern.
Qed.

Lemma sample_activate_valid : order_event_valid sample_activate.
Proof.
  unfold order_event_valid, order_event_post_init, sample_activate, sample_intent, intent_of, authorization_key, authorization_sha256, _expected_sha256.
  cbn [oe_authorization_sha256 oe_intent_sha256 in_intent_sha256 oe_previous_event_sha256 valid_digest].
  unfold order_event_sha256. rewrite !digest_pattern. reflexivity.
Qed.

Lemma sample_order_history : order_history sample_intent [sample_create] (order_next None sample_create).
Proof.
  apply (chained_first (H:=order_chain sample_intent)); [exact sample_create_valid|].
  destruct (order_step sample_intent None sample_create sample_intent_valid sample_create_valid ltac:(discriminate)) as [[_ E]|[Hn _]]; [exact E|].
  exfalso. apply Hn. split; [split; reflexivity|split; reflexivity].
Qed.

Lemma order_life_exact_witness : _next_order_state sample_intent (Some (order_next None sample_create)) sample_activate
  = Ok (order_next (Some (order_next None sample_create)) sample_activate).
Proof.
  destruct (order_life_exact sample_intent [sample_create] (order_next None sample_create) sample_activate sample_intent_valid sample_order_history
              sample_activate_valid) as [_ [[_ E]|[Hn _]]]; [exact E|].
  exfalso. apply Hn. constructor; [reflexivity|split; reflexivity|reflexivity|reflexivity|reflexivity].
Defined.

Definition sample_calls : list execution_call :=
  [RecordIntent accepted_sample; ApplyEvent sample_activate; ApplyEvent sample_create; RecordIntent accepted_sample; ApplyEvent sample_activate].

Lemma sample_calls_ok : Forall call_ok sample_calls.
Proof.
  constructor; [exact accepted_sample_built|]. constructor; [exact sample_activate_valid|]. constructor; [exact sample_create_valid|].
  constructor; [exact accepted_sample_built|]. constructor; [exact sample_activate_valid|constructor].
Qed.

Lemma order_store_replays_witness : collision (run_execution_texts sample_calls empty_db) \/ forall h i, od_intents (fst (run_execution sample_calls empty_db)) !! h = Some i ->
  order_events (fst (run_execution sample_calls empty_db)) h = Ok (about h (snd (run_execution sample_calls empty_db))).
Proof.
  destruct (order_store_replays sample_calls _ _ sample_calls_ok (surjective_pairing _)) as [Hc|H]; [left; exact Hc|right].
  intros h i Hi. exact (proj1 (H h i Hi)).
Defined.
