(* ===== verification/LocalFills.v ===== *)
(** * Local fills and costs (yatl/execution/fills.py)

    The adapter that carries an accepted, journalled and active order into the
    backtest's fill engine and cost model, without a partial state change. *)
From S2P Require Import Prelude PyDecimal PyText Digest Market BacktestConfig MarketView Fills Costs StrategyContracts Regime RiskContracts Sizing Protective KillSwitch RiskAdapter Execution Journal OrderState.

Definition _validate_decision (d : execution_decision) : result unit :=
  do* rcatch (execution_decision_post_init d) VALUE_ERRORS (Raise LocalPaperFillError "Execution decision failed deterministic reconstruction") ;;
  raise_if negb (bool_decide (ed_disposition d = ACCEPT_LOCAL_PAPER)) || opt_is_none (ed_quantity d)
    with LocalPaperFillError "Execution decision is not accepted local Paper" ;;
  Ok tt.

Definition _validate_intent (d : execution_decision) (i : intent_record) : result unit :=
  let* expected := rcatch (from_decision d) [ExecutionJournalError; IntentConflict]
                     (Raise LocalPaperFillError "Accepted local intent failed reconstruction") in
  raise_if negb (bool_decide (i = expected)) with LocalPaperFillError "Accepted local intent and decision disagree" ;;
  Ok tt.

Definition _validate_order (i : intent_record) (o : order_state) : result unit :=
  do* rcatch (order_state_post_init o) (LocalOrderError :: LocalOrderTransitionError :: VALUE_ERRORS)
        (Raise LocalPaperFillError "Local order state failed reconstruction") ;;
  raise_if negb (String.eqb (os_authorization_sha256 o) (in_authorization_sha256 i))
           || negb (String.eqb (os_intent_sha256 o) (in_intent_sha256 i))
           || negb (bool_decide (os_status o = ACTIVE_LOCAL)) || negb (os_sequence o =? 1)
    with LocalPaperFillError "Local order is not the active accepted intent" ;;
  Ok tt.

Definition _fill_record (f : costed_fill) : json :=
  let r := cf_reference f in
  let v := cf_values f in
  JObj [("action", JStr (intent_action_value (fr_action r))); ("symbol", JStr (fr_symbol r));
    ("decision_time_ms", JInt (fr_decision_time_ms r)); ("fill_time_ms", JInt (fill_time_ms r)); ("quantity", JStr (fr_quantity r));
    ("reference_price", JStr (reference_price r)); ("reason", JStr (fill_reason_value (fr_reason r)));
    ("fee_bps", JStr (format_f (cf_fee_bps f))); ("slippage_bps", JStr (format_f (cf_slippage_bps f)));
    ("execution_price", JStr (format_f (execution_price v))); ("gross_quote", JStr (format_f (gross_quote v)));
    ("fee_quote", JStr (format_f (fee_quote v))); ("slippage_quote", JStr (format_f (slippage_quote v)));
    ("cash_delta", JStr (format_f (cash_delta v))); ("asset_delta", JStr (format_f (asset_delta v)))]%string.

Record fill_step : Type := LocalPaperFillStep {
  fs_authorization_sha256 : string;
  fs_intent_sha256 : string;
  fs_order_state_sha256 : string;
  p2_intent : paper_intent;
  references : list fill_reference;
  fs_fills : list costed_fill;
}.

(** The digest test spells out the pattern: 64 characters, all in "0123456789abcdef". *)
Definition fill_step_post_init (s : fill_step) : result unit :=
  raise_if bool_decide (references s = []) || negb (length (references s) =? length (fs_fills s))%nat
           || negb (bool_decide (map cf_reference (fs_fills s) = references s))
    with LocalPaperFillError "P2 fill step identity is invalid" ;;
  raise_if existsb (fun v => negb (sha256_pattern v)) [fs_authorization_sha256 s; fs_intent_sha256 s; fs_order_state_sha256 s]
    with LocalPaperFillError "P2 fill step evidence digest is invalid" ;;
  raise_if match references s with r :: _ => negb (bool_decide (fr_action r = pi_action (p2_intent s))) | [] => true end
    with LocalPaperFillError "P2 fill step action or quantity changed" ;;
  Ok tt.

Definition fill_step_record (s : fill_step) : json :=
  let i := p2_intent s in
  JObj [("schema_version", JInt 1); ("authorization_sha256", JStr (fs_authorization_sha256 s)); ("intent_sha256", JStr (fs_intent_sha256 s));
    ("order_state_sha256", JStr (fs_order_state_sha256 s));
    ("p2_intent", JObj [("action", JStr (intent_action_value (pi_action i))); ("decision_time_ms", JInt (pi_decision_time_ms i));
                        ("quantity", JOptStr (pi_quantity i)); ("stop_price", JOptStr (pi_stop_price i)); ("target_price", JOptStr (pi_target_price i))]);
    ("fills", JArr (map _fill_record (fs_fills s)))]%string.
Definition fill_step_sha256 (s : fill_step) : string := digest (fill_step_record s).

(** [LocalPaperFillCostAdapter]: the symbol and the specification are fixed, the rest changes. *)
Record fill_adapter : Type := LocalPaperFillCostAdapter {
  fa_symbol : string;
  fa_spec : backtest_spec;
  fa_engine : engine_state;
  fa_active_quantity : option string;
  fa_last_sequence : option Z;
  fa_last_time : option Z;
}.

Definition new_fill_adapter (symbol : string) (spec : backtest_spec) : result fill_adapter :=
  raise_if negb (str_in symbol SYMBOLS) with LocalPaperFillError "Accepted P2 identity is invalid" ;;
  raise_if negb (String.eqb (bs_symbol spec) symbol) with LocalPaperFillError "Accepted P2 symbol differs from the adapter" ;;
  let* engine := new_engine symbol in
  Ok (LocalPaperFillCostAdapter symbol spec engine None None None).

Definition fa_has_position (a : fill_adapter) : bool := has_position (fa_engine a).

Definition _validate (a : fill_adapter) (ev : decision_event) (d : execution_decision) (i : intent_record) (o : order_state) (cost_spec : backtest_spec)
    : result unit :=
  do* _validate_decision d ;;
  do* _validate_intent d i ;;
  do* _validate_order i o ;;
  raise_if negb (bool_decide (cost_spec = fa_spec a)) with LocalPaperFillError "P2 event, candle or cost policy is invalid" ;;
  let strategy := rq_decision (au_request (ed_authorization d)) in
  raise_if negb (String.eqb (sd_symbol strategy) (fa_symbol a)) || negb (String.eqb (ms_symbol (ev_snapshot ev)) (fa_symbol a))
           || negb (sd_decision_time_ms strategy =? ev_decision_time_ms ev)
           || negb (bool_decide (sc_snapshot (sd_context strategy) = ev_snapshot ev))
           || negb ((start_time_ms (fa_spec a) <=? ev_decision_time_ms ev) && (ev_decision_time_ms ev <? end_time_ms (fa_spec a)))
    with LocalPaperFillError "Accepted intent and P2 event disagree" ;;
  let expected_sequence := match fa_last_sequence a with None => 0 | Some n => n + 1 end in
  raise_if negb (ev_sequence ev =? expected_sequence) || opt_le (ev_decision_time_ms ev) (fa_last_time a)
    with LocalPaperFillError "P2 event is duplicate or out of order" ;;
  Ok tt.

Definition _p2_intent (a : fill_adapter) (d : execution_decision) : result paper_intent :=
  let strategy := rq_decision (au_request (ed_authorization d)) in
  match ed_action d with
  | ENTER_LONG =>
      match fa_has_position a, sd_setup strategy with
      | false, Some setup =>
          new_intent (PaperIntent ENTER_LONG (sd_decision_time_ms strategy) (ed_quantity d) (Some (invalidation_price setup)) (Some (setup_target_price setup)))
      | _, _ => Err (Raise LocalPaperFillError "Local entry conflicts with Paper state")
      end
  | EXIT_LONG =>
      raise_if negb (fa_has_position a) || negb (bool_decide (fa_active_quantity a = ed_quantity d))
        with LocalPaperFillError "Local exit conflicts with Paper state" ;;
      new_intent (PaperIntent EXIT_LONG (sd_decision_time_ms strategy) None None None)
  | HOLD => Err (Raise LocalPaperFillError "Accepted local intent has no fill action")
  end.

(** [copy.deepcopy(self._engine)]: the candidate is a value of its own; the
    adapter's fields are assigned only after the step is built. *)
Definition local_fill (a : fill_adapter) (ev : decision_event) (d : execution_decision) (i : intent_record) (o : order_state) (bar : candle)
    (cost_spec : backtest_spec) : result (engine_state * fill_step) :=
  do* _validate a ev d i o cost_spec ;;
  let* p2 := _p2_intent a d in
  let '(candidate, out) := process (fa_symbol a) ev p2 bar (fa_engine a) in
  let* filled := rcatch (let* refs := out in let* fills := rmap (fun r => apply_costs r cost_spec) refs in Ok (refs, fills))
                   [FillModelError; CostModelError]
                   (Raise LocalPaperFillError "Accepted P2 fill or cost contract rejected the local intent") in
  let '(refs, fills) := filled in
  raise_if bool_decide (refs = []) with LocalPaperFillError "Accepted local intent produced no P2 fill" ;;
  let step := LocalPaperFillStep (in_authorization_sha256 i) (in_intent_sha256 i) (order_state_sha256 o) p2 refs fills in
  do* fill_step_post_init step ;;
  Ok (candidate, step).

Definition fa_process (ev : decision_event) (d : execution_decision) (i : intent_record) (o : order_state) (bar : candle) (cost_spec : backtest_spec)
    : stm fill_adapter fill_step :=
  let! a := sget in
  let! x := slift (local_fill a ev d i o bar cost_spec) in
  let active := if has_position (fst x) then ed_quantity d else None in
  do! sput (LocalPaperFillCostAdapter (fa_symbol a) (fa_spec a) (fst x) active (Some (ev_sequence ev)) (Some (ev_decision_time_ms ev))) ;;
  sret (snd x).

(** * Properties *)

(** The adapter's memory of the quantity is the engine's position. *)
Record fill_inv (a : fill_adapter) : Prop := {
  fi_symbol : str_in (fa_symbol a) SYMBOLS = true;
  fi_spec : spec_valid (fa_spec a) /\ bs_symbol (fa_spec a) = fa_symbol a;
  fi_engine : engine_inv (fa_engine a);
  fi_active : fa_active_quantity a = quantity <$> fa_engine a;
}.

(** A decision with the evidence behind it, all built by constructors. *)
Definition decision_evidence (d : execution_decision) : Prop := decision_built d /\ evidence_valid (ed_authorization d).

(** What an accepted call did. *)
Record filled (a : fill_adapter) (ev : decision_event) (d : execution_decision) (i : intent_record) (o : order_state) (bar : candle)
    (s : fill_step) (b : fill_adapter) : Prop := {
  fl_accepted : accepted d /\ i = intent_of d;
  fl_order : os_status o = ACTIVE_LOCAL /\ os_sequence o = 1 /\ os_intent_sha256 o = in_intent_sha256 i;
  fl_lifecycle : lifecycle (fa_symbol a) ev bar (fa_engine a) (p2_intent s) (fa_engine b) (references s);
  fl_action : pi_action (p2_intent s) = ed_action d /\ ed_action d <> HOLD;
  fl_quantity : exists q, ed_quantity d = Some q /\ Forall (fun r => reference_valid r /\ fr_symbol r = fa_symbol a /\ fr_quantity r = q) (references s);
  fl_costs : Forall2 (fun r f => apply_costs r (fa_spec a) = Ok f /\ costed_valid f) (references s) (fs_fills s);
  fl_fixed : fa_symbol b = fa_symbol a /\ fa_spec b = fa_spec a;
  fl_order_of_events : fa_last_sequence b = Some (match fa_last_sequence a with None => 0 | Some n => n + 1 end)
    /\ fa_last_time b = Some (ev_decision_time_ms ev) /\ (forall t, fa_last_time a = Some t -> t < ev_decision_time_ms ev);
}.

Lemma order_state_error o x : order_state_post_init o = Err x -> exn_cls x = LocalOrderError.
Proof. unfold order_state_post_init, rbind. repeat case_match; intros Hx; simplify_eq; done. Qed.

Lemma approved_quantity_positive au q : authorization_valid au -> sd_action (rq_decision (au_request au)) = SEnterLong ->
  disposition (au_decision au) = APPROVE_PAPER -> approved_quantity (au_decision au) = Some q -> exists dq, denotes q dq /\ (0 < dval dq)%Q.
Proof.
  intros Hau X Y Q. destruct (authorization_facts _ Hau) as (Hcons & Hdec & _ & _).
  assert (exists g, au_protective au = Some g /\ q = pa_quantity g /\ pa_status g = GATE_PASS) as (g & Eg & -> & Gp).
  { clear -Hdec X Y Q. destruct Hdec; cbn [disposition approved_quantity] in *; try done; [|congruence]. injection Q as <-. by eexists. }
  pose proof (cn_gate _ _ _ _ _ Hcons g Eg) as Er. pose proof (av_request _ Hau) as Hr. rewrite <- Er in Hr.
  destruct (passed_gate_safe g Hr (av_gate _ Hau g Eg) Gp) as [(e & n & s & x & y & dq & _ & _ & _ & Hq & Pq & _)].
  by exists dq.
Qed.

Section Step.
Context {a : fill_adapter} {ev : decision_event} {d : execution_decision} {i : intent_record} {o : order_state} {bar : candle} {cost_spec : backtest_spec}.
Hypothesis Ha : fill_inv a.
Hypothesis Hd : decision_built d.
Hypothesis Hev : event_valid ev.
Hypothesis Hbar : candle_valid bar.

(** What [_validate] establishes. *)
Record checked : Prop := {
  ck_accepted : accepted d /\ i = intent_of d;
  ck_order : os_status o = ACTIVE_LOCAL /\ os_sequence o = 1 /\ os_intent_sha256 o = in_intent_sha256 i;
  ck_spec : cost_spec = fa_spec a;
  ck_time : sd_decision_time_ms (rq_decision (au_request (ed_authorization d))) = ev_decision_time_ms ev;
  ck_sequence : ev_sequence ev = match fa_last_sequence a with None => 0 | Some n => n + 1 end;
  ck_later : forall t, fa_last_time a = Some t -> t < ev_decision_time_ms ev;
}.

Lemma validate_checked : match _validate a ev d i o cost_spec with Ok _ => checked | Err x => exn_cls x = LocalPaperFillError end.
Proof using Hd.
  unfold _validate, _validate_decision. rewrite (proj2 Hd). cbn [rcatch rbind]. destruct (negb _ || _) eqn:E1; [done|]. cbn [rbind].
  apply orb_false_iff in E1 as [E1 _]. apply negb_false_iff, bool_decide_eq_true in E1.
  unfold _validate_intent. rewrite (from_decision_spec d Hd), decide_True by exact E1. cbn [rcatch rbind].
  destruct (bool_decide_reflect (i = intent_of d)) as [Ei|]; [|done]. cbn [negb rbind].
  unfold _validate_order. destruct (order_state_post_init o) as [[]|x] eqn:Eo; cbn [rcatch].
  2: { rewrite (order_state_error o x Eo). by rewrite bool_decide_true by in_list. }
  cbn [rbind]. destruct (negb _ || _ || _ || _) eqn:E2; [done|]. cbn [rbind]. rewrite !orb_false_iff in E2. destruct E2 as [[[_ E2] E3] E4].
  destruct (bool_decide_reflect (cost_spec = fa_spec a)) as [Es|]; [|done]. cbn [negb].
  destruct (_ || _ || _ || _ || _) eqn:E5; [done|]. rewrite !orb_false_iff in E5. destruct E5 as [[[[_ _] E5] _] _].
  destruct (_ || _) eqn:E6; [done|]. apply orb_false_iff in E6 as [E6 E7].
  apply negb_false_iff in E2, E3, E4, E5, E6. apply String.eqb_eq in E2. apply bool_decide_eq_true in E3.
  constructor; [done|split; [done|split; [lia|done]]|done|lia|lia|]. intros t Et. rewrite Et in E7. unfold opt_le in E7. lia.
Qed.

Record p2_facts (p2 : paper_intent) : Prop := {
  pf_valid : intent_valid p2;
  pf_action : pi_action p2 = ed_action d /\ ed_action d <> HOLD;
  pf_entry : ed_action d = ENTER_LONG -> fa_engine a = None /\ pi_quantity p2 = ed_quantity d;
  pf_exit : ed_action d = EXIT_LONG -> exists p, fa_engine a = Some p /\ ed_quantity d = Some (quantity p);
}.

Lemma p2_spec : accepted d -> match _p2_intent a d with Ok p2 => p2_facts p2 | Err x => exn_cls x = LocalPaperFillError end.
Proof using Ha Hd.
  intros Hacc. destruct Hd as [Hau Hpost]. destruct (decision_routed d Hau Hpost) as (_ & _ & Hrt).
  destruct (decision_time_aligned _ (rv_context _ (av_request _ Hau))) as [T1 T2]. pose proof (fi_active a Ha) as Hact.
  fold (sd_decision_time_ms (rq_decision (au_request (ed_authorization d)))) in T1, T2.
  unfold _p2_intent, fa_has_position. destruct (ed_action d) eqn:A; [done|destruct (fa_engine a) as [p|] eqn:Ee; [done|]|].
  - cbn [has_position opt_is_none negb]. destruct (sd_setup _) as [setup|] eqn:Es; [|done].
    assert (exists q dq, ed_quantity d = Some q /\ denotes q dq /\ (0 < dval dq)%Q) as (q & dq & Eq & Hq & Pq).
    { inversion Hrt as [X Y E1 E2 E3 E4|X Y E1 E2 E3 E4|X Y E1 E2 E3 E4|q X Y R Q E1 E2 E3 E4|X Y R E1 E2 E3 E4].
      exists q. destruct (approved_quantity_positive _ q Hau X Y Q) as (dq & Hq & Pq). by exists dq. }
    pose proof (rv_setup _ (av_request _ Hau)) as Hset. rewrite Es in Hset. rewrite Eq. unfold new_intent.
    pose proof (entry_intent_valid _ q setup dq T1 T2 Hq Pq Hset) as Hv. rewrite Hv. cbn [rbind].
    constructor; [exact Hv|by rewrite A|by rewrite Eq|by rewrite A].
  - destruct (fa_engine a) as [p|] eqn:Ee; [|done]. cbn [has_position opt_is_none negb orb]. rewrite Hact, ?Ee. cbn [fmap option_fmap option_map].
    destruct (bool_decide_reflect (Some (quantity p) = ed_quantity d)) as [Eq|]; [|done]. cbn [negb]. unfold new_intent.
    pose proof (plain_intent_valid EXIT_LONG _ ltac:(done) T1 T2) as Hv. rewrite Hv. cbn [rbind].
    constructor; [exact Hv|by rewrite A|by rewrite A|]. intros _. by exists p.
Qed.

(** The costs of valid references are always computed. *)
Lemma costs_total refs : Forall (fun r => reference_valid r /\ fr_symbol r = fa_symbol a) refs ->
  exists fills, rmap (fun r => apply_costs r (fa_spec a)) refs = Ok fills /\ map cf_reference fills = refs
    /\ Forall2 (fun r f => apply_costs r (fa_spec a) = Ok f /\ costed_valid f) refs fills.
Proof using Ha.
  destruct (fi_spec a Ha) as [Hs Es]. induction 1 as [|r refs [Hr Hsym] _ (fills & E & Em & Hf)]; [by exists []|].
  destruct (apply_costs_exact r (fa_spec a) Hr Hs) as (q & p & f & sl & fill & Ef & Hc & Er & _); [congruence|].
  exists (fill :: fills). cbn [rmap map]. rewrite Ef. cbn [rbind]. rewrite E. cbn [rbind]. split; [done|]. split; [by rewrite Er, Em|]. by constructor.
Qed.

(** The fills of an entry or of an exit: all of the accepted quantity, led by the action. *)
Lemma fills_of_lifecycle p2 e refs : p2_facts p2 -> lifecycle (fa_symbol a) ev bar (fa_engine a) p2 e refs ->
  exists q r rest, refs = r :: rest /\ fr_action r = pi_action p2 /\ ed_quantity d = Some q
    /\ Forall (fun r => fr_symbol r = fa_symbol a /\ fr_quantity r = q) refs
    /\ (ed_action d = EXIT_LONG -> e = None /\ exists p, fa_engine a = Some p /\ refs = [exit_of (fa_symbol a) ev p (open bar) SCRIPTED_EXIT])
    /\ forall p, e = Some p -> quantity p = q.
Proof using.
  intros [_ [Pa Pn] Pe Px] Hl. destruct (ed_action d) eqn:A; [done| |].
  - destruct (Pe eq_refl) as [En Eq]. rewrite En in Hl.
    inversion Hl as [j Hj|j p Hj|j p price reason Hj|j p Hj|j p Hj Q S T L|j p price reason Hj Q S T L]; subst; try congruence.
    + exists (quantity p). do 2 eexists. split; [done|]. split; [done|]. split; [congruence|]. split; [by repeat constructor|]. split; [done|]. by intros p' [= <-].
    + exists (quantity p). do 2 eexists. split; [done|]. split; [done|]. split; [congruence|]. split; [by repeat constructor|]. by split.
  - destruct (Px eq_refl) as (p & Ep & Eq). rewrite Ep in Hl.
    inversion Hl as [j Hj|j p' Hj|j p' price reason Hj|j p' Hj|j p' Hj Q S T L|j p' price reason Hj Q S T L]; subst; try congruence.
    exists (quantity p). do 2 eexists. split; [done|]. split; [done|]. split; [done|]. split; [by repeat constructor|]. split; [|done].
    intros _. split; [done|]. by exists p.
Qed.

Lemma local_fill_spec : match local_fill a ev d i o bar cost_spec with
  | Ok (e, s) => checked /\ p2_facts (p2_intent s) /\ lifecycle (fa_symbol a) ev bar (fa_engine a) (p2_intent s) e (references s)
      /\ engine_inv e /\ Forall reference_valid (references s)
      /\ Forall2 (fun r f => apply_costs r (fa_spec a) = Ok f /\ costed_valid f) (references s) (fs_fills s)
  | Err x => exn_cls x = LocalPaperFillError
  end.
Proof using All.
  unfold local_fill. pose proof validate_checked as Hck. destruct (_validate a ev d i o cost_spec) as [u|x]; [|done]. cbn [rbind].
  pose proof Hck as [[Hacc Ei] _ Ec _ _ _]. pose proof (p2_spec Hacc) as Hp2. destruct (_p2_intent a d) as [p2|x]; [|done]. cbn [rbind].
  destruct (process (fa_symbol a) ev p2 bar (fa_engine a)) as [e out] eqn:Ep.
  assert (step_inputs (fa_symbol a) ev p2 bar) as Hin by (split; [apply (fi_symbol a Ha)|done|apply (pf_valid _ Hp2)|done]).
  pose proof (process_spec (fa_symbol a) ev p2 bar (fa_engine a) e out Hin (fi_engine a Ha) Ep) as Hp.
  destruct out as [refs|x]; cbn [rbind].
  2: { destruct Hp as [Hx _]. cbn [rcatch]. by rewrite bool_decide_true by (rewrite Hx; in_list). }
  destruct Hp as (Hl & Hinv & Hvalid). destruct (fills_of_lifecycle p2 e refs Hp2 Hl) as (q & r & rest & Erefs & Eact & Eq & Hfr & _).
  assert (Forall (fun r => reference_valid r /\ fr_symbol r = fa_symbol a) refs) as Hrefs.
  { apply Forall_and. split; [done|]. eapply Forall_impl; [exact Hfr|]. by intros r' [? _]. }
  destruct (costs_total refs Hrefs) as (fills & Ef & Em & Hf). rewrite Ec, Ef. cbn [rbind rcatch].
  rewrite bool_decide_false by (by rewrite Erefs). unfold fill_step_post_init. cbn [references fs_fills p2_intent fs_authorization_sha256 fs_intent_sha256 fs_order_state_sha256].
  assert (length refs = length fills) as Hlen by (rewrite <- Em; apply length_map).
  rewrite (bool_decide_false (refs = [])), Em, Hlen, Nat.eqb_refl, bool_decide_true by (done || by rewrite Erefs). cbn [negb orb].
  pose proof (intent_of_valid d Hd Hacc) as Hiv. rewrite <- Ei in Hiv. unfold intent_valid_record, intent_post_init in Hiv. cbn [existsb] in Hiv |- *.
  unfold order_state_sha256. rewrite digest_pattern.
  destruct (sha256_pattern (in_authorization_sha256 i)); [|done]. destruct (sha256_pattern (in_intent_sha256 i)); [|by rewrite !orb_true_r in Hiv].
  cbn [negb orb]. rewrite Erefs, bool_decide_true by done. cbn [negb rbind]. rewrite <- Erefs. done.
Qed.
End Step.

Lemma fa_process_spec a ev d i o bar cost_spec b out : fill_inv a -> decision_built d -> event_valid ev -> candle_valid bar ->
  fa_process ev d i o bar cost_spec a = (b, out) ->
  match out with
  | Ok s => filled a ev d i o bar s b /\ fill_inv b
  | Err x => exn_cls x = LocalPaperFillError /\ b = a
  end.
Proof.
  intros Ha Hd Hev Hbar H. unfold fa_process, sbind, sget, slift, sput, sret in H.
  pose proof (local_fill_spec (i:=i) (o:=o) (cost_spec:=cost_spec) Ha Hd Hev Hbar) as Hs.
  destruct (local_fill a ev d i o bar cost_spec) as [[e s]|x]; [|injection H as <- <-; done]. cbn [fst snd] in H. injection H as <- <-.
  destruct Hs as ([C1 C2 C3 C4 C5 C6] & Hp2 & Hl & Hinv & Hvalid & Hcosts).
  destruct (fills_of_lifecycle (p2_intent s) e (references s) Hp2 Hl) as (q & r & rest & _ & _ & Eq & Hfr & _ & Hq).
  split.
  - constructor; cbn [fa_engine fa_symbol fa_spec fa_last_sequence fa_last_time]; [done|done|done|apply (pf_action _ Hp2)| |done|done|by rewrite C5].
    exists q. split; [done|]. apply Forall_and. by split.
  - destruct Ha as [A1 A2 A3 A4]. constructor; cbn [fa_symbol fa_spec fa_engine fa_active_quantity]; [done|done|done|].
    destruct e as [p|]; cbn [has_position opt_is_none negb fmap option_fmap option_map]; [|done]. rewrite Eq. by rewrite (Hq p eq_refl).
Qed.

(** ** Whole sessions *)

Record fill_input : Type := FillInput {
  fin_event : decision_event;
  fin_decision : execution_decision;
  fin_intent : intent_record;
  fin_order : order_state;
  fin_bar : candle;
  fin_spec : backtest_spec;
}.

Definition input_ok (x : fill_input) : Prop :=
  event_valid (fin_event x) /\ decision_evidence (fin_decision x) /\ candle_valid (fin_bar x).

Definition run_input (x : fill_input) : stm fill_adapter fill_step :=
  fa_process (fin_event x) (fin_decision x) (fin_intent x) (fin_order x) (fin_bar x) (fin_spec x).

(** [process] on each input in turn, the caller continuing after a LocalPaperFillError. *)
Fixpoint local_session (inputs : list fill_input) (a : fill_adapter) : fill_adapter * list (fill_input * fill_step) :=
  match inputs with
  | [] => (a, [])
  | x :: rest =>
      let '(a1, out) := run_input x a in
      let '(a2, more) := local_session rest a1 in
      (a2, match out with Ok s => (x, s) :: more | Err _ => more end)
  end.

Definition step_references (l : list (fill_input * fill_step)) : list fill_reference := concat (map (fun x => references (snd x)) l).

(** Everything behind a filled step: the order was active for this decision's own
    journalled intent, reconciliation had passed, an entry was approved with this
    quantity, an exit closes the whole position at the open; every fill is costed
    by the adapter's specification. *)
Record backed (sym : string) (spec : backtest_spec) (x : fill_input) (s : fill_step) : Prop := {
  bk_intent : fin_intent x = intent_of (fin_decision x) /\ os_status (fin_order x) = ACTIVE_LOCAL
    /\ os_intent_sha256 (fin_order x) = in_intent_sha256 (fin_intent x);
  bk_ready : ready (ed_readiness (fin_decision x)) /\ ed_policy (fin_decision x) = default_execution_policy;
  bk_entry : ed_action (fin_decision x) = ENTER_LONG ->
    forall r, r ∈ references s -> approved_entry (ed_authorization (fin_decision x)) (fr_quantity r);
  bk_exit : ed_action (fin_decision x) = EXIT_LONG -> exists p, references s = [exit_of sym (fin_event x) p (open (fin_bar x)) SCRIPTED_EXIT]
    /\ quantity p = prs_position_quantity (rq_portfolio (au_request (ed_authorization (fin_decision x))));
  bk_action : ed_action (fin_decision x) <> HOLD;
  bk_costs : Forall2 (fun r f => apply_costs r spec = Ok f /\ costed_valid f) (references s) (fs_fills s);
}.

Lemma filled_backed a x s b : decision_evidence (fin_decision x) ->
  filled a (fin_event x) (fin_decision x) (fin_intent x) (fin_order x) (fin_bar x) s b -> backed (fa_symbol a) (fa_spec a) x s.
Proof.
  intros [Hd He] [[Hacc Ei] (O1 & O2 & O3) Hl [Ha Hn] (q & Eq & Hr) Hc _ _]. destruct Hd as [Hau Hpost].
  destruct (decision_routed _ Hau Hpost) as (_ & Hpol & Hrt). rewrite Hacc in Hrt.
  assert (ready (ed_readiness (fin_decision x))) as Hrdy by (by inversion Hrt).
  constructor; [done|done| | |done|done].
  - intros A r Hin. rewrite A, Eq in Hrt. rewrite Forall_forall in Hr. destruct (Hr r Hin) as (_ & _ & ->).
    inversion Hrt. by apply approval_safe.
  - intros A. rewrite A, Eq in Hrt. rewrite A in Ha.
    inversion Hl as [j Hj|j p Hj|j p price reason Hj|j p Hj|j p Hj Q S T L|j p price reason Hj Q S T L]; try congruence.
    exists p. split; [done|]. match goal with E : _ = references s |- _ => rewrite <- E in Hr end. apply Forall_inv in Hr as (_ & _ & Hq). cbn in Hq.
    rewrite Hq. by inversion Hrt.
Qed.

Lemma local_session_inv inputs a b l : Forall input_ok inputs -> fill_inv a -> local_session inputs a = (b, l) ->
  fill_inv b /\ fa_symbol b = fa_symbol a /\ fa_spec b = fa_spec a
  /\ trade_log (quantity <$> fa_engine a) (step_references l) = Some (quantity <$> fa_engine b)
  /\ Forall (fun xs => xs.1 ∈ inputs /\ backed (fa_symbol a) (fa_spec a) xs.1 xs.2) l.
Proof.
  revert a b l. induction inputs as [|x rest IH]; intros a b l Hin Ha; cbn [local_session].
  - intros [= <- <-]. do 4 (split; [done|]). constructor.
  - inversion_clear Hin as [|? ? (Hev & Hd & Hbar) Hrest]. unfold run_input. destruct (fa_process _ _ _ _ _ _ a) as [a1 out] eqn:E.
    destruct (local_session rest a1) as [a2 more] eqn:Em. intros [= <- <-].
    pose proof (fa_process_spec a _ _ _ _ _ _ a1 out Ha (proj1 Hd) Hev Hbar E) as Hs. destruct out as [s|e].
    + destruct Hs as [Hf Ha1]. destruct (IH a1 a2 more Hrest Ha1 Em) as (I1 & I2 & I3 & I4 & I5). pose proof (fl_fixed _ _ _ _ _ _ _ _ Hf) as [F1 F2].
      split; [done|]. split; [congruence|]. split; [congruence|]. split.
      * unfold step_references. cbn [map concat snd]. rewrite (trade_log_app _ _ _ _ (lifecycle_log _ _ _ _ _ _ _ (fl_lifecycle _ _ _ _ _ _ _ _ Hf))). done.
      * constructor; [split; [by apply list_elem_of_here|by eapply filled_backed]|]. eapply Forall_impl; [exact I5|]. intros y [Hy Hb].
        split; [by apply list_elem_of_further|]. by rewrite F1, F2 in Hb.
    + destruct Hs as [_ ->]. destruct (IH a a2 more Hrest Ha Em) as (I1 & I2 & I3 & I4 & I5). do 4 (split; [done|]).
      eapply Forall_impl; [exact I5|]. intros y [Hy Hb]. split; [by apply list_elem_of_further|done].
Qed.

(** * Claims *)

(** C23. No unbacked local fill.  Over any session of a new adapter, whatever
    intents, orders and specifications it is handed and whatever it refuses (a
    refusal is a LocalPaperFillError that changes nothing), the fills form a legal
    Spot trade log that ends holding the adapter's remembered quantity; every
    filled step used an active order of its own decision's journalled intent, after
    passed reconciliation and under the locked policy; every fill of an entry has
    exactly the approved safe quantity, an exit closes exactly the whole approved
    position at the open of the next bar; and all fills are costed by the accepted
    specification. *)
Theorem local_session_safe sym spec a inputs b l (Hspec : spec_valid spec) (Hnew : new_fill_adapter sym spec = Ok a)
    (Hin : Forall input_ok inputs) (Hrun : local_session inputs a = (b, l)) :
  trade_log None (step_references l) = Some (fa_active_quantity b)
  /\ Forall (fun xs => xs.1 ∈ inputs /\ backed sym spec xs.1 xs.2) l.
Proof.
  assert (fill_inv a /\ fa_engine a = None /\ fa_symbol a = sym /\ fa_spec a = spec) as (Ha & He & <- & <-).
  { unfold new_fill_adapter in Hnew. destruct (negb (str_in sym SYMBOLS)) eqn:E1; [done|]. destruct (negb _) eqn:E2 in Hnew; [done|].
    unfold new_engine in Hnew. rewrite E1 in Hnew. injection Hnew as <-. apply negb_false_iff in E1, E2. apply String.eqb_eq in E2. done. }
  destruct (local_session_inv inputs a b l Hin Ha Hrun) as (Hb & _ & _ & Hlog & Hl). rewrite He in Hlog. by rewrite (fi_active b Hb).
Qed.

Definition sample_fill_spec : backtest_spec := default_spec "BTCUSDT" (sample_time - HOUR_MS) (sample_time + 24 * HOUR_MS).
Definition active_order : order_state := order_next (Some (order_next None sample_create)) sample_activate.
Definition sample_fill_input : fill_input :=
  FillInput (fst (fst sample_gateway_input)) accepted_sample sample_intent active_order (snd sample_gateway_input) sample_fill_spec.

Lemma sample_fill_inputs_ok : Forall input_ok [sample_fill_input].
Proof.
  constructor; [|constructor]. destruct sample_gateway_input_valid as (Hev & He & Hbar).
  split; [exact Hev|]. split; [split; [exact accepted_sample_built|exact sample_evidence]|exact Hbar].
Qed.

Definition fresh_fill_adapter : fill_adapter := LocalPaperFillCostAdapter "BTCUSDT" sample_fill_spec None None None None.

Lemma local_session_safe_witness :
  Forall (fun xs => backed "BTCUSDT" sample_fill_spec xs.1 xs.2) (snd (local_session [sample_fill_input] fresh_fill_adapter)).
Proof.
  assert (spec_valid sample_fill_spec) as Hspec by (vm_compute; reflexivity).
  destruct (local_session_safe "BTCUSDT" sample_fill_spec fresh_fill_adapter [sample_fill_input] _ _ Hspec eq_refl sample_fill_inputs_ok
              (surjective_pairing _)) as [_ H].
  eapply Forall_impl; [exact H|]. intros x [_ Hx]. exact Hx.
Defined.
