(* ===== verification/Portfolio.v ===== *)
(** * The durable paper portfolio (yatl/execution/portfolio.py)

    Order-bound fill events and the portfolio projection of the execution
    database.  The tables are finite maps from their primary keys with their
    UNIQUE and FOREIGN KEY constraints; a [payload_json] column is kept as the
    value [json.loads] gives for it ([None]: it is not JSON), and dictionaries are
    compared by their canonical text.  [apply] runs in one transaction.  Opening,
    migrating and closing the database are not modelled; its reads and writes
    fail by a violated constraint only. *)
From stdpp Require Import gmap sorting.
From S2P Require Import Prelude PyDecimal PyText Digest Market BacktestConfig MarketView Fills Costs Ledger HashChain Regime RiskState RiskAdapter Execution Journal OrderState LocalFills.

Definition PORTFOLIO_SCHEMA_VERSION : Z := 1.

Definition _spec_record (s : backtest_spec) : json := JObj [
  ("symbol", JStr (bs_symbol s)); ("start_time_ms", JInt (start_time_ms s)); ("end_time_ms", JInt (end_time_ms s));
  ("initial_cash", JStr (initial_cash s)); ("fee_bps", JStr (fee_bps s)); ("slippage_bps", JStr (slippage_bps s)); ("seed", JInt (seed s));
  ("paper_only", JBool (paper_only s)); ("live_master_lock", JStr (live_master_lock s)); ("spot_only", JBool (spot_only s));
  ("allow_short", JBool (allow_short s)); ("allow_leverage", JBool (allow_leverage s));
  ("execution_price_policy", JStr (execution_price_policy s))]%string.
Definition spec_sha256 (s : backtest_spec) : string := digest (_spec_record s).

Definition _snapshot_record (s : portfolio_snapshot) : json := JObj [
  ("symbol", JStr (ps_symbol s)); ("cash", JStr (format_f (ps_cash s))); ("asset_quantity", JStr (format_f (ps_asset_quantity s)));
  ("cost_basis_quote", JStr (format_f (ps_cost_basis_quote s)));
  ("liquidation_value_quote", JStr (format_f (liquidation_value_quote s)));
  ("realized_pnl_quote", JStr (format_f (ps_realized_pnl_quote s))); ("unrealized_pnl_quote", JStr (format_f (unrealized_pnl_quote s)));
  ("equity_quote", JStr (format_f (equity_quote s))); ("total_fee_quote", JStr (format_f (ps_total_fee_quote s)));
  ("total_slippage_quote", JStr (format_f (ps_total_slippage_quote s))); ("closed_trades", JInt (ps_closed_trades s))]%string.

(** ** Reading a decoded payload *)

(** [payload[key]] *)
Definition json_get (j : json) (key : string) : result json :=
  match j with
  | JObj l => match find (fun kv => String.eqb (fst kv) key) l with Some kv => Ok (snd kv) | None => Err (Raise KeyError key) end
  | _ => Err (Raise TypeError key)
  end.

(** A value of another type is refused by the constructor or conversion that takes it. *)
Definition json_text (j : json) : result string := match j with JStr s => Ok s | _ => Err (Raise TypeError "str") end.
Definition json_number (j : json) : result Z := match j with JInt n => Ok n | _ => Err (Raise TypeError "int") end.
Definition get_text (j : json) (key : string) : result string := let* v := json_get j key in json_text v.
Definition get_number (j : json) (key : string) : result Z := let* v := json_get j key in json_number v.

(** [Decimal(record[key])].  [Decimal] here reads the plain syntax the writers use;
    Python also reads exponents, spaces and underscores, whose plain form then
    differs from the stored text, so that the row is refused by the comparison. *)
Definition get_decimal (j : json) (key : string) : result dec :=
  let* v := json_get j key in
  match v with JStr s => Decimal s | JInt n => Ok (dec_of_Z n) | _ => Err (Raise TypeError key) end.

Definition json_same (a b : json) : bool := bool_decide (json_dumps a = json_dumps b).

(** [json.loads(row["payload_json"])]; JSONDecodeError is a ValueError. *)
Definition json_loads (payload : option json) : result json :=
  match payload with Some j => Ok j | None => Err (Raise ValueError "JSONDecodeError") end.

Definition fill_reason_of : string -> result fill_reason :=
  enum_member fill_reason_value [NEXT_PRIMARY_OPEN; SCRIPTED_EXIT; STOP; TARGET; AMBIGUOUS_STOP_PRIORITY].
Definition intent_action_of : string -> result intent_action := enum_member intent_action_value [HOLD; ENTER_LONG; EXIT_LONG].

Definition _snapshot_from_record (r : json) : result portfolio_snapshot :=
  rcatch (
    let* symbol := get_text r "symbol" in
    let* cash := get_decimal r "cash" in
    let* asset := get_decimal r "asset_quantity" in
    let* basis := get_decimal r "cost_basis_quote" in
    let* liquidation := get_decimal r "liquidation_value_quote" in
    let* realized := get_decimal r "realized_pnl_quote" in
    let* unrealized := get_decimal r "unrealized_pnl_quote" in
    let* equity := get_decimal r "equity_quote" in
    let* fee := get_decimal r "total_fee_quote" in
    let* slippage := get_decimal r "total_slippage_quote" in
    let* trades := get_number r "closed_trades" in
    let s := PortfolioSnapshot symbol cash asset basis liquidation realized unrealized equity fee slippage trades in
    do* portfolio_snapshot_post_init s ;; Ok s)
    [KeyError; PortfolioError; TypeError; ValueError] (Raise LocalPaperPortfolioError "Stored portfolio snapshot is invalid").

(** Equality of the dataclasses compares the decimals as numbers. *)
Definition snapshot_eqb (s t : portfolio_snapshot) : bool :=
  String.eqb (ps_symbol s) (ps_symbol t) && deqb (ps_cash s) (ps_cash t) && deqb (ps_asset_quantity s) (ps_asset_quantity t)
  && deqb (ps_cost_basis_quote s) (ps_cost_basis_quote t) && deqb (liquidation_value_quote s) (liquidation_value_quote t)
  && deqb (ps_realized_pnl_quote s) (ps_realized_pnl_quote t) && deqb (unrealized_pnl_quote s) (unrealized_pnl_quote t)
  && deqb (equity_quote s) (equity_quote t) && deqb (ps_total_fee_quote s) (ps_total_fee_quote t)
  && deqb (ps_total_slippage_quote s) (ps_total_slippage_quote t) && (ps_closed_trades s =? ps_closed_trades t).

(** ** Events and the projection *)

Record fill_event : Type := LocalPaperFillEvent {
  fe_sequence : Z;
  fe_authorization_sha256 : string;
  fe_intent_sha256 : string;
  fe_order_state_sha256 : string;
  fe_step_sha256 : string;
  fe_index : Z;
  fe_fill : costed_fill;
}.

Definition fill_event_post_init (e : fill_event) : result unit :=
  raise_if fe_sequence e <? 0 with LocalPaperPortfolioError "Durable fill sequence is invalid" ;;
  raise_if fe_index e <? 0 with LocalPaperPortfolioError "Durable fill index is invalid" ;;
  raise_if existsb (fun v => negb (sha256_pattern v))
             [fe_authorization_sha256 e; fe_intent_sha256 e; fe_order_state_sha256 e; fe_step_sha256 e]
    with LocalPaperPortfolioError "Durable fill identity digest is invalid" ;;
  Ok tt.
Definition new_fill_event (e : fill_event) : result fill_event := do* fill_event_post_init e ;; Ok e.

Definition fill_event_material (e : fill_event) : list (string * json) := [
  ("schema_version", JInt 1); ("sequence", JInt (fe_sequence e)); ("authorization_sha256", JStr (fe_authorization_sha256 e));
  ("intent_sha256", JStr (fe_intent_sha256 e)); ("order_state_sha256", JStr (fe_order_state_sha256 e));
  ("fill_step_sha256", JStr (fe_step_sha256 e)); ("fill_index", JInt (fe_index e)); ("fill", _fill_record (fe_fill e))]%string.
Definition fill_event_sha256 (e : fill_event) : string := digest (JObj (fill_event_material e)).
Definition fill_event_as_record (e : fill_event) : json :=
  JObj (fill_event_material e ++ [("fill_event_sha256"%string, JStr (fill_event_sha256 e))]).

Record portfolio_projection : Type := LocalPaperPortfolioProjection {
  pp_spec_sha256 : string;
  pp_fill_count : Z;
  pp_last_fill_event_sha256 : string;
  pp_mark_price : string;
  pp_snapshot : portfolio_snapshot;
}.

Definition projection_post_init (p : portfolio_projection) : result unit :=
  raise_if negb (sha256_pattern (pp_spec_sha256 p)) || negb (sha256_pattern (pp_last_fill_event_sha256 p)) || (pp_fill_count p <=? 0)
    with LocalPaperPortfolioError "Portfolio projection identity is invalid" ;;
  Ok tt.
Definition new_projection (p : portfolio_projection) : result portfolio_projection := do* projection_post_init p ;; Ok p.

Definition projection_material (p : portfolio_projection) : list (string * json) := [
  ("schema_version", JInt 1); ("spec_sha256", JStr (pp_spec_sha256 p)); ("fill_count", JInt (pp_fill_count p));
  ("last_fill_event_sha256", JStr (pp_last_fill_event_sha256 p)); ("mark_price", JStr (pp_mark_price p));
  ("position", JStr (if dltb dec0 (ps_asset_quantity (pp_snapshot p)) then "LONG" else "FLAT"));
  ("portfolio", _snapshot_record (pp_snapshot p))]%string.
Definition projection_sha256 (p : portfolio_projection) : string := digest (JObj (projection_material p)).
Definition projection_as_record (p : portfolio_projection) : json :=
  JObj (projection_material p ++ [("projection_sha256"%string, JStr (projection_sha256 p))]).

Record portfolio_application : Type := LocalPaperPortfolioApplication {
  pa_events : list fill_event;
  pa_projection : portfolio_projection;
}.

Definition application_post_init (a : portfolio_application) : result unit :=
  raise_if negb (bool_decide (Some (pp_last_fill_event_sha256 (pa_projection a)) = fill_event_sha256 <$> last (pa_events a)))
    with LocalPaperPortfolioError "Portfolio application evidence is invalid" ;;
  Ok tt.

(** ** The store *)

Record fill_row : Type := FillRow {
  fw_event_sha256 : string;
  fw_symbol : string;
  fw_sequence : Z;
  fw_authorization_sha256 : string;
  fw_intent_sha256 : string;
  fw_order_state_sha256 : string;
  fw_step_sha256 : string;
  fw_index : Z;
  fw_payload : option json;
}.

Record portfolio_row : Type := PortfolioRow {
  pw_symbol : string;
  pw_spec_sha256 : string;
  pw_fill_count : Z;
  pw_last_fill_event_sha256 : string;
  pw_mark_price : string;
  pw_payload : option json;
  pw_projection_sha256 : string;
}.

(** The execution database, with the two tables of the portfolio. *)
Record portfolio_db : Type := PortfolioDb {
  pd_orders : order_db;
  pd_fills : gmap string fill_row;
  pd_portfolios : gmap string portfolio_row;
}.

Definition _intent (db : portfolio_db) (h : string) : result intent_record :=
  match od_intents (pd_orders db) !! h with
  | None => Err (Raise LocalPaperPortfolioError "Fill has no durable accepted intent")
  | Some r => rcatch (new_intent_record r) (ExecutionJournalError :: IntentConflict :: VALUE_ERRORS)
                (Raise LocalPaperPortfolioError "Stored fill intent is invalid")
  end.

Definition _active_order (db : portfolio_db) (h : string) : result order_state :=
  match od_states (pd_orders db) !! h with
  | None => Err (Raise LocalPaperPortfolioError "Fill has no durable local order state")
  | Some r =>
      let* s := rcatch (row_state r)
                  (LocalOrderError :: LocalOrderTransitionError :: VALUE_ERRORS)
                  (Raise LocalPaperPortfolioError "Stored local order state is invalid") in
      raise_if negb (String.eqb (order_state_sha256 s) (sr_state_sha256 r)) with LocalPaperPortfolioError "Stored local order state digest changed" ;;
      Ok s
  end.

(** The event a row describes; [changed] is raised when its costs are not those of
    the specification. *)
Definition stored_fill (changed : exn) (spec : backtest_spec) (r : fill_row) : result fill_event :=
  let* payload := json_loads (fw_payload r) in
  let* action := get_text payload "action" in
  let* action := intent_action_of action in
  let* symbol := get_text payload "symbol" in
  let* decision_time := get_number payload "decision_time_ms" in
  let* fill_time := get_number payload "fill_time_ms" in
  let* quantity := get_text payload "quantity" in
  let* price := get_text payload "reference_price" in
  let* reason := get_text payload "reason" in
  let* reason := fill_reason_of reason in
  let* reference := new_reference (FillReference action symbol decision_time fill_time quantity price reason) in
  let* fill := apply_costs reference spec in
  if negb (json_same (_fill_record fill) payload) then Err changed else
  new_fill_event (LocalPaperFillEvent (fw_sequence r) (fw_authorization_sha256 r) (fw_intent_sha256 r) (fw_order_state_sha256 r)
    (fw_step_sha256 r) (fw_index r) fill).

Definition _event_from_row (spec : backtest_spec) (r : fill_row) : result fill_event :=
  let* e := rcatch (stored_fill (Raise LocalPaperPortfolioError "Stored fill differs from accepted P2 costs") spec r)
    (CostModelError :: FillModelError :: KeyError :: VALUE_ERRORS)
    (Raise LocalPaperPortfolioError "Stored durable fill event is invalid") in
  raise_if negb (String.eqb (fill_event_sha256 e) (fw_event_sha256 r)) with LocalPaperPortfolioError "Stored durable fill digest changed" ;;
  Ok e.

(** The projection a row describes, with its decoded payload. *)
Definition stored_projection (r : portfolio_row) : result (portfolio_projection * json) :=
  let* payload := json_loads (pw_payload r) in
  let* spec := get_text payload "spec_sha256" in
  let* count := get_number payload "fill_count" in
  let* event := get_text payload "last_fill_event_sha256" in
  let* mark := get_text payload "mark_price" in
  let* portfolio := json_get payload "portfolio" in
  let* snapshot := _snapshot_from_record portfolio in
  let* p := new_projection (LocalPaperPortfolioProjection spec count event mark snapshot) in
  Ok (p, payload).

(** The columns of the row are those of the projection. *)
Definition row_projects (r : portfolio_row) (p : portfolio_projection) (payload : json) : bool :=
  String.eqb (projection_sha256 p) (pw_projection_sha256 r) && json_same (projection_as_record p) payload
  && String.eqb (pp_spec_sha256 p) (pw_spec_sha256 r) && (pp_fill_count p =? pw_fill_count r)
  && String.eqb (pp_last_fill_event_sha256 p) (pw_last_fill_event_sha256 r) && String.eqb (pp_mark_price p) (pw_mark_price r).

Definition _projection_from_row (row : option portfolio_row) : result (option portfolio_projection) :=
  match row with
  | None => Ok None
  | Some r =>
      let* pp := rcatch (stored_projection r) (KeyError :: VALUE_ERRORS) (Raise LocalPaperPortfolioError "Stored portfolio projection is invalid") in
      let '(p, payload) := pp in
      raise_if negb (row_projects r p payload) with LocalPaperPortfolioError "Stored portfolio projection digest changed" ;;
      Ok (Some p)
  end.

(** [SELECT * ... WHERE symbol = ? ORDER BY sequence] *)
Definition fill_rows (db : portfolio_db) (symbol : string) : list fill_row :=
  sort_by fw_sequence (filter (fun r => fw_symbol r = symbol) (rows_of (pd_fills db))).

(** [ledger.apply_many] on a ledger of the caller. *)
Definition replay_fills (spec : backtest_spec) (fills : list costed_fill) (l : ledger) : result ledger :=
  let '(l', out) := Ledger.apply_many spec fills l in let* _ := out in Ok l'.

Definition _load (spec : backtest_spec) (db : portfolio_db) : result (list fill_event * ledger * option portfolio_projection) :=
  let* events := rmap (_event_from_row spec) (fill_rows db (bs_symbol spec)) in
  raise_if negb (bool_decide (map fe_sequence events = seqZ 0 (Z.of_nat (length events))))
    with LocalPaperPortfolioError "Durable fill sequence is incomplete" ;;
  let* fresh := new_ledger spec in
  let* l := match events with
            | [] => Ok fresh
            | _ => rcatch (replay_fills spec (map fe_fill events) fresh) [PortfolioError]
                     (Raise LocalPaperPortfolioError "Durable fills fail accepted P2 replay")
            end in
  let* projection := _projection_from_row (pd_portfolios db !! bs_symbol spec) in
  match last events, projection with
  | None, None => Ok (events, l, None)
  | None, Some _ => Err (Raise LocalPaperPortfolioError "Portfolio projection has no fill history")
  | Some _, None => Err (Raise LocalPaperPortfolioError "Portfolio projection differs from P2 replay")
  | Some e, Some p =>
      raise_if negb (String.eqb (pp_spec_sha256 p) (spec_sha256 spec)) || negb (pp_fill_count p =? Z.of_nat (length events))
               || negb (String.eqb (pp_last_fill_event_sha256 p) (fill_event_sha256 e))
        with LocalPaperPortfolioError "Portfolio projection differs from P2 replay" ;;
      let* s := Ledger.snapshot spec l (pp_mark_price p) in
      raise_if negb (snapshot_eqb (pp_snapshot p) s) with LocalPaperPortfolioError "Portfolio projection differs from P2 replay" ;;
      Ok (events, l, Some p)
  end.

Definition fill_values (symbol : string) (e : fill_event) : fill_row :=
  FillRow (fill_event_sha256 e) symbol (fe_sequence e) (fe_authorization_sha256 e) (fe_intent_sha256 e) (fe_order_state_sha256 e)
    (fe_step_sha256 e) (fe_index e) (Some (_fill_record (fe_fill e))).
Definition projection_values (symbol : string) (p : portfolio_projection) : portfolio_row :=
  PortfolioRow symbol (pp_spec_sha256 p) (pp_fill_count p) (pp_last_fill_event_sha256 p) (pp_mark_price p)
    (Some (projection_as_record p)) (projection_sha256 p).

(** PRIMARY KEY (fill_event_sha256), UNIQUE (symbol, sequence), UNIQUE
    (fill_step_sha256, fill_index), FOREIGN KEYs into the intents and the order states. *)
Definition _insert_fill (spec : backtest_spec) (e : fill_event) : stm portfolio_db unit := fun db =>
  let r := fill_values (bs_symbol spec) e in
  if negb (opt_is_none (pd_fills db !! fw_event_sha256 r))
     || existsb (fun x => (String.eqb (fw_symbol x) (fw_symbol r) && (fw_sequence x =? fw_sequence r))
                          || (String.eqb (fw_step_sha256 x) (fw_step_sha256 r) && (fw_index x =? fw_index r))) (rows_of (pd_fills db))
     || opt_is_none (od_intents (pd_orders db) !! fw_authorization_sha256 r)
     || negb (existsb (fun x => String.eqb (sr_state_sha256 x) (fw_order_state_sha256 r)) (rows_of (od_states (pd_orders db))))
  then (db, Err constraint_failed)
  else (PortfolioDb (pd_orders db) (<[fw_event_sha256 r := r]> (pd_fills db)) (pd_portfolios db), Ok tt).

(** UNIQUE (projection_sha256), over the rows other than the one under [symbol]. *)
Definition projection_taken (db : portfolio_db) (symbol h : string) : bool :=
  existsb (fun x => negb (String.eqb (pw_symbol x) symbol) && String.eqb (pw_projection_sha256 x) h) (rows_of (pd_portfolios db)).

Definition _write_projection (spec : backtest_spec) (previous : option portfolio_projection) (current : portfolio_projection)
    : stm portfolio_db unit := fun db =>
  let symbol := bs_symbol spec in
  let r := projection_values symbol current in
  let broken := projection_taken db symbol (pw_projection_sha256 r) || opt_is_none (pd_fills db !! pw_last_fill_event_sha256 r) in
  let written := PortfolioDb (pd_orders db) (pd_fills db) (<[symbol := r]> (pd_portfolios db)) in
  match previous with
  | None => if negb (opt_is_none (pd_portfolios db !! symbol)) || broken then (db, Err constraint_failed) else (written, Ok tt)
  | Some p =>
      match pd_portfolios db !! symbol with
      | Some x =>
          if String.eqb (pw_projection_sha256 x) (projection_sha256 p) then
            if broken then (db, Err constraint_failed) else (written, Ok tt)
          else (db, Err (Raise LocalPaperPortfolioError "Portfolio projection changed concurrently"))
      | None => (db, Err (Raise LocalPaperPortfolioError "Portfolio projection changed concurrently"))
      end
  end.

Fixpoint insert_fills (spec : backtest_spec) (events : list fill_event) : stm portfolio_db unit :=
  match events with
  | [] => sret tt
  | e :: rest => do! _insert_fill spec e ;; insert_fills spec rest
  end.

(** The events of a step from its fill [index] on, numbered after the [stored] ones. *)
Fixpoint step_events (s : fill_step) (stored index : nat) (fills : list costed_fill) : list fill_event :=
  match fills with
  | [] => []
  | fill :: rest =>
      LocalPaperFillEvent (Z.of_nat (stored + index)) (fs_authorization_sha256 s) (fs_intent_sha256 s) (fs_order_state_sha256 s)
        (fill_step_sha256 s) (Z.of_nat index) fill :: step_events s stored (S index) rest
  end.

Definition step_matches (s : fill_step) (i : intent_record) (o : order_state) : bool :=
  String.eqb (in_intent_sha256 i) (fs_intent_sha256 s) && String.eqb (in_action i) (intent_action_value (pi_action (p2_intent s)))
  && String.eqb (os_intent_sha256 o) (fs_intent_sha256 s) && String.eqb (order_state_sha256 o) (fs_order_state_sha256 s)
  && bool_decide (os_status o = ACTIVE_LOCAL)
  && negb (existsb (fun f => fill_time_ms (cf_reference f) <=? os_updated_time_ms o) (fs_fills s)).

Definition portfolio_apply_body (spec : backtest_spec) (s : fill_step) (mark_price : string) : stm portfolio_db portfolio_application :=
  let! db := sget in
  let! i := slift (_intent db (fs_authorization_sha256 s)) in
  let! o := slift (_active_order db (fs_authorization_sha256 s)) in
  sraise_if negb (step_matches s i o) with LocalPaperPortfolioError "Fill step differs from durable intent or order" ;;
  let! loaded := slift (_load spec db) in
  let '(stored, l, previous) := loaded in
  let! events := slift (rmap new_fill_event (step_events s (length stored) 0 (fs_fills s))) in
  sraise_if existsb (fun x => String.eqb (fw_step_sha256 x) (fill_step_sha256 s)) (rows_of (pd_fills db))
    with DuplicateLocalPaperFill "P5-004 fill step was already applied" ;;
  let! snapshot := slift (rcatch (let* l' := replay_fills spec (fs_fills s) l in Ledger.snapshot spec l' mark_price) [PortfolioError]
                            (Raise LocalPaperPortfolioError "Accepted P2 portfolio rejected the fill step")) in
  let! last_sha256 := slift (match last events with Some e => Ok (fill_event_sha256 e) | None => Err (Raise IndexError "events[-1]") end) in
  let! projection := slift (new_projection (LocalPaperPortfolioProjection (spec_sha256 spec) (Z.of_nat (length stored + length events))
                                               last_sha256 mark_price snapshot)) in
  do! insert_fills spec events ;;
  do! _write_projection spec previous projection ;;
  let a := LocalPaperPortfolioApplication events projection in
  do! slift (application_post_init a) ;;
  sret a.

(** [LocalPaperPortfolioStore.apply]: [BEGIN IMMEDIATE ... commit] with its except
    clauses.  The reconstruction of the step has the same fields, so only its
    constructor can fail. *)
Definition portfolio_apply (spec : backtest_spec) (s : fill_step) (mark_price : string) : stm portfolio_db portfolio_application :=
  do! slift (rcatch (fill_step_post_init s) (LocalPaperFillError :: VALUE_ERRORS)
               (Raise LocalPaperPortfolioError "P5-004 fill step failed reconstruction")) ;;
  scatch (srollback [LocalPaperPortfolioError; DuplicateLocalPaperFill; IntegrityError] (portfolio_apply_body spec s mark_price)) [IntegrityError]
    (Raise DuplicateLocalPaperFill "Durable fill identity conflicts with portfolio history").

Definition portfolio_events (spec : backtest_spec) (db : portfolio_db) : result (list fill_event) :=
  let* x := _load spec db in Ok (fst (fst x)).
Definition get_projection (spec : backtest_spec) (db : portfolio_db) : result (option portfolio_projection) :=
  let* x := _load spec db in Ok (snd x).

Definition portfolio_json (spec : backtest_spec) (db : portfolio_db) : result text :=
  let* x := _load spec db in
  Ok (json_dumps (JObj [("schema_version", JInt PORTFOLIO_SCHEMA_VERSION); ("spec", _spec_record spec); ("spec_sha256", JStr (spec_sha256 spec));
        ("fills", JArr (map fill_event_as_record (fst (fst x))));
        ("projection", match snd x with None => JNull | Some p => projection_as_record p end)]%string) ++ [chr 10]).

(** The order store on the same database.  A fill row refers to the digest of an
    order state, so replacing that state breaks its FOREIGN KEY. *)
Definition order_referenced (db : portfolio_db) (h : string) : bool :=
  existsb (fun x => String.eqb (fw_order_state_sha256 x) h) (rows_of (pd_fills db)).

Definition order_apply (e : order_event) : stm portfolio_db order_transition := fun db =>
  let '(orders, out) := OrderState.apply e (pd_orders db) in
  let written := PortfolioDb orders (pd_fills db) (pd_portfolios db) in
  match out with
  | Ok t =>
      match ot_previous t with
      | Some p =>
          if order_referenced db (order_state_sha256 p) && negb (String.eqb (order_state_sha256 (ot_current t)) (order_state_sha256 p))
          then (db, Err (Raise LocalOrderTransitionError "Local order event is duplicate or conflicts with durable state"))
          else (written, Ok t)
      | None => (written, Ok t)
      end
  | Err x => (written, Err x)
  end.

(** * Properties *)

(** ** Rows read back *)

Lemma fill_reason_roundtrip r : fill_reason_of (fill_reason_value r) = Ok r.
Proof. by destruct r. Qed.
Lemma intent_action_roundtrip a : intent_action_of (intent_action_value a) = Ok a.
Proof. by destruct a. Qed.

Lemma fill_reason_value_inj a b : fill_reason_value a = fill_reason_value b -> a = b.
Proof. by destruct a, b. Qed.
Lemma intent_action_value_inj a b : intent_action_value a = intent_action_value b -> a = b.
Proof. by destruct a, b. Qed.

Lemma json_same_refl j : json_same j j = true.
Proof. unfold json_same. by rewrite bool_decide_true. Qed.

(** A fill the store can hold: its costs are those of the specification. *)
Record fill_ok (spec : backtest_spec) (f : costed_fill) : Prop := {
  fo_reference : reference_valid (cf_reference f);
  fo_costs : apply_costs (cf_reference f) spec = Ok f;
}.

Lemma fill_ok_valid spec f : fill_ok spec f -> costed_valid f.
Proof.
  intros [Hr Hc]. split; [done|]. unfold apply_costs, new_costed in Hc. destruct (negb _) in Hc; [done|].
  apply rbind_ok in Hc as (x & _ & Hc). apply rbind_ok in Hc as (y & _ & Hc). apply rbind_ok in Hc as (v & _ & Hc).
  apply rbind_ok in Hc as ([] & Hp & Hc). injection Hc as Hc. by rewrite Hc in Hp.
Qed.

Definition fill_event_ok (spec : backtest_spec) (e : fill_event) : Prop := fill_event_post_init e = Ok tt /\ fill_ok spec (fe_fill e).

Lemma stored_fill_values changed spec e : fill_event_ok spec e -> stored_fill changed spec (fill_values (bs_symbol spec) e) = Ok e.
Proof.
  intros [Hp [Hr Hc]]. unfold stored_fill, fill_values, json_loads, get_text, get_number. cbn [fw_payload rbind].
  unfold _fill_record at 1 2 3 4 5 6 7. cbn [json_get find fst snd String.eqb Ascii.eqb Bool.eqb json_text json_number rbind].
  rewrite intent_action_roundtrip. cbn [rbind]. rewrite fill_reason_roundtrip. cbn [rbind].
  assert (FillReference (fr_action (cf_reference (fe_fill e))) (fr_symbol (cf_reference (fe_fill e))) (fr_decision_time_ms (cf_reference (fe_fill e)))
    (fill_time_ms (cf_reference (fe_fill e))) (fr_quantity (cf_reference (fe_fill e))) (reference_price (cf_reference (fe_fill e)))
    (fr_reason (cf_reference (fe_fill e))) = cf_reference (fe_fill e)) as -> by by destruct (cf_reference (fe_fill e)).
  unfold new_reference. rewrite Hr. cbn [rbind]. rewrite Hc. cbn [rbind]. rewrite json_same_refl. cbn [negb fw_sequence fw_authorization_sha256
    fw_intent_sha256 fw_order_state_sha256 fw_step_sha256 fw_index fw_event_sha256].
  assert (LocalPaperFillEvent (fe_sequence e) (fe_authorization_sha256 e) (fe_intent_sha256 e) (fe_order_state_sha256 e) (fe_step_sha256 e)
    (fe_index e) (fe_fill e) = e) as -> by by destruct e.
  unfold new_fill_event. by rewrite Hp.
Qed.

Lemma fill_event_from_values spec e : fill_event_ok spec e -> _event_from_row spec (fill_values (bs_symbol spec) e) = Ok e.
Proof.
  intros He. unfold _event_from_row. rewrite (stored_fill_values _ _ _ He). cbn [rcatch rbind fill_values fw_event_sha256]. by rewrite String.eqb_refl.
Qed.

(** What a stored snapshot is read back as: the same numbers, in the same text. *)
Record snapshot_reads (t s : portfolio_snapshot) : Prop := {
  srd_same : snapshot_same t s;
  srd_record : _snapshot_record t = _snapshot_record s;
}.

Lemma get_decimal_reads j k d : json_get j k = Ok (JStr (format_f d)) ->
  exists d', get_decimal j k = Ok d' /\ (dval d' == dval d)%Q /\ format_f d' = format_f d.
Proof. intros H. unfold get_decimal. rewrite H. apply format_f_reads. Qed.

Lemma snapshot_from_record s : (forall t, snapshot_same t s -> portfolio_snapshot_post_init t = Ok tt) ->
  exists t, _snapshot_from_record (_snapshot_record s) = Ok t /\ snapshot_reads t s.
Proof.
  intros Hp. unfold _snapshot_from_record.
  destruct (get_decimal_reads (_snapshot_record s) "cash" (ps_cash s) eq_refl) as (d1 & -> & V1 & T1).
  destruct (get_decimal_reads (_snapshot_record s) "asset_quantity" (ps_asset_quantity s) eq_refl) as (d2 & -> & V2 & T2).
  destruct (get_decimal_reads (_snapshot_record s) "cost_basis_quote" (ps_cost_basis_quote s) eq_refl) as (d3 & -> & V3 & T3).
  destruct (get_decimal_reads (_snapshot_record s) "liquidation_value_quote" (liquidation_value_quote s) eq_refl) as (d4 & -> & V4 & T4).
  destruct (get_decimal_reads (_snapshot_record s) "realized_pnl_quote" (ps_realized_pnl_quote s) eq_refl) as (d5 & -> & V5 & T5).
  destruct (get_decimal_reads (_snapshot_record s) "unrealized_pnl_quote" (unrealized_pnl_quote s) eq_refl) as (d6 & -> & V6 & T6).
  destruct (get_decimal_reads (_snapshot_record s) "equity_quote" (equity_quote s) eq_refl) as (d7 & -> & V7 & T7).
  destruct (get_decimal_reads (_snapshot_record s) "total_fee_quote" (ps_total_fee_quote s) eq_refl) as (d8 & -> & V8 & T8).
  destruct (get_decimal_reads (_snapshot_record s) "total_slippage_quote" (ps_total_slippage_quote s) eq_refl) as (d9 & -> & V9 & T9).
  assert (get_text (_snapshot_record s) "symbol" = Ok (ps_symbol s)) as -> by reflexivity.
  assert (get_number (_snapshot_record s) "closed_trades" = Ok (ps_closed_trades s)) as -> by reflexivity.
  cbn [rbind]. set (t := PortfolioSnapshot _ _ _ _ _ _ _ _ _ _ _). assert (snapshot_same t s) as Hs by by constructor.
  rewrite (Hp t Hs). cbn [rbind rcatch]. exists t. split; [done|]. split; [done|].
  unfold _snapshot_record, t. cbn [ps_symbol ps_cash ps_asset_quantity ps_cost_basis_quote liquidation_value_quote ps_realized_pnl_quote
    unrealized_pnl_quote equity_quote ps_total_fee_quote ps_total_slippage_quote ps_closed_trades].
  by rewrite T1, T2, T3, T4, T5, T6, T7, T8, T9.
Qed.

Lemma snapshot_eqb_same t s : snapshot_same t s -> snapshot_eqb t s = true.
Proof.
  intros [S1 S2 S3 S4 S5 S6 S7 S8 S9 S10 S11]. unfold snapshot_eqb. rewrite S1, S11, String.eqb_refl, Z.eqb_refl.
  by rewrite !(proj2 (deqb_spec _ _)) by done.
Qed.

(** A projection and what is read back for it. *)
Record projection_reads (q p : portfolio_projection) : Prop := {
  pr_snapshot : snapshot_reads (pp_snapshot q) (pp_snapshot p);
  pr_fields : pp_spec_sha256 q = pp_spec_sha256 p /\ pp_fill_count q = pp_fill_count p
    /\ pp_last_fill_event_sha256 q = pp_last_fill_event_sha256 p /\ pp_mark_price q = pp_mark_price p;
}.

Lemma projection_reads_material q p : projection_reads q p -> projection_material q = projection_material p.
Proof.
  intros [[Hs Hr] (F1 & F2 & F3 & F4)]. unfold projection_material. rewrite F1, F2, F3, F4, Hr.
  by rewrite (dltb_value dec0 dec0 (ps_asset_quantity (pp_snapshot q)) (ps_asset_quantity (pp_snapshot p)) ltac:(reflexivity) (sn_asset _ _ Hs)).
Qed.

Lemma stored_projection_values symbol p : projection_post_init p = Ok tt ->
  (forall t, snapshot_same t (pp_snapshot p) -> portfolio_snapshot_post_init t = Ok tt) ->
  exists q, stored_projection (projection_values symbol p) = Ok (q, projection_as_record p) /\ projection_reads q p.
Proof.
  intros Hp Hs. unfold stored_projection, projection_values, json_loads. cbn [pw_payload rbind].
  assert (get_text (projection_as_record p) "spec_sha256" = Ok (pp_spec_sha256 p)) as -> by reflexivity.
  assert (get_number (projection_as_record p) "fill_count" = Ok (pp_fill_count p)) as -> by reflexivity.
  assert (get_text (projection_as_record p) "last_fill_event_sha256" = Ok (pp_last_fill_event_sha256 p)) as -> by reflexivity.
  assert (get_text (projection_as_record p) "mark_price" = Ok (pp_mark_price p)) as -> by reflexivity.
  assert (json_get (projection_as_record p) "portfolio" = Ok (_snapshot_record (pp_snapshot p))) as -> by reflexivity.
  cbn [rbind]. destruct (snapshot_from_record (pp_snapshot p) Hs) as (t & -> & Ht). cbn [rbind].
  set (q := LocalPaperPortfolioProjection _ _ _ _ t). assert (projection_reads q p) as Hq by (constructor; [exact Ht|repeat split]).
  assert (projection_post_init q = Ok tt) as Eq by exact Hp. clearbody q. unfold new_projection. rewrite Eq. cbn [rbind].
  exists q. split; [reflexivity|exact Hq].
Qed.

Lemma reads_row_projects symbol p q : projection_reads q p -> row_projects (projection_values symbol p) q (projection_as_record p) = true.
Proof.
  intros Hq. pose proof (projection_reads_material q p Hq) as Em. destruct (pr_fields _ _ Hq) as (F1 & F2 & F3 & F4).
  assert (projection_sha256 q = projection_sha256 p) as E1 by (unfold projection_sha256; by rewrite Em).
  assert (projection_as_record q = projection_as_record p) as E2 by (unfold projection_as_record; by rewrite Em, E1).
  unfold row_projects, projection_values.
  cbn [pw_projection_sha256 pw_spec_sha256 pw_fill_count pw_last_fill_event_sha256 pw_mark_price]. rewrite E1, E2, json_same_refl, F1, F2, F3, F4.
  by rewrite (String.eqb_refl (projection_sha256 p)), (String.eqb_refl (pp_spec_sha256 p)), (String.eqb_refl (pp_last_fill_event_sha256 p)),
    (String.eqb_refl (pp_mark_price p)), (Z.eqb_refl (pp_fill_count p)).
Qed.

Lemma projection_from_values symbol p : projection_post_init p = Ok tt ->
  (forall t, snapshot_same t (pp_snapshot p) -> portfolio_snapshot_post_init t = Ok tt) ->
  exists q, _projection_from_row (Some (projection_values symbol p)) = Ok (Some q) /\ projection_reads q p.
Proof.
  intros Hp Hs. unfold _projection_from_row. destruct (stored_projection_values symbol p Hp Hs) as (q & -> & Hq). cbn [rcatch rbind].
  rewrite (reads_row_projects symbol p q Hq). cbn [negb]. by exists q.
Qed.

(** ** Replaying the fills *)

Lemma apply_all_app spec f1 f2 l : apply_all spec (f1 ++ f2) l = sbind (apply_all spec f1) (fun _ => apply_all spec f2) l.
Proof.
  revert l. induction f1 as [|f f1 IH]; intros l; [done|]. cbn [app apply_all]. unfold sbind in *. destruct (_apply spec f l) as [l1 [[]|e]]; [apply IH|done].
Qed.

Definition batch_ok (n : nat) : Prop := 1 <= Z.of_nat n <= MAX_LEDGER_BATCH.

Lemma replay_fills_ok spec fills l l' : apply_all spec fills l = (l', Ok tt) -> batch_ok (length fills) -> replay_fills spec fills l = Ok l'.
Proof.
  intros H [B1 B2]. unfold replay_fills, Ledger.apply_many. rewrite (proj2 (Z.leb_le _ _) B1), (proj2 (Z.leb_le _ _) B2). cbn [andb negb].
  unfold srollback. by rewrite H.
Qed.

Lemma replay_fills_inv spec fills l : spec_valid spec ->
  match replay_fills spec fills l with
  | Ok l' => apply_all spec fills l = (l', Ok tt) /\ batch_ok (length fills)
  | Err x => exn_cls x = PortfolioError
  end.
Proof.
  intros Hs. unfold replay_fills. destruct (Ledger.apply_many spec fills l) as [l' out] eqn:E.
  destruct (apply_many_cases spec Hs fills l l' out E) as [[-> E1]|(e & -> & He & _)]; [|done]. cbn [rbind]. split; [done|].
  unfold Ledger.apply_many in E. destruct (negb _) eqn:En; [done|]. apply negb_false_iff, andb_true_iff in En as [B1 B2].
  split; by apply Z.leb_le.
Qed.

Lemma replay_fills_long spec fills l : MAX_LEDGER_BATCH < Z.of_nat (length fills) ->
  exists m, replay_fills spec fills l = Err (Raise PortfolioError m).
Proof.
  intros H. unfold replay_fills, Ledger.apply_many. rewrite (proj2 (Z.leb_gt _ _) H), andb_false_r. by eexists.
Qed.

Definition replayed (spec : backtest_spec) (fills : list costed_fill) (l : ledger) : Prop :=
  exists l0, new_ledger spec = Ok l0 /\ apply_all spec fills l0 = (l, Ok tt).

Lemma replayed_reachable spec fills l : Forall (fill_ok spec) fills -> replayed spec fills l -> reachable spec l.
Proof.
  intros Hf (l0 & E0 & H). assert (reachable spec l0) as Hr by by apply reach_new. clear E0. revert l0 H Hr.
  induction Hf as [|f fills Hf Hfs IH]; intros l0 H Hr; cbn [apply_all] in H; [by injection H as <-|].
  apply sbind_ok in H as (l1 & [] & H1 & H). apply (IH l1 H). apply (reach_apply spec l0 f l1 (Ok tt)); [done|by eapply fill_ok_valid|].
  unfold Ledger.apply. by apply srollback_ok.
Qed.

Lemma replayed_length spec fills l : replayed spec fills l -> length (_applied l) = length fills.
Proof.
  intros (l0 & E0 & H). rewrite (apply_all_applied spec fills l0 l H), length_app, length_rev. unfold new_ledger in E0.
  apply rbind_ok in E0 as (c & _ & E0). injection E0 as <-. cbn. lia.
Qed.

Lemma replayed_unique spec fills l l' : replayed spec fills l -> replayed spec fills l' -> l = l'.
Proof. intros (l0 & E0 & H) (l1 & E1 & H'). congruence. Qed.

Lemma replayed_app spec f1 f2 l l' : replayed spec f1 l -> apply_all spec f2 l = (l', Ok tt) -> replayed spec (f1 ++ f2) l'.
Proof. intros (l0 & E0 & H) H'. exists l0. split; [done|]. rewrite apply_all_app. unfold sbind. by rewrite H. Qed.

(** ** What the tables hold *)

Definition projection_of (spec : backtest_spec) (fs : list fill_event) (e : fill_event) (mark : string) (s : portfolio_snapshot) : portfolio_projection :=
  LocalPaperPortfolioProjection (spec_sha256 spec) (Z.of_nat (length fs)) (fill_event_sha256 e) mark s.

(** The rows of one symbol are those of an accepted history [fs], which the ledger
    [l] has booked; [pr] is the projection of its last application. *)
Record book (spec : backtest_spec) (db : portfolio_db) (fs : list fill_event) (l : ledger) (pr : option portfolio_projection) : Prop := {
  bo_rows : forall r, (r ∈ rows_of (pd_fills db) /\ fw_symbol r = bs_symbol spec) <-> r ∈ map (fill_values (bs_symbol spec)) fs;
  bo_events : Forall (fill_event_ok spec) fs;
  bo_sequence : map fe_sequence fs = seqZ 0 (Z.of_nat (length fs));
  bo_ledger : replayed spec (map fe_fill fs) l;
  bo_projection : match last fs with
                  | None => pr = None
                  | Some e => exists mark s, pr = Some (projection_of spec fs e mark s) /\ Ledger.snapshot spec l mark = Ok s
                  end;
  bo_stored : pd_portfolios db !! bs_symbol spec = projection_values (bs_symbol spec) <$> pr;
  bo_bound : Z.of_nat (length fs) <= FILL_BOUND;
}.

(** The fill time a row records. *)
Definition row_fill_time (r : fill_row) : result Z := let* payload := json_loads (fw_payload r) in get_number payload "fill_time_ms".

(** What holds of the tables whatever symbols they serve.  Every stored fill is of
    the current, active state of its order. *)
Record portfolio_inv (db : portfolio_db) : Prop := {
  pi_orders : order_db_inv (pd_orders db);
  pi_fills : forall k r, pd_fills db !! k = Some r ->
    exists e, r = fill_values (fw_symbol r) e /\ k = fill_event_sha256 e;
  pi_portfolios : forall k r, pd_portfolios db !! k = Some r -> exists p, r = projection_values k p /\ ps_symbol (pp_snapshot p) = k;
  pi_active : forall r, r ∈ rows_of (pd_fills db) -> exists o, od_states (pd_orders db) !! fw_authorization_sha256 r = Some (state_values o)
    /\ order_state_sha256 o = fw_order_state_sha256 r /\ os_status o = ACTIVE_LOCAL /\ os_intent_sha256 o = fw_intent_sha256 r
    /\ exists t, row_fill_time r = Ok t /\ os_updated_time_ms o < t;
}.

Lemma fills_NoDup db : portfolio_inv db -> NoDup (rows_of (pd_fills db)).
Proof.
  intros Hdb. apply (rows_of_NoDup _ fw_event_sha256). intros k r E. destruct (pi_fills _ Hdb k r E) as (e & -> & ->). done.
Qed.

Lemma fill_rows_book spec db fs l pr : portfolio_inv db -> book spec db fs l pr ->
  fill_rows db (bs_symbol spec) = map (fill_values (bs_symbol spec)) fs.
Proof.
  intros Hdb Hb. unfold fill_rows. apply sort_by_numbered.
  - apply NoDup_filter. by apply fills_NoDup.
  - intros r. rewrite list_elem_of_filter, <- (bo_rows _ _ _ _ _ Hb r). tauto.
  - rewrite map_map, length_map. exact (bo_sequence _ _ _ _ _ Hb).
Qed.

Lemma rows_read spec fs : Forall (fill_event_ok spec) fs -> rmap (_event_from_row spec) (map (fill_values (bs_symbol spec)) fs) = Ok fs.
Proof.
  induction 1 as [|e fs He _ IH]; [done|]. cbn [map rmap]. rewrite (fill_event_from_values spec e He). cbn [rbind]. by rewrite IH.
Qed.

Lemma events_fills_ok spec fs : Forall (fill_event_ok spec) fs -> Forall (fill_ok spec) (map fe_fill fs).
Proof. intros H. apply Forall_map. eapply Forall_impl; [exact H|]. by intros e [_ ?]. Qed.

Lemma book_reachable spec db fs l pr : book spec db fs l pr -> reachable spec l /\ Z.of_nat (length (_applied l)) <= FILL_BOUND.
Proof.
  intros Hb. pose proof (bo_ledger _ _ _ _ _ Hb) as Hl. split.
  - eapply replayed_reachable; [|exact Hl]. apply events_fills_ok, (bo_events _ _ _ _ _ Hb).
  - rewrite (replayed_length _ _ _ Hl), length_map. exact (bo_bound _ _ _ _ _ Hb).
Qed.

(** The projection read back for a stored one. *)
Definition reads_projection (q p : option portfolio_projection) : Prop :=
  match q, p with Some q, Some p => projection_reads q p | None, None => True | _, _ => False end.

Lemma spec_sha256_pattern spec : sha256_pattern (spec_sha256 spec) = true.
Proof. apply digest_pattern. Qed.

Lemma projection_of_valid spec fs e mark s : (1 <= length fs)%nat -> projection_post_init (projection_of spec fs e mark s) = Ok tt.
Proof.
  intros Hn. unfold projection_post_init, projection_of. cbn [pp_spec_sha256 pp_last_fill_event_sha256 pp_fill_count].
  rewrite spec_sha256_pattern. unfold fill_event_sha256. rewrite digest_pattern. by rewrite (proj2 (Z.leb_gt (Z.of_nat (length fs)) 0)) by lia.
Qed.

Section Load.
Context {spec : backtest_spec} {c : dec} {db : portfolio_db} {fs : list fill_event} {l : ledger} {pr : option portfolio_projection}.
Hypothesis Hspec : spec_valid spec.
Hypothesis Hcash : cash_decimal spec = Ok c.
Hypothesis Hdb : portfolio_inv db.
Hypothesis Hb : book spec db fs l pr.

Lemma projection_read : exists q, _projection_from_row (pd_portfolios db !! bs_symbol spec) = Ok q /\ reads_projection q pr.
Proof using All.
  rewrite (bo_stored _ _ _ _ _ Hb). pose proof (bo_projection _ _ _ _ _ Hb) as Hp. destruct (last fs) as [e|] eqn:El; [|rewrite Hp; by exists None].
  destruct Hp as (mark & s & -> & Hs). cbn [fmap option_fmap option_map]. destruct (book_reachable _ _ _ _ _ Hb) as [Hr Hn].
  destruct (projection_from_values (bs_symbol spec) (projection_of spec fs e mark s)) as (q & E & Hq).
  - apply projection_of_valid. destruct fs; [done|]. cbn. lia.
  - intros t Ht. exact (snapshot_reread spec c Hspec Hcash l mark s t Hr Hn Hs Ht).
  - exists (Some q). by split.
Qed.

(** A history within one ledger batch is always read back; a longer one never is. *)
Lemma load_book : Z.of_nat (length fs) <= MAX_LEDGER_BATCH -> exists q, _load spec db = Ok (fs, l, q) /\ reads_projection q pr.
Proof using All.
  intros Hlen. destruct projection_read as (q & Eq & Hq). unfold _load. rewrite (fill_rows_book _ _ _ _ _ Hdb Hb), (rows_read spec fs (bo_events _ _ _ _ _ Hb)).
  cbn [rbind]. rewrite bool_decide_true by exact (bo_sequence _ _ _ _ _ Hb). cbn [negb].
  pose proof (bo_ledger _ _ _ _ _ Hb) as (l0 & E0 & El). rewrite E0. cbn [rbind].
  assert (match fs with [] => Ok l0 | _ => rcatch (replay_fills spec (map fe_fill fs) l0) [PortfolioError]
     (Raise LocalPaperPortfolioError "Durable fills fail accepted P2 replay") end = Ok l) as ->.
  { destruct fs as [|e fs']; [by injection El as ->|]. rewrite (replay_fills_ok spec _ l0 l El); [done|].
    unfold batch_ok. rewrite length_map. cbn [length] in *. lia. }
  cbn [rbind]. rewrite Eq. cbn [rbind]. pose proof (bo_projection _ _ _ _ _ Hb) as Hp. destruct (last fs) as [e|].
  2: { subst pr. destruct q; [done|]. by exists None. }
  destruct Hp as (mark & s & Ep & Hs). exists q. rewrite Ep in Hq |- *. destruct q as [q|]; [|done]. destruct Hq as [Hsn (F1 & F2 & F3 & F4)].
  cbn [projection_of pp_spec_sha256 pp_fill_count pp_last_fill_event_sha256 pp_mark_price pp_snapshot] in *. rewrite F1, F2, F3, F4.
  rewrite (String.eqb_refl (spec_sha256 spec)), (String.eqb_refl (fill_event_sha256 e)), Z.eqb_refl. cbn [negb orb]. rewrite Hs. cbn [rbind].
  rewrite (snapshot_eqb_same _ _ (srd_same _ _ Hsn)). cbn [negb]. split; [done|]. split; [done|]. done.
Qed.

Lemma load_long : MAX_LEDGER_BATCH < Z.of_nat (length fs) ->
  _load spec db = Err (Raise LocalPaperPortfolioError "Durable fills fail accepted P2 replay").
Proof using All.
  intros Hlen. unfold _load. rewrite (fill_rows_book _ _ _ _ _ Hdb Hb), (rows_read spec fs (bo_events _ _ _ _ _ Hb)).
  cbn [rbind]. rewrite bool_decide_true by exact (bo_sequence _ _ _ _ _ Hb). cbn [negb].
  pose proof (bo_ledger _ _ _ _ _ Hb) as (l0 & E0 & El). rewrite E0. cbn [rbind].
  destruct fs as [|e fs']; [cbn [length] in Hlen; exfalso; unfold MAX_LEDGER_BATCH in Hlen; lia|].
  destruct (replay_fills_long spec (map fe_fill (e :: fs')) l0) as (m & ->); [by rewrite length_map|]. done.
Qed.
End Load.

(** ** The texts of the tables *)

(** The texts events and projections are identified by, and those of the rows that
    store them; a stored projection ends with its own digest. *)
Definition fill_text (e : fill_event) : text := json_dumps (JObj (fill_event_material e)).
Definition projection_text (p : portfolio_projection) : text := json_dumps (JObj (projection_material p)).
Definition fill_row_text (r : fill_row) : text := json_dumps (JObj [
  ("schema_version", JInt 1); ("sequence", JInt (fw_sequence r)); ("authorization_sha256", JStr (fw_authorization_sha256 r));
  ("intent_sha256", JStr (fw_intent_sha256 r)); ("order_state_sha256", JStr (fw_order_state_sha256 r));
  ("fill_step_sha256", JStr (fw_step_sha256 r)); ("fill_index", JInt (fw_index r)); ("fill", default JNull (fw_payload r))]%string).
Definition without_digest (j : json) : json := match j with JObj l => JObj (removelast l) | _ => j end.
Definition projection_row_text (r : portfolio_row) : text := json_dumps (without_digest (default JNull (pw_payload r))).
Definition portfolio_db_texts (db : portfolio_db) : list text :=
  order_db_texts (pd_orders db) ++ map fill_row_text (rows_of (pd_fills db)) ++ map projection_row_text (rows_of (pd_portfolios db)).

(** The texts an application hashes to identify what it writes: its events and the
    projection it would reach. *)
Definition fill_call_texts (spec : backtest_spec) (s : fill_step) (mark : string) (db : portfolio_db) : list text :=
  match _load spec db with
  | Err _ => []
  | Ok (stored, l, _) =>
      let events := step_events s (length stored) 0 (fs_fills s) in
      map fill_text events
      ++ match last events, (let* l' := replay_fills spec (fs_fills s) l in Ledger.snapshot spec l' mark) with
         | Some e, Ok snap => [projection_text (projection_of spec (stored ++ events) e mark snap)]
         | _, _ => []
         end
  end.

Lemma fill_values_text symbol e : fill_row_text (fill_values symbol e) = fill_text e.
Proof. reflexivity. Qed.
Lemma projection_values_text symbol p : projection_row_text (projection_values symbol p) = projection_text p.
Proof.
  unfold projection_row_text, projection_text. by do 2 f_equal.
Qed.

Definition fills_in (db : portfolio_db) (T : list text) : Prop := forall k r, pd_fills db !! k = Some r -> fill_row_text r ∈ T.
Definition portfolios_in (db : portfolio_db) (T : list text) : Prop := forall k r, pd_portfolios db !! k = Some r -> projection_row_text r ∈ T.

Record portfolio_texts_in (db : portfolio_db) (T : list text) : Prop := {
  pti_orders : order_texts_in (pd_orders db) T;
  pti_fills : fills_in db T;
  pti_portfolios : portfolios_in db T;
}.

Lemma portfolio_texts_among db T : among (portfolio_db_texts db) T <-> portfolio_texts_in db T.
Proof.
  unfold portfolio_db_texts. rewrite !among_app, !among_map, order_texts_among. split.
  - intros (H1 & H2 & H3). constructor; [done|intros k r E; apply H2, rows_of_elem; by exists k|intros k r E; apply H3, rows_of_elem; by exists k].
  - intros [H1 H2 H3]. split_and!; [done|intros r Hr; apply rows_of_elem in Hr as (k & E); by eapply H2|intros r Hr; apply rows_of_elem in Hr as (k & E); by eapply H3].
Qed.

(** ** Writing the events *)

Lemma fill_event_binds T e e' : fill_text e ∈ T -> fill_text e' ∈ T -> fill_event_sha256 e = fill_event_sha256 e' ->
  (fe_step_sha256 e = fe_step_sha256 e' /\ fe_index e = fe_index e') \/ collision T.
Proof.
  intros Ht Ht' H. destruct (digest_binds T _ _ Ht Ht' H) as [E|E]; [|by right]. left. clear H. unfold fill_event_material in E. json_fields E. done.
Qed.

Lemma projection_binds T p p' : projection_text p ∈ T -> projection_text p' ∈ T ->
  projection_sha256 p = projection_sha256 p' -> ps_symbol (pp_snapshot p) = ps_symbol (pp_snapshot p') \/ collision T.
Proof.
  intros Ht Ht' H. destruct (digest_binds T _ _ Ht Ht' H) as [E|E]; [|by right]. left. clear H. unfold projection_material in E. json_fields E.
  match goal with H : jnorm (_snapshot_record _) = _ |- _ => rename H into E end. unfold _snapshot_record in E. json_fields E. done.
Qed.

Lemma rows_of_insert {A} (m : gmap string A) k v x : m !! k = None -> x ∈ rows_of (<[k := v]> m) <-> x = v \/ x ∈ rows_of m.
Proof.
  intros Hk. rewrite !rows_of_elem. split.
  - intros (k' & E). apply lookup_insert_Some in E as [[_ <-]|[_ E]]; [by left|right; by exists k'].
  - intros [->|(k' & E)]; [exists k; by rewrite lookup_insert_eq|]. exists k'. rewrite lookup_insert_ne; [done|]. intros <-. congruence.
Qed.

Definition fills_keyed (db : portfolio_db) : Prop :=
  forall k r, pd_fills db !! k = Some r -> exists e, r = fill_values (fw_symbol r) e /\ k = fill_event_sha256 e.

(** No stored row has the identity of this event, and its parents exist. *)
Record fresh_event (spec : backtest_spec) (db : portfolio_db) (e : fill_event) : Prop := {
  fv_rows : forall r, r ∈ rows_of (pd_fills db) ->
    (fw_symbol r = bs_symbol spec -> fw_sequence r <> fe_sequence e) /\ ~ (fw_step_sha256 r = fe_step_sha256 e /\ fw_index r = fe_index e);
  fv_intent : od_intents (pd_orders db) !! fe_authorization_sha256 e <> None;
  fv_order : exists o, o ∈ rows_of (od_states (pd_orders db)) /\ sr_state_sha256 o = fe_order_state_sha256 e;
}.

Definition insert_db (spec : backtest_spec) (e : fill_event) (db : portfolio_db) : portfolio_db :=
  PortfolioDb (pd_orders db) (<[fill_event_sha256 e := fill_values (bs_symbol spec) e]> (pd_fills db)) (pd_portfolios db).

Lemma fresh_key T spec db e : fills_in db T -> fill_text e ∈ T -> fills_keyed db -> fresh_event spec db e ->
  collision T \/ pd_fills db !! fill_event_sha256 e = None.
Proof.
  intros HT Ht Hk Hf. destruct (pd_fills db !! fill_event_sha256 e) as [r|] eqn:E; [|by right]. left.
  destruct (Hk _ r E) as (e' & Er & Es). pose proof (HT _ _ E) as Ht'. rewrite Er, fill_values_text in Ht'. destruct (fill_event_binds T e e' Ht Ht' Es) as [[B1 B2]|]; [|done]. exfalso.
  assert (r ∈ rows_of (pd_fills db)) as Hr by (apply rows_of_elem; by eexists). destruct (fv_rows _ _ _ Hf r Hr) as [_ Hn]. apply Hn.
  rewrite Er. by split.
Qed.

Lemma insert_fill_ok spec db e : fresh_event spec db e -> pd_fills db !! fill_event_sha256 e = None ->
  _insert_fill spec e db = (insert_db spec e db, Ok tt).
Proof.
  intros Hf Hk. unfold _insert_fill. change (fw_event_sha256 (fill_values (bs_symbol spec) e)) with (fill_event_sha256 e).
  change (fw_authorization_sha256 (fill_values (bs_symbol spec) e)) with (fe_authorization_sha256 e).
  change (fw_order_state_sha256 (fill_values (bs_symbol spec) e)) with (fe_order_state_sha256 e).
  change (fw_symbol (fill_values (bs_symbol spec) e)) with (bs_symbol spec). change (fw_sequence (fill_values (bs_symbol spec) e)) with (fe_sequence e).
  change (fw_step_sha256 (fill_values (bs_symbol spec) e)) with (fe_step_sha256 e). change (fw_index (fill_values (bs_symbol spec) e)) with (fe_index e).
  rewrite Hk. cbn [opt_is_none negb orb].
  destruct (existsb _ (rows_of (pd_fills db))) eqn:E1.
  { exfalso. apply existsb_exists in E1 as (r & Hr & E1). apply list_elem_of_In in Hr. destruct (fv_rows _ _ _ Hf r Hr) as [N1 N2].
    apply orb_true_iff in E1 as [E1|E1]; apply andb_true_iff in E1 as [X Y]; apply String.eqb_eq in X; apply Z.eqb_eq in Y; [by apply N1|by apply N2]. }
  pose proof (fv_intent _ _ _ Hf) as Hi. destruct (od_intents (pd_orders db) !! fe_authorization_sha256 e); [|done]. cbn [opt_is_none orb].
  destruct (fv_order _ _ _ Hf) as (o & Ho & Eo).
  assert (existsb (fun x => String.eqb (sr_state_sha256 x) (fe_order_state_sha256 e)) (rows_of (od_states (pd_orders db))) = true) as ->; [|done].
  apply existsb_exists. exists o. split; [by apply list_elem_of_In|]. by apply String.eqb_eq.
Qed.

Lemma insert_keyed spec db e : fills_keyed db -> fills_keyed (insert_db spec e db).
Proof.
  intros Hk k r E. cbn [insert_db pd_fills] in E. apply lookup_insert_Some in E as [[<- <-]|[_ E]]; [by exists e|by apply Hk].
Qed.

(** The effect of inserting several events. *)
Record inserted (spec : backtest_spec) (evs : list fill_event) (db db' : portfolio_db) : Prop := {
  is_orders : pd_orders db' = pd_orders db;
  is_portfolios : pd_portfolios db' = pd_portfolios db;
  is_keyed : fills_keyed db';
  is_rows : forall r, r ∈ rows_of (pd_fills db') <-> r ∈ rows_of (pd_fills db) \/ r ∈ map (fill_values (bs_symbol spec)) evs;
  is_key : forall e, e ∈ evs -> pd_fills db' !! fill_event_sha256 e <> None;
}.

Lemma fresh_after spec db e f : pd_fills db !! fill_event_sha256 e = None -> fresh_event spec db f -> fe_sequence e <> fe_sequence f ->
  fe_index e <> fe_index f -> fresh_event spec (insert_db spec e db) f.
Proof.
  intros Hk [F1 F2 F3] Hs Hi. constructor; [|done|done]. intros r Hr. apply (rows_of_insert _ _ _ _ Hk) in Hr as [->|Hr]; [|by apply F1].
  split; [intros _; exact Hs|]. intros [_ X]. exact (Hi X).
Qed.

Lemma insert_fills_ok T spec evs db : fills_in db T -> among (map fill_text evs) T -> fills_keyed db -> Forall (fresh_event spec db) evs -> NoDup (map fe_sequence evs) -> NoDup (map fe_index evs) ->
  collision T \/ exists db', insert_fills spec evs db = (db', Ok tt) /\ inserted spec evs db db'.
Proof.
  revert db. induction evs as [|e evs IH]; intros db HT Hts Hk Hf Hs Hi.
  - right. exists db. split; [done|]. constructor; [done|done|done| |by intros e He%elem_of_nil]. intros r. cbn [map]. rewrite elem_of_nil. tauto.
  - inversion_clear Hf as [|? ? He Hf']. cbn [map] in Hs, Hi. apply NoDup_cons in Hs as [Hs1 Hs2], Hi as [Hi1 Hi2].
    apply among_cons in Hts as [Ht Hts]. destruct (fresh_key T spec db e HT Ht Hk He) as [|Hn]; [by left|].
    destruct (IH (insert_db spec e db)) as [|(db' & E & [I1 I2 I3 I4 I5])]; [|done|by apply insert_keyed| |done|done|by left|].
    + intros k r E. cbn [insert_db pd_fills] in E. apply lookup_insert_Some in E as [[_ <-]|[_ E]]; [exact Ht|by eapply HT].
    + rewrite Forall_forall in Hf' |- *. intros f Hin. apply fresh_after; [done|by apply Hf'| |].
      * intros X. apply Hs1. rewrite X. by apply list_elem_of_In, in_map, list_elem_of_In.
      * intros X. apply Hi1. rewrite X. by apply list_elem_of_In, in_map, list_elem_of_In.
    + right. exists db'. cbn [insert_fills]. unfold sbind. rewrite (insert_fill_ok spec db e He Hn), E. split; [done|]. constructor; [done|done|done| |].
      * intros r. rewrite I4. cbn [insert_db pd_fills map]. rewrite (rows_of_insert _ _ _ _ Hn), elem_of_cons. tauto.
      * intros f Hin. apply elem_of_cons in Hin as [-> | Hin]; [|by apply I5]. intros En.
        assert (fill_values (bs_symbol spec) e ∈ rows_of (pd_fills db')) as Hr by (apply I4; left; apply rows_of_insert; [done|by left]).
        apply rows_of_elem in Hr as (k & Ek). destruct (I3 _ _ Ek) as (e' & Er & ->).
        assert (fill_event_sha256 e = fill_event_sha256 e') as X by exact (f_equal fw_event_sha256 Er). rewrite <- X in Ek. congruence.
Qed.

Lemma step_events_facts s stored index fills :
  map fe_fill (step_events s stored index fills) = fills
  /\ length (step_events s stored index fills) = length fills
  /\ map fe_index (step_events s stored index fills) = seqZ (Z.of_nat index) (Z.of_nat (length fills))
  /\ map fe_sequence (step_events s stored index fills) = seqZ (Z.of_nat (stored + index)) (Z.of_nat (length fills))
  /\ Forall (fun e => fe_authorization_sha256 e = fs_authorization_sha256 s /\ fe_intent_sha256 e = fs_intent_sha256 s
               /\ fe_order_state_sha256 e = fs_order_state_sha256 s /\ fe_step_sha256 e = fill_step_sha256 s /\ 0 <= fe_index e /\ 0 <= fe_sequence e
               /\ fe_fill e ∈ fills)
       (step_events s stored index fills).
Proof.
  revert index. induction fills as [|f fills IH]; intros index; cbn [step_events map length]; [split_and!; try done; by constructor|].
  destruct (IH (S index)) as (E1 & E2 & E3 & E4 & E5). rewrite E1, E2, E3, E4. cbn [fe_fill fe_index fe_sequence].
  split; [done|]. split; [done|]. split; [|split].
  - rewrite (seqZ_cons (Z.of_nat index)) by lia. f_equal. f_equal; lia.
  - rewrite (seqZ_cons (Z.of_nat (stored + index))) by lia. f_equal. f_equal; lia.
  - constructor; [cbn [fe_authorization_sha256 fe_intent_sha256 fe_order_state_sha256 fe_step_sha256 fe_index fe_sequence fe_fill];
      do 4 (split; [reflexivity|]); split; [lia|]; split; [lia|apply list_elem_of_here]|].
    eapply Forall_impl; [exact E5|]. intros e (H1 & H2 & H3 & H4 & H5 & H6 & H7). do 6 (split; [assumption|]). by apply list_elem_of_further.
Qed.

(** The tables after writing a projection. *)
Definition projected_db (symbol : string) (p : portfolio_projection) (db : portfolio_db) : portfolio_db :=
  PortfolioDb (pd_orders db) (pd_fills db) (<[symbol := projection_values symbol p]> (pd_portfolios db)).

Lemma projection_fresh T db symbol p : portfolios_in db T -> projection_text p ∈ T ->
  (forall k r, pd_portfolios db !! k = Some r -> exists p', r = projection_values k p' /\ ps_symbol (pp_snapshot p') = k) ->
  ps_symbol (pp_snapshot p) = symbol -> projection_taken db symbol (projection_sha256 p) = true -> collision T.
Proof.
  intros HT Ht Hk Hs H. apply existsb_exists in H as (x & Hx & H). apply list_elem_of_In, rows_of_elem in Hx as (k & Ek).
  destruct (Hk k x Ek) as (p' & -> & Hp'). apply andb_true_iff in H as [H1 H2]. apply negb_true_iff, String.eqb_neq in H1.
  apply String.eqb_eq in H2. pose proof (HT _ _ Ek) as Ht'. rewrite projection_values_text in Ht'. destruct (projection_binds T p' p Ht' Ht H2) as [E|]; [|done]. exfalso. apply H1. cbn [projection_values pw_symbol]. congruence.
Qed.

Lemma write_projection_ok T spec db pr q p : portfolios_in db T -> projection_text p ∈ T ->
  (forall k r, pd_portfolios db !! k = Some r -> exists p', r = projection_values k p' /\ ps_symbol (pp_snapshot p') = k) ->
  pd_portfolios db !! bs_symbol spec = projection_values (bs_symbol spec) <$> pr -> reads_projection q pr ->
  ps_symbol (pp_snapshot p) = bs_symbol spec -> pd_fills db !! pp_last_fill_event_sha256 p <> None ->
  collision T \/ _write_projection spec q p db = (projected_db (bs_symbol spec) p db, Ok tt).
Proof.
  intros HT Ht Hk Hst Hq Hs Hf. unfold _write_projection. change (pw_projection_sha256 (projection_values (bs_symbol spec) p)) with (projection_sha256 p).
  change (pw_last_fill_event_sha256 (projection_values (bs_symbol spec) p)) with (pp_last_fill_event_sha256 p).
  destruct (projection_taken db (bs_symbol spec) (projection_sha256 p)) eqn:Et; [left; by eapply projection_fresh|]. right.
  destruct (pd_fills db !! pp_last_fill_event_sha256 p); [|done]. cbn [opt_is_none orb]. rewrite Hst.
  destruct q as [q|], pr as [pr|]; try done. cbn [fmap option_fmap option_map].
  change (pw_projection_sha256 (projection_values (bs_symbol spec) pr)) with (projection_sha256 pr).
  assert (projection_sha256 q = projection_sha256 pr) as -> by (unfold projection_sha256; by rewrite (projection_reads_material q pr Hq)).
  by rewrite (String.eqb_refl (projection_sha256 pr)).
Qed.

(** ** One application *)

Record step_ok (spec : backtest_spec) (s : fill_step) : Prop := {
  so_step : fill_step_post_init s = Ok tt;
  so_fills : Forall (fill_ok spec) (fs_fills s);
}.

(** The step belongs to this intent and this order, as they stand. *)
Record step_fits (s : fill_step) (i : intent_record) (o : order_state) : Prop := {
  sf_intent : in_intent_sha256 i = fs_intent_sha256 s /\ os_intent_sha256 o = fs_intent_sha256 s;
  sf_action : in_action i = intent_action_value (pi_action (p2_intent s));
  sf_state : order_state_sha256 o = fs_order_state_sha256 s;
  sf_active : os_status o = ACTIVE_LOCAL;
  sf_later : forall f, f ∈ fs_fills s -> os_updated_time_ms o < fill_time_ms (cf_reference f);
}.

Lemma step_matches_spec s i o : step_matches s i o = true <-> step_fits s i o.
Proof.
  unfold step_matches. rewrite !andb_true_iff, negb_true_iff, bool_decide_eq_true, !String.eqb_eq. split.
  - intros [[[[[H1 H2] H3] H4] H5] H6]. constructor; [done|done|done|done|]. intros f Hf. apply Z.nle_gt. intros Hle.
    apply not_true_iff_false in H6. apply H6, existsb_exists. exists f. split; [by apply list_elem_of_In|by apply Z.leb_le].
  - intros [[H1 H2] H3 H4 H5 H6]. split_and!; try done. apply not_true_iff_false. intros H. apply existsb_exists in H as (f & Hf & Hle).
    apply list_elem_of_In, H6 in Hf. apply Z.leb_le in Hle. lia.
Qed.

(** What the store accepts: the step is of the current active order of a journalled
    intent, and later than it; the history fits one ledger batch; the step was not
    applied before; and the ledger takes its fills and values them at the mark. *)
Record accepts_step (spec : backtest_spec) (db : portfolio_db) (fs : list fill_event) (l : ledger) (s : fill_step) (mark : string) : Prop := {
  ac_order : exists i o, od_intents (pd_orders db) !! fs_authorization_sha256 s = Some i
    /\ od_states (pd_orders db) !! fs_authorization_sha256 s = Some (state_values o) /\ order_state_valid o /\ step_fits s i o;
  ac_readable : Z.of_nat (length fs) <= MAX_LEDGER_BATCH;
  ac_new : forall r, r ∈ rows_of (pd_fills db) -> fw_step_sha256 r <> fill_step_sha256 s;
  ac_booked : exists l' snap, replay_fills spec (fs_fills s) l = Ok l' /\ Ledger.snapshot spec l' mark = Ok snap;
}.

Record applied_step (spec : backtest_spec) (db : portfolio_db) (fs : list fill_event) (l : ledger) (s : fill_step) (mark : string)
    (a : portfolio_application) (db' : portfolio_db) : Prop := {
  at_accepted : accepts_step spec db fs l s mark;
  at_events : pa_events a = step_events s (length fs) 0 (fs_fills s);
  at_book : exists l', replay_fills spec (fs_fills s) l = Ok l' /\ book spec db' (fs ++ pa_events a) l' (Some (pa_projection a));
  at_orders : pd_orders db' = pd_orders db;
  at_inv : portfolio_inv db';
  at_others : forall spec2 fs2 l2 pr2, bs_symbol spec2 <> bs_symbol spec -> book spec2 db fs2 l2 pr2 -> book spec2 db' fs2 l2 pr2;
}.

Lemma journal_read db h : portfolio_inv db ->
  _intent db h = match od_intents (pd_orders db) !! h with
                 | Some i => Ok i
                 | None => Err (Raise LocalPaperPortfolioError "Fill has no durable accepted intent")
                 end.
Proof.
  intros Hdb. unfold _intent. destruct (od_intents (pd_orders db) !! h) as [i|] eqn:E; [|done].
  destruct (odi_intents _ (pi_orders _ Hdb) h i E) as [_ Hv]. unfold new_intent_record. by rewrite Hv.
Qed.

Lemma order_read db h : portfolio_inv db ->
  (exists s, od_states (pd_orders db) !! h = Some (state_values s) /\ order_state_valid s /\ _active_order db h = Ok s)
  \/ (od_states (pd_orders db) !! h = None /\ _active_order db h = Err (Raise LocalPaperPortfolioError "Fill has no durable local order state")).
Proof.
  intros Hdb. unfold _active_order. destruct (od_states (pd_orders db) !! h) as [r|] eqn:E; [|by right]. left.
  destruct (stored_state _ h r (pi_orders _ Hdb) E) as (s & -> & Hs & _). exists s. split; [done|]. split; [done|].
  rewrite (row_state_values s Hs). cbn [rcatch rbind state_values sr_state_sha256]. by rewrite (String.eqb_refl (order_state_sha256 s)).
Qed.

Lemma step_digests s : fill_step_post_init s = Ok tt ->
  (1 <= length (fs_fills s))%nat /\ sha256_pattern (fs_authorization_sha256 s) = true /\ sha256_pattern (fs_intent_sha256 s) = true
  /\ sha256_pattern (fs_order_state_sha256 s) = true.
Proof.
  unfold fill_step_post_init. intros H. destruct (_ || _ || _) eqn:E1 in H; [done|]. destruct (existsb _ _) eqn:E2 in H; [done|].
  rewrite !orb_false_iff in E1. destruct E1 as [[E1 E3] _]. apply bool_decide_eq_false in E1. apply negb_false_iff, Nat.eqb_eq in E3.
  cbn [existsb] in E2. rewrite !orb_false_iff, !negb_false_iff in E2. destruct E2 as (P1 & P2 & P3 & _). split; [|done].
  rewrite <- E3. destruct (references s); [done|]. cbn. lia.
Qed.

Lemma step_events_valid s stored : fill_step_post_init s = Ok tt ->
  rmap new_fill_event (step_events s stored 0 (fs_fills s)) = Ok (step_events s stored 0 (fs_fills s))
  /\ Forall (fun e => fill_event_post_init e = Ok tt) (step_events s stored 0 (fs_fills s)).
Proof.
  intros Hs. destruct (step_digests s Hs) as (_ & P1 & P2 & P3). destruct (step_events_facts s stored 0 (fs_fills s)) as (_ & _ & _ & _ & Hf).
  assert (Forall (fun e => fill_event_post_init e = Ok tt) (step_events s stored 0 (fs_fills s))) as H.
  { eapply Forall_impl; [exact Hf|]. intros e (H1 & H2 & H3 & H4 & H5 & H6 & _). unfold fill_event_post_init.
    rewrite (proj2 (Z.ltb_ge _ _) H6), (proj2 (Z.ltb_ge _ _) H5). cbn [existsb]. rewrite H1, H2, H3, H4, P1, P2, P3.
    unfold fill_step_sha256. by rewrite digest_pattern. }
  split; [|exact H]. clear Hf. induction H as [|e es He _ IH]; [done|]. cbn [rmap]. unfold new_fill_event at 1. rewrite He. cbn [rbind].
  by rewrite IH.
Qed.

Lemma state_values_inj s t : order_state_valid s -> order_state_valid t -> state_values s = state_values t -> s = t.
Proof.
  intros Hs Ht E. pose proof (state_from_values s Hs) as H. rewrite E, (state_from_values t Ht) in H. by injection H.
Qed.

Lemma snapshot_symbol spec l mark s : Ledger.snapshot spec l mark = Ok s -> ps_symbol s = bs_symbol spec.
Proof.
  unfold Ledger.snapshot. intros H. apply rbind_ok in H as (d & _ & H). apply rbind_ok in H as (q & _ & H). apply rbind_ok in H as ([] & _ & H).
  by injection H as <-.
Qed.

Lemma snapshot_error spec c l mark x : spec_valid spec -> cash_decimal spec = Ok c -> reachable spec l -> Z.of_nat (length (_applied l)) <= FILL_BOUND ->
  Ledger.snapshot spec l mark = Err x -> exn_cls x = PortfolioError.
Proof.
  intros Hs Hc Hr Hn H. destruct (_mark mark) as [d|e] eqn:Em.
  - destruct (spec_rates _ Hs) as (f & sl & Ef & Es & _). destruct (snapshot_exact spec c Hs Hc l mark d f sl Hr Hn (mark_ok _ _ Em) Ef Es) as (s & E & _).
    congruence.
  - unfold Ledger.snapshot in H. rewrite Em in H. injection H as <-. unfold _mark in Em. destruct (decimal_pattern mark) eqn:Ep; [|by injection Em as <-].
    destruct (decimal_pattern_spec _ Ep) as (d' & E & _). cbn [negb] in Em. rewrite E in Em. cbn [rbind] in Em.
    destruct (dleb d' dec0); [by injection Em as <-|done].
Qed.

Section Step.
Context {spec : backtest_spec} {c : dec} {db : portfolio_db} {fs : list fill_event} {l : ledger} {pr : option portfolio_projection} {s : fill_step} {mark : string}.
Hypothesis Hspec : spec_valid spec.
Hypothesis Hcash : cash_decimal spec = Ok c.
Hypothesis Hdb : portfolio_inv db.
Hypothesis Hb : book spec db fs l pr.
Hypothesis Hs : step_ok spec s.

Let evs := step_events s (length fs) 0 (fs_fills s).

Lemma evs_nonempty : exists e, last evs = Some e.
Proof using Hs.
  destruct (step_digests s (so_step _ _ Hs)) as (Hlen & _). destruct (step_events_facts s (length fs) 0 (fs_fills s)) as (_ & E2 & _). fold evs in E2.
  destruct (last evs) as [e|] eqn:El; [by exists e|]. apply last_None in El. rewrite El in E2. cbn in E2. lia.
Qed.

Lemma evs_fresh o : od_intents (pd_orders db) !! fs_authorization_sha256 s <> None ->
  od_states (pd_orders db) !! fs_authorization_sha256 s = Some (state_values o) -> order_state_sha256 o = fs_order_state_sha256 s ->
  (forall r, r ∈ rows_of (pd_fills db) -> fw_step_sha256 r <> fill_step_sha256 s) -> Forall (fresh_event spec db) evs.
Proof using Hb.
  intros Hi Ho Hsha Hnew. destruct (step_events_facts s (length fs) 0 (fs_fills s)) as (_ & _ & _ & E4 & E5). fold evs in E4, E5.
  apply Forall_forall. intros e He. pose proof (proj1 (Forall_forall _ _) E5 e He) as (H1 & H2 & H3 & H4 & _). constructor; [|by rewrite H1|].
  - intros r Hr. split; [|intros [X _]; rewrite H4 in X; by apply (Hnew r Hr)]. intros Hsym X.
    pose proof (proj1 (bo_rows _ _ _ _ _ Hb r) (conj Hr Hsym)) as Hin. apply list_elem_of_In, in_map_iff in Hin as (f & <- & Hf).
    assert (fe_sequence e ∈ seqZ (Z.of_nat (length fs + 0)) (Z.of_nat (length (fs_fills s)))) as Hge.
    { rewrite <- E4. by apply list_elem_of_In, in_map, list_elem_of_In. }
    assert (fe_sequence f ∈ seqZ 0 (Z.of_nat (length fs))) as Hlt.
    { rewrite <- (bo_sequence _ _ _ _ _ Hb). by apply list_elem_of_In, in_map. }
    apply elem_of_seqZ in Hge, Hlt. change (fe_sequence f = fe_sequence e) in X. lia.
  - exists (state_values o). split; [apply rows_of_elem; by eexists|]. change (order_state_sha256 o = fe_order_state_sha256 e). congruence.
Qed.

(** Writing the events and the projection of an accepted step. *)
Lemma written_step T o l' snap q : portfolio_texts_in db T -> among (map fill_text evs) T ->
  (forall e, last evs = Some e -> projection_text (projection_of spec (fs ++ evs) e mark snap) ∈ T) -> od_intents (pd_orders db) !! fs_authorization_sha256 s <> None ->
  od_states (pd_orders db) !! fs_authorization_sha256 s = Some (state_values o) -> order_state_sha256 o = fs_order_state_sha256 s ->
  (forall r, r ∈ rows_of (pd_fills db) -> fw_step_sha256 r <> fill_step_sha256 s) -> reads_projection q pr ->
  Ledger.snapshot spec l' mark = Ok snap ->
  collision T \/ exists e db1, last evs = Some e /\ inserted spec evs db db1 /\ insert_fills spec evs db = (db1, Ok tt)
    /\ _write_projection spec q (projection_of spec (fs ++ evs) e mark snap) db1
       = (projected_db (bs_symbol spec) (projection_of spec (fs ++ evs) e mark snap) db1, Ok tt).
Proof using Hdb Hb Hs.
  intros HT Hts Hpt Hi Ho Hsha Hnew Hq Hsnap. destruct evs_nonempty as (e & El).
  destruct (step_events_facts s (length fs) 0 (fs_fills s)) as (_ & _ & E3 & E4 & _). fold evs in E3, E4.
  destruct (insert_fills_ok T spec evs db (pti_fills _ _ HT) Hts (pi_fills _ Hdb)) as [|(db1 & E & Hins)]; [by eapply evs_fresh|rewrite E4; apply NoDup_seqZ|
    rewrite E3; apply NoDup_seqZ|by left|].
  destruct (write_projection_ok T spec db1 pr q (projection_of spec (fs ++ evs) e mark snap)) as [|Ew]; [|by apply Hpt| | |done| | |by left|].
  - unfold portfolios_in. rewrite (is_portfolios _ _ _ _ Hins). exact (pti_portfolios _ _ HT).
  - rewrite (is_portfolios _ _ _ _ Hins). exact (pi_portfolios _ Hdb).
  - rewrite (is_portfolios _ _ _ _ Hins). exact (bo_stored _ _ _ _ _ Hb).
  - exact (snapshot_symbol _ _ _ _ Hsnap).
  - apply (is_key _ _ _ _ Hins). by apply last_Some_elem_of.
  - right. by exists e, db1.
Qed.

Lemma written_texts T e db1 snap : portfolio_texts_in db T -> among (map fill_text evs) T ->
  projection_text (projection_of spec (fs ++ evs) e mark snap) ∈ T -> inserted spec evs db db1 ->
  portfolio_texts_in (projected_db (bs_symbol spec) (projection_of spec (fs ++ evs) e mark snap) db1) T.
Proof using.
  intros [H1 H2 H3] Hts Hp [I1 I2 _ I4 _]. constructor; unfold fills_in, portfolios_in; cbn [projected_db pd_orders pd_fills pd_portfolios].
  - by rewrite I1.
  - intros k r E. assert (r ∈ rows_of (pd_fills db1)) as Hr by (apply rows_of_elem; by exists k). apply I4 in Hr as [Hr|Hr].
    + apply rows_of_elem in Hr as (k' & E'). by eapply H2.
    + apply list_elem_of_In, in_map_iff in Hr as (f & <- & Hf). rewrite fill_values_text. apply Hts. by apply list_elem_of_In, in_map.
  - intros k r E. apply lookup_insert_Some in E as [[_ <-]|[_ E]]; [by rewrite projection_values_text|]. rewrite I2 in E. by eapply H3.
Qed.

(** The tables of an accepted step hold its history, extended. *)
Lemma written_book e db1 l' snap : last evs = Some e -> inserted spec evs db db1 -> Z.of_nat (length fs) <= MAX_LEDGER_BATCH ->
  replay_fills spec (fs_fills s) l = Ok l' -> Ledger.snapshot spec l' mark = Ok snap ->
  let p := projection_of spec (fs ++ evs) e mark snap in book spec (projected_db (bs_symbol spec) p db1) (fs ++ evs) l' (Some p).
Proof using Hspec Hdb Hb Hs.
  intros El [I1 I2 I3 I4 I5] Hlen Hr Hsnap p. pose proof (replay_fills_inv spec (fs_fills s) l Hspec) as Hrep. rewrite Hr in Hrep. destruct Hrep as [Happ [B1 B2]].
  destruct (step_events_facts s (length fs) 0 (fs_fills s)) as (E1 & E2 & E3 & E4 & E5). fold evs in E1, E2, E3, E4, E5.
  destruct (step_events_valid s (length fs) (so_step _ _ Hs)) as [_ Hval]. fold evs in Hval. destruct Hb as [b1 b2 b3 b4 b5 b6 b7].
  constructor; cbn [projected_db pd_fills pd_portfolios].
  - intros r. rewrite I4, map_app, elem_of_app, <- (b1 r). split; [tauto|]. intros [[H1 H2]|H]; [tauto|]. split; [tauto|].
    apply list_elem_of_In, in_map_iff in H as (f & <- & _). reflexivity.
  - apply Forall_app. split; [exact b2|]. apply Forall_forall. intros f Hf. split; [exact (proj1 (Forall_forall _ _) Hval f Hf)|].
    pose proof (proj1 (Forall_forall _ _) E5 f Hf) as (_ & _ & _ & _ & _ & _ & Hin). exact (proj1 (Forall_forall _ _) (so_fills _ _ Hs) _ Hin).
  - rewrite map_app, b3, E4, length_app, E2, (Nat2Z.inj_add (length fs) (length (fs_fills s))), seqZ_app by lia. f_equal. f_equal. lia.
  - rewrite map_app, E1. by eapply replayed_app.
  - rewrite last_app, El. by exists mark, snap.
  - by rewrite lookup_insert_eq.
  - rewrite length_app, E2. unfold MAX_LEDGER_BATCH, FILL_BOUND in *. lia.
Qed.

Lemma written_others e db1 snap spec2 fs2 l2 pr2 : inserted spec evs db db1 -> bs_symbol spec2 <> bs_symbol spec -> book spec2 db fs2 l2 pr2 ->
  book spec2 (projected_db (bs_symbol spec) (projection_of spec (fs ++ evs) e mark snap) db1) fs2 l2 pr2.
Proof using.
  intros [I1 I2 I3 I4 I5] Hne [b1 b2 b3 b4 b5 b6 b7]. constructor; cbn [projected_db pd_fills pd_portfolios]; try done.
  - intros r. rewrite I4, <- (b1 r). split; [|tauto]. intros [[H|H] H2]; [tauto|]. apply list_elem_of_In, in_map_iff in H as (f & <- & _).
    exfalso. apply Hne. symmetry. exact H2.
  - rewrite lookup_insert_ne by congruence. by rewrite I2.
Qed.

Lemma written_inv o e db1 snap l' : od_states (pd_orders db) !! fs_authorization_sha256 s = Some (state_values o) ->
  order_state_sha256 o = fs_order_state_sha256 s -> os_status o = ACTIVE_LOCAL -> os_intent_sha256 o = fs_intent_sha256 s ->
  (forall f, f ∈ fs_fills s -> os_updated_time_ms o < fill_time_ms (cf_reference f)) ->
  inserted spec evs db db1 -> Ledger.snapshot spec l' mark = Ok snap -> portfolio_inv (projected_db (bs_symbol spec) (projection_of spec (fs ++ evs) e mark snap) db1).
Proof using Hdb.
  intros Ho Hsha Hact Hint Hlater [I1 I2 I3 I4 I5] Hsnap. destruct (step_events_facts s (length fs) 0 (fs_fills s)) as (_ & _ & _ & _ & E5). fold evs in E5.
  constructor; cbn [projected_db pd_orders pd_fills pd_portfolios].
  - rewrite I1. exact (pi_orders _ Hdb).
  - exact I3.
  - intros k r E. apply lookup_insert_Some in E as [[<- <-]|[_ E]].
    + eexists. split; [done|]. exact (snapshot_symbol _ _ _ _ Hsnap).
    + rewrite I2 in E. by apply (pi_portfolios _ Hdb).
  - rewrite I1. intros r Hr. apply I4 in Hr as [Hr|Hr]; [by apply (pi_active _ Hdb)|]. apply list_elem_of_In, in_map_iff in Hr as (f & <- & Hf).
    apply list_elem_of_In in Hf. pose proof (proj1 (Forall_forall _ _) E5 f Hf) as (H1 & H2 & H3 & _ & _ & _ & H7). exists o.
    change (fw_intent_sha256 (fill_values (bs_symbol spec) f)) with (fe_intent_sha256 f).
    change (fw_authorization_sha256 (fill_values (bs_symbol spec) f)) with (fe_authorization_sha256 f).
    change (fw_order_state_sha256 (fill_values (bs_symbol spec) f)) with (fe_order_state_sha256 f). rewrite H1, H2, H3.
    do 4 (split; [done|]). eexists. split; [reflexivity|]. by apply Hlater.
Qed.
End Step.

Definition refusal (x : exn) : Prop := exn_cls x = LocalPaperPortfolioError \/ exn_cls x = DuplicateLocalPaperFill.

(** Every outcome of [apply] before its transaction ends. *)
Lemma portfolio_body_spec T spec c db fs l pr s mark : portfolio_texts_in db T -> among (fill_call_texts spec s mark db) T -> spec_valid spec -> cash_decimal spec = Ok c -> portfolio_inv db -> book spec db fs l pr -> step_ok spec s ->
  collision T
  \/ (exists db' a, portfolio_apply_body spec s mark db = (db', Ok a) /\ applied_step spec db fs l s mark a db' /\ portfolio_texts_in db' T)
  \/ (exists x, portfolio_apply_body spec s mark db = (db, Err x) /\ refusal x /\ ~ accepts_step spec db fs l s mark).
Proof.
  intros HT Hcall Hspec Hcash Hdb Hb Hs. unfold portfolio_apply_body, sbind, sget, slift, sret.
  assert (forall i, ~ accepts_step spec db fs l s mark -> refusal i ->
    exists x, (db, @Err portfolio_application i) = (db, Err x) /\ refusal x /\ ~ accepts_step spec db fs l s mark) as Hno by (intros i H1 H2; by exists i).
  rewrite (journal_read db _ Hdb). destruct (od_intents (pd_orders db) !! fs_authorization_sha256 s) as [i|] eqn:Ei.
  2: { right. right. apply Hno; [|by left]. intros [(i & o & H & _) _ _ _]. congruence. }
  destruct (order_read db (fs_authorization_sha256 s) Hdb) as [(o & Eo & Ho & ->)|[Eo ->]].
  2: { right. right. apply Hno; [|by left]. intros [(i' & o & _ & H & _) _ _ _]. congruence. }
  destruct (step_matches s i o) eqn:Em; cbn [negb].
  2: { right. right. apply Hno; [|by left]. intros [(i' & o' & H1 & H2 & H3 & H4) _ _ _]. rewrite Ei in H1. injection H1 as <-.
       assert (state_values o = state_values o') as E2 by (apply (inj Some); by rewrite <- Eo). apply (state_values_inj o o' Ho H3) in E2. rewrite <- E2 in H4. apply step_matches_spec in H4. congruence. }
  destruct (Z.leb_spec (Z.of_nat (length fs)) MAX_LEDGER_BATCH) as [Hlen|Hlen].
  2: { rewrite (load_long Hspec Hcash Hdb Hb Hlen). right. right. apply Hno; [|by left]. intros [_ H _ _]. lia. }
  destruct (load_book Hspec Hcash Hdb Hb Hlen) as (q & Eload & Hq). unfold fill_call_texts in Hcall. rewrite Eload in Hcall |- *.
  apply among_app in Hcall as [Hts Hpt]. destruct (step_events_valid s (length fs) (so_step _ _ Hs)) as [-> _].
  destruct (existsb _ (rows_of (pd_fills db))) eqn:Ed.
  { right. right. apply Hno; [|by right]. intros [_ _ H _]. apply existsb_exists in Ed as (r & Hr & E). apply list_elem_of_In in Hr.
    apply String.eqb_eq in E. by apply (H r). }
  assert (forall r, r ∈ rows_of (pd_fills db) -> fw_step_sha256 r <> fill_step_sha256 s) as Hnew.
  { intros r Hr E. apply not_true_iff_false in Ed. apply Ed, existsb_exists. exists r. split; [by apply list_elem_of_In|by apply String.eqb_eq]. }
  destruct (book_reachable _ _ _ _ _ Hb) as [Hreach Hn]. pose proof (replay_fills_inv spec (fs_fills s) l Hspec) as Hrep.
  destruct (replay_fills spec (fs_fills s) l) as [l'|x] eqn:Er.
  2: { cbn [rbind rcatch]. rewrite Hrep, bool_decide_true by in_list. right. right. apply Hno; [|by left]. intros [_ _ _ (l' & sn & H & _)]. congruence. }
  destruct Hrep as [Happ [_ B2]]. cbn [rbind]. destruct (Ledger.snapshot spec l' mark) as [snap|x] eqn:Esn.
  2: { assert (replayed spec (map fe_fill fs ++ fs_fills s) l') as Hl' by (eapply replayed_app; [exact (bo_ledger _ _ _ _ _ Hb)|exact Happ]).
       assert (exn_cls x = PortfolioError) as Hx.
       { apply (snapshot_error spec c l' mark x Hspec Hcash); [| |exact Esn].
         - eapply replayed_reachable; [|exact Hl']. apply Forall_app. split; [apply events_fills_ok, (bo_events _ _ _ _ _ Hb)|exact (so_fills _ _ Hs)].
         - rewrite (replayed_length _ _ _ Hl'), length_app, length_map. unfold MAX_LEDGER_BATCH, FILL_BOUND in *. lia. }
       cbn [rcatch]. rewrite Hx, bool_decide_true by in_list. right. right. apply Hno; [|by left]. intros [_ _ _ (l2 & sn & H & H2)].
       rewrite Er in H. injection H as <-. congruence. }
  cbn [rcatch rbind] in Hpt |- *. rewrite Esn in Hpt. apply step_matches_spec in Em. pose proof (sf_state _ _ _ Em) as Esha. pose proof (sf_active _ _ _ Em) as Eact.
  destruct (written_step (spec:=spec) (fs:=fs) (mark:=mark) Hdb Hb Hs T o l' snap q) as [|(e & db1 & El & Hins & Ein & Ew)];
    [done|done|intros e El; rewrite El in Hpt; by apply among_head in Hpt|congruence|done|done|done|done|done|by left|]. right. left.
  rewrite El in Hpt. apply among_head in Hpt. rewrite El. cbn [fmap option_fmap option_map].
  destruct (step_events_facts s (length fs) 0 (fs_fills s)) as (_ & E2 & _). rewrite <- length_app.
  unfold new_projection. fold (projection_of spec (fs ++ step_events s (length fs) 0 (fs_fills s)) e mark snap).
  rewrite projection_of_valid by (destruct (step_digests s (so_step _ _ Hs)) as (Hpos & _); rewrite length_app, E2; lia).
  cbn [rbind]. rewrite Ein, Ew. unfold application_post_init. cbn [pa_projection pa_events projection_of pp_last_fill_event_sha256].
  rewrite El. cbn [fmap option_fmap option_map]. rewrite bool_decide_true by done. cbn [negb].
  eexists _, _. split; [reflexivity|]. split; [|by apply (written_texts (db:=db))]. constructor; cbn [pa_events pa_projection].
  - constructor; [by exists i, o|done|done|by exists l', snap].
  - done.
  - exists l'. split; [done|]. by apply (written_book Hspec Hdb Hb Hs).
  - cbn [projected_db pd_orders]. exact (is_orders _ _ _ _ Hins).
  - apply (written_inv (db:=db) Hdb o e db1 snap l'); [done..|apply Em|exact (sf_later _ _ _ Em)|done|done].
  - intros spec2 fs2 l2 pr2 Hne Hb2. by apply (written_others (db:=db)).
Qed.

Lemma portfolio_apply_spec T spec c db fs l pr s mark db' out : portfolio_texts_in db T -> among (fill_call_texts spec s mark db) T -> spec_valid spec -> cash_decimal spec = Ok c -> portfolio_inv db -> book spec db fs l pr ->
  step_ok spec s -> portfolio_apply spec s mark db = (db', out) ->
  collision T \/ match out with
               | Ok a => applied_step spec db fs l s mark a db' /\ portfolio_texts_in db' T
               | Err x => db' = db /\ refusal x /\ ~ accepts_step spec db fs l s mark
               end.
Proof.
  intros HT Hcall Hspec Hcash Hdb Hb Hs H. unfold portfolio_apply, sbind, slift in H. rewrite (so_step _ _ Hs) in H. cbn [rcatch] in H.
  unfold scatch, srollback in H.
  destruct (portfolio_body_spec T spec c db fs l pr s mark HT Hcall Hspec Hcash Hdb Hb Hs) as [|[(db1 & a & E & Ha)|(x & E & Hx & Hn)]]; [by left| |]; right; rewrite E in H.
  - cbn [rcatch] in H. by injection H as <- <-.
  - rewrite bool_decide_true in H by (destruct Hx as [-> | ->]; in_list). cbn [rcatch] in H.
    rewrite bool_decide_false in H by (rewrite list_elem_of_singleton; destruct Hx as [-> | ->]; done). injection H as <- <-. done.
Qed.

(** ** The other stores on the same database *)

Lemma book_same spec db db' fs l pr : pd_fills db' = pd_fills db -> pd_portfolios db' = pd_portfolios db -> book spec db fs l pr -> book spec db' fs l pr.
Proof. intros E1 E2 [b1 b2 b3 b4 b5 b6 b7]. constructor; rewrite ?E1, ?E2; done. Qed.

(** [LocalPaperIntentJournal.record] *)
Definition journal_record (d : execution_decision) : stm portfolio_db intent_record := fun db =>
  let '(orders, out) := record_in d (pd_orders db) in (PortfolioDb orders (pd_fills db) (pd_portfolios db), out).

Lemma journal_record_spec T d db : portfolio_texts_in db T -> among (record_texts d) T -> portfolio_inv db -> decision_built d ->
  collision T \/ (portfolio_inv (fst (journal_record d db)) /\ portfolio_texts_in (fst (journal_record d db)) T).
Proof.
  intros [T1 T2 T3] Hcall [P1 P2 P3 P4] Hd. unfold journal_record.
  destruct (record_in_spec T d (pd_orders db) T1 Hcall P1 Hd) as [|(HT1 & Hinv & _ & _)]; [by left|]. right.
  assert (od_states (fst (record_in d (pd_orders db))) = od_states (pd_orders db)) as Es.
  { unfold record_in. by destruct (record d (od_intents (pd_orders db))). }
  destruct (record_in d (pd_orders db)) as [orders out]. cbn [fst] in *. split; [|by constructor]. constructor; cbn [pd_orders pd_fills pd_portfolios]; [done|done|done|].
  by rewrite Es.
Qed.

(** An order event changes no fill and no projection; it is refused when the order
    has a stored fill. *)
Record order_step_result (db : portfolio_db) (e : order_event) (db' : portfolio_db) (out : result order_transition) : Prop := {
  ox_inv : portfolio_inv db';
  ox_fills : pd_fills db' = pd_fills db /\ pd_portfolios db' = pd_portfolios db;
  ox_refused : forall x, out = Err x -> db' = db /\ exn_cls x = LocalOrderTransitionError;
  ox_unfilled : forall t, out = Ok t -> forall r, r ∈ rows_of (pd_fills db) -> fw_authorization_sha256 r <> oe_authorization_sha256 e;
}.

Lemma order_unreferenced db e i es st : portfolio_inv db -> order_log (pd_orders db) (oe_authorization_sha256 e) es st -> order_accepts i st e ->
  (forall p, st = Some p -> order_referenced db (order_state_sha256 p) = false) ->
  forall r, r ∈ rows_of (pd_fills db) -> fw_authorization_sha256 r <> oe_authorization_sha256 e.
Proof.
  intros Hdb Hl Hacc Hno r Hr E. destruct (pi_active _ Hdb r Hr) as (o & Eo & Esha & _). rewrite E, (ol_state _ _ _ _ Hl) in Eo.
  destruct st as [p|]; [|done]. cbn [fmap option_fmap option_map] in Eo. assert (state_values p = state_values o) as Ev by (by apply (inj Some)).
  pose proof (f_equal sr_state_sha256 Ev) as Ep. change (order_state_sha256 p = order_state_sha256 o) in Ep.
  specialize (Hno p eq_refl). apply not_true_iff_false in Hno. apply Hno. apply existsb_exists. exists r. split; [by apply list_elem_of_In|].
  apply String.eqb_eq. congruence.
Qed.

Lemma order_written_inv db e orders t : portfolio_inv db -> applied (pd_orders db) e t orders ->
  (forall r, r ∈ rows_of (pd_fills db) -> fw_authorization_sha256 r <> oe_authorization_sha256 e) ->
  portfolio_inv (PortfolioDb orders (pd_fills db) (pd_portfolios db)).
Proof.
  intros [P1 P2 P3 P4] Ha Hne. constructor; cbn [pd_orders pd_fills pd_portfolios]; [exact (ap_inv _ _ _ _ Ha)|done|done|].
  intros r Hr. destruct (P4 r Hr) as (o & Eo & Hx). exists o. split; [|done]. destruct (odi_logs _ P1 (fw_authorization_sha256 r)) as (es & st & Hl).
  pose proof (ap_others _ _ _ _ Ha _ _ _ (Hne r Hr) Hl) as Hl'. rewrite (ol_state _ _ _ _ Hl'), <- (ol_state _ _ _ _ Hl). done.
Qed.

Lemma order_apply_spec T db e db' out : portfolio_texts_in db T -> among (order_call_texts e (pd_orders db)) T ->
  portfolio_inv db -> order_event_valid e -> order_apply e db = (db', out) ->
  collision T \/ (order_step_result db e db' out /\ portfolio_texts_in db' T).
Proof.
  intros HT Hcall Hdb He H. unfold order_apply in H. destruct (OrderState.apply e (pd_orders db)) as [orders out'] eqn:Ea.
  destruct (apply_spec T (pd_orders db) e orders out' (pti_orders _ _ HT) Hcall (pi_orders _ Hdb) He Ea) as [|Hs]; [by left|]. destruct out' as [t|x].
  2: { destruct Hs as (-> & Hx & _). injection H as <- <-. right. assert (PortfolioDb (pd_orders db) (pd_fills db) (pd_portfolios db) = db) as -> by by destruct db.
       split; [|done]. constructor; [done|done| |done]. by intros y [= <-]. }
  destruct Hs as [Hs HT1]. assert (portfolio_texts_in (PortfolioDb orders (pd_fills db) (pd_portfolios db)) T) as HT2 by by destruct HT.
  destruct (ap_logs _ _ _ _ Hs) as (i & es & st & _ & Hl & Hacc & Et & _). rewrite Et in H. cbn [ot_previous ot_current] in H.
  assert ((forall p, st = Some p -> order_referenced db (order_state_sha256 p) = false) ->
    order_step_result db e (PortfolioDb orders (pd_fills db) (pd_portfolios db)) (Ok (LocalPaperOrderTransition i st e (order_next st e)))
    /\ portfolio_texts_in (PortfolioDb orders (pd_fills db) (pd_portfolios db)) T) as Hok.
  { intros Hno. split; [|exact HT2]. pose proof (order_unreferenced db e i es st Hdb Hl Hacc Hno) as Hne. constructor; [by eapply order_written_inv|done|done|done]. }
  destruct st as [p|]; [|injection H as <- <-; right; by apply Hok].
  destruct (order_referenced db (order_state_sha256 p)) eqn:Er; cbn [andb] in H; [|injection H as <- <-; right; apply Hok; by intros q [= <-]].
  destruct (String.eqb_spec (order_state_sha256 (order_next (Some p) e)) (order_state_sha256 p)) as [X|X]; cbn [negb] in H.
  - left. unfold order_call_texts in Hcall. rewrite (state_read _ _ _ _ Hl) in Hcall. apply among_tail, among_head in Hcall.
    pose proof (oti_states _ _ (pti_orders _ _ HT) _ _ (ol_state _ _ _ _ Hl)) as Ht. rewrite state_values_text in Ht.
    destruct (order_state_binds T _ _ Hcall Ht X) as [Y|]; [|done]. exfalso. destruct Hacc as [_ Hf]. pose proof (of_sequence _ _ _ Hf) as Hq.
    apply (f_equal os_sequence) in Y. cbn [order_next os_sequence] in Y. lia.
  - injection H as <- <-. right. split; [|done]. constructor; [done|done| |done]. by intros y [= <-].
Qed.

(** ** Whole histories *)

Section Histories.
Context (specs : string -> backtest_spec).

(** One store per approved symbol, each with its own specification. *)
Definition specs_ok : Prop := forall sym, str_in sym SYMBOLS = true -> spec_valid (specs sym) /\ bs_symbol (specs sym) = sym.

Inductive portfolio_call : Type :=
| RecordCall (d : execution_decision)
| OrderCall (e : order_event)
| FillCall (sym : string) (s : fill_step) (mark : string).

Definition portfolio_call_ok (c : portfolio_call) : Prop :=
  match c with
  | RecordCall d => decision_built d
  | OrderCall e => order_event_valid e
  | FillCall sym s mark => str_in sym SYMBOLS = true /\ step_ok (specs sym) s
  end.

(** The database after the calls, refused ones included, and what was applied. *)
Fixpoint run_portfolio (calls : list portfolio_call) (db : portfolio_db) : portfolio_db * list (string * portfolio_application) :=
  match calls with
  | [] => (db, [])
  | RecordCall d :: rest => run_portfolio rest (fst (journal_record d db))
  | OrderCall e :: rest => run_portfolio rest (fst (order_apply e db))
  | FillCall sym s mark :: rest =>
      let '(db1, out) := portfolio_apply (specs sym) s mark db in
      let '(db2, more) := run_portfolio rest db1 in
      (db2, match out with Ok a => (sym, a) :: more | Err _ => more end)
  end.

(** The texts hashed by a sequence of calls, call by call. *)
Definition call_texts (c : portfolio_call) (db : portfolio_db) : list text :=
  match c with
  | RecordCall d => record_texts d
  | OrderCall e => order_call_texts e (pd_orders db)
  | FillCall sym s mark => fill_call_texts (specs sym) s mark db
  end.
Fixpoint run_portfolio_texts (calls : list portfolio_call) (db : portfolio_db) : list text :=
  match calls with
  | [] => []
  | c :: rest => call_texts c db ++ run_portfolio_texts rest (fst (run_portfolio [c] db))
  end.

Definition empty_portfolio_db : portfolio_db := PortfolioDb empty_db ∅ ∅.

Definition applications (sym : string) (apps : list (string * portfolio_application)) : list portfolio_application :=
  map snd (filter (fun x => fst x = sym) apps).
Definition history_events (apps : list portfolio_application) : list fill_event := concat (map pa_events apps).

(** Every symbol's book is its applications, in order. *)
Definition books (db : portfolio_db) (hist : string -> list portfolio_application) : Prop :=
  forall sym, str_in sym SYMBOLS = true -> exists l, book (specs sym) db (history_events (hist sym)) l (pa_projection <$> last (hist sym)).

Lemma spec_cash sym : specs_ok -> str_in sym SYMBOLS = true -> exists c, cash_decimal (specs sym) = Ok c.
Proof using.
  intros Hs Hsym. destruct (Hs sym Hsym) as [Hv _]. apply spec_valid_facts in Hv as [_ _ _ _ (c & _ & _ & Hc & _) _]. by exists c.
Qed.

Lemma run_portfolio_books T calls db hist db' apps : portfolio_texts_in db T -> among (run_portfolio_texts calls db) T -> specs_ok -> Forall portfolio_call_ok calls -> portfolio_inv db -> books db hist ->
  run_portfolio calls db = (db', apps) ->
  collision T \/ (portfolio_inv db' /\ portfolio_texts_in db' T /\ books db' (fun sym => hist sym ++ applications sym apps)).
Proof using.
  intros HT Hts Hspecs. revert db hist db' apps HT Hts.
  induction calls as [|[d|e|sym s mark] calls IH]; intros db hist db' apps HT Hts Hc Hdb Hbooks H; cbn [run_portfolio run_portfolio_texts call_texts] in H, Hts;
    [|apply among_app in Hts as [Hcall Hts]..].
  - injection H as <- <-. right. split; [done|]. split; [done|]. intros sym Hsym. destruct (Hbooks sym Hsym) as (l & Hl). exists l. by rewrite app_nil_r.
  - inversion_clear Hc as [|? ? Hd Hrest]. destruct (journal_record_spec T d db HT Hcall Hdb Hd) as [|[Hinv HT1]]; [by left|].
    apply (IH _ hist _ _ HT1 Hts Hrest Hinv); [|done]. intros sym Hsym. destruct (Hbooks sym Hsym) as (l & Hl). exists l.
    unfold journal_record. destruct (record_in d (pd_orders db)). by apply (book_same _ db).
  - inversion_clear Hc as [|? ? He Hrest]. destruct (order_apply e db) as [db1 out] eqn:Eo.
    cbn [fst] in Hts. destruct (order_apply_spec T db e db1 out HT Hcall Hdb He Eo) as [|[[Hinv [F1 F2] _ _] HT1]]; [by left|].
    apply (IH _ hist _ _ HT1 Hts Hrest Hinv); [|done].
    intros sym Hsym. destruct (Hbooks sym Hsym) as (l & Hl). exists l. by apply (book_same _ db).
  - inversion_clear Hc as [|? ? Hok Hrest]. cbn [portfolio_call_ok] in Hok. destruct Hok as [Hsym Hs]. destruct (portfolio_apply (specs sym) s mark db) as [db1 out] eqn:Ea.
    destruct (run_portfolio calls db1) as [db2 more] eqn:Er. injection H as <- <-. destruct (Hspecs sym Hsym) as [Hv Esym].
    destruct (spec_cash sym Hspecs Hsym) as (c & Hcash). destruct (Hbooks sym Hsym) as (l & Hb).
    cbn [fst] in Hts. destruct (portfolio_apply_spec T _ c db _ l _ s mark db1 out HT Hcall Hv Hcash Hdb Hb Hs Ea) as [|Ho]; [by left|]. destruct out as [a|x].
    2: { destruct Ho as (-> & _). by apply (IH db hist). }
    destruct Ho as [Ho HT1]. destruct (at_book _ _ _ _ _ _ _ _ Ho) as (l' & _ & Hb').
    destruct (IH db1 (fun x => if decide (x = sym) then hist x ++ [a] else hist x) db2 more HT1 Hts Hrest (at_inv _ _ _ _ _ _ _ _ Ho)) as [|(Hinv2 & HT2 & Hb2)]; [|done|by left|].
    + intros x Hx. destruct (decide (x = sym)) as [->|Hne].
      * exists l'. unfold history_events. rewrite map_app, concat_app, last_snoc. cbn [map concat]. by rewrite app_nil_r.
      * destruct (Hbooks x Hx) as (lx & Hlx). exists lx. apply (at_others _ _ _ _ _ _ _ _ Ho); [|done]. destruct (Hspecs x Hx) as [_ ->]. congruence.
    + right. split; [done|]. split; [done|]. intros x Hx. destruct (Hb2 x Hx) as (lx & Hlx). exists lx. unfold applications in *. rewrite filter_cons. cbn [fst].
      destruct (decide (x = sym)) as [->|Hne].
      * rewrite decide_True by done. cbn [map snd]. by rewrite <- app_assoc in Hlx.
      * rewrite decide_False by congruence. done.
Qed.

Lemma empty_portfolio_inv : portfolio_inv empty_portfolio_db.
Proof using.
  constructor; cbn [empty_portfolio_db pd_orders pd_fills pd_portfolios].
  - exact empty_db_inv.
  - intros k r E. by rewrite lookup_empty in E.
  - intros k r E. by rewrite lookup_empty in E.
  - intros r Hr. apply rows_of_elem in Hr as (k & E). by rewrite lookup_empty in E.
Qed.

Lemma empty_portfolio_texts T : portfolio_texts_in empty_portfolio_db T.
Proof using. constructor; [apply empty_db_texts|intros k r E; cbn [empty_portfolio_db pd_fills pd_portfolios] in E; by rewrite lookup_empty in E..]. Qed.

Lemma empty_books : specs_ok -> books empty_portfolio_db (fun _ => []).
Proof using.
  intros Hs sym Hsym. destruct (spec_cash sym Hs Hsym) as (c & Hc). exists (Ledger c dec0 dec0 dec0 dec0 dec0 0 None []).
  constructor; cbn [empty_portfolio_db pd_fills pd_portfolios history_events map concat last fmap option_fmap option_map].
  - intros r. rewrite elem_of_nil. split; [|done]. intros [Hr _]. apply rows_of_elem in Hr as (k & E). by rewrite lookup_empty in E.
  - constructor.
  - done.
  - exists (Ledger c dec0 dec0 dec0 dec0 dec0 0 None []). split; [|done]. unfold new_ledger. by rewrite Hc.
  - done.
  - apply lookup_empty.
  - done.
Qed.
End Histories.

(** * Claims *)

(** C27. The durable portfolio is its accepted history, replayed.  Over any sequence
    of journal records, order events and fill applications to the stores of all
    symbols, refused ones included, from an empty database: while a symbol's history
    fits one ledger batch, reading never fails, the events are exactly those
    applied, in order, and the projection is the one the last application returned
    (the same texts and the same numbers), which values a fresh ledger after
    replaying all fills.  A history longer than one batch, which [apply] itself can
    write, is refused by every later read.  (Unless two of the texts hashed by these
    calls collide under SHA-256.) *)
Theorem durable_portfolio_replays specs calls db apps sym (Hspecs : specs_ok specs) (Hc : Forall (portfolio_call_ok specs) calls)
    (Hrun : run_portfolio specs calls empty_portfolio_db = (db, apps)) (Hsym : str_in sym SYMBOLS = true) :
  collision (run_portfolio_texts specs calls empty_portfolio_db) \/ exists l,
    let mine := applications sym apps in
    replayed (specs sym) (map fe_fill (history_events mine)) l
    /\ (forall e, last (history_events mine) = Some e -> exists mark s,
          pa_projection <$> last mine = Some (projection_of (specs sym) (history_events mine) e mark s) /\ Ledger.snapshot (specs sym) l mark = Ok s)
    /\ (Z.of_nat (length (history_events mine)) <= MAX_LEDGER_BATCH ->
          portfolio_events (specs sym) db = Ok (history_events mine)
          /\ exists q, get_projection (specs sym) db = Ok q /\ reads_projection q (pa_projection <$> last mine))
    /\ (MAX_LEDGER_BATCH < Z.of_nat (length (history_events mine)) ->
          portfolio_events (specs sym) db = Err (Raise LocalPaperPortfolioError "Durable fills fail accepted P2 replay")).
Proof.
  destruct (run_portfolio_books specs _ calls empty_portfolio_db (fun _ => []) db apps (empty_portfolio_texts _) (among_refl _) Hspecs Hc
              empty_portfolio_inv (empty_books specs Hspecs) Hrun) as [|(Hdb & _ & Hb)]; [by left|]. right. destruct (Hb sym Hsym) as (l & Hl). cbn [app] in Hl. exists l. cbv zeta.
  destruct (Hspecs sym Hsym) as [Hv _]. destruct (spec_cash specs sym Hspecs Hsym) as (c & Hcash).
  split; [exact (bo_ledger _ _ _ _ _ Hl)|]. split; [|split].
  - intros e He. pose proof (bo_projection _ _ _ _ _ Hl) as H. by rewrite He in H.
  - intros Hlen. destruct (load_book Hv Hcash Hdb Hl Hlen) as (q & E & Hq). unfold portfolio_events, get_projection. rewrite E. cbn [rbind fst snd].
    split; [done|]. by exists q.
  - intros Hlen. unfold portfolio_events. by rewrite (load_long Hv Hcash Hdb Hl Hlen).
Qed.

(** C28. Applying a fill step is exact and atomic.  On tables that hold a history, a
    constructed step costed by the store's specification is applied exactly when it
    is of the current active order of its journalled intent and later than it, was not
    applied before, and the ledger that replays the history takes its fills and can
    be valued at the mark; its events and the projection are then all written,
    extending the history, no order or other symbol changing; and otherwise the
    exception is a LocalPaperPortfolioError or a DuplicateLocalPaperFill and nothing
    is written (unless two texts among those of the stored rows and those this call
    hashes collide under SHA-256). *)
Theorem portfolio_apply_exact spec c db fs l pr s mark db' out (Hspec : spec_valid spec) (Hcash : cash_decimal spec = Ok c) (Hdb : portfolio_inv db)
    (Hb : book spec db fs l pr) (Hs : step_ok spec s) (Hrun : portfolio_apply spec s mark db = (db', out)) :
  collision (portfolio_db_texts db ++ fill_call_texts spec s mark db)
  \/ (accepts_step spec db fs l s mark /\ exists a, out = Ok a /\ applied_step spec db fs l s mark a db')
  \/ (~ accepts_step spec db fs l s mark /\ exists x, out = Err x /\ refusal x /\ db' = db).
Proof.
  destruct (portfolio_apply_spec (portfolio_db_texts db ++ fill_call_texts spec s mark db) spec c db fs l pr s mark db' out) as [|H]; [|done..|by left|].
  { apply portfolio_texts_among, among_left. }
  right. destruct out as [a|x].
  - destruct H as [H _]. left. split; [exact (at_accepted _ _ _ _ _ _ _ _ H)|]. by exists a.
  - right. destruct H as (H1 & H2 & H3). split; [done|]. by exists x.
Qed.

(** A filled order is final.  After any sequence of calls on tables that hold
    histories (the empty ones do), the order of every stored fill is still in the very
    state it was filled in, active, and every valid further event about it, a CANCEL
    included, is refused with a LocalOrderTransitionError that changes nothing,
    because the fill row refers to that state (unless two texts among those of the
    rows first stored and those hashed by these calls collide under SHA-256). *)
Theorem filled_order_final specs hist calls db0 db apps r e (Hspecs : specs_ok specs) (Hdb0 : portfolio_inv db0) (Hbooks : books specs db0 hist)
    (Hc : Forall (portfolio_call_ok specs) calls) (Hrun : run_portfolio specs calls db0 = (db, apps)) (Hr : r ∈ rows_of (pd_fills db))
    (He : order_event_valid e) (Ha : oe_authorization_sha256 e = fw_authorization_sha256 r) :
  collision (portfolio_db_texts db0 ++ run_portfolio_texts specs calls db0 ++ order_call_texts e (pd_orders db))
  \/ (exists o, od_states (pd_orders db) !! fw_authorization_sha256 r = Some (state_values o) /\ order_state_sha256 o = fw_order_state_sha256 r
        /\ os_status o = ACTIVE_LOCAL)
     /\ exists x, order_apply e db = (db, Err x) /\ exn_cls x = LocalOrderTransitionError.
Proof.
  set (T := _ ++ _ ++ _). destruct (proj1 (among_app _ _ _) (among_refl T)) as [T0 T1]. apply among_app in T1 as [T1 T2].
  destruct (run_portfolio_books specs T calls db0 hist db apps (proj1 (portfolio_texts_among _ _) T0) T1 Hspecs Hc Hdb0 Hbooks Hrun)
    as [|(Hdb & HT & _)]; [by left|].
  destruct (order_apply e db) as [db' out] eqn:Eo. destruct (order_apply_spec T db e db' out HT T2 Hdb He Eo) as [|[Hx _]]; [by left|]. right.
  split; [destruct (pi_active _ Hdb _ Hr) as (o & H1 & H2 & H3 & _); by exists o|]. destruct out as [t|x].
  - exfalso. exact (ox_unfilled _ _ _ _ Hx t eq_refl _ Hr (eq_sym Ha)).
  - destruct (ox_refused _ _ _ _ Hx x eq_refl) as [-> Hcls]. by exists x.
Qed.

(** A database with one active order, and a step that fills it. *)
Definition store_specs (sym : string) : backtest_spec := default_spec sym (sample_time - HOUR_MS) (sample_time + 24 * HOUR_MS).
Definition sample_key : string := authorization_key accepted_sample.
Definition sample_fill : costed_fill :=
  Eval vm_compute in
    let r := FillReference ENTER_LONG "BTCUSDT" sample_time sample_time "0.5" "1020" NEXT_PRIMARY_OPEN in
    match apply_costs r (store_specs "BTCUSDT") with Ok f => f | Err _ => CostedFill r dec0 dec0 (CostValues dec0 dec0 dec0 dec0 dec0 dec0) end.
Definition sample_step : fill_step :=
  LocalPaperFillStep sample_key (in_intent_sha256 sample_intent) (order_state_sha256 active_order)
    (PaperIntent ENTER_LONG sample_time (Some "0.5"%string) (Some "950"%string) (Some "1100"%string)) [cf_reference sample_fill] [sample_fill].

Lemma store_specs_ok : specs_ok store_specs.
Proof.
  intros sym H. apply str_in_spec in H. apply elem_of_cons in H as [-> | H]; [by split|].
  apply list_elem_of_singleton in H as ->. by split.
Qed.

Lemma sample_step_ok : step_ok (store_specs "BTCUSDT") sample_step.
Proof.
  constructor.
  - unfold fill_step_post_init, sample_step. cbn [references fs_fills fs_authorization_sha256 fs_intent_sha256 fs_order_state_sha256 p2_intent existsb].
    unfold sample_key, authorization_key, authorization_sha256, sample_intent, intent_of, _expected_sha256, order_state_sha256.
    cbn [in_intent_sha256]. rewrite !digest_pattern. reflexivity.
  - cbn [sample_step fs_fills]. constructor; [|constructor]. constructor; reflexivity.
Qed.

Definition order_base : order_db := OrderDb {[sample_key := sample_intent]} ∅ ∅.
Definition pending_order : order_state := order_next None sample_create.

Lemma order_base_inv : order_db_inv order_base /\ order_log order_base sample_key [] None.
Proof.
  assert (forall h, order_log order_base h [] None) as Hl.
  { intros h. constructor; [done|cbn [order_base od_states]; apply lookup_empty|]. intros n. cbn [order_base od_events].
    rewrite lookup_empty, lookup_nil. by destruct (0 <=? n). }
  split; [|apply Hl]. split; [|intros h; exists [], None; apply Hl]. intros h i E. cbn [order_base od_intents] in E.
  apply lookup_singleton_Some in E as [<- <-]. split; [done|exact sample_intent_valid].
Qed.

Lemma sample_active_history : order_history sample_intent [sample_create; sample_activate] active_order.
Proof.
  apply (chained_next (H:=order_chain sample_intent) [sample_create] pending_order); [exact sample_order_history|exact sample_activate_valid|].
  destruct (order_step sample_intent (Some pending_order) sample_activate sample_intent_valid sample_activate_valid) as [[_ E]|[Hn _]].
  - intros p [= <-]. exact (history_valid sample_intent _ _ sample_order_history).
  - exact E.
  - exfalso. apply Hn. split; [split; reflexivity|]. constructor; [split; reflexivity|reflexivity|reflexivity|reflexivity|reflexivity].
Qed.

Definition sample_orders : order_db :=
  advanced_db (advanced_db order_base sample_key [] sample_create pending_order) sample_key [sample_create] sample_activate active_order.
Definition sample_store : portfolio_db := PortfolioDb sample_orders ∅ ∅.

Lemma sample_orders_inv : order_db_inv sample_orders.
Proof.
  destruct order_base_inv as [Hb Hl]. assert (od_intents order_base !! sample_key = Some sample_intent) as Hi by (cbn [order_base od_intents]; apply lookup_singleton_eq).
  pose proof (advanced_log order_base sample_key [] None sample_intent sample_create pending_order Hl Hi sample_order_history) as Hl1.
  pose proof (advanced_inv order_base sample_key [] None sample_intent sample_create pending_order Hb Hl Hi sample_order_history) as Hb1.
  eapply advanced_inv; [exact Hb1|exact Hl1|exact Hi|exact sample_active_history].
Qed.

Lemma sample_store_inv : portfolio_inv sample_store.
Proof.
  constructor; cbn [sample_store pd_orders pd_fills pd_portfolios]; [exact sample_orders_inv| | |].
  - intros k r E. by rewrite lookup_empty in E.
  - intros k r E. by rewrite lookup_empty in E.
  - intros r Hr. apply rows_of_elem in Hr as (k & E). by rewrite lookup_empty in E.
Qed.

Definition fresh_ledger : ledger := Ledger (dec_of_Z 10000) dec0 dec0 dec0 dec0 dec0 0 None [].

Lemma sample_store_book : book (store_specs "BTCUSDT") sample_store [] fresh_ledger None.
Proof.
  constructor; cbn [sample_store pd_fills pd_portfolios map last fmap option_fmap option_map]; try done.
  - intros r. rewrite elem_of_nil. split; [|done]. intros [Hr _]. apply rows_of_elem in Hr as (k & E). by rewrite lookup_empty in E.
  - by exists fresh_ledger.
Qed.

Lemma sample_booked : exists l' snap, replay_fills (store_specs "BTCUSDT") [sample_fill] fresh_ledger = Ok l'
  /\ Ledger.snapshot (store_specs "BTCUSDT") l' "1020" = Ok snap.
Proof.
  assert (is_ok (let* l' := replay_fills (store_specs "BTCUSDT") [sample_fill] fresh_ledger in Ledger.snapshot (store_specs "BTCUSDT") l' "1020") = true)
    as H by (vm_compute; reflexivity).
  destruct (replay_fills _ _ _) as [l'|]; [|done]. exists l'. cbn [rbind] in H. destruct (Ledger.snapshot _ l' _) as [snap|]; [by exists snap|done].
Qed.

Lemma sample_accepts : accepts_step (store_specs "BTCUSDT") sample_store [] fresh_ledger sample_step "1020".
Proof.
  constructor.
  - exists sample_intent, active_order. split; [cbn [sample_store pd_orders sample_orders advanced_db od_intents order_base]; apply lookup_singleton_eq|].
    split; [cbn [sample_store pd_orders sample_orders advanced_db od_states]; apply lookup_insert_eq|].
    split; [exact (history_valid sample_intent _ _ sample_active_history)|].
    constructor; [split; reflexivity|reflexivity|reflexivity|reflexivity|].
    intros f Hf. cbn [sample_step fs_fills] in Hf. apply list_elem_of_singleton in Hf as ->. reflexivity.
  - discriminate.
  - intros r Hr. apply rows_of_elem in Hr as (k & E). cbn [sample_store pd_fills] in E. by rewrite lookup_empty in E.
  - exact sample_booked.
Qed.

Lemma portfolio_apply_exact_witness : collision (portfolio_db_texts sample_store ++ fill_call_texts (store_specs "BTCUSDT") sample_step "1020" sample_store) \/ exists db' a, portfolio_apply (store_specs "BTCUSDT") sample_step "1020" sample_store = (db', Ok a)
  /\ applied_step (store_specs "BTCUSDT") sample_store [] fresh_ledger sample_step "1020" a db'.
Proof.
  destruct (portfolio_apply_exact (store_specs "BTCUSDT") (dec_of_Z 10000) sample_store [] fresh_ledger None sample_step "1020" _ _
              (proj1 (store_specs_ok "BTCUSDT" eq_refl)) eq_refl sample_store_inv sample_store_book sample_step_ok (surjective_pairing _))
    as [Hc|[(_ & a & E & Ha)|(Hn & _)]]; [left; exact Hc|right|exfalso; exact (Hn sample_accepts)].
  eexists _, a. split; [rewrite <- E; apply surjective_pairing|exact Ha].
Defined.

Definition sample_portfolio_calls : list portfolio_call :=
  [RecordCall accepted_sample; OrderCall sample_create; FillCall "BTCUSDT" sample_step "1020"; OrderCall sample_activate;
   FillCall "BTCUSDT" sample_step "1020"; FillCall "BTCUSDT" sample_step "1020"].

Lemma sample_portfolio_calls_ok : Forall (portfolio_call_ok store_specs) sample_portfolio_calls.
Proof.
  constructor; [exact accepted_sample_built|]. constructor; [exact sample_create_valid|]. constructor; [split; [reflexivity|exact sample_step_ok]|].
  constructor; [exact sample_activate_valid|]. constructor; [split; [reflexivity|exact sample_step_ok]|].
  constructor; [split; [reflexivity|exact sample_step_ok]|constructor].
Qed.

Lemma durable_portfolio_replays_witness : collision (run_portfolio_texts store_specs sample_portfolio_calls empty_portfolio_db) \/ exists l,
  replayed (store_specs "BTCUSDT")
    (map fe_fill (history_events (applications "BTCUSDT" (snd (run_portfolio store_specs sample_portfolio_calls empty_portfolio_db))))) l.
Proof.
  destruct (durable_portfolio_replays store_specs sample_portfolio_calls _ _ "BTCUSDT" store_specs_ok sample_portfolio_calls_ok (surjective_pairing _) eq_refl)
    as [Hc|(l & H & _)]; [left; exact Hc|right; exists l; exact H].
Defined.

Definition sample_cancel : order_event :=
  LocalPaperOrderEvent sample_key (in_intent_sha256 sample_intent) 2 (sample_time + 1) CANCEL LOCAL_CANCELLATION_CONFIRMED
    (Some (order_event_sha256 sample_activate)).

Lemma sample_cancel_valid : order_event_valid sample_cancel.
Proof.
  unfold order_event_valid, order_event_post_init, sample_cancel, sample_key, sample_intent, intent_of, authorization_key, authorization_sha256, _expected_sha256.
  cbn [oe_authorization_sha256 oe_intent_sha256 in_intent_sha256 oe_previous_event_sha256 valid_digest].
  unfold order_event_sha256. rewrite !digest_pattern. reflexivity.
Qed.

(** The store of "ETHUSDT" shares the tables and holds nothing. *)
Lemma sample_books : books store_specs sample_store (fun _ => []).
Proof.
  intros sym Hsym. destruct (spec_cash store_specs sym store_specs_ok Hsym) as (c & Hc). exists (Ledger c dec0 dec0 dec0 dec0 dec0 0 None []).
  constructor; cbn [sample_store pd_fills pd_portfolios history_events map concat last fmap option_fmap option_map]; try done.
  - intros r. rewrite elem_of_nil. split; [|done]. intros [Hr _]. apply rows_of_elem in Hr as (k & E). by rewrite lookup_empty in E.
  - exists (Ledger c dec0 dec0 dec0 dec0 dec0 0 None []). split; [|done]. unfold new_ledger. by rewrite Hc.
Qed.

Definition sample_fill_call : list portfolio_call := [FillCall "BTCUSDT" sample_step "1020"].

Lemma sample_fill_call_ok : Forall (portfolio_call_ok store_specs) sample_fill_call.
Proof. constructor; [split; [reflexivity|exact sample_step_ok]|constructor]. Qed.

Definition filled_store : portfolio_db := fst (run_portfolio store_specs sample_fill_call sample_store).

Lemma filled_store_row : collision (portfolio_db_texts sample_store ++ run_portfolio_texts store_specs sample_fill_call sample_store) \/ exists r, r ∈ rows_of (pd_fills filled_store) /\ fw_authorization_sha256 r = sample_key.
Proof.
  pose proof (proj1 (portfolio_texts_among sample_store _) (among_left (portfolio_db_texts sample_store) (run_portfolio_texts store_specs sample_fill_call sample_store))) as T0.
  pose proof (among_right (portfolio_db_texts sample_store) (run_portfolio_texts store_specs sample_fill_call sample_store)) as T1.
  set (T := portfolio_db_texts sample_store ++ _) in *. clearbody T.
  unfold filled_store, sample_fill_call in *. cbn [run_portfolio run_portfolio_texts call_texts] in *. apply among_app in T1 as [T1 _].
  destruct (portfolio_apply (store_specs "BTCUSDT") sample_step "1020" sample_store) as [db1 out] eqn:Ea.
  destruct (portfolio_apply_spec T (store_specs "BTCUSDT") (dec_of_Z 10000) sample_store [] fresh_ledger None sample_step "1020" db1 out
              T0 T1 (proj1 (store_specs_ok "BTCUSDT" eq_refl)) eq_refl sample_store_inv sample_store_book sample_step_ok Ea) as [|H]; [by left|]. right.
  destruct out as [a|x]; [|destruct H as (_ & _ & Hn); exfalso; exact (Hn sample_accepts)]. destruct H as [H _]. cbn [fst].
  destruct (at_book _ _ _ _ _ _ _ _ H) as (l' & _ & Hb). rewrite (at_events _ _ _ _ _ _ _ _ H) in Hb. cbn [app length sample_step fs_fills step_events] in Hb.
  eexists. split; [apply (bo_rows _ _ _ _ _ Hb); apply list_elem_of_here|reflexivity].
Qed.

Lemma filled_order_final_witness :
  collision (portfolio_db_texts sample_store ++ run_portfolio_texts store_specs sample_fill_call sample_store ++ order_call_texts sample_cancel (pd_orders filled_store))
  \/ exists x, order_apply sample_cancel filled_store = (filled_store, Err x) /\ exn_cls x = LocalOrderTransitionError.
Proof.
  destruct filled_store_row as [Hc|(r & Hr & Er)].
  { left. refine (collision_among _ _ _ Hc). rewrite app_assoc. apply among_left. }
  destruct (filled_order_final store_specs (fun _ => []) sample_fill_call sample_store filled_store _ r sample_cancel store_specs_ok sample_store_inv
              sample_books sample_fill_call_ok (surjective_pairing _) Hr sample_cancel_valid (eq_sym Er)) as [Hc|[_ H]]; [left; exact Hc|right; exact H].
Defined.
