(* ===== verification/Reconcile.v ===== *)
(** * Startup reconciliation (yatl/execution/reconcile.py)

    Startup reads the whole execution database through its own decoders,
    replays every order and every fill, and reports READY with the digests of
    what it read, or the first discrepancy.  A database is missing, unreadable
    (any statement raises sqlite3.Error) or opened; an opened one has the
    tables of the journal, order and portfolio models, and the names and the
    applied versions its schema check reads. *)
From stdpp Require Import gmap sorting.
From S2P Require Import Prelude PyDecimal PyText Digest Market BacktestConfig MarketView Fills Costs Ledger HashChain Regime RiskState RiskAdapter Execution Journal OrderState LocalFills Portfolio.

Definition RECONCILIATION_SCHEMA_VERSION : Z := 1.

Inductive reconciliation_code : Type :=
| MATCH | DATABASE_UNAVAILABLE | MISSING_SCHEMA | UNSUPPORTED_SCHEMA | INTENT_INVALID | ORDER_COVERAGE_MISMATCH
| ORDER_EVENT_INVALID | ORDER_STATE_INVALID | ORDER_REPLAY_MISMATCH | FILL_INVALID | FILL_ORDER_MISMATCH
| PORTFOLIO_INVALID | PORTFOLIO_REPLAY_MISMATCH | STORAGE_ERROR.
#[global] Instance reconciliation_code_eq_dec : EqDecision reconciliation_code.
Proof. solve_decision. Defined.

Definition code_value (c : reconciliation_code) : string :=
  match c with
  | MATCH => "MATCH" | DATABASE_UNAVAILABLE => "DATABASE_UNAVAILABLE" | MISSING_SCHEMA => "MISSING_SCHEMA"
  | UNSUPPORTED_SCHEMA => "UNSUPPORTED_SCHEMA" | INTENT_INVALID => "INTENT_INVALID" | ORDER_COVERAGE_MISMATCH => "ORDER_COVERAGE_MISMATCH"
  | ORDER_EVENT_INVALID => "ORDER_EVENT_INVALID" | ORDER_STATE_INVALID => "ORDER_STATE_INVALID"
  | ORDER_REPLAY_MISMATCH => "ORDER_REPLAY_MISMATCH" | FILL_INVALID => "FILL_INVALID" | FILL_ORDER_MISMATCH => "FILL_ORDER_MISMATCH"
  | PORTFOLIO_INVALID => "PORTFOLIO_INVALID" | PORTFOLIO_REPLAY_MISMATCH => "PORTFOLIO_REPLAY_MISMATCH" | STORAGE_ERROR => "STORAGE_ERROR"
  end.
Definition FAILURES : list reconciliation_code := [
  DATABASE_UNAVAILABLE; MISSING_SCHEMA; UNSUPPORTED_SCHEMA; INTENT_INVALID; ORDER_COVERAGE_MISMATCH; ORDER_EVENT_INVALID; ORDER_STATE_INVALID;
  ORDER_REPLAY_MISMATCH; FILL_INVALID; FILL_ORDER_MISMATCH; PORTFOLIO_INVALID; PORTFOLIO_REPLAY_MISMATCH; STORAGE_ERROR].

(** [StartupReconciliationError(code)], and the code it carries. *)
Definition failed (c : reconciliation_code) : exn := Raise StartupReconciliationError (code_value c).
Definition failed_code (e : exn) : option reconciliation_code :=
  if bool_decide (exn_cls e = StartupReconciliationError) then find (fun c => String.eqb (code_value c) (exn_msg e)) FAILURES else None.

Definition _canonical_digest (payload : json) : string := sha256_hex (json_dumps payload ++ [chr 10]).

Record reconciliation_report : Type := StartupReconciliationReport {
  rp_ready : bool;
  rp_code : reconciliation_code;
  rp_spec_sha256 : option string;
  rp_intent_count : Z;
  rp_order_count : Z;
  rp_fill_count : Z;
  rp_journal_sha256 : option string;
  rp_orders_sha256 : option string;
  rp_portfolio_sha256 : option string;
}.

Definition report_post_init (r : reconciliation_report) : result unit :=
  raise_if existsb (fun v => v <? 0) [rp_intent_count r; rp_order_count r; rp_fill_count r] with ValueError "Reconciliation report counts are invalid" ;;
  let digests := [rp_spec_sha256 r; rp_journal_sha256 r; rp_orders_sha256 r; rp_portfolio_sha256 r] in
  raise_if existsb (fun v => match v with Some h => negb (sha256_pattern h) | None => false end) digests
    with ValueError "Reconciliation report digest is invalid" ;;
  if rp_ready r then
    raise_if negb (bool_decide (rp_code r = MATCH)) || existsb opt_is_none digests with ValueError "Ready reconciliation evidence is incomplete" ;;
    Ok tt
  else
    raise_if bool_decide (rp_code r = MATCH) with ValueError "Failed reconciliation cannot use MATCH" ;;
    Ok tt.
Definition new_report (r : reconciliation_report) : result reconciliation_report := do* report_post_init r ;; Ok r.

Definition report_material (r : reconciliation_report) : json := JObj [
  ("schema_version", JInt RECONCILIATION_SCHEMA_VERSION); ("status", JStr (if rp_ready r then "READY" else "RECOVERY_REQUIRED"));
  ("code", JStr (code_value (rp_code r))); ("spec_sha256", JOptStr (rp_spec_sha256 r)); ("intent_count", JInt (rp_intent_count r));
  ("order_count", JInt (rp_order_count r)); ("fill_count", JInt (rp_fill_count r)); ("journal_sha256", JOptStr (rp_journal_sha256 r));
  ("orders_sha256", JOptStr (rp_orders_sha256 r)); ("portfolio_sha256", JOptStr (rp_portfolio_sha256 r))]%string.
Definition report_sha256 (r : reconciliation_report) : string := digest (report_material r).

(** The evidence execution requires before it accepts anything. *)
Definition report_readiness (r : reconciliation_report) : readiness :=
  if rp_ready r then RecoveryReadiness READY RECONCILIATION_PASSED (Some (report_sha256 r))
  else RecoveryReadiness RECOVERY_REQUIRED RECONCILIATION_FAILED (Some (report_sha256 r)).

Definition report_as_record (r : reconciliation_report) : json :=
  match report_material r with
  | JObj l => JObj (l ++ [("reconciliation_sha256", JStr (report_sha256 r)); ("readiness_sha256", JStr (readiness_sha256 (report_readiness r)))]%string)
  | j => j
  end.

Definition _failure (c : reconciliation_code) (h : option string) : result reconciliation_report :=
  new_report (StartupReconciliationReport false c h 0 0 0 None None None).

(** ** The database *)

Record execution_file : Type := ExecutionFile {
  ef_tables : list string;
  ef_versions : string -> list Z;
  ef_db : portfolio_db;
}.
Inductive database : Type := Missing | Unreadable | Opened (f : execution_file).

Definition REQUIRED_TABLES : list string := [
  "execution_schema_migrations"; "local_paper_intents"; "order_schema_migrations"; "local_paper_order_events";
  "local_paper_order_states"; "portfolio_schema_migrations"; "local_paper_fill_events"; "local_paper_portfolios"]%string.
Definition EXPECTED_VERSIONS : list (string * Z) := [
  ("execution_schema_migrations", JOURNAL_SCHEMA_VERSION); ("order_schema_migrations", ORDER_SCHEMA_VERSION);
  ("portfolio_schema_migrations", PORTFOLIO_SCHEMA_VERSION)]%string.

(** [SELECT COALESCE(MAX(version), 0)] *)
Definition max_version (l : list Z) : Z := match l with [] => 0 | v :: rest => fold_left Z.max rest v end.

Definition _require_schema (f : execution_file) : result unit :=
  if negb (forallb (fun t => str_in t (ef_tables f)) REQUIRED_TABLES) then Err (failed MISSING_SCHEMA) else
  if existsb (fun tv => negb (max_version (ef_versions f (fst tv)) =? snd tv)) EXPECTED_VERSIONS then Err (failed UNSUPPORTED_SCHEMA) else
  Ok tt.

(** ** Intents and orders *)

Definition _load_intents (rows : intent_table) : result (intent_table * json) :=
  let* records := rcatch (rmap new_intent_record (merge_sort row_le (rows_of rows)))
                    (ExecutionJournalError :: IntentConflict :: KeyError :: VALUE_ERRORS) (failed INTENT_INVALID) in
  let intents : intent_table := fold_left (fun m r => <[in_authorization_sha256 r := r]> m) records ∅ in
  if negb (size intents =? length records)%nat then Err (failed INTENT_INVALID) else
  Ok (intents, JObj [("schema_version"%string, JInt JOURNAL_SCHEMA_VERSION); ("intents"%string, JArr (map intent_as_record records))]).

Definition ORDER_ERRORS : list exn_class := LocalOrderError :: LocalOrderTransitionError :: VALUE_ERRORS.

Definition recon_event (r : event_row) : result order_event :=
  let* e := rcatch (row_event r) (KeyError :: ORDER_ERRORS) (failed ORDER_EVENT_INVALID) in
  if negb (String.eqb (order_event_sha256 e) (er_event_sha256 r)) then Err (failed ORDER_EVENT_INVALID) else Ok e.

Definition recon_state (r : state_row) : result order_state :=
  let* s := rcatch (row_state r) (KeyError :: ORDER_ERRORS) (failed ORDER_STATE_INVALID) in
  if negb (String.eqb (order_state_sha256 s) (sr_state_sha256 r)) then Err (failed ORDER_STATE_INVALID) else Ok s.

Fixpoint replay_rows (i : intent_record) (rows : list event_row) (previous : option order_state) : result (list order_event * option order_state) :=
  match rows with
  | [] => Ok ([], previous)
  | r :: rest =>
      let* e := recon_event r in
      let* t := rcatch (apply_local_order_event i previous e) ORDER_ERRORS (failed ORDER_EVENT_INVALID) in
      let* x := replay_rows i rest (Some (ot_current t)) in
      Ok (e :: fst x, snd x)
  end.

(** One order: its intent, its events in sequence, its stored state. *)
Definition load_order (db : order_db) (intents : intent_table) (r : state_row) : result (order_state * json) :=
  match intents !! sr_authorization_sha256 r with
  | None => Err (failed ORDER_COVERAGE_MISMATCH)
  | Some i =>
      let* x := replay_rows i (event_rows db (sr_authorization_sha256 r)) None in
      let* stored := recon_state r in
      if negb (bool_decide (snd x = Some stored)) then Err (failed ORDER_REPLAY_MISMATCH) else
      Ok (stored, JObj [("authorization_sha256", JStr (sr_authorization_sha256 r)); ("events", JArr (map order_event_as_record (fst x)));
                        ("state", order_state_as_record stored)]%string)
  end.

Definition names {A} (name : A -> string) (l : list A) : gset string := list_to_set (map name l).

Definition _load_orders (db : order_db) (intents : intent_table) : result (gmap string order_state * json) :=
  let state_rows := merge_sort state_key_le (rows_of (od_states db)) in
  let state_auths := names sr_authorization_sha256 state_rows in
  let event_auths := names er_authorization_sha256 (rows_of (od_events db)) in
  let intent_auths := dom intents in
  if negb (bool_decide (state_auths = intent_auths)) || negb (bool_decide (event_auths = intent_auths))
  then Err (failed ORDER_COVERAGE_MISMATCH) else
  let* orders := rmap (load_order db intents) state_rows in
  Ok (fold_left (fun m x => <[sr_authorization_sha256 (fst x) := fst (snd x)]> m) (zip state_rows orders) ∅,
      JObj [("schema_version"%string, JInt ORDER_SCHEMA_VERSION); ("orders"%string, JArr (map snd orders))]).

(** ** The portfolio *)

Definition FILL_ERRORS : list exn_class :=
  CostModelError :: FillModelError :: KeyError :: LocalPaperPortfolioError :: DuplicateLocalPaperFill :: VALUE_ERRORS.

Definition recon_fill (spec : backtest_spec) (r : fill_row) : result fill_event :=
  let* e := rcatch (stored_fill (failed FILL_INVALID) spec r) FILL_ERRORS (failed FILL_INVALID) in
  if negb (String.eqb (fill_event_sha256 e) (fw_event_sha256 r)) then Err (failed FILL_INVALID) else Ok e.

(** The fill is of the current active state of its order, and later than it. *)
Definition fill_bound (intents : intent_table) (states : gmap string order_state) (e : fill_event) : bool :=
  match intents !! fe_authorization_sha256 e, states !! fe_authorization_sha256 e with
  | Some i, Some o =>
      String.eqb (fe_intent_sha256 e) (in_intent_sha256 i) && String.eqb (fe_order_state_sha256 e) (order_state_sha256 o)
      && bool_decide (os_status o = ACTIVE_LOCAL) && negb (fill_time_ms (cf_reference (fe_fill e)) <=? os_updated_time_ms o)
  | _, _ => false
  end.

Definition recon_projection (spec : backtest_spec) (events : list fill_event) (l : ledger) (rows : list portfolio_row) : result (option portfolio_projection) :=
  match last events, rows with
  | None, [] => Ok None
  | None, _ => Err (failed PORTFOLIO_INVALID)
  | Some e, [r] =>
      if negb (String.eqb (pw_symbol r) (bs_symbol spec)) then Err (failed PORTFOLIO_INVALID) else
      let* pp := rcatch (stored_projection r) (LocalPaperPortfolioError :: DuplicateLocalPaperFill :: KeyError :: VALUE_ERRORS) (failed PORTFOLIO_INVALID) in
      let '(p, payload) := pp in
      if negb (row_projects r p payload) || negb (String.eqb (pp_spec_sha256 p) (spec_sha256 spec))
         || negb (pp_fill_count p =? Z.of_nat (length events)) || negb (String.eqb (pp_last_fill_event_sha256 p) (fill_event_sha256 e))
      then Err (failed PORTFOLIO_INVALID) else
      let* expected := rcatch (Ledger.snapshot spec l (pp_mark_price p)) [PortfolioError] (failed PORTFOLIO_INVALID) in
      if negb (snapshot_eqb (pp_snapshot p) expected) then Err (failed PORTFOLIO_REPLAY_MISMATCH) else
      Ok (Some p)
  | Some _, _ => Err (failed PORTFOLIO_INVALID)
  end.

Definition _load_portfolio (db : portfolio_db) (spec : backtest_spec) (intents : intent_table) (states : gmap string order_state)
    : result (list fill_event * json) :=
  let rows := sort_by fw_sequence (rows_of (pd_fills db)) in
  if existsb (fun r => negb (String.eqb (fw_symbol r) (bs_symbol spec))) rows then Err (failed FILL_INVALID) else
  let* events := rmap (recon_fill spec) rows in
  if negb (bool_decide (map fe_sequence events = seqZ 0 (Z.of_nat (length events)))) then Err (failed FILL_INVALID) else
  if negb (forallb (fill_bound intents states) events) then Err (failed FILL_ORDER_MISMATCH) else
  let* l := rcatch (let* fresh := new_ledger spec in
                    match events with [] => Ok fresh | _ => replay_fills spec (map fe_fill events) fresh end)
              [PortfolioError] (failed FILL_INVALID) in
  let* projection := recon_projection spec events l (rows_of (pd_portfolios db)) in
  Ok (events, JObj [("schema_version", JInt PORTFOLIO_SCHEMA_VERSION); ("spec", _spec_record spec); ("spec_sha256", JStr (spec_sha256 spec));
        ("fills", JArr (map fill_event_as_record events));
        ("projection", match projection with None => JNull | Some p => projection_as_record p end)]%string).

(** ** Startup *)

Definition reconcile (f : execution_file) (spec : backtest_spec) : result reconciliation_report :=
  do* _require_schema f ;;
  let* intents := _load_intents (od_intents (pd_orders (ef_db f))) in
  let* states := _load_orders (pd_orders (ef_db f)) (fst intents) in
  let* events := _load_portfolio (ef_db f) spec (fst intents) (fst states) in
  new_report (StartupReconciliationReport true MATCH (Some (spec_sha256 spec)) (Z.of_nat (size (fst intents))) (Z.of_nat (size (fst states)))
    (Z.of_nat (length (fst events))) (Some (_canonical_digest (snd intents))) (Some (_canonical_digest (snd states)))
    (Some (_canonical_digest (snd events)))).

Definition reconcile_startup (path : database) (spec : backtest_spec) : result reconciliation_report :=
  let h := Some (spec_sha256 spec) in
  match path with
  | Missing => _failure DATABASE_UNAVAILABLE h
  | Unreadable => _failure STORAGE_ERROR h
  | Opened f =>
      match reconcile f spec with
      | Ok r => Ok r
      | Err e => match failed_code e with Some c => _failure c h | None => Err e end
      end
  end.

(** * Properties *)

(** ** The decoders agree with those of the stores *)

(** The keys of the finite maps are the PRIMARY KEY columns of their rows. *)
Record keyed (db : portfolio_db) : Prop := {
  kd_intents : forall h r, od_intents (pd_orders db) !! h = Some r -> in_authorization_sha256 r = h;
  kd_events : forall k r, od_events (pd_orders db) !! k = Some r -> (er_authorization_sha256 r, er_sequence r) = k;
  kd_states : forall h r, od_states (pd_orders db) !! h = Some r -> sr_authorization_sha256 r = h;
  kd_portfolios : forall h r, pd_portfolios db !! h = Some r -> pw_symbol r = h;
}.

Lemma recon_event_ok r e : recon_event r = Ok e <-> OrderState._event_from_row r = Ok e.
Proof. unfold recon_event, OrderState._event_from_row. rewrite !rbind_ok. by setoid_rewrite rcatch_ok; setoid_rewrite raise_if_ok. Qed.

Lemma recon_state_ok r s : recon_state r = Ok s <-> OrderState._state_from_row (Some r) = Ok (Some s).
Proof.
  unfold recon_state, OrderState._state_from_row. rewrite !rbind_ok. setoid_rewrite rcatch_ok. setoid_rewrite raise_if_ok.
  split; intros (a & H1 & H2 & H3); exists a; (split; [done|]; split; [done|]); congruence.
Qed.

Lemma stored_fill_any x y spec r e : stored_fill x spec r = Ok e <-> stored_fill y spec r = Ok e.
Proof. unfold stored_fill. repeat (rewrite !rbind_ok; apply exist_proper; intros ?; apply and_iff_compat_l). by rewrite !raise_if_ok. Qed.

Lemma recon_fill_ok spec r e : recon_fill spec r = Ok e <-> Portfolio._event_from_row spec r = Ok e.
Proof.
  unfold recon_fill, Portfolio._event_from_row. rewrite !rbind_ok. apply exist_proper. intros a. rewrite !rcatch_ok, !raise_if_ok.
  by rewrite (stored_fill_any (failed FILL_INVALID) (Raise LocalPaperPortfolioError "Stored fill differs from accepted P2 costs")).
Qed.

Lemma replay_rows_ok i rows p x : replay_rows i rows p = Ok x <-> replay i rows p = Ok x.
Proof.
  revert p x. induction rows as [|r rows IH]; intros p x; cbn [replay_rows replay]; [done|].
  rewrite !rbind_ok. apply exist_proper. intros e. rewrite recon_event_ok. apply and_iff_compat_l. rewrite !rbind_ok.
  apply exist_proper. intros t. rewrite rcatch_ok. apply and_iff_compat_l. rewrite !rbind_ok. apply exist_proper. intros y. by rewrite IH.
Qed.

Lemma Forall2_iff_in {A B} (P Q : A -> B -> Prop) l k : (forall x y, x ∈ l -> P x y <-> Q x y) -> Forall2 P l k <-> Forall2 Q l k.
Proof.
  intros H. revert k. induction l as [|x l IH]; intros k; [split; intros E; inversion E; constructor|].
  assert (forall k', Forall2 P l k' <-> Forall2 Q l k') as Hl by (intros k'; apply IH; intros ? ? Hin; by apply H, list_elem_of_further).
  split; intros E; inversion E as [|? y ? k' H1 H2]; subst; (constructor; [apply (H x y); [by apply list_elem_of_here|done]|by apply Hl]).
Qed.

(** ** Tables built row by row *)

Definition table {A B} (key : A -> string) (value : A -> B) (l : list A) : gmap string B :=
  fold_left (fun m x => <[key x := value x]> m) l ∅.

Lemma table_spec {A B} (key : A -> string) (value : A -> B) l : NoDup (map key l) ->
  forall k v, table key value l !! k = Some v <-> exists x, x ∈ l /\ key x = k /\ value x = v.
Proof.
  unfold table. induction l as [|x l IH] using rev_ind; intros Hnd k v.
  - cbn. rewrite lookup_empty. split; [done|]. intros (x & Hx & _). by apply elem_of_nil in Hx.
  - rewrite map_app in Hnd. apply NoDup_app in Hnd as (Hnd & Hx & _). rewrite fold_left_app. cbn [fold_left].
    rewrite lookup_insert_Some, (IH Hnd). split.
    + intros [[<- <-]|[_ (y & Hy & E)]]; [exists x; by rewrite elem_of_app, list_elem_of_singleton; auto|].
      exists y. rewrite elem_of_app. by split; [left|].
    + intros (y & Hy & <- & <-). apply elem_of_app in Hy as [Hy|Hy]; [right|left; apply list_elem_of_singleton in Hy as ->; done].
      split; [|by exists y]. intros E. apply (Hx (key y)); [by apply list_elem_of_fmap_2|]. cbn. rewrite <- E. by apply list_elem_of_here.
Qed.

Lemma table_size {A B} (key : A -> string) (value : A -> B) l : NoDup (map key l) -> size (table key value l) = length l.
Proof.
  unfold table. induction l as [|x l IH] using rev_ind; intros Hnd; [done|]. rewrite map_app in Hnd.
  pose proof Hnd as Hnd2. apply NoDup_app in Hnd2 as (Hnd' & Hx & _). rewrite fold_left_app. cbn [fold_left].
  assert (table key value l !! key x = None) as Hn.
  { apply eq_None_not_Some. intros (v & E). apply (table_spec key value l Hnd') in E as (y & Hy & E & _).
    apply (Hx (key y)); [by apply list_elem_of_fmap_2|]. rewrite E. by apply list_elem_of_here. }
  unfold table in Hn. rewrite map_size_insert_None by exact Hn. rewrite IH by done. rewrite length_app. cbn. lia.
Qed.

Lemma rows_keys {A} (key : A -> string) (m : gmap string A) l : (forall k x, m !! k = Some x -> key x = k) -> l ≡ₚ rows_of m ->
  NoDup (map key l) /\ length l = size m /\ names key l = dom m.
Proof.
  intros Hk Hl. assert (map key (rows_of m) = fst <$> map_to_list m) as E.
  { unfold rows_of. change (@map A string) with (@fmap list _ A string). change (@map (string * A) A) with (@fmap list _ (string * A) A).
    rewrite <- list_fmap_compose. apply list_fmap_ext. intros i [k x] Ei. cbn. apply Hk. apply elem_of_map_to_list. by eapply list_elem_of_lookup_2. }
  split; [rewrite (Permutation_map key Hl), E; apply NoDup_fst_map_to_list|]. split.
  - rewrite Hl. unfold rows_of. by rewrite length_map, length_map_to_list.
  - apply set_eq. intros k. unfold names. rewrite elem_of_list_to_set, (Permutation_map key Hl), E, elem_of_dom, list_elem_of_fmap. split.
    + intros ([k' x] & -> & Hin). apply elem_of_map_to_list in Hin. by exists x.
    + intros (x & Ex). exists (k, x). split; [done|]. by apply elem_of_map_to_list.
Qed.

Lemma table_rows {A} (key : A -> string) (m : gmap string A) l : (forall k x, m !! k = Some x -> key x = k) -> l ≡ₚ rows_of m -> table key id l = m.
Proof.
  intros Hk Hl. destruct (rows_keys key m l Hk Hl) as (Hnd & _).
  apply map_eq. intros k. apply option_eq. intros v. rewrite (table_spec key id l Hnd). split.
  - intros (x & Hx & <- & <-). rewrite Hl in Hx. apply rows_of_elem in Hx as (k & E). cbn. by rewrite (Hk k x E).
  - intros E. exists v. split; [|by split; [apply Hk|]]. rewrite Hl. apply rows_of_elem. by exists k.
Qed.

(** ** Intents *)

Definition intents_valid (rows : intent_table) : Prop := forall h r, rows !! h = Some r -> intent_valid_record r.

Definition journal_payload (rows : intent_table) : json :=
  JObj [("schema_version"%string, JInt JOURNAL_SCHEMA_VERSION); ("intents"%string, JArr (map intent_as_record (merge_sort row_le (rows_of rows))))].

Lemma journal_rows (rows : intent_table) : merge_sort row_le (rows_of rows) ≡ₚ rows_of rows.
Proof. apply merge_sort_Permutation. Qed.

Lemma intents_valid_rows (rows : intent_table) : intents_valid rows <-> Forall intent_valid_record (merge_sort row_le (rows_of rows)).
Proof.
  rewrite Forall_forall. split.
  - intros H r Hr. rewrite journal_rows in Hr. apply rows_of_elem in Hr as (h & E). by apply (H h).
  - intros H h r E. apply H. rewrite journal_rows. apply rows_of_elem. by exists h.
Qed.

Lemma new_intents_ok l l' : rmap new_intent_record l = Ok l' <-> Forall intent_valid_record l /\ l' = l.
Proof.
  rewrite rmap_ok. split.
  - induction 1 as [|r r' l l' H _ [IH ->]]; [done|]. unfold new_intent_record in H. apply rbind_ok in H as ([] & Hv & H). injection H as ->.
    by split; [constructor|].
  - intros [H ->]. induction H as [|r l Hr _ IH]; constructor; [|done]. unfold new_intent_record. by rewrite Hr.
Qed.

Lemma load_intents_iff (rows : intent_table) x : (forall h r, rows !! h = Some r -> in_authorization_sha256 r = h) ->
  _load_intents rows = Ok x <-> intents_valid rows /\ x = (rows, journal_payload rows).
Proof.
  intros Hk. unfold _load_intents. rewrite rbind_ok. setoid_rewrite rcatch_ok. setoid_rewrite new_intents_ok.
  pose proof (rows_keys in_authorization_sha256 rows _ Hk (journal_rows rows)) as (Hnd & Hlen & _).
  pose proof (table_rows in_authorization_sha256 rows _ Hk (journal_rows rows)) as Et. unfold table, id in Et.
  setoid_rewrite <- intents_valid_rows. split.
  - intros (l & (Hv & ->) & H). split; [done|]. rewrite Et in H. apply raise_if_ok in H as [_ H]. by injection H.
  - intros (Hv & ->). exists (merge_sort row_le (rows_of rows)). split; [done|]. rewrite Et, <- Hlen, Nat.eqb_refl. done.
Qed.

Lemma canonical_json_iff (rows : intent_table) t : canonical_json rows = Ok t <-> intents_valid rows /\ t = json_dumps (journal_payload rows) ++ [chr 10].
Proof.
  unfold canonical_json. fold (rows_of rows). rewrite rbind_ok. setoid_rewrite (rmap_ok _ (merge_sort row_le (rows_of rows))). rewrite intents_valid_rows. unfold journal_payload.
  generalize (merge_sort row_le (rows_of rows)). intros l. assert (forall js, Forall2 (fun x y => (let* o := _row_to_record (Some x) in
      match o with Some r => Ok (intent_as_record r) | None => Err (Raise AttributeError "as_record") end) = Ok y) l js
    <-> Forall intent_valid_record l /\ js = map intent_as_record l) as H.
  { intros js. split.
    - induction 1 as [|r j l js H _ [IH ->]]; [done|]. cbn [_row_to_record] in H. apply rbind_ok in H as (o & H & Ho). apply rbind_ok in H as (r' & H & H').
      injection H' as <-. apply rcatch_ok in H. unfold new_intent_record in H. apply rbind_ok in H as ([] & Hv & H). injection H as <-. injection Ho as <-.
      by split; [constructor|].
    - intros [H ->]. induction H as [|r l Hr _ IH]; constructor; [|done]. cbn [_row_to_record]. unfold new_intent_record. by rewrite Hr. }
  split.
  - intros (js & Hjs & Ht). apply H in Hjs as (Hv & ->). injection Ht as <-. done.
  - intros (Hv & ->). eexists. split; [by apply H|done].
Qed.

(** ** Orders *)

(** Every intent has an order with a state and events, and there is no other. *)
Record covered (db : order_db) : Prop := {
  cv_states : names sr_authorization_sha256 (rows_of (od_states db)) = dom (od_intents db);
  cv_events : names er_authorization_sha256 (rows_of (od_events db)) = dom (od_intents db);
}.

Definition order_json (h : string) (es : list order_event) (s : order_state) : json :=
  JObj [("authorization_sha256", JStr h); ("events", JArr (map order_event_as_record es)); ("state", order_state_as_record s)]%string.

(** What both readers find for one state row. *)
Definition order_entry (db : order_db) (r : state_row) (x : order_state * json) : Prop :=
  exists es, _load_order db (sr_authorization_sha256 r) = Ok (es, Some (fst x)) /\ snd x = order_json (sr_authorization_sha256 r) es (fst x).

Definition order_rows (db : order_db) : list state_row := merge_sort state_key_le (rows_of (od_states db)).
Lemma order_rows_perm db : order_rows db ≡ₚ rows_of (od_states db).
Proof. apply merge_sort_Permutation. Qed.

Definition orders_payload (entries : list (order_state * json)) : json :=
  JObj [("schema_version"%string, JInt ORDER_SCHEMA_VERSION); ("orders"%string, JArr (map snd entries))].

Lemma load_order_inv db h es st : _load_order db h = Ok (es, st) <->
  (exists i, od_intents db !! h = Some i /\ intent_valid_record i /\ replay i (event_rows db h) None = Ok (es, st))
  /\ OrderState._state_from_row (_select_state db h) = Ok st.
Proof.
  unfold _load_order, _get_intent. split.
  - intros H. apply rbind_ok in H as (i & Hi & H). destruct (od_intents db !! h) as [i0|]; [|done]. apply rcatch_ok in Hi.
    unfold new_intent_record in Hi. apply rbind_ok in Hi as ([] & Hv & Hi). injection Hi as ->.
    apply rbind_ok in H as ([es' st'] & Hr & H). apply rbind_ok in H as (st2 & Hs & H). cbn [fst snd] in H. apply raise_if_ok in H as [Hb H].
    injection H as <- <-. apply negb_false_iff, bool_decide_eq_true in Hb as ->. split; [by exists i|done].
  - intros [(i & -> & Hv & Hr) Hs]. unfold new_intent_record. rewrite Hv. cbn [rbind rcatch]. rewrite Hr. cbn [rbind fst snd]. rewrite Hs. cbn [rbind].
    by rewrite bool_decide_true.
Qed.

Lemma load_order_entry db r x : intents_valid (od_intents db) -> od_states db !! sr_authorization_sha256 r = Some r ->
  load_order db (od_intents db) r = Ok x <-> order_entry db r x.
Proof.
  intros Hv Hr. destruct x as [s j]. unfold load_order, order_entry. cbn [fst snd]. setoid_rewrite load_order_inv. unfold _select_state. rewrite Hr.
  destruct (od_intents db !! sr_authorization_sha256 r) as [i|] eqn:Ei; [|split; [done|intros (es & ((i & H & _) & _) & _); done]].
  rewrite rbind_ok. setoid_rewrite replay_rows_ok. split.
  - intros ([es st] & Hrep & H). apply rbind_ok in H as (s' & Hs & H). apply recon_state_ok in Hs. cbn [fst snd] in H. apply raise_if_ok in H as [Hb H].
    apply negb_false_iff, bool_decide_eq_true in Hb as ->. injection H as <- <-. exists es. split; [|done]. split; [|done]. exists i. by split; [|split; [eapply Hv|]].
  - intros (es & ((i' & Hi & _ & Hrep) & Hs) & ->). injection Hi as <-. exists (es, Some s). split; [done|]. apply recon_state_ok in Hs. rewrite Hs.
    cbn [rbind fst snd]. by rewrite bool_decide_true.
Qed.

Lemma covered_tests db : (negb (bool_decide (names sr_authorization_sha256 (order_rows db) = dom (od_intents db)))
  || negb (bool_decide (names er_authorization_sha256 (rows_of (od_events db)) = dom (od_intents db))) = false) <-> covered db.
Proof.
  rewrite orb_false_iff, !negb_false_iff, !bool_decide_eq_true. unfold names at 1. rewrite (Permutation_map _ (order_rows_perm db)).
  split; [intros [H1 H2]; by constructor|by intros [H1 H2]].
Qed.

Definition order_states (db : order_db) (entries : list (order_state * json)) : gmap string order_state :=
  table (fun x => sr_authorization_sha256 (fst x)) (fun x => fst (snd x)) (zip (order_rows db) entries).

Lemma load_orders_iff db x : (forall h r, od_states db !! h = Some r -> sr_authorization_sha256 r = h) -> intents_valid (od_intents db) ->
  _load_orders db (od_intents db) = Ok x <->
  covered db /\ exists entries, Forall2 (order_entry db) (order_rows db) entries /\ x = (order_states db entries, orders_payload entries).
Proof.
  intros Hk Hv. unfold _load_orders. fold (order_rows db). rewrite raise_if_ok, covered_tests. apply and_iff_compat_l. rewrite rbind_ok.
  apply exist_proper. intros entries.
  assert (rmap (load_order db (od_intents db)) (order_rows db) = Ok entries <-> Forall2 (order_entry db) (order_rows db) entries) as ->.
  { rewrite rmap_ok. apply Forall2_iff_in. intros r y Hr. apply load_order_entry; [done|]. rewrite order_rows_perm in Hr.
    apply rows_of_elem in Hr as (h & E). by rewrite (Hk h r E). }
  apply and_iff_compat_l. split; [by intros [= <-]|by intros ->].
Qed.

Lemma orders_json_iff db t : orders_json db = Ok t <->
  exists entries, Forall2 (order_entry db) (order_rows db) entries /\ t = json_dumps (orders_payload entries) ++ [chr 10].
Proof.
  unfold orders_json. fold (order_rows db). rewrite rbind_ok. setoid_rewrite (rmap_ok _ (order_rows db)). split.
  - intros (js & Hjs & Ht). injection Ht as <-. enough (exists entries, Forall2 (order_entry db) (order_rows db) entries /\ js = map snd entries) as (en & H & ->).
    { by exists en. }
    induction Hjs as [|r j l js H _ (en & IH & ->)]; [by exists []|]. apply rbind_ok in H as ([es [s|]] & Hl & Hj); [|done]. injection Hj as <-.
    exists ((s, order_json (sr_authorization_sha256 r) es s) :: en). split; [|done]. constructor; [|done]. by exists es.
  - intros (en & Hen & ->). exists (map snd en). split; [|done]. induction Hen as [|r [s j] l en (es & Hl & Ej) _ IH]; [constructor|].
    cbn [map]. constructor; [|done]. cbn [fst snd] in *. rewrite Hl, Ej. done.
Qed.

Lemma order_states_spec db entries : (forall h r, od_states db !! h = Some r -> sr_authorization_sha256 r = h) ->
  Forall2 (order_entry db) (order_rows db) entries ->
  size (order_states db entries) = size (od_states db)
  /\ forall h s, order_states db entries !! h = Some s <-> exists es, od_states db !! h <> None /\ _load_order db h = Ok (es, Some s).
Proof.
  intros Hk Hen. pose proof (rows_keys sr_authorization_sha256 (od_states db) _ Hk (order_rows_perm db)) as (Hnd & Hlen & _).
  assert (map (fun x => sr_authorization_sha256 (fst x)) (zip (order_rows db) entries) = map sr_authorization_sha256 (order_rows db)) as Ez.
  { clear - Hen. induction Hen; [done|]. cbn. by f_equal. }
  assert (NoDup (map (fun x : state_row * (order_state * json) => sr_authorization_sha256 (fst x)) (zip (order_rows db) entries))) as Hnz by by rewrite Ez.
  unfold order_states. split.
  - rewrite (table_size _ _ _ Hnz), <- Hlen. pose proof (f_equal length Ez) as El. by rewrite !length_map in El.
  - intros h s. rewrite (table_spec _ _ _ Hnz). split.
    + intros ([r [s' j]] & Hin & Eh & Es). cbn [fst snd] in *. subst. apply list_elem_of_lookup in Hin as (k & Ek).
      rewrite lookup_zip_with in Ek. destruct (order_rows db !! k) as [r'|] eqn:Er; [|done]. destruct (entries !! k) as [x'|] eqn:Ex; [|done].
      cbn in Ek. injection Ek as -> ->. destruct (Forall2_lookup_lr _ _ _ _ _ _ Hen Er Ex) as (es & Hl & _). exists es. split; [|done].
      apply list_elem_of_lookup_2 in Er. rewrite order_rows_perm in Er. apply rows_of_elem in Er as (h & E). rewrite (Hk h r E). congruence.
    + intros (es & Hne & Hl). destruct (od_states db !! h) as [r|] eqn:E; [|done]. pose proof (Hk h r E) as Eh.
      assert (r ∈ order_rows db) as Hr by (rewrite order_rows_perm; apply rows_of_elem; by exists h).
      apply list_elem_of_lookup in Hr as (k & Er). destruct (Forall2_lookup_l _ _ _ _ _ Hen Er) as ([s' j] & Ex & (es' & Hl' & _)). cbn [fst] in Hl'.
      exists (r, (s', j)). split; [|split; [done|cbn; congruence]]. apply (list_elem_of_lookup_2 _ k). by rewrite lookup_zip_with, Er, Ex.
Qed.

(** ** The portfolio *)

(** The database serves this symbol alone. *)
Record only_symbol (db : portfolio_db) (symbol : string) : Prop := {
  os_fills : forall r, r ∈ rows_of (pd_fills db) -> fw_symbol r = symbol;
  os_portfolios : forall r, r ∈ rows_of (pd_portfolios db) -> pw_symbol r = symbol;
}.

Lemma only_fill_rows db symbol : (forall r, r ∈ rows_of (pd_fills db) -> fw_symbol r = symbol) -> sort_by fw_sequence (rows_of (pd_fills db)) = fill_rows db symbol.
Proof.
  intros H. unfold fill_rows. f_equal. revert H. generalize (rows_of (pd_fills db)). intros l H. symmetry.
  induction l as [|r l IH]; [done|]. rewrite filter_cons_True by (apply H, list_elem_of_here). f_equal. apply IH.
  intros x Hx. by apply H, list_elem_of_further.
Qed.

Lemma only_portfolio_rows db symbol : only_symbol db symbol -> (forall h r, pd_portfolios db !! h = Some r -> pw_symbol r = h) ->
  rows_of (pd_portfolios db) = match pd_portfolios db !! symbol with Some r => [r] | None => [] end.
Proof.
  intros [_ H] Hk. assert (pd_portfolios db = match pd_portfolios db !! symbol with Some r => {[symbol := r]} | None => ∅ end) as ->.
  { apply map_eq. intros k. destruct (pd_portfolios db !! k) as [r|] eqn:E.
    - assert (k = symbol) as -> by (rewrite <- (Hk k r E); apply H, rows_of_elem; by exists k). rewrite E. by rewrite lookup_singleton_eq.
    - destruct (pd_portfolios db !! symbol) as [r|] eqn:Es; [|done]. rewrite lookup_singleton_ne; [done|]. intros ->. congruence. }
  destruct (pd_portfolios db !! symbol) as [r|]; unfold rows_of.
  - rewrite lookup_singleton_eq. by rewrite map_to_list_singleton.
  - rewrite lookup_empty. by rewrite map_to_list_empty.
Qed.

Definition portfolio_payload (spec : backtest_spec) (events : list fill_event) (p : option portfolio_projection) : json :=
  JObj [("schema_version", JInt PORTFOLIO_SCHEMA_VERSION); ("spec", _spec_record spec); ("spec_sha256", JStr (spec_sha256 spec));
        ("fills", JArr (map fill_event_as_record events));
        ("projection", match p with None => JNull | Some p => projection_as_record p end)]%string.

(** The ledger both readers replay the fills into. *)
Definition ledger_of (spec : backtest_spec) (events : list fill_event) (l : ledger) : Prop :=
  exists fresh, new_ledger spec = Ok fresh /\ match events with [] => l = fresh | _ => replay_fills spec (map fe_fill events) fresh = Ok l end.

(** The projection both readers accept. *)
Definition projected (spec : backtest_spec) (events : list fill_event) (l : ledger) (row : option portfolio_row) (p : option portfolio_projection) : Prop :=
  match last events, row, p with
  | None, None, None => True
  | Some e, Some r, Some p => exists payload s, stored_projection r = Ok (p, payload) /\ row_projects r p payload = true
      /\ pp_spec_sha256 p = spec_sha256 spec /\ pp_fill_count p = Z.of_nat (length events) /\ pp_last_fill_event_sha256 p = fill_event_sha256 e
      /\ Ledger.snapshot spec l (pp_mark_price p) = Ok s /\ snapshot_eqb (pp_snapshot p) s = true
  | _, _, _ => False
  end.

Lemma recon_projection_iff spec events l rows p : recon_projection spec events l rows = Ok p <->
  match rows with
  | [] => projected spec events l None p
  | [r] => (pw_symbol r = bs_symbol spec) /\ projected spec events l (Some r) p
  | _ => False
  end.
Proof.
  unfold recon_projection, projected. destruct (last events) as [e|]; destruct rows as [|r [|r' rows]].
  - by destruct p.
  - rewrite raise_if_ok, negb_false_iff, String.eqb_eq. apply and_iff_compat_l. split.
    + intros H. apply rbind_ok in H as ([q payload] & Hs & H). apply rcatch_ok in Hs. apply raise_if_ok in H as [Hb H].
      apply rbind_ok in H as (s & Hsn & H). apply rcatch_ok in Hsn. apply raise_if_ok in H as [He H]. injection H as <-.
      apply negb_false_iff in He. rewrite !orb_false_iff, !negb_false_iff in Hb. destruct Hb as (((B1 & B2) & B3) & B4).
      apply String.eqb_eq in B2, B4. apply Z.eqb_eq in B3. by exists payload, s.
    + destruct p as [q|]; [|done]. intros (payload & s & Hs & B1 & B2 & B3 & B4 & Hsn & He). rewrite Hs. cbn [rcatch rbind].
      rewrite B1, B2, B4, B3. rewrite (String.eqb_refl (spec_sha256 spec)), (String.eqb_refl (fill_event_sha256 e)), Z.eqb_refl. cbn [negb orb].
      rewrite Hsn. cbn [rcatch rbind]. by rewrite He.
  - done.
  - split; [by intros [= <-]|]. by destruct p.
  - split; [done|]. by intros [_ ?].
  - done.
Qed.

Lemma load_iff spec db x : _load spec db = Ok x <->
  let '(events, l, p) := x in
  rmap (Portfolio._event_from_row spec) (fill_rows db (bs_symbol spec)) = Ok events
  /\ map fe_sequence events = seqZ 0 (Z.of_nat (length events)) /\ ledger_of spec events l
  /\ projected spec events l (pd_portfolios db !! bs_symbol spec) p.
Proof.
  destruct x as [[events l] p]. unfold _load, ledger_of, projected. split.
  - intros H. apply rbind_ok in H as (evs & Hev & H). apply raise_if_ok in H as [Hsq H]. apply negb_false_iff, bool_decide_eq_true in Hsq.
    apply rbind_ok in H as (fresh & Hf & H). apply rbind_ok in H as (l' & Hl & H). apply rbind_ok in H as (q & Hq & H).
    assert ((evs, l', q) = (events, l, p)) as E.
    { destruct (last evs); destruct q; [|done|done|by injection H as -> -> ->].
      apply raise_if_ok in H as [_ H]. apply rbind_ok in H as (s & _ & H). apply raise_if_ok in H as [_ H]. by injection H as -> -> ->. }
    injection E as -> -> ->. split; [done|]. split; [done|]. split.
    { exists fresh. split; [done|]. destruct events; [by injection Hl|by apply rcatch_ok in Hl]. }
    destruct (pd_portfolios db !! bs_symbol spec) as [r|]; cbn [_projection_from_row] in Hq.
    2: { injection Hq as <-. by destruct (last events). }
    apply rbind_ok in Hq as ([q payload] & Hs & Hq). apply rcatch_ok in Hs. apply raise_if_ok in Hq as [Hb Hq]. injection Hq as <-. apply negb_false_iff in Hb.
    destruct (last events) as [e|]; [|done]. apply raise_if_ok in H as [Hc H]. apply rbind_ok in H as (s & Hsn & H). apply raise_if_ok in H as [He _].
    apply negb_false_iff in He. rewrite !orb_false_iff, !negb_false_iff in Hc. destruct Hc as ((B2 & B3) & B4).
    apply String.eqb_eq in B2, B4. apply Z.eqb_eq in B3. by exists payload, s.
  - intros (-> & Hsq & (fresh & Hf & Hl) & Hp). cbn [rbind]. rewrite bool_decide_true by done. cbn [negb]. rewrite Hf. cbn [rbind].
    assert (match events with [] => Ok fresh | _ => rcatch (replay_fills spec (map fe_fill events) fresh) [PortfolioError]
       (Raise LocalPaperPortfolioError "Durable fills fail accepted P2 replay") end = Ok l) as ->.
    { destruct events; [by rewrite Hl|by rewrite Hl]. }
    cbn [rbind]. destruct (pd_portfolios db !! bs_symbol spec) as [r|]; cbn [_projection_from_row rbind]; destruct (last events) as [e|]; destruct p as [q|]; try done.
    destruct Hp as (payload & s & Hs & B1 & B2 & B3 & B4 & Hsn & He). rewrite Hs. cbn [rcatch rbind]. rewrite B1. cbn [negb rbind].
    rewrite B2, B4, B3. rewrite (String.eqb_refl (spec_sha256 spec)), (String.eqb_refl (fill_event_sha256 e)), Z.eqb_refl. cbn [negb orb].
    rewrite Hsn. cbn [rbind]. by rewrite He.
Qed.

Lemma load_portfolio_iff db spec intents states x : (forall h r, pd_portfolios db !! h = Some r -> pw_symbol r = h) ->
  _load_portfolio db spec intents states = Ok x <->
  only_symbol db (bs_symbol spec) /\ exists l p, _load spec db = Ok (fst x, l, p) /\ forallb (fill_bound intents states) (fst x) = true
    /\ snd x = portfolio_payload spec (fst x) p.
Proof.
  intros Hk. destruct x as [events j]. cbn [fst snd]. unfold _load_portfolio. rewrite raise_if_ok. setoid_rewrite load_iff.
  assert (existsb (fun r => negb (String.eqb (fw_symbol r) (bs_symbol spec))) (sort_by fw_sequence (rows_of (pd_fills db))) = false
    <-> forall r, r ∈ rows_of (pd_fills db) -> fw_symbol r = bs_symbol spec) as ->.
  { rewrite <- not_true_iff_false, existsb_exists. split.
    - intros H r Hr. destruct (String.eqb_spec (fw_symbol r) (bs_symbol spec)) as [|Hn]; [done|]. destruct H. exists r. split; [|by apply negb_true_iff, String.eqb_neq].
      apply list_elem_of_In. by rewrite sort_by_perm.
    - intros H (r & Hr & Hn). apply list_elem_of_In in Hr. rewrite sort_by_perm in Hr. by rewrite (H r Hr), String.eqb_refl in Hn. }
  split.
  - intros (Hf & H). apply rbind_ok in H as (evs & Hev & H). apply raise_if_ok in H as [Hsq H]. apply negb_false_iff, bool_decide_eq_true in Hsq.
    apply raise_if_ok in H as [Hb H]. apply negb_false_iff in Hb. apply rbind_ok in H as (l & Hl & H). apply rcatch_ok in Hl.
    apply rbind_ok in Hl as (fresh & Hfr & Hl). apply rbind_ok in H as (p & Hp & H). injection H as <- <-.
    apply recon_projection_iff in Hp.
    assert (only_symbol db (bs_symbol spec)) as Ho.
    { constructor; [done|]. intros r Hr. destruct (rows_of (pd_portfolios db)) as [|r0 [|? ?]]; [by apply elem_of_nil in Hr| |done].
      apply list_elem_of_singleton in Hr as ->. apply Hp. }
    split; [done|]. exists l, p. split; [|done]. rewrite (only_portfolio_rows _ _ Ho Hk) in Hp. rewrite (only_fill_rows _ _ (os_fills _ _ Ho)) in Hev.
    split; [|split; [done|split]].
    + rewrite rmap_ok in Hev |- *. eapply Forall2_impl; [exact Hev|]. intros r e He. exact (proj1 (recon_fill_ok spec r e) He).
    + exists fresh. split; [done|]. destruct evs; [by injection Hl|done].
    + destruct (pd_portfolios db !! bs_symbol spec); [apply Hp|exact Hp].
  - intros (Ho & l & p & (Hev & Hsq & (fresh & Hfr & Hl) & Hp) & Hb & ->). split; [apply Ho|]. rewrite (only_fill_rows _ _ (os_fills _ _ Ho)).
    assert (rmap (recon_fill spec) (fill_rows db (bs_symbol spec)) = Ok events) as ->.
    { rewrite rmap_ok in Hev |- *. eapply Forall2_impl; [exact Hev|]. intros r e He. exact (proj2 (recon_fill_ok spec r e) He). }
    cbn [rbind]. rewrite bool_decide_true by done. cbn [negb]. rewrite Hb. cbn [negb]. rewrite Hfr. cbn [rbind].
    assert (match events with [] => Ok fresh | _ => replay_fills spec (map fe_fill events) fresh end = Ok l) as ->.
    { destruct events; [by rewrite Hl|done]. }
    cbn [rcatch rbind]. rewrite (only_portfolio_rows _ _ Ho Hk).
    assert (recon_projection spec events l (match pd_portfolios db !! bs_symbol spec with Some r => [r] | None => [] end) = Ok p) as ->; [|done].
    apply recon_projection_iff. destruct (pd_portfolios db !! bs_symbol spec) as [r|] eqn:E; [|done]. split; [|done]. by apply (Hk _ r E).
Qed.

(** ** The report *)

Definition schema_ok (f : execution_file) : Prop :=
  (forall t, t ∈ REQUIRED_TABLES -> t ∈ ef_tables f) /\ (forall t v, (t, v) ∈ EXPECTED_VERSIONS -> max_version (ef_versions f t) = v).

Lemma require_schema_iff f : _require_schema f = Ok tt <-> schema_ok f.
Proof.
  unfold _require_schema, schema_ok. rewrite !raise_if_ok, negb_false_iff, forallb_forall. split.
  - intros (H1 & H2 & _). split.
    + intros t Ht. apply str_in_spec, H1, list_elem_of_In, Ht.
    + intros t v Ht. destruct (Z.eqb_spec (max_version (ef_versions f t)) v) as [|Hn]; [done|]. apply not_true_iff_false in H2. destruct H2.
      apply existsb_exists. exists (t, v). split; [by apply list_elem_of_In|]. cbn. by apply negb_true_iff, Z.eqb_neq.
  - intros (H1 & H2). split; [|split; [|done]].
    + intros t Ht. apply str_in_spec, H1, list_elem_of_In, Ht.
    + apply not_true_iff_false. rewrite existsb_exists. intros ([t v] & Ht & Hn). cbn in Hn. by rewrite (H2 t v), Z.eqb_refl in Hn by by apply list_elem_of_In.
Qed.

(** The order states reconciliation compares the fills with. *)
Definition stored_states (db : order_db) (states : gmap string order_state) : Prop :=
  forall h s, states !! h = Some s <-> exists es, od_states db !! h <> None /\ _load_order db h = Ok (es, Some s).

Definition ready_report (spec : backtest_spec) (intents orders fills : nat) (journal order portfolio : text) : reconciliation_report :=
  StartupReconciliationReport true MATCH (Some (spec_sha256 spec)) (Z.of_nat intents) (Z.of_nat orders) (Z.of_nat fills)
    (Some (sha256_hex journal)) (Some (sha256_hex order)) (Some (sha256_hex portfolio)).

Lemma ready_report_valid spec a b c t u v : report_post_init (ready_report spec a b c t u v) = Ok tt.
Proof.
  unfold report_post_init, ready_report. cbn [rp_intent_count rp_order_count rp_fill_count rp_spec_sha256 rp_journal_sha256 rp_orders_sha256
    rp_portfolio_sha256 rp_ready rp_code existsb orb opt_is_none]. rewrite !(proj2 (Z.ltb_ge _ 0)) by apply Nat2Z.is_nonneg.
  rewrite spec_sha256_pattern, !sha256_hex_pattern. reflexivity.
Qed.

Lemma failure_valid c h : c <> MATCH -> sha256_pattern h = true ->
  _failure c (Some h) = Ok (StartupReconciliationReport false c (Some h) 0 0 0 None None None).
Proof.
  intros Hc Hh. unfold _failure, new_report, report_post_init. cbn [rp_intent_count rp_order_count rp_fill_count rp_spec_sha256 rp_journal_sha256
    rp_orders_sha256 rp_portfolio_sha256 rp_ready rp_code existsb orb]. rewrite Hh, bool_decide_false by done. done.
Qed.

(** The fill of an event is later than the current state of its order, active
    and the one the event names, of the intent the event names. *)
Definition event_bound (db : order_db) (e : fill_event) : Prop :=
  exists i es o, od_intents db !! fe_authorization_sha256 e = Some i /\ _load_order db (fe_authorization_sha256 e) = Ok (es, Some o)
    /\ fe_intent_sha256 e = in_intent_sha256 i /\ fe_order_state_sha256 e = order_state_sha256 o /\ os_status o = ACTIVE_LOCAL
    /\ os_updated_time_ms o < fill_time_ms (cf_reference (fe_fill e)).

(** What startup must find: the stores themselves can read and export everything,
    every intent has its order, the database serves one symbol, and every fill is
    bound to its order. *)
Record consistent (f : execution_file) (spec : backtest_spec) (journal orders portfolio : text) (events : list fill_event) : Prop := {
  cs_schema : schema_ok f;
  cs_journal : canonical_json (od_intents (pd_orders (ef_db f))) = Ok journal;
  cs_orders : orders_json (pd_orders (ef_db f)) = Ok orders;
  cs_portfolio : portfolio_json spec (ef_db f) = Ok portfolio;
  cs_events : portfolio_events spec (ef_db f) = Ok events;
  cs_covered : covered (pd_orders (ef_db f));
  cs_symbol : only_symbol (ef_db f) (bs_symbol spec);
  cs_bound : Forall (event_bound (pd_orders (ef_db f))) events;
}.

Definition consistent_report (f : execution_file) (spec : backtest_spec) (journal orders portfolio : text) (events : list fill_event) : reconciliation_report :=
  ready_report spec (size (od_intents (pd_orders (ef_db f)))) (size (od_states (pd_orders (ef_db f)))) (length events) journal orders portfolio.

Lemma fill_bound_event db states events : stored_states db states -> covered db ->
  forallb (fill_bound (od_intents db) states) events = true <-> Forall (event_bound db) events.
Proof.
  intros Hs Hc. rewrite forallb_forall, Forall_forall. setoid_rewrite <- list_elem_of_In.
  assert (forall e, fill_bound (od_intents db) states e = true <-> event_bound db e) as H; [|by setoid_rewrite H].
  intros e. unfold fill_bound, event_bound. split.
  - destruct (od_intents db !! fe_authorization_sha256 e) as [i|] eqn:Ei; [|done]. destruct (states !! fe_authorization_sha256 e) as [o|] eqn:Eo; [|done].
    rewrite !andb_true_iff, negb_true_iff, bool_decide_eq_true, !String.eqb_eq, Z.leb_gt. intros (((H1 & H2) & H3) & H4).
    apply Hs in Eo as (es & _ & Hl). by exists i, es, o.
  - intros (i & es & o & Ei & Hl & H1 & H2 & H3 & H4). rewrite Ei.
    assert (states !! fe_authorization_sha256 e = Some o) as ->.
    { apply Hs. exists es. split; [|done]. apply load_order_inv in Hl as [_ Hl]. unfold _select_state in Hl.
      by destruct (od_states db !! fe_authorization_sha256 e). }
    rewrite !andb_true_iff, negb_true_iff, bool_decide_eq_true, !String.eqb_eq, Z.leb_gt. done.
Qed.

Lemma portfolio_json_iff spec db t : portfolio_json spec db = Ok t <->
  exists events l p, _load spec db = Ok (events, l, p) /\ t = json_dumps (portfolio_payload spec events p) ++ [chr 10].
Proof.
  unfold portfolio_json. rewrite rbind_ok. split.
  - intros ([[events l] p] & Hl & H). apply Ok_inj in H. exists events, l, p. exact (conj Hl (eq_sym H)).
  - intros (events & l & p & Hl & ->). exists (events, l, p). exact (conj Hl eq_refl).
Qed.

(** The reader of startup and the readers of the stores agree. *)
Lemma reconcile_iff f spec r : keyed (ef_db f) ->
  reconcile f spec = Ok r <-> exists journal orders portfolio events,
    consistent f spec journal orders portfolio events /\ r = consistent_report f spec journal orders portfolio events.
Proof.
  intros Hk. unfold reconcile. split.
  - intros H. apply rbind_ok in H as ([] & Hsch & H). apply require_schema_iff in Hsch.
    apply rbind_ok in H as (xi & Hi & H). apply (load_intents_iff _ _ (kd_intents _ Hk)) in Hi as [Hv ->]. cbn [fst snd] in H.
    apply rbind_ok in H as (xo & Ho & H). apply (load_orders_iff _ _ (kd_states _ Hk) Hv) in Ho as (Hc & entries & Hen & ->). cbn [fst snd] in H.
    apply rbind_ok in H as (xp & Hp & H). apply (load_portfolio_iff _ _ _ _ _ (kd_portfolios _ Hk)) in Hp as (Hos & l & p & Hl & Hb & Hpay).
    destruct (order_states_spec _ _ (kd_states _ Hk) Hen) as [Hsz Hst].
    unfold new_report in H. apply rbind_ok in H as ([] & _ & H). apply Ok_inj in H. subst r.
    exists (json_dumps (journal_payload (od_intents (pd_orders (ef_db f)))) ++ [chr 10]), (json_dumps (orders_payload entries) ++ [chr 10]),
      (json_dumps (portfolio_payload spec (fst xp) p) ++ [chr 10]), (fst xp). split.
    + constructor; [exact Hsch|exact (proj2 (canonical_json_iff _ _) (conj Hv eq_refl))| | | |exact Hc|exact Hos|].
      * apply orders_json_iff. exists entries. exact (conj Hen eq_refl).
      * apply portfolio_json_iff. exists (fst xp), l, p. exact (conj Hl eq_refl).
      * unfold portfolio_events. rewrite Hl. reflexivity.
      * exact (proj1 (fill_bound_event _ _ _ Hst Hc) Hb).
    + unfold consistent_report, ready_report. rewrite Hsz, Hpay. reflexivity.
  - intros (tj & to & tp & events & [Hsch Hj Ho Hp Hev Hc Hos Hb] & ->).
    apply require_schema_iff in Hsch. rewrite Hsch. cbn [rbind]. apply canonical_json_iff in Hj as [Hv ->].
    rewrite (proj2 (load_intents_iff _ _ (kd_intents _ Hk)) (conj Hv eq_refl)). cbn [rbind fst snd].
    apply orders_json_iff in Ho as (entries & Hen & ->).
    rewrite (proj2 (load_orders_iff _ (order_states _ entries, orders_payload entries) (kd_states _ Hk) Hv))
      by (split; [exact Hc|]; exists entries; exact (conj Hen eq_refl)). cbn [rbind fst snd].
    destruct (order_states_spec _ _ (kd_states _ Hk) Hen) as [Hsz Hst].
    apply portfolio_json_iff in Hp as (evs & l & p & Hl & ->). unfold portfolio_events in Hev. rewrite Hl in Hev. cbn [rbind fst] in Hev. apply Ok_inj in Hev. subst evs.
    rewrite (proj2 (load_portfolio_iff (ef_db f) spec (od_intents (pd_orders (ef_db f))) (order_states (pd_orders (ef_db f)) entries)
      (events, portfolio_payload spec events p) (kd_portfolios _ Hk))).
    2: { split; [exact Hos|]. exists l, p. split; [exact Hl|]. split; [|reflexivity]. exact (proj2 (fill_bound_event _ _ _ Hst Hc) Hb). }
    cbn [rbind fst snd]. unfold new_report. rewrite Hsz.
    change (StartupReconciliationReport true MATCH (Some (spec_sha256 spec)) (Z.of_nat (size (od_intents (pd_orders (ef_db f)))))
      (Z.of_nat (size (od_states (pd_orders (ef_db f))))) (Z.of_nat (length events)) (Some (_canonical_digest (journal_payload (od_intents (pd_orders (ef_db f))))))
      (Some (_canonical_digest (orders_payload entries))) (Some (_canonical_digest (portfolio_payload spec events p))))
      with (consistent_report f spec (json_dumps (journal_payload (od_intents (pd_orders (ef_db f)))) ++ [chr 10])
        (json_dumps (orders_payload entries) ++ [chr 10]) (json_dumps (portfolio_payload spec events p) ++ [chr 10]) events).
    unfold consistent_report. rewrite ready_report_valid. reflexivity.
Qed.

(** ** What the readers accept *)

Lemma enum_member_value {A} (value : A -> string) members v x : enum_member value members v = Ok x -> value x = v.
Proof. unfold enum_member. destruct (find _ members) as [y|] eqn:E; [|done]. intros [= <-]. apply find_some in E as [_ E]. by apply String.eqb_eq in E. Qed.

Lemma event_row_inv r e : OrderState._event_from_row r = Ok e -> r = event_values e /\ order_event_valid e.
Proof.
  unfold OrderState._event_from_row, row_event. intros H. apply rbind_ok in H as (e0 & H & Hd). apply rcatch_ok in H.
  apply rbind_ok in H as (t & Ht & H). apply rbind_ok in H as (why & Hw & H). unfold new_order_event in H. apply rbind_ok in H as ([] & Hv & H).
  apply Ok_inj in H. apply raise_if_ok in Hd as [Hd Ho]. apply Ok_inj in Ho. subst e e0. apply negb_false_iff, String.eqb_eq in Hd.
  apply enum_member_value in Ht, Hw. split; [|exact Hv]. unfold event_values. cbn [oe_authorization_sha256 oe_intent_sha256 oe_sequence
    oe_event_time_ms oe_event_type oe_reason oe_previous_event_sha256]. rewrite Ht, Hw, Hd. by destruct r.
Qed.

Lemma state_row_inv r s : OrderState._state_from_row (Some r) = Ok (Some s) -> r = state_values s /\ order_state_valid s.
Proof.
  unfold OrderState._state_from_row, row_state. intros H. apply rbind_ok in H as (s0 & H & Hd). apply rcatch_ok in H.
  apply rbind_ok in H as (t & Ht & H). apply rbind_ok in H as (why & Hw & H). unfold new_order_state in H. apply rbind_ok in H as ([] & Hv & H).
  apply Ok_inj in H. apply raise_if_ok in Hd as [Hd Ho]. apply Ok_inj in Ho. assert (s0 = s) as <- by congruence. subst s0. apply negb_false_iff, String.eqb_eq in Hd.
  apply enum_member_value in Ht, Hw. split; [|exact Hv]. unfold state_values. cbn [os_authorization_sha256 os_intent_sha256 os_sequence
    os_updated_time_ms os_status os_reason os_previous_state_sha256 os_event_sha256]. rewrite Ht, Hw, Hd. by destruct r.
Qed.

Lemma replay_run i rows p es q : replay i rows p = Ok (es, q) -> rows = map event_values es /\ Forall order_event_valid es
  /\ fold_left (fun acc e => let* p := acc in let* s := _next_order_state i p e in Ok (Some s)) es (Ok p) = Ok q.
Proof.
  revert p es. induction rows as [|r rows IH]; intros p es H; cbn [replay] in H; [by injection H as <- <-|].
  apply rbind_ok in H as (e & He & H). apply rbind_ok in H as (t & Ht & H). apply rbind_ok in H as ([es' q'] & Hx & H). cbn [fst snd] in H.
  apply Ok_inj in H. assert (es = e :: es' /\ q = q') as [-> ->] by (split; congruence). clear H.
  destruct (event_row_inv _ _ He) as [-> Hv]. destruct (IH _ _ Hx) as (-> & Hvs & Hr). split; [done|]. split; [by constructor|].
  cbn [fold_left]. unfold apply_local_order_event in Ht. apply rbind_ok in Ht as (s & Hs & Ht). apply rbind_ok in Ht as ([] & _ & Ht). apply Ok_inj in Ht.
  subst t. cbn [rbind]. rewrite Hs. cbn [rbind ot_current] in *. exact Hr.
Qed.

Lemma replay_chain i rows es s : replay i rows None = Ok (es, Some s) -> order_history i es s /\ rows = map event_values es.
Proof.
  intros H. destruct (replay_run _ _ _ _ _ H) as (-> & Hv & Hr). split; [|done]. exact (chained_run (H:=order_chain i) es s Hv Hr).
Qed.

Lemma names_elem {A} (name : A -> string) l h : h ∈ names name l <-> exists x, x ∈ l /\ name x = h.
Proof. unfold names. rewrite elem_of_list_to_set. change (@map A string) with (@fmap list _ A string). rewrite list_elem_of_fmap. naive_solver. Qed.

Section Accepted.
Context {db : portfolio_db}.
Hypothesis Hk : keyed db.
Hypothesis Hv : intents_valid (od_intents (pd_orders db)).
Hypothesis Hc : covered (pd_orders db).
Hypothesis Hr : forall r, r ∈ rows_of (od_states (pd_orders db)) -> exists es s, _load_order (pd_orders db) (sr_authorization_sha256 r) = Ok (es, Some s).

Lemma event_row_keyed h r : r ∈ event_rows (pd_orders db) h <-> exists n, od_events (pd_orders db) !! (h, n) = Some r.
Proof using Hk.
  unfold event_rows. rewrite sort_by_perm, list_elem_of_filter, rows_of_elem. split.
  - intros (<- & [k n] & E). pose proof (kd_events _ Hk _ _ E) as Ek. injection Ek as E1 _. exists n. by rewrite E1.
  - intros (n & E). pose proof (kd_events _ Hk _ _ E) as Ek. injection Ek as E1 _. split; [done|by exists (h, n)].
Qed.

Lemma accepted_log h r : od_states (pd_orders db) !! h = Some r -> exists es s, _load_order (pd_orders db) h = Ok (es, Some s) /\ order_log (pd_orders db) h es (Some s).
Proof using Hk Hv Hr.
  intros E. destruct (Hr r) as (es & s & Hl); [apply rows_of_elem; by exists h|]. rewrite (kd_states _ Hk _ _ E) in Hl. exists es, s. split; [exact Hl|].
  apply load_order_inv in Hl as ((i & Hi & _ & Hrep) & Hs). destruct (replay_chain _ _ _ _ Hrep) as [Hh Hrows].
  unfold _select_state in Hs. rewrite E in Hs. destruct (state_row_inv _ _ Hs) as [Er _].
  constructor; [by exists i|by rewrite E, Er|]. intros n. pose proof (Hv h i Hi) as Hiv.
  pose proof (history_sequence i es s) as Hsq. destruct (od_events (pd_orders db) !! (h, n)) as [x|] eqn:En.
  - assert (x ∈ map event_values es) as Hx by (rewrite <- Hrows; apply event_row_keyed; by exists n).
    apply list_elem_of_fmap in Hx as (e & Ex & He). apply list_elem_of_lookup in He as (k & Ek). specialize (Hsq k e Hiv Hh Ek).
    pose proof (kd_events _ Hk _ _ En) as En2. rewrite Ex in En2. injection En2 as _ En2. rewrite <- En2, Hsq.
    rewrite (proj2 (Z.leb_le 0 _)) by apply Nat2Z.is_nonneg. by rewrite Nat2Z.id, Ek, Ex.
  - destruct (Z.leb_spec 0 n) as [H0|]; [|done]. destruct (es !! Z.to_nat n) as [e|] eqn:Ee; [|done]. exfalso.
    assert (event_values e ∈ event_rows (pd_orders db) h) as Hx by (rewrite Hrows; apply (list_elem_of_fmap_2 event_values); by eapply list_elem_of_lookup_2).
    apply event_row_keyed in Hx as (n' & En'). pose proof (kd_events _ Hk _ _ En') as Ek. injection Ek as _ Ek.
    rewrite (Hsq _ _ Hiv Hh Ee) in Ek. rewrite Z2Nat.id in Ek by done. congruence.
Qed.

Lemma accepted_orders : order_db_inv (pd_orders db)
  /\ forall h i, od_intents (pd_orders db) !! h = Some i -> exists es s, order_log (pd_orders db) h es (Some s).
Proof using Hk Hv Hc Hr.
  assert (forall h i, od_intents (pd_orders db) !! h = Some i -> exists r, od_states (pd_orders db) !! h = Some r) as Hcov.
  { intros h i Hi. assert (h ∈ dom (od_intents (pd_orders db))) as Hd by (apply elem_of_dom; by exists i). rewrite <- (cv_states _ Hc) in Hd.
    apply names_elem in Hd as (r & Hx & Eh). apply rows_of_elem in Hx as (h' & E). exists r. pose proof (kd_states _ Hk _ _ E). congruence. }
  split.
  - constructor; [intros h i Hi; split; [by apply (kd_intents _ Hk)|exact (Hv h i Hi)]|]. intros h.
    destruct (od_states (pd_orders db) !! h) as [r|] eqn:E; [destruct (accepted_log h r E) as (es & s & _ & Hl); by exists es, (Some s)|].
    exists [], None. constructor; [done|by rewrite E|]. intros n. rewrite lookup_nil. destruct (od_events (pd_orders db) !! (h, n)) as [x|] eqn:En; [|by destruct (0 <=? n)].
    exfalso. assert (h ∈ dom (od_intents (pd_orders db))) as Hd.
    { rewrite <- (cv_events _ Hc). apply names_elem. exists x. split; [apply rows_of_elem; by exists (h, n)|]. pose proof (kd_events _ Hk _ _ En) as Ek. by injection Ek. }
    apply elem_of_dom in Hd as (i & Hi). destruct (Hcov h i Hi) as (r & Er). congruence.
  - intros h i Hi. destruct (Hcov h i Hi) as (r & Er). destruct (accepted_log h r Er) as (es & s & _ & Hl). by exists es, s.
Qed.
End Accepted.

(** A fill row describes its event: the columns are equal, the payload is the
    fill's record up to the layout of its text. *)
Record fill_stored (r : fill_row) (e : fill_event) : Prop := {
  fst_columns : fw_event_sha256 r = fill_event_sha256 e /\ fw_sequence r = fe_sequence e /\ fw_authorization_sha256 r = fe_authorization_sha256 e
    /\ fw_intent_sha256 r = fe_intent_sha256 e /\ fw_order_state_sha256 r = fe_order_state_sha256 e /\ fw_step_sha256 r = fe_step_sha256 e
    /\ fw_index r = fe_index e;
  fst_payload : exists payload, fw_payload r = Some payload /\ json_dumps payload = json_dumps (_fill_record (fe_fill e));
}.

Lemma apply_costs_reference r spec f : apply_costs r spec = Ok f -> cf_reference f = r.
Proof.
  unfold apply_costs, new_costed. intros H. apply raise_if_ok in H as [_ H]. apply rbind_ok in H as (x & _ & H). apply rbind_ok in H as (y & _ & H).
  apply rbind_ok in H as (v & _ & H). apply rbind_ok in H as ([] & _ & H). apply Ok_inj in H. by subst f.
Qed.

Lemma fill_row_inv spec r e : Portfolio._event_from_row spec r = Ok e -> fill_event_ok spec e /\ fill_stored r e.
Proof.
  unfold Portfolio._event_from_row, stored_fill. intros H. apply rbind_ok in H as (e0 & H & Hd). apply rcatch_ok in H.
  apply raise_if_ok in Hd as [Hd Ho]. apply Ok_inj in Ho. subst e0. apply negb_false_iff, String.eqb_eq in Hd.
  apply rbind_ok in H as (payload & Hp & H). do 9 apply rbind_ok in H as (? & _ & H).
  apply rbind_ok in H as (ref & Hr & H). apply rbind_ok in H as (f & Hf & H). apply raise_if_ok in H as [Hs H].
  unfold new_fill_event in H. apply rbind_ok in H as ([] & Hv & H). apply Ok_inj in H. pose proof (apply_costs_reference _ _ _ Hf) as Er.
  unfold new_reference in Hr. apply rbind_ok in Hr as ([] & Hrv & Hr). apply Ok_inj in Hr. subst ref. subst e. split.
  - split; [exact Hv|]. cbn [fe_fill]. constructor; [rewrite Er; exact Hrv|rewrite Er; exact Hf].
  - constructor; cbn [fe_sequence fe_authorization_sha256 fe_intent_sha256 fe_order_state_sha256 fe_step_sha256 fe_index fe_fill].
    + repeat split. exact (eq_sym Hd).
    + exists payload. unfold json_loads in Hp. destruct (fw_payload r); [|done]. apply Ok_inj in Hp. subst. split; [reflexivity|].
      apply negb_false_iff in Hs. unfold json_same in Hs. apply bool_decide_eq_true in Hs. exact (eq_sym Hs).
Qed.

(** ** A sound durable state *)

Record sound_state (spec : backtest_spec) (db : portfolio_db) (events : list fill_event) (l : ledger) : Prop := {
  ss_orders : order_db_inv (pd_orders db);
  ss_lives : forall h i, od_intents (pd_orders db) !! h = Some i -> exists es s, order_log (pd_orders db) h es (Some s);
  ss_symbol : only_symbol db (bs_symbol spec);
  ss_rows : Forall2 fill_stored (fill_rows db (bs_symbol spec)) events;
  ss_events : Forall (fill_event_ok spec) events /\ map fe_sequence events = seqZ 0 (Z.of_nat (length events));
  ss_bound : Forall (event_bound (pd_orders db)) events;
  ss_ledger : replayed spec (map fe_fill events) l;
  ss_projection : exists p, projected spec events l (pd_portfolios db !! bs_symbol spec) p;
}.

Lemma ledger_replayed spec events l : spec_valid spec -> ledger_of spec events l -> replayed spec (map fe_fill events) l.
Proof.
  intros Hs (fresh & Hf & Hl). exists fresh. split; [exact Hf|]. destruct events as [|e events]; [by subst l|].
  pose proof (replay_fills_inv spec (map fe_fill (e :: events)) fresh Hs) as H. rewrite Hl in H. apply H.
Qed.

Lemma consistent_sound f spec journal orders portfolio events : spec_valid spec -> keyed (ef_db f) -> consistent f spec journal orders portfolio events ->
  exists l, sound_state spec (ef_db f) events l.
Proof.
  intros Hs Hk [Hsch Hj Ho Hp Hev Hc Hos Hb]. apply canonical_json_iff in Hj as [Hv _]. apply orders_json_iff in Ho as (entries & Hen & _).
  destruct (accepted_orders Hk Hv Hc) as [H1 H2].
  { intros r Hr. rewrite <- order_rows_perm in Hr. apply list_elem_of_lookup in Hr as (k & Er).
    destruct (Forall2_lookup_l _ _ _ _ _ Hen Er) as ([s j] & _ & (es & Hl & _)). by exists es, s. }
  unfold portfolio_events in Hev. apply rbind_ok in Hev as ([[evs l] p] & Hl & E). cbn [fst] in E. apply Ok_inj in E. subst evs.
  apply load_iff in Hl as (Hr & Hsq & Hle & Hpr). rewrite rmap_ok in Hr. exists l.
  constructor; [exact H1|exact H2|exact Hos| | |exact Hb|exact (ledger_replayed _ _ _ Hs Hle)|exists p; exact Hpr].
  - eapply Forall2_impl; [exact Hr|]. intros r e He. exact (proj2 (fill_row_inv _ _ _ He)).
  - split; [|exact Hsq]. clear - Hr. induction Hr as [|r e rs es He _ IH]; constructor; [exact (proj1 (fill_row_inv _ _ _ He))|exact IH].
Qed.

(** ** The outcome of startup *)

Lemma failed_code_value e c : failed_code e = Some c -> c ∈ FAILURES.
Proof. unfold failed_code. destruct (bool_decide _); [|done]. intros H. apply find_some in H as [H _]. by apply list_elem_of_In. Qed.

Lemma failures_not_match c : c ∈ FAILURES -> c <> MATCH.
Proof. unfold FAILURES. rewrite !elem_of_cons, elem_of_nil. intros H ->. naive_solver. Qed.

Lemma readiness_of_report r : report_post_init r = Ok tt -> readiness_valid (report_readiness r).
Proof.
  intros _. unfold readiness_valid, readiness_post_init, report_readiness. assert (sha256_pattern (report_sha256 r) = true) as H by apply digest_pattern.
  destruct (rp_ready r); cbn [rd_status rdn_reason reconciliation_sha256 valid_digest]; by rewrite H.
Qed.

(** A startup that is not READY reports a failure and no evidence. *)
Definition failure_of (spec : backtest_spec) (r : reconciliation_report) : Prop :=
  exists c, c <> MATCH /\ r = StartupReconciliationReport false c (Some (spec_sha256 spec)) 0 0 0 None None None.

Lemma failed_report spec c r : c ∈ FAILURES -> _failure c (Some (spec_sha256 spec)) = Ok r -> failure_of spec r.
Proof.
  intros Hc H. pose proof (failures_not_match c Hc) as Hn. rewrite (failure_valid c _ Hn (spec_sha256_pattern spec)) in H. apply Ok_inj in H.
  exists c. by split.
Qed.

Lemma startup_cases path spec r : reconcile_startup path spec = Ok r ->
  (exists f, path = Opened f /\ reconcile f spec = Ok r) \/ failure_of spec r.
Proof.
  intros H. destruct path as [| |f]; cbn [reconcile_startup] in H.
  - right. eapply failed_report; [|exact H]. in_list.
  - right. eapply failed_report; [|exact H]. in_list.
  - destruct (reconcile f spec) as [r'|e] eqn:E; [left; exists f; split; [done|]; congruence|].
    destruct (failed_code e) as [c|] eqn:Ec; [|done]. right. eapply failed_report; [|exact H]. by eapply failed_code_value.
Qed.

Lemma consistent_ready f spec journal orders portfolio events : rp_ready (consistent_report f spec journal orders portfolio events) = true.
Proof. reflexivity. Qed.

(** ** What startup can raise

    Every exception of a reader becomes the failure code of its except clauses, but
    for one: the decimal error of a stored portfolio snapshot. *)

Lemma errs_sub {A} L L' (m : result A) : forallb (fun c => bool_decide (c ∈ L')) L = true -> errs (of_class L) m -> errs (of_class L') m.
Proof.
  intros H. apply errs_weaken. intros e He. unfold of_class in *. rewrite forallb_forall in H. apply (bool_decide_eq_true_1 (exn_cls e ∈ L')). by apply H, list_elem_of_In.
Qed.

Lemma intent_errs i : errs (of_class [ExecutionJournalError]) (intent_post_init i).
Proof. unfold intent_post_init. errs_run. Qed.

Lemma new_intent_errs i : errs (of_class [ExecutionJournalError]) (new_intent_record i).
Proof. unfold new_intent_record. errs_run. apply intent_errs. Qed.

Lemma enum_errs {A} (value : A -> string) members v : errs (of_class [ValueError]) (enum_member value members v).
Proof. unfold enum_member. errs_run. Qed.

Lemma row_event_errs r : errs (of_class ORDER_ERRORS) (row_event r).
Proof.
  unfold row_event, new_order_event, order_event_post_init. errs_run; apply (errs_sub [ValueError]); [done|apply enum_errs|done|apply enum_errs].
Qed.

Lemma new_state_errs s : errs (of_class [LocalOrderError]) (new_order_state s).
Proof. unfold new_order_state, order_state_post_init. errs_run. Qed.

Lemma row_state_errs r : errs (of_class ORDER_ERRORS) (row_state r).
Proof.
  unfold row_state. errs_run; [apply (errs_sub [ValueError]); [done|apply enum_errs]..|]. by apply (errs_sub [LocalOrderError]), new_state_errs.
Qed.

Lemma next_state_errs i p e : errs (of_class ORDER_ERRORS) (_next_order_state i p e).
Proof.
  unfold _next_order_state, _validate_intent. errs_run.
  - apply errs_catch; [|unfold of_class; cbn [exn_cls]; in_list]. eapply errs_weaken; [|apply intent_errs]. intros x Hx. left.
    unfold of_class in *. apply list_elem_of_singleton in Hx as ->. in_list.
  - apply errs_catch; [|unfold of_class; cbn [exn_cls]; in_list]. eapply (errs_weaken _ (of_class [LocalOrderError])).
    + intros x Hx. left. unfold of_class in *. apply list_elem_of_singleton in Hx as ->. in_list.
    + unfold order_state_post_init. errs_run.
  - by apply (errs_sub [LocalOrderError]), new_state_errs.
Qed.

Lemma apply_event_errs i p e : errs (of_class ORDER_ERRORS) (apply_local_order_event i p e).
Proof. unfold apply_local_order_event, order_transition_post_init. errs_run; apply next_state_errs. Qed.

Definition payload_errors : list exn_class := [KeyError; TypeError].
Lemma json_get_errs j k : errs (of_class payload_errors) (json_get j k).
Proof. unfold json_get. errs_run. Qed.
Lemma get_text_errs j k : errs (of_class payload_errors) (get_text j k).
Proof. unfold get_text, json_text. errs_run. apply json_get_errs. Qed.
Lemma get_number_errs j k : errs (of_class payload_errors) (get_number j k).
Proof. unfold get_number, json_number. errs_run. apply json_get_errs. Qed.
Lemma json_loads_errs p : errs (of_class [ValueError]) (json_loads p).
Proof. unfold json_loads. errs_run. Qed.

Lemma Decimal_errs s : errs (of_class [ArithmeticTrap]) (Decimal s).
Proof.
  unfold Decimal, text_dec, unsigned_dec, dec_of_parts. destruct (txt s) as [|c l]; [errs_run|].
  destruct (Ascii.eqb c minus_sign); destruct (split_dot _) as [i [f|]]; destruct (_ && _); errs_run.
Qed.

Lemma get_decimal_errs j k : errs (of_class (ArithmeticTrap :: payload_errors)) (get_decimal j k).
Proof.
  unfold get_decimal. errs_run; [by apply (errs_sub payload_errors), json_get_errs|by apply (errs_sub [ArithmeticTrap]), Decimal_errs].
Qed.

Lemma reference_errs r : errs (of_class [FillModelError]) (new_reference r).
Proof.
  assert (forall v f, errs (of_class [FillModelError]) (Fills._positive_decimal v f)) as Hp.
  { intros v f. unfold Fills._positive_decimal. errs_run. apply errs_catch; [|unfold of_class; cbn [exn_cls]; in_list].
    eapply errs_weaken; [|apply Decimal_errs]. by left. }
  unfold new_reference, reference_post_init. errs_run; apply Hp.
Qed.

(** The costs of a valid reference never trap. *)
Lemma costs_errs spec r : spec_valid spec -> reference_valid r -> errs (of_class [CostModelError]) (apply_costs r spec).
Proof.
  intros Hs Hr. destruct (String.eqb_spec (fr_symbol r) (bs_symbol spec)) as [E|E].
  - destruct (apply_costs_exact r spec Hr Hs E) as (q & p & f & s & fill & -> & _). apply errs_ok.
  - unfold apply_costs. rewrite (proj2 (String.eqb_neq _ _) E). cbn [negb]. errs_run.
Qed.

Lemma stored_fill_errs changed spec r : spec_valid spec -> errs (fun e => of_class FILL_ERRORS e \/ e = changed) (stored_fill changed spec r).
Proof.
  intros Hs. assert (forall A L (m : result A), errs (of_class L) m -> forallb (fun c => bool_decide (c ∈ FILL_ERRORS)) L = true ->
    errs (fun e => of_class FILL_ERRORS e \/ e = changed) m) as Hw.
  { intros A L m Hm HL. eapply errs_weaken; [|exact (errs_sub L FILL_ERRORS m HL Hm)]. by left. }
  unfold stored_fill. errs_run; try (eapply Hw; [first [apply json_loads_errs|apply get_text_errs|apply get_number_errs|apply enum_errs|apply reference_errs]|reflexivity]).
  - eapply Hw; [apply costs_errs; [done|]|reflexivity].
    match goal with H : new_reference _ = Ok ?a |- reference_valid ?a => unfold new_reference in H; apply rbind_ok in H as ([] & Hv & H); apply Ok_inj in H; by subst end.
  - eapply (Hw _ [LocalPaperPortfolioError]); [|reflexivity]. unfold new_fill_event, fill_event_post_init. errs_run.
Qed.

(** The failure of a code, or the escape of a decimal error. *)
Definition fails (e : exn) : Prop := exists c, c ∈ FAILURES /\ e = failed c.

Lemma fails_failed c : c ∈ FAILURES -> fails (failed c).
Proof. intros Hc. by exists c. Qed.

Lemma caught_fails {A} cls c (m : result A) : errs (of_class cls) m -> c ∈ FAILURES -> errs fails (rcatch m cls (failed c)).
Proof. intros Hm Hc. apply errs_catch; [eapply errs_weaken; [|exact Hm]; by left|by apply fails_failed]. Qed.

Lemma recon_event_errs r : errs fails (recon_event r).
Proof.
  unfold recon_event. errs_run; [|apply fails_failed; in_list]. apply caught_fails; [|in_list]. by apply (errs_sub ORDER_ERRORS), row_event_errs.
Qed.

Lemma recon_state_errs r : errs fails (recon_state r).
Proof.
  unfold recon_state. errs_run; [|apply fails_failed; in_list]. apply caught_fails; [|in_list]. by apply (errs_sub ORDER_ERRORS), row_state_errs.
Qed.

Lemma replay_rows_errs i rows p : errs fails (replay_rows i rows p).
Proof.
  revert p. induction rows as [|r rows IH]; intros p; cbn [replay_rows]; errs_run; [apply recon_event_errs| |apply IH].
  apply caught_fails; [apply apply_event_errs|in_list].
Qed.

Lemma load_order_errs db intents r : errs fails (load_order db intents r).
Proof.
  unfold load_order. errs_run; [apply replay_rows_errs|apply recon_state_errs|apply fails_failed; in_list..].
Qed.

Lemma load_orders_errs db intents : errs fails (_load_orders db intents).
Proof.
  unfold _load_orders. errs_run; [apply fails_failed; in_list|]. apply errs_rmap. intros r _. apply load_order_errs.
Qed.

Lemma load_intents_errs rows : errs fails (_load_intents rows).
Proof.
  unfold _load_intents. errs_run; [|apply fails_failed; in_list]. apply caught_fails; [|in_list].
  apply errs_rmap. intros r _. by apply (errs_sub [ExecutionJournalError]), new_intent_errs.
Qed.

Lemma schema_errs f : errs fails (_require_schema f).
Proof. unfold _require_schema. errs_run; apply fails_failed; in_list. Qed.

Lemma recon_fill_errs spec r : spec_valid spec -> errs fails (recon_fill spec r).
Proof.
  intros Hs. unfold recon_fill. errs_run; [|apply fails_failed; in_list]. apply errs_catch; [|apply fails_failed; in_list].
  eapply errs_weaken; [|by apply (stored_fill_errs (failed FILL_INVALID))]. intros e [H|H]; [by left|right]. subst e. apply fails_failed. in_list.
Qed.

Definition DECODE_ERRORS : list exn_class := LocalPaperPortfolioError :: DuplicateLocalPaperFill :: KeyError :: VALUE_ERRORS.

Lemma snapshot_record_errs j : errs (of_class [ArithmeticTrap; LocalPaperPortfolioError]) (_snapshot_from_record j).
Proof.
  unfold _snapshot_from_record. apply errs_catch; [|unfold of_class; cbn [exn_cls]; in_list].
  apply (errs_weaken _ (of_class [ArithmeticTrap; KeyError; PortfolioError; TypeError; ValueError])).
  { intros e He. unfold of_class in *. rewrite !elem_of_cons, elem_of_nil in *. tauto. }
  errs_run; try (by apply (errs_sub payload_errors), get_text_errs); try (by apply (errs_sub payload_errors), get_number_errs);
    try (by apply (errs_sub (ArithmeticTrap :: payload_errors)), get_decimal_errs).
  unfold portfolio_snapshot_post_init. errs_run.
Qed.

Lemma stored_projection_errs r : errs (of_class (ArithmeticTrap :: DECODE_ERRORS)) (stored_projection r).
Proof.
  unfold stored_projection, new_projection, projection_post_init. errs_run;
    first [by apply (errs_sub [ValueError]), json_loads_errs|by apply (errs_sub payload_errors), get_text_errs|by apply (errs_sub payload_errors), get_number_errs
      |by apply (errs_sub payload_errors), json_get_errs|by apply (errs_sub [ArithmeticTrap; LocalPaperPortfolioError]), snapshot_record_errs].
Qed.

(** The decimal error of a stored projection. *)
Definition undecodable (db : portfolio_db) (e : exn) : Prop :=
  exn_cls e = ArithmeticTrap /\ exists r, r ∈ rows_of (pd_portfolios db) /\ stored_projection r = Err e.
Definition escapes (db : portfolio_db) (e : exn) : Prop := fails e \/ undecodable db e.

Lemma recon_projection_errs db spec events l : (forall mark, errs (of_class [PortfolioError]) (Ledger.snapshot spec l mark)) ->
  errs (escapes db) (recon_projection spec events l (rows_of (pd_portfolios db))).
Proof.
  intros Hsn. assert (forall A (m : result A), errs fails m -> errs (escapes db) m) as Hf by (intros A m; apply errs_weaken; by left).
  assert (forall c, c ∈ FAILURES -> escapes db (failed c)) as Hc by (intros c Hc; left; by apply fails_failed).
  unfold recon_projection. destruct (last events) as [e|]; [|destruct (rows_of _); errs_run; apply Hc; in_list].
  remember (rows_of (pd_portfolios db)) as rows eqn:Er. destruct rows as [|r [|r' rows]]; [errs_run; apply Hc; in_list| |errs_run; apply Hc; in_list].
  apply errs_raise_if; [apply Hc; in_list|intros _]. apply errs_bind.
  - pose proof (stored_projection_errs r) as H. destruct (stored_projection r) as [x|x] eqn:Ex; [apply errs_ok|]. cbn [rcatch].
    specialize (H x eq_refl). unfold of_class in H. apply elem_of_cons in H as [H|H].
    + rewrite bool_decide_false by (rewrite H; apply (bool_decide_unpack _); reflexivity). apply errs_err. right. split; [done|]. exists r. split; [rewrite <- Er; apply list_elem_of_here|done].
    + rewrite bool_decide_true by done. apply errs_err, Hc. in_list.
  - intros [p payload] _. apply errs_raise_if; [apply Hc; in_list|intros _]. apply errs_bind.
    + apply Hf, caught_fails; [apply Hsn|in_list].
    + intros s _. apply errs_raise_if; [apply Hc; in_list|intros _]. apply errs_ok.
Qed.

Lemma load_portfolio_errs db spec intents states : spec_valid spec -> errs (escapes db) (_load_portfolio db spec intents states).
Proof.
  intros Hs. assert (forall c, c ∈ FAILURES -> escapes db (failed c)) as Hc by (intros c Hc; left; by apply fails_failed).
  destruct (spec_valid_facts _ Hs) as [_ _ _ _ (c & _ & _ & Hcash & _) _].
  unfold _load_portfolio. cbv zeta. apply errs_raise_if; [apply Hc; in_list|intros _]. apply errs_bind.
  { apply (errs_weaken _ fails); [by left|]. apply errs_rmap. intros r _. by apply recon_fill_errs. }
  intros events Hev. do 2 (apply errs_raise_if; [apply Hc; in_list|intros _]). apply errs_bind.
  { apply (errs_weaken _ fails); [by left|]. apply caught_fails; [|in_list]. unfold new_ledger. rewrite Hcash. cbn [rbind].
    assert (forall fs l, errs (of_class [PortfolioError]) (replay_fills spec fs l)) as Hr.
    { intros fs l e E. pose proof (replay_fills_inv spec fs l Hs) as H. rewrite E in H. unfold of_class. rewrite H. in_list. }
    destruct events; [apply errs_ok|apply Hr]. }
  intros l Hl. apply errs_bind; [|intros p _; apply errs_ok]. apply recon_projection_errs. intros mark e E.
  apply rcatch_ok in Hl. apply rbind_ok in Hl as (fresh & Hf & Hl).
  assert (ledger_of spec events l) as Hle by (exists fresh; split; [exact Hf|]; destruct events; [by apply Ok_inj in Hl|exact Hl]).
  pose proof (ledger_replayed spec events l Hs Hle) as Hrep. assert (Forall (fill_event_ok spec) events) as Hok.
  { rewrite rmap_ok in Hev. clear - Hev. induction Hev as [|r e rs es He _ IH]; constructor; [exact (proj1 (fill_row_inv spec r e (proj1 (recon_fill_ok spec r e) He)))|exact IH]. }
  unfold of_class. rewrite (Portfolio.snapshot_error spec c l mark e Hs Hcash); [in_list|..|exact E].
  - eapply replayed_reachable; [|exact Hrep]. by apply events_fills_ok.
  - rewrite (replayed_length _ _ _ Hrep), length_map. destruct events as [|x events]; [unfold FILL_BOUND; cbn; lia|].
    pose proof (replay_fills_inv spec (map fe_fill (x :: events)) fresh Hs) as H. rewrite Hl in H. destruct H as [_ [_ H]]. rewrite length_map in H. unfold MAX_LEDGER_BATCH, FILL_BOUND in *. lia.
Qed.

Lemma reconcile_errs f spec : spec_valid spec -> errs (escapes (ef_db f)) (reconcile f spec).
Proof.
  intros Hs. unfold reconcile. apply errs_bind; [apply (errs_weaken _ fails); [by left|apply schema_errs]|intros [] _].
  apply errs_bind; [apply (errs_weaken _ fails); [by left|apply load_intents_errs]|intros intents _].
  apply errs_bind; [apply (errs_weaken _ fails); [by left|apply load_orders_errs]|intros states _].
  apply errs_bind; [by apply load_portfolio_errs|intros events _]. unfold _canonical_digest.
  pose proof (ready_report_valid spec (size (fst intents)) (size (fst states)) (length (fst events)) (json_dumps (snd intents) ++ [chr 10])
    (json_dumps (snd states) ++ [chr 10]) (json_dumps (snd events) ++ [chr 10])) as Hv.
  unfold new_report. unfold ready_report in Hv. rewrite Hv. apply errs_ok.
Qed.

Lemma startup_escapes f spec e : spec_valid spec -> reconcile_startup (Opened f) spec = Err e -> undecodable (ef_db f) e.
Proof.
  intros Hs H. cbn [reconcile_startup] in H. destruct (reconcile f spec) as [r|x] eqn:E; [done|].
  destruct (reconcile_errs f spec Hs x E) as [(c & Hc & ->)|Hu].
  - assert (failed_code (failed c) = Some c) as Ec by (unfold FAILURES in Hc; rewrite !elem_of_cons, elem_of_nil in Hc; destruct c; try reflexivity; naive_solver).
    rewrite Ec, (failure_valid c _ (failures_not_match c Hc) (spec_sha256_pattern spec)) in H. discriminate H.
  - assert (failed_code x = None) as Ec by (unfold failed_code; destruct Hu as [-> _]; done). rewrite Ec in H. injection H as <-. exact Hu.
Qed.

(** ** Startup on the tables the stores write *)

(** Every journalled intent has its order. *)
Definition complete (db : order_db) : Prop := forall h, od_intents db !! h <> None -> od_states db !! h <> None.

Lemma inv_keyed db : portfolio_inv db -> keyed db.
Proof.
  intros Hdb. constructor.
  - intros h r E. by destruct (odi_intents _ (pi_orders _ Hdb) h r E).
  - intros k r E. by destruct (stored_event _ k r (pi_orders _ Hdb) E) as (e & -> & _ & ->).
  - intros h r E. by destruct (stored_state _ h r (pi_orders _ Hdb) E) as (s & -> & _ & <-).
  - intros h r E. by destruct (pi_portfolios _ Hdb h r E) as (p & -> & _).
Qed.

Lemma history_nonempty i es s : order_history i es s -> exists e, es !! 0%nat = Some e.
Proof.
  intros H. assert (es <> []) as Hn by (destruct H as [|es' p e s' _ _ _]; [done|by destruct es']). destruct es as [|e es]; [done|by exists e].
Qed.

Lemma inv_covered db : order_db_inv db -> covered db <-> complete db.
Proof.
  intros Hdb. split.
  - intros [Hs _] h Hi. assert (h ∈ dom (od_intents db)) as Hd by (apply elem_of_dom; destruct (od_intents db !! h); [by eexists|done]).
    rewrite <- Hs in Hd. apply names_elem in Hd as (r & Hr & <-). apply rows_of_elem in Hr as (h & E).
    destruct (stored_state db h r Hdb E) as (s & -> & _ & <-). cbn. congruence.
  - intros Hc. assert (forall h s es, order_log db h es (Some s) -> h ∈ dom (od_intents db)) as Hlog.
    { intros h s es [(i & Hi & _) _ _]. apply elem_of_dom. by exists i. }
    assert (forall h, h ∈ dom (od_intents db) -> exists es s, order_log db h es (Some s)) as Hin.
    { intros h Hd. apply elem_of_dom in Hd as (i & Hi). destruct (odi_logs _ Hdb h) as (es & [s|] & Hl); [by exists es, s|].
      exfalso. apply (Hc h); [congruence|]. by rewrite (ol_state _ _ _ _ Hl). }
    constructor; apply set_eq; intros h; rewrite names_elem; split.
    + intros (r & Hr & <-). apply rows_of_elem in Hr as (h & E). destruct (stored_state db h r Hdb E) as (s & Er & _ & Es).
      assert (sr_authorization_sha256 r = h) as -> by by rewrite Er. destruct (odi_logs _ Hdb h) as (es & [s'|] & Hl); [by eapply Hlog|].
      rewrite (ol_state _ _ _ _ Hl) in E. done.
    + intros Hd. destruct (Hin h Hd) as (es & s & Hl). exists (state_values s). split; [apply rows_of_elem; exists h; by rewrite (ol_state _ _ _ _ Hl)|].
      assert (od_states db !! h = Some (state_values s)) as E by by rewrite (ol_state _ _ _ _ Hl).
      destruct (stored_state db h _ Hdb E) as (s' & Es & _ & <-). pose proof (f_equal sr_authorization_sha256 Es) as Ea. exact Ea.
    + intros (r & Hr & <-). apply rows_of_elem in Hr as ([h n] & E). destruct (stored_event db _ r Hdb E) as (e & -> & _ & Ek). injection Ek as -> ->. cbn.
      destruct (odi_logs _ Hdb (oe_authorization_sha256 e)) as (es & [s|] & Hl); [by eapply Hlog|].
      exfalso. rewrite (ol_events _ _ _ _ Hl) in E. rewrite (ol_history _ _ _ _ Hl), lookup_nil in E. by destruct (0 <=? _).
    + intros Hd. destruct (Hin h Hd) as (es & s & Hl). pose proof (ol_history _ _ _ _ Hl) as (i & _ & Hh). destruct (history_nonempty _ _ _ Hh) as (e & Ee).
      pose proof (log_row db h es _ 0 e Hl Ee) as Er. exists (event_values e). split; [apply rows_of_elem; by eexists|].
      destruct (stored_event db _ _ Hdb Er) as (e' & Ev & _ & Ek). injection Ek as -> _. exact (f_equal er_authorization_sha256 Ev).
Qed.

Lemma Forall2_exists {A B} (P : A -> B -> Prop) l : (forall x, x ∈ l -> exists y, P x y) -> exists k, Forall2 P l k.
Proof.
  induction l as [|x l IH]; intros H; [by exists []|]. destruct (H x) as (y & Hy); [apply list_elem_of_here|].
  destruct IH as (k & Hl); [intros z Hz; by apply H, list_elem_of_further|]. exists (y :: k). by constructor.
Qed.

Lemma inv_entries db : order_db_inv db -> exists entries, Forall2 (order_entry db) (order_rows db) entries.
Proof.
  intros Hdb. apply Forall2_exists. intros r Hr. rewrite order_rows_perm in Hr. apply rows_of_elem in Hr as (h & E).
  destruct (stored_state db h r Hdb E) as (s & Er & _ & Es). assert (sr_authorization_sha256 r = h) as Eh by by rewrite Er.
  destruct (odi_logs _ Hdb h) as (es & st & Hl). pose proof (ol_history _ _ _ _ Hl) as Hh. destruct st as [s'|]; [|rewrite (ol_state _ _ _ _ Hl) in E; done].
  destruct Hh as (i & Hi & _). exists (s', order_json h es s'). exists es. rewrite Eh. split; [|done]. cbn [fst]. by eapply load_order_log.
Qed.

Section Startup.
Context {spec : backtest_spec} {c : dec} {f : execution_file} {fs : list fill_event} {l : ledger} {pr : option portfolio_projection}.
Hypothesis Hspec : spec_valid spec.
Hypothesis Hcash : cash_decimal spec = Ok c.
Hypothesis Hsch : schema_ok f.
Hypothesis Hdb : portfolio_inv (ef_db f).
Hypothesis Hb : book spec (ef_db f) fs l pr.

Lemma book_bound : Forall (event_bound (pd_orders (ef_db f))) fs.
Proof using Hdb Hb.
  apply Forall_forall. intros e He.
  assert (fill_values (bs_symbol spec) e ∈ map (fill_values (bs_symbol spec)) fs) as Hin by by apply (list_elem_of_fmap_2 (fill_values (bs_symbol spec))).
  apply (bo_rows _ _ _ _ _ Hb) in Hin as [Hin _]. destruct (pi_active _ Hdb _ Hin) as (o & Eo & Hsha & Hact & Hint & t & Ht & Hlt).
  change (fw_authorization_sha256 (fill_values (bs_symbol spec) e)) with (fe_authorization_sha256 e) in Eo.
  change (fw_order_state_sha256 (fill_values (bs_symbol spec) e)) with (fe_order_state_sha256 e) in Hsha.
  change (fw_intent_sha256 (fill_values (bs_symbol spec) e)) with (fe_intent_sha256 e) in Hint.
  assert (t = fill_time_ms (cf_reference (fe_fill e))) as -> by (apply Ok_inj; rewrite <- Ht; reflexivity).
  destruct (odi_logs _ (pi_orders _ Hdb) (fe_authorization_sha256 e)) as (es & st & Hl). pose proof (ol_state _ _ _ _ Hl) as Es. rewrite Eo in Es.
  destruct st as [s|]; [|done]. cbn [fmap option_fmap option_map] in Es. assert (state_values o = state_values s) as Ev by (by apply (inj Some)).
  pose proof (ol_history _ _ _ _ Hl) as (i & Hi & Hh). destruct (odi_intents _ (pi_orders _ Hdb) _ _ Hi) as [_ Hiv].
  destruct (order_history_summary i es s Hiv Hh) as [_ (_ & _ & Hos) _ _ _].
  exists i, es, s. split; [done|]. split; [by eapply load_order_log; [apply Hdb|..]|].
  pose proof (f_equal sr_intent_sha256 Ev) as E1. pose proof (f_equal sr_state_sha256 Ev) as E2. pose proof (f_equal sr_status Ev) as E3.
  pose proof (f_equal sr_updated_time_ms Ev) as E4. unfold state_values in E1, E2, E3, E4.
  cbn [sr_intent_sha256 sr_state_sha256 sr_status sr_updated_time_ms] in E1, E2, E3, E4. apply order_status_value_inj in E3.
  split; [congruence|]. split; [congruence|]. split; [congruence|lia].
Qed.

Definition long : Prop := MAX_LEDGER_BATCH < Z.of_nat (length fs).

Lemma book_consistent : complete (pd_orders (ef_db f)) -> only_symbol (ef_db f) (bs_symbol spec) -> ~ long ->
  exists journal orders portfolio, consistent f spec journal orders portfolio fs.
Proof using All.
  intros Hc Hos Hn. unfold long in Hn. destruct (load_book Hspec Hcash Hdb Hb) as (q & Hl & _); [lia|].
  destruct (inv_entries _ (pi_orders _ Hdb)) as (entries & Hen).
  eexists _, _, _. constructor; [exact Hsch| | | | |by apply inv_covered; [apply Hdb|]|exact Hos|exact book_bound].
  - apply canonical_json_iff. split; [|reflexivity]. intros h r E. by destruct (odi_intents _ (pi_orders _ Hdb) h r E).
  - apply orders_json_iff. exists entries. exact (conj Hen eq_refl).
  - apply portfolio_json_iff. exists fs, l, q. exact (conj Hl eq_refl).
  - unfold portfolio_events. rewrite Hl. reflexivity.
Qed.

Lemma book_intents : _load_intents (od_intents (pd_orders (ef_db f))) = Ok (od_intents (pd_orders (ef_db f)), journal_payload (od_intents (pd_orders (ef_db f)))).
Proof using Hdb.
  apply load_intents_iff; [exact (kd_intents _ (inv_keyed _ Hdb))|]. split; [|done].
  intros h r E. by destruct (odi_intents _ (pi_orders _ Hdb) h r E).
Qed.

Lemma book_incomplete : ~ complete (pd_orders (ef_db f)) -> reconcile f spec = Err (failed ORDER_COVERAGE_MISMATCH).
Proof using Hsch Hdb.
  intros Hn. unfold reconcile. rewrite (proj2 (require_schema_iff f) Hsch). cbn [rbind]. rewrite book_intents. cbn [rbind fst].
  unfold _load_orders. fold (order_rows (pd_orders (ef_db f))).
  destruct (negb _ || negb _) eqn:E; [done|]. apply covered_tests in E. destruct Hn. by apply (inv_covered _ (pi_orders _ Hdb)).
Qed.

Lemma book_portfolio : complete (pd_orders (ef_db f)) -> forall e,
  (forall states, stored_states (pd_orders (ef_db f)) states -> _load_portfolio (ef_db f) spec (od_intents (pd_orders (ef_db f))) states = Err e) ->
  reconcile f spec = Err e.
Proof using Hsch Hdb.
  intros Hc e He. unfold reconcile. rewrite (proj2 (require_schema_iff f) Hsch). cbn [rbind]. rewrite book_intents. cbn [rbind fst].
  destruct (inv_entries _ (pi_orders _ Hdb)) as (entries & Hen).
  assert (intents_valid (od_intents (pd_orders (ef_db f)))) as Hv by (intros h r E; by destruct (odi_intents _ (pi_orders _ Hdb) h r E)).
  rewrite (proj2 (load_orders_iff _ (order_states _ entries, orders_payload entries) (kd_states _ (inv_keyed _ Hdb)) Hv))
    by (split; [by apply (inv_covered _ (pi_orders _ Hdb))|]; exists entries; exact (conj Hen eq_refl)). cbn [rbind fst].
  destruct (order_states_spec _ _ (kd_states _ (inv_keyed _ Hdb)) Hen) as [_ Hst]. by rewrite (He _ Hst).
Qed.

Lemma book_other_fill : complete (pd_orders (ef_db f)) -> (exists r, r ∈ rows_of (pd_fills (ef_db f)) /\ fw_symbol r <> bs_symbol spec) ->
  reconcile f spec = Err (failed FILL_INVALID).
Proof using Hsch Hdb.
  intros Hc (r & Hr & Hn). apply book_portfolio; [done|]. intros states _. unfold _load_portfolio.
  assert (existsb (fun r => negb (String.eqb (fw_symbol r) (bs_symbol spec))) (sort_by fw_sequence (rows_of (pd_fills (ef_db f)))) = true) as ->; [|done].
  apply existsb_exists. exists r. split; [apply list_elem_of_In; by rewrite sort_by_perm|by apply negb_true_iff, String.eqb_neq].
Qed.

Hypothesis Hown : forall r, r ∈ rows_of (pd_fills (ef_db f)) -> fw_symbol r = bs_symbol spec.

Lemma book_portfolio_steps states : covered (pd_orders (ef_db f)) -> stored_states (pd_orders (ef_db f)) states ->
  _load_portfolio (ef_db f) spec (od_intents (pd_orders (ef_db f))) states =
  if MAX_LEDGER_BATCH <? Z.of_nat (length fs) then Err (failed FILL_INVALID) else
  let* p := recon_projection spec fs l (rows_of (pd_portfolios (ef_db f))) in Ok (fs, portfolio_payload spec fs p).
Proof using Hspec Hdb Hb Hown.
  intros Hc Hst. unfold _load_portfolio.
  assert (existsb (fun r => negb (String.eqb (fw_symbol r) (bs_symbol spec))) (sort_by fw_sequence (rows_of (pd_fills (ef_db f)))) = false) as ->.
  { apply not_true_iff_false. rewrite existsb_exists. intros (r & Hr & Hn). apply list_elem_of_In in Hr. rewrite sort_by_perm in Hr.
    by rewrite (Hown r Hr), String.eqb_refl in Hn. }
  rewrite (only_fill_rows _ _ Hown), (fill_rows_book _ _ _ _ _ Hdb Hb).
  assert (rmap (recon_fill spec) (map (fill_values (bs_symbol spec)) fs) = Ok fs) as ->.
  { pose proof (rows_read spec fs (bo_events _ _ _ _ _ Hb)) as H. rewrite rmap_ok in H |- *. eapply Forall2_impl; [exact H|].
    intros r e He. exact (proj2 (recon_fill_ok spec r e) He). }
  cbn [rbind]. rewrite bool_decide_true by exact (bo_sequence _ _ _ _ _ Hb). cbn [negb].
  rewrite (proj2 (fill_bound_event _ _ _ Hst Hc)) by exact book_bound. cbn [negb].
  destruct (bo_ledger _ _ _ _ _ Hb) as (fresh & Hf & Hl). rewrite Hf. cbn [rbind].
  destruct (Z.ltb_spec MAX_LEDGER_BATCH (Z.of_nat (length fs))) as [Hlen|Hlen].
  - destruct fs as [|e fs']; [cbn [length] in Hlen; exfalso; unfold MAX_LEDGER_BATCH in Hlen; lia|].
    destruct (replay_fills_long spec (map fe_fill (e :: fs')) fresh) as (m & ->); [by rewrite length_map|]. done.
  - assert (match fs with [] => Ok fresh | _ => replay_fills spec (map fe_fill fs) fresh end = Ok l) as ->; [|done].
    destruct fs as [|e fs']; [by injection Hl as ->|]. apply replay_fills_ok; [exact Hl|]. unfold batch_ok. rewrite length_map. cbn [length] in *. lia.
Qed.

Lemma book_long : complete (pd_orders (ef_db f)) -> long -> reconcile f spec = Err (failed FILL_INVALID).
Proof using Hspec Hsch Hdb Hb Hown.
  intros Hc Hn. apply book_portfolio; [done|]. intros states Hst. rewrite book_portfolio_steps; [|by apply (inv_covered _ (pi_orders _ Hdb))|done].
  by rewrite (proj2 (Z.ltb_lt _ _) Hn).
Qed.

Lemma book_other_portfolio : complete (pd_orders (ef_db f)) -> ~ long ->
  (exists r, r ∈ rows_of (pd_portfolios (ef_db f)) /\ pw_symbol r <> bs_symbol spec) -> reconcile f spec = Err (failed PORTFOLIO_INVALID).
Proof using Hspec Hsch Hdb Hb Hown.
  intros Hc Hn (r & Hr & Hne). apply book_portfolio; [done|]. intros states Hst.
  rewrite book_portfolio_steps; [|by apply (inv_covered _ (pi_orders _ Hdb))|done].
  rewrite (proj2 (Z.ltb_ge _ _)) by (unfold long in Hn; lia).
  unfold recon_projection. destruct (rows_of (pd_portfolios (ef_db f))) as [|r0 [|r1 rows]]; [by apply elem_of_nil in Hr| |by destruct (last fs)].
  apply list_elem_of_singleton in Hr as ->. rewrite (proj2 (String.eqb_neq _ _) Hne). by destruct (last fs).
Qed.
End Startup.

(** ** Claims *)

Definition failure_report (spec : backtest_spec) (c : reconciliation_code) : reconciliation_report :=
  StartupReconciliationReport false c (Some (spec_sha256 spec)) 0 0 0 None None None.

Lemma startup_failed f spec c : c ∈ FAILURES -> reconcile f spec = Err (failed c) -> reconcile_startup (Opened f) spec = Ok (failure_report spec c).
Proof.
  intros Hc H. cbn [reconcile_startup]. rewrite H. assert (failed_code (failed c) = Some c) as ->.
  { unfold FAILURES in Hc. rewrite !elem_of_cons, elem_of_nil in Hc. destruct c; try reflexivity. naive_solver. }
  apply failure_valid; [by apply failures_not_match|apply spec_sha256_pattern].
Qed.

(** C30. Startup agrees with the stores.  On any opened database, whatever its rows
    hold, startup reports READY exactly when the schema is the expected one, the
    journal, order and portfolio stores can themselves read and export all of it,
    every intent has its order and no other order exists, every fill and projection
    is of the accepted symbol, and every fill is bound to the current active state
    of its order and later than it; the report then counts what is stored and
    carries the digests of the very texts the stores export.  Every other report is
    a failure without evidence, and the readiness evidence of any report is valid
    and READY exactly for a READY report.  Startup gives no report in one case only:
    the decimal error of a stored projection row, which no except clause lists,
    escapes from it. *)
Theorem reconcile_exact f spec (Hspec : spec_valid spec) (Hk : keyed (ef_db f)) :
  (forall journal orders portfolio events, consistent f spec journal orders portfolio events ->
     reconcile_startup (Opened f) spec = Ok (consistent_report f spec journal orders portfolio events))
  /\ (forall r, reconcile_startup (Opened f) spec = Ok r ->
       (if rp_ready r then exists journal orders portfolio events, consistent f spec journal orders portfolio events
                             /\ r = consistent_report f spec journal orders portfolio events
        else exists c, c <> MATCH /\ r = failure_report spec c)
       /\ readiness_valid (report_readiness r) /\ (rd_status (report_readiness r) = READY <-> rp_ready r = true))
  /\ forall e, reconcile_startup (Opened f) spec = Err e ->
       exn_cls e = ArithmeticTrap /\ exists r, r ∈ rows_of (pd_portfolios (ef_db f)) /\ stored_projection r = Err e.
Proof.
  split; [|split; [|intros e; by apply startup_escapes]].
  - intros tj to tp events Hc. cbn [reconcile_startup]. rewrite (proj2 (reconcile_iff f spec (consistent_report f spec tj to tp events) Hk)); [reflexivity|].
    exists tj, to, tp, events. exact (conj Hc eq_refl).
  - intros r H. split; [|split].
    + destruct (startup_cases _ _ _ H) as [(f' & Ef & Hr)|(c & Hc & ->)]; [|exists c; exact (conj Hc eq_refl)].
      assert (f' = f) as -> by congruence. apply (reconcile_iff f spec r Hk) in Hr as (tj & to & tp & events & Hc & ->).
      exists tj, to, tp, events. exact (conj Hc eq_refl).
    + unfold readiness_valid, readiness_post_init, report_readiness. assert (sha256_pattern (report_sha256 r) = true) as Hp by apply digest_pattern.
      destruct (rp_ready r); cbn [rd_status rdn_reason reconciliation_sha256 valid_digest]; by rewrite Hp.
    + unfold report_readiness. by destruct (rp_ready r).
Qed.

(** READY is never reported over a corrupt state.  If startup reports READY on
    any database, tampered or not, then there is one, its orders are exactly the
    accepted event histories of valid intents, each ending in the stored state, its
    fill rows are a complete numbered history of fills of this symbol costed by the
    accepted specification, each later than the active state of its order, a fresh
    ledger books them all, and the stored projection values that ledger. *)
Theorem ready_state_sound path spec r (Hspec : spec_valid spec) (Hk : forall f, path = Opened f -> keyed (ef_db f))
    (Hr : reconcile_startup path spec = Ok r) (Hready : rp_ready r = true) :
  exists f events l, path = Opened f /\ schema_ok f /\ sound_state spec (ef_db f) events l
    /\ rp_fill_count r = Z.of_nat (length events) /\ rp_order_count r = Z.of_nat (size (od_states (pd_orders (ef_db f))))
    /\ rp_intent_count r = Z.of_nat (size (od_intents (pd_orders (ef_db f)))).
Proof.
  destruct (startup_cases _ _ _ Hr) as [(f & -> & H)|(c & _ & ->)]; [|discriminate Hready].
  specialize (Hk f eq_refl). apply (reconcile_iff f spec r Hk) in H as (tj & to & tp & events & Hc & ->).
  destruct (consistent_sound f spec tj to tp events Hspec Hk Hc) as (l & Hl). exists f, events, l.
  split; [reflexivity|]. split; [exact (cs_schema _ _ _ _ _ _ Hc)|]. split; [exact Hl|]. repeat split.
Qed.

(** C31. Startup after any use of the stores.  Over any sequence of journal records,
    order events and fill applications to the stores of all symbols, refused ones
    included, from an empty database: startup reports READY, with the digests of
    the three exports, when every intent has its order, the database serves the one
    symbol and its history fits one ledger batch; an intent without an order is an
    ORDER_COVERAGE_MISMATCH, a fill of another symbol or a history longer than one
    batch is FILL_INVALID, and a projection of another symbol is PORTFOLIO_INVALID.
    (Unless two of the texts hashed by these calls collide under SHA-256.) *)
Theorem startup_from_stores specs calls db apps sym f (Hspecs : specs_ok specs) (Hc : Forall (portfolio_call_ok specs) calls)
    (Hrun : run_portfolio specs calls empty_portfolio_db = (db, apps)) (Hsym : str_in sym SYMBOLS = true) (Hf : ef_db f = db) (Hsch : schema_ok f) :
  collision (run_portfolio_texts specs calls empty_portfolio_db) \/
  let mine := history_events (applications sym apps) in
  let startup := reconcile_startup (Opened f) (specs sym) in
  let own := forall r, r ∈ rows_of (pd_fills db) -> fw_symbol r = sym in
  let fits := Z.of_nat (length mine) <= MAX_LEDGER_BATCH in
  (complete (pd_orders db) -> only_symbol db sym -> fits ->
     exists journal orders portfolio, consistent f (specs sym) journal orders portfolio mine
       /\ startup = Ok (consistent_report f (specs sym) journal orders portfolio mine))
  /\ (~ complete (pd_orders db) -> startup = Ok (failure_report (specs sym) ORDER_COVERAGE_MISMATCH))
  /\ (complete (pd_orders db) -> (exists r, r ∈ rows_of (pd_fills db) /\ fw_symbol r <> sym) \/ (own /\ ~ fits) ->
        startup = Ok (failure_report (specs sym) FILL_INVALID))
  /\ (complete (pd_orders db) -> own -> fits -> (exists r, r ∈ rows_of (pd_portfolios db) /\ pw_symbol r <> sym) ->
        startup = Ok (failure_report (specs sym) PORTFOLIO_INVALID)).
Proof.
  destruct (run_portfolio_books specs _ calls empty_portfolio_db (fun _ => []) db apps (empty_portfolio_texts _) (among_refl _) Hspecs Hc
              empty_portfolio_inv (empty_books specs Hspecs) Hrun) as [|(Hdb & _ & Hb)]; [by left|]. right. destruct (Hb sym Hsym) as (l & Hl). cbn [app] in Hl. destruct (Hspecs sym Hsym) as [Hv Es].
  destruct (spec_cash specs sym Hspecs Hsym) as (c & Hcash). subst db. cbv zeta.
  split; [|split; [|split]].
  - intros Hcm Hos Hn. rewrite <- Es in Hos. destruct (book_consistent Hv Hcash Hsch Hdb Hl Hcm Hos) as (tj & to & tp & Hx); [unfold long; lia|].
    exists tj, to, tp. split; [exact Hx|]. cbn [reconcile_startup].
    rewrite (proj2 (reconcile_iff f (specs sym) (consistent_report f (specs sym) tj to tp (history_events (applications sym apps))) (inv_keyed _ Hdb))); [reflexivity|]. exists tj, to, tp. eexists. exact (conj Hx eq_refl).
  - intros Hn. apply startup_failed; [in_list|]. exact (book_incomplete Hsch Hdb Hn).
  - intros Hcm [Ho|[Ho Hn]]; (apply startup_failed; [in_list|]).
    + destruct Ho as (w & Hw & Hne). rewrite <- Es in Hne. exact (book_other_fill Hsch Hdb Hcm (ex_intro _ w (conj Hw Hne))).
    + assert (forall w, w ∈ rows_of (pd_fills (ef_db f)) -> fw_symbol w = bs_symbol (specs sym)) as Ho' by (intros w Hw; rewrite Es; by apply Ho).
      apply (book_long Hv Hsch Hdb Hl Ho' Hcm). unfold long. lia.
  - intros Hcm Ho Hn (w & Hw & Hne). apply startup_failed; [in_list|]. rewrite <- Es in Hne.
    assert (forall w, w ∈ rows_of (pd_fills (ef_db f)) -> fw_symbol w = bs_symbol (specs sym)) as Ho' by (intros w' Hw'; rewrite Es; by apply Ho).
    apply (book_other_portfolio Hv Hsch Hdb Hl Ho' Hcm); [unfold long; lia|exact (ex_intro _ w (conj Hw Hne))].
Qed.

(** The database with one active order, and no fill. *)
Definition sample_file (db : portfolio_db) : execution_file := ExecutionFile REQUIRED_TABLES (fun _ => [1]) db.

Lemma sample_schema db : schema_ok (sample_file db).
Proof.
  split; [done|]. intros t v H. unfold EXPECTED_VERSIONS in H. rewrite !elem_of_cons, elem_of_nil in H. cbn. naive_solver.
Qed.

Lemma complete_single db k i : od_intents db = {[k := i]} -> od_states db !! k <> None -> complete db.
Proof. intros Hi Hs h Hh. rewrite Hi in Hh. destruct (decide (h = k)) as [->|Hn]; [exact Hs|]. by rewrite lookup_singleton_ne in Hh. Qed.

Lemma advanced_state db h es e s : od_states (advanced_db db h es e s) !! h <> None.
Proof. cbn [advanced_db od_states]. by rewrite lookup_insert_eq. Qed.

Lemma sample_complete : complete sample_orders.
Proof. apply (complete_single _ sample_key sample_intent); [reflexivity|apply advanced_state]. Qed.

Lemma sample_file_consistent : exists journal orders portfolio, consistent (sample_file sample_store) (store_specs "BTCUSDT") journal orders portfolio [].
Proof.
  destruct (store_specs_ok "BTCUSDT" eq_refl) as [Hv _]. destruct (spec_cash store_specs "BTCUSDT" store_specs_ok eq_refl) as (c & Hc).
  apply (book_consistent Hv Hc (sample_schema sample_store) sample_store_inv sample_store_book).
  - exact sample_complete.
  - constructor; intros r Hr; apply rows_of_elem in Hr as (k & E); cbn in E; by rewrite lookup_empty in E.
  - unfold long, MAX_LEDGER_BATCH. cbn. lia.
Qed.

Lemma reconcile_exact_witness : exists r, reconcile_startup (Opened (sample_file sample_store)) (store_specs "BTCUSDT") = Ok r /\ rp_ready r = true
  /\ rd_status (report_readiness r) = READY.
Proof.
  destruct (reconcile_exact (sample_file sample_store) (store_specs "BTCUSDT") (proj1 (store_specs_ok "BTCUSDT" eq_refl)) (inv_keyed _ sample_store_inv))
    as (H1 & H2 & _).
  destruct sample_file_consistent as (tj & to & tp & Hc). exists (consistent_report (sample_file sample_store) (store_specs "BTCUSDT") tj to tp []).
  specialize (H1 tj to tp [] Hc). split; [exact H1|]. split; [reflexivity|]. destruct (H2 _ H1) as (_ & _ & H). apply H. reflexivity.
Defined.

Lemma sample_ready : exists r, reconcile_startup (Opened (sample_file sample_store)) (store_specs "BTCUSDT") = Ok r /\ rp_ready r = true.
Proof.
  destruct sample_file_consistent as (tj & to & tp & Hc). exists (consistent_report (sample_file sample_store) (store_specs "BTCUSDT") tj to tp []).
  split; [|reflexivity]. cbn [reconcile_startup].
  rewrite (proj2 (reconcile_iff (sample_file sample_store) (store_specs "BTCUSDT")
    (consistent_report (sample_file sample_store) (store_specs "BTCUSDT") tj to tp []) (inv_keyed _ sample_store_inv))); [reflexivity|].
  exists tj, to, tp, []. exact (conj Hc eq_refl).
Qed.

Lemma ready_state_sound_witness : exists events l, sound_state (store_specs "BTCUSDT") sample_store events l.
Proof.
  destruct sample_ready as (r & Hr & Hready).
  destruct (ready_state_sound (Opened (sample_file sample_store)) (store_specs "BTCUSDT") r (proj1 (store_specs_ok "BTCUSDT" eq_refl))
    ltac:(intros f E; replace f with (sample_file sample_store) by congruence; exact (inv_keyed _ sample_store_inv)) Hr Hready)
    as (f & events & l & Ef & _ & Hl & _).
  exists events, l. replace sample_store with (ef_db f); [exact Hl|]. assert (sample_file sample_store = f) as <- by congruence. reflexivity.
Defined.

Lemma startup_from_stores_witness : exists journal orders portfolio,
  reconcile_startup (Opened (sample_file empty_portfolio_db)) (store_specs "BTCUSDT")
  = Ok (consistent_report (sample_file empty_portfolio_db) (store_specs "BTCUSDT") journal orders portfolio []).
Proof.
  destruct (startup_from_stores store_specs [] empty_portfolio_db [] "BTCUSDT" (sample_file empty_portfolio_db) store_specs_ok
    ltac:(constructor) eq_refl eq_refl eq_refl (sample_schema empty_portfolio_db)) as [Hx|(H & _)]; [exfalso; exact (no_collision_nil Hx)|].
  destruct H as (tj & to & tp & _ & H).
  - intros h Hh. exfalso; apply Hh; apply lookup_empty.
  - constructor; intros r Hr; apply rows_of_elem in Hr as (k & E); cbn in E; by rewrite lookup_empty in E.
  - unfold MAX_LEDGER_BATCH. cbn. lia.
  - exists tj, to, tp. exact H.
Defined.
