(* ===== verification/Snapshot.v ===== *)
(** * Recovery snapshots: the file (yatl/execution/recovery.py, first part)

    A snapshot is a canonical JSON file that anchors a reconciled state of the
    execution database.  The values it holds are Python values, here [json]; its
    file is its bytes, read by [JsonText] (a byte beyond ASCII is refused at once:
    no canonical text holds one). *)
From stdpp Require Import gmap sorting.
From S2P Require Import Prelude PyDecimal PyText Digest JsonText Market BacktestConfig MarketView Fills Costs Ledger HashChain Regime RiskState RiskAdapter Execution Journal OrderState LocalFills Portfolio.

Definition RECOVERY_SNAPSHOT_SCHEMA_VERSION : Z := 1.
Definition MAX_SNAPSHOT_BYTES : Z := 8 * 1024 * 1024.
Definition INTENT_COLUMNS : list string := [
  "authorization_sha256"; "effect_sha256"; "decision_sha256"; "readiness_sha256"; "action"; "approved_quantity"; "policy_id"; "intent_sha256"]%string.
Definition INTENT_RECORD_KEYS : list string := INTENT_COLUMNS ++ ["schema_version"%string].

Definition snapshot_error {A} (msg : string) : result A := Err (Raise RecoverySnapshotError msg).
(** [except Exception: raise RecoverySnapshotError(msg)] *)
Definition any_error {A} (m : result A) (msg : string) : result A := match m with Ok a => Ok a | Err _ => snapshot_error msg end.

Definition _valid_digest (v : json) : bool := match v with JStr s => sha256_pattern s | _ => false end.

(** [==] on decoded values: True equals 1, the order of keys does not matter. *)
Fixpoint py_eq (a b : json) : bool :=
  match a, b with
  | JNull, JNull => true
  | JBool x, JBool y => Bool.eqb x y
  | JBool x, JInt n | JInt n, JBool x => Z.b2z x =? n
  | JInt n, JInt m => n =? m
  | JStr s, JStr t => String.eqb s t
  | JArr l, JArr m => (fix go l m := match l, m with [], [] => true | x :: l, y :: m => py_eq x y && go l m | _, _ => false end) l m
  | JObj l, JObj m =>
      (length l =? length m)%nat
      && forallb (fun kv => match find (fun kw => String.eqb (fst kw) (fst kv)) m with Some kw => py_eq (snd kv) (snd kw) | None => false end) l
  | _, _ => false
  end.

(** [isinstance(record, dict) and set(record) == expected] *)
Definition has_keys (expected : list string) (j : json) : bool :=
  match j with JObj l => forallb (fun kv => str_in (fst kv) expected) l && forallb (fun k => str_in k (map fst l)) expected | _ => false end.

(** ** The snapshot *)

Record recovery_snapshot : Type := RecoverySnapshot {
  rs_policy_sha256 : json;
  rs_spec_sha256 : json;
  rs_reconciliation_sha256 : json;
  rs_journal_sha256 : json;
  rs_orders_sha256 : json;
  rs_portfolio_sha256 : json;
  rs_intent_records : list json;
  rs_order_anchors : list json;
  rs_fill_anchors : list json;
  rs_order_event_count : json;
}.

(** [LocalPaperIntentRecord] of the values of a record: one of another type is refused by the constructor. *)
Definition rebuilt_intent (j : json) : result intent_record :=
  let* h := get_text j "authorization_sha256" in
  let* effect := get_text j "effect_sha256" in
  let* decision := get_text j "decision_sha256" in
  let* readiness := get_text j "readiness_sha256" in
  let* action := get_text j "action" in
  let* quantity := get_text j "approved_quantity" in
  let* policy := get_text j "policy_id" in
  let* intent := get_text j "intent_sha256" in
  new_intent_record (LocalPaperIntentRecord h effect decision readiness action quantity policy intent).

(** One intent of the snapshot: the authorization it anchors. *)
Definition intent_anchor (record : json) : result string :=
  if negb (has_keys INTENT_RECORD_KEYS record) then snapshot_error "Snapshot intent anchor is invalid" else
  let* rebuilt := any_error (rebuilt_intent record) "Snapshot intent anchor failed reconstruction" in
  if negb (py_eq (intent_as_record rebuilt) record) then snapshot_error "Snapshot intent anchor changed" else
  get_text record "authorization_sha256".

Definition get_opt_text (j : json) (key : string) : result (option string) :=
  let* v := json_get j key in match v with JNull => Ok None | JStr s => Ok (Some s) | _ => Err (Raise TypeError key) end.

Definition rebuilt_state (j : json) : result order_state :=
  let* h := get_text j "authorization_sha256" in
  let* intent := get_text j "intent_sha256" in
  let* sequence := get_number j "sequence" in
  let* updated := get_number j "updated_time_ms" in
  let* status := get_text j "status" in
  let* status := order_status_of status in
  let* reason := get_text j "reason" in
  let* reason := order_reason_of reason in
  let* previous := get_opt_text j "previous_state_sha256" in
  let* event := get_text j "event_sha256" in
  new_order_state (LocalPaperOrderState h intent sequence updated status reason previous event).

Definition ORDER_ANCHOR_KEYS : list string := ["authorization_sha256"; "sequence"; "event_sha256"; "state_sha256"; "state"]%string.

(** One order of the snapshot: its authorization and sequence. *)
Definition order_anchor (authorizations : list string) (anchor : json) : result (string * Z) :=
  if negb (has_keys ORDER_ANCHOR_KEYS anchor) then snapshot_error "Snapshot order anchor is invalid" else
  let fields := (let* h := get_text anchor "authorization_sha256" in
                 let* n := get_number anchor "sequence" in
                 let* event := json_get anchor "event_sha256" in
                 let* sha := json_get anchor "state_sha256" in
                 let* state := json_get anchor "state" in
                 raise_if negb (str_in h authorizations) || (n <? 0) || negb (_valid_digest event) || negb (_valid_digest sha)
                          || negb (match state with JObj _ => true | _ => false end) with TypeError "fields" ;;
                 Ok (h, n, event, sha, state)) in
  let* fields := any_error fields "Snapshot order anchor fields are invalid" in
  let '(h, n, event, sha, record) := fields in
  let* state := any_error (rebuilt_state record) "Snapshot order state failed reconstruction" in
  if negb (py_eq (order_state_as_record state) record) || negb (String.eqb (os_authorization_sha256 state) h) || negb (os_sequence state =? n)
     || negb (py_eq (JStr (os_event_sha256 state)) event) || negb (py_eq (JStr (order_state_sha256 state)) sha)
  then snapshot_error "Snapshot order state changed" else
  Ok (h, n).

Definition FILL_ANCHOR_KEYS : list string := ["sequence"; "fill_event_sha256"]%string.
Definition fill_anchor (anchor : json) : result Z :=
  if negb (has_keys FILL_ANCHOR_KEYS anchor) then snapshot_error "Snapshot fill anchor is invalid" else
  any_error (let* n := get_number anchor "sequence" in
             let* event := json_get anchor "fill_event_sha256" in
             raise_if negb (_valid_digest event) with TypeError "fill_event_sha256" ;; Ok n) "Snapshot fill anchor is invalid".

(** [l == sorted(l)] *)
Definition is_sorted (l : list string) : bool := bool_decide (isort String.leb l = l).

Definition snapshot_digests (s : recovery_snapshot) : list json :=
  [rs_policy_sha256 s; rs_spec_sha256 s; rs_reconciliation_sha256 s; rs_journal_sha256 s; rs_orders_sha256 s; rs_portfolio_sha256 s].

Definition snapshot_post_init (s : recovery_snapshot) : result unit :=
  raise_if existsb (fun v => negb (_valid_digest v)) (snapshot_digests s) with RecoverySnapshotError "Snapshot digest is invalid" ;;
  let* count := any_error (json_number (rs_order_event_count s)) "Snapshot fill or event anchors are invalid" in
  raise_if count <? 0 with RecoverySnapshotError "Snapshot event count is invalid" ;;
  let* authorizations := rmap intent_anchor (rs_intent_records s) in
  raise_if negb (is_sorted authorizations) || negb (bool_decide (NoDup authorizations))
    with RecoverySnapshotError "Snapshot intent anchors are not canonical" ;;
  let* orders := rmap (order_anchor authorizations) (rs_order_anchors s) in
  raise_if negb (is_sorted (map fst orders)) || negb (bool_decide (map fst orders = authorizations))
    with RecoverySnapshotError "Snapshot order coverage is invalid" ;;
  let* fills := rmap fill_anchor (rs_fill_anchors s) in
  raise_if negb (bool_decide (fills = seqZ 0 (Z.of_nat (length (rs_fill_anchors s)))))
    with RecoverySnapshotError "Snapshot fill anchors are not contiguous" ;;
  raise_if negb (count =? fold_right Z.add 0 (map (fun x => snd x + 1) orders))
    with RecoverySnapshotError "Snapshot order event count disagrees with anchors" ;;
  Ok tt.
Definition new_snapshot (s : recovery_snapshot) : result recovery_snapshot := do* snapshot_post_init s ;; Ok s.

Definition intent_count (s : recovery_snapshot) : Z := Z.of_nat (length (rs_intent_records s)).
Definition order_count (s : recovery_snapshot) : Z := Z.of_nat (length (rs_order_anchors s)).
Definition fill_count (s : recovery_snapshot) : Z := Z.of_nat (length (rs_fill_anchors s)).

Definition snapshot_material (s : recovery_snapshot) : list (string * json) := [
  ("schema_version", JInt RECOVERY_SNAPSHOT_SCHEMA_VERSION); ("policy_sha256", rs_policy_sha256 s); ("spec_sha256", rs_spec_sha256 s);
  ("reconciliation_sha256", rs_reconciliation_sha256 s); ("journal_sha256", rs_journal_sha256 s); ("orders_sha256", rs_orders_sha256 s);
  ("portfolio_sha256", rs_portfolio_sha256 s); ("intent_records", JArr (rs_intent_records s)); ("order_anchors", JArr (rs_order_anchors s));
  ("fill_anchors", JArr (rs_fill_anchors s)); ("order_event_count", rs_order_event_count s)]%string.
Definition snapshot_sha256 (s : recovery_snapshot) : string := digest (JObj (snapshot_material s)).
Definition snapshot_as_record (s : recovery_snapshot) : json :=
  JObj (snapshot_material s ++ [("snapshot_sha256"%string, JStr (snapshot_sha256 s))]).

(** The text of the file: [_canonical_json(snapshot.as_record()) + newline]. *)
Definition snapshot_text (s : recovery_snapshot) : text := json_dumps (snapshot_as_record s) ++ [chr 10].
Definition snapshot_eqb (a b : recovery_snapshot) : bool := py_eq (JObj (snapshot_material a)) (JObj (snapshot_material b)).

(** ** Files *)

(** What is at a path: nothing, a directory, a file that cannot be read, its bytes. *)
Inductive file : Type := NoFile | Folder | Locked | Bytes (b : text).
(** [Path.exists()] and [Path.is_file()] *)
Definition exists_file (f : file) : bool := match f with NoFile => false | _ => true end.
Definition is_file (f : file) : bool := match f with Locked | Bytes _ => true | _ => false end.
(** [read_bytes()], whose OSError becomes [msg]. *)
Definition read_bytes (f : file) (msg : string) : result text := match f with Bytes b => Ok b | _ => snapshot_error msg end.
Definition byte_count (b : text) : Z := Z.of_nat (length b).

(** Text mode: UTF-8, CR LF and a lone CR read as LF. *)
Fixpoint universal_newlines (l : text) : text :=
  match l with
  | c :: r => if (ord c =? 13)%N then match r with
                                      | d :: r' => if (ord d =? 10)%N then chr 10 :: universal_newlines r' else chr 10 :: universal_newlines r
                                      | [] => [chr 10]
                                      end
              else c :: universal_newlines r
  | [] => []
  end.
Definition decode (b : text) : result text :=
  if forallb (fun c => ord c <? 128)%N b then Ok (universal_newlines b) else Err (Raise ValueError "UnicodeError").

Definition _read_limited (f : file) : result text :=
  if negb (is_file f) then snapshot_error "Snapshot cannot be read safely" else
  let* b := read_bytes f "Snapshot cannot be read safely" in
  raise_if (byte_count b <=? 0) || (MAX_SNAPSHOT_BYTES <? byte_count b) with RecoverySnapshotError "Snapshot size is invalid" ;;
  any_error (decode b) "Snapshot cannot be read safely".

(** [tuple(value)] *)
Definition py_tuple (v : json) : result (list json) :=
  match v with
  | JArr l => Ok l
  | JStr s => Ok (map (fun c => JStr (str [c])) (txt s))
  | JObj l => Ok (map (fun kv => JStr (fst kv)) l)
  | _ => Err (Raise TypeError "object is not iterable")
  end.

Definition SNAPSHOT_KEYS : list string := [
  "schema_version"; "policy_sha256"; "spec_sha256"; "reconciliation_sha256"; "journal_sha256"; "orders_sha256"; "portfolio_sha256";
  "intent_records"; "order_anchors"; "fill_anchors"; "order_event_count"; "snapshot_sha256"]%string.

(** [record.pop(key)]: the record without the key. *)
Definition without (key : string) (j : json) : json :=
  match j with JObj l => JObj (filter (fun kv => fst kv <> key) l) | _ => j end.

Definition _snapshot_from_text (t : text) : result recovery_snapshot :=
  let* record := rcatch (loads t) VALUE_ERRORS (Raise RecoverySnapshotError "Snapshot JSON is invalid") in
  raise_if negb (has_keys SNAPSHOT_KEYS record) with RecoverySnapshotError "Snapshot schema is invalid" ;;
  let* version := json_get record "schema_version" in
  raise_if negb (py_eq (JInt RECOVERY_SNAPSHOT_SCHEMA_VERSION) version) with RecoverySnapshotError "Snapshot version is unsupported" ;;
  let* supplied := json_get record "snapshot_sha256" in
  let record := without "snapshot_sha256" record in
  raise_if negb (_valid_digest supplied) || negb (py_eq (JStr (digest record)) supplied)
    with RecoverySnapshotError "Snapshot digest verification failed" ;;
  let* policy := json_get record "policy_sha256" in
  let* spec := json_get record "spec_sha256" in
  let* reconciliation := json_get record "reconciliation_sha256" in
  let* journal := json_get record "journal_sha256" in
  let* orders := json_get record "orders_sha256" in
  let* portfolio := json_get record "portfolio_sha256" in
  let* intents := json_get record "intent_records" in
  let* intents := py_tuple intents in
  let* anchors := json_get record "order_anchors" in
  let* anchors := py_tuple anchors in
  let* fills := json_get record "fill_anchors" in
  let* fills := py_tuple fills in
  let* count := json_get record "order_event_count" in
  let* s := new_snapshot (RecoverySnapshot policy spec reconciliation journal orders portfolio intents anchors fills count) in
  raise_if negb (bool_decide (t = snapshot_text s)) || negb (py_eq (JStr (snapshot_sha256 s)) supplied)
    with RecoverySnapshotError "Snapshot is not canonical" ;;
  Ok s.

Definition load_recovery_snapshot (f : file) : result recovery_snapshot := let* t := _read_limited f in _snapshot_from_text t.

(** * Properties *)

(** ** Values that differ in the order of keys only *)

Record same_value (a b : json) : Prop := {
  sv_norm : jnorm a = jnorm b;
  sv_left : well_keyed a = true;
  sv_right : well_keyed b = true;
}.

Lemma well_keyed_norm j : well_keyed j = true -> well_keyed (jnorm j) = true.
Proof.
  induction j as [|b|z|s|l IH|l IH] using json_ind'; try done; cbn [well_keyed jnorm].
  - intros H. rewrite forallb_forall in H |- *. rewrite Forall_forall in IH. intros x Hx. apply in_map_iff in Hx as (y & <- & Hy).
    apply IH; [by apply list_elem_of_In|by apply H].
  - rewrite !andb_true_iff, !bool_decide_eq_true. intros [Hnd H]. change (fun kv : string * json => (fst kv, jnorm (snd kv))) with norm_item.
    split; [by rewrite (Permutation_map fst (sort_items_perm _)), norm_keys|].
    rewrite forallb_forall in H |- *. rewrite Forall_forall in IH. intros x Hx. apply list_elem_of_In in Hx. rewrite sort_items_perm in Hx.
    apply list_elem_of_fmap in Hx as (y & -> & Hy). cbn [snd norm_item]. apply (IH y Hy). apply H. by apply list_elem_of_In.
Qed.

Lemma jnorm_idem j : well_keyed j = true -> jnorm (jnorm j) = jnorm j.
Proof.
  induction j as [|b|z|s|l IH|l IH] using json_ind'; try done; cbn [well_keyed jnorm].
  - intros H. f_equal. rewrite map_map. apply map_ext_in. intros x Hx. rewrite Forall_forall in IH. apply IH; [by apply list_elem_of_In|].
    by apply (proj1 (forallb_forall well_keyed l)).
  - rewrite andb_true_iff, bool_decide_eq_true. intros [Hnd H]. f_equal. change (fun kv : string * json => (fst kv, jnorm (snd kv))) with norm_item.
    assert (map norm_item (sort_items (map norm_item l)) ≡ₚ map norm_item l) as Hp.
    { rewrite (Permutation_map norm_item (sort_items_perm (map norm_item l))), map_map. match goal with |- ?a ≡ₚ ?b => enough (a = b) as -> by done end. apply map_ext_in. intros [k x] Hx. unfold norm_item.
      cbn [fst snd]. f_equal. rewrite Forall_forall in IH. apply (IH (k, x)); [by apply list_elem_of_In|].
      apply (proj1 (forallb_forall (fun kv => well_keyed (snd kv)) l) H (k, x) Hx). }
    apply sort_items_canonical; [|done]. rewrite (Permutation_map fst Hp). by rewrite norm_keys.
Qed.

Lemma same_norm j : well_keyed j = true -> same_value j (jnorm j).
Proof. intros H. constructor; [by rewrite jnorm_idem|done|by apply well_keyed_norm]. Qed.

Lemma same_refl j : well_keyed j = true -> same_value j j.
Proof. by constructor. Qed.

Lemma same_sym a b : same_value a b -> same_value b a.
Proof. by intros [? ? ?]. Qed.

Lemma same_array l b : same_value (JArr l) b -> exists m, b = JArr m /\ Forall2 same_value l m.
Proof.
  intros [H Hl Hr]. destruct b as [| | | |m|m]; try done. exists m. split; [done|]. cbn [jnorm well_keyed] in *. assert (map jnorm l = map jnorm m) as E by congruence. clear H.
  revert m E Hr. induction l as [|x l IH]; intros [|y m] E Hr; try done. cbn [map forallb] in *. apply andb_true_iff in Hl as [? ?], Hr as [? ?].
  constructor; [constructor; congruence|]. apply IH; [done|congruence|done].
Qed.

(** Objects with the same value have, under each key, values that are the same. *)
Lemma same_object l b : same_value (JObj l) b -> exists m, b = JObj m /\ NoDup (map fst l) /\ NoDup (map fst m) /\ map fst l ≡ₚ map fst m
  /\ forall x y, x ∈ l -> y ∈ m -> fst x = fst y -> same_value (snd x) (snd y).
Proof.
  intros [H Hl Hr]. destruct b as [| | | |m|m]; try done. exists m. split; [done|]. cbn [jnorm well_keyed] in *.
  change (fun kv : string * json => (fst kv, jnorm (snd kv))) with norm_item in H. assert (sort_items (map norm_item l) = sort_items (map norm_item m)) as E by congruence. clear H.
  apply andb_true_iff in Hl as [Hl Hlw], Hr as [Hr Hrw]. apply bool_decide_eq_true in Hl, Hr.
  assert (map norm_item l ≡ₚ map norm_item m) as Hp by (rewrite <- (sort_items_perm (map norm_item l)), <- (sort_items_perm (map norm_item m)); by rewrite E).
  split; [done|]. split; [done|]. split; [rewrite <- (norm_keys l), <- (norm_keys m); by apply Permutation_map|].
  intros [k x] [k' y] Hx Hy Ek. cbn [fst snd] in *. subst k'. constructor.
  - assert ((k, jnorm x) ∈ map norm_item m) as Hm by (rewrite <- Hp; by apply (list_elem_of_fmap_2 norm_item l (k, x))).
    assert ((k, jnorm y) ∈ map norm_item m) as Hm' by (by apply (list_elem_of_fmap_2 norm_item m (k, y))).
    pose proof (keyed_unique (map norm_item m) _ _ ltac:(by rewrite norm_keys) Hm Hm' eq_refl) as Hxy. congruence.
  - apply (proj1 (forallb_forall (fun kv => well_keyed (snd kv)) l) Hlw (k, x)). by apply list_elem_of_In.
  - apply (proj1 (forallb_forall (fun kv => well_keyed (snd kv)) m) Hrw (k, y)). by apply list_elem_of_In.
Qed.

Definition item (l : list (string * json)) (k : string) : option (string * json) := find (fun kv => String.eqb (fst kv) k) l.

Lemma item_some l k kv : NoDup (map fst l) -> item l k = Some kv <-> kv ∈ l /\ fst kv = k.
Proof.
  intros Hnd. unfold item. split.
  - intros H. apply find_some in H as [H E]. apply String.eqb_eq in E. split; [by apply list_elem_of_In|done].
  - intros [H <-]. destruct (find _ l) as [kw|] eqn:E.
    + apply find_some in E as [Hin E]. apply String.eqb_eq in E. f_equal. apply (keyed_unique l); [done|by apply list_elem_of_In|done|done].
    + exfalso. apply list_elem_of_In in H. pose proof (find_none _ _ E kv H) as Hn. cbn in Hn. by rewrite String.eqb_refl in Hn.
Qed.

Lemma item_none l k : item l k = None <-> k ∉ map fst l.
Proof.
  unfold item. split.
  - intros E Hin. apply list_elem_of_fmap in Hin as (kv & -> & Hin). apply list_elem_of_In in Hin. pose proof (find_none _ _ E kv Hin) as Hn. cbn in Hn. by rewrite String.eqb_refl in Hn.
  - intros H. destruct (find _ l) as [kv|] eqn:E; [|done]. exfalso. apply find_some in E as [Hin E]. apply String.eqb_eq in E. apply H. rewrite <- E.
    apply (list_elem_of_fmap_2 fst). by apply list_elem_of_In.
Qed.

(** The same entry is found under a key, or none is. *)
Lemma same_items l m k : same_value (JObj l) (JObj m) ->
  match item l k, item m k with Some x, Some y => same_value (snd x) (snd y) | None, None => True | _, _ => False end.
Proof.
  intros H. apply same_object in H as (m' & [= <-] & Hl & Hm & Hp & Hv). destruct (item l k) as [x|] eqn:Ex, (item m k) as [y|] eqn:Ey; try done.
  - apply (item_some _ _ _ Hl) in Ex as [Hx Ekx]. apply (item_some _ _ _ Hm) in Ey as [Hy Eky]. apply Hv; [done..|congruence].
  - apply item_none in Ey. apply (item_some _ _ _ Hl) in Ex as [Hx <-]. apply Ey. rewrite <- Hp. by apply list_elem_of_fmap_2.
  - apply item_none in Ex. apply (item_some _ _ _ Hm) in Ey as [Hy <-]. apply Ex. rewrite Hp. by apply list_elem_of_fmap_2.
Qed.

Definition same_outcome (a b : result json) : Prop := match a, b with Ok x, Ok y => same_value x y | Err e, Err e' => e = e' | _, _ => False end.

Lemma same_get a b k : same_value a b -> same_outcome (json_get a k) (json_get b k).
Proof.
  intros H. destruct a as [| | | |l|l]. 6: { pose proof (same_object l b H) as (m & -> & _). pose proof (same_items l m k H) as Hi. cbn [json_get]. unfold item in Hi.
    destruct (find _ l), (find _ m); done. }
  all: destruct H as [E _ _]; destruct b; try discriminate E; cbn; congruence.
Qed.

Lemma same_text a b k : same_value a b -> get_text a k = get_text b k.
Proof.
  intros H. pose proof (same_get a b k H) as Ho. unfold get_text. destruct (json_get a k) as [x|], (json_get b k) as [y|]; cbn in *; try done; [|congruence].
  destruct Ho as [E _ _], x, y; try discriminate E; cbn in *; congruence.
Qed.

Lemma same_number a b k : same_value a b -> get_number a k = get_number b k.
Proof.
  intros H. pose proof (same_get a b k H) as Ho. unfold get_number. destruct (json_get a k) as [x|], (json_get b k) as [y|]; cbn in *; try done; [|congruence].
  destruct Ho as [E _ _], x, y; try discriminate E; cbn in *; congruence.
Qed.

Lemma same_opt_text a b k : same_value a b -> get_opt_text a k = get_opt_text b k.
Proof.
  intros H. pose proof (same_get a b k H) as Ho. unfold get_opt_text. destruct (json_get a k) as [x|], (json_get b k) as [y|]; cbn in *; try done; [|congruence].
  destruct Ho as [E _ _], x, y; try discriminate E; cbn in *; congruence.
Qed.

Lemma forallb_perm {A} (f : A -> bool) l m : l ≡ₚ m -> forallb f l = forallb f m.
Proof.
  intros H. apply eq_iff_eq_true. rewrite !forallb_forall. split; intros Hf x Hx; apply Hf; apply list_elem_of_In; apply list_elem_of_In in Hx.
  - by rewrite H.
  - by rewrite <- H.
Qed.

Lemma same_keys a b ks : same_value a b -> has_keys ks a = has_keys ks b.
Proof.
  intros H. destruct a as [| | | |l|l]. 6: { destruct (same_object l b H) as (m & -> & _ & _ & Hp & _). cbn [has_keys]. f_equal.
    - assert (forall q, forallb (fun kv : string * json => str_in (fst kv) ks) q = forallb (fun k => str_in k ks) (map fst q)) as E.
      { intros q. induction q as [|x q IH]; [done|]. cbn [map forallb]. by rewrite IH. }
      rewrite !E. by apply forallb_perm.
    - clear - Hp. induction ks as [|k ks IH]; [done|]. cbn [forallb]. rewrite IH. f_equal. apply eq_iff_eq_true. rewrite !str_in_spec. by rewrite Hp. }
  all: destruct H as [E _ _]; destruct b; try discriminate E; done.
Qed.

Lemma same_digest a b : same_value a b -> _valid_digest a = _valid_digest b.
Proof. intros [E _ _]. destruct a, b; try discriminate E; cbn in *; congruence. Qed.

(** ** Equality of values *)

Fixpoint py_eq_list (l m : list json) : bool := match l, m with [], [] => true | x :: l, y :: m => py_eq x y && py_eq_list l m | _, _ => false end.

Lemma py_eq_arr l m : py_eq (JArr l) (JArr m) = py_eq_list l m.
Proof. revert m. by induction l as [|x l IH]; intros [|y m]. Qed.

Lemma py_eq_obj l m : py_eq (JObj l) (JObj m) = (length l =? length m)%nat
  && forallb (fun kv => match item m (fst kv) with Some kw => py_eq (snd kv) (snd kw) | None => false end) l.
Proof. reflexivity. Qed.

Lemma py_eq_same_r a b b' : same_value b b' -> py_eq a b = py_eq a b'.
Proof.
  revert b b'. induction a as [|x|z|s|l IH|l IH] using json_ind'; intros b b' H.
  1-4: destruct H as [E _ _]; destruct b, b'; try discriminate E; cbn [jnorm] in E; try reflexivity; congruence.
  - destruct b as [| | | |m|m]; [by destruct H as [E _ _]; destruct b'; try discriminate E..| |by destruct H as [E _ _]; destruct b'; try discriminate E].
    destruct (same_array m b' H) as (m' & -> & Hm). rewrite !py_eq_arr. clear H. revert m m' Hm. induction IH as [|x l Hx _ IHl]; intros m m' Hm.
    + by destruct Hm.
    + destruct Hm as [|y y' m m' Hy Hm]; [done|]. cbn [py_eq_list]. by rewrite (Hx y y' Hy), (IHl m m' Hm).
  - destruct b as [| | | |m|m]; [by destruct H as [E _ _]; destruct b'; try discriminate E..|].
    destruct (same_object m b' H) as (m' & -> & _ & _ & Hp & _). rewrite !py_eq_obj.
    assert (length m = length m') as -> by (rewrite <- (length_map fst m), <- (length_map fst m'); by apply Permutation_length).
    f_equal. clear Hp. induction IH as [|[k x] l Hx _ IHl]; [done|]. cbn [forallb fst snd]. rewrite IHl. f_equal.
    pose proof (same_items m m' k H) as Hi. destruct (item m k), (item m' k); try done. by apply Hx.
Qed.

Lemma py_eq_refl a : well_keyed a = true -> py_eq a a = true.
Proof.
  induction a as [|x|z|s|l IH|l IH] using json_ind'; intros H.
  - done.
  - by destruct x.
  - apply Z.eqb_refl.
  - apply String.eqb_refl.
  - rewrite py_eq_arr. cbn [well_keyed] in H. induction IH as [|x l Hx _ IHl]; [done|]. cbn [py_eq_list forallb] in *. apply andb_true_iff in H as [H1 H2].
    by rewrite (Hx H1), (IHl H2).
  - rewrite py_eq_obj, Nat.eqb_refl. cbn [well_keyed andb] in *. apply andb_true_iff in H as [Hnd H]. apply bool_decide_eq_true in Hnd. apply forallb_forall. intros [k x] Hin.
    apply list_elem_of_In in Hin. cbn [fst]. rewrite (proj2 (item_some l k (k, x) Hnd)) by done. cbn [snd]. rewrite Forall_forall in IH. apply (IH (k, x) Hin).
    apply (proj1 (forallb_forall (fun kv => well_keyed (snd kv)) l) H (k, x)). by apply list_elem_of_In.
Qed.

Lemma py_eq_same a b : same_value a b -> py_eq a b = true.
Proof. intros H. rewrite <- (py_eq_same_r a a b H). apply py_eq_refl. apply H. Qed.

Lemma py_eq_str s j : py_eq (JStr s) j = true <-> j = JStr s.
Proof. split; [|intros ->; apply String.eqb_refl]. destruct j; try done. cbn [py_eq]. intros H. apply String.eqb_eq in H. by subst. Qed.

(** What an equal value holds under the keys of the left one. *)
Lemma py_eq_field l j k v : py_eq (JObj l) j = true -> (k, v) ∈ l -> exists w, json_get j k = Ok w /\ py_eq v w = true.
Proof.
  destruct j as [| | | |m|m]; try done. rewrite py_eq_obj, andb_true_iff, forallb_forall. intros [_ H] Hin. apply list_elem_of_In in Hin. specialize (H _ Hin).
  cbn [fst snd json_get] in *. unfold item in H. destruct (find _ m) as [kw|]; [|done]. by exists (snd kw).
Qed.

Lemma py_eq_text l j k s : py_eq (JObj l) j = true -> (k, JStr s) ∈ l -> get_text j k = Ok s.
Proof.
  intros H Hin. destruct (py_eq_field l j k _ H Hin) as (w & E & Hw). apply py_eq_str in Hw. subst w. unfold get_text. by rewrite E.
Qed.

(** ** Reading is by value *)

Lemma same_rebuilt_intent a b : same_value a b -> rebuilt_intent a = rebuilt_intent b.
Proof. intros H. unfold rebuilt_intent. by rewrite !(same_text a b _ H). Qed.

Lemma same_rebuilt_state a b : same_value a b -> rebuilt_state a = rebuilt_state b.
Proof. intros H. unfold rebuilt_state. by rewrite !(same_text a b _ H), !(same_number a b _ H), (same_opt_text a b _ H). Qed.

Lemma same_intent_anchor a b : same_value a b -> intent_anchor a = intent_anchor b.
Proof.
  intros H. unfold intent_anchor. rewrite (same_keys a b _ H), (same_rebuilt_intent a b H), (same_text a b _ H).
  destruct (negb _); [done|]. destruct (any_error (rebuilt_intent b) _) as [i|]; [|done]. cbn [rbind]. by rewrite (py_eq_same_r _ a b H).
Qed.

Lemma same_order_anchor hs a b : same_value a b -> order_anchor hs a = order_anchor hs b.
Proof.
  intros H. unfold order_anchor. rewrite (same_keys a b _ H), (same_text a b _ H), (same_number a b _ H). destruct (negb _); [done|].
  pose proof (same_get a b "event_sha256" H) as H1. pose proof (same_get a b "state_sha256" H) as H2. pose proof (same_get a b "state" H) as H3.
  destruct (get_text b "authorization_sha256") as [h|]; [|done]. destruct (get_number b "sequence") as [n|]; [|done]. cbn [rbind].
  destruct (json_get a "event_sha256") as [e|], (json_get b "event_sha256") as [e'|]; try done. cbn [rbind same_outcome] in *.
  destruct (json_get a "state_sha256") as [s|], (json_get b "state_sha256") as [s'|]; try done. cbn [rbind same_outcome] in *.
  destruct (json_get a "state") as [t|], (json_get b "state") as [t'|]; try done. cbn [rbind same_outcome] in *.
  rewrite (same_digest e e' H1), (same_digest s s' H2).
  assert (match t with JObj _ => true | _ => false end = match t' with JObj _ => true | _ => false end) as -> by (destruct H3 as [E _ _]; destruct t, t'; try discriminate E; done).
  destruct (_ || _); [done|]. cbn [any_error rbind]. rewrite (same_rebuilt_state t t' H3). destruct (any_error (rebuilt_state t') _) as [o|]; [|done]. cbn [rbind].
  by rewrite (py_eq_same_r _ t t' H3), (py_eq_same_r _ e e' H1), (py_eq_same_r _ s s' H2).
Qed.

Lemma same_fill_anchor a b : same_value a b -> fill_anchor a = fill_anchor b.
Proof.
  intros H. unfold fill_anchor. rewrite (same_keys a b _ H), (same_number a b _ H). destruct (negb _); [done|]. pose proof (same_get a b "fill_event_sha256" H) as H1.
  destruct (get_number b "sequence") as [n|]; [|done]. cbn [rbind].
  destruct (json_get a "fill_event_sha256") as [e|], (json_get b "fill_event_sha256") as [e'|]; try done. cbn [rbind same_outcome] in *. by rewrite (same_digest e e' H1).
Qed.

Lemma same_rmap {A B} (R : A -> A -> Prop) (f : A -> result B) l m : (forall a b, R a b -> f a = f b) -> Forall2 R l m -> rmap f l = rmap f m.
Proof. intros Hf. induction 1 as [|x y l m Hx _ IH]; [done|]. cbn [rmap]. by rewrite (Hf x y Hx), IH. Qed.

Lemma dumps_norm j : well_keyed j = true -> json_dumps (jnorm j) = json_dumps j.
Proof.
  induction j as [|b|z|s|l IH|l IH] using json_ind'; try done; intros H.
  - cbn [jnorm json_dumps]. do 3 f_equal. rewrite map_map. apply map_ext_in. intros x Hx. rewrite Forall_forall in IH. apply IH; [by apply list_elem_of_In|].
    by apply (proj1 (forallb_forall well_keyed l)).
  - cbn [well_keyed] in H. apply andb_true_iff in H as [Hnd H]. apply bool_decide_eq_true in Hnd. cbn [jnorm].
    change (fun kv : string * json => (fst kv, jnorm (snd kv))) with norm_item. rewrite !json_dumps_obj. do 3 f_equal.
    rewrite (sort_items_fixed (sort_items (map norm_item l))); [|by rewrite (Permutation_map fst (sort_items_perm _)), norm_keys|apply sort_items_sorted].
    rewrite (sort_items_map jnorm), map_map. apply map_ext_in. intros [k x] Hx. unfold enc_item. cbn [fst snd]. do 2 f_equal.
    apply list_elem_of_In in Hx. rewrite sort_items_perm in Hx. rewrite Forall_forall in IH. apply (IH (k, x) Hx).
    apply (proj1 (forallb_forall (fun kv => well_keyed (snd kv)) l) H (k, x)). by apply list_elem_of_In.
Qed.

Lemma same_dumps a b : same_value a b -> json_dumps a = json_dumps b.
Proof. intros [E Ha Hb]. by rewrite <- (dumps_norm a Ha), E, dumps_norm. Qed.

Lemma get_norm l k v : NoDup (map fst l) -> json_get (JObj l) k = Ok v -> json_get (jnorm (JObj l)) k = Ok (jnorm v).
Proof.
  intros Hnd. cbn [jnorm json_get]. change (fun kv : string * json => (fst kv, jnorm (snd kv))) with norm_item. fold (item l k).
  destruct (item l k) as [[k' x]|] eqn:E; [|done]. intros [= ->]. apply (item_some _ _ _ Hnd) in E as [Hin Ek]. cbn in Ek. subst k'.
  assert (NoDup (map fst (sort_items (map norm_item l)))) as Hs by (by rewrite (Permutation_map fst (sort_items_perm _)), norm_keys).
  fold (item (sort_items (map norm_item l)) k). rewrite (proj2 (item_some _ k (norm_item (k, v)) Hs)); [done|].
  split; [|done]. rewrite sort_items_perm. by apply list_elem_of_fmap_2.
Qed.

Lemma filter_sorted {A} (P : string * A -> Prop) `{!forall x, Decision (P x)} (l : list (string * A)) : sorted_by_name l -> sorted_by_name (filter P l).
Proof.
  induction 1 as [|x l Hl IH Hx]; [constructor|]. rewrite filter_cons. destruct (decide (P x)); [|done]. constructor; [done|].
  rewrite Forall_forall in Hx |- *. intros y Hy. apply list_elem_of_filter in Hy as [_ Hy]. by apply Hx.
Qed.

Lemma filter_keys {A} (P : string * A -> Prop) `{!forall x, Decision (P x)} (l : list (string * A)) : NoDup (map fst l) -> NoDup (map fst (filter P l)).
Proof.
  induction l as [|x l IH]; [done|]. cbn [map]. rewrite NoDup_cons, filter_cons. intros [Hx Hl]. destruct (decide (P x)); [|by apply IH].
  cbn [map]. constructor; [|by apply IH]. intros Hin. apply Hx. apply list_elem_of_fmap in Hin as (y & -> & Hy). apply list_elem_of_filter in Hy as [_ Hy].
  by apply list_elem_of_fmap_2.
Qed.

Lemma without_norm l k : NoDup (map fst l) -> without k (jnorm (JObj l)) = jnorm (without k (JObj l)).
Proof.
  intros Hnd. cbn [jnorm without]. change (fun kv : string * json => (fst kv, jnorm (snd kv))) with norm_item. f_equal. apply sorted_by_name_unique.
  - apply filter_keys. by rewrite (Permutation_map fst (sort_items_perm _)), norm_keys.
  - apply filter_sorted, sort_items_sorted.
  - apply sort_items_sorted.
  - rewrite !sort_items_perm. clear. induction l as [|[k' x] l IH]; [done|]. cbn [map]. rewrite !filter_cons. cbn [norm_item fst].
    destruct (decide (k' <> k)); [|done]. cbn [map norm_item fst snd]. by rewrite IH.
Qed.

(** ** The round trip of a snapshot *)

Definition norm_snapshot (s : recovery_snapshot) : recovery_snapshot :=
  RecoverySnapshot (jnorm (rs_policy_sha256 s)) (jnorm (rs_spec_sha256 s)) (jnorm (rs_reconciliation_sha256 s)) (jnorm (rs_journal_sha256 s))
    (jnorm (rs_orders_sha256 s)) (jnorm (rs_portfolio_sha256 s)) (map jnorm (rs_intent_records s)) (map jnorm (rs_order_anchors s))
    (map jnorm (rs_fill_anchors s)) (jnorm (rs_order_event_count s)).

(** Every dictionary in the snapshot has each key once. *)
Definition snapshot_keyed (s : recovery_snapshot) : bool := well_keyed (JObj (snapshot_material s)).

Lemma material_keys s : NoDup (map fst (snapshot_material s)).
Proof. apply (bool_decide_unpack _). vm_compute. exact I. Qed.
Lemma record_keys s : NoDup (map fst (snapshot_material s ++ [("snapshot_sha256"%string, JStr (snapshot_sha256 s))])).
Proof. rewrite map_app. apply (bool_decide_unpack _). vm_compute. exact I. Qed.

Lemma snapshot_keyed_fields s : snapshot_keyed s = true <->
  Forall (fun j => well_keyed j = true) (snapshot_digests s ++ [rs_order_event_count s]) /\ Forall (fun j => well_keyed j = true) (rs_intent_records s)
  /\ Forall (fun j => well_keyed j = true) (rs_order_anchors s) /\ Forall (fun j => well_keyed j = true) (rs_fill_anchors s).
Proof.
  unfold snapshot_keyed. cbn [well_keyed]. rewrite bool_decide_true by apply material_keys. unfold snapshot_material, snapshot_digests.
  cbn [forallb snd well_keyed app andb]. rewrite !andb_true_iff, !Forall_cons, !forallb_Forall. naive_solver.
Qed.

Lemma same_norms l : Forall (fun j => well_keyed j = true) l -> Forall2 same_value l (map jnorm l).
Proof. induction 1; cbn [map]; constructor; [by apply same_norm|done]. Qed.

Lemma norm_keyed s : snapshot_keyed s = true -> snapshot_keyed (norm_snapshot s) = true.
Proof.
  rewrite !snapshot_keyed_fields. intros (H1 & H2 & H3 & H4).
  assert (forall l, Forall (fun j => well_keyed j = true) l -> Forall (fun j => well_keyed j = true) (map jnorm l)) as Hn.
  { intros l. induction 1; cbn [map]; constructor; [by apply well_keyed_norm|done]. }
  split; [|by split; [|split]; apply Hn]. exact (Hn _ H1).
Qed.

Lemma same_material s : snapshot_keyed s = true -> same_value (JObj (snapshot_material s)) (JObj (snapshot_material (norm_snapshot s))).
Proof.
  intros H. constructor; [|exact H|by apply norm_keyed]. cbn [jnorm]. f_equal. f_equal. apply snapshot_keyed_fields in H as (H1 & H2 & H3 & H4).
  assert (forall l, Forall (fun j => well_keyed j = true) l -> map jnorm (map jnorm l) = map jnorm l) as Hn.
  { intros l. induction 1; cbn [map]; [done|]. by rewrite jnorm_idem, IHForall. }
  unfold snapshot_material, norm_snapshot.
  cbn [map fst snd jnorm rs_policy_sha256 rs_spec_sha256 rs_reconciliation_sha256 rs_journal_sha256 rs_orders_sha256 rs_portfolio_sha256 rs_intent_records rs_order_anchors rs_fill_anchors rs_order_event_count].
  rewrite !Hn by done.
  pose proof (Hn _ H1) as E1. unfold snapshot_digests in E1. cbn [map app] in E1. injection E1 as E1 E2 E3 E4 E5 E6 E7. by rewrite E1, E2, E3, E4, E5, E6, E7.
Qed.

Lemma norm_post_init s : snapshot_keyed s = true -> snapshot_post_init (norm_snapshot s) = snapshot_post_init s.
Proof.
  intros H. apply snapshot_keyed_fields in H as (H1 & H2 & H3 & H4). apply same_norms in H1, H2, H3, H4. unfold snapshot_post_init.
  assert (existsb (fun v => negb (_valid_digest v)) (snapshot_digests (norm_snapshot s)) = existsb (fun v => negb (_valid_digest v)) (snapshot_digests s)) as ->.
  { unfold snapshot_digests in *. cbn [map app] in H1. repeat (apply Forall2_cons_1 in H1 as [?Hv H1]). cbn [existsb norm_snapshot rs_policy_sha256 rs_spec_sha256
      rs_reconciliation_sha256 rs_journal_sha256 rs_orders_sha256 rs_portfolio_sha256].
    repeat match goal with V : same_value ?a (jnorm ?a) |- _ => rewrite <- (same_digest a (jnorm a) V); clear V end. done. }
  assert (json_number (rs_order_event_count (norm_snapshot s)) = json_number (rs_order_event_count s)) as -> by (cbn; by destruct (rs_order_event_count s)).
  cbn [norm_snapshot rs_intent_records rs_order_anchors rs_fill_anchors]. rewrite !length_map.
  rewrite <- (same_rmap same_value intent_anchor _ _ same_intent_anchor H2).
  destruct (existsb _ _); [done|]. destruct (any_error _ _) as [n|]; [|done]. cbn [rbind]. destruct (n <? 0); [done|].
  destruct (rmap intent_anchor _) as [hs|]; [|done]. cbn [rbind]. destruct (_ || _); [done|].
  rewrite <- (same_rmap same_value (order_anchor hs) _ _ (same_order_anchor hs) H3). destruct (rmap (order_anchor hs) _) as [os|]; [|done]. cbn [rbind].
  by rewrite <- (same_rmap same_value fill_anchor _ _ same_fill_anchor H4).
Qed.

Lemma same_record s : snapshot_keyed s = true -> same_value (snapshot_as_record s) (snapshot_as_record (norm_snapshot s)) /\ snapshot_sha256 (norm_snapshot s) = snapshot_sha256 s.
Proof.
  intros H. pose proof (same_material s H) as Hm. assert (snapshot_sha256 (norm_snapshot s) = snapshot_sha256 s) as Es.
  { unfold snapshot_sha256, digest. f_equal. symmetry. by apply same_dumps. }
  split; [|done]. unfold snapshot_as_record. rewrite Es. destruct Hm as [E Hl Hr].
  assert (forall t h, snapshot_keyed t = true -> well_keyed (JObj (snapshot_material t ++ [("snapshot_sha256"%string, JStr h)])) = true) as Hk.
  { intros t h Ht. unfold snapshot_keyed in Ht. cbn [well_keyed] in *. apply andb_true_iff in Ht as [_ Ht]. rewrite forallb_app, Ht. cbn [forallb snd well_keyed andb].
    rewrite andb_true_r. apply bool_decide_true. apply (bool_decide_unpack _). vm_compute. exact I. }
  constructor; [|by apply Hk|by apply Hk, norm_keyed]. cbn [jnorm] in *. change (fun kv : string * json => (fst kv, jnorm (snd kv))) with norm_item in *.
  assert (sort_items (map norm_item (snapshot_material s)) = sort_items (map norm_item (snapshot_material (norm_snapshot s)))) as E' by congruence. clear E. f_equal.
  rewrite !map_app. apply sort_items_canonical.
  - rewrite <- map_app, norm_keys. apply (bool_decide_unpack _). vm_compute. exact I.
  - f_equiv. rewrite <- (sort_items_perm (map norm_item (snapshot_material s))), E'. apply sort_items_perm.
Qed.

(** ** Canonical text *)

Definition plain (c : ascii) : bool := ((32 <=? ord c) && (ord c <=? 126))%N.

Lemma digits_all_plain l : forallb is_digit l = true -> forallb plain l = true.
Proof.
  rewrite !forallb_forall. intros H c Hc. specialize (H c Hc). unfold is_digit, plain in *. rewrite andb_true_iff, !N.leb_le in *. lia.
Qed.

Lemma plain_string s : forallb plain (json_string s) = true.
Proof.
  unfold json_string. cbn [forallb]. rewrite forallb_app, andb_true_r. apply andb_true_iff. split; [done|]. induction (txt s) as [|c l IH]; [done|]. cbn [map concat].
  rewrite forallb_app, IH, andb_true_r. destruct c as [[] [] [] [] [] [] [] []]; reflexivity.
Qed.

Lemma plain_join l : Forall (fun t => forallb plain t = true) l -> forallb plain (join_comma l) = true.
Proof.
  destruct 1 as [|t l Ht Hl]; [done|]. cbn [join_comma]. rewrite forallb_app, Ht. induction Hl as [|u l Hu _ IH]; [done|]. cbn [map concat]. rewrite forallb_app. cbn [forallb].
  by rewrite Hu.
Qed.

Lemma dumps_plain j : forallb plain (json_dumps j) = true.
Proof.
  induction j as [|b|z|s|l IH|l IH] using json_ind'.
  - done.
  - by destruct b.
  - cbn [json_dumps]. unfold json_int. destruct (digits_of_spec (Z.abs_N z)) as (Hd & _). apply digits_all_plain in Hd. destruct (z <? 0); [|done]. exact Hd.
  - apply plain_string.
  - cbn [json_dumps forallb]. rewrite forallb_app, andb_true_r. apply plain_join. induction IH; cbn [map]; by constructor.
  - rewrite json_dumps_obj. cbn [forallb]. rewrite forallb_app, andb_true_r. apply plain_join. apply sort_items_Forall in IH. induction IH as [|[k x] m Hx _ IHm]; cbn [map]; constructor; [|done].
    unfold enc_item. rewrite forallb_app, plain_string. exact Hx.
Qed.

Lemma plain_decodes l : forallb plain l = true -> decode (l ++ [chr 10]) = Ok (l ++ [chr 10]).
Proof.
  intros H. unfold decode. rewrite forallb_app. assert (forallb (fun c => (ord c <? 128)%N) l = true) as ->.
  { rewrite forallb_forall in H |- *. intros c Hc. specialize (H c Hc). unfold plain in H. rewrite andb_true_iff, !N.leb_le in H. apply N.ltb_lt. lia. }
  cbn [andb]. change (forallb (fun c => (ord c <? 128)%N) [chr 10]) with true. cbn beta iota. f_equal. induction l as [|c l IH]; [done|]. cbn [forallb] in H. apply andb_true_iff in H as [Hc H].
  cbn [app universal_newlines]. unfold plain in Hc. rewrite andb_true_iff, !N.leb_le in Hc. rewrite (proj2 (N.eqb_neq (ord c) 13)) by lia. by rewrite IH.
Qed.

Definition fits_file (s : recovery_snapshot) : Prop := byte_count (snapshot_text s) <= MAX_SNAPSHOT_BYTES.

Lemma read_snapshot_text s : _read_limited (Bytes (snapshot_text s)) = if byte_count (snapshot_text s) <=? MAX_SNAPSHOT_BYTES then Ok (snapshot_text s)
  else Err (Raise RecoverySnapshotError "Snapshot size is invalid").
Proof.
  unfold _read_limited. cbn [is_file negb read_bytes rbind]. assert ((byte_count (snapshot_text s) <=? 0) = false) as ->.
  { unfold byte_count, snapshot_text. rewrite length_app. cbn [length]. apply Z.leb_gt. lia. }
  cbn [orb]. rewrite Z.ltb_antisym. destruct (_ <=? _); [|done]. cbn [negb]. unfold snapshot_text at 1. by rewrite (plain_decodes _ (dumps_plain _)).
Qed.

Lemma record_get_norm s k v : json_get (snapshot_as_record s) k = Ok v -> json_get (jnorm (snapshot_as_record s)) k = Ok (jnorm v).
Proof. apply get_norm, record_keys. Qed.

Lemma without_record s : without "snapshot_sha256" (jnorm (snapshot_as_record s)) = jnorm (JObj (snapshot_material s)).
Proof. unfold snapshot_as_record. rewrite without_norm by apply record_keys. reflexivity. Qed.

Lemma material_get_norm s k v : json_get (JObj (snapshot_material s)) k = Ok v -> json_get (jnorm (JObj (snapshot_material s))) k = Ok (jnorm v).
Proof. apply get_norm, material_keys. Qed.

(** What the text of a snapshot is read as: the snapshot with its keys in order. *)
Lemma text_read_back s : snapshot_keyed s = true -> snapshot_post_init s = Ok tt -> _snapshot_from_text (snapshot_text s) = Ok (norm_snapshot s).
Proof.
  intros Hk Hi. destruct (same_record s Hk) as [Hr Es]. unfold _snapshot_from_text. unfold snapshot_text at 1. unfold loads.
  rewrite read_json_dumps; [|apply Hr|by constructor]. cbn [rcatch rbind].
  rewrite <- (same_keys _ _ SNAPSHOT_KEYS (same_norm _ (sv_left _ _ Hr))). change (has_keys SNAPSHOT_KEYS (snapshot_as_record s)) with true. cbn [negb].
  rewrite (record_get_norm s "schema_version" (JInt RECOVERY_SNAPSHOT_SCHEMA_VERSION) eq_refl). cbn [rbind jnorm].
  change (py_eq (JInt RECOVERY_SNAPSHOT_SCHEMA_VERSION) (JInt RECOVERY_SNAPSHOT_SCHEMA_VERSION)) with true. cbn [negb].
  assert (json_get (snapshot_as_record s) "snapshot_sha256" = Ok (JStr (snapshot_sha256 s))) as Eg by reflexivity.
  rewrite (record_get_norm s "snapshot_sha256" _ Eg). cbn [rbind jnorm]. rewrite without_record.
  assert (digest (jnorm (JObj (snapshot_material s))) = snapshot_sha256 s) as Ed by (unfold digest; by rewrite (dumps_norm (JObj (snapshot_material s)) Hk)).
  rewrite Ed. rewrite (proj2 (py_eq_str _ _) eq_refl). cbn [_valid_digest]. unfold snapshot_sha256 at 1. rewrite digest_pattern. cbn [negb orb].
  rewrite (material_get_norm s "policy_sha256" (rs_policy_sha256 s) eq_refl), (material_get_norm s "spec_sha256" (rs_spec_sha256 s) eq_refl),
    (material_get_norm s "reconciliation_sha256" (rs_reconciliation_sha256 s) eq_refl), (material_get_norm s "journal_sha256" (rs_journal_sha256 s) eq_refl),
    (material_get_norm s "orders_sha256" (rs_orders_sha256 s) eq_refl), (material_get_norm s "portfolio_sha256" (rs_portfolio_sha256 s) eq_refl).
  cbn [rbind].
  rewrite (material_get_norm s "intent_records" (JArr (rs_intent_records s)) eq_refl), (material_get_norm s "order_anchors" (JArr (rs_order_anchors s)) eq_refl),
    (material_get_norm s "fill_anchors" (JArr (rs_fill_anchors s)) eq_refl), (material_get_norm s "order_event_count" (rs_order_event_count s) eq_refl).
  cbn [rbind jnorm py_tuple]. fold (norm_snapshot s). unfold new_snapshot. rewrite (norm_post_init s Hk), Hi. cbn [rbind].
  rewrite Es, (proj2 (py_eq_str _ _) eq_refl). unfold snapshot_text. rewrite <- (same_dumps _ _ Hr). by rewrite bool_decide_true.
Qed.

Lemma snapshot_eqb_norm s : snapshot_keyed s = true -> snapshot_eqb (norm_snapshot s) s = true.
Proof. intros H. apply py_eq_same, same_sym. by apply same_material. Qed.

Lemma norm_text s : snapshot_keyed s = true -> snapshot_text (norm_snapshot s) = snapshot_text s.
Proof. intros H. unfold snapshot_text. f_equal. symmetry. apply same_dumps. by apply same_record. Qed.

(** Whatever loads is the canonical text of the snapshot it loads as. *)
Lemma loaded_canonical f s : load_recovery_snapshot f = Ok s -> exists b, f = Bytes b /\ decode b = Ok (snapshot_text s) /\ byte_count b <= MAX_SNAPSHOT_BYTES
  /\ snapshot_post_init s = Ok tt.
Proof.
  unfold load_recovery_snapshot. intros H. apply rbind_ok in H as (t & Ht & H). unfold _read_limited in Ht.
  destruct (negb (is_file f)); [done|]. apply rbind_ok in Ht as (b & Hb & Ht). destruct f as [| | |b']; try done. cbn [read_bytes] in Hb. apply Ok_inj in Hb. subst b'.
  apply raise_if_ok in Ht as [Hsz Ht]. apply orb_false_iff in Hsz as [_ Hsz]. apply Z.ltb_ge in Hsz. unfold any_error in Ht.
  destruct (decode b) as [t'|] eqn:Ed; [|done]. apply Ok_inj in Ht. subst t'. exists b. split; [done|].
  unfold _snapshot_from_text in H. apply rbind_ok in H as (r & _ & H). apply raise_if_ok in H as [_ H]. apply rbind_ok in H as (v & _ & H).
  apply raise_if_ok in H as [_ H]. apply rbind_ok in H as (sup & _ & H). cbv zeta in H. apply raise_if_ok in H as [_ H].
  do 13 apply rbind_ok in H as (? & _ & H). apply rbind_ok in H as (s' & Hs & H). apply raise_if_ok in H as [Hc H]. apply Ok_inj in H. subst s'.
  apply orb_false_iff in Hc as [Hc _]. apply negb_false_iff, bool_decide_eq_true in Hc. subst t. split; [done|]. split; [done|].
  unfold new_snapshot in Hs. apply rbind_ok in Hs as ([] & Hi & Hs). apply Ok_inj in Hs. by subst s.
Qed.

Lemma load_text s : snapshot_keyed s = true -> snapshot_post_init s = Ok tt -> load_recovery_snapshot (Bytes (snapshot_text s))
  = if byte_count (snapshot_text s) <=? MAX_SNAPSHOT_BYTES then Ok (norm_snapshot s) else Err (Raise RecoverySnapshotError "Snapshot size is invalid").
Proof.
  intros Hk Hi. unfold load_recovery_snapshot. rewrite read_snapshot_text. destruct (_ <=? _); [|done]. cbn [rbind]. by apply text_read_back.
Qed.

(** ** The size of a text *)

(** An upper bound of the length of a canonical text. *)
Definition string_bound (s : string) : Z := 2 + 6 * Z.of_nat (length (txt s)).
Definition sum_bounds (l : list Z) : Z := fold_right (fun a n => a + 1 + n) 2 l.
Fixpoint text_bound (j : json) : Z :=
  match j with
  | JNull | JBool _ => 5
  | JInt n => 1 + Z.of_nat (length (digits_of (Z.abs_N n)))
  | JStr s => string_bound s
  | JArr l => sum_bounds (map text_bound l)
  | JObj l => sum_bounds (map (fun kv => string_bound (fst kv) + 1 + text_bound (snd kv)) l)
  end.

Lemma string_bound_ok s : Z.of_nat (length (json_string s)) <= string_bound s.
Proof.
  unfold json_string, string_bound. cbn [length]. rewrite length_app. cbn [length]. enough (length (concat (map json_chr (txt s))) <= 6 * length (txt s))%nat by lia.
  induction (txt s) as [|c l IH]; [done|]. cbn [map concat length]. rewrite length_app. assert (length (json_chr c) <= 6)%nat; [|lia].
  destruct c as [[] [] [] [] [] [] [] []]; cbv; lia.
Qed.

Lemma join_bound l m : Forall2 (fun (t : text) (n : Z) => Z.of_nat (length t) <= n) l m -> 2 + Z.of_nat (length (join_comma l)) <= sum_bounds m.
Proof.
  intros H. assert (2 + Z.of_nat (length (concat (map (fun y => ","%char :: y) l))) <= sum_bounds m) as Hc.
  { induction H as [|t n l m Ht _ IH]; [done|]. cbn [map concat sum_bounds fold_right]. rewrite length_app. cbn [length]. unfold sum_bounds in IH. lia. }
  destruct H as [|t n l m Ht H]; [done|]. cbn [join_comma map concat] in *. rewrite length_app in *. cbn [length] in Hc. lia.
Qed.

Lemma sum_bounds_perm l m : l ≡ₚ m -> sum_bounds l = sum_bounds m.
Proof. unfold sum_bounds. induction 1; cbn [fold_right]; lia. Qed.

Lemma dumps_bound j : Z.of_nat (length (json_dumps j)) <= text_bound j.
Proof.
  induction j as [|b|z|s|l IH|l IH] using json_ind'.
  - cbn. lia.
  - destruct b; cbn; lia.
  - cbn [json_dumps text_bound]. unfold json_int. destruct (z <? 0); cbn [length]; lia.
  - apply string_bound_ok.
  - cbn [json_dumps text_bound]. assert (2 + Z.of_nat (length (join_comma (map json_dumps l))) <= sum_bounds (map text_bound l)) as H by (apply join_bound; induction IH; cbn [map]; by constructor).
    cbn [length]. rewrite length_app. cbn [length]. lia.
  - rewrite json_dumps_obj. cbn [text_bound]. set (b := fun kv : string * json => string_bound (fst kv) + 1 + text_bound (snd kv)).
    assert (sum_bounds (map b l) = sum_bounds (map b (sort_items l))) as ->.
    { apply sum_bounds_perm, Permutation_map. symmetry. apply sort_items_perm. }
    assert (2 + Z.of_nat (length (join_comma (map enc_item (sort_items l)))) <= sum_bounds (map b (sort_items l))) as H; [|cbn [length]; rewrite length_app; cbn [length]; lia].
    apply join_bound. apply sort_items_Forall in IH. induction IH as [|[k x] m Hx _ IHm]; cbn [map]; constructor; [|done]. unfold enc_item, b. cbn [fst snd] in *. rewrite length_app. cbn [length].
    pose proof (string_bound_ok k). lia.
Qed.

Lemma digest_bound h : sha256_pattern h = true -> string_bound h = 386.
Proof. unfold sha256_pattern, string_bound. rewrite andb_true_iff, Nat.eqb_eq. intros [_ ->]. reflexivity. Qed.

Definition zeros : string := "0000000000000000000000000000000000000000000000000000000000000000".

Lemma snapshot_sha_pattern s : sha256_pattern (snapshot_sha256 s) = true.
Proof. apply digest_pattern. Qed.

Lemma text_fits s : text_bound (snapshot_as_record s) <= 100000 -> fits_file s.
Proof.
  intros H. unfold fits_file, byte_count, snapshot_text. rewrite length_app. pose proof (dumps_bound (snapshot_as_record s)). cbn [length]. unfold MAX_SNAPSHOT_BYTES. lia.
Qed.

(** * Claims *)

(** C36. Snapshots round-trip through their file.  Any snapshot its constructor
    accepts, whose text fits the size limit, is read back from that text as an
    equal snapshot with the same digest and the same text; and whatever file loads
    at all holds, once decoded, exactly the canonical text of the snapshot it loads
    as, which the constructor accepts: no other spelling of it does. *)
Theorem snapshot_roundtrip s (Hk : snapshot_keyed s = true) (Hi : snapshot_post_init s = Ok tt) (Hf : fits_file s) :
  (exists t, load_recovery_snapshot (Bytes (snapshot_text s)) = Ok t /\ snapshot_eqb t s = true /\ snapshot_sha256 t = snapshot_sha256 s /\ snapshot_text t = snapshot_text s)
  /\ forall f t, load_recovery_snapshot f = Ok t -> exists b, f = Bytes b /\ decode b = Ok (snapshot_text t) /\ byte_count b <= MAX_SNAPSHOT_BYTES /\ snapshot_post_init t = Ok tt.
Proof.
  split; [|exact loaded_canonical]. exists (norm_snapshot s). rewrite (load_text s Hk Hi), (proj2 (Z.leb_le _ _) Hf). split; [done|].
  split; [by apply snapshot_eqb_norm|]. split; [by apply same_record|by apply norm_text].
Qed.

(** A snapshot of an empty database. *)
Definition empty_snapshot : recovery_snapshot :=
  RecoverySnapshot (JStr zeros) (JStr zeros) (JStr zeros) (JStr zeros) (JStr zeros) (JStr zeros) [] [] [] (JInt 0).

Lemma empty_snapshot_fits : fits_file empty_snapshot.
Proof.
  apply text_fits. unfold snapshot_as_record, snapshot_material, empty_snapshot. cbn [rs_policy_sha256 rs_spec_sha256 rs_reconciliation_sha256 rs_journal_sha256 rs_orders_sha256
    rs_portfolio_sha256 rs_intent_records rs_order_anchors rs_fill_anchors rs_order_event_count app map text_bound fst snd].
  match goal with |- context [string_bound (snapshot_sha256 ?s)] => rewrite (digest_bound _ (snapshot_sha_pattern s)) end. apply (bool_decide_unpack _). reflexivity.
Qed.

Lemma snapshot_roundtrip_witness : exists t, load_recovery_snapshot (Bytes (snapshot_text empty_snapshot)) = Ok t /\ snapshot_eqb t empty_snapshot = true.
Proof.
  destruct (snapshot_roundtrip empty_snapshot eq_refl eq_refl empty_snapshot_fits) as ((t & H1 & H2 & _) & _). exists t. split; [exact H1|exact H2].
Defined.
