(* ===== verification/Recovery.v ===== *)
(** * Recovery (yatl/execution/recovery.py, second part)

    Snapshots of a reconciled database are built, committed to a file through a
    pending one, and checked at startup: the database must still extend what the
    snapshot anchors, and anything ambiguous is refused.  The file system is the two
    paths a snapshot uses; how the operating system answers a write, and what a
    failing one leaves behind, is an argument. *)
From stdpp Require Import gmap sorting.
From S2P Require Import Prelude PyDecimal PyText Digest JsonText Market BacktestConfig MarketView Fills Costs Ledger HashChain Regime RiskState RiskAdapter Execution Journal OrderState LocalFills Portfolio Reconcile Snapshot.

Inductive recovery_code : Type :=
| RC_MATCH | TAIL_REPLAYED | JOURNAL_REBUILD_READY | SNAPSHOT_CORRUPT | POLICY_DRIFT | SPEC_DRIFT | SNAPSHOT_PREFIX_MISMATCH
| JOURNAL_RECONCILIATION_FAILED | AMBIGUOUS_COMMIT | RC_STORAGE_ERROR.
#[global] Instance recovery_code_eq_dec : EqDecision recovery_code.
Proof. solve_decision. Defined.

Definition recovery_code_value (c : recovery_code) : string :=
  match c with
  | RC_MATCH => "MATCH" | TAIL_REPLAYED => "TAIL_REPLAYED" | JOURNAL_REBUILD_READY => "JOURNAL_REBUILD_READY"
  | SNAPSHOT_CORRUPT => "SNAPSHOT_CORRUPT" | POLICY_DRIFT => "POLICY_DRIFT" | SPEC_DRIFT => "SPEC_DRIFT"
  | SNAPSHOT_PREFIX_MISMATCH => "SNAPSHOT_PREFIX_MISMATCH" | JOURNAL_RECONCILIATION_FAILED => "JOURNAL_RECONCILIATION_FAILED"
  | AMBIGUOUS_COMMIT => "AMBIGUOUS_COMMIT" | RC_STORAGE_ERROR => "STORAGE_ERROR"
  end.

Definition _policy_sha256 (p : execution_policy) : string := digest (JObj [("schema_version"%string, JInt 1); ("policy"%string, policy_json p)]).
Definition _spec_sha256 (spec : backtest_spec) : string := digest (_spec_record spec).

(** ** The report *)

Record recovery_report : Type := RecoveryReport {
  rr_ready : bool;
  rr_code : recovery_code;
  rr_reconciliation_sha256 : option string;
  rr_snapshot_sha256 : option string;
  tail_intents : Z;
  tail_order_events : Z;
  tail_fills : Z;
  manual_confirmation_sha256 : option string;
}.

Definition recovery_report_post_init (r : recovery_report) : result unit :=
  raise_if existsb (fun v => v <? 0) [tail_intents r; tail_order_events r; tail_fills r] with RecoverySnapshotError "Recovery tail counts are invalid" ;;
  raise_if existsb (fun v => match v with Some h => negb (sha256_pattern h) | None => false end)
             [rr_reconciliation_sha256 r; rr_snapshot_sha256 r; manual_confirmation_sha256 r]
    with RecoverySnapshotError "Recovery report digest is invalid" ;;
  raise_if rr_ready r && opt_is_none (rr_reconciliation_sha256 r) with RecoverySnapshotError "Ready recovery report lacks reconciliation evidence" ;;
  if bool_decide (rr_code r = AMBIGUOUS_COMMIT) then
    raise_if opt_is_none (manual_confirmation_sha256 r) || rr_ready r with RecoverySnapshotError "Ambiguous recovery requires manual confirmation" ;;
    Ok tt
  else
    raise_if negb (opt_is_none (manual_confirmation_sha256 r)) with RecoverySnapshotError "Unexpected manual confirmation evidence" ;;
    Ok tt.
Definition new_recovery_report (r : recovery_report) : result recovery_report := do* recovery_report_post_init r ;; Ok r.

Definition recovery_material (r : recovery_report) : list (string * json) := [
  ("schema_version", JInt 1); ("status", JStr (if rr_ready r then "READY" else "RECOVERY_REQUIRED")); ("code", JStr (recovery_code_value (rr_code r)));
  ("reconciliation_sha256", JOptStr (rr_reconciliation_sha256 r)); ("snapshot_sha256", JOptStr (rr_snapshot_sha256 r));
  ("tail_intents", JInt (tail_intents r)); ("tail_order_events", JInt (tail_order_events r)); ("tail_fills", JInt (tail_fills r));
  ("manual_confirmation_sha256", JOptStr (manual_confirmation_sha256 r))]%string.
Definition recovery_sha256 (r : recovery_report) : string := digest (JObj (recovery_material r)).

(** The evidence execution requires. *)
Definition recovery_readiness (r : recovery_report) : readiness :=
  if rr_ready r then RecoveryReadiness READY RECONCILIATION_PASSED (rr_reconciliation_sha256 r)
  else RecoveryReadiness RECOVERY_REQUIRED RECONCILIATION_FAILED (Some (recovery_sha256 r)).
Definition recovery_as_record (r : recovery_report) : json :=
  JObj (recovery_material r ++ [("recovery_sha256"%string, JStr (recovery_sha256 r))]).

(** ** Building *)

(** [except (sqlite3.Error, KeyError, TypeError, ValueError)] *)
Definition SNAPSHOT_ERRORS : list exn_class := IntegrityError :: OperationalError :: KeyError :: VALUE_ERRORS.

(** A query of one table; a missing database has none (connecting creates an empty one). *)
Definition select {A} (path : database) (table : string) (q : portfolio_db -> A) : result A :=
  match path with
  | Opened f => if str_in table (ef_tables f) then Ok (q (ef_db f)) else Err (Raise OperationalError "no such table")
  | _ => Err (Raise OperationalError "unable to open database file")
  end.

Definition intent_rows (db : portfolio_db) : list intent_record := merge_sort row_le (rows_of (od_intents (pd_orders db))).
Definition state_rows (db : portfolio_db) : list state_row := merge_sort state_key_le (rows_of (od_states (pd_orders db))).

Definition state_anchor (s : order_state) : json := JObj [
  ("authorization_sha256", JStr (os_authorization_sha256 s)); ("sequence", JInt (os_sequence s)); ("event_sha256", JStr (os_event_sha256 s));
  ("state_sha256", JStr (order_state_sha256 s)); ("state", order_state_as_record s)]%string.
Definition row_anchor (r : fill_row) : json := JObj [("sequence", JInt (fw_sequence r)); ("fill_event_sha256", JStr (fw_event_sha256 r))]%string.

Definition _build_snapshot (path : database) (spec : backtest_spec) (policy : execution_policy) : result recovery_snapshot :=
  let* report := reconcile_startup path spec in
  raise_if negb (rp_ready report) || negb (bool_decide (rp_code report = MATCH))
    with RecoverySnapshotError "Authoritative execution state is not reconciled" ;;
  let* anchors := rcatch (
    let* rows := select path "local_paper_intents" intent_rows in
    let* records := rmap (fun r => let* i := new_intent_record r in Ok (intent_as_record i)) rows in
    let* rows := select path "local_paper_order_states" state_rows in
    let* states := rmap (fun r => let* s := row_state r in Ok (state_anchor s)) rows in
    let* rows := select path "local_paper_fill_events" (fun db => sort_by fw_sequence (rows_of (pd_fills db))) in
    let* events := select path "local_paper_order_events" (fun db => Z.of_nat (size (od_events (pd_orders db)))) in
    Ok (records, states, map row_anchor rows, events))
    SNAPSHOT_ERRORS (Raise RecoverySnapshotError "Cannot build snapshot anchors") in
  let '(records, states, fills, events) := anchors in
  new_snapshot (RecoverySnapshot (JStr (_policy_sha256 policy)) (JStr (_spec_sha256 spec)) (JStr (report_sha256 report))
    (JOptStr (rp_journal_sha256 report)) (JOptStr (rp_orders_sha256 report)) (JOptStr (rp_portfolio_sha256 report)) records states fills (JInt events)).

(** ** The commit *)

(** The two paths: the snapshot and its [.pending]. *)
Record snapshot_files : Type := SnapshotFiles { sf_target : file; sf_pending : file }.

(** How the operating system answers: everything succeeds; the directory cannot be
    made; opening fails, as the file has appeared or otherwise; writing fails after
    some bytes; the rename fails. *)
Inductive commit_outcome : Type := Committed | DirectoryFails | PendingAppears (present : text) | OpenFails | WriteFails (written : text) | ReplaceFails.

Definition create_recovery_snapshot (path : database) (spec : backtest_spec) (policy : option execution_policy) (o : commit_outcome)
    : stm snapshot_files recovery_snapshot :=
  let policy := match policy with Some p => p | None => default_execution_policy end in
  let! s := slift (_build_snapshot path spec policy) in
  match o with
  | DirectoryFails => sraise (Raise RecoverySnapshotError "Cannot prepare snapshot directory")
  | _ =>
      let! fs := sget in
      if exists_file (sf_pending fs) then sraise (Raise RecoverySnapshotError "Pending snapshot commit requires explicit confirmation") else
      if exists_file (sf_target fs) then
        let! existing := slift (load_recovery_snapshot (sf_target fs)) in
        if snapshot_eqb existing s then sret existing
        else sraise (Raise RecoverySnapshotError "Existing snapshot differs from current reconciled state")
      else
        match o with
        | PendingAppears present => do! sput (SnapshotFiles (sf_target fs) (Bytes present)) ;; sraise (Raise RecoverySnapshotError "Pending snapshot commit already exists")
        | OpenFails => sraise (Raise RecoverySnapshotError "Snapshot commit outcome is ambiguous")
        | WriteFails written => do! sput (SnapshotFiles (sf_target fs) (Bytes written)) ;; sraise (Raise RecoverySnapshotError "Snapshot commit outcome is ambiguous")
        | ReplaceFails => do! sput (SnapshotFiles (sf_target fs) (Bytes (snapshot_text s))) ;; sraise (Raise RecoverySnapshotError "Snapshot commit outcome is ambiguous")
        | _ => do! sput (SnapshotFiles (Bytes (snapshot_text s)) NoFile) ;; sret s
        end
  end.

Definition _pending_confirmation (fs : snapshot_files) : result string :=
  let* pending := read_bytes (sf_pending fs) "Pending snapshot evidence cannot be read" in
  raise_if MAX_SNAPSHOT_BYTES <? byte_count pending with RecoverySnapshotError "Pending snapshot evidence is invalid" ;;
  let* final :=
    if is_file (sf_target fs) then
      let* final := read_bytes (sf_target fs) "Pending snapshot evidence cannot be read" in
      raise_if MAX_SNAPSHOT_BYTES <? byte_count final with RecoverySnapshotError "Final snapshot evidence is invalid" ;;
      Ok (Some (sha256_hex final))
    else Ok None in
  Ok (digest (JObj [("schema_version", JInt 1); ("action", JStr "DISCARD_PENDING_ONLY"); ("pending_sha256", JStr (sha256_hex pending));
                    ("final_sha256", JOptStr final)]%string)).

(** [removable]: the operating system lets the pending file be unlinked. *)
Definition confirm_pending_snapshot (confirmation : string) (removable : bool) : stm snapshot_files string :=
  if negb (sha256_pattern confirmation) then sraise (Raise RecoverySnapshotError "Manual confirmation digest is invalid") else
  let! fs := sget in
  let! expected := slift (_pending_confirmation fs) in
  if negb (String.eqb confirmation expected) then sraise (Raise RecoverySnapshotError "Manual confirmation evidence changed") else
  if negb removable then sraise (Raise RecoverySnapshotError "Cannot discard pending snapshot") else
  do! sput (SnapshotFiles (sf_target fs) NoFile) ;;
  sret expected.

(** ** Startup *)

Record store_counts : Type := StoreCounts { ct_intents : Z; ct_orders : Z; ct_order_events : Z; ct_fills : Z }.

(** The loop body on each element until one gives false ([return None]). *)
Fixpoint all_hold {A} (f : A -> result bool) (l : list A) : result bool :=
  match l with
  | [] => Ok true
  | x :: l' => let* b := f x in if b then all_hold f l' else Ok false
  end.

Definition intent_holds (path : database) (record : json) : result bool :=
  let* h := get_text record "authorization_sha256" in
  let* row := select path "local_paper_intents" (fun db => od_intents (pd_orders db) !! h) in
  match row with
  | None => Ok false
  | Some r => let* current := new_intent_record r in Ok (py_eq (intent_as_record current) record)
  end.

Definition order_holds (path : database) (anchor : json) : result bool :=
  let* h := get_text anchor "authorization_sha256" in
  let* n := get_number anchor "sequence" in
  let* sha := json_get anchor "event_sha256" in
  let* state_sha := json_get anchor "state_sha256" in
  let* event := select path "local_paper_order_events" (fun db => od_events (pd_orders db) !! (h, n)) in
  let* state := select path "local_paper_order_states" (fun db => od_states (pd_orders db) !! h) in
  match event, state with
  | Some e, Some s =>
      Ok (py_eq (JStr (er_event_sha256 e)) sha && negb (sr_sequence s <? n)
          && negb ((sr_sequence s =? n) && negb (py_eq (JStr (sr_state_sha256 s)) state_sha)))
  | _, _ => Ok false
  end.

(** When fills of several symbols have the number, SQLite gives one of them. *)
Definition fill_holds (path : database) (anchor : json) : result bool :=
  let* n := get_number anchor "sequence" in
  let* sha := json_get anchor "fill_event_sha256" in
  let* row := select path "local_paper_fill_events" (fun db => find (fun r => fw_sequence r =? n) (rows_of (pd_fills db))) in
  match row with Some r => Ok (py_eq (JStr (fw_event_sha256 r)) sha) | None => Ok false end.

Definition _validate_snapshot_prefix (path : database) (s : recovery_snapshot) : result (option store_counts) :=
  let checked :=
    (let* b := all_hold (intent_holds path) (rs_intent_records s) in
     if negb b then Ok None else
     let* b := all_hold (order_holds path) (rs_order_anchors s) in
     if negb b then Ok None else
     let* b := all_hold (fill_holds path) (rs_fill_anchors s) in
     if negb b then Ok None else
     let* intents := select path "local_paper_intents" (fun db => Z.of_nat (size (od_intents (pd_orders db)))) in
     let* orders := select path "local_paper_order_states" (fun db => Z.of_nat (size (od_states (pd_orders db)))) in
     let* events := select path "local_paper_order_events" (fun db => Z.of_nat (size (od_events (pd_orders db)))) in
     let* fills := select path "local_paper_fill_events" (fun db => Z.of_nat (size (pd_fills db))) in
     Ok (Some (StoreCounts intents orders events fills))) in
  match checked with
  | Err e => if bool_decide (exn_cls e ∈ SNAPSHOT_ERRORS) then Ok None else Err e
  | Ok c => Ok c
  end.

(** A report that is not READY. *)
Definition refusal_report (c : recovery_code) (reconciliation snapshot confirmation : option string) : result recovery_report :=
  new_recovery_report (RecoveryReport false c reconciliation snapshot 0 0 0 confirmation).

Definition recover_startup (path : database) (fs : snapshot_files) (spec : backtest_spec) (policy : option execution_policy) : result recovery_report :=
  let policy := match policy with Some p => p | None => default_execution_policy end in
  let expected_policy_sha256 := _policy_sha256 policy in
  let expected_spec_sha256 := _spec_sha256 spec in
  if exists_file (sf_pending fs) then
    match _pending_confirmation fs with
    | Ok confirmation => refusal_report AMBIGUOUS_COMMIT None None (Some confirmation)
    | Err e => if bool_decide (exn_cls e = RecoverySnapshotError) then refusal_report RC_STORAGE_ERROR None None None else Err e
    end
  else if negb (exists_file (sf_target fs)) then
    let* source := reconcile_startup path spec in
    if rp_ready source then new_recovery_report (RecoveryReport true JOURNAL_REBUILD_READY (Some (report_sha256 source)) None 0 0 0 None)
    else refusal_report JOURNAL_RECONCILIATION_FAILED (Some (report_sha256 source)) None None
  else
    match load_recovery_snapshot (sf_target fs) with
    | Err e => if bool_decide (exn_cls e = RecoverySnapshotError) then refusal_report SNAPSHOT_CORRUPT None None None else Err e
    | Ok s =>
        let sha := Some (snapshot_sha256 s) in
        if negb (py_eq (JStr expected_policy_sha256) (rs_policy_sha256 s)) then refusal_report POLICY_DRIFT None sha None else
        if negb (py_eq (JStr expected_spec_sha256) (rs_spec_sha256 s)) then refusal_report SPEC_DRIFT None sha None else
        let* counts := _validate_snapshot_prefix path s in
        match counts with
        | None => refusal_report SNAPSHOT_PREFIX_MISMATCH None sha None
        | Some c =>
            let* events := json_number (rs_order_event_count s) in
            if (ct_intents c <? intent_count s) || (ct_orders c <? order_count s) || (ct_order_events c <? events) || (ct_fills c <? fill_count s)
            then refusal_report SNAPSHOT_PREFIX_MISMATCH None sha None
            else
              let* source := reconcile_startup path spec in
              if negb (rp_ready source) then refusal_report JOURNAL_RECONCILIATION_FAILED (Some (report_sha256 source)) sha None else
              let intents := ct_intents c - intent_count s in
              let orders := ct_order_events c - events in
              let fills := ct_fills c - fill_count s in
              let code := if existsb (fun n => negb (n =? 0)) [intents; orders; fills] then TAIL_REPLAYED else RC_MATCH in
              new_recovery_report (RecoveryReport true code (Some (report_sha256 source)) sha intents orders fills None)
        end
    end.

(** * Properties *)

(** ** The snapshot of a reconciled database *)

Lemma intent_record_keyed i : well_keyed (intent_as_record i) = true.
Proof. reflexivity. Qed.

Lemma rebuilt_own_intent i : intent_valid_record i -> rebuilt_intent (intent_as_record i) = Ok i.
Proof.
  intros H. assert (rebuilt_intent (intent_as_record i) = new_intent_record i) as -> by by destruct i. unfold new_intent_record. by rewrite H.
Qed.

Lemma own_intent_anchor i : intent_valid_record i -> intent_anchor (intent_as_record i) = Ok (in_authorization_sha256 i).
Proof.
  intros H. unfold intent_anchor. change (has_keys INTENT_RECORD_KEYS (intent_as_record i)) with true. cbn [negb]. rewrite (rebuilt_own_intent i H). cbn [any_error rbind].
  by rewrite (py_eq_refl _ (intent_record_keyed i)).
Qed.

Lemma state_record_keyed s : well_keyed (order_state_as_record s) = true.
Proof. destruct s as [h i n t st r [p|] e]; reflexivity. Qed.

Lemma rebuilt_own_state s : order_state_valid s -> rebuilt_state (order_state_as_record s) = Ok s.
Proof.
  intros H. destruct s as [h i n t st r p e]. assert (rebuilt_state (order_state_as_record (LocalPaperOrderState h i n t st r p e)) = new_order_state (LocalPaperOrderState h i n t st r p e)) as ->.
  { unfold rebuilt_state. cbn [order_state_as_record]. unfold order_state_material. cbn [app os_authorization_sha256 os_intent_sha256 os_sequence os_updated_time_ms os_status os_reason os_previous_state_sha256 os_event_sha256].
    change (order_status_of (order_status_value st)) with (order_status_of (order_status_value st)).
    unfold get_text at 1 2 3. cbn [json_get find fst snd String.eqb rbind json_text]. unfold get_number. cbn -[order_status_of order_reason_of new_order_state order_state_sha256].
    rewrite order_status_roundtrip. cbn -[order_reason_of new_order_state order_state_sha256]. rewrite order_reason_roundtrip. cbn -[new_order_state order_state_sha256]. by destruct p. }
  unfold new_order_state. unfold order_state_valid in H. by rewrite H.
Qed.

Lemma state_digests s : order_state_valid s -> sha256_pattern (os_authorization_sha256 s) = true /\ sha256_pattern (os_event_sha256 s) = true /\ 0 <= os_sequence s.
Proof.
  unfold order_state_valid, order_state_post_init. intros H. apply raise_if_ok in H as [H1 H]. apply raise_if_ok in H as [H2 H]. apply raise_if_ok in H as [_ H].
  apply raise_if_ok in H as [_ H]. apply rbind_ok in H as ([] & _ & H). apply raise_if_ok in H as [H3 _]. bool_prop. split; [by destruct H1|]. split; [done|lia].
Qed.

Lemma own_order_anchor hs s : order_state_valid s -> os_authorization_sha256 s ∈ hs ->
  order_anchor hs (state_anchor s) = Ok (os_authorization_sha256 s, os_sequence s).
Proof.
  intros H Hin. destruct (state_digests s H) as (_ & He & Hn). unfold order_anchor. change (has_keys ORDER_ANCHOR_KEYS (state_anchor s)) with true. cbn [negb].
  change (get_text (state_anchor s) "authorization_sha256") with (Ok (os_authorization_sha256 s)). change (get_number (state_anchor s) "sequence") with (Ok (os_sequence s)).
  change (json_get (state_anchor s) "event_sha256") with (Ok (JStr (os_event_sha256 s))). change (json_get (state_anchor s) "state_sha256") with (Ok (JStr (order_state_sha256 s))).
  change (json_get (state_anchor s) "state") with (Ok (order_state_as_record s)). cbn [rbind]. unfold order_state_as_record at 1. cbn [_valid_digest]. rewrite He. unfold order_state_sha256 at 1. rewrite digest_pattern.
  rewrite (proj2 (str_in_spec _ _) Hin), (proj2 (Z.ltb_ge _ _) Hn). cbn [negb orb any_error rbind]. rewrite (rebuilt_own_state s H). cbn [any_error rbind].
  by rewrite (py_eq_refl _ (state_record_keyed s)), String.eqb_refl, Z.eqb_refl, !(proj2 (py_eq_str _ _) eq_refl).
Qed.

Lemma own_fill_anchor w : sha256_pattern (fw_event_sha256 w) = true -> fill_anchor (row_anchor w) = Ok (fw_sequence w).
Proof.
  intros H. unfold fill_anchor. change (has_keys FILL_ANCHOR_KEYS (row_anchor w)) with true. cbn [negb].
  change (get_number (row_anchor w) "sequence") with (Ok (fw_sequence w)). change (json_get (row_anchor w) "fill_event_sha256") with (Ok (JStr (fw_event_sha256 w))).
  cbn [rbind _valid_digest]. by rewrite H.
Qed.

(** The snapshot of these rows. *)
Definition built (policy : execution_policy) (spec : backtest_spec) (report : reconciliation_report) (intents : list intent_record) (states : list order_state)
    (fills : list fill_row) (events : Z) : recovery_snapshot :=
  RecoverySnapshot (JStr (_policy_sha256 policy)) (JStr (_spec_sha256 spec)) (JStr (report_sha256 report))
    (JOptStr (rp_journal_sha256 report)) (JOptStr (rp_orders_sha256 report)) (JOptStr (rp_portfolio_sha256 report))
    (map intent_as_record intents) (map state_anchor states) (map row_anchor fills) (JInt events).

Lemma rmap_map {A B C} (f : A -> B) (g : B -> result C) (k : A -> C) l : (forall x, x ∈ l -> g (f x) = Ok (k x)) -> rmap g (map f l) = Ok (map k l).
Proof.
  induction l as [|x l IH]; intros H; [done|]. cbn [map rmap]. rewrite (H x) by apply list_elem_of_here. cbn [rbind].
  rewrite IH; [done|]. intros y Hy. by apply H, list_elem_of_further.
Qed.

(** What the rows must satisfy to be the snapshot of a consistent state. *)
Record snapshot_rows (intents : list intent_record) (states : list order_state) (fills : list fill_row) (events : Z) : Prop := {
  sr_intents : Forall intent_valid_record intents;
  sr_states : Forall order_state_valid states;
  sr_sorted : isort String.leb (map in_authorization_sha256 intents) = map in_authorization_sha256 intents;
  sr_distinct : NoDup (map in_authorization_sha256 intents);
  sr_covered : map os_authorization_sha256 states = map in_authorization_sha256 intents;
  sr_digests : Forall (fun w => sha256_pattern (fw_event_sha256 w) = true) fills;
  sr_numbers : map fw_sequence fills = seqZ 0 (Z.of_nat (length fills));
  sr_events : events = fold_right Z.add 0 (map (fun s => os_sequence s + 1) states);
}.

Record ready_evidence_of (report : reconciliation_report) : Prop := {
  re_journal : exists h, rp_journal_sha256 report = Some h /\ sha256_pattern h = true;
  re_orders : exists h, rp_orders_sha256 report = Some h /\ sha256_pattern h = true;
  re_portfolio : exists h, rp_portfolio_sha256 report = Some h /\ sha256_pattern h = true;
}.

Lemma sum_nonneg l : Forall (fun x => 0 <= x) l -> 0 <= fold_right Z.add 0 l.
Proof. induction 1; cbn [fold_right]; lia. Qed.

Lemma built_valid policy spec report intents states fills events : snapshot_rows intents states fills events -> ready_evidence_of report ->
  snapshot_post_init (built policy spec report intents states fills events) = Ok tt.
Proof.
  intros [Hi Hs Hsort Hd Hc Hf Hn He] [(a & Ea & Ha) (b & Eb & Hb) (c & Ec & Hcc)]. rewrite Forall_forall in Hi. rewrite Forall_forall in Hs. rewrite Forall_forall in Hf. unfold snapshot_post_init, built, snapshot_digests.
  cbn [rs_policy_sha256 rs_spec_sha256 rs_reconciliation_sha256 rs_journal_sha256 rs_orders_sha256 rs_portfolio_sha256 rs_intent_records rs_order_anchors rs_fill_anchors rs_order_event_count].
  rewrite Ea, Eb, Ec. cbn [existsb JOptStr _valid_digest]. unfold _policy_sha256, _spec_sha256, report_sha256. rewrite !digest_pattern, Ha, Hb, Hcc. cbn [negb orb json_number any_error rbind].
  assert ((events <? 0) = false) as ->.
  { apply Z.ltb_ge. rewrite He. apply sum_nonneg. apply Forall_forall. intros x Hx. apply list_elem_of_fmap in Hx as (s & -> & Hin). pose proof (state_digests s (Hs s Hin)) as (_ & _ & ?). lia. }
  rewrite (rmap_map _ _ in_authorization_sha256) by (intros i Hin; by apply own_intent_anchor, Hi). cbn [rbind]. unfold is_sorted. rewrite !bool_decide_true by done. cbn [negb orb].
  rewrite (rmap_map _ _ (fun s => (os_authorization_sha256 s, os_sequence s))).
  - cbn [rbind]. rewrite !map_map. cbn [fst snd]. change (map (fun x => os_authorization_sha256 x) states) with (map os_authorization_sha256 states). rewrite Hc, !bool_decide_true by done. cbn [negb orb]. rewrite (rmap_map _ _ fw_sequence) by (intros w Hw; by apply own_fill_anchor, Hf).
    cbn [rbind]. rewrite length_map, bool_decide_true by done. cbn [negb]. by rewrite He, Z.eqb_refl.
  - intros s Hin. apply own_order_anchor; [by apply Hs|]. rewrite <- Hc. by apply (list_elem_of_fmap_2 os_authorization_sha256).
Qed.

Lemma built_keyed policy spec report intents states fills events : snapshot_keyed (built policy spec report intents states fills events) = true.
Proof.
  apply snapshot_keyed_fields. assert (forall h, well_keyed (JOptStr h) = true) as Ho by by intros [h|]. split.
  - repeat constructor; apply Ho.
  - split; [|split]; (apply Forall_forall; intros j Hj; apply list_elem_of_fmap in Hj as (x & -> & _)).
    + apply intent_record_keyed.
    + unfold state_anchor. cbn [well_keyed]. cbn [forallb snd]. rewrite state_record_keyed. reflexivity.
    + reflexivity.
Qed.

Lemma merged_keys {A} (key : A -> string) (R : relation A) `{!forall x y, Decision (R x y)} l : (forall x y, R x y <-> str_le (key x) (key y)) ->
  StronglySorted str_le (map key (merge_sort R l)).
Proof.
  intros HR. assert (Transitive R) as Ht by (intros x y z; rewrite !HR; apply str_le_trans).
  assert (Total R) as Hto by (intros x y; rewrite !HR; apply String.leb_total).
  pose proof (StronglySorted_merge_sort R l) as Hm. induction Hm as [|x m _ IH Hx]; cbn [map]; constructor; [done|].
  apply Forall_forall. intros k Hk. apply list_elem_of_fmap in Hk as (y & -> & Hy). apply HR. rewrite Forall_forall in Hx. by apply Hx.
Qed.

Lemma isort_fixed l : StronglySorted str_le l -> isort String.leb l = l.
Proof.
  intros H. apply (StronglySorted_unique str_le); [|done|apply isort_perm].
  apply (isort_sorted String.leb); [apply String.leb_total|]. intros a b c. apply str_le_trans.
Qed.

Lemma sorted_keys_unique l m : NoDup l -> NoDup m -> StronglySorted str_le l -> StronglySorted str_le m -> (forall h, h ∈ l <-> h ∈ m) -> l = m.
Proof. intros Hl Hm Sl Sm H. apply (StronglySorted_unique str_le); [done..|]. by apply NoDup_Permutation. Qed.

Lemma preimages {A B} (f : A -> B) (P : A -> Prop) l : (forall y, y ∈ l -> exists x, y = f x /\ P x) -> exists xs, l = map f xs /\ Forall P xs.
Proof.
  induction l as [|y l IH]; intros H; [by exists []|]. destruct (H y) as (x & -> & Hx); [apply list_elem_of_here|].
  destruct IH as (xs & -> & Hxs); [intros z Hz; by apply H, list_elem_of_further|]. exists (x :: xs). split; [done|by constructor].
Qed.

(** Every row is of one of the keys: the rows are counted key by key. *)
Lemma count_by_key {A} (key : A -> string) (hs : list string) (l : list A) : NoDup hs -> (forall x, x ∈ l -> key x ∈ hs) ->
  Z.of_nat (length l) = fold_right Z.add 0 (map (fun h => Z.of_nat (length (filter (fun x => key x = h) l))) hs).
Proof.
  intros Hnd. induction l as [|x l IH]; intros H.
  - cbn [length]. clear. induction hs as [|h hs IH]; [done|]. cbn [map fold_right]. by rewrite <- IH.
  - assert (key x ∈ hs) as Hx by (apply H, list_elem_of_here). assert (forall y, y ∈ l -> key y ∈ hs) as Hl by (intros y Hy; by apply H, list_elem_of_further).
    specialize (IH Hl). cbn [length]. rewrite Nat2Z.inj_succ, IH. clear IH H Hl. induction hs as [|h hs IHh]; [by apply elem_of_nil in Hx|].
    apply NoDup_cons in Hnd as [Hh Hnd]. cbn [map fold_right]. rewrite filter_cons. destruct (decide (key x = h)) as [E|E].
    + cbn [length]. assert (map (fun h0 => Z.of_nat (length (filter (fun y => key y = h0) (x :: l)))) hs = map (fun h0 => Z.of_nat (length (filter (fun y => key y = h0) l))) hs) as ->; [|lia].
      apply map_ext_in. intros h' Hh'. rewrite filter_cons, decide_False; [done|]. intros E'. apply Hh. rewrite <- E, E'. by apply list_elem_of_In.
    + apply elem_of_cons in Hx as [Hx|Hx]; [done|]. specialize (IHh Hnd Hx). lia.
Qed.

Lemma selected {A} table f (q : portfolio_db -> A) : schema_ok f -> table ∈ REQUIRED_TABLES -> select (Opened f) table q = Ok (q (ef_db f)).
Proof. intros [Ht _] Hin. unfold select. by rewrite (proj2 (str_in_spec _ _) (Ht table Hin)). Qed.

Section Reconciled.
Context {spec : backtest_spec} {f : execution_file} {report : reconciliation_report}.
Hypothesis Hspec : spec_valid spec.
Hypothesis Hk : keyed (ef_db f).
Hypothesis Hr : reconcile_startup (Opened f) spec = Ok report.
Hypothesis Hready : rp_ready report = true.

Lemma reconciled_consistent : exists journal orders portfolio events, consistent f spec journal orders portfolio events
  /\ report = consistent_report f spec journal orders portfolio events.
Proof using All.
  destruct (startup_cases _ _ _ Hr) as [(f' & Ef & H)|(c & _ & E)]; [|by rewrite E in Hready].
  assert (f' = f) as -> by congruence. exact (proj1 (reconcile_iff f spec report Hk) H).
Qed.

Lemma reconciled_evidence : ready_evidence_of report /\ rp_code report = MATCH.
Proof using All.
  destruct reconciled_consistent as (tj & to & tp & events & _ & ->). unfold consistent_report, ready_report. split; [|reflexivity].
  constructor; (eexists; split; [reflexivity|apply sha256_hex_pattern]).
Qed.

Lemma reconciled_sound : exists events l, sound_state spec (ef_db f) events l /\ covered (pd_orders (ef_db f)) /\ schema_ok f.
Proof using All.
  destruct reconciled_consistent as (tj & to & tp & events & Hc & _). destruct (consistent_sound f spec tj to tp events Hspec Hk Hc) as (l & Hl).
  exists events, l. split; [exact Hl|]. split; [exact (cs_covered _ _ _ _ _ _ Hc)|exact (cs_schema _ _ _ _ _ _ Hc)].
Qed.

Lemma state_of_row r : r ∈ state_rows (ef_db f) -> exists s, r = state_values s /\ order_state_valid s
  /\ exists es, order_log (pd_orders (ef_db f)) (os_authorization_sha256 s) es (Some s) /\ Z.of_nat (length es) = os_sequence s + 1.
Proof using All.
  destruct reconciled_sound as (events & l & Hs & _). pose proof (ss_orders _ _ _ _ Hs) as Hdb. unfold state_rows. rewrite merge_sort_Permutation, rows_of_elem.
  intros (h & E). destruct (stored_state _ h r Hdb E) as (s & -> & Hv & Ea). exists s. split; [done|]. split; [done|]. rewrite Ea.
  destruct (odi_logs _ Hdb h) as (es & st & Hl). pose proof (ol_state _ _ _ _ Hl) as Es. rewrite E in Es. destruct st as [s'|]; [|done]. apply (inj Some) in Es.
  pose proof (log_state_valid _ _ _ _ Hl) as Hv'. apply state_values_inj in Es; [|done|done]. subst s'. exists es. split; [exact Hl|].
  destruct (ol_history _ _ _ _ Hl) as (i & Hi & Hh). destruct (odi_intents _ Hdb h i Hi) as [_ Hiv].
  destruct (order_history_summary i es s Hiv Hh) as [_ _ [_ Hq] _ _]. lia.
Qed.

Definition numbered_fills (db : portfolio_db) : list fill_row := sort_by fw_sequence (rows_of (pd_fills db)).
Definition event_count (db : portfolio_db) : Z := Z.of_nat (size (od_events (pd_orders db))).

(** The rows a READY database gives a snapshot. *)
Lemma reconciled_rows : exists states, state_rows (ef_db f) = map state_values states
  /\ snapshot_rows (intent_rows (ef_db f)) states (numbered_fills (ef_db f)) (event_count (ef_db f)).
Proof using All.
  destruct reconciled_sound as (events & l & Hs & Hcov & _). pose proof (ss_orders _ _ _ _ Hs) as Hdb.
  pose (P := fun s => order_state_valid s /\ exists es, order_log (pd_orders (ef_db f)) (os_authorization_sha256 s) es (Some s) /\ Z.of_nat (length es) = os_sequence s + 1).
  destruct (preimages state_values P (state_rows (ef_db f))) as (states & Est & HP); [exact state_of_row|]. exists states. split; [exact Est|].
  pose proof (rows_keys in_authorization_sha256 _ _ (kd_intents _ Hk) (journal_rows (od_intents (pd_orders (ef_db f))))) as (Ni & _ & Di).
  pose proof (rows_keys sr_authorization_sha256 _ _ (kd_states _ Hk) (order_rows_perm (pd_orders (ef_db f)))) as (Ns & _ & Ds).
  change (order_rows (pd_orders (ef_db f))) with (state_rows (ef_db f)) in Ns, Ds. rewrite Est in Ns, Ds.
  assert (map sr_authorization_sha256 (map state_values states) = map os_authorization_sha256 states) as Ek by (rewrite map_map; by apply map_ext).
  assert (map os_authorization_sha256 states = map in_authorization_sha256 (intent_rows (ef_db f))) as Hkeys.
  { rewrite <- Ek. apply sorted_keys_unique; [exact Ns|exact Ni| | |].
    - rewrite <- Est. by apply merged_keys.
    - by apply merged_keys.
    - intros h. assert (names sr_authorization_sha256 (map state_values states) = names in_authorization_sha256 (intent_rows (ef_db f))) as E.
      { rewrite <- Est. unfold state_rows, intent_rows. etransitivity; [|symmetry; exact Di]. etransitivity; [|exact (cv_states _ Hcov)].
        unfold names. apply set_eq. intros x. rewrite !elem_of_list_to_set. by rewrite (Permutation_map sr_authorization_sha256 (merge_sort_Permutation state_key_le (rows_of (od_states (pd_orders (ef_db f)))))). }
      unfold names in E. rewrite <- (elem_of_list_to_set (C:=gset string) h (map sr_authorization_sha256 _)), <- (elem_of_list_to_set (C:=gset string) h (map in_authorization_sha256 _)). by rewrite E. }
  constructor.
  - apply Forall_forall. intros i Hi. unfold intent_rows in Hi. rewrite journal_rows in Hi. apply rows_of_elem in Hi as (h & Ei). exact (proj2 (odi_intents _ Hdb h i Ei)).
  - eapply Forall_impl; [exact HP|]. intros s [Hv _]. exact Hv.
  - apply isort_fixed. by apply merged_keys.
  - exact Ni.
  - exact Hkeys.
  - unfold numbered_fills. rewrite (only_fill_rows _ _ (os_fills _ _ (ss_symbol _ _ _ _ Hs))). pose proof (ss_rows _ _ _ _ Hs) as Hf. clear - Hf.
    induction Hf as [|w e ws es [(Ew & _) _] _ IH]; constructor; [|exact IH]. rewrite Ew. apply digest_pattern.
  - unfold numbered_fills. rewrite (only_fill_rows _ _ (os_fills _ _ (ss_symbol _ _ _ _ Hs))). pose proof (ss_rows _ _ _ _ Hs) as Hf. destruct (ss_events _ _ _ _ Hs) as [_ Hn].
    assert (map fw_sequence (fill_rows (ef_db f) (bs_symbol spec)) = map fe_sequence events /\ length (fill_rows (ef_db f) (bs_symbol spec)) = length events) as [-> ->]; [|exact Hn].
    clear - Hf. induction Hf as [|w e ws es [(_ & Ew & _) _] _ [IH1 IH2]]; [done|]. cbn [map length]. by rewrite Ew, IH1, IH2.
  - unfold event_count. assert (size (od_events (pd_orders (ef_db f))) = length (rows_of (od_events (pd_orders (ef_db f))))) as ->.
    { unfold rows_of. by rewrite length_map, length_map_to_list. }
    rewrite (count_by_key er_authorization_sha256 (map os_authorization_sha256 states)).
    + rewrite map_map. f_equal. apply map_ext_in. intros s Hin. apply list_elem_of_In in Hin. rewrite Forall_forall in HP. destruct (HP s Hin) as (_ & es & Hl & Hlen).
      rewrite <- Hlen. f_equal. pose proof (event_rows_log _ _ _ _ Hdb Hl) as Er. apply (f_equal length) in Er. rewrite length_map in Er. rewrite <- Er. unfold event_rows.
      apply Permutation_length. by rewrite sort_by_perm.
    + rewrite Hkeys. exact Ni.
    + intros r Hrow. assert (er_authorization_sha256 r ∈ names er_authorization_sha256 (rows_of (od_events (pd_orders (ef_db f))))) as Hn by (apply names_elem; by exists r).
      rewrite (cv_events _ Hcov), <- Di in Hn. unfold names in Hn. rewrite elem_of_list_to_set in Hn. rewrite Hkeys. exact Hn.
Qed.

Lemma reconciled_built policy : exists states, state_rows (ef_db f) = map state_values states
  /\ snapshot_rows (intent_rows (ef_db f)) states (numbered_fills (ef_db f)) (event_count (ef_db f))
  /\ _build_snapshot (Opened f) spec policy = Ok (built policy spec report (intent_rows (ef_db f)) states (numbered_fills (ef_db f)) (event_count (ef_db f))).
Proof using All.
  destruct reconciled_rows as (states & Est & Hrows). destruct reconciled_evidence as [Hev Hcode]. destruct reconciled_sound as (_ & _ & _ & _ & Hsch).
  exists states. split; [exact Est|]. split; [exact Hrows|]. unfold _build_snapshot. rewrite Hr. cbn [rbind]. rewrite Hready, Hcode, bool_decide_true by done. cbn [negb orb].
  rewrite (selected "local_paper_intents" f _ Hsch ltac:(in_list)), (selected "local_paper_order_states" f _ Hsch ltac:(in_list)),
    (selected "local_paper_fill_events" f _ Hsch ltac:(in_list)), (selected "local_paper_order_events" f _ Hsch ltac:(in_list)). cbn [rbind].
  rewrite <- (map_id (intent_rows (ef_db f))) at 1. pose proof (sr_intents _ _ _ _ Hrows) as Hi. pose proof (sr_states _ _ _ _ Hrows) as Hs. rewrite Forall_forall in Hi. rewrite Forall_forall in Hs.
  rewrite (rmap_map _ _ intent_as_record) by (intros i Hin; unfold new_intent_record; specialize (Hi i Hin); unfold intent_valid_record in Hi; by rewrite Hi). cbn [rbind].
  rewrite Est, (rmap_map _ _ state_anchor) by (intros s Hin; by rewrite (row_state_values s (Hs s Hin))). cbn [rbind rcatch].
  fold (numbered_fills (ef_db f)). fold (event_count (ef_db f)). unfold new_snapshot. fold (built policy spec report (intent_rows (ef_db f)) states (numbered_fills (ef_db f)) (event_count (ef_db f))).
  by rewrite (built_valid policy spec report _ _ _ _ Hrows Hev).
Qed.
End Reconciled.
