(* ===== verification/Recovered.v ===== *)
(** * What recovery guarantees (yatl/execution/recovery.py over the stores)

    The stores only ever grow the database a snapshot anchors; from this, and from
    the round trip of the file, what startup reports after any use of the stores,
    over any database and files, and while a commit is pending. *)
From stdpp Require Import gmap sorting.
From S2P Require Import Prelude PyDecimal PyText Digest JsonText Market BacktestConfig MarketView Fills Costs Ledger HashChain Regime RiskState RiskAdapter Execution Journal OrderState LocalFills Portfolio Reconcile Snapshot Recovery.

(** ** A database that has grown *)

(** Nothing is lost or changed; the state of an order may have advanced. *)
Record grows (db db' : portfolio_db) : Prop := {
  gr_intents : forall h i, od_intents (pd_orders db) !! h = Some i -> od_intents (pd_orders db') !! h = Some i;
  gr_events : forall k e, od_events (pd_orders db) !! k = Some e -> od_events (pd_orders db') !! k = Some e;
  gr_states : forall h s, od_states (pd_orders db) !! h = Some s -> exists s', od_states (pd_orders db') !! h = Some s' /\ (s' = s \/ sr_sequence s < sr_sequence s');
  gr_fills : forall h w, pd_fills db !! h = Some w -> pd_fills db' !! h = Some w;
}.

#[global] Instance grows_preorder : PreOrder grows.
Proof.
  split.
  - intros db. constructor; [done..| |done]. intros h s E. exists s. by split; [|left].
  - intros a b c [I1 E1 S1 F1] [I2 E2 S2 F2]. constructor; [by auto..| |by auto]. intros h s E. destruct (S1 h s E) as (s1 & H1 & L1). destruct (S2 h s1 H1) as (s2 & H2 & L2).
    exists s2. split; [done|]. destruct L1 as [->|L1], L2 as [->|L2]; [by left|by right|by right|right; lia].
Qed.

Lemma size_included {K} `{Countable K} {A B} (m : gmap K A) (n : gmap K B) : (forall k x, m !! k = Some x -> exists y, n !! k = Some y) -> (size m <= size n)%nat.
Proof.
  intros Hs. rewrite <- !size_dom. apply subseteq_size. intros k Hk. apply elem_of_dom in Hk as (x & Hx). apply elem_of_dom. exact (Hs k x Hx).
Qed.

Definition counts_of (db : portfolio_db) : store_counts :=
  StoreCounts (Z.of_nat (size (od_intents (pd_orders db)))) (Z.of_nat (size (od_states (pd_orders db)))) (event_count db) (Z.of_nat (size (pd_fills db))).

Lemma grown_counts db db' : grows db db' -> let c := counts_of db in let c' := counts_of db' in
  ct_intents c <= ct_intents c' /\ ct_orders c <= ct_orders c' /\ ct_order_events c <= ct_order_events c' /\ ct_fills c <= ct_fills c'.
Proof.
  intros [Hi He Hs Hf]. cbn [counts_of ct_intents ct_orders ct_order_events ct_fills]. unfold event_count. split_and!; apply inj_le, size_included.
  - intros h i E. exists i. by apply Hi.
  - intros h s E. destruct (Hs h s E) as (s' & E' & _). by exists s'.
  - intros k e E. exists e. by apply He.
  - intros h w E. exists w. by apply Hf.
Qed.

Lemma same_intent_holds path a b : same_value a b -> intent_holds path a = intent_holds path b.
Proof.
  intros H. unfold intent_holds. rewrite (same_text a b _ H). destruct (get_text b _) as [h|]; [|done]. cbn [rbind]. destruct (select path _ _) as [[r|]|]; [|done|done].
  cbn [rbind]. destruct (new_intent_record r) as [i|]; [|done]. cbn [rbind]. by rewrite (py_eq_same_r _ a b H).
Qed.

Lemma same_order_holds path a b : same_value a b -> order_holds path a = order_holds path b.
Proof.
  intros H. unfold order_holds. rewrite (same_text a b _ H), (same_number a b _ H). pose proof (same_get a b "event_sha256" H) as H1. pose proof (same_get a b "state_sha256" H) as H2.
  destruct (get_text b _) as [h|]; [|done]. destruct (get_number b _) as [n|]; [|done]. cbn [rbind].
  destruct (json_get a "event_sha256") as [e|], (json_get b "event_sha256") as [e'|]; try done; cbn [rbind same_outcome] in *; [|congruence].
  destruct (json_get a "state_sha256") as [s|], (json_get b "state_sha256") as [s'|]; try done; cbn [rbind same_outcome] in *; [|congruence].
  destruct (select path _ _) as [[x|]|]; [|done|done]. cbn [rbind]. destruct (select path _ _) as [[y|]|]; [|done|done]. cbn [rbind].
  by rewrite (py_eq_same_r _ e e' H1), (py_eq_same_r _ s s' H2).
Qed.

Lemma same_fill_holds path a b : same_value a b -> fill_holds path a = fill_holds path b.
Proof.
  intros H. unfold fill_holds. rewrite (same_number a b _ H). pose proof (same_get a b "fill_event_sha256" H) as H1. destruct (get_number b _) as [n|]; [|done]. cbn [rbind].
  destruct (json_get a "fill_event_sha256") as [e|], (json_get b "fill_event_sha256") as [e'|]; try done; cbn [rbind same_outcome] in *; [|congruence].
  destruct (select path _ _) as [[x|]|]; [|done|done]. cbn [rbind]. by rewrite (py_eq_same_r _ e e' H1).
Qed.

Lemma same_all_hold (f : json -> result bool) l m : (forall a b, same_value a b -> f a = f b) -> Forall2 same_value l m -> all_hold f l = all_hold f m.
Proof. intros Hf. induction 1 as [|x y l m Hx _ IH]; [done|]. cbn [all_hold]. by rewrite (Hf x y Hx), IH. Qed.

Lemma norm_validate path s : snapshot_keyed s = true -> _validate_snapshot_prefix path (norm_snapshot s) = _validate_snapshot_prefix path s.
Proof.
  intros H. apply snapshot_keyed_fields in H as (_ & H2 & H3 & H4). apply same_norms in H2, H3, H4. unfold _validate_snapshot_prefix. cbn [norm_snapshot rs_intent_records rs_order_anchors rs_fill_anchors].
  by rewrite <- (same_all_hold _ _ _ (same_intent_holds path) H2), <- (same_all_hold _ _ _ (same_order_holds path) H3), <- (same_all_hold _ _ _ (same_fill_holds path) H4).
Qed.

Lemma all_hold_map {A B} (f : A -> B) (g : B -> result bool) l : (forall x, x ∈ l -> g (f x) = Ok true) -> all_hold g (map f l) = Ok true.
Proof.
  induction l as [|x l IH]; intros H; [done|]. cbn [map all_hold]. rewrite (H x) by apply list_elem_of_here. cbn [rbind]. apply IH. intros y Hy. by apply H, list_elem_of_further.
Qed.

(** The anchors of a reconciled database hold on one that has grown from it. *)
Section Grown.
Context {spec : backtest_spec} {f f' : execution_file} {report report' : reconciliation_report}.
Hypothesis Hspec : spec_valid spec.
Hypothesis Hk : keyed (ef_db f).
Hypothesis Hr : reconcile_startup (Opened f) spec = Ok report.
Hypothesis Hready : rp_ready report = true.
Hypothesis Hk' : keyed (ef_db f').
Hypothesis Hr' : reconcile_startup (Opened f') spec = Ok report'.
Hypothesis Hready' : rp_ready report' = true.
Hypothesis Hg : grows (ef_db f) (ef_db f').

Lemma grown_schema : schema_ok f'.
Proof using Hspec Hk' Hr' Hready'. destruct (reconciled_sound Hspec Hk' Hr' Hready') as (_ & _ & _ & _ & H). exact H. Qed.

Lemma grown_intent i : i ∈ intent_rows (ef_db f) -> intent_holds (Opened f') (intent_as_record i) = Ok true.
Proof using All.
  intros Hin. unfold intent_rows in Hin. rewrite journal_rows in Hin. apply rows_of_elem in Hin as (h & E). pose proof (kd_intents _ Hk h i E) as Eh. subst h.
  destruct (reconciled_sound Hspec Hk Hr Hready) as (evs & lg & Hs & _). destruct (odi_intents _ (ss_orders _ _ _ _ Hs) _ _ E) as [_ Hv]. unfold intent_holds.
  change (get_text (intent_as_record i) "authorization_sha256") with (Ok (in_authorization_sha256 i)). cbn [rbind]. rewrite (selected _ f' _ grown_schema) by (by in_list). cbn [rbind].
  rewrite (gr_intents _ _ Hg _ _ E). unfold new_intent_record. unfold intent_valid_record in Hv. rewrite Hv. cbn [rbind]. by rewrite (py_eq_refl _ (intent_record_keyed i)).
Qed.

Lemma grown_order s : state_values s ∈ state_rows (ef_db f) -> order_state_valid s -> order_holds (Opened f') (state_anchor s) = Ok true.
Proof using All.
  intros Hin Hv. destruct (state_of_row Hspec Hk Hr Hready _ Hin) as (s' & Es & Hv' & es & Hl & Hlen). apply state_values_inj in Es; [|done|done]. subst s'.
  destruct (reconciled_sound Hspec Hk Hr Hready) as (evs & lg & Hs & _). pose proof (ss_orders _ _ _ _ Hs) as Hdb.
  unfold order_holds. change (get_text (state_anchor s) "authorization_sha256") with (Ok (os_authorization_sha256 s)). change (get_number (state_anchor s) "sequence") with (Ok (os_sequence s)).
  change (json_get (state_anchor s) "event_sha256") with (Ok (JStr (os_event_sha256 s))). change (json_get (state_anchor s) "state_sha256") with (Ok (JStr (order_state_sha256 s))).
  cbn [rbind]. rewrite !(selected _ f' _ grown_schema) by (by in_list). cbn [rbind].
  destruct (ol_history _ _ _ _ Hl) as (i & Hi & Hh). destruct (odi_intents _ Hdb _ _ Hi) as [_ Hiv]. destruct (order_history_summary i es s Hiv Hh) as [_ _ _ _ Hlast].
  destruct (last es) as [e|] eqn:El; [|discriminate Hlast]. cbn [fmap option_fmap option_map] in Hlast. assert (order_event_sha256 e = os_event_sha256 s) as Hsha by congruence.
  rewrite last_lookup in El. assert (od_events (pd_orders (ef_db f)) !! (os_authorization_sha256 s, os_sequence s) = Some (event_values e)) as Ee.
  { pose proof (state_digests s Hv) as (_ & _ & Hge). replace (os_sequence s) with (Z.of_nat (pred (length es))) by lia. exact (log_row _ _ _ _ _ _ Hl El). }
  rewrite (gr_events _ _ Hg _ _ Ee). pose proof (ol_state _ _ _ _ Hl) as Est. cbn [fmap option_fmap option_map] in Est.
  destruct (gr_states _ _ Hg _ _ Est) as (r' & Er' & Hr2). rewrite Er'. cbn [event_values er_event_sha256]. rewrite Hsha, (proj2 (py_eq_str _ _) eq_refl). cbn [andb].
  destruct Hr2 as [->|Hlt]; cbn [state_values sr_sequence sr_state_sha256] in *.
  - by rewrite Z.ltb_irrefl, (proj2 (py_eq_str _ _) eq_refl), andb_false_r.
  - rewrite (proj2 (Z.ltb_ge (sr_sequence r') _)) by lia. by rewrite (proj2 (Z.eqb_neq _ _)) by lia.
Qed.

Lemma grown_fill w : w ∈ numbered_fills (ef_db f) -> fill_holds (Opened f') (row_anchor w) = Ok true.
Proof using All.
  intros Hin. unfold numbered_fills in Hin. rewrite sort_by_perm in Hin. apply rows_of_elem in Hin as (h & E). pose proof (gr_fills _ _ Hg _ _ E) as E'.
  assert (w ∈ rows_of (pd_fills (ef_db f'))) as Hw by (apply rows_of_elem; by exists h).
  unfold fill_holds. change (get_number (row_anchor w) "sequence") with (Ok (fw_sequence w)). change (json_get (row_anchor w) "fill_event_sha256") with (Ok (JStr (fw_event_sha256 w))).
  cbn [rbind]. rewrite (selected _ f' _ grown_schema) by (by in_list). cbn [rbind].
  destruct (reconciled_rows Hspec Hk' Hr' Hready') as (sts & _ & Hrows). pose proof (sr_numbers _ _ _ _ Hrows) as Hn.
  assert (NoDup (map fw_sequence (rows_of (pd_fills (ef_db f'))))) as Hnd.
  { unfold numbered_fills in Hn. rewrite <- (Permutation_map fw_sequence (sort_by_perm fw_sequence (rows_of (pd_fills (ef_db f'))))), Hn. apply NoDup_seqZ. }
  destruct (find _ _) as [x|] eqn:Ex.
  - apply find_some in Ex as [Hx Ex]. apply Z.eqb_eq in Ex. apply list_elem_of_In in Hx. assert (x = w) as ->; [|by rewrite (proj2 (py_eq_str _ _) eq_refl)].
    exact (key_unique fw_sequence _ x w Hnd Hx Hw Ex).
  - exfalso. apply list_elem_of_In in Hw. pose proof (find_none _ _ Ex w Hw) as Hf. cbn in Hf. by rewrite Z.eqb_refl in Hf.
Qed.

Lemma grown_prefix policy states : state_rows (ef_db f) = map state_values states -> Forall order_state_valid states ->
  _validate_snapshot_prefix (Opened f') (built policy spec report (intent_rows (ef_db f)) states (numbered_fills (ef_db f)) (event_count (ef_db f)))
  = Ok (Some (counts_of (ef_db f'))).
Proof using All.
  intros Est Hv. rewrite Forall_forall in Hv. unfold _validate_snapshot_prefix, built. cbn [rs_intent_records rs_order_anchors rs_fill_anchors].
  rewrite (all_hold_map _ _ _ grown_intent). cbn [rbind negb]. rewrite (all_hold_map state_anchor).
  - cbn [rbind negb]. rewrite (all_hold_map _ _ _ grown_fill). cbn [rbind negb]. by rewrite !(selected _ f' _ grown_schema) by (by in_list).
  - intros s Hs. apply grown_order; [|by apply Hv]. rewrite Est. by apply (list_elem_of_fmap_2 state_values).
Qed.
End Grown.

(** ** The stores only grow the database *)

(** The database a method leaves, whatever it returns, is related to the one it found. *)
Definition stays {S A} (R : S -> S -> Prop) (m : stm S A) : Prop := forall s, R s (fst (m s)).

Section Stays.
Context {S : Type} {R : S -> S -> Prop} `{!PreOrder R}.

Lemma stays_ret {A} (a : A) : stays R (sret a).
Proof using All. intros s. reflexivity. Qed.
Lemma stays_raise {A} e : stays R (@sraise S A e).
Proof using All. intros s. reflexivity. Qed.
Lemma stays_lift {A} (m : result A) : stays R (slift m).
Proof using All. intros s. reflexivity. Qed.
Lemma stays_get : stays R (@sget S).
Proof using All. intros s. reflexivity. Qed.
Lemma stays_bind {A B} (m : stm S A) (k : A -> stm S B) : stays R m -> (forall a, stays R (k a)) -> stays R (sbind m k).
Proof using All.
  intros Hm Hk s. specialize (Hm s). unfold sbind. destruct (m s) as [s1 [a|e]]; [|exact Hm]. etransitivity; [exact Hm|apply Hk].
Qed.
Lemma stays_if {A} (b : bool) (m n : stm S A) : stays R m -> stays R n -> stays R (if b then m else n).
Proof using. by destruct b. Qed.
Lemma stays_rollback {A} cls (m : stm S A) : stays R m -> stays R (srollback cls m).
Proof using All. intros Hm s. specialize (Hm s). unfold srollback. destruct (m s) as [s1 [a|e]]; [exact Hm|]. case_bool_decide; [reflexivity|exact Hm]. Qed.
Lemma stays_catch {A} (m : stm S A) cls e : stays R m -> stays R (scatch m cls e).
Proof using. intros Hm s. specialize (Hm s). unfold scatch. by destruct (m s) as [s1 out]. Qed.
End Stays.
Create HintDb stays.
#[export] Hint Resolve stays_ret stays_raise stays_lift stays_get stays_bind stays_if stays_rollback stays_catch : stays.

(** Fills are added; orders stay. *)
Definition fills_grow (db db' : portfolio_db) : Prop := pd_orders db' = pd_orders db /\ forall h w, pd_fills db !! h = Some w -> pd_fills db' !! h = Some w.
#[global] Instance fills_grow_preorder : PreOrder fills_grow.
Proof. split; [by split|]. intros a b c [E1 H1] [E2 H2]. split; [congruence|auto]. Qed.

Lemma insert_fill_stays spec e : stays fills_grow (_insert_fill spec e).
Proof.
  intros db. unfold _insert_fill. destruct (negb (opt_is_none _) || _ || _ || _) eqn:E; [reflexivity|]. split; [done|]. cbn [fst pd_fills]. intros h w Hw.
  repeat apply orb_false_iff in E as [E _]. apply negb_false_iff in E. rewrite lookup_insert_ne; [done|]. intros <-. by rewrite Hw in E.
Qed.

Lemma insert_fills_stays spec es : stays fills_grow (insert_fills spec es).
Proof. induction es as [|e es IH]; cbn [insert_fills]; auto using insert_fill_stays with stays typeclass_instances. Qed.

Lemma write_projection_stays spec p q : stays fills_grow (_write_projection spec p q).
Proof. intros db. unfold _write_projection. cbv zeta. repeat case_match; split; done. Qed.

Lemma portfolio_apply_stays spec s mark : stays fills_grow (portfolio_apply spec s mark).
Proof.
  unfold portfolio_apply, portfolio_apply_body.
  repeat first [apply stays_bind; [|intros ?] | apply stays_catch | apply stays_rollback | apply stays_if | apply stays_ret | apply stays_raise | apply stays_lift | apply stays_get
    | apply insert_fills_stays | apply write_projection_stays | case_match].
Qed.

(** Journal: a row is written under a free key only. *)
Definition intents_grow (m m' : intent_table) : Prop := forall h (i : intent_record), m !! h = Some i -> m' !! h = Some i.
#[global] Instance intents_grow_preorder : PreOrder intents_grow.
Proof. split; [by intros m h i|]. intros a b c H1 H2 h i E. by apply H2, H1. Qed.

Lemma insert_intent_stays r : (forall m : intent_table, m !! in_authorization_sha256 r = None -> intents_grow m (fst (Journal._insert r m))).
Proof.
  intros m Hn. unfold Journal._insert. destruct (existsb _ _); [reflexivity|]. intros h i E. cbn [fst]. rewrite lookup_insert_ne; [done|]. intros <-. by rewrite Hn in E.
Qed.

Lemma record_stays d m : intents_grow m (fst (record d m)).
Proof.
  unfold record, sbind at 1, slift at 1. destruct (from_decision d) as [r|]; [|reflexivity]. unfold journal_transaction, scatch, srollback.
  unfold sbind at 1, sget, sbind at 1, slift, _select. destruct (m !! in_authorization_sha256 r) as [x|] eqn:E.
  - destruct (_row_to_record (Some x)) as [[y|]|] eqn:Ex.
    + destruct (decide (y = r)); cbn; [reflexivity|]. destruct (bool_decide _); reflexivity.
    + cbn [_row_to_record] in Ex. apply rbind_ok in Ex as (? & _ & Ex). discriminate Ex.
    + destruct (bool_decide _); reflexivity.
  - cbn [_row_to_record]. pose proof (insert_intent_stays r m E) as H. unfold sbind, sret. destruct (Journal._insert r m) as [m' [[]|]]; [exact H|]. destruct (bool_decide _); [reflexivity|exact H].
Qed.

Lemma journal_record_grows d db : grows db (fst (journal_record d db)).
Proof.
  pose proof (record_stays d (od_intents (pd_orders db))) as H. unfold journal_record, record_in. destruct (record d _) as [m out]. cbn [fst] in *.
  constructor; cbn [pd_orders od_intents od_events od_states pd_fills]; [exact H|done| |done]. intros h s E. exists s. by split; [|left].
Qed.

Lemma portfolio_apply_grows spec s mark db : grows db (fst (portfolio_apply spec s mark db)).
Proof.
  destruct (portfolio_apply_stays spec s mark db) as [Eo Hf]. constructor; rewrite ?Eo; [done..| |exact Hf]. intros h x E. exists x. by split; [|left].
Qed.

(** An applied event is appended to its order, and the state advances. *)
Lemma applied_grows db e t orders : portfolio_inv db -> applied (pd_orders db) e t orders -> grows db (PortfolioDb orders (pd_fills db) (pd_portfolios db)).
Proof.
  intros Hdb [(i & es & st & Hi & Hl & Hacc & _ & Hl') Hoth Hint _]. pose proof (pi_orders _ Hdb) as Ho. constructor; cbn [pd_orders pd_fills]; [by rewrite Hint| | |done].
  - intros [h n] r E. destruct (decide (h = oe_authorization_sha256 e)) as [->|Hne].
    + rewrite (ol_events _ _ _ _ Hl) in E. rewrite (ol_events _ _ _ _ Hl'). destruct (0 <=? n); [|done]. destruct (es !! Z.to_nat n) as [x|] eqn:Ex; [|done].
      by rewrite (lookup_app_l_Some _ _ _ _ Ex).
    + destruct (odi_logs _ Ho h) as (es' & st' & Hl2). rewrite (ol_events _ _ _ _ Hl2) in E. by rewrite (ol_events _ _ _ _ (Hoth _ _ _ Hne Hl2)).
  - intros h r E. destruct (decide (h = oe_authorization_sha256 e)) as [->|Hne].
    + rewrite (ol_state _ _ _ _ Hl) in E. rewrite (ol_state _ _ _ _ Hl'). cbn [fmap option_fmap option_map]. eexists. split; [reflexivity|]. right.
      destruct st as [p|]; [|done]. cbn [fmap option_fmap option_map] in E. assert (state_values p = r) as <- by (by apply (inj Some)). destruct Hacc as [_ Hf].
      pose proof (of_sequence _ _ _ Hf) as Hq. cbn [state_values sr_sequence order_next os_sequence]. lia.
    + destruct (odi_logs _ Ho h) as (es' & st' & Hl2). rewrite (ol_state _ _ _ _ Hl2) in E. rewrite (ol_state _ _ _ _ (Hoth _ _ _ Hne Hl2)). exists r. by split; [|left].
Qed.

Lemma order_apply_grows T e db db' out : portfolio_texts_in db T -> among (order_call_texts e (pd_orders db)) T ->
  portfolio_inv db -> order_event_valid e -> order_apply e db = (db', out) -> collision T \/ grows db db'.
Proof.
  intros HT Hcall Hdb He H. unfold order_apply in H. destruct (OrderState.apply e (pd_orders db)) as [orders out'] eqn:Ea.
  destruct (apply_spec T (pd_orders db) e orders out' (pti_orders _ _ HT) Hcall (pi_orders _ Hdb) He Ea) as [|Hs]; [by left|]. right. destruct out' as [t|x].
  - destruct Hs as [Hs _]. pose proof (applied_grows db e t orders Hdb Hs) as Hg. destruct (ot_previous t) as [p|]; [|injection H as <- _; exact Hg].
    destruct (_ && _); injection H as <- _; [reflexivity|exact Hg].
  - destruct Hs as (-> & _). injection H as <- _. by destruct db.
Qed.

Lemma run_portfolio_grows T specs calls db hist db' apps : portfolio_texts_in db T -> among (run_portfolio_texts specs calls db) T -> specs_ok specs -> Forall (portfolio_call_ok specs) calls -> portfolio_inv db -> books specs db hist ->
  run_portfolio specs calls db = (db', apps) -> collision T \/ grows db db'.
Proof.
  intros HT Hts Hspecs. revert db hist db' apps HT Hts. induction calls as [|x calls IH]; intros db hist db' apps HT Hts Hc Hdb Hb H; [injection H as <- _; by right|].
  inversion_clear Hc as [|? ? Hx Hrest]. cbn [run_portfolio_texts] in Hts. apply among_app in Hts as [Hcall Hts].
  assert (exists db1 apps1 rest, run_portfolio specs [x] db = (db1, apps1) /\ run_portfolio specs calls db1 = (db', rest)) as (db1 & apps1 & rest & H1 & H2).
  { destruct x as [d|e|sym s mark]; cbn [run_portfolio] in H |- *; [by do 3 eexists..|]. destruct (portfolio_apply _ s mark db) as [dbx out].
    destruct (run_portfolio specs calls dbx) as [dby more] eqn:E. injection H as <- _. by do 3 eexists. }
  rewrite H1 in Hts. cbn [fst] in Hts.
  destruct (run_portfolio_books specs T [x] db hist db1 apps1 HT) as [|(Hdb1 & HT1 & Hb1)]; [|done|by constructor|done..|by left|].
  { cbn [run_portfolio_texts]. by rewrite app_nil_r. }
  destruct (IH db1 _ db' rest HT1 Hts Hrest Hdb1 Hb1 H2) as [|Hg]; [by left|]. assert (collision T \/ grows db db1) as [|Hg1]; [|by left|right; by transitivity db1].
  destruct x as [d|e|sym s mark]; cbn [run_portfolio] in H1.
  - injection H1 as <- _. right. apply journal_record_grows.
  - injection H1 as <- _. destruct (order_apply e db) as [dbx out] eqn:E. exact (order_apply_grows T e db dbx out HT Hcall Hdb Hx E).
  - right. pose proof (portfolio_apply_grows (specs sym) s mark db) as Hga. destruct (portfolio_apply _ s mark db) as [dbx out]. injection H1 as <- _. exact Hga.
Qed.

(** ** The outcome of startup *)

Lemma refusal_ok c reconciliation snapshot : c <> AMBIGUOUS_COMMIT -> (forall h, reconciliation = Some h -> sha256_pattern h = true) ->
  (forall h, snapshot = Some h -> sha256_pattern h = true) -> refusal_report c reconciliation snapshot None = Ok (RecoveryReport false c reconciliation snapshot 0 0 0 None).
Proof.
  intros Hc Hr Hs. unfold refusal_report, new_recovery_report, recovery_report_post_init. cbn [tail_intents tail_order_events tail_fills existsb Z.ltb Z.compare orb
    rr_reconciliation_sha256 rr_snapshot_sha256 manual_confirmation_sha256 rr_ready andb rr_code opt_is_none negb].
  rewrite bool_decide_false by done. destruct reconciliation as [x|]; [rewrite (Hr x eq_refl)|]; (destruct snapshot as [y|]; [rewrite (Hs y eq_refl)|]); reflexivity.
Qed.

Definition tail_code (a b c : Z) : recovery_code := if existsb (fun n => negb (n =? 0)) [a; b; c] then TAIL_REPLAYED else RC_MATCH.

Lemma tail_code_ok a b c : tail_code a b c <> AMBIGUOUS_COMMIT /\ (tail_code a b c = RC_MATCH <-> a = 0 /\ b = 0 /\ c = 0).
Proof.
  unfold tail_code. cbn [existsb]. destruct (Z.eqb_spec a 0), (Z.eqb_spec b 0), (Z.eqb_spec c 0); cbn [negb orb]; (split; [done|]); split; try done; intros; exfalso; naive_solver.
Qed.

Lemma ready_report_ok code h s a b c : code <> AMBIGUOUS_COMMIT -> sha256_pattern h = true -> (forall x, s = Some x -> sha256_pattern x = true) -> 0 <= a -> 0 <= b -> 0 <= c ->
  new_recovery_report (RecoveryReport true code (Some h) s a b c None) = Ok (RecoveryReport true code (Some h) s a b c None).
Proof.
  intros Hc Hh Hs Ha Hb Hcc. unfold new_recovery_report, recovery_report_post_init. cbn [tail_intents tail_order_events tail_fills existsb orb
    rr_reconciliation_sha256 rr_snapshot_sha256 manual_confirmation_sha256 rr_ready andb rr_code opt_is_none negb].
  rewrite !(proj2 (Z.ltb_ge _ 0)), Hh, bool_decide_false by done. cbn [negb orb]. destruct s as [y|]; [rewrite (Hs y eq_refl)|]; reflexivity.
Qed.

Lemma rows_of_length {K} `{Countable K} {A} (m : gmap K A) : length (rows_of m) = size m.
Proof. unfold rows_of. by rewrite length_map, length_map_to_list. Qed.

(** What startup reports on a target that holds the text of a snapshot. *)
Definition tail_report (r : reconciliation_report) (s : recovery_snapshot) (a b c : Z) : recovery_report :=
  RecoveryReport true (tail_code a b c) (Some (report_sha256 r)) (Some (snapshot_sha256 s)) a b c None.

Section Extended.
Context {spec : backtest_spec} {f f' : execution_file} {report report' : reconciliation_report}.
Hypothesis Hspec : spec_valid spec.
Hypothesis Hk : keyed (ef_db f).
Hypothesis Hr : reconcile_startup (Opened f) spec = Ok report.
Hypothesis Hready : rp_ready report = true.
Hypothesis Hk' : keyed (ef_db f').
Hypothesis Hr' : reconcile_startup (Opened f') spec = Ok report'.
Hypothesis Hready' : rp_ready report' = true.
Hypothesis Hg : grows (ef_db f) (ef_db f').

Let c := counts_of (ef_db f).
Let c' := counts_of (ef_db f').

Lemma recover_extended states : state_rows (ef_db f) = map state_values states ->
  snapshot_rows (intent_rows (ef_db f)) states (numbered_fills (ef_db f)) (event_count (ef_db f)) ->
  let s := built default_execution_policy spec report (intent_rows (ef_db f)) states (numbered_fills (ef_db f)) (event_count (ef_db f)) in
  recover_startup (Opened f') (SnapshotFiles (Bytes (snapshot_text s)) NoFile) spec None =
  if byte_count (snapshot_text s) <=? MAX_SNAPSHOT_BYTES
  then Ok (tail_report report' s (ct_intents c' - ct_intents c) (ct_order_events c' - ct_order_events c) (ct_fills c' - ct_fills c))
  else Ok (RecoveryReport false SNAPSHOT_CORRUPT None None 0 0 0 None).
Proof using All.
  intros Est Hrows s. destruct (reconciled_evidence Hspec Hk Hr Hready) as [Hev _].
  assert (snapshot_keyed s = true) as Hkey by apply built_keyed. pose proof (built_valid default_execution_policy spec report _ _ _ _ Hrows Hev : snapshot_post_init s = Ok tt) as Hinit.
  unfold recover_startup. cbn [exists_file sf_pending sf_target negb]. rewrite (load_text s Hkey Hinit). destruct (_ <=? _).
  2: { cbn [exn_cls]. rewrite bool_decide_true by done. by apply refusal_ok. }
  destruct (same_record s Hkey) as [_ Esha]. rewrite Esha. cbn [norm_snapshot rs_policy_sha256 rs_spec_sha256 s built jnorm].
  rewrite !(proj2 (py_eq_str _ _) eq_refl). cbn [negb]. fold s. change (RecoverySnapshot _ _ _ _ _ _ _ _ _ _) with (norm_snapshot s).
  rewrite (norm_validate _ s Hkey). unfold s at 1. rewrite (grown_prefix Hspec Hk Hr Hready Hk' Hr' Hready' Hg default_execution_policy states Est (sr_states _ _ _ _ Hrows)).
  cbn [rbind norm_snapshot rs_order_event_count s built jnorm json_number]. fold c'.
  assert (intent_count (norm_snapshot s) = ct_intents c /\ order_count (norm_snapshot s) = ct_orders c /\ fill_count (norm_snapshot s) = ct_fills c) as (Ei & Eo & Ef).
  { unfold intent_count, order_count, fill_count. cbn [norm_snapshot rs_intent_records rs_order_anchors rs_fill_anchors s built]. rewrite !length_map.
    unfold c, counts_of. cbn [ct_intents ct_orders ct_fills].
    split_and!; f_equal.
    - unfold intent_rows. by rewrite merge_sort_Permutation, rows_of_length.
    - rewrite <- (length_map state_values), <- Est. unfold state_rows. by rewrite merge_sort_Permutation, rows_of_length.
    - unfold numbered_fills. by rewrite sort_by_perm, rows_of_length. }
  change (event_count (ef_db f)) with (ct_order_events c). change (RecoverySnapshot _ _ _ _ _ _ _ _ _ _) with (norm_snapshot s). rewrite Ei, Eo, Ef.
  pose proof (grown_counts _ _ Hg) as (G1 & G2 & G3 & G4). fold c c' in G1, G2, G3, G4.
  rewrite !(proj2 (Z.ltb_ge _ _)) by assumption. cbn [orb]. rewrite Hr'. cbn [rbind]. rewrite Hready'. cbn [negb]. fold (tail_code (ct_intents c' - ct_intents c) (ct_order_events c' - ct_order_events c) (ct_fills c' - ct_fills c)).
  apply ready_report_ok; [apply tail_code_ok|apply digest_pattern|intros x [= <-]; apply snapshot_sha_pattern|lia..].
Qed.
End Extended.

(** ** What holds of a snapshot that startup accepts *)

(** The intent a record stands for is stored as it is. *)
Definition intent_kept (db : portfolio_db) (record : json) : Prop :=
  exists i, rebuilt_intent record = Ok i /\ od_intents (pd_orders db) !! in_authorization_sha256 i = Some i.

(** The order's event is stored; its state is still that one, or a later one. *)
Definition order_kept (db : portfolio_db) (anchor : json) : Prop :=
  exists record o e w, json_get anchor "state" = Ok record /\ rebuilt_state record = Ok o
    /\ od_events (pd_orders db) !! (os_authorization_sha256 o, os_sequence o) = Some e /\ er_event_sha256 e = os_event_sha256 o
    /\ od_states (pd_orders db) !! os_authorization_sha256 o = Some w
    /\ (os_sequence o < sr_sequence w \/ (sr_sequence w = os_sequence o /\ sr_state_sha256 w = order_state_sha256 o)).

Definition fill_kept (db : portfolio_db) (anchor : json) : Prop :=
  exists n w, get_number anchor "sequence" = Ok n /\ json_get anchor "fill_event_sha256" = Ok (JStr (fw_event_sha256 w))
    /\ w ∈ rows_of (pd_fills db) /\ fw_sequence w = n.

Lemma any_error_ok {A} (m : result A) msg a : any_error m msg = Ok a <-> m = Ok a.
Proof. by destruct m. Qed.

Lemma rebuilt_intent_inv j i : rebuilt_intent j = Ok i -> intent_valid_record i /\ get_text j "authorization_sha256" = Ok (in_authorization_sha256 i)
  /\ get_text j "effect_sha256" = Ok (in_effect_sha256 i) /\ get_text j "decision_sha256" = Ok (in_decision_sha256 i) /\ get_text j "readiness_sha256" = Ok (in_readiness_sha256 i)
  /\ get_text j "action" = Ok (in_action i) /\ get_text j "approved_quantity" = Ok (in_approved_quantity i) /\ get_text j "policy_id" = Ok (in_policy_id i)
  /\ get_text j "intent_sha256" = Ok (in_intent_sha256 i).
Proof.
  unfold rebuilt_intent. intros H. do 8 apply rbind_ok in H as (? & ? & H). unfold new_intent_record in H. apply rbind_ok in H as ([] & Hv & H). apply Ok_inj in H. subst i.
  cbn. by split_and!.
Qed.

Lemma intent_kept_of f s record : record ∈ rs_intent_records s -> snapshot_post_init s = Ok tt -> intent_holds (Opened f) record = Ok true -> intent_kept (ef_db f) record.
Proof.
  intros Hin Hinit H. unfold snapshot_post_init in Hinit. apply raise_if_ok in Hinit as [_ Hinit]. apply rbind_ok in Hinit as (n & _ & Hinit).
  apply raise_if_ok in Hinit as [_ Hinit]. apply rbind_ok in Hinit as (hs & Hhs & _). apply rmap_ok in Hhs. apply list_elem_of_lookup in Hin as (k & Ek).
  destruct (Forall2_lookup_l _ _ _ _ _ Hhs Ek) as (h & _ & Ha). unfold intent_anchor in Ha. apply raise_if_ok in Ha as [_ Ha]. apply rbind_ok in Ha as (i & Hi & Ha).
  apply any_error_ok in Hi. exists i. split; [done|]. destruct (rebuilt_intent_inv _ _ Hi) as (_ & T1 & T2 & T3 & T4 & T5 & T6 & T7 & T8).
  unfold intent_holds in H. rewrite T1 in H. cbn [rbind] in H. apply rbind_ok in H as (row & Hrow & H). unfold select in Hrow. destruct (str_in _ _); [|done]. apply Ok_inj in Hrow. subst row.
  revert H. destruct (od_intents _ !! _) as [r|] eqn:Er; [|done]. intros H. apply rbind_ok in H as (r' & Hr & H). unfold new_intent_record in Hr. apply rbind_ok in Hr as ([] & _ & Hr). apply Ok_inj in Hr. subst r'.
  apply Ok_inj in H. f_equal. unfold intent_as_record, intent_material in H.
  assert (forall k v, (k, JStr v) ∈ [
    ("authorization_sha256", JStr (in_authorization_sha256 r)); ("effect_sha256", JStr (in_effect_sha256 r)); ("decision_sha256", JStr (in_decision_sha256 r));
    ("readiness_sha256", JStr (in_readiness_sha256 r)); ("action", JStr (in_action r)); ("approved_quantity", JStr (in_approved_quantity r)); ("policy_id", JStr (in_policy_id r));
    ("intent_sha256", JStr (in_intent_sha256 r))]%string -> get_text record k = Ok v) as Hf.
  { intros k0 v Hkv. eapply py_eq_text; [exact H|]. clear - Hkv. cbn [app]. apply elem_of_cons. right. exact Hkv. }
  destruct r as [a b c d e q p t], i as [a' b' c' d' e' q' p' t']. cbn [in_authorization_sha256 in_effect_sha256 in_decision_sha256 in_readiness_sha256 in_action in_approved_quantity in_policy_id in_intent_sha256] in *.
  assert (forall k v v', get_text record k = Ok v' -> get_text record k = Ok v -> v = v') as Hu by congruence.
  f_equal; (eapply Hu; [eassumption|]; apply Hf; in_list).
Qed.

Lemma rebuilt_state_valid j o : rebuilt_state j = Ok o -> order_state_valid o.
Proof.
  unfold rebuilt_state. intros H. do 10 apply rbind_ok in H as (? & ? & H). unfold new_order_state in H. apply rbind_ok in H as ([] & Hv & H). apply Ok_inj in H. by subst o.
Qed.

Lemma order_kept_of f s anchor : anchor ∈ rs_order_anchors s -> snapshot_post_init s = Ok tt -> order_holds (Opened f) anchor = Ok true -> order_kept (ef_db f) anchor.
Proof.
  intros Hin Hinit H. unfold snapshot_post_init in Hinit. apply raise_if_ok in Hinit as [_ Hinit]. apply rbind_ok in Hinit as (n & _ & Hinit).
  apply raise_if_ok in Hinit as [_ Hinit]. apply rbind_ok in Hinit as (hs & _ & Hinit). apply raise_if_ok in Hinit as [_ Hinit]. apply rbind_ok in Hinit as (os & Hos & _).
  apply rmap_ok in Hos. apply list_elem_of_lookup in Hin as (k & Ek). destruct (Forall2_lookup_l _ _ _ _ _ Hos Ek) as (x & _ & Ha).
  unfold order_anchor in Ha. apply raise_if_ok in Ha as [_ Ha]. apply rbind_ok in Ha as ([[[[h m] ev] sha] record] & Hfs & Ha). apply any_error_ok in Hfs.
  apply rbind_ok in Hfs as (h' & Hh & Hfs). apply rbind_ok in Hfs as (m' & Hm & Hfs). apply rbind_ok in Hfs as (ev' & Hev & Hfs). apply rbind_ok in Hfs as (sha' & Hsha & Hfs).
  apply rbind_ok in Hfs as (record' & Hrec & Hfs). apply raise_if_ok in Hfs as [_ Hfs]. apply Ok_inj in Hfs. injection Hfs as -> -> -> -> ->.
  apply rbind_ok in Ha as (o & Ho & Ha). apply any_error_ok in Ho. apply raise_if_ok in Ha as [Ha _]. rewrite !orb_false_iff, !negb_false_iff in Ha.
  destruct Ha as ((((_ & E1) & E2) & E3) & E4). apply String.eqb_eq in E1. apply Z.eqb_eq in E2. apply py_eq_str in E3, E4. subst h m ev sha.
  unfold order_holds in H. rewrite Hh, Hm, Hev, Hsha in H. cbn [rbind] in H. apply rbind_ok in H as (e & He & H). apply rbind_ok in H as (w & Hw & H).
  unfold select in He, Hw. destruct (str_in _ _) in He; [|done]. destruct (str_in _ _) in Hw; [|done]. apply Ok_inj in He, Hw. destruct e as [e|]; [|done]. destruct w as [w|]; [|done].
  apply Ok_inj in H. rewrite !andb_true_iff, !negb_true_iff in H. destruct H as [[H1 H2] H3]. apply py_eq_str in H1. apply Z.ltb_ge in H2.
  exists record, o, e, w. split; [done|]. split; [done|]. split; [done|]. split; [congruence|]. split; [done|].
  destruct (Z.eqb_spec (sr_sequence w) (os_sequence o)) as [E|E]; [right|left; lia]. cbn [andb] in H3. apply negb_false_iff, py_eq_str in H3. split; [done|congruence].
Qed.

Lemma fill_kept_of f anchor : fill_holds (Opened f) anchor = Ok true -> fill_kept (ef_db f) anchor.
Proof.
  unfold fill_holds. intros H. apply rbind_ok in H as (n & Hn & H). apply rbind_ok in H as (sha & Hsha & H). apply rbind_ok in H as (w & Hw & H).
  unfold select in Hw. destruct (str_in _ _) in Hw; [|done]. apply Ok_inj in Hw. destruct w as [w|]; [|done]. apply Ok_inj in H. apply py_eq_str in H. subst sha.
  apply find_some in Hw as [Hin Hw]. apply Z.eqb_eq in Hw. exists n, w. split_and!; [done|done|by apply list_elem_of_In|done].
Qed.

Lemma all_hold_inv {A} (f : A -> result bool) l : all_hold f l = Ok true -> forall x, x ∈ l -> f x = Ok true.
Proof.
  induction l as [|y l IH]; intros H x Hx; [by apply elem_of_nil in Hx|]. cbn [all_hold] in H. apply rbind_ok in H as (b & Hb & H). destruct b; [|done].
  apply elem_of_cons in Hx as [->|Hx]; [done|by apply IH].
Qed.

(** What the database holds of a snapshot. *)
Record snapshot_kept (db : portfolio_db) (s : recovery_snapshot) : Prop := {
  kp_intents : forall record, record ∈ rs_intent_records s -> intent_kept db record;
  kp_orders : forall anchor, anchor ∈ rs_order_anchors s -> order_kept db anchor;
  kp_fills : forall anchor, anchor ∈ rs_fill_anchors s -> fill_kept db anchor;
}.

Lemma validated path s c : snapshot_post_init s = Ok tt -> _validate_snapshot_prefix path s = Ok (Some c) ->
  exists f, path = Opened f /\ snapshot_kept (ef_db f) s /\ c = counts_of (ef_db f).
Proof.
  intros Hinit H. unfold _validate_snapshot_prefix in H. cbv zeta in H. destruct (rbind _ _) as [[c'|]|e] eqn:E in H; [|done|by destruct (bool_decide _)].
  apply Ok_inj in H. injection H as ->. apply rbind_ok in E as (b1 & H1 & E). destruct b1; [|done]. cbn [negb] in E. apply rbind_ok in E as (b2 & H2 & E). destruct b2; [|done]. cbn [negb] in E.
  apply rbind_ok in E as (b3 & H3 & E). destruct b3; [|done]. cbn [negb] in E. apply rbind_ok in E as (n1 & N1 & E). apply rbind_ok in E as (n2 & N2 & E).
  apply rbind_ok in E as (n3 & N3 & E). apply rbind_ok in E as (n4 & N4 & E). apply Ok_inj in E. injection E as <-.
  destruct path as [| |f]; [done..|]. exists f. split; [done|]. unfold select in N1, N2, N3, N4.
  destruct (str_in _ _) in N1; [|done]. destruct (str_in _ _) in N2; [|done]. destruct (str_in _ _) in N3; [|done]. destruct (str_in _ _) in N4; [|done].
  apply Ok_inj in N1, N2, N3, N4. split; [|unfold counts_of, event_count; by subst]. constructor.
  - intros record Hin. eapply intent_kept_of; [done..|]. by apply (all_hold_inv _ _ H1).
  - intros anchor Hin. eapply order_kept_of; [done..|]. by apply (all_hold_inv _ _ H2).
  - intros anchor Hin. apply fill_kept_of. by apply (all_hold_inv _ _ H3).
Qed.

Lemma refusal_not_ready c a b h r : refusal_report c a b h = Ok r -> rr_ready r = false.
Proof. unfold refusal_report, new_recovery_report. intros H. apply rbind_ok in H as ([] & _ & H). apply Ok_inj in H. by subst r. Qed.

Lemma new_recovery_report_ok r r' : new_recovery_report r = Ok r' -> r' = r.
Proof. unfold new_recovery_report. intros H. apply rbind_ok in H as ([] & _ & H). by apply Ok_inj in H. Qed.

(** A READY report at startup, with what it rests on. *)
Definition ready_without_snapshot (r : recovery_report) (source : reconciliation_report) : Prop :=
  r = RecoveryReport true JOURNAL_REBUILD_READY (Some (report_sha256 source)) None 0 0 0 None.

Definition ready_with_snapshot (db : portfolio_db) (spec : backtest_spec) (policy : execution_policy) (f : file) (r : recovery_report) (source : reconciliation_report) : Prop :=
  exists s n, load_recovery_snapshot f = Ok s /\ snapshot_post_init s = Ok tt /\ rs_policy_sha256 s = JStr (_policy_sha256 policy) /\ rs_spec_sha256 s = JStr (_spec_sha256 spec)
    /\ snapshot_kept db s /\ rs_order_event_count s = JInt n
    /\ let c := counts_of db in let a := ct_intents c - intent_count s in let b := ct_order_events c - n in let d := ct_fills c - fill_count s in
       0 <= a /\ 0 <= b /\ 0 <= d /\ order_count s <= ct_orders c /\ r = tail_report source s a b d.

Lemma recover_ready_inv path fs spec policy r : recover_startup path fs spec policy = Ok r -> rr_ready r = true ->
  exists source, reconcile_startup path spec = Ok source /\ rp_ready source = true /\ sf_pending fs = NoFile
    /\ ((sf_target fs = NoFile /\ ready_without_snapshot r source)
        \/ (sf_target fs <> NoFile /\ exists f, path = Opened f /\ ready_with_snapshot (ef_db f) spec (default default_execution_policy policy) (sf_target fs) r source)).
Proof.
  intros H Hready. unfold recover_startup in H. fold (default default_execution_policy policy) in H. change (match policy with Some p => p | None => default_execution_policy end) with (default default_execution_policy policy) in H.
  cbv zeta in H. destruct (sf_pending fs) eqn:Ep; cbn [exists_file] in H.
  2-4: exfalso; destruct (_pending_confirmation fs) as [h|e]; [|destruct (bool_decide _); [|done]]; apply refusal_not_ready in H; congruence.
  destruct (exists_file (sf_target fs)) eqn:Et; cbn [negb] in H.
  2: { apply rbind_ok in H as (source & Hs & H). exists source. destruct (rp_ready source) eqn:Er; [|apply refusal_not_ready in H; congruence].
       apply new_recovery_report_ok in H. split; [done|]. split; [done|]. split; [done|]. left. split; [by destruct (sf_target fs)|done]. }
  destruct (load_recovery_snapshot (sf_target fs)) as [s|e] eqn:El; [|destruct (bool_decide _); [|done]; apply refusal_not_ready in H; congruence].
  destruct (py_eq _ (rs_policy_sha256 s)) eqn:Epol; cbn [negb] in H; [|apply refusal_not_ready in H; congruence].
  destruct (py_eq _ (rs_spec_sha256 s)) eqn:Esp; cbn [negb] in H; [|apply refusal_not_ready in H; congruence].
  apply rbind_ok in H as (c & Hc & H). destruct c as [c|]; [|apply refusal_not_ready in H; congruence].
  apply rbind_ok in H as (n & Hn & H). destruct (_ || _) eqn:Eb in H; [apply refusal_not_ready in H; congruence|].
  apply rbind_ok in H as (source & Hs & H). destruct (rp_ready source) eqn:Er; cbn [negb] in H; [|apply refusal_not_ready in H; congruence].
  apply new_recovery_report_ok in H. destruct (loaded_canonical _ _ El) as (b & _ & _ & _ & Hinit). destruct (validated path s c Hinit Hc) as (f & Ef & Hkept & Ecnt).
  exists source. split; [done|]. split; [done|]. split; [done|]. right. split; [by destruct (sf_target fs)|]. exists f. split; [done|]. exists s, n. apply py_eq_str in Epol, Esp.
  rewrite !orb_false_iff, !Z.ltb_ge in Eb. destruct Eb as (((B1 & B2) & B3) & B4). subst c. do 5 (split; [done|]). split; [unfold json_number in Hn; destruct (rs_order_event_count s); congruence|].
  cbv zeta. split; [lia|]. split; [lia|]. split; [lia|]. split; [lia|]. exact H.
Qed.

(** The digest an operator confirms. *)
Definition confirmation_record (pending : text) (final : option text) : json :=
  JObj [("schema_version", JInt 1); ("action", JStr "DISCARD_PENDING_ONLY"); ("pending_sha256", JStr (sha256_hex pending));
        ("final_sha256", JOptStr (sha256_hex <$> final))]%string.
Definition confirmation (pending : text) (final : option text) : string := digest (confirmation_record pending final).
(** The texts hashed for it: the two contents, and the record of their digests. *)
Definition confirmation_texts (pending : text) (final : option text) : list text :=
  json_dumps (confirmation_record pending final) :: pending :: option_list final.

(** The target as confirmation reads it: no file, or bytes within the limit. *)
Definition confirmable (f : file) (final : option text) : Prop :=
  match f with
  | NoFile | Folder => final = None
  | Bytes b => byte_count b <= MAX_SNAPSHOT_BYTES /\ final = Some b
  | Locked => False
  end.

Lemma pending_confirmation_cases fs : exists_file (sf_pending fs) = true ->
  (exists pending final, sf_pending fs = Bytes pending /\ byte_count pending <= MAX_SNAPSHOT_BYTES /\ confirmable (sf_target fs) final
     /\ _pending_confirmation fs = Ok (confirmation pending final))
  \/ exists msg, _pending_confirmation fs = snapshot_error msg.
Proof.
  intros _. unfold _pending_confirmation. destruct (sf_pending fs) as [| | |p]; [right; by eexists..|]. cbn [read_bytes rbind].
  destruct (Z.ltb_spec MAX_SNAPSHOT_BYTES (byte_count p)) as [|Hp]; [right; by eexists|].
  destruct (sf_target fs) as [| | |b]; cbn [is_file read_bytes rbind].
  - left. exists p, None. by split_and!.
  - left. exists p, None. by split_and!.
  - right. by eexists.
  - destruct (Z.ltb_spec MAX_SNAPSHOT_BYTES (byte_count b)) as [|Hb]; [right; by eexists|]. left. exists p, (Some b). by split_and!.
Qed.

Lemma confirmation_binds T p f p' f' : among (confirmation_texts p f) T -> among (confirmation_texts p' f') T ->
  confirmation p f = confirmation p' f' -> (p = p' /\ f = f') \/ collision T.
Proof.
  intros (Ht & Hp & Hf)%among_cons3 (Ht' & Hp' & Hf')%among_cons3 H. destruct (digest_binds T _ _ Ht Ht' H) as [E|]; [|by right].
  clear H. unfold confirmation_record in E. json_fields E.
  match goal with H : sha256_hex p = _ |- _ => apply (sha256_hex_binds T) in H as [H|H]; [subst p'|by right|done..] end.
  destruct f as [f|], f' as [f'|]; cbn [fmap option_fmap option_map option_list] in *; try done; [|by left].
  assert (sha256_hex f = sha256_hex f') as Hs by congruence. apply (sha256_hex_binds T) in Hs as [->|]; [by left|by right|by apply among_head in Hf|by apply among_head in Hf'].
Qed.

(** The first intent anchor whose row is not the anchored one is a row that the
    constructor refuses. *)
Definition corrupt_anchor (f : execution_file) (s : recovery_snapshot) : Prop := exists before record after h bad,
  rs_intent_records s = before ++ record :: after /\ (forall x, x ∈ before -> intent_holds (Opened f) x = Ok true)
  /\ "local_paper_intents"%string ∈ ef_tables f
  /\ get_text record "authorization_sha256" = Ok h /\ od_intents (pd_orders (ef_db f)) !! h = Some bad /\ ~ intent_valid_record bad.

Lemma intent_error_class i e : intent_post_init i = Err e -> exn_cls e = ExecutionJournalError.
Proof.
  unfold intent_post_init. cbv zeta. repeat match goal with |- (if ?b then _ else _) = _ -> _ => destruct b; [by intros [= <-]|] end. done.
Qed.

(** * Claims *)

(** C34. A snapshot outlives the use of the stores.  Take any two sequences of journal
    records, order events and fill applications, refused ones included, from an
    empty database, with startup READY after each.  The snapshot created after the
    first is committed, and after the second recovery is READY on it whenever the
    file fits the size limit: the report carries the current reconciliation, and
    counts exactly the intents, order events and fills stored since, as a match
    when there are none.  When the file exceeds the limit it is written all the
    same, and no later startup can read it. (Unless two of the texts hashed by these
    calls collide under SHA-256.) *)
Theorem snapshot_outlives_use specs before db1 apps1 later db2 apps2 sym f1 f2 r1 r2 (Hspecs : specs_ok specs)
    (Hbefore : Forall (portfolio_call_ok specs) before) (Hlater : Forall (portfolio_call_ok specs) later)
    (Hrun1 : run_portfolio specs before empty_portfolio_db = (db1, apps1)) (Hrun2 : run_portfolio specs later db1 = (db2, apps2))
    (Hsym : str_in sym SYMBOLS = true) (Hf1 : ef_db f1 = db1) (Hf2 : ef_db f2 = db2)
    (Hr1 : reconcile_startup (Opened f1) (specs sym) = Ok r1) (Hready1 : rp_ready r1 = true)
    (Hr2 : reconcile_startup (Opened f2) (specs sym) = Ok r2) (Hready2 : rp_ready r2 = true) :
  collision (run_portfolio_texts specs before empty_portfolio_db ++ run_portfolio_texts specs later db1) \/ exists s,
    let fs := SnapshotFiles (Bytes (snapshot_text s)) NoFile in
    let c1 := counts_of db1 in let c2 := counts_of db2 in
    create_recovery_snapshot (Opened f1) (specs sym) None Committed (SnapshotFiles NoFile NoFile) = (fs, Ok s)
    /\ (fits_file s -> recover_startup (Opened f2) fs (specs sym) None
          = Ok (tail_report r2 s (ct_intents c2 - ct_intents c1) (ct_order_events c2 - ct_order_events c1) (ct_fills c2 - ct_fills c1)))
    /\ (~ fits_file s -> recover_startup (Opened f2) fs (specs sym) None = Ok (RecoveryReport false SNAPSHOT_CORRUPT None None 0 0 0 None)).
Proof.
  pose proof (among_left (run_portfolio_texts specs before empty_portfolio_db) (run_portfolio_texts specs later db1)) as T1.
  pose proof (among_right (run_portfolio_texts specs before empty_portfolio_db) (run_portfolio_texts specs later db1)) as T2. set (T := run_portfolio_texts specs before _ ++ _) in *.
  destruct (run_portfolio_books specs T before empty_portfolio_db (fun _ => []) db1 apps1 (empty_portfolio_texts _) T1 Hspecs Hbefore empty_portfolio_inv (empty_books specs Hspecs) Hrun1)
    as [|(Hdb1 & HT1 & Hb1)]; [by left|].
  destruct (run_portfolio_books specs T later db1 _ db2 apps2 HT1 T2 Hspecs Hlater Hdb1 Hb1 Hrun2) as [|(Hdb2 & _ & _)]; [by left|].
  destruct (run_portfolio_grows T specs later db1 _ db2 apps2 HT1 T2 Hspecs Hlater Hdb1 Hb1 Hrun2) as [|Hg]; [by left|]. right.
  destruct (Hspecs sym Hsym) as [Hv _]. subst db1 db2. pose proof (inv_keyed _ Hdb1) as Hk1. pose proof (inv_keyed _ Hdb2) as Hk2.
  destruct (reconciled_built Hv Hk1 Hr1 Hready1 default_execution_policy) as (states & Est & Hrows & Hbuild).
  eexists. split; [unfold create_recovery_snapshot, sbind, slift; rewrite Hbuild; reflexivity|].
  rewrite (recover_extended Hv Hk1 Hr1 Hready1 Hk2 Hr2 Hready2 Hg states Est Hrows). unfold fits_file.
  split; intros Hfit; [by rewrite (proj2 (Z.leb_le _ _) Hfit)|by rewrite (proj2 (Z.leb_gt _ _)) by lia].
Qed.

(** C33. Recovery is READY over a sound state only.  Whatever the database and the
    files hold, a READY report means that there is no pending file, that the
    database is open, reconciles, and is sound (orders, fills, ledger and
    projection agree), and that the report carries that reconciliation.  With no
    snapshot it is a rebuild with empty tails; with one, the file is a canonical
    snapshot of this policy and specification, every intent, order event and fill
    it anchors is stored unchanged, no order has gone back, and the tails are
    exactly what is stored beyond it.  The readiness evidence is valid, and READY
    exactly for a READY report. *)
Theorem recovery_ready_sound path fs spec policy r (Hspec : spec_valid spec) (Hk : forall f, path = Opened f -> keyed (ef_db f))
    (Hr : recover_startup path fs spec policy = Ok r) :
  readiness_valid (recovery_readiness r) /\ (rd_status (recovery_readiness r) = READY <-> rr_ready r = true)
  /\ (rr_ready r = true -> exists f events l source,
        path = Opened f /\ schema_ok f /\ sound_state spec (ef_db f) events l /\ sf_pending fs = NoFile
        /\ reconcile_startup path spec = Ok source /\ rp_ready source = true
        /\ ((sf_target fs = NoFile /\ ready_without_snapshot r source)
            \/ (sf_target fs <> NoFile /\ ready_with_snapshot (ef_db f) spec (default default_execution_policy policy) (sf_target fs) r source))).
Proof.
  assert (rr_ready r = true -> exists source, reconcile_startup path spec = Ok source /\ rp_ready source = true /\ sf_pending fs = NoFile
    /\ ((sf_target fs = NoFile /\ ready_without_snapshot r source)
        \/ (sf_target fs <> NoFile /\ exists f, path = Opened f /\ ready_with_snapshot (ef_db f) spec (default default_execution_policy policy) (sf_target fs) r source))) as Hinv
    by exact (recover_ready_inv path fs spec policy r Hr).
  split; [|split].
  - unfold readiness_valid, readiness_post_init, recovery_readiness. destruct (rr_ready r) eqn:E; cbn [rd_status rdn_reason reconciliation_sha256 valid_digest].
    + destruct (Hinv eq_refl) as (source & _ & _ & _ & [(_ & ->)|(_ & f & _ & s & n & _ & _ & _ & _ & _ & _ & _ & _ & _ & _ & ->)]);
        cbn [tail_report rr_reconciliation_sha256 valid_digest]; unfold report_sha256; by rewrite digest_pattern.
    + unfold recovery_sha256. by rewrite digest_pattern.
  - unfold recovery_readiness. by destruct (rr_ready r).
  - intros Hready. destruct (Hinv Hready) as (source & Hs & Hsr & Hp & Hcase). destruct path as [| |f]; [apply startup_cases in Hs as [(f & Ef & _)|(c & _ & E)]; [discriminate Ef|by rewrite E in Hsr]..|].
    destruct (reconciled_sound Hspec (Hk f eq_refl) Hs Hsr) as (events & l & Hsound & _ & Hsch). exists f, events, l, source. split; [done|]. split; [done|]. split; [exact Hsound|].
    split; [done|]. split; [done|]. split; [done|]. destruct Hcase as [H|(Ht & f' & Ef & H)]; [by left|right]. assert (f' = f) as -> by congruence. by split.
Qed.

(** C37. An interrupted commit fails closed and is resolved by its exact evidence.
    While a pending file exists, startup is never READY, whatever the database and
    the target hold, and no snapshot is created.  If both files can be read within
    the size limit, the report asks for one confirmation digest; confirming it
    removes the pending file and nothing else, any other text is refused without a
    change, and the digest fits no other content of the two files, unless two of the
    texts hashed for the two confirmations (the contents of the files, and the
    records of their digests) collide under SHA-256.  Otherwise the report is a storage error and
    every confirmation is refused. *)
Theorem pending_fails_closed path spec policy fs (Hp : exists_file (sf_pending fs) = true) :
  let unchanged A (x : snapshot_files * result A) := exists e, x = (fs, Err e) in
  (forall o, unchanged _ (create_recovery_snapshot path spec policy o fs))
  /\ ((exists pending final, sf_pending fs = Bytes pending /\ confirmable (sf_target fs) final /\ let h := confirmation pending final in
         recover_startup path fs spec policy = Ok (RecoveryReport false AMBIGUOUS_COMMIT None None 0 0 0 (Some h))
         /\ confirm_pending_snapshot h true fs = (SnapshotFiles (sf_target fs) NoFile, Ok h)
         /\ (forall other removable, other <> h -> unchanged _ (confirm_pending_snapshot other removable fs))
         /\ forall pending' final', confirmation pending' final' = h -> (pending' = pending /\ final' = final)
              \/ collision (confirmation_texts pending final ++ confirmation_texts pending' final'))
      \/ (recover_startup path fs spec policy = Ok (RecoveryReport false RC_STORAGE_ERROR None None 0 0 0 None)
          /\ forall h removable, unchanged _ (confirm_pending_snapshot h removable fs))).
Proof.
  cbv zeta. split.
  - intros o. unfold create_recovery_snapshot, sbind at 1, slift at 1. destruct (_build_snapshot _ _ _) as [s|e]; [|by eexists].
    destruct o; unfold sbind, sget, sraise; rewrite ?Hp; by eexists.
  - unfold recover_startup. rewrite Hp. destruct (pending_confirmation_cases fs Hp) as [(p & f & Ep & Hs & Hf & E)|(msg & E)]; rewrite E.
    + left. exists p, f. split; [done|]. split; [done|]. split; [|split; [|split]].
      * unfold refusal_report, new_recovery_report, recovery_report_post_init. cbn [tail_intents tail_order_events tail_fills existsb Z.ltb Z.compare orb rr_reconciliation_sha256
          rr_snapshot_sha256 manual_confirmation_sha256 rr_ready andb rr_code opt_is_none negb]. unfold confirmation at 1. rewrite digest_pattern. reflexivity.
      * unfold confirm_pending_snapshot. unfold confirmation at 1. rewrite digest_pattern. cbn [negb]. unfold sbind, sget, slift. rewrite E, String.eqb_refl. reflexivity.
      * intros other removable Hne. unfold confirm_pending_snapshot. destruct (negb (sha256_pattern other)); [by eexists|]. unfold sbind, sget, slift. rewrite E.
        rewrite (proj2 (String.eqb_neq other _) Hne). by eexists.
      * intros p' f' H. destruct (confirmation_binds _ p' f' p f (among_right _ _) (among_left _ _) H) as [Hb|Hx]; [left; exact Hb|right; exact Hx].
    + right. split.
      * unfold snapshot_error. cbn [exn_cls]. rewrite bool_decide_true by done. by apply refusal_ok.
      * intros h removable. unfold confirm_pending_snapshot. destruct (negb (sha256_pattern h)); [by eexists|]. unfold sbind, sget, slift. rewrite E. by eexists.
Qed.

(** C40. A corrupt intent row escapes recovery.  When no commit is pending, the
    snapshot file loads, its policy and specification digests are the current ones,
    and the database holds, under an authorization the snapshot anchors, a row that
    the intent constructor refuses, while every intent anchored before it is stored
    as anchored, then startup does not report a mismatch: the constructor's
    ExecutionJournalError escapes from it. *)
Theorem corrupt_intent_escapes f fs spec policy s (Hp : sf_pending fs = NoFile) (Hload : load_recovery_snapshot (sf_target fs) = Ok s)
    (Hpolicy : rs_policy_sha256 s = JStr (_policy_sha256 (default default_execution_policy policy))) (Hspec : rs_spec_sha256 s = JStr (_spec_sha256 spec))
    (Hcorrupt : corrupt_anchor f s) :
  exists e, recover_startup (Opened f) fs spec policy = Err e /\ exn_cls e = ExecutionJournalError.
Proof.
  destruct Hcorrupt as (before & record & after & h & bad & Hs & Hbefore & Htable & Hh & Hbad & Hinvalid).
  assert (exists e, intent_holds (Opened f) record = Err e /\ exn_cls e = ExecutionJournalError) as (e & He & Hcls).
  { unfold intent_holds, select. rewrite Hh. cbn [rbind]. rewrite (proj2 (str_in_spec _ _) Htable). cbn [rbind]. rewrite Hbad. unfold new_intent_record.
    destruct (intent_post_init bad) as [[]|e] eqn:E; [done|]. exists e. split; [done|]. by apply intent_error_class in E. }
  exists e. split; [|done]. unfold recover_startup. rewrite Hp. cbn [exists_file]. change (match policy with Some p => p | None => default_execution_policy end) with (default default_execution_policy policy).
  destruct (sf_target fs) as [| | |b] eqn:Et; [discriminate Hload|discriminate Hload|discriminate Hload|]. cbn [exists_file negb]. rewrite Hload, Hpolicy, Hspec, !(proj2 (py_eq_str _ _) eq_refl).
  cbn [negb]. assert (all_hold (intent_holds (Opened f)) (rs_intent_records s) = Err e) as Ha.
  { rewrite Hs. clear - Hbefore He. induction before as [|x l IH]; cbn [app all_hold]; [by rewrite He|]. rewrite (Hbefore x) by apply list_elem_of_here. cbn [rbind].
    apply IH. intros y Hy. by apply Hbefore, list_elem_of_further. }
  unfold _validate_snapshot_prefix. rewrite Ha. cbn [rbind]. rewrite bool_decide_false; [done|]. rewrite Hcls. unfold SNAPSHOT_ERRORS, VALUE_ERRORS.
  rewrite !elem_of_cons, elem_of_nil. naive_solver.
Qed.

(** ** Witnesses *)

Definition small_intent : intent_record :=
  let draft := LocalPaperIntentRecord zeros zeros zeros zeros "ENTER_LONG" "1" EXECUTION_POLICY_ID "" in
  LocalPaperIntentRecord zeros zeros zeros zeros "ENTER_LONG" "1" EXECUTION_POLICY_ID (_expected_sha256 draft).
Definition small_state : order_state := LocalPaperOrderState zeros zeros 0 0 PENDING_LOCAL ACCEPTED_INTENT_RECORDED None zeros.
Definition small_report : reconciliation_report := StartupReconciliationReport true MATCH (Some zeros) 1 1 0 (Some zeros) (Some zeros) (Some zeros).
Definition small_snapshot : recovery_snapshot := built default_execution_policy (store_specs "BTCUSDT") small_report [small_intent] [small_state] [] 1.

Lemma small_intent_valid : intent_valid_record small_intent.
Proof.
  unfold intent_valid_record, intent_post_init, small_intent. cbn [in_authorization_sha256 in_effect_sha256 in_decision_sha256 in_readiness_sha256 in_action in_approved_quantity in_policy_id
    in_intent_sha256 existsb]. unfold _expected_sha256. rewrite digest_pattern. reflexivity.
Qed.

Lemma small_snapshot_valid : snapshot_post_init small_snapshot = Ok tt.
Proof.
  apply built_valid.
  - constructor; try done; cbn [map]; [constructor; [exact small_intent_valid|constructor]|by repeat constructor|apply NoDup_singleton].
  - constructor; by exists zeros.
Qed.

Lemma small_snapshot_fits : fits_file small_snapshot.
Proof.
  apply text_fits.
  assert (string_bound zeros = 386) as Hz by reflexivity. assert (forall j, string_bound (digest j) = 386) as Hd by (intros j; apply digest_bound, digest_pattern).
  unfold snapshot_as_record, snapshot_material, small_snapshot, built. cbn [rs_policy_sha256 rs_spec_sha256 rs_reconciliation_sha256 rs_journal_sha256 rs_orders_sha256 rs_portfolio_sha256
    rs_intent_records rs_order_anchors rs_fill_anchors rs_order_event_count small_report rp_journal_sha256 rp_orders_sha256 rp_portfolio_sha256 JOptStr app map text_bound fst snd].
  unfold intent_as_record, intent_material, state_anchor, order_state_as_record, order_state_material. cbn [app map text_bound fst snd small_intent small_state in_authorization_sha256
    in_effect_sha256 in_decision_sha256 in_readiness_sha256 in_action in_approved_quantity in_policy_id in_intent_sha256 os_authorization_sha256 os_intent_sha256 os_sequence
    os_updated_time_ms os_status os_reason os_previous_state_sha256 os_event_sha256 JOptStr].
  unfold snapshot_sha256, _policy_sha256, _spec_sha256, report_sha256, _expected_sha256, order_state_sha256. rewrite !Hd, !Hz. apply (bool_decide_unpack _). reflexivity.
Qed.

Lemma empty_store_ready : exists r, reconcile_startup (Opened (sample_file empty_portfolio_db)) (store_specs "BTCUSDT") = Ok r /\ rp_ready r = true.
Proof.
  destruct (store_specs_ok "BTCUSDT" eq_refl) as [Hv _]. destruct (spec_cash store_specs "BTCUSDT" store_specs_ok eq_refl) as (c & Hc).
  destruct (empty_books store_specs store_specs_ok "BTCUSDT" eq_refl) as (l & Hb).
  destruct (book_consistent (f := sample_file empty_portfolio_db) Hv Hc (sample_schema empty_portfolio_db) empty_portfolio_inv Hb) as (tj & to & tp & Hx).
  - intros h Hh. exfalso; apply Hh; apply lookup_empty.
  - constructor; intros r Hr; apply rows_of_elem in Hr as (k & E); cbn in E; by rewrite lookup_empty in E.
  - unfold long, MAX_LEDGER_BATCH. cbn. lia.
  - eexists. split; [cbn [reconcile_startup]; rewrite (proj2 (reconcile_iff (sample_file empty_portfolio_db) (store_specs "BTCUSDT") _ (inv_keyed _ empty_portfolio_inv))
      (ex_intro _ tj (ex_intro _ to (ex_intro _ tp (ex_intro _ _ (conj Hx eq_refl)))))); reflexivity|reflexivity].
Qed.

Lemma snapshot_outlives_use_witness : exists s fs, create_recovery_snapshot (Opened (sample_file empty_portfolio_db)) (store_specs "BTCUSDT") None Committed
  (SnapshotFiles NoFile NoFile) = (fs, Ok s).
Proof.
  destruct empty_store_ready as (r & Hr & Hready).
  destruct (snapshot_outlives_use store_specs [] empty_portfolio_db [] [] empty_portfolio_db [] "BTCUSDT" (sample_file empty_portfolio_db) (sample_file empty_portfolio_db) r r
    store_specs_ok ltac:(constructor) ltac:(constructor) eq_refl eq_refl eq_refl eq_refl eq_refl Hr Hready Hr Hready) as [Hx|(s & Hs & _)]; [exfalso; exact (no_collision_nil Hx)|].
  exists s. eexists. exact Hs.
Defined.

Lemma recovery_ready_sound_witness : exists r events l, recover_startup (Opened (sample_file sample_store)) (SnapshotFiles NoFile NoFile) (store_specs "BTCUSDT") None = Ok r
  /\ rr_ready r = true /\ sound_state (store_specs "BTCUSDT") sample_store events l.
Proof.
  destruct sample_ready as (source & Hs & Hready).
  assert (recover_startup (Opened (sample_file sample_store)) (SnapshotFiles NoFile NoFile) (store_specs "BTCUSDT") None
    = Ok (RecoveryReport true JOURNAL_REBUILD_READY (Some (report_sha256 source)) None 0 0 0 None)) as Hr.
  { unfold recover_startup. cbn [exists_file sf_pending sf_target negb]. rewrite Hs. cbn [rbind]. rewrite Hready. apply ready_report_ok; [done|apply digest_pattern|done|lia..]. }
  destruct (recovery_ready_sound (Opened (sample_file sample_store)) (SnapshotFiles NoFile NoFile) (store_specs "BTCUSDT") None _ (proj1 (store_specs_ok "BTCUSDT" eq_refl))
    ltac:(intros f E; replace f with (sample_file sample_store) by congruence; exact (inv_keyed _ sample_store_inv)) Hr) as (_ & _ & H).
  destruct (H eq_refl) as (f & events & l & _ & Ef & _ & Hl & _). eexists. exists events, l. split; [exact Hr|]. split; [reflexivity|].
  replace sample_store with (ef_db f); [exact Hl|]. assert (sample_file sample_store = f) as <- by congruence. reflexivity.
Defined.

Lemma pending_fails_closed_witness : exists r, recover_startup Missing (SnapshotFiles NoFile (Bytes [chr 123])) (store_specs "BTCUSDT") None = Ok r /\ rr_ready r = false.
Proof.
  destruct (pending_fails_closed Missing (store_specs "BTCUSDT") None (SnapshotFiles NoFile (Bytes [chr 123])) eq_refl) as (_ & [(p & f & _ & _ & H & _)|(H & _)]);
    eexists; (split; [exact H|reflexivity]).
Defined.

(** A database whose one intent row is not an intent. *)
Definition corrupt_intent : intent_record := LocalPaperIntentRecord zeros zeros zeros zeros "ENTER_LONG" "" EXECUTION_POLICY_ID zeros.
Definition corrupt_store : portfolio_db := PortfolioDb (OrderDb {[zeros := corrupt_intent]} ∅ ∅) ∅ ∅.

Lemma corrupt_intent_escapes_witness : exists e, recover_startup (Opened (sample_file corrupt_store)) (SnapshotFiles (Bytes (snapshot_text small_snapshot)) NoFile) (store_specs "BTCUSDT") None
  = Err e /\ exn_cls e = ExecutionJournalError.
Proof.
  assert (snapshot_keyed small_snapshot = true) as Hk by apply built_keyed.
  apply (corrupt_intent_escapes (sample_file corrupt_store) (SnapshotFiles (Bytes (snapshot_text small_snapshot)) NoFile) (store_specs "BTCUSDT") None (norm_snapshot small_snapshot)).
  - reflexivity.
  - cbn [sf_target]. rewrite (load_text small_snapshot Hk small_snapshot_valid). by rewrite (proj2 (Z.leb_le _ _) small_snapshot_fits).
  - reflexivity.
  - reflexivity.
  - exists [], (jnorm (intent_as_record small_intent)), [], zeros, corrupt_intent. split; [reflexivity|]. split; [intros x Hx; by apply elem_of_nil in Hx|].
    split; [unfold sample_file, REQUIRED_TABLES; cbn [ef_tables]; in_list|].
    split; [by rewrite <- (same_text _ _ "authorization_sha256" (same_norm _ (intent_record_keyed small_intent)))|]. split; [reflexivity|].
    unfold intent_valid_record, intent_post_init. discriminate.
Defined.
