(* ===== verification/Operator.v ===== *)
(** * The operator's commands (yatl/execution/runner.py)

    Status, reconciliation and explicit recovery of the paper database, as one
    bounded report with an exit code.  The command line is parsed by argparse: a
    request is its outcome.  An OperatorError carries the value of its code. *)
From stdpp Require Import gmap sorting.
From S2P Require Import Prelude PyDecimal PyText Digest JsonText Market BacktestConfig MarketView Fills Costs Ledger HashChain Regime RiskState RiskAdapter Execution Journal OrderState LocalFills Portfolio Reconcile Snapshot Recovery Recovered.

Definition OPERATOR_SCHEMA_VERSION : Z := 1.
Definition MAX_SPEC_BYTES : Z := 16 * 1024.
Definition MAX_OUTPUT_BYTES : Z := 4 * 1024.
Definition EXIT_READY : Z := 0.
Definition EXIT_NOT_READY : Z := 20.
Definition EXIT_INVALID : Z := 21.
Definition EXIT_STORAGE : Z := 22.

Definition SPEC_KEYS : list string := [
  "symbol"; "start_time_ms"; "end_time_ms"; "initial_cash"; "fee_bps"; "slippage_bps"; "seed"; "paper_only"; "live_master_lock"; "spot_only";
  "allow_short"; "allow_leverage"; "execution_price_policy"]%string.

Inductive operator_code : Type :=
| OP_READY | NOT_READY | SNAPSHOT_CREATED | SNAPSHOT_PRESENT | PENDING_CONFIRMED | ACTION_REFUSED | INVALID_SPEC | INVALID_REQUEST | OP_STORAGE_ERROR.
#[global] Instance operator_code_eq_dec : EqDecision operator_code.
Proof. solve_decision. Defined.

Definition operator_code_value (c : operator_code) : string :=
  match c with
  | OP_READY => "READY" | NOT_READY => "NOT_READY" | SNAPSHOT_CREATED => "SNAPSHOT_CREATED" | SNAPSHOT_PRESENT => "SNAPSHOT_PRESENT"
  | PENDING_CONFIRMED => "PENDING_CONFIRMED" | ACTION_REFUSED => "ACTION_REFUSED" | INVALID_SPEC => "INVALID_SPEC"
  | INVALID_REQUEST => "INVALID_REQUEST" | OP_STORAGE_ERROR => "STORAGE_ERROR"
  end.
Definition OPERATOR_CODES : list operator_code := [
  OP_READY; NOT_READY; SNAPSHOT_CREATED; SNAPSHOT_PRESENT; PENDING_CONFIRMED; ACTION_REFUSED; INVALID_SPEC; INVALID_REQUEST; OP_STORAGE_ERROR].

(** [OperatorError(code)], and [exc.code]. *)
Definition operator_error (c : operator_code) : exn := Raise OperatorError (operator_code_value c).
Definition error_code (e : exn) : option operator_code :=
  if bool_decide (exn_cls e = OperatorError) then find (fun c => String.eqb (operator_code_value c) (exn_msg e)) OPERATOR_CODES else None.

Record operator_report : Type := OperatorReport {
  op_command : string;
  op_ok : bool;
  op_ready : bool;
  op_code : operator_code;
  op_source_code : option string;
  op_spec_sha256 : option string;
  op_reconciliation_sha256 : option string;
  op_snapshot_sha256 : option string;
  op_confirmation_sha256 : option string;
  op_intents : Z;
  op_orders : Z;
  op_fills : Z;
  op_tail_intents : Z;
  op_tail_order_events : Z;
  op_tail_fills : Z;
}.

Definition operator_report_post_init (r : operator_report) : result unit :=
  if negb (str_in (op_command r) ["status"; "reconcile"; "recover"; "invalid"]%string) then Err (operator_error INVALID_REQUEST) else
  if existsb (fun v => match v with Some h => negb (sha256_pattern h) | None => false end)
       [op_spec_sha256 r; op_reconciliation_sha256 r; op_snapshot_sha256 r; op_confirmation_sha256 r] then Err (operator_error INVALID_REQUEST) else
  if existsb (fun n => n <? 0) [op_intents r; op_orders r; op_fills r; op_tail_intents r; op_tail_order_events r; op_tail_fills r]
  then Err (operator_error INVALID_REQUEST) else
  Ok tt.
Definition new_operator_report (r : operator_report) : result operator_report := do* operator_report_post_init r ;; Ok r.

Definition operator_as_record (r : operator_report) : list (string * json) := [
  ("schema_version", JInt OPERATOR_SCHEMA_VERSION); ("command", JStr (op_command r)); ("ok", JBool (op_ok r)); ("ready", JBool (op_ready r));
  ("code", JStr (operator_code_value (op_code r))); ("source_code", JOptStr (op_source_code r)); ("spec_sha256", JOptStr (op_spec_sha256 r));
  ("reconciliation_sha256", JOptStr (op_reconciliation_sha256 r)); ("snapshot_sha256", JOptStr (op_snapshot_sha256 r));
  ("confirmation_sha256", JOptStr (op_confirmation_sha256 r));
  ("counts", JObj [("intents", JInt (op_intents r)); ("orders", JInt (op_orders r)); ("fills", JInt (op_fills r))]);
  ("tail", JObj [("intents", JInt (op_tail_intents r)); ("order_events", JInt (op_tail_order_events r)); ("fills", JInt (op_tail_fills r))])]%string.
Definition operator_sha256 (r : operator_report) : string := digest (JObj (operator_as_record r)).

(** Refused beyond 4 KiB. *)
Definition bounded_output (payload : text) : result text :=
  if MAX_OUTPUT_BYTES <? byte_count payload then Err (operator_error OP_STORAGE_ERROR) else Ok payload.
Definition operator_json (r : operator_report) : result text :=
  bounded_output (json_dumps (JObj (operator_as_record r ++ [("report_sha256"%string, JStr (operator_sha256 r))]))).

Definition lines (l : list text) : text := match l with [] => [] | x :: l' => x ++ concat (map (fun y => chr 10 :: y) l') end.
(** [value or "-"] *)
Definition or_dash (o : option string) : text := match o with Some EmptyString | None => txt "-" | Some s => txt s end.
Definition operator_text (r : operator_report) : result text :=
  let flag (b : bool) := txt (if b then "true" else "false") in
  bounded_output (lines (map (fun kv => txt (fst kv) ++ "="%char :: snd kv) [
    ("command", txt (op_command r)); ("ok", flag (op_ok r)); ("ready", flag (op_ready r)); ("code", txt (operator_code_value (op_code r)));
    ("source_code", or_dash (op_source_code r)); ("spec_sha256", or_dash (op_spec_sha256 r)); ("reconciliation_sha256", or_dash (op_reconciliation_sha256 r));
    ("snapshot_sha256", or_dash (op_snapshot_sha256 r)); ("confirmation_sha256", or_dash (op_confirmation_sha256 r));
    ("intents", json_int (op_intents r)); ("orders", json_int (op_orders r)); ("fills", json_int (op_fills r));
    ("tail_intents", json_int (op_tail_intents r)); ("tail_order_events", json_int (op_tail_order_events r)); ("tail_fills", json_int (op_tail_fills r));
    ("report_sha256", txt (operator_sha256 r))]%string)).

(** ** The specification file *)

Definition get_flag (j : json) (key : string) : result bool := let* v := json_get j key in match v with JBool b => Ok b | _ => Err (Raise TypeError key) end.

(** [BacktestSpec] of the members: the constructor refuses a value of another type. *)
Definition spec_of_json (j : json) : result backtest_spec :=
  let* symbol := get_text j "symbol" in
  let* start := get_number j "start_time_ms" in
  let* stop := get_number j "end_time_ms" in
  let* cash := get_text j "initial_cash" in
  let* fee := get_text j "fee_bps" in
  let* slippage := get_text j "slippage_bps" in
  let* seed := get_number j "seed" in
  let* paper := get_flag j "paper_only" in
  let* lock := get_text j "live_master_lock" in
  let* spot := get_flag j "spot_only" in
  let* short := get_flag j "allow_short" in
  let* leverage := get_flag j "allow_leverage" in
  let* price := get_text j "execution_price_policy" in
  new_spec (BacktestSpec symbol start stop cash fee slippage seed paper lock spot short leverage price).

(** [bytes.decode("utf-8-sig")]: without the byte order mark. *)
Definition decode_sig (b : text) : result text :=
  let b := match b with
           | x :: y :: z :: r => if ((ord x =? 239) && (ord y =? 187) && (ord z =? 191))%N then r else b
           | _ => b
           end in
  if forallb (fun c => ord c <? 128)%N b then Ok b else Err (Raise ValueError "UnicodeError").

(** Every failure is an INVALID_SPEC.  The source catches UnicodeError and
    JSONDecodeError around [json.loads], and the errors of the constructor; two
    failures it lets escape are not failures here, since [loads] has neither limit:
    an integer of more than 4300 digits (ValueError) and too deep a nesting
    (RecursionError).  Text outside ASCII is refused, and so is a float; the source
    accepts them and then refuses the members they stand in, so the outcome differs
    only for a member that is given twice and overwritten. *)
Definition invalid_spec {A} (m : result A) : result A := match m with Ok a => Ok a | Err _ => Err (operator_error INVALID_SPEC) end.
Definition load_operator_spec (f : file) : result backtest_spec :=
  match f with
  | Bytes raw =>
      if MAX_SPEC_BYTES <? byte_count raw then Err (operator_error INVALID_SPEC) else
      let* payload := invalid_spec (let* t := decode_sig raw in loads t) in
      if negb (has_keys SPEC_KEYS payload) then Err (operator_error INVALID_SPEC) else
      invalid_spec (spec_of_json payload)
  | _ => Err (operator_error INVALID_SPEC)
  end.

(** ** Commands *)

Definition operator_status (path : database) (spec : backtest_spec) : stm snapshot_files operator_report :=
  let! fs := sget in
  let! r := slift (recover_startup path fs spec None) in
  slift (new_operator_report (OperatorReport "status" true (rr_ready r) (if rr_ready r then OP_READY else NOT_READY) (Some (recovery_code_value (rr_code r))) None
    (rr_reconciliation_sha256 r) (rr_snapshot_sha256 r) (manual_confirmation_sha256 r) 0 0 0 (tail_intents r) (tail_order_events r) (tail_fills r))).

Definition operator_reconcile (path : database) (spec : backtest_spec) : stm snapshot_files operator_report :=
  let! r := slift (reconcile_startup path spec) in
  slift (new_operator_report (OperatorReport "reconcile" true (rp_ready r) (if rp_ready r then OP_READY else NOT_READY) (Some (code_value (rp_code r)))
    (rp_spec_sha256 r) (Some (report_sha256 r)) None None (rp_intent_count r) (rp_order_count r) (rp_fill_count r) 0 0 0)).

(** A report of [recover]. *)
Definition recover_report (ok ready : bool) (c : operator_code) (r : recovery_report) (snapshot confirmation : option string) (tails : bool)
    : stm snapshot_files operator_report :=
  let tail n := if tails then n else 0 in
  slift (new_operator_report (OperatorReport "recover" ok ready c (Some (recovery_code_value (rr_code r))) None (rr_reconciliation_sha256 r) snapshot confirmation
    0 0 0 (tail (tail_intents r)) (tail (tail_order_events r)) (tail (tail_fills r)))).

(** [except RecoverySnapshotError: raise OperatorError(STORAGE_ERROR)] *)
Definition storage_guard {A} (m : stm snapshot_files A) : stm snapshot_files A := scatch m [RecoverySnapshotError] (operator_error OP_STORAGE_ERROR).

Definition operator_recover (path : database) (spec : backtest_spec) (create : bool) (confirmation : option string) (o : commit_outcome) (removable : bool)
    : stm snapshot_files operator_report :=
  if (create && negb (opt_is_none confirmation)) || (negb create && opt_is_none confirmation) then sraise (operator_error INVALID_REQUEST) else
  let! fs := sget in
  let! before := slift (recover_startup path fs spec None) in
  if create then
    if bool_decide (rr_code before = RC_MATCH) then recover_report true true SNAPSHOT_PRESENT before (rr_snapshot_sha256 before) None false else
    if negb (bool_decide (rr_code before = JOURNAL_REBUILD_READY))
    then recover_report false (rr_ready before) ACTION_REFUSED before (rr_snapshot_sha256 before) (manual_confirmation_sha256 before) true else
    let! created := storage_guard (create_recovery_snapshot path spec None o) in
    let! fs := sget in
    let! after := slift (recover_startup path fs spec None) in
    if negb (rr_ready after) || negb (bool_decide (rr_code after = RC_MATCH)) then sraise (operator_error OP_STORAGE_ERROR) else
    recover_report true true SNAPSHOT_CREATED after (Some (snapshot_sha256 created)) None false
  else
    match confirmation with
    | Some h =>
        if negb (bool_decide (rr_code before = AMBIGUOUS_COMMIT)) || negb (bool_decide (manual_confirmation_sha256 before = Some h))
        then recover_report false (rr_ready before) ACTION_REFUSED before (rr_snapshot_sha256 before) (manual_confirmation_sha256 before) false else
        do! storage_guard (confirm_pending_snapshot h removable) ;;
        let! fs := sget in
        let! after := slift (recover_startup path fs spec None) in
        recover_report true (rr_ready after) PENDING_CONFIRMED after (rr_snapshot_sha256 after) (Some h) true
    | None => sraise (operator_error INVALID_REQUEST)
    end.

Definition _exit_code (r : operator_report) : Z :=
  if op_ok r && op_ready r then EXIT_READY else
  if bool_decide (op_code r = INVALID_REQUEST \/ op_code r = INVALID_SPEC) then EXIT_INVALID else
  if bool_decide (op_code r = OP_STORAGE_ERROR) then EXIT_STORAGE else EXIT_NOT_READY.

(** What argparse gives: its help, after which it leaves with SystemExit(0); a
    refusal; or a command with its options. *)
Inductive request : Type :=
| Helped
| Rejected
| StatusRequest (as_json : bool)
| ReconcileRequest (as_json : bool)
| RecoverRequest (create : bool) (confirmation : option string) (as_json : bool).

Definition command_name (q : request) : string :=
  match q with Helped | Rejected => "invalid" | StatusRequest _ => "status" | ReconcileRequest _ => "reconcile" | RecoverRequest _ _ _ => "recover" end.
Definition wants_json (q : request) : bool := match q with Helped | Rejected => true | StatusRequest b | ReconcileRequest b | RecoverRequest _ _ b => b end.
Definition failed_command (q : request) (c : operator_code) : operator_report :=
  OperatorReport (command_name q) false false c None None None None None 0 0 0 0 0 0.

(** The command a request runs, once its specification is loaded. *)
Definition run_request (q : request) (path : database) (spec : backtest_spec) (o : commit_outcome) (removable : bool) : stm snapshot_files operator_report :=
  match q with
  | StatusRequest _ => operator_status path spec
  | ReconcileRequest _ => operator_reconcile path spec
  | RecoverRequest create confirmation _ => operator_recover path spec create confirmation o removable
  | Helped => sraise (Raise SystemExit "0")
  | Rejected => sraise (operator_error INVALID_REQUEST)
  end.

(** The bodies of [main]'s two tries: the arguments, then the specification and the
    command. *)
Definition attempt (q : request) (spec_file : file) (path : database) (o : commit_outcome) (removable : bool) : stm snapshot_files operator_report :=
  match q with
  | Helped => sraise (Raise SystemExit "0")
  | Rejected => sraise (operator_error INVALID_REQUEST)
  | _ => let! spec := slift (load_operator_spec spec_file) in run_request q path spec o removable
  end.

(** [except OperatorError as exc]: the failed report of its code. *)
Definition report_failures (q : request) (m : stm snapshot_files operator_report) : stm snapshot_files operator_report := fun fs =>
  let '(fs', out) := m fs in
  (fs', match out with
        | Ok r => Ok r
        | Err e => match error_code e with Some c => new_operator_report (failed_command q c) | None => Err e end
        end).

(** [main]: the printed text and the exit code. *)
Definition main (q : request) (spec_file : file) (path : database) (o : commit_outcome) (removable : bool) : stm snapshot_files (text * Z) :=
  let! r := report_failures q (attempt q spec_file path o removable) in
  let! output := slift (if wants_json q then operator_json r else operator_text r) in
  sret (output, _exit_code r).

(** [raise SystemExit(main())]: the exit status of the process.  Of the calls of
    [main] only the parser's help raises SystemExit, with 0; any other exception
    that escapes [main] ends the interpreter with 1. *)
Definition exit_status (q : request) (out : result (text * Z)) : Z :=
  match out, q with
  | Ok (_, code), _ => code
  | Err _, Helped => 0
  | Err _, _ => 1
  end.

(** * Properties *)

Lemma error_code_known c : error_code (operator_error c) = Some c.
Proof. by destruct c. Qed.

Lemma new_operator_report_ok r r' : new_operator_report r = Ok r' -> r' = r.
Proof. unfold new_operator_report. intros H. apply rbind_ok in H as ([] & _ & H). by apply Ok_inj in H. Qed.

(** ** The specification file *)

Lemma spec_record_json spec : spec_of_json (_spec_record spec) = new_spec spec.
Proof. by destruct spec. Qed.

Lemma spec_record_keyed spec : well_keyed (_spec_record spec) = true.
Proof. reflexivity. Qed.

Lemma same_flag a b k : same_value a b -> get_flag a k = get_flag b k.
Proof.
  intros H. pose proof (same_get a b k H) as Ho. unfold get_flag. destruct (json_get a k) as [x|], (json_get b k) as [y|]; cbn in *; try done; [|congruence].
  destruct Ho as [E _ _], x, y; try discriminate E; cbn in *; congruence.
Qed.

Lemma same_spec a b : same_value a b -> spec_of_json a = spec_of_json b.
Proof. intros H. unfold spec_of_json. by rewrite !(same_text a b _ H), !(same_number a b _ H), !(same_flag a b _ H). Qed.

Lemma plain_decodes_sig l : forallb plain l = true -> decode_sig l = Ok l.
Proof.
  intros H. unfold decode_sig. assert (forall c, c ∈ l -> (32 <= ord c <= 126)%N) as Hc.
  { intros c Hin. apply list_elem_of_In in Hin. pose proof (proj1 (forallb_forall plain l) H c Hin) as Hp. unfold plain in Hp. rewrite andb_true_iff, !N.leb_le in Hp. lia. }
  assert (match l with x :: y :: z :: r => if ((ord x =? 239) && (ord y =? 187) && (ord z =? 191))%N then r else l | _ => l end = l) as ->.
  { destruct l as [|x [|y [|z r]]]; try done. assert (ord x <> 239%N) as Hx by (specialize (Hc x (list_elem_of_here _ _)); lia). by rewrite (proj2 (N.eqb_neq _ _) Hx). }
  assert (forallb (fun c => (ord c <? 128)%N) l = true) as ->; [|done]. apply forallb_forall. intros c Hin. apply N.ltb_lt. apply list_elem_of_In in Hin. specialize (Hc c Hin). lia.
Qed.

(** The canonical record of a specification, written to a file. *)
Definition spec_text (spec : backtest_spec) : text := json_dumps (_spec_record spec).

Lemma load_spec_text spec : spec_valid spec -> byte_count (spec_text spec) <= MAX_SPEC_BYTES -> load_operator_spec (Bytes (spec_text spec)) = Ok spec.
Proof.
  intros Hv Hs. unfold load_operator_spec. rewrite (proj2 (Z.ltb_ge _ _) Hs). unfold spec_text. rewrite (plain_decodes_sig _ (dumps_plain _)). cbn [rbind]. unfold loads.
  pose proof (read_json_dumps (_spec_record spec) [] (spec_record_keyed spec) ltac:(constructor)) as Hr. rewrite app_nil_r in Hr. rewrite Hr. cbn [invalid_spec rbind].
  pose proof (same_norm _ (spec_record_keyed spec)) as Hn. rewrite <- (same_keys _ _ SPEC_KEYS Hn). change (has_keys SPEC_KEYS (_spec_record spec)) with true. cbn [negb].
  rewrite <- (same_spec _ _ Hn), spec_record_json. unfold new_spec. unfold spec_valid in Hv. by rewrite Hv.
Qed.

Lemma loaded_spec_valid f spec : load_operator_spec f = Ok spec -> spec_valid spec.
Proof.
  unfold load_operator_spec. destruct f as [| | |raw]; try done. destruct (_ <? _); [done|]. intros H. apply rbind_ok in H as (p & _ & H). apply raise_if_ok in H as [_ H].
  unfold invalid_spec in H. destruct (spec_of_json p) as [s|] eqn:E; [|done]. apply Ok_inj in H. subst s. unfold spec_of_json in E. do 13 apply rbind_ok in E as (? & _ & E).
  unfold new_spec in E. apply rbind_ok in E as ([] & Hv & E). apply Ok_inj in E. by subst spec.
Qed.

(** ** Reports *)

Lemma recover_match_ready path fs spec policy r : recover_startup path fs spec policy = Ok r -> rr_code r = RC_MATCH \/ rr_code r = JOURNAL_REBUILD_READY -> rr_ready r = true.
Proof.
  intros H Hc. destruct (rr_ready r) eqn:E; [done|]. exfalso. unfold recover_startup in H. cbv zeta in H.
  assert (forall c a b h, refusal_report c a b h = Ok r -> c <> RC_MATCH -> c <> JOURNAL_REBUILD_READY -> False) as Href.
  { intros c a b h Hr H1 H2. unfold refusal_report in Hr. apply new_recovery_report_ok in Hr. subst r. cbn in Hc. by destruct Hc. }
  assert (forall r', rr_ready r' = true -> new_recovery_report r' = Ok r -> False) as Hnew by (intros r' Hr' Hn; apply new_recovery_report_ok in Hn; congruence).
  destruct (exists_file (sf_pending fs)).
  { destruct (_pending_confirmation fs); [by eapply Href|]. destruct (bool_decide _); [by eapply Href|done]. }
  destruct (negb (exists_file (sf_target fs))).
  { apply rbind_ok in H as (source & _ & H). destruct (rp_ready source); [by eapply Hnew; [|exact H]|by eapply Href]. }
  destruct (load_recovery_snapshot _); [|destruct (bool_decide _); [by eapply Href|done]]. destruct (negb _); [by eapply Href|]. destruct (negb _); [by eapply Href|].
  apply rbind_ok in H as (c & _ & H). destruct c; [|by eapply Href]. apply rbind_ok in H as (n & _ & H). destruct (_ || _); [by eapply Href|].
  apply rbind_ok in H as (source & _ & H). destruct (negb _); [by eapply Href|by eapply Hnew; [|exact H]].
Qed.

(** A successful, ready report rests on a database that reconciles. *)
Definition rests_on (path : database) (spec : backtest_spec) : Prop := exists source, reconcile_startup path spec = Ok source /\ rp_ready source = true.

Lemma recovered_rests path fs spec rep : recover_startup path fs spec None = Ok rep -> rr_ready rep = true -> rests_on path spec /\ sf_pending fs = NoFile.
Proof. intros H Hr. destruct (recover_ready_inv path fs spec None rep H Hr) as (source & H1 & H2 & Hp & _). split; [by exists source|done]. Qed.

Lemma slift_inv {S A} (m : result A) (s s' : S) out : slift m s = (s', out) -> s' = s /\ out = m.
Proof. unfold slift. by intros [= <- <-]. Qed.

Lemma recover_report_inv ok ready c r sh h tails fs fs' out : recover_report ok ready c r sh h tails fs = (fs', Ok out) ->
  fs' = fs /\ op_ok out = ok /\ op_ready out = ready /\ op_code out = c /\ op_snapshot_sha256 out = sh.
Proof. unfold recover_report. intros H. apply slift_inv in H as [-> H]. symmetry in H. apply new_operator_report_ok in H. by subst out. Qed.

Lemma storage_guard_ok {A} (m : stm snapshot_files A) fs fs' a : storage_guard m fs = (fs', Ok a) -> m fs = (fs', Ok a).
Proof.
  unfold storage_guard, scatch. destruct (m fs) as [fs1 [b|e]]; cbn [rcatch]; [done|]. by destruct (bool_decide _).
Qed.

Lemma status_rests path spec fs fs' r : operator_status path spec fs = (fs', Ok r) ->
  fs' = fs /\ (op_ok r && op_ready r = true -> rests_on path spec /\ sf_pending fs' = NoFile).
Proof.
  unfold operator_status, sbind, sget. intros H. unfold slift at 1 in H. destruct (recover_startup path fs spec None) as [rep|] eqn:E; [|done].
  apply slift_inv in H as [-> H]. symmetry in H. apply new_operator_report_ok in H. subst r. split; [done|]. cbn [op_ok op_ready andb]. intros Hr. by eapply recovered_rests.
Qed.

Lemma reconcile_rests path spec fs fs' r : operator_reconcile path spec fs = (fs', Ok r) -> fs' = fs /\ (op_ok r && op_ready r = true -> rests_on path spec).
Proof.
  unfold operator_reconcile, sbind. intros H. unfold slift at 1 in H. destruct (reconcile_startup path spec) as [rep|] eqn:E; [|done].
  apply slift_inv in H as [-> H]. symmetry in H. apply new_operator_report_ok in H. subst r. split; [done|]. cbn [op_ok op_ready andb]. intros Hr. by exists rep.
Qed.

Lemma recover_rests path spec create h o rm fs fs' r : operator_recover path spec create h o rm fs = (fs', Ok r) ->
  op_ok r && op_ready r = true -> rests_on path spec /\ sf_pending fs' = NoFile.
Proof.
  unfold operator_recover. destruct (_ || _); [done|]. unfold sbind at 1, sget at 1. unfold sbind at 1, slift at 1.
  destruct (recover_startup path fs spec None) as [before|] eqn:Eb; [|done]. destruct create.
  - case_bool_decide as Hc.
    { intros H _. apply recover_report_inv in H as (-> & _). eapply recovered_rests; [exact Eb|]. eapply recover_match_ready; [exact Eb|by left]. }
    destruct (negb _); [intros H Hok; apply recover_report_inv in H as (_ & Eo & _); rewrite Eo in Hok; done|].
    intros H Hok. apply sbind_ok in H as (fs1 & s & _ & H). apply sbind_ok in H as (fs2 & x & Hx & H). unfold sget in Hx. injection Hx as <- <-.
    apply sbind_ok in H as (fs3 & after & Ha & H). apply slift_inv in Ha as [-> Ha]. symmetry in Ha. destruct (negb (rr_ready after)) eqn:Er; [done|]. cbn [orb] in H. destruct (negb (bool_decide (rr_code after = RC_MATCH))); [done|].
    apply recover_report_inv in H as (-> & _). apply negb_false_iff in Er. by eapply recovered_rests.
  - destruct h as [h|]; [|done]. destruct (_ || _); [intros H Hok; apply recover_report_inv in H as (_ & Eo & _); rewrite Eo in Hok; done|].
    intros H Hok. apply sbind_ok in H as (fs1 & s & _ & H). apply sbind_ok in H as (fs2 & x & Hx & H). unfold sget in Hx. injection Hx as <- <-.
    apply sbind_ok in H as (fs3 & after & Ha & H). apply slift_inv in Ha as [-> Ha]. symmetry in Ha. apply recover_report_inv in H as (-> & Eo & Er & _). rewrite Eo, Er in Hok. cbn [andb] in Hok.
    by eapply recovered_rests.
Qed.

Lemma exit_zero r : _exit_code r = EXIT_READY -> op_ok r && op_ready r = true.
Proof. unfold _exit_code. destruct (_ && _); [done|]. destruct (bool_decide _); [done|]. by destruct (bool_decide _). Qed.

(** A run of [main]: the report that is printed, and where it comes from. *)
Lemma main_inv q file path o rm fs fs' out code : main q file path o rm fs = (fs', Ok (out, code)) -> exists r, code = _exit_code r
  /\ ((exists c, r = failed_command q c)
      \/ exists spec, q <> Helped /\ q <> Rejected /\ load_operator_spec file = Ok spec /\ run_request q path spec o rm fs = (fs', Ok r)).
Proof.
  unfold main. intros H. apply sbind_ok in H as (fs1 & r & Hr & H). apply sbind_ok in H as (fs2 & t & Ht & H). apply slift_inv in Ht as [-> _]. unfold sret in H. injection H as -> _ <-.
  exists r. split; [done|]. unfold report_failures in Hr.
  destruct (attempt q file path o rm fs) as [fs3 x] eqn:E. injection Hr as -> Hr. destruct x as [r'|e].
  - apply Ok_inj in Hr. subst r'. right. assert (q <> Helped /\ q <> Rejected) as [Hq1 Hq2] by (split; intros ->; discriminate E).
    assert ((let! spec := slift (load_operator_spec file) in run_request q path spec o rm) fs = (fs', Ok r)) as Hx by (by destruct q).
    apply sbind_ok in Hx as (fs4 & spec & Hs & Hx). apply slift_inv in Hs as [-> Hs]. exists spec. by split_and!.
  - left. destruct (error_code e) as [c|]; [|done]. exists c. by apply new_operator_report_ok in Hr.
Qed.

(** ** The printed report *)

(** A report whose counts have at most sixty digits, and whose source code is one
    of reconciliation or recovery. *)
Definition short_count (n : Z) : Prop := 0 <= n < 10 ^ 60.
Definition known_source (s : option string) : Prop := match s with None => True | Some h => (exists c, h = code_value c) \/ exists c, h = recovery_code_value c end.
Record small_counts (r : operator_report) : Prop := {
  sc_intents : short_count (op_intents r); sc_orders : short_count (op_orders r); sc_fills : short_count (op_fills r);
  sc_tail_intents : short_count (op_tail_intents r); sc_tail_order_events : short_count (op_tail_order_events r); sc_tail_fills : short_count (op_tail_fills r);
}.

Lemma short_int n : short_count n -> 0 <= Z.of_nat (length (json_int n)) <= 60 /\ text_bound (JInt n) <= 61.
Proof.
  intros [H1 H2]. cbn [text_bound]. unfold json_int. rewrite (proj2 (Z.ltb_ge _ _) H1). destruct (digits_of_spec (Z.abs_N n)) as (_ & _ & Hl).
  assert (ndigits (Z.abs_N n) <= 60)%N; [|lia]. apply ndigits_le; [lia|]. change (10 ^ 60)%N with (Z.to_N (10 ^ 60)). lia.
Qed.

Lemma known_source_short s : known_source s -> match s with Some h => Z.of_nat (length (txt h)) <= 29 | None => True end.
Proof. destruct s as [h|]; [|done]. intros [[c ->]|[c ->]]; destruct c; vm_compute; discriminate. Qed.

Lemma digest_length h : sha256_pattern h = true -> length (txt h) = 64%nat.
Proof. unfold sha256_pattern. rewrite andb_true_iff, Nat.eqb_eq. tauto. Qed.

(** What [__post_init__] lets through. *)
Lemma post_init_inv r : operator_report_post_init r = Ok tt -> str_in (op_command r) ["status"; "reconcile"; "recover"; "invalid"]%string = true
  /\ forall h, Some h ∈ [op_spec_sha256 r; op_reconciliation_sha256 r; op_snapshot_sha256 r; op_confirmation_sha256 r] -> sha256_pattern h = true.
Proof.
  unfold operator_report_post_init. destruct (negb _) eqn:E; [done|]. apply negb_false_iff in E. destruct (existsb _ [op_spec_sha256 r; _; _; _]) eqn:F; [done|]. intros _. split; [done|].
  intros h Hh. apply not_true_iff_false in F. destruct (sha256_pattern h) eqn:G; [done|]. exfalso. apply F, existsb_exists. exists (Some h). split; [by apply list_elem_of_In|by rewrite G].
Qed.

Lemma command_short r : operator_report_post_init r = Ok tt -> Z.of_nat (length (txt (op_command r))) <= 9.
Proof.
  intros H. destruct (post_init_inv r H) as [Hc _]. unfold str_in in Hc. apply existsb_exists in Hc as (x & Hx & E). apply String.eqb_eq in E. rewrite E.
  repeat (destruct Hx as [<-|Hx]; [vm_compute; discriminate|]). done.
Qed.

Lemma opt_digest_bound v : (forall h, v = Some h -> sha256_pattern h = true) -> text_bound (JOptStr v) <= 386.
Proof. intros H. destruct v as [h|]; [|cbn; lia]. cbn [JOptStr text_bound]. by rewrite (digest_bound h (H h eq_refl)). Qed.

Lemma json_fits r : operator_report_post_init r = Ok tt -> known_source (op_source_code r) -> small_counts r -> exists t, operator_json r = Ok t /\ byte_count t <= MAX_OUTPUT_BYTES.
Proof.
  intros Hi Hs [C1 C2 C3 C4 C5 C6]. unfold operator_json, bounded_output.
  assert (byte_count (json_dumps (JObj (operator_as_record r ++ [("report_sha256"%string, JStr (operator_sha256 r))]))) <= MAX_OUTPUT_BYTES) as H.
  { unfold byte_count. etransitivity; [apply dumps_bound|]. pose proof (command_short r Hi) as Hc. apply post_init_inv in Hi as [_ Hd].
    assert (forall v, v ∈ [op_spec_sha256 r; op_reconciliation_sha256 r; op_snapshot_sha256 r; op_confirmation_sha256 r] -> text_bound (JOptStr v) <= 386) as Ho
      by (intros v Hv; apply opt_digest_bound; intros h ->; by apply Hd).
    pose proof (Ho (op_spec_sha256 r) ltac:(in_list)) as O1. pose proof (Ho (op_reconciliation_sha256 r) ltac:(in_list)) as O2.
    pose proof (Ho (op_snapshot_sha256 r) ltac:(in_list)) as O3. pose proof (Ho (op_confirmation_sha256 r) ltac:(in_list)) as O4. clear Ho Hd.
    assert (text_bound (JOptStr (op_source_code r)) <= 176) as O5.
    { apply known_source_short in Hs. destruct (op_source_code r); cbn [JOptStr text_bound]; unfold string_bound; lia. }
    assert (text_bound (JStr (operator_code_value (op_code r))) <= 104) as O6 by (destruct (op_code r); vm_compute; discriminate).
    assert (text_bound (JStr (op_command r)) <= 56) as O7 by (cbn [text_bound]; unfold string_bound; lia).
    assert (text_bound (JStr (operator_sha256 r)) <= 386) as O8 by (cbn [text_bound]; unfold operator_sha256; by rewrite (digest_bound _ (digest_pattern _))).
    apply short_int in C1 as [_ C1], C2 as [_ C2], C3 as [_ C3], C4 as [_ C4], C5 as [_ C5], C6 as [_ C6].
    unfold operator_as_record. generalize dependent (operator_sha256 r). intros sha O8. set (M := MAX_OUTPUT_BYTES). cbn [app]. 
    change (text_bound (JObj ?l)) with (sum_bounds (map (fun kv => string_bound (fst kv) + 1 + text_bound (snd kv)) l)). 
    unfold sum_bounds. cbn [map fst snd fold_right].
    change (text_bound (JObj ?l)) with (sum_bounds (map (fun kv => string_bound (fst kv) + 1 + text_bound (snd kv)) l)). 
    unfold sum_bounds. cbn [map fst snd fold_right].
    repeat match goal with |- context [string_bound ?k] => let v := eval vm_compute in (string_bound k) in change (string_bound k) with v end.
    change (text_bound (JInt OPERATOR_SCHEMA_VERSION)) with 2. change (text_bound (JBool (op_ok r))) with 5. change (text_bound (JBool (op_ready r))) with 5. unfold M, MAX_OUTPUT_BYTES. lia. }
  rewrite (proj2 (Z.ltb_ge _ _) H). by eexists.
Qed.

Lemma lines_length l : Z.of_nat (length (lines l)) <= fold_right (fun t n => Z.of_nat (length t) + 1 + n) 0 l.
Proof.
  assert (Z.of_nat (length (concat (map (fun y => chr 10 :: y) l))) = fold_right (fun t n => Z.of_nat (length t) + 1 + n) 0 l) as H.
  { induction l as [|t l IH]; [done|]. cbn [map concat fold_right]. rewrite length_app. cbn [length]. lia. }
  destruct l as [|t l]; [done|]. cbn [lines]. cbn [map concat app length] in H. lia.
Qed.

Lemma text_output_fits r : operator_report_post_init r = Ok tt -> known_source (op_source_code r) -> small_counts r -> exists t, operator_text r = Ok t /\ byte_count t <= MAX_OUTPUT_BYTES.
Proof.
  intros Hi Hs [C1 C2 C3 C4 C5 C6]. unfold operator_text, bounded_output. cbv zeta.
  match goal with |- context [byte_count ?l] => assert (byte_count l <= MAX_OUTPUT_BYTES) as H; [|rewrite (proj2 (Z.ltb_ge _ _) H); by eexists] end.
  unfold byte_count. etransitivity; [apply lines_length|]. pose proof (command_short r Hi) as Hc. apply post_init_inv in Hi as [_ Hd].
  assert (forall v, (forall h, v = Some h -> Z.of_nat (length (txt h)) <= 64) -> Z.of_nat (length (or_dash v)) <= 64) as Hopt.
  { intros [h|] Hh; [|vm_compute; discriminate]. specialize (Hh h eq_refl). destruct h; [vm_compute; discriminate|exact Hh]. }
  assert (forall v, v ∈ [op_spec_sha256 r; op_reconciliation_sha256 r; op_snapshot_sha256 r; op_confirmation_sha256 r] -> Z.of_nat (length (or_dash v)) <= 64) as Ho
    by (intros v Hv; apply Hopt; intros h ->; rewrite (digest_length h (Hd h Hv)); lia).
  pose proof (Ho (op_spec_sha256 r) ltac:(in_list)) as O1. pose proof (Ho (op_reconciliation_sha256 r) ltac:(in_list)) as O2.
  pose proof (Ho (op_snapshot_sha256 r) ltac:(in_list)) as O3. pose proof (Ho (op_confirmation_sha256 r) ltac:(in_list)) as O4. clear Ho Hd.
  assert (Z.of_nat (length (or_dash (op_source_code r))) <= 64) as O5.
  { apply Hopt. intros h E. apply known_source_short in Hs. rewrite E in Hs. lia. }
  assert (forall b : bool, Z.of_nat (length (txt (if b then "true" else "false"))) <= 5) as O6 by (intros []; vm_compute; discriminate).
  pose proof (O6 (op_ok r)) as O7. pose proof (O6 (op_ready r)) as O8. clear O6.
  assert (Z.of_nat (length (txt (operator_code_value (op_code r)))) <= 17) as O6 by (destruct (op_code r); vm_compute; discriminate).
  assert (Z.of_nat (length (txt (operator_sha256 r))) = 64) as O9 by (unfold operator_sha256; by rewrite (digest_length _ (digest_pattern _))).
  apply short_int in C1 as [C1 _], C2 as [C2 _], C3 as [C3 _], C4 as [C4 _], C5 as [C5 _], C6 as [C6 _].
  generalize dependent (operator_sha256 r). intros sha O9.
  cbn [map fold_right fst snd]. rewrite !length_app. cbn [length].
  repeat match goal with |- context [length (txt (String ?a ?b))] => let v := eval vm_compute in (length (txt (String a b))) in change (length (txt (String a b))) with v end.
  unfold MAX_OUTPUT_BYTES. lia.
Qed.

Lemma output_fits q r : operator_report_post_init r = Ok tt -> known_source (op_source_code r) -> small_counts r ->
  exists t, (if wants_json q then operator_json r else operator_text r) = Ok t /\ byte_count t <= MAX_OUTPUT_BYTES.
Proof. intros. destruct (wants_json q); [by apply json_fits|by apply text_output_fits]. Qed.

Lemma failed_command_ok q c : operator_report_post_init (failed_command q c) = Ok tt /\ known_source (op_source_code (failed_command q c)) /\ small_counts (failed_command q c).
Proof. split; [by destruct q|]. split; [done|]. by constructor. Qed.

Lemma reported_valid r r' fs fs' : slift (new_operator_report r) fs = (fs' : snapshot_files, Ok r') -> known_source (op_source_code r) ->
  operator_report_post_init r' = Ok tt /\ known_source (op_source_code r').
Proof.
  intros H Hs. apply slift_inv in H as [_ H]. symmetry in H. unfold new_operator_report in H. apply rbind_ok in H as ([] & Hi & H). apply Ok_inj in H. by subst r'.
Qed.

Lemma recovery_source ok ready c r sh h tails fs fs' out : recover_report ok ready c r sh h tails fs = (fs', Ok out) ->
  operator_report_post_init out = Ok tt /\ known_source (op_source_code out).
Proof. unfold recover_report. intros H. eapply reported_valid; [exact H|]. right. by eexists. Qed.

(** What a command reports is well formed, with the code of recovery or reconciliation. *)
Lemma run_valid q path spec o rm fs fs' r : run_request q path spec o rm fs = (fs', Ok r) -> operator_report_post_init r = Ok tt /\ known_source (op_source_code r).
Proof.
  destruct q as [| |b|b|create h b]; cbn [run_request]; [done|done|..].
  - intros H. apply sbind_ok in H as (fs1 & x & _ & H). apply sbind_ok in H as (fs2 & rep & _ & H). eapply reported_valid; [exact H|]. right. by eexists.
  - intros H. apply sbind_ok in H as (fs1 & rep & _ & H). eapply reported_valid; [exact H|]. left. by eexists.
  - unfold operator_recover. destruct (_ || _); [done|]. intros H. apply sbind_ok in H as (fs1 & x & _ & H). apply sbind_ok in H as (fs2 & before & _ & H). destruct create.
    + case_bool_decide; [by eapply recovery_source|]. destruct (negb _); [by eapply recovery_source|]. apply sbind_ok in H as (fs3 & s & _ & H). apply sbind_ok in H as (fs4 & y & _ & H).
      apply sbind_ok in H as (fs5 & after & _ & H). destruct (negb (rr_ready after) || _); [done|]. by eapply recovery_source.
    + destruct h as [h|]; [|done]. destruct (_ || _); [by eapply recovery_source|]. apply sbind_ok in H as (fs3 & s & _ & H). apply sbind_ok in H as (fs4 & y & _ & H).
      apply sbind_ok in H as (fs5 & after & _ & H). by eapply recovery_source.
Qed.

Lemma attempt_valid q file path o rm fs fs' r : attempt q file path o rm fs = (fs', Ok r) -> operator_report_post_init r = Ok tt /\ known_source (op_source_code r).
Proof.
  intros H. assert ((let! spec := slift (load_operator_spec file) in run_request q path spec o rm) fs = (fs', Ok r)) as Hx by (by destruct q).
  apply sbind_ok in Hx as (fs1 & spec & _ & Hx). by eapply run_valid.
Qed.

(** ** Creating the first snapshot *)

Lemma recovered_without_snapshot f spec source : reconcile_startup (Opened f) spec = Ok source -> rp_ready source = true ->
  recover_startup (Opened f) (SnapshotFiles NoFile NoFile) spec None = Ok (RecoveryReport true JOURNAL_REBUILD_READY (Some (report_sha256 source)) None 0 0 0 None).
Proof.
  intros Hs Hr. unfold recover_startup. cbn [exists_file sf_pending sf_target negb]. rewrite Hs. cbn [rbind]. rewrite Hr. apply ready_report_ok; [done|apply digest_pattern|done|lia..].
Qed.

(** The report of [recover --create-snapshot] over a matching snapshot. *)
Definition matched (c : operator_code) (source : reconciliation_report) (s : recovery_snapshot) : operator_report :=
  OperatorReport "recover" true true c (Some "MATCH"%string) None (Some (report_sha256 source)) (Some (snapshot_sha256 s)) None 0 0 0 0 0 0.

Lemma matched_ok c source s : new_operator_report (matched c source s) = Ok (matched c source s).
Proof.
  unfold new_operator_report, operator_report_post_init. cbn [matched op_command op_spec_sha256 op_reconciliation_sha256 op_snapshot_sha256 op_confirmation_sha256 op_intents op_orders op_fills
    op_tail_intents op_tail_order_events op_tail_fills existsb]. rewrite snapshot_sha_pattern. unfold report_sha256. rewrite digest_pattern. reflexivity.
Qed.

Lemma matched_report c source s (fs : snapshot_files) : recover_report true true c (tail_report source s 0 0 0) (Some (snapshot_sha256 s)) None false fs = (fs, Ok (matched c source s)).
Proof.
  unfold recover_report, slift. cbv zeta. cbn [tail_report rr_code rr_reconciliation_sha256 tail_intents tail_order_events tail_fills]. change (tail_code 0 0 0) with RC_MATCH.
  change (recovery_code_value RC_MATCH) with "MATCH"%string. f_equal. exact (matched_ok c source s).
Qed.
(** * Claims *)

(** C35. Exit status 0 is given over a sound state only.  Whatever the request, the
    files, the database and the answers of the operating system, a run of the
    program that ends with 0 either only printed the help of the parser, which
    touches nothing, or has loaded a valid specification, and the database
    reconciles under it and is sound: its orders, fills, ledger and projection
    agree; after status and recover no commit is pending. *)
Theorem exit_zero_sound q file path o removable fs fs' out (Hk : forall f, path = Opened f -> keyed (ef_db f))
    (H : main q file path o removable fs = (fs', out)) (Hz : exit_status q out = EXIT_READY) :
  (q = Helped /\ fs' = fs /\ out = Err (Raise SystemExit "0"))
  \/ exists spec f events l, load_operator_spec file = Ok spec /\ spec_valid spec /\ path = Opened f /\ schema_ok f
    /\ sound_state spec (ef_db f) events l /\ (sf_pending fs' = NoFile \/ exists as_json, q = ReconcileRequest as_json).
Proof.
  destruct out as [[t code]|e]; [right; cbn in Hz; subst code|left; destruct q; [|discriminate Hz..]; injection H as <- <-; done].
  destruct (main_inv _ _ _ _ _ _ _ _ _ H) as (r & Hc & [(c & Er)|(spec & Hq1 & Hq2 & Hspec & Hrun)]); symmetry in Hc; apply exit_zero in Hc; [subst r; discriminate Hc|].
  assert (rests_on path spec /\ (sf_pending fs' = NoFile \/ exists b, q = ReconcileRequest b)) as [(source & Hs & Hr) Hp].
  { destruct q as [| |b|b|create h b]; [done|done|..]; cbn [run_request] in Hrun.
    - destruct (status_rests _ _ _ _ _ Hrun) as [_ Hx]. destruct (Hx Hc). auto.
    - destruct (reconcile_rests _ _ _ _ _ Hrun) as [_ Hx]. split; [auto|right; by exists b].
    - destruct (recover_rests _ _ _ _ _ _ _ _ _ Hrun Hc). auto. }
  pose proof (loaded_spec_valid _ _ Hspec) as Hv. destruct path as [| |f]; [apply startup_cases in Hs as [(f & Ef & _)|(x & _ & E)]; [discriminate Ef|by rewrite E in Hr]..|].
  destruct (reconciled_sound Hv (Hk f eq_refl) Hs Hr) as (events & l & Hl & _ & Hsch). exists spec, f, events, l. by split_and!.
Qed.

(** C39. Whatever the report, it is printed.  Take any request, files, database and
    answers of the operating system.  When the command gives a report whose counts
    have at most sixty digits, its text (JSON or lines) is within the 4 KiB limit,
    so [main] returns it with the report's exit code; when the command refuses, the
    refusal is printed in the same way, as a failed report of the request; any other
    exception is the command's own, and printing adds none. *)
Theorem main_prints q file path o removable fs fs' out (H : attempt q file path o removable fs = (fs', out)) :
  match out with
  | Ok r => small_counts r -> exists t, main q file path o removable fs = (fs', Ok (t, _exit_code r)) /\ byte_count t <= MAX_OUTPUT_BYTES
  | Err e =>
      match error_code e with
      | Some c => exists t, main q file path o removable fs = (fs', Ok (t, _exit_code (failed_command q c))) /\ byte_count t <= MAX_OUTPUT_BYTES
                  /\ _exit_code (failed_command q c) <> EXIT_READY
      | None => main q file path o removable fs = (fs', Err e)
      end
  end.
Proof.
  unfold main, sbind, report_failures. rewrite H. destruct out as [r|e].
  - intros Hc. destruct (attempt_valid _ _ _ _ _ _ _ _ H) as [Hi Hs]. destruct (output_fits q r Hi Hs Hc) as (t & Ht & Hsize). exists t. unfold slift, sret. by rewrite Ht.
  - destruct (error_code e) as [c|]; [|done]. destruct (failed_command_ok q c) as (Hi & Hs & Hc). destruct (output_fits q _ Hi Hs Hc) as (t & Ht & Hsize). exists t.
    unfold new_operator_report, slift, sret. rewrite Hi. cbn [rbind]. rewrite Ht. split_and!; [done|done|]. unfold _exit_code, failed_command. cbn [op_ok andb op_code]. by destruct c.
Qed.

(** C38. [recover --create-snapshot] over a reconciled database with no snapshot.  The
    snapshot of the current state is written; when its text is within the size limit
    the command reports SNAPSHOT_CREATED with its digest and exit code 0, and
    running it again, whatever the operating system would answer, writes nothing and
    reports SNAPSHOT_PRESENT with the same evidence.  When the text exceeds the
    limit the command fails with STORAGE_ERROR, but the file stays, and from then on
    status reports SNAPSHOT_CORRUPT with exit code 20. *)
Theorem create_command_exact spec f source removable (Hspec : spec_valid spec) (Hk : keyed (ef_db f))
    (Hs : reconcile_startup (Opened f) spec = Ok source) (Hready : rp_ready source = true) :
  exists s,
    let fs := SnapshotFiles (Bytes (snapshot_text s)) NoFile in
    _build_snapshot (Opened f) spec default_execution_policy = Ok s
    /\ (fits_file s ->
          operator_recover (Opened f) spec true None Committed removable (SnapshotFiles NoFile NoFile) = (fs, Ok (matched SNAPSHOT_CREATED source s))
          /\ (forall o, operator_recover (Opened f) spec true None o removable fs = (fs, Ok (matched SNAPSHOT_PRESENT source s)))
          /\ _exit_code (matched SNAPSHOT_CREATED source s) = EXIT_READY /\ _exit_code (matched SNAPSHOT_PRESENT source s) = EXIT_READY)
    /\ (~ fits_file s ->
          operator_recover (Opened f) spec true None Committed removable (SnapshotFiles NoFile NoFile) = (fs, Err (operator_error OP_STORAGE_ERROR))
          /\ exists r, operator_status (Opened f) spec fs = (fs, Ok r) /\ op_source_code r = Some "SNAPSHOT_CORRUPT"%string /\ _exit_code r = EXIT_NOT_READY).
Proof.
  destruct (reconciled_built Hspec Hk Hs Hready default_execution_policy) as (states & Est & Hrows & Hbuild).
  pose proof (recover_extended Hspec Hk Hs Hready Hk Hs Hready (reflexivity (ef_db f)) states Est Hrows) as Hext. cbv zeta in Hext. rewrite !Z.sub_diag in Hext.
  pose proof (recovered_without_snapshot f spec source Hs Hready) as Hno. set (s := built _ _ _ _ _ _ _) in *. exists s. cbv zeta. split; [exact Hbuild|].
  assert (storage_guard (create_recovery_snapshot (Opened f) spec None Committed) (SnapshotFiles NoFile NoFile) = (SnapshotFiles (Bytes (snapshot_text s)) NoFile, Ok s)) as Hcreate
    by (unfold storage_guard, scatch, create_recovery_snapshot, sbind, slift; rewrite Hbuild; reflexivity).
  split; intros Hfit.
  - unfold fits_file in Hfit. rewrite (proj2 (Z.leb_le _ _) Hfit) in Hext. split_and!; [| |reflexivity|reflexivity].
    + unfold operator_recover. cbn [opt_is_none negb andb orb]. unfold sbind, sget, slift. rewrite Hno. cbn [rr_code]. rewrite bool_decide_false, bool_decide_true by done. cbn [negb].
      rewrite Hcreate, Hext. cbn [tail_report rr_ready rr_code negb orb]. rewrite bool_decide_true by done. cbn [negb]. apply matched_report.
    + intros o. unfold operator_recover. cbn [opt_is_none negb andb orb]. unfold sbind, sget, slift. rewrite Hext. cbn [tail_report rr_code rr_snapshot_sha256]. rewrite bool_decide_true by done.
      apply matched_report.
  - unfold fits_file in Hfit. rewrite (proj2 (Z.leb_gt _ _)) in Hext by lia. split.
    + unfold operator_recover. cbn [opt_is_none negb andb orb]. unfold sbind, sget, slift. rewrite Hno. cbn [rr_code]. rewrite bool_decide_false, bool_decide_true by done. cbn [negb].
      rewrite Hcreate, Hext. reflexivity.
    + eexists. unfold operator_status, sbind, sget, slift. rewrite Hext. split_and!; reflexivity.
Qed.

(** ** Witnesses *)

Lemma sample_attempt : exists r, small_counts r /\ _exit_code r = EXIT_READY
  /\ attempt (StatusRequest true) (Bytes (spec_text (store_specs "BTCUSDT"))) (Opened (sample_file sample_store)) Committed true (SnapshotFiles NoFile NoFile)
     = (SnapshotFiles NoFile NoFile, Ok r).
Proof.
  destruct sample_ready as (source & Hs & Hready).
  exists (OperatorReport "status" true true OP_READY (Some "JOURNAL_REBUILD_READY"%string) None (Some (report_sha256 source)) None None 0 0 0 0 0 0).
  split; [clear; by constructor|]. split; [reflexivity|]. unfold attempt, sbind. unfold slift at 1. rewrite load_spec_text.
  - cbn [run_request]. unfold operator_status, sbind, sget, slift. rewrite (recovered_without_snapshot _ _ source Hs Hready). unfold new_operator_report, operator_report_post_init.
    cbn [rr_ready rr_code rr_reconciliation_sha256 rr_snapshot_sha256 manual_confirmation_sha256 tail_intents tail_order_events tail_fills recovery_code_value op_command op_spec_sha256
      op_reconciliation_sha256 op_snapshot_sha256 op_confirmation_sha256 op_intents op_orders op_fills op_tail_intents op_tail_order_events op_tail_fills existsb].
    unfold report_sha256. rewrite digest_pattern. reflexivity.
  - exact (proj1 (store_specs_ok "BTCUSDT" eq_refl)).
  - unfold byte_count, spec_text. etransitivity; [apply dumps_bound|]. apply (bool_decide_unpack _). vm_compute. reflexivity.
Qed.

Lemma sample_keyed f : Opened (sample_file sample_store) = Opened f -> keyed (ef_db f).
Proof. intros E. assert (sample_file sample_store = f) as <- by congruence. exact (inv_keyed _ sample_store_inv). Qed.

Lemma sample_exit_zero : exists t, main (StatusRequest true) (Bytes (spec_text (store_specs "BTCUSDT"))) (Opened (sample_file sample_store)) Committed true (SnapshotFiles NoFile NoFile)
  = (SnapshotFiles NoFile NoFile, Ok (t, EXIT_READY)).
Proof.
  destruct sample_attempt as (r & Hc & Hx & H). destruct (attempt_valid _ _ _ _ _ _ _ _ H) as [Hi Hs].
  destruct (output_fits (StatusRequest true) r Hi Hs Hc) as (t & Ht & _). exists t. unfold main, sbind, report_failures. rewrite H. unfold slift, sret. rewrite Ht, Hx. reflexivity.
Qed.

Lemma exit_zero_sound_witness : exists t events l,
  main (StatusRequest true) (Bytes (spec_text (store_specs "BTCUSDT"))) (Opened (sample_file sample_store)) Committed true (SnapshotFiles NoFile NoFile)
    = (SnapshotFiles NoFile NoFile, Ok (t, EXIT_READY))
  /\ exists spec, sound_state spec sample_store events l.
Proof.
  destruct sample_exit_zero as (t & Ht).
  destruct (exit_zero_sound _ _ (Opened (sample_file sample_store)) _ _ _ _ _ sample_keyed Ht eq_refl) as [[Hq _]|(spec & f & events & l & _ & _ & Ef & _ & Hl & _)];
    [discriminate Hq|].
  exists t, events, l. split; [exact Ht|]. exists spec. assert (sample_file sample_store = f) as <- by congruence. exact Hl.
Defined.

Lemma main_prints_witness : exists t, main Rejected NoFile Missing Committed true (SnapshotFiles NoFile NoFile) = (SnapshotFiles NoFile NoFile, Ok (t, EXIT_INVALID)).
Proof.
  destruct (main_prints Rejected NoFile Missing Committed true (SnapshotFiles NoFile NoFile) _ _ eq_refl) as (t & Ht & _). exists t. exact Ht.
Defined.

Lemma create_command_exact_witness : exists s source,
  _build_snapshot (Opened (sample_file sample_store)) (store_specs "BTCUSDT") default_execution_policy = Ok s
  /\ (fits_file s -> operator_recover (Opened (sample_file sample_store)) (store_specs "BTCUSDT") true None Committed true (SnapshotFiles NoFile NoFile)
       = (SnapshotFiles (Bytes (snapshot_text s)) NoFile, Ok (matched SNAPSHOT_CREATED source s))).
Proof.
  destruct sample_ready as (source & Hs & Hready).
  destruct (create_command_exact (store_specs "BTCUSDT") (sample_file sample_store) source true (proj1 (store_specs_ok "BTCUSDT" eq_refl)) (inv_keyed _ sample_store_inv) Hs Hready)
    as (s & Hb & Hfit & _). exists s, source. split; [exact Hb|]. intros Hf. exact (proj1 (Hfit Hf)).
Defined.
